(* ===== verification/_CoqProject ===== *)
-Q . S2P
Prelude.v
SockAddr.v
Properties.v
Endpoint.v
Security.v
Uuid.v
Logging.v
Message.v
Protocols.v
Candidates.v
Gathering.v
World.v
SocketManagers.v
Connections.v
Udp.v
Tcp.v
QuicSockets.v
Quic.v
Loop.v
ConnectionFacts.v
Opening.v
Lifecycle.v
TcpLifecycle.v
TcpMessages.v
QuicFacts.v
QuicClosing.v
QuicLifecycle.v
Dependents.v
Listening.v
Hazards.v
Racing.v
RacingEndpoints.v
RacingFacts.v
RacingSends.v
RacingSimple.v
RacingHazards.v
RacingConnections.v
Preconnection.v
ListenerLifecycle.v
QuicListener.v
Listeners.v
Initiating.v
Library.v
Typing.v
TypingConnections.v
TypingProtocols.v
TypingQuic.v
TypeSafety.v
