(* ===== verification/Prelude.v ===== *)
(** * CTaps: a verification development

    CTaps (src/) is an implementation in C of the IETF's transport services
    API (TAPS): an application describes endpoints and properties in a
    preconnection, and the library gathers candidates, races connection
    attempts over UDP, TCP and QUIC and gives back a connection that sends and
    receives messages.  It runs on a libuv event loop and on GLib's
    containers.  This development models the library's own logic and proves
    what makes it correct, and where it is not.

    ** How the program is modelled

    C code becomes functions of a state-and-error monad [M S A] (this file):
    a run ends with a value and a state, or with [UB], the point where the C
    program has no defined continuation (a NULL or dangling dereference, a
    failed assertion of the code or of libuv, an access out of bounds).  So a
    theorem [wp m Q s] says that [m] has no undefined behaviour from [s], ends,
    and ends in [Q]; [aborts m s] says that it reaches undefined behaviour.
    The heap is an oracle for the outcomes of allocations ([oracle_ok]: all
    succeed) and the number of live blocks, from which leak freedom is stated
    ([frees], [allocs]).  Integers are [Z] with their width written out ([u8],
    [u16], [u32], [u64]), byte buffers lists of [Z], [sockaddr_storage] its
    128 bytes.

    From World.v on the state is [world]: tables, by identifier, of the
    connections, groups, socket managers, listeners, libuv handles and pending
    requests, so that an identifier without an entry is a freed object and two
    holders of an identifier share the object.  The world also holds what the
    environment will answer (libuv's return codes [w_uv], socket names
    [w_names], random bytes) and the calls of application callbacks so far, in
    order ([w_calls]).  libuv closes a handle in two steps: [uv_close] asserts
    that the handle is open, and [handle_closed] is the loop running the close
    callback later; a handle may be freed only after that.

    ** Files, in order, and the code they model (paths below src/src/)

    - Prelude: the monad, [wp] and its tactics ([wp_step], [wp_steps]), the
      heap, [frees]/[allocs] and the lemmas on lists the components share.
    - SockAddr: endpoint/util.c, the address part of socket_utils.c.
    - Properties: transport_property/ and the property tables of
      include/ctaps.h and ctaps_internal.h.
    - Endpoint: endpoint/local_endpoint.c, remote_endpoint.c, port_util.c.
    - Security: security_parameter/, with the pointers of the parameters
      (NULL, valid, uninitialised, dangling) as values.
    - Uuid: util/uuid_util.c.   Message: message/.
    - Logging: logging/log.c, with the registry of destinations that the
      logger implements.
    - Protocols: protocol/protocol_registry.c, common/protocol.c, the
      selection tables of udp.c, tcp.c and quic.c, and the comparison of
      protocols in candidate_gathering.c.
    - Candidates, Gathering: candidate_gathering/candidate_gathering.c, the
      tree of candidates built while name resolutions are outstanding; the
      definitions are in Candidates, the proofs in Gathering.
    - World: the objects of ctaps_internal.h, libuv and GLib as used.
    - SocketManagers: connection/socket_manager/socket_manager.c,
      connection_group.c, states of connections and listeners.
    - Connections: connection/connection.c, and the operations of groups and
      socket managers that call a protocol.
    - Udp, Tcp: protocol/udp/udp.c, protocol/tcp/tcp.c and the sockets of
      common/socket_utils.c.
    - QuicSockets, Quic: protocol/quic/quic.c and the poll handles of
      common/socket_utils.c: sockets with their picoquic context, timer and
      poll handle; streams, the events of picoquic, the operations.
    - Loop: the dispatch through [ct_protocol_impl_t] and the events of the
      libuv loop.
    - ConnectionFacts: rules for the operations of the world; the queues of
      messages and receive callbacks; the active remote endpoint.
    - Opening, Lifecycle, TcpLifecycle: a connection over UDP and over TCP
      from creation to release, and the sending of messages over UDP.
      TcpMessages: messages sent over TCP, and the stream that arrives.
    - QuicFacts, QuicClosing: the timer of a QUIC socket, messages as data of
      a stream, and the two ways to the end of a QUIC connection.
      QuicLifecycle: a client connection over QUIC from creation to release.
    - Dependents: when a socket manager closes its socket.
    - Listening: the demultiplexing of a UDP listener.
    - Hazards: sequences of calls that reach undefined behaviour.
    - Racing: candidate_gathering/candidate_racing.c.  RacingEndpoints: the
      arrays of endpoints an attempt is given.  RacingFacts: the race against
      the contract of the connections it opens.  RacingSends: connections that
      record what they are opened with and asked to send.  RacingSimple: an
      implementation of the contract, and an executed race.
      RacingConnections: the library's connections over TCP and UDP implement
      the contract too; the race on them, and the races outside of its
      hypotheses.  RacingHazards: the race that closes its timer twice.
    - Preconnection: connection/preconnection.c, listener.c.
      ListenerLifecycle, QuicListener: a listener over UDP, TCP and QUIC from
      creation to release.  Listeners: from the application's call through
      gathering to the release of the listener.  Initiating: the
      initiation of a connection from the application's call, through
      gathering and racing, to the last event.
    - Library: state/ctaps_state.c, the sessions of the library.
    - Typing, TypingConnections, TypingProtocols, TypingQuic: the kinds of
      objects behind the [void*] fields, a judgement [safe] with its tactic
      [ty], and a rule for every operation of the world.  TypeSafety: the
      library as a transition system of operations, loop events and decisions
      of the outside, and the theorems about its reachable worlds.

    Definitions have the names of the C functions and types; constructors of
    records are the field names with a prefix ([cn_], [sm_], [gr_], [li_]).

    ** Interfaces

    - [SocketImpl], [CloseImpl], [ProtocolOps] (SocketManagers, Connections)
      are the entries of [ct_protocol_impl_t]; Loop.v instantiates them with
      UDP, TCP and QUIC.
    - [Picoquic] (QuicSockets): what the picoquic library answers about its
      connections, as functions of everything that happened.  Its return codes
      are taken from [w_uv]; what it does on its own account, the events it
      reports from inside its functions ([q_callbacks]) and the packets it
      prepares ([q_packets]), is scripted in the world, and what it is told is
      logged in order ([q_log]).
    - [Framers]: the application's framers.  [HashOrder]: the unspecified
      order of GLib's hash tables, a permutation.
    - [TypedSockets], [TypedClose], [TypedProtocols] (TypingConnections): the
      kinds of objects that the entries of [ct_protocol_impl_t] are called
      with; TypeSafety.v proves them for the three protocols.
      [TypedFramers]: a framer passes its result on for the connection it was
      called for; it is the hypothesis of the type theorems about the
      application's framers, and holds of [plain_framers].
    - [RaceOps] (Racing): what a race asks of connections; [ctaps_race_ops]
      is the library's.  [RaceContract] (RacingFacts): its laws, under which
      the race is proved, over an abstract view of the connections: which are
      new, opening, open or gone, which events each still owes, and the log of
      what it was opened with and asked to send.  A law says that an owed event
      can happen ([law_owed]).  [Simple.simple_contract] shows that the laws
      can hold, [conn_contract] (RacingConnections) that the library's
      connections over TCP and UDP obey them, and [recorded_contract]
      (RacingSends) that they still do when the calls are recorded in the state,
      where theorems can name them.
    - [ListenerContract] (ListenerLifecycle): what a protocol promises to a
      listener, that its socket is open, bound to the endpoint's address and
      hands over to the listener's socket manager what arrives ([listens_for]),
      and that ending the listener releases everything; [udp_serves], [tcp_serves] and [quic_serves] prove it, and
      Listeners uses nothing else of the protocols.
    - Gathering's parameters are GLib's traversal ([traversal_ok]) and sort,
      [uv_interface_addresses], [getaddrinfo] and [uv_getaddrinfo], as
      arguments of the definitions; [answers_ok] (Initiating) is what the
      system's documentation says of their answers, and [initiable] what a
      preconnection has to be for an initiation to be covered.

    ** What the theorems show

    - Gathering: with all resolutions answered, in any order, the callback
      gets exactly the compatible candidates, sorted, once, and nothing leaks.
    - Racing: at most one connection is given to the application and every
      other attempt is freed (safety); a race ends, by a measure of at most
      5n + 7 for n candidates that every event decreases (termination); from
      whatever a race has reached, events that can happen lead to its end
      (liveness).  These hold of connections that keep the contract, when
      memory suffices and the last candidate's protocol cannot fail at once
      ([last_attempt_failing_at_once_faults]).  Run on the
      library's own TCP and UDP connections, a race that has ended has left
      nothing behind but the connection it gave to the application
      ([race_ends_clean]); this needs that allocations and calls of libuv
      succeed, and that the handle of a failed connect is closed before
      another connect completes ([connect_fails_before_success_faults]).
    - Initiation: from the call of [ct_preconnection_initiate] on, with or
      without a message, every order of lookups that succeed and events of the
      loop is free of undefined behaviour (a lookup that fails is not:
      [dns_failure_crashes]); the application is not called while a lookup is
      outstanding, some order of completions and events always leads to the end
      of the race, and then the application has been told once that nothing
      could be connected, or has one ready connection.  With a message: every
      attempt is opened with a copy of it if it may be replayed, and else the
      connection that won is asked once, when it is ready, to send it.
    - Listening: [ct_preconnection_listen] listens on the address of the best
      local candidate over whichever protocol it is of, or reports that there is
      none; ending the listener reports it once and restores every table and
      block.
    - Connections: opening, closing and freeing over UDP and TCP restores
      every table and every block, and the application hears exactly Ready
      then Closed, or EstablishmentError; a message sent over UDP or TCP
      is reported once; the bytes read from a TCP stream reach the application
      in order and the end of the stream closes the connection once; messages meet receive callbacks in order and exactly once; a UDP
      listener groups datagrams by peer; a socket closes with its last user,
      and closing all connections of a socket tells each of them once.
    - QUIC: every packet picoquic prepares is sent, in order, and the loop
      ends; a message becomes data of the connection's stream and is reported
      once; a connection whose two directions end, in either order, closes the
      QUIC connection once, the application hears Closed once, and everything
      is released; a connection that has no stream yet never closes.  From
      creation over the handshake and a message to release, a client leaves
      every table of the library and of quic.c as it was, and picoquic is told
      exactly the calls of [quic_life_calls].
    - Data: deep copies are equal and freeing them restores the heap, also
      when an allocation fails; setters and getters round-trip; the selection
      and ranking of protocols are the specified ones; resolution yields the
      specified ports.
    - Types: in every world that operations, events and the outside can
      reach, no [void*] is cast to a type its object does not have, and the
      objects used together belong to one protocol; the one exception are
      callbacks of picoquic with the default context, for a connection not
      accepted yet ([first_datagram_confusion]).
    - Library: a session closes and releases its loop exactly if nothing is
      left on it; the logger is a registry of at most 32 destinations.
    - Errors: the theorems named *_faults, *_crashes, *_aborts, *_unsafe,
      *_lost, *_mismatch and *_double_free exhibit defects of the code.

    ** Bounds and fuel

    No definition has fuel except [depth_in], which follows the parents of a
    node of the candidate tree; its fuel is the number of nodes, which
    [depth_in_level] shows to be enough.  The oracles of the world are finite lists;
    an exhausted one answers success.  The lifecycle theorems assume that
    allocations succeed ([oracle_ok]) and that libuv reports no error
    ([uv_ok]); failed allocations are covered by the theorems on copies and
    messages.

    ** Not modelled

    The picoquic library (only its interface, above; callbacks it may make
    while a context is freed are left out), file descriptors apart from the
    handles that own them, the delays of timers, the unused
    [ct_quic_send_state_t], the calls of the logger from the other components
    and the formatting of addresses for them, colours in the log
    ([LOG_USE_COLOR], which the build does not define).
    Callbacks of the application do not run inside the library: they are
    recorded, and what the application does in one is a later operation.  In the
    transition system of TypeSafety the contexts that picoquic passes in one
    call of its functions were given to it before that call.

    ** Not covered by theorems

    The definitions cover these, but no theorem does: [RaceContract] for
    connections over QUIC (so that initiation from the call to the last event
    is proved for the library's UDP, and races for given candidates of TCP and
    UDP); the events of the connection that won, while the race still cancels
    the others; lifecycles with several connections of a group, and of
    listeners with connections; errors of libuv while QUIC connections and
    listeners open; the paths of preconnection.c on failed allocations. *)

From Stdlib Require Export ZArith Lia.
From stdpp Require Export base list gmap strings option numbers.

#[global] Set Default Goal Selector "!".

Declare Scope ctaps_scope.
Delimit Scope ctaps_scope with ctaps.
Open Scope ctaps_scope.
Open Scope Z_scope.

(** ** errno values used by the sources (Linux numbering). *)
Definition ENOENT : Z := 2.
Definition EIO : Z := 5.
Definition EAGAIN : Z := 11.
Definition ENOMEM : Z := 12.
Definition EEXIST : Z := 17.
Definition EINVAL : Z := 22.
Definition EPIPE : Z := 32.
Definition ENOSYS : Z := 38.
Definition ENOTSUP : Z := 95.
Definition ENOTCONN : Z := 107.

(** ** Machine integers. *)
Definition wrap (w : Z) (n : Z) : Z := n mod 2 ^ w.
Definition u8 (n : Z) : Z := wrap 8 n.
Definition u16 (n : Z) : Z := wrap 16 n.
Definition u32 (n : Z) : Z := wrap 32 n.
Definition u64 (n : Z) : Z := wrap 64 n.

Definition is_u8 (n : Z) : Prop := 0 <= n < 256.
Definition is_u16 (n : Z) : Prop := 0 <= n < 65536.
Definition is_u32 (n : Z) : Prop := 0 <= n < 4294967296.

Lemma wrap_small w n : 0 <= n < 2 ^ w -> wrap w n = n.
Proof. intros. by apply Z.mod_small. Qed.

Lemma u16_small n : is_u16 n -> u16 n = n.
Proof. intros. by apply wrap_small. Qed.

(** ** The effect monad.

    C code either runs to completion or reaches a point where the C program
    has no defined continuation: a failed [assert], a NULL or dangling
    dereference, an index past the end of an array, a call through a NULL
    function pointer.  [UB] carries a short description of that point. *)
Inductive outcome (A : Type) : Type :=
| Ok (a : A)
| UB (why : string).
Arguments Ok {A} a.
Arguments UB {A} why.

Definition M (S A : Type) : Type := S -> outcome (A * S).

#[export] Instance M_ret S : MRet (M S) := fun A a s => Ok (a, s).
#[export] Instance M_bind S : MBind (M S) := fun A B k m s =>
  match m s with
  | Ok (a, s') => k a s'
  | UB why => UB why
  end.

Definition ub {S A} (why : string) : M S A := fun _ => UB why.
Definition get {S} : M S S := fun s => Ok (s, s).
Definition put {S} (s : S) : M S unit := fun _ => Ok (tt, s).
Definition modify {S} (f : S -> S) : M S unit := fun s => Ok (tt, f s).
Definition gets {S A} (f : S -> A) : M S A := fun s => Ok (f s, s).

Definition assert_ {S} (b : bool) (why : string) : M S unit :=
  if b then mret tt else ub why.

(** Reading through a pointer that may be NULL or dangling. *)
Definition deref {S A} (o : option A) (why : string) : M S A :=
  match o with Some a => mret a | None => ub why end.

Definition when {S} (b : bool) (m : M S unit) : M S unit :=
  if b then m else mret tt.

Fixpoint for_each {S A} (l : list A) (f : A -> M S unit) : M S unit :=
  match l with
  | [] => mret tt
  | x :: l => f x ;; for_each l f
  end.

(** Running a computation over a component of the state. *)
Definition zoom {S T A} (proj : S -> T) (upd : T -> S -> S) (m : M T A) : M S A :=
  fun s => match m (proj s) with
           | Ok (a, t) => Ok (a, upd t s)
           | UB why => UB why
           end.

(** ** Weakest preconditions.

    [wp m Q s]: from [s], [m] has a defined continuation and ends in a
    result and a state satisfying [Q]. *)
Definition wp {S A} (m : M S A) (Q : A -> S -> Prop) (s : S) : Prop :=
  match m s with
  | Ok (a, s') => Q a s'
  | UB _ => False
  end.

Section wp.
Context {S : Type}.
Implicit Types s : S.

Lemma wp_ret {A} (a : A) (Q : A -> S -> Prop) s : Q a s -> wp (mret a) Q s.
Proof. done. Qed.

Lemma wp_bind {A B} (m : M S A) (k : A -> M S B) (Q : B -> S -> Prop) s :
  wp m (fun a s' => wp (k a) Q s') s -> wp (m ≫= k) Q s.
Proof.
  unfold wp, mbind, M_bind. destruct (m s) as [[a s']|]; done.
Qed.

Lemma wp_bind_inv {A B} (m : M S A) (k : A -> M S B) (Q : B -> S -> Prop) s :
  wp (m ≫= k) Q s -> wp m (fun a s' => wp (k a) Q s') s.
Proof.
  unfold wp, mbind, M_bind. destruct (m s) as [[a s']|]; done.
Qed.

Lemma wp_mono {A} (m : M S A) (P Q : A -> S -> Prop) s :
  wp m P s -> (forall a s', P a s' -> Q a s') -> wp m Q s.
Proof. unfold wp. destruct (m s) as [[a s']|]; [|done]. intros HP HQ. by apply HQ. Qed.

Lemma wp_get (Q : S -> S -> Prop) s : Q s s -> wp get Q s.
Proof. done. Qed.

Lemma wp_put s0 (Q : unit -> S -> Prop) s : Q tt s0 -> wp (put s0) Q s.
Proof. done. Qed.

Lemma wp_modify f (Q : unit -> S -> Prop) s : Q tt (f s) -> wp (modify f) Q s.
Proof. done. Qed.

Lemma wp_gets {A} (f : S -> A) (Q : A -> S -> Prop) s : Q (f s) s -> wp (gets f) Q s.
Proof. done. Qed.

Lemma wp_assert b why (Q : unit -> S -> Prop) s :
  b = true -> Q tt s -> wp (assert_ b why) Q s.
Proof. by intros ->. Qed.

Lemma wp_deref {A} (o : option A) a why (Q : A -> S -> Prop) s :
  o = Some a -> Q a s -> wp (deref o why) Q s.
Proof. by intros ->. Qed.

Lemma wp_when b m (Q : unit -> S -> Prop) s :
  (b = true -> wp m Q s) -> (b = false -> Q tt s) -> wp (when b m) Q s.
Proof. destruct b; cbn; intros H1 H2; [by apply H1|by apply H2]. Qed.

(** Loop rule: the invariant is indexed by the part of the list already
    processed and the part still to do. *)
Lemma wp_for_each {A} (f : A -> M S unit) (I : list A -> list A -> S -> Prop) l s :
  I [] l s ->
  (forall seen x todo s, l = seen ++ x :: todo -> I seen (x :: todo) s ->
     wp (f x) (fun _ s' => I (seen ++ [x]) todo s') s) ->
  wp (for_each l f) (fun _ s' => I l [] s') s.
Proof.
  intros H0 Hstep.
  assert (Hgen : forall todo seen s, l = seen ++ todo -> I seen todo s ->
            wp (for_each todo f) (fun _ s' => I l [] s') s).
  { induction todo as [|x todo IH]; intros seen s' Hl HI; cbn.
    - apply wp_ret. rewrite app_nil_r in Hl. by subst.
    - apply wp_bind. eapply wp_mono; [by apply Hstep|].
      intros [] s'' HI'. apply (IH (seen ++ [x])); [|assumption].
      by rewrite <- app_assoc. }
  by apply (Hgen l []).
Qed.

Lemma wp_for_each_inv {A} (f : A -> M S unit) (I : S -> Prop) l s :
  I s -> (forall x s, x ∈ l -> I s -> wp (f x) (fun _ => I) s) ->
  wp (for_each l f) (fun _ => I) s.
Proof.
  intros H0 Hstep. apply (wp_for_each f (fun _ _ => I)); [done|].
  intros seen x todo s' -> HI. apply Hstep; [set_solver|done].
Qed.

Lemma wp_ok {A} (m : M S A) (Q : A -> S -> Prop) s :
  wp m Q s <-> exists a s', m s = Ok (a, s') /\ Q a s'.
Proof.
  unfold wp. destruct (m s) as [[a s']|].
  - split; [by eauto|]. by intros (? & ? & [= <- <-] & ?).
  - split; [done|]. by intros (? & ? & ? & ?).
Qed.
End wp.

Lemma wp_zoom {S T A} (proj : S -> T) upd (m : M T A) (Q : A -> S -> Prop) s :
  wp m (fun a t => Q a (upd t s)) (proj s) -> wp (zoom proj upd m) Q s.
Proof. unfold wp, zoom. destruct (m (proj s)) as [[a t]|]; done. Qed.

(** A computation that reaches undefined behaviour. *)
Definition aborts {S A} (m : M S A) (s : S) : Prop := exists why, m s = UB why.

Lemma aborts_bind {S A B} (m : M S A) (k : A -> M S B) s :
  wp m (fun a s' => aborts (k a) s') s -> aborts (m ≫= k) s.
Proof. intros (a & s' & Hm & why & Hk)%wp_ok. exists why. unfold mbind, M_bind. by rewrite Hm. Qed.

Lemma aborts_first {S A B} (m : M S A) (k : A -> M S B) s : aborts m s -> aborts (m ≫= k) s.
Proof. intros [why Hm]. exists why. unfold mbind, M_bind. by rewrite Hm. Qed.

(** One symbolic execution step, and as many as possible. *)
Ltac wp_step :=
  lazymatch goal with
  | |- wp (mret _) _ _ => apply wp_ret
  | |- wp (_ ≫= _) _ _ => apply wp_bind
  | |- wp get _ _ => apply wp_get
  | |- wp (put _) _ _ => apply wp_put
  | |- wp (modify _) _ _ => apply wp_modify
  | |- wp (gets _) _ _ => apply wp_gets
  | |- wp (zoom _ _ _) _ _ => apply wp_zoom
  | |- wp (deref _ _) _ _ => eapply wp_deref; [first [eassumption | reflexivity]|]
  | |- wp (assert_ _ _) _ _ => apply wp_assert
  end.
Ltac wp_steps := repeat (wp_step; cbn beta).

(** ** The allocator.

    [malloc], [calloc], [realloc] and [strdup] may fail.  The outcome of
    each allocation is taken from an oracle (an exhausted oracle means the
    allocation succeeds); [h_live] counts the blocks that are allocated and
    not yet freed, so that leak freedom can be stated. *)
Record heap : Type := Heap { h_oracle : list bool; h_live : Z }.

Definition malloc : M heap bool := fun h =>
  match h_oracle h with
  | [] => Ok (true, Heap [] (h_live h + 1))
  | b :: o => Ok (b, Heap o (if b then h_live h + 1 else h_live h))
  end.

(** [realloc] of a block that may be NULL: growing a live block keeps the
    number of blocks, growing NULL adds one. *)
Definition realloc (was_null : bool) : M heap bool := fun h =>
  match h_oracle h with
  | [] => Ok (true, Heap [] (if was_null then h_live h + 1 else h_live h))
  | b :: o => Ok (b, Heap o (if b && was_null then h_live h + 1 else h_live h))
  end.

Definition free_block : M heap unit := modify (fun h => Heap (h_oracle h) (h_live h - 1)).

Definition strdup (s : string) : M heap (option string) :=
  ok ← malloc; mret (if ok : bool then Some s else None).

(** [p ? strdup(p) : NULL] *)
Definition strdup_opt (p : option string) : M heap (option string) :=
  match p with Some s => strdup s | None => mret None end.

Definition is_Some_b {A} (o : option A) : bool := match o with Some _ => true | None => false end.

(** [free] of a possibly-NULL string pointer. *)
Definition free_string (p : option string) : M heap unit := when (is_Some_b p) free_block.

(** The number of heap blocks behind a string pointer. *)
Definition blocks_of (p : option string) : Z := match p with Some _ => 1 | None => 0 end.

Definition oracle_ok (h : heap) : Prop := Forall (fun b => b = true) (h_oracle h).

(** How one allocation moves the oracle: a failure, or a later heap that is
    not known to succeed, means that the oracle held a failure. *)
Definition oracle_step (h : heap) (b : bool) (o : list bool) : Prop :=
  (oracle_ok h -> b = true /\ Forall (fun b => b = true) o).

Lemma wp_malloc (Q : bool -> heap -> Prop) h :
  (forall b o, oracle_step h b o -> Q b (Heap o (if b then h_live h + 1 else h_live h))) ->
  wp malloc Q h.
Proof.
  intros HQ. unfold wp, malloc, oracle_step, oracle_ok in *. destruct (h_oracle h) as [|b o].
  - by apply (HQ true).
  - apply HQ. by rewrite Forall_cons_iff.
Qed.

Lemma wp_realloc null (Q : bool -> heap -> Prop) h :
  (forall b o, oracle_step h b o -> Q b (Heap o (if b && null then h_live h + 1 else h_live h))) ->
  wp (realloc null) Q h.
Proof.
  intros HQ. unfold wp, realloc, oracle_step, oracle_ok in *. destruct (h_oracle h) as [|b o].
  - by apply (HQ true).
  - apply HQ. by rewrite Forall_cons_iff.
Qed.

Lemma wp_strdup s (Q : option string -> heap -> Prop) h :
  (forall r o, oracle_step h (is_Some_b r) o -> r = Some s \/ r = None ->
     Q r (Heap o (h_live h + blocks_of r))) ->
  wp (strdup s) Q h.
Proof.
  intros HQ. unfold strdup. wp_steps. apply wp_malloc. intros [] o Ho; wp_steps.
  - apply HQ; [done|by left].
  - replace (h_live h) with (h_live h + blocks_of None) by (cbn; lia). apply HQ; [done|by right].
Qed.

(** What a heap computation did to the oracle and the blocks: [n] blocks were
    added, and allocation keeps succeeding if it did before. *)
Definition heap_step (h h' : heap) (n : Z) : Prop :=
  h_live h' = h_live h + n /\ (oracle_ok h -> oracle_ok h').

Lemma heap_step_refl h : heap_step h h 0.
Proof. split; [lia|done]. Qed.

Lemma heap_step_trans h1 h2 h3 n m n' :
  heap_step h1 h2 n -> heap_step h2 h3 m -> n' = n + m -> heap_step h1 h3 n'.
Proof. intros [] [] ->. split; [lia|auto]. Qed.

(** A copied string is equal to the original, or allocation failed. *)
Lemma wp_strdup_opt p (Q : option string -> heap -> Prop) h :
  (forall r h', heap_step h h' (blocks_of r) ->
     r = p \/ is_Some_b p = true /\ r = None /\ ~ oracle_ok h -> Q r h') ->
  wp (strdup_opt p) Q h.
Proof.
  intros HQ. destruct p as [s|]; cbn [strdup_opt].
  - apply wp_strdup. intros r o Hs [-> | ->]; apply HQ; [|by left| |right].
    + split; [done|]. intros Ho. by destruct (Hs Ho).
    + split; [done|]. intros Ho. by destruct (Hs Ho).
    + split_and!; [done..|]. intros Ho. by destruct (Hs Ho).
  - apply wp_ret, HQ; [apply heap_step_refl|by left].
Qed.

Lemma wp_free_block (Q : unit -> heap -> Prop) h :
  Q tt (Heap (h_oracle h) (h_live h - 1)) -> wp free_block Q h.
Proof. done. Qed.

Lemma wp_free_string p (Q : unit -> heap -> Prop) h :
  Q tt (Heap (h_oracle h) (h_live h - blocks_of p)) -> wp (free_string p) Q h.
Proof.
  unfold free_string, wp. destruct p; cbn; [done|].
  rewrite Z.sub_0_r. by destruct h.
Qed.

(** *** Accounting

    [frees m n]: [m] has a defined continuation from every heap and releases
    exactly [n] blocks.  [allocs m n]: when no allocation fails, [m] has a
    defined continuation and the blocks it adds are those that [n] counts in
    its result. *)
Definition zsum (l : list Z) : Z := foldr Z.add 0 l.

Lemma zsum_cons x l : zsum (x :: l) = x + zsum l.
Proof. done. Qed.

Lemma zsum_app l1 l2 : zsum (l1 ++ l2) = zsum l1 + zsum l2.
Proof. unfold zsum. induction l1 as [|x l1 IH]; cbn; lia. Qed.

Lemma zsum_Permutation l1 l2 : l1 ≡ₚ l2 -> zsum l1 = zsum l2.
Proof. unfold zsum. induction 1; cbn; lia. Qed.

Definition frees (m : M heap unit) (n : Z) : Prop :=
  forall h, wp m (fun _ h' => h' = Heap (h_oracle h) (h_live h - n)) h.

Definition allocs {A} (m : M heap A) (P : A -> Prop) (n : A -> Z) : Prop :=
  forall h, oracle_ok h ->
    wp m (fun a h' => P a /\ oracle_ok h' /\ h_live h' = h_live h + n a) h.

(** An operation that keeps the heap in order, whatever it allocates. *)
Definition orderly {A} (m : M heap A) (P : A -> Prop) : Prop :=
  forall h, oracle_ok h -> wp m (fun a h' => P a /\ oracle_ok h') h.

Lemma allocs_orderly {A} (m : M heap A) P n : allocs m P n -> orderly m P.
Proof. intros Hm h Hh. eapply wp_mono; [by apply Hm|]. by intros a h' (? & ? & _). Qed.

Lemma frees_ret : frees (mret tt) 0.
Proof. intros [o l]. apply wp_ret. cbn. f_equal. lia. Qed.

Lemma frees_block : frees free_block 1.
Proof. intros h. by apply wp_free_block. Qed.

Lemma frees_string p : frees (free_string p) (blocks_of p).
Proof. intros h. by apply wp_free_string. Qed.

Lemma frees_bind m1 m2 n1 n2 : frees m1 n1 -> frees m2 n2 -> frees (m1 ;; m2) (n1 + n2).
Proof.
  intros H1 H2 h. wp_steps. eapply wp_mono; [apply H1|]. intros [] h1 ->.
  eapply wp_mono; [apply H2|]. intros [] h2 ->. cbn. f_equal. lia.
Qed.

Lemma frees_when b m n : (b = true -> frees m n) -> frees (when b m) (if b then n else 0).
Proof. intros H. destruct b; [by apply H|apply frees_ret]. Qed.

Lemma frees_for_each {A} (l : list A) f n :
  (forall x, x ∈ l -> frees (f x) (n x)) -> frees (for_each l f) (zsum (n <$> l)).
Proof.
  induction l as [|x l IH]; intros H; [apply frees_ret|].
  change (frees (f x ;; for_each l f) (n x + zsum (n <$> l))). apply frees_bind.
  - apply H. constructor.
  - apply IH. intros y Hy. apply H. by constructor.
Qed.

Lemma frees_eq m n n' : frees m n -> n = n' -> frees m n'.
Proof. by intros ? <-. Qed.

Lemma wp_frees m n (Q : unit -> heap -> Prop) h :
  frees m n -> Q tt (Heap (h_oracle h) (h_live h - n)) -> wp m Q h.
Proof. intros H HQ. eapply wp_mono; [apply H|]. by intros [] h' ->. Qed.

Lemma allocs_ret {A} (a : A) (P : A -> Prop) n : P a -> n a = 0 -> allocs (mret a) P n.
Proof. intros HP Hn h Hh. apply wp_ret. split_and!; [done|done|lia]. Qed.

Lemma allocs_malloc : allocs malloc (eq true) (fun _ => 1).
Proof. intros h Ho. apply wp_malloc. intros b o Hs. by destruct (Hs Ho) as [-> ?]. Qed.

Lemma allocs_realloc null : allocs (realloc null) (eq true) (fun _ => if null then 1 else 0).
Proof.
  intros h Ho. apply wp_realloc. intros b o Hs. destruct (Hs Ho) as [-> ?].
  split_and!; [done|done|]. destruct null; cbn; lia.
Qed.

Lemma allocs_bind {A B} (m : M heap A) (k : A -> M heap B) P (n : A -> Z) Q (q : B -> Z) :
  allocs m P n -> (forall a, P a -> allocs (k a) Q (fun b => q b - n a)) -> allocs (m ≫= k) Q q.
Proof.
  intros Hm Hk h Hh. wp_steps. eapply wp_mono; [by apply Hm|]. intros a h1 (HP & Hh1 & Hl).
  eapply wp_mono; [by apply Hk|]. cbn. intros b h2 (HQ & Hh2 & Hl2). split_and!; [done|done|lia].
Qed.

Lemma allocs_mono {A} (m : M heap A) (P Q : A -> Prop) n n' :
  allocs m P n -> (forall a, P a -> Q a /\ n a = n' a) -> allocs m Q n'.
Proof.
  intros Hm HPQ h Hh. eapply wp_mono; [by apply Hm|]. intros a h' (HP & ? & ?).
  destruct (HPQ a HP) as [? <-]. done.
Qed.

Lemma allocs_bind_deref {A B} (o : option A) a why (k : A -> M heap B) Q q :
  o = Some a -> allocs (k a) Q q -> allocs (deref o why ≫= k) Q q.
Proof. intros -> H h Hh. by apply (H h). Qed.

Lemma allocs_bind_assert {B} b why (k : unit -> M heap B) Q q :
  b = true -> allocs (k tt) Q q -> allocs (assert_ b why ≫= k) Q q.
Proof. intros -> H h Hh. by apply (H h). Qed.

Lemma allocs_frees m n : frees m n -> allocs m (fun _ => True) (fun _ => - n).
Proof.
  intros Hm h Hh. eapply wp_frees; [done|]. split_and!; [done|done|]. cbn. lia.
Qed.

Lemma allocs_strdup s : allocs (strdup s) (eq (Some s)) blocks_of.
Proof.
  eapply allocs_bind; [apply allocs_malloc|]. intros b <-. by apply allocs_ret.
Qed.

(** ** Record updates: [set_field eta proj v r] is the body of a setter for
    the field [proj] of a record whose eta-expansion is [eta]. *)
Ltac set_field eta proj v r :=
  let t := eval unfold eta in (eta r) in
  lazymatch eval pattern (proj r) in t with
  | ?F _ => let u := eval cbv beta in (F v) in exact u
  end.

(** ** Generic list lemmas. *)

(** [Forall] through stdpp's membership, not the Standard Library's [In]. *)
Lemma Forall_elem {A} (P : A -> Prop) (l : list A) : Forall P l <-> forall x, x ∈ l -> P x.
Proof. apply list.Forall_forall. Qed.

Section lists.
Context {A : Type}.
Implicit Types l : list A.

(** Index of the first element satisfying [p], as a C search loop finds it. *)
Fixpoint find_index (p : A -> bool) l : option nat :=
  match l with
  | [] => None
  | x :: l => if p x then Some 0%nat else Datatypes.S <$> find_index p l
  end.

Lemma find_index_Some p l i :
  find_index p l = Some i ->
  exists x, l !! i = Some x /\ p x = true /\
    (forall j y, (j < i)%nat -> l !! j = Some y -> p y = false).
Proof.
  revert i. induction l as [|x l IH]; intros i; cbn; [done|].
  destruct (p x) eqn:Hp.
  - intros [= <-]. exists x. split_and!; [done|done|]. intros; lia.
  - intros (k & Hk & ->)%fmap_Some. destruct (IH k Hk) as (y & Hy & Hpy & Hmin).
    exists y. split_and!; [done|done|]. intros [|j] z Hj; simpl.
    + by intros [= <-].
    + apply Hmin. lia.
Qed.

Lemma find_index_None p l :
  find_index p l = None <-> forall x, x ∈ l -> p x = false.
Proof.
  induction l as [|x l IH]; simpl.
  - split; [|done]. intros _ x []%not_elem_of_nil.
  - destruct (p x) eqn:Hp.
    + split; [done|]. intros H. rewrite H in Hp by constructor. done.
    + transitivity (find_index p l = None); [by destruct (find_index p l)|].
      rewrite IH. setoid_rewrite elem_of_cons. split; [|by auto].
      by intros H y [->|Hy]; auto.
Qed.

Lemma find_index_first p l i x :
  l !! i = Some x -> p x = true -> (forall j y, (j < i)%nat -> l !! j = Some y -> p y = false) ->
  find_index p l = Some i.
Proof.
  intros Hx Hp Hfirst. destruct (find_index p l) as [k|] eqn:Hk.
  - apply find_index_Some in Hk as (y & Hy & Hpy & Hbefore).
    destruct (lt_eq_lt_dec k i) as [[Hlt| ->]|Hlt]; [|done|].
    + by rewrite (Hfirst k y) in Hpy.
    + by rewrite (Hbefore i x) in Hp.
  - rewrite find_index_None in Hk. rewrite (Hk x) in Hp; [done|]. by eapply list_elem_of_lookup_2.
Qed.

Lemma find_index_lt p l i : find_index p l = Some i -> (i < length l)%nat.
Proof. intros (x & Hx & _)%find_index_Some. by eapply lookup_lt_Some. Qed.
End lists.

(** Filters that agree on the elements of the list. *)
Lemma list_filter_ext {A} (P Q : A -> Prop) `{HP : !forall x, Decision (P x), HQ : !forall x, Decision (Q x)} (l : list A) :
  (forall x, x ∈ l -> P x <-> Q x) -> filter P l = filter Q l.
Proof.
  induction l as [|x l IH]; intros H; [done|].
  assert (Hl : filter P l = filter Q l) by (apply IH; intros y Hy; apply H; by constructor).
  pose proof (H x (list_elem_of_here x l)) as Hxx. destruct (decide (P x)) as [Hx|Hx].
  - rewrite !filter_cons_True by tauto. by f_equal.
  - by rewrite !filter_cons_False by tauto.
Qed.

Lemma list_filter_all {A} (P : A -> Prop) `{HP : !forall x, Decision (P x)} (l : list A) :
  (forall x, x ∈ l -> P x) -> filter P l = l.
Proof.
  induction l as [|x l IH]; intros H; [done|]. rewrite filter_cons_True by (apply H; by constructor).
  f_equal. apply IH. intros y Hy. apply H. by constructor.
Qed.

Lemma list_filter_none {A} (P : A -> Prop) `{HP : !forall x, Decision (P x)} (l : list A) :
  (forall x, x ∈ l -> ~ P x) -> filter P l = [].
Proof.
  induction l as [|x l IH]; intros H; [done|]. rewrite filter_cons_False by (apply H; by constructor).
  apply IH. intros y Hy. apply H. by constructor.
Qed.

Lemma filter_fmap_list {A B} (f : A -> B) (P : B -> Prop) `{HP : !forall x, Decision (P x)} (l : list A) :
  filter P (f <$> l) = f <$> filter (fun x => P (f x)) l.
Proof.
  induction l as [|x l IH]; [done|]. rewrite fmap_cons. destruct (decide (P (f x))).
  - rewrite !filter_cons_True by done. by rewrite IH.
  - by rewrite !filter_cons_False by done.
Qed.

Lemma fmap_join {A B} (f : A -> B) (l : list (list A)) : f <$> mjoin l = mjoin ((fmap f) <$> l).
Proof.
  induction l as [|x l IH]; [done|]. change (f <$> (x ++ mjoin l) = (f <$> x) ++ mjoin (fmap f <$> l)).
  by rewrite fmap_app, IH.
Qed.

Create HintDb ctaps discriminated.
#[export] Hint Resolve find_index_lt : ctaps.
