(* ===== verification/SockAddr.v ===== *)
(** * Socket addresses, byte for byte

    [struct sockaddr_storage] as the 128 bytes it is, with the field offsets
    of [struct sockaddr_in] and [struct sockaddr_in6] on Linux (x86-64,
    little endian), so that the sources' [memcpy], [memset], [memcmp] and
    in-place family changes mean what they mean in C.  The second half is
    the address library: [src/endpoint/util.c] (equality, families, scopes,
    wildcard), [ct_get_addr_scope] and [ct_address_is_unspecified] of
    [src/protocol/common/socket_utils.c], and the address hashing and
    equality of [src/candidate_gathering/candidate_racing.c]. *)

From S2P Require Export Prelude.

(** ** Bytes *)
Abbreviation bytes := (list Z).

Definition read (off n : nat) (m : bytes) : bytes := take n (drop off m).
Definition write (off : nat) (bs m : bytes) : bytes :=
  take off m ++ bs ++ drop (off + length bs) m.

Section bytes.
Implicit Types m bs : bytes.
Open Scope nat_scope.

Lemma length_write off bs m :
  off + length bs <= length m -> length (write off bs m) = length m.
Proof. intros H. unfold write. rewrite !length_app, length_take, length_drop. lia. Qed.

Lemma length_read off n m : off + n <= length m -> length (read off n m) = n.
Proof. intros H. unfold read. rewrite length_take, length_drop. lia. Qed.

Lemma read_write_same off n bs m :
  n = length bs -> off + n <= length m -> read off n (write off bs m) = bs.
Proof.
  intros -> H. unfold read, write.
  rewrite drop_app_length'; [|rewrite length_take; lia].
  by rewrite take_app_length.
Qed.

Lemma read_write_before off n off' bs m :
  off + n <= off' -> off' + length bs <= length m ->
  read off n (write off' bs m) = read off n m.
Proof.
  intros H1 H2. unfold read, write.
  rewrite drop_app_le by (rewrite length_take; lia).
  rewrite take_app_le by (rewrite length_drop, length_take; lia).
  rewrite !take_drop_commute, take_take. do 2 f_equal. lia.
Qed.

Lemma read_write_after off n off' bs m :
  off' + length bs <= off -> off' + length bs <= length m ->
  read off n (write off' bs m) = read off n m.
Proof.
  intros H1 H2. unfold read, write. f_equal.
  rewrite drop_app_ge by (rewrite length_take; lia).
  rewrite length_take, drop_app_ge by lia.
  rewrite drop_drop. f_equal. lia.
Qed.

Lemma write_read off n m : off + n <= length m -> write off (read off n m) m = m.
Proof.
  intros H. unfold write. rewrite length_read by done. unfold read.
  rewrite <- drop_drop, take_drop, take_drop. done.
Qed.
End bytes.

(** Network byte order: [sin_port = htons(p)] stores these two bytes. *)
Definition htons_bytes (p : Z) : bytes := [u16 p / 256; u16 p mod 256].
Definition ntohs_bytes (b : bytes) : Z :=
  match b with [hi; lo] => hi * 256 + lo | _ => 0 end.
(** Host (little endian) order, for [sa_family_t]. *)
Definition le16_bytes (v : Z) : bytes := [u16 v mod 256; u16 v / 256].
Definition le16_value (b : bytes) : Z :=
  match b with [lo; hi] => lo + 256 * hi | _ => 0 end.
(** Big-endian value of any number of bytes ([ntohl] of the stored word). *)
Definition be_value (b : bytes) : Z := foldl (fun acc x => acc * 256 + x) 0 b.

Lemma ntohs_htons p : ntohs_bytes (htons_bytes p) = u16 p.
Proof. cbn. pose proof (Z.div_mod (u16 p) 256). lia. Qed.

Lemma le16_round_trip p : le16_value (le16_bytes p) = u16 p.
Proof. cbn. pose proof (Z.div_mod (u16 p) 256). lia. Qed.

(** ** struct sockaddr_storage *)
Definition AF_UNSPEC : Z := 0.
Definition AF_INET : Z := 2.
Definition AF_INET6 : Z := 10.
Definition SOCKADDR_STORAGE_SIZE : nat := 128.
Definition SOCKADDR_IN_SIZE : nat := 16.
Definition SOCKADDR_IN6_SIZE : nat := 28.

Abbreviation sockaddr := (list Z).

Definition wf_sockaddr (a : sockaddr) : Prop :=
  length a = SOCKADDR_STORAGE_SIZE /\ Forall is_u8 a.

Definition sockaddr_zero : sockaddr := replicate SOCKADDR_STORAGE_SIZE 0.

Definition ss_family (a : sockaddr) : Z := le16_value (read 0 2 a).
Definition set_family (f : Z) (a : sockaddr) : sockaddr := write 0 (le16_bytes f) a.
(** [sin_port] and [sin6_port] are at the same offset. *)
Definition port_bytes (a : sockaddr) : bytes := read 2 2 a.
Definition port_of (a : sockaddr) : Z := ntohs_bytes (port_bytes a).
Definition set_port (p : Z) (a : sockaddr) : sockaddr := write 2 (htons_bytes p) a.
Definition sin_addr (a : sockaddr) : bytes := read 4 4 a.
Definition set_sin_addr (ip : bytes) (a : sockaddr) : sockaddr := write 4 ip a.
Definition sin6_flowinfo (a : sockaddr) : bytes := read 4 4 a.
Definition sin6_addr (a : sockaddr) : bytes := read 8 16 a.
Definition set_sin6_addr (ip : bytes) (a : sockaddr) : sockaddr := write 8 ip a.
Definition sin6_scope_id (a : sockaddr) : bytes := read 24 4 a.
(** [memcpy(&dst, src, n)] at the start of the storage. *)
Definition memcpy (n : nat) (src dst : sockaddr) : sockaddr := write 0 (take n src) dst.
Definition memcmp_eq (n : nat) (a b : sockaddr) : bool := bool_decide (take n a = take n b).

Lemma wf_sockaddr_zero : wf_sockaddr sockaddr_zero.
Proof.
  split; [done|]. apply Forall_replicate. unfold is_u8. lia.
Qed.

Lemma u16_range n : is_u16 (u16 n).
Proof. unfold is_u16, u16, wrap. apply Z.mod_pos_bound. lia. Qed.

Lemma is_u8_halves n : is_u8 (u16 n / 256) /\ is_u8 (u16 n mod 256).
Proof.
  pose proof (u16_range n) as H. unfold is_u16, is_u8 in *.
  split; [split; [apply Z.div_pos|apply Z.div_lt_upper_bound]; lia|].
  apply Z.mod_pos_bound. lia.
Qed.

Lemma htons_bytes_u8 p : Forall is_u8 (htons_bytes p).
Proof. destruct (is_u8_halves p). unfold htons_bytes. rewrite !Forall_cons_iff. auto. Qed.

Lemma le16_bytes_u8 p : Forall is_u8 (le16_bytes p).
Proof. destruct (is_u8_halves p). unfold le16_bytes. rewrite !Forall_cons_iff. auto. Qed.
#[export] Hint Resolve htons_bytes_u8 le16_bytes_u8 : ctaps.

(** Discharges offset side conditions on a well-formed storage. *)
Ltac side :=
  repeat match goal with H : wf_sockaddr _ |- _ => destruct H as [? ?] end;
  unfold SOCKADDR_STORAGE_SIZE, SOCKADDR_IN_SIZE, SOCKADDR_IN6_SIZE in *;
  cbn [length htons_bytes le16_bytes]; rewrite ?length_take; lia.

Lemma wf_write off bs a :
  wf_sockaddr a -> Forall is_u8 bs -> (off + length bs <= SOCKADDR_STORAGE_SIZE)%nat ->
  wf_sockaddr (write off bs a).
Proof.
  intros [Hl Ha] Hb Hn. split; [by rewrite length_write, Hl by lia|].
  unfold write. rewrite !Forall_app. auto using Forall_take, Forall_drop.
Qed.

Lemma wf_set_family f a : wf_sockaddr a -> wf_sockaddr (set_family f a).
Proof.
  intros. apply wf_write; [done|auto with ctaps|side].
Qed.

Lemma wf_set_port p a : wf_sockaddr a -> wf_sockaddr (set_port p a).
Proof.
  intros. apply wf_write; [done|auto with ctaps|side].
Qed.

Lemma wf_memcpy n a b :
  (n <= SOCKADDR_STORAGE_SIZE)%nat -> wf_sockaddr a -> wf_sockaddr b -> wf_sockaddr (memcpy n a b).
Proof.
  intros Hn [Hl Ha] Hb. apply wf_write; [done|by apply Forall_take|side].
Qed.
#[export] Hint Resolve wf_sockaddr_zero wf_set_family wf_set_port : ctaps.

Lemma family_set_family f a : wf_sockaddr a -> ss_family (set_family f a) = u16 f.
Proof.
  intros [Hl _]. unfold ss_family, set_family.
  rewrite read_write_same by side. apply le16_round_trip.
Qed.

Lemma port_set_port p a : wf_sockaddr a -> port_of (set_port p a) = u16 p.
Proof.
  intros [Hl _]. unfold port_of, port_bytes, set_port.
  rewrite read_write_same by side. apply ntohs_htons.
Qed.

(** The fields after the port are not touched by [set_port]. *)
Lemma read_set_port off n p a :
  wf_sockaddr a -> (4 <= off)%nat -> read off n (set_port p a) = read off n a.
Proof. intros [Hl _] H. apply read_write_after; side. Qed.

Lemma family_set_port p a : wf_sockaddr a -> ss_family (set_port p a) = ss_family a.
Proof. intros [Hl _]. unfold ss_family. f_equal. apply read_write_before; side. Qed.

Lemma port_set_family f a : port_of (set_family f a) = port_of a.
Proof. done. Qed.

(** ** Address library *)

(** [ct_sockaddr_equal] (src/endpoint/util.c) *)
Definition ct_sockaddr_equal (a b : sockaddr) : bool :=
  if negb (ss_family a =? ss_family b) then false
  else if ss_family a =? AF_INET then
    bool_decide (port_bytes a = port_bytes b) && bool_decide (sin_addr a = sin_addr b)
  else if ss_family a =? AF_INET6 then
    (ss_family a =? ss_family b) &&
    bool_decide (port_bytes a = port_bytes b) &&
    bool_decide (sin6_scope_id a = sin6_scope_id b) &&
    bool_decide (sin6_addr a = sin6_addr b)
  else false.

(** [ct_address_is_wildcard]: INADDR_ANY or the unspecified IPv6 address. *)
Definition ct_address_is_wildcard (a : sockaddr) : bool :=
  if ss_family a =? AF_INET then be_value (sin_addr a) =? 0
  else if ss_family a =? AF_INET6 then bool_decide (sin6_addr a = replicate 16 0)
  else false.

(** [ct_address_is_unspecified] (src/protocol/common/socket_utils.c) *)
Definition ct_address_is_unspecified (a : sockaddr) : bool :=
  if ss_family a =? AF_INET then be_value (sin_addr a) =? 0
  else if ss_family a =? AF_INET6 then bool_decide (sin6_addr a = replicate 16 0)
  else ss_family a =? AF_UNSPEC.

Inductive ct_addr_scope_t : Type :=
| CT_ADDR_SCOPE_LOOPBACK | CT_ADDR_SCOPE_LINK_LOCAL | CT_ADDR_SCOPE_OTHER.

#[export] Instance ct_addr_scope_eq_dec : EqDecision ct_addr_scope_t.
Proof. solve_decision. Defined.

(** [IN6_IS_ADDR_LOOPBACK] and [IN6_IS_ADDR_LINKLOCAL] of <netinet/in.h>. *)
Definition in6_is_addr_loopback (ip : bytes) : bool :=
  bool_decide (ip = replicate 15 0 ++ [1]).
Definition in6_is_addr_linklocal (ip : bytes) : bool :=
  Z.land (be_value (take 4 ip)) 0xffc00000 =? 0xfe800000.

Definition ct_get_addr_scope (a : sockaddr) : ct_addr_scope_t :=
  if ss_family a =? AF_INET then
    let ip := be_value (sin_addr a) in
    if Z.land ip 0xFF000000 =? 0x7F000000 then CT_ADDR_SCOPE_LOOPBACK
    else if Z.land ip 0xFFFF0000 =? 0xA9FE0000 then CT_ADDR_SCOPE_LINK_LOCAL
    else CT_ADDR_SCOPE_OTHER
  else if ss_family a =? AF_INET6 then
    if in6_is_addr_loopback (sin6_addr a) then CT_ADDR_SCOPE_LOOPBACK
    else if in6_is_addr_linklocal (sin6_addr a) then CT_ADDR_SCOPE_LINK_LOCAL
    else CT_ADDR_SCOPE_OTHER
  else CT_ADDR_SCOPE_OTHER.

(** [sockaddr_storage_equal] (src/candidate_gathering/candidate_racing.c) *)
Definition sockaddr_storage_equal (a b : sockaddr) : bool :=
  if negb (ss_family a =? ss_family b) then false
  else if ss_family a =? AF_INET then memcmp_eq SOCKADDR_IN_SIZE a b
  else if ss_family a =? AF_INET6 then memcmp_eq SOCKADDR_IN6_SIZE a b
  else memcmp_eq SOCKADDR_STORAGE_SIZE a b.

(** [sockaddr_storage_hash], over GLib's hashes of a 32-bit word and of a
    string.  The words are read where the C code points: [&a->sin_port] is
    two bytes of port followed by two bytes of the next field. *)
Section hash.
Context (g_int_hash : bytes -> Z) (g_str_hash : string -> Z).

Definition sockaddr_storage_hash (a : sockaddr) : Z :=
  if ss_family a =? AF_INET then
    let h := Z.lxor 0 (g_int_hash (read 2 4 a)) in
    Z.lxor h (g_int_hash (sin_addr a))
  else if ss_family a =? AF_INET6 then
    let h := Z.lxor 0 (g_int_hash (read 2 4 a)) in
    let h := Z.lxor h (g_int_hash (sin6_scope_id a)) in
    let h := Z.lxor h (g_int_hash (sin6_flowinfo a)) in
    foldl (fun h k => Z.lxor h (g_int_hash (read (8 + k * 4) 4 a))) h [0;1;2;3]%nat
  else g_str_hash "unknown".
End hash.

(** ** Facts *)

Lemma read_take_eq off n k a b :
  (off + n <= k)%nat -> take k a = take k b -> read off n a = read off n b.
Proof.
  intros H Heq. unfold read. rewrite !take_drop_commute.
  apply (f_equal (take (off + n))) in Heq. rewrite !take_take in Heq.
  rewrite Nat.min_l in Heq by lia. by rewrite Heq.
Qed.

(** Masking with a shifted block of ones selects a field of the word. *)
Lemma land_field x k w :
  0 <= k -> 0 <= w ->
  Z.land x (Z.ones w * 2 ^ k) = (x / 2 ^ k) mod 2 ^ w * 2 ^ k.
Proof.
  intros Hk Hw. rewrite <- Z.land_ones, <- !Z.shiftl_mul_pow2, <- Z.shiftr_div_pow2 by done.
  apply Z.bits_inj'. intros n Hn. rewrite Z.land_spec, !Z.shiftl_spec by done.
  destruct (Z.leb_spec k n).
  - rewrite Z.land_spec, Z.shiftr_spec by lia. do 2 f_equal. lia.
  - rewrite !(Z.testbit_neg_r _ (n - k)) by lia. apply andb_false_r.
Qed.

Lemma land_field_eqb x k w v :
  0 <= k -> 0 <= w ->
  (Z.land x (Z.ones w * 2 ^ k) =? v * 2 ^ k) = ((x / 2 ^ k) mod 2 ^ w =? v).
Proof.
  intros Hk Hw. rewrite land_field by done. pose proof (Z.pow_pos_nonneg 2 k).
  apply eq_bool_prop_intro. rewrite !Is_true_true, !Z.eqb_eq, Z.mul_cancel_r by lia. done.
Qed.

(** *** [ct_get_addr_scope] in terms of the address's bytes *)
Lemma be_value_4 b0 b1 b2 b3 :
  be_value [b0; b1; b2; b3] = ((b0 * 256 + b1) * 256 + b2) * 256 + b3.
Proof. done. Qed.

Ltac u8_bounds := unfold is_u8 in *; rewrite ?Forall_cons_iff in *; destruct_and?.

Definition ipv4_bytes (a : sockaddr) (b0 b1 b2 b3 : Z) : Prop :=
  ss_family a = AF_INET /\ sin_addr a = [b0; b1; b2; b3] /\ Forall is_u8 [b0; b1; b2; b3].

Lemma ct_get_addr_scope_ipv4 a b0 b1 b2 b3 :
  ipv4_bytes a b0 b1 b2 b3 ->
  ct_get_addr_scope a =
    if b0 =? 127 then CT_ADDR_SCOPE_LOOPBACK
    else if (b0 =? 169) && (b1 =? 254) then CT_ADDR_SCOPE_LINK_LOCAL
    else CT_ADDR_SCOPE_OTHER.
Proof.
  intros (Hf & Hip & Hb). u8_bounds. unfold ct_get_addr_scope.
  rewrite Hf, Hip, be_value_4. cbn [Z.eqb Pos.eqb].
  set (ip := _ + b3).
  assert (Hlo : (Z.land ip 0xFF000000 =? 0x7F000000) = (b0 =? 127)).
  { etransitivity; [apply (land_field_eqb ip 24 8 127); lia|].
    replace (ip / 2 ^ 24) with b0 by (subst ip; Z.to_euclidean_division_equations; lia).
    by rewrite Z.mod_small by lia. }
  assert (Hll : (Z.land ip 0xFFFF0000 =? 0xA9FE0000) = (b0 =? 169) && (b1 =? 254)).
  { etransitivity; [apply (land_field_eqb ip 16 16 (169 * 256 + 254)); lia|].
    replace (ip / 2 ^ 16) with (b0 * 256 + b1) by (subst ip; Z.to_euclidean_division_equations; lia).
    rewrite Z.mod_small by lia.
    apply eq_bool_prop_intro. rewrite andb_True, !Is_true_true, !Z.eqb_eq. lia. }
  by rewrite Hlo, Hll.
Qed.

Lemma in6_is_addr_linklocal_spec b0 b1 b2 b3 rest :
  Forall is_u8 [b0; b1; b2; b3] ->
  in6_is_addr_linklocal (b0 :: b1 :: b2 :: b3 :: rest) = (b0 =? 254) && (b1 / 64 =? 2).
Proof.
  intros Hb. u8_bounds. unfold in6_is_addr_linklocal. cbn [take]. rewrite be_value_4.
  set (ip := _ + b3). etransitivity; [apply (land_field_eqb ip 22 10 (254 * 4 + 2)); lia|].
  replace (ip / 2 ^ 22) with (b0 * 4 + b1 / 64)
    by (subst ip; Z.to_euclidean_division_equations; lia).
  rewrite Z.mod_small by (Z.to_euclidean_division_equations; lia).
  apply eq_bool_prop_intro. rewrite andb_True, !Is_true_true, !Z.eqb_eq.
  Z.to_euclidean_division_equations; lia.
Qed.

(** *** Address equality *)
Definition is_inet (a : sockaddr) : bool := (ss_family a =? AF_INET) || (ss_family a =? AF_INET6).

Lemma is_inet_spec a : is_inet a = true <-> ss_family a = AF_INET \/ ss_family a = AF_INET6.
Proof. unfold is_inet. by rewrite orb_true_iff, !Z.eqb_eq. Qed.

Lemma ct_sockaddr_equal_spec a b :
  ct_sockaddr_equal a b = true <->
  ss_family a = ss_family b /\ port_bytes a = port_bytes b /\
  (ss_family a = AF_INET /\ sin_addr a = sin_addr b \/
   ss_family a = AF_INET6 /\ sin6_scope_id a = sin6_scope_id b /\ sin6_addr a = sin6_addr b).
Proof.
  unfold ct_sockaddr_equal. destruct (Z.eqb_spec (ss_family a) (ss_family b)) as [Hab|]; cbn [negb].
  2: by split; [|intros (? & _)].
  destruct (Z.eqb_spec (ss_family a) AF_INET) as [Ha|Ha].
  - rewrite andb_true_iff, !bool_decide_eq_true.
    assert (ss_family a <> AF_INET6) by (by rewrite Ha). naive_solver.
  - destruct (Z.eqb_spec (ss_family a) AF_INET6).
    + rewrite !andb_true_iff, !bool_decide_eq_true. naive_solver.
    + naive_solver.
Qed.

Lemma ct_sockaddr_equal_refl a : is_inet a = true -> ct_sockaddr_equal a a = true.
Proof. rewrite is_inet_spec, ct_sockaddr_equal_spec. naive_solver. Qed.

Lemma ct_sockaddr_equal_sym a b : ct_sockaddr_equal a b = ct_sockaddr_equal b a.
Proof. apply eq_bool_prop_intro. rewrite !Is_true_true, !ct_sockaddr_equal_spec. split; intros (H1&H2&H3); rewrite H1 in *; naive_solver. Qed.

Lemma ct_sockaddr_equal_trans a b c :
  ct_sockaddr_equal a b = true -> ct_sockaddr_equal b c = true -> ct_sockaddr_equal a c = true.
Proof.
  rewrite !ct_sockaddr_equal_spec. intros (H1&H2&H3) (H4&H5&H6).
  assert (AF_INET <> AF_INET6) by done.
  destruct H3 as [[]|(?&?&?)], H6 as [[]|(?&?&?)]; split_and!; try congruence.
  - left. split; congruence.
  - right. split_and!; congruence.
Qed.

(** [sockaddr_storage_equal] compares a prefix whose length is fixed by the
    family, which is part of the prefix. *)
Definition sockaddr_len (a : sockaddr) : nat :=
  if ss_family a =? AF_INET then SOCKADDR_IN_SIZE
  else if ss_family a =? AF_INET6 then SOCKADDR_IN6_SIZE
  else SOCKADDR_STORAGE_SIZE.

Lemma sockaddr_len_range a : (16 <= sockaddr_len a <= 128)%nat.
Proof. unfold sockaddr_len. repeat case_match; vm_compute; lia. Qed.

Lemma sockaddr_storage_equal_spec a b :
  sockaddr_storage_equal a b = true <-> take (sockaddr_len a) a = take (sockaddr_len a) b.
Proof.
  assert (Hfam : take (sockaddr_len a) a = take (sockaddr_len a) b -> ss_family a = ss_family b).
  { intros H. unfold ss_family. f_equal. eapply read_take_eq, H.
    pose proof (sockaddr_len_range a). lia. }
  unfold sockaddr_storage_equal, memcmp_eq. destruct (Z.eqb_spec (ss_family a) (ss_family b)); cbn [negb].
  - unfold sockaddr_len. repeat case_match; apply bool_decide_eq_true.
  - naive_solver.
Qed.

Lemma sockaddr_storage_equal_len a b :
  sockaddr_storage_equal a b = true -> sockaddr_len a = sockaddr_len b.
Proof.
  unfold sockaddr_storage_equal, sockaddr_len.
  destruct (Z.eqb_spec (ss_family a) (ss_family b)) as [->|]; done.
Qed.

#[export] Instance sockaddr_storage_equal_equiv :
  Equivalence (fun a b => sockaddr_storage_equal a b = true).
Proof.
  split.
  - intros a. by apply sockaddr_storage_equal_spec.
  - intros a b H. apply sockaddr_storage_equal_spec.
    rewrite <- (sockaddr_storage_equal_len a b) by done. symmetry. by apply sockaddr_storage_equal_spec.
  - intros a b c H1 H2. apply sockaddr_storage_equal_spec.
    pose proof (sockaddr_storage_equal_len _ _ H1) as Hl.
    apply sockaddr_storage_equal_spec in H1, H2. rewrite H1, Hl. done.
Qed.

(** Two addresses that compare equal hash alike, as GHashTable requires. *)
Lemma sockaddr_storage_hash_compat g_int_hash g_str_hash a b :
  sockaddr_storage_equal a b = true ->
  sockaddr_storage_hash g_int_hash g_str_hash a = sockaddr_storage_hash g_int_hash g_str_hash b.
Proof.
  intros H. apply sockaddr_storage_equal_spec in H.
  assert (Hr : forall off n, (off + n <= sockaddr_len a)%nat -> read off n a = read off n b)
    by (intros; by eapply read_take_eq).
  assert (Hf : ss_family a = ss_family b).
  { unfold ss_family. f_equal. apply Hr. pose proof (sockaddr_len_range a). lia. }
  unfold sockaddr_storage_hash. rewrite <- Hf. unfold sockaddr_len in Hr. repeat case_match.
  - unfold sin_addr. by rewrite !Hr by (vm_compute; lia).
  - unfold sin6_scope_id, sin6_flowinfo. cbn [foldl]. by rewrite !Hr by (vm_compute; lia).
  - done.
Qed.
