(* ===== verification/Properties.v ===== *)
(** Transport, connection and message properties.

    Models src/include/ctaps.h (the property lists), the property records of
    src/src/ctaps_internal.h, src/src/transport_property/ (all four [.c]
    files).  A C array indexed by an enumeration is a function from the
    enumeration; a C union of scalars is the 64-bit word that all of its
    members overlay, so that a write through a narrow member keeps the upper
    bytes, as the hardware does. *)

From S2P Require Export Prelude.

(** ** Preferences and selection properties *)

(** [ct_selection_preference_enum_t] *)
Inductive preference : Set := PROHIBIT | AVOID | NO_PREFERENCE | PREFER | REQUIRE.

#[export] Instance preference_eq_dec : EqDecision preference.
Proof. solve_decision. Defined.

(** [ct_selection_property_enum_t], in declaration order *)
Inductive sel_prop : Set :=
| RELIABILITY | PRESERVE_MSG_BOUNDARIES | PER_MSG_RELIABILITY | PRESERVE_ORDER
| ZERO_RTT_MSG | MULTISTREAMING | FULL_CHECKSUM_SEND | FULL_CHECKSUM_RECV
| CONGESTION_CONTROL | KEEP_ALIVE | USE_TEMPORARY_LOCAL_ADDRESS | MULTIPATH
| ADVERTISES_ALT_ADDRESS | DIRECTION | SOFT_ERROR_NOTIFY | ACTIVE_READ_BEFORE_SEND
| INTERFACE | PVD.

#[export] Instance sel_prop_eq_dec : EqDecision sel_prop.
Proof. solve_decision. Defined.

(** The loop [for (i = 0; i < SELECTION_PROPERTY_END; i++)] *)
Definition all_sel_props : list sel_prop :=
  [RELIABILITY; PRESERVE_MSG_BOUNDARIES; PER_MSG_RELIABILITY; PRESERVE_ORDER;
   ZERO_RTT_MSG; MULTISTREAMING; FULL_CHECKSUM_SEND; FULL_CHECKSUM_RECV;
   CONGESTION_CONTROL; KEEP_ALIVE; USE_TEMPORARY_LOCAL_ADDRESS; MULTIPATH;
   ADVERTISES_ALT_ADDRESS; DIRECTION; SOFT_ERROR_NOTIFY; ACTIVE_READ_BEFORE_SEND;
   INTERFACE; PVD].

Lemma all_sel_props_complete p : p ∈ all_sel_props.
Proof. destruct p; set_solver. Qed.

(** [ct_property_type_enum_t] *)
Inductive property_type : Set :=
| TYPE_PREFERENCE | TYPE_PREFERENCE_SET | TYPE_BOOL | TYPE_UINT8 | TYPE_UINT32
| TYPE_UINT64 | TYPE_ENUM | TYPE_STRING_ARRAY | TYPE_CERTIFICATE_BUNDLES
| TYPE_STRING | TYPE_BYTE_ARRAY.

#[export] Instance property_type_eq_dec : EqDecision property_type.
Proof. solve_decision. Defined.

(** [ct_preference_combination_t]; the [value] of an entry is NULL when the
    [strdup] of a deep copy failed. *)
Record ct_preference_combination := Combination {
  cmb_value : option string;
  cmb_preference : preference }.

(** [ct_preference_set_t]; [None] is the NULL array with no entries. *)
Record ct_preference_set := PreferenceSet { combinations : option (list ct_preference_combination) }.

Definition combination_list (s : ct_preference_set) : list ct_preference_combination :=
  default [] (combinations s).
Definition num_combinations (s : ct_preference_set) : nat := length (combination_list s).

(** [ct_selection_property_value_t]: every property is always accessed
    through the member its list row names, so the union is a tagged sum. *)
Inductive selection_value :=
| simple_preference (p : preference)
| preference_set_val (s : ct_preference_set)
| enum_val (n : Z)
| bool_val (b : bool).

Record ct_selection_property := SelProp {
  sp_name : string; sp_set_by_user : bool; sp_type : property_type; sp_value : selection_value }.

(** [ct_selection_properties_t] *)
Definition ct_selection_properties : Type := sel_prop -> ct_selection_property.

(** An assignment to one element of an array indexed by an enumeration. *)
Definition upd {I A} `{EqDecision I} (f : I -> A) (i : I) (v : A) : I -> A :=
  fun j => if decide (j = i) then v else f j.

Lemma upd_same {I A} `{EqDecision I} (f : I -> A) i v : upd f i v i = v.
Proof. unfold upd. by rewrite decide_True. Qed.
Lemma upd_other {I A} `{EqDecision I} (f : I -> A) i j v : j <> i -> upd f i v j = f j.
Proof. intros. unfold upd. by rewrite decide_False. Qed.

(** Multipath and direction enumerators. *)
Definition CT_MULTIPATH_DISABLED : Z := 0.
Definition CT_MULTIPATH_ACTIVE : Z := 1.
Definition CT_MULTIPATH_PASSIVE : Z := 2.
Definition CT_DIRECTION_BIDIRECTIONAL : Z := 0.
Definition CT_DIRECTION_UNIDIRECTIONAL_SEND : Z := 1.
Definition CT_DIRECTION_UNIDIRECTIONAL_RECV : Z := 2.
Definition RUNTIME_DEPENDENT_DEFAULT : Z := 0.

(** The preference whose enumerator is 0. *)
Definition RUNTIME_DEPENDENT_PREFERENCE : preference := NO_PREFERENCE.
Definition EMPTY_PREFERENCE_SET_DEFAULT : ct_preference_set := PreferenceSet None.

Definition pref_row (name : string) (p : preference) : ct_selection_property :=
  SelProp name false TYPE_PREFERENCE (simple_preference p).
Definition enum_row (name : string) (n : Z) : ct_selection_property :=
  SelProp name false TYPE_ENUM (enum_val n).
Definition set_row (name : string) : ct_selection_property :=
  SelProp name false TYPE_PREFERENCE_SET (preference_set_val EMPTY_PREFERENCE_SET_DEFAULT).

(** [get_selection_property_list] and [get_preference_set_selection_property_list],
    expanded by [create_sel_property_initializer]. *)
Definition DEFAULT_SELECTION_PROPERTIES : ct_selection_properties := fun p =>
  match p with
  | RELIABILITY => pref_row "reliability" REQUIRE
  | PRESERVE_MSG_BOUNDARIES => pref_row "preserveMsgBoundaries" NO_PREFERENCE
  | PER_MSG_RELIABILITY => pref_row "perMsgReliability" NO_PREFERENCE
  | PRESERVE_ORDER => pref_row "preserveOrder" REQUIRE
  | ZERO_RTT_MSG => pref_row "zeroRttMsg" NO_PREFERENCE
  | MULTISTREAMING => pref_row "multistreaming" PREFER
  | FULL_CHECKSUM_SEND => pref_row "fullChecksumSend" REQUIRE
  | FULL_CHECKSUM_RECV => pref_row "fullChecksumRecv" REQUIRE
  | CONGESTION_CONTROL => pref_row "congestionControl" REQUIRE
  | KEEP_ALIVE => pref_row "keepAlive" NO_PREFERENCE
  | USE_TEMPORARY_LOCAL_ADDRESS => pref_row "useTemporaryLocalAddress" RUNTIME_DEPENDENT_PREFERENCE
  | MULTIPATH => enum_row "multipath" RUNTIME_DEPENDENT_DEFAULT
  | ADVERTISES_ALT_ADDRESS => pref_row "advertisesAltAddr" PROHIBIT
  | DIRECTION => enum_row "direction" CT_DIRECTION_BIDIRECTIONAL
  | SOFT_ERROR_NOTIFY => pref_row "softErrorNotify" NO_PREFERENCE
  | ACTIVE_READ_BEFORE_SEND => pref_row "activeReadBeforeSend" NO_PREFERENCE
  | INTERFACE => set_row "interface"
  | PVD => set_row "pvd"
  end.

(** Reads of the union's members. *)
Definition the_preference (v : selection_value) : option preference :=
  match v with simple_preference p => Some p | _ => None end.
Definition the_set (v : selection_value) : option ct_preference_set :=
  match v with preference_set_val s => Some s | _ => None end.
Definition the_enum (v : selection_value) : option Z :=
  match v with enum_val n => Some n | _ => None end.

(** The tag of a property is the one its row declares and the value is of
    that member. *)
Definition value_matches (t : property_type) (v : selection_value) : bool :=
  match t, v with
  | TYPE_PREFERENCE, simple_preference _ | TYPE_PREFERENCE_SET, preference_set_val _
  | TYPE_ENUM, enum_val _ | TYPE_BOOL, bool_val _ => true
  | _, _ => false
  end.

Definition wf_selection (l : ct_selection_properties) : Prop :=
  forall p, sp_type (l p) = sp_type (DEFAULT_SELECTION_PROPERTIES p) /\
            value_matches (sp_type (l p)) (sp_value (l p)) = true.

Lemma wf_default_selection : wf_selection DEFAULT_SELECTION_PROPERTIES.
Proof. intros []; done. Qed.

Lemma wf_selection_upd l p u v :
  wf_selection l -> value_matches (sp_type (l p)) v = true ->
  wf_selection (upd l p (SelProp (sp_name (l p)) u (sp_type (l p)) v)).
Proof.
  intros Hwf Hv q. unfold upd. case_decide as Hq; [subst q|apply Hwf].
  split; [apply Hwf|exact Hv].
Qed.

Lemma wf_selection_set l p : wf_selection l -> p = INTERFACE \/ p = PVD ->
  exists s, sp_value (l p) = preference_set_val s /\ sp_type (l p) = TYPE_PREFERENCE_SET.
Proof.
  intros Hwf Hp. destruct (Hwf p) as [Ht Hv]. rewrite Ht in Hv |- *.
  destruct Hp as [-> | ->]; simpl in *; destruct (sp_value _); naive_solver.
Qed.

(** ** Selection property operations (selection_properties.c) *)

Definition ct_selection_properties_build : ct_selection_properties := DEFAULT_SELECTION_PROPERTIES.

Definition is_preference_set (t : property_type) : bool :=
  bool_decide (t = TYPE_PREFERENCE_SET).

Definition ct_selection_properties_cleanup (l : ct_selection_properties) : M heap unit :=
  for_each all_sel_props (fun i =>
    when (is_preference_set (sp_type (l i)))
      (s ← deref (the_set (sp_value (l i))) "preference set member";
       for_each (combination_list s) (fun c => free_string (cmb_value c)) ;;
       when (is_Some_b (combinations s)) free_block)).

(** The loop of [strdup]s over one preference set; the entry keeps a NULL
    value when [strdup] fails. *)
Fixpoint copy_combinations (l : list ct_preference_combination)
    : M heap (list ct_preference_combination) :=
  match l with
  | [] => mret []
  | c :: l =>
      s ← deref (cmb_value c) "strdup(NULL)";
      v ← strdup s;
      rest ← copy_combinations l;
      mret (Combination v (cmb_preference c) :: rest)
  end.

(** The copy of one preference set: [malloc]'s result is not checked before
    the entries are written. *)
Definition copy_preference_set (s : ct_preference_set) : M heap ct_preference_set :=
  ok ← malloc;
  assert_ (ok || bool_decide (num_combinations s = 0%nat)) "write through NULL combinations" ;;
  l ← copy_combinations (combination_list s);
  mret (PreferenceSet (if ok : bool then Some l else None)).

Definition set_preference_set (l : ct_selection_properties) (p : sel_prop) (s : ct_preference_set) :
    ct_selection_properties :=
  upd l p (SelProp (sp_name (l p)) (sp_set_by_user (l p)) (sp_type (l p)) (preference_set_val s)).

Definition ct_selection_properties_deep_copy (src : ct_selection_properties)
    : M heap ct_selection_properties :=
  i ← deref (the_set (sp_value (src INTERFACE))) "interface member";
  i' ← copy_preference_set i;
  p ← deref (the_set (sp_value (src PVD))) "pvd member";
  p' ← copy_preference_set p;
  mret (set_preference_set (set_preference_set src INTERFACE i') PVD p').

(** ** Scalar unions *)

(** Reads and writes of the [w] low bits of a 64-bit union. *)
Definition read_low (w : Z) (word : Z) : Z := wrap w word.
Definition write_low (w : Z) (v word : Z) : Z := word / 2 ^ w * 2 ^ w + wrap w v.

Definition is_u64 (n : Z) : Prop := 0 <= n < 2 ^ 64.

Definition width (t : property_type) : Z :=
  match t with
  | TYPE_UINT8 | TYPE_BOOL => 8
  | TYPE_UINT64 => 64
  | _ => 32
  end.

Lemma read_write_low w v word : 0 <= w -> read_low w (write_low w v word) = wrap w v.
Proof.
  intros. unfold read_low, write_low, wrap.
  rewrite Z.add_comm, Z_mod_plus_full. apply Z.mod_mod. lia.
Qed.

Lemma write_low_range w v word : 0 <= w <= 64 -> is_u64 word -> is_u64 (write_low w v word).
Proof.
  intros Hw Hu. unfold write_low, wrap, is_u64 in *.
  replace (2 ^ 64) with (2 ^ (64 - w) * 2 ^ w) in * by (rewrite <- Z.pow_add_r by lia; f_equal; lia).
  pose proof (Z.pow_pos_nonneg 2 w). pose proof (Z.pow_pos_nonneg 2 (64 - w)).
  pose proof (Z.mod_pos_bound v (2 ^ w)).
  assert (0 <= word / 2 ^ w < 2 ^ (64 - w)).
  { split; [apply Z.div_pos; lia|]. apply Z.div_lt_upper_bound; nia. }
  nia.
Qed.

(** A read through a narrower member sees the low part of the written value. *)
Lemma read_narrow_write w w' v word :
  0 <= w <= w' -> read_low w (write_low w' v word) = wrap w v.
Proof.
  intros. unfold read_low, write_low, wrap.
  replace (2 ^ w') with (2 ^ (w' - w) * 2 ^ w) by (rewrite <- Z.pow_add_r by lia; f_equal; lia).
  pose proof (Z.pow_pos_nonneg 2 w). pose proof (Z.pow_pos_nonneg 2 (w' - w)).
  rewrite <- Z.mod_mod_divide with (b := 2 ^ (w' - w) * 2 ^ w); [|by exists (2 ^ (w' - w))].
  rewrite Z.add_comm, Z_mod_plus_full, Z.mod_mod by lia.
  apply Z.mod_mod_divide. by exists (2 ^ (w' - w)).
Qed.

Definition b2z (b : bool) : Z := if b then 1 else 0.
Definition z2b (n : Z) : bool := negb (n =? 0).

(** ** Connection properties (connection_properties.c) *)

(** [ct_connection_property_enum_t] *)
Inductive conn_prop : Set :=
| RECV_CHECKSUM_LEN | CONN_PRIORITY | CONN_TIMEOUT | KEEP_ALIVE_TIMEOUT | CONN_SCHEDULER
| CONN_CAPACITY_PROFILE | MULTIPATH_POLICY | MIN_SEND_RATE | MIN_RECV_RATE | MAX_SEND_RATE
| MAX_RECV_RATE | GROUP_CONN_LIMIT | ISOLATE_SESSION
| SINGULAR_TRANSMISSION_MSG_MAX_LEN | SEND_MESSAGE_MAX_LEN | RECV_MESSAGE_MAX_LEN
| USER_TIMEOUT_VALUE_MS | USER_TIMEOUT_ENABLED | USER_TIMEOUT_CHANGEABLE.

#[export] Instance conn_prop_eq_dec : EqDecision conn_prop.
Proof. solve_decision. Defined.

Record ct_connection_property := ConnProp {
  cp_name : string; cp_read_only : bool; cp_type : property_type; cp_value : Z }.

Definition ct_connection_properties : Type := conn_prop -> ct_connection_property.

Definition UINT32_MAX : Z := 4294967295.
Definition UINT64_MAX : Z := 18446744073709551615.
Definition CT_CONN_TIMEOUT_DISABLED : Z := 0.
Definition CT_CONN_RATE_UNLIMITED : Z := UINT64_MAX.
Definition CT_CONN_CHECKSUM_FULL_COVERAGE : Z := UINT32_MAX.
Definition CT_CONNECTION_DEFAULT_PRIORITY : Z := 100.

(** The Linux socket option number of [netinet/tcp.h], which the list uses
    as the default of [userTimeoutValueMs]. *)
Definition TCP_USER_TIMEOUT : Z := 18.

Definition con_row (name : string) (t : property_type) (dflt : Z) : ct_connection_property :=
  ConnProp name false t (write_low (width t) dflt 0).

Definition DEFAULT_CONNECTION_PROPERTIES : ct_connection_properties := fun p =>
  match p with
  | RECV_CHECKSUM_LEN => con_row "recvChecksumLen" TYPE_UINT32 CT_CONN_CHECKSUM_FULL_COVERAGE
  | CONN_PRIORITY => con_row "connPriority" TYPE_UINT8 CT_CONNECTION_DEFAULT_PRIORITY
  | CONN_TIMEOUT => con_row "connTimeout" TYPE_UINT32 CT_CONN_TIMEOUT_DISABLED
  | KEEP_ALIVE_TIMEOUT => con_row "keepAliveTimeout" TYPE_UINT32 CT_CONN_TIMEOUT_DISABLED
  | CONN_SCHEDULER => con_row "connScheduler" TYPE_ENUM 0
  | CONN_CAPACITY_PROFILE => con_row "connCapacityProfile" TYPE_ENUM 0
  | MULTIPATH_POLICY => con_row "multipathPolicy" TYPE_ENUM 0
  | MIN_SEND_RATE => con_row "minSendRate" TYPE_UINT64 CT_CONN_RATE_UNLIMITED
  | MIN_RECV_RATE => con_row "minRecvRate" TYPE_UINT64 CT_CONN_RATE_UNLIMITED
  | MAX_SEND_RATE => con_row "maxSendRate" TYPE_UINT64 CT_CONN_RATE_UNLIMITED
  | MAX_RECV_RATE => con_row "maxRecvRate" TYPE_UINT64 CT_CONN_RATE_UNLIMITED
  | GROUP_CONN_LIMIT => con_row "groupConnLimit" TYPE_UINT64 CT_CONN_RATE_UNLIMITED
  | ISOLATE_SESSION => con_row "isolateSession" TYPE_BOOL (b2z false)
  | SINGULAR_TRANSMISSION_MSG_MAX_LEN => con_row "singularTransmissionMsgMaxLen" TYPE_UINT64 0
  | SEND_MESSAGE_MAX_LEN => con_row "sendMsgMaxLen" TYPE_UINT64 0
  | RECV_MESSAGE_MAX_LEN => con_row "recvMessageMaxLen" TYPE_UINT64 0
  | USER_TIMEOUT_VALUE_MS => con_row "userTimeoutValueMs" TYPE_UINT32 TCP_USER_TIMEOUT
  | USER_TIMEOUT_ENABLED => con_row "userTimeoutEnabled" TYPE_BOOL (b2z false)
  | USER_TIMEOUT_CHANGEABLE => con_row "userTimeoutChangeable" TYPE_BOOL (b2z true)
  end.

Definition ct_connection_properties_build : ct_connection_properties := DEFAULT_CONNECTION_PROPERTIES.

(** [list[p].value.<member of width w>] read and written. *)
Definition cp_read (w : Z) (l : ct_connection_properties) (p : conn_prop) : Z :=
  read_low w (cp_value (l p)).
Definition cp_write (w : Z) (l : ct_connection_properties) (p : conn_prop) (v : Z) :
    ct_connection_properties :=
  upd l p (ConnProp (cp_name (l p)) (cp_read_only (l p)) (cp_type (l p))
             (write_low w v (cp_value (l p)))).

(** The [ct_cp_set_prop_*] family: error code and new properties. *)
Definition ct_cp_set_prop (w : Z) (l : ct_connection_properties) (p : conn_prop) (v : Z) :
    Z * ct_connection_properties :=
  if cp_read_only (l p) then (- EINVAL, l) else (0, cp_write w l p v).

Definition ct_cp_set_prop_uint32 := ct_cp_set_prop 32.
Definition ct_cp_set_prop_uint64 := ct_cp_set_prop 64.
Definition ct_cp_set_prop_bool l p (v : bool) := ct_cp_set_prop 8 l p (b2z v).
Definition ct_cp_set_prop_enum := ct_cp_set_prop 32.

(** The accessors of connection_properties.c: a NULL pointer reads as 0 and
    is not written.  A pointer is an option. *)
Definition cp_get (w : Z) (p : conn_prop) (conn_props : option ct_connection_properties) : Z :=
  match conn_props with None => 0 | Some l => cp_read w l p end.
Definition cp_get_bool (p : conn_prop) (conn_props : option ct_connection_properties) : bool :=
  match conn_props with None => false | Some l => z2b (cp_read 8 l p) end.
Definition cp_set (w : Z) (p : conn_prop) (conn_props : option ct_connection_properties) (v : Z) :
    option ct_connection_properties :=
  match conn_props with None => None | Some l => Some (cp_write w l p v) end.
Definition cp_set_bool p conn_props (v : bool) := cp_set 8 p conn_props (b2z v).

Definition ct_connection_properties_get_recv_checksum_len := cp_get 32 RECV_CHECKSUM_LEN.
Definition ct_connection_properties_get_conn_priority := cp_get 32 CONN_PRIORITY.
Definition ct_connection_properties_get_conn_timeout_ms := cp_get 32 CONN_TIMEOUT.
Definition ct_connection_properties_get_keep_alive_timeout := cp_get 32 KEEP_ALIVE_TIMEOUT.
Definition ct_connection_properties_get_conn_scheduler := cp_get 32 CONN_SCHEDULER.
Definition ct_connection_properties_get_conn_capacity_profile := cp_get 32 CONN_CAPACITY_PROFILE.
Definition ct_connection_properties_get_multipath_policy := cp_get 32 MULTIPATH_POLICY.
Definition ct_connection_properties_get_min_send_rate := cp_get 64 MIN_SEND_RATE.
Definition ct_connection_properties_get_min_recv_rate := cp_get 64 MIN_RECV_RATE.
Definition ct_connection_properties_get_max_send_rate := cp_get 64 MAX_SEND_RATE.
Definition ct_connection_properties_get_max_recv_rate := cp_get 64 MAX_RECV_RATE.
Definition ct_connection_properties_get_group_conn_limit := cp_get 64 GROUP_CONN_LIMIT.
Definition ct_connection_properties_get_isolate_session := cp_get_bool ISOLATE_SESSION.
Definition ct_connection_properties_get_singular_transmission_msg_max_len := cp_get 64 SINGULAR_TRANSMISSION_MSG_MAX_LEN.
Definition ct_connection_properties_get_send_message_max_len := cp_get 64 SEND_MESSAGE_MAX_LEN.
Definition ct_connection_properties_get_recv_message_max_len := cp_get 64 RECV_MESSAGE_MAX_LEN.
Definition ct_connection_properties_get_user_timeout_value_ms := cp_get 32 USER_TIMEOUT_VALUE_MS.
Definition ct_connection_properties_get_user_timeout_enabled := cp_get_bool USER_TIMEOUT_ENABLED.
Definition ct_connection_properties_get_user_timeout_changeable := cp_get_bool USER_TIMEOUT_CHANGEABLE.

Definition ct_connection_properties_set_recv_checksum_len := cp_set 32 RECV_CHECKSUM_LEN.
Definition ct_connection_properties_set_conn_priority := cp_set 32 CONN_PRIORITY.
Definition ct_connection_properties_set_conn_timeout_ms := cp_set 32 CONN_TIMEOUT.
Definition ct_connection_properties_set_keep_alive_timeout := cp_set 32 KEEP_ALIVE_TIMEOUT.
Definition ct_connection_properties_set_conn_scheduler := cp_set 32 CONN_SCHEDULER.
Definition ct_connection_properties_set_conn_capacity_profile := cp_set 32 CONN_CAPACITY_PROFILE.
Definition ct_connection_properties_set_multipath_policy := cp_set 32 MULTIPATH_POLICY.
Definition ct_connection_properties_set_min_send_rate := cp_set 64 MIN_SEND_RATE.
Definition ct_connection_properties_set_min_recv_rate := cp_set 64 MIN_RECV_RATE.
Definition ct_connection_properties_set_max_send_rate := cp_set 64 MAX_SEND_RATE.
Definition ct_connection_properties_set_max_recv_rate := cp_set 64 MAX_RECV_RATE.
Definition ct_connection_properties_set_group_conn_limit := cp_set 64 GROUP_CONN_LIMIT.
Definition ct_connection_properties_set_isolate_session := cp_set_bool ISOLATE_SESSION.
Definition ct_connection_properties_set_user_timeout_value_ms := cp_set 32 USER_TIMEOUT_VALUE_MS.
Definition ct_connection_properties_set_user_timeout_enabled := cp_set_bool USER_TIMEOUT_ENABLED.

(** ** Message properties (message_properties.c) *)

(** [ct_message_properties_enum_t] *)
Inductive msg_prop : Set :=
| MSG_LIFETIME | MSG_PRIORITY | MSG_ORDERED | MSG_SAFELY_REPLAYABLE | FINAL
| MSG_CHECKSUM_LEN | MSG_RELIABLE | MSG_CAPACITY_PROFILE | NO_FRAGMENTATION | NO_SEGMENTATION.

#[export] Instance msg_prop_eq_dec : EqDecision msg_prop.
Proof. solve_decision. Defined.

Record ct_message_property := MsgProp { mp_name : string; mp_set_by_user : bool; mp_value : Z }.

Definition ct_message_properties : Type := msg_prop -> ct_message_property.

(** The type column of [get_message_property_list] and its default column. *)
Definition msg_prop_type (p : msg_prop) : property_type :=
  match p with
  | MSG_LIFETIME => TYPE_UINT64
  | MSG_PRIORITY | MSG_CHECKSUM_LEN => TYPE_UINT32
  | MSG_CAPACITY_PROFILE => TYPE_ENUM
  | _ => TYPE_BOOL
  end.
Definition msg_prop_default (p : msg_prop) : Z :=
  match p with
  | MSG_LIFETIME => 0
  | MSG_PRIORITY => 100
  | MSG_ORDERED => b2z true
  | MSG_SAFELY_REPLAYABLE => b2z false
  | FINAL => b2z false
  | MSG_CHECKSUM_LEN => UINT32_MAX
  | MSG_RELIABLE => b2z true
  | MSG_CAPACITY_PROFILE => 0
  | NO_FRAGMENTATION => b2z false
  | NO_SEGMENTATION => b2z false
  end.
Definition msg_prop_name (p : msg_prop) : string :=
  match p with
  | MSG_LIFETIME => "msgLifetime"
  | MSG_PRIORITY => "msgPriority"
  | MSG_ORDERED => "msgOrdered"
  | MSG_SAFELY_REPLAYABLE => "msgSafelyReplayable"
  | FINAL => "final"
  | MSG_CHECKSUM_LEN => "msgChecksumLen"
  | MSG_RELIABLE => "msgReliable"
  | MSG_CAPACITY_PROFILE => "msgCapacityProfile"
  | NO_FRAGMENTATION => "noFragmentation"
  | NO_SEGMENTATION => "noSegmentation"
  end.

Definition DEFAULT_MESSAGE_PROPERTIES : ct_message_properties := fun p =>
  MsgProp (msg_prop_name p) false (write_low (width (msg_prop_type p)) (msg_prop_default p) 0).

Definition ct_message_properties_new : M heap (option ct_message_properties) :=
  ok ← malloc; mret (if ok : bool then Some DEFAULT_MESSAGE_PROPERTIES else None).

Definition ct_message_properties_deep_copy (source : option ct_message_properties) :
    M heap (option ct_message_properties) :=
  match source with
  | None => mret None
  | Some s => ok ← malloc; mret (if ok : bool then Some s else None)
  end.

Definition ct_message_properties_free (message_properties : option ct_message_properties) :
    M heap unit := when (is_Some_b message_properties) free_block.

(** [DEFINE_MSG_PROPERTY_GETTER]/[_SETTER], for every row of the list.  A
    value is the integer the row's type holds; a [bool] is 0 or 1. *)
Definition ct_message_properties_get (p : msg_prop) (msg_prop : option ct_message_properties) : Z :=
  match msg_prop with
  | None => msg_prop_default p
  | Some l => read_low (width (msg_prop_type p)) (mp_value (l p))
  end.
Definition ct_message_properties_set (p : msg_prop) (msg_prop : option ct_message_properties) (v : Z) :
    option ct_message_properties :=
  match msg_prop with
  | None => None
  | Some l => Some (upd l p (MsgProp (mp_name (l p)) true
                               (write_low (width (msg_prop_type p)) v (mp_value (l p)))))
  end.

(** ** Transport properties (transport_properties.c) *)

Record ct_transport_properties := TransportProperties {
  selection_properties : ct_selection_properties;
  connection_properties : ct_connection_properties }.

Definition ct_transport_properties_new : M heap (option ct_transport_properties) :=
  ok ← malloc;
  mret (if ok : bool
        then Some (TransportProperties DEFAULT_SELECTION_PROPERTIES DEFAULT_CONNECTION_PROPERTIES)
        else None).

Definition ct_transport_properties_multipath_is_active (properties : option ct_transport_properties) : bool :=
  match properties with
  | None => false
  | Some t => bool_decide (the_enum (sp_value (selection_properties t MULTIPATH)) = Some CT_MULTIPATH_ACTIVE)
  end.

Definition ct_transport_properties_free (props : option ct_transport_properties) : M heap unit :=
  match props with
  | None => mret tt
  | Some t => ct_selection_properties_cleanup (selection_properties t) ;; free_block
  end.

Definition ct_transport_properties_deep_copy (src : option ct_transport_properties) :
    M heap (option ct_transport_properties) :=
  match src with
  | None => mret None
  | Some s =>
      dest ← ct_transport_properties_new;
      match dest with
      | None => mret None
      | Some d =>
          sel ← ct_selection_properties_deep_copy (selection_properties s);
          mret (Some (TransportProperties sel (connection_properties s)))
      end
  end.

(** The entry of the preference set that the search loop of
    [ct_transport_properties_add_preference_map] stops at: entries with a
    NULL value are skipped. *)
Definition matches_value (value : string) (c : ct_preference_combination) : bool :=
  bool_decide (cmb_value c = Some value).

Definition update_sel (t : ct_transport_properties) (p : sel_prop) (set_by_user : bool) (v : selection_value) :
    ct_transport_properties :=
  let l := selection_properties t in
  TransportProperties (upd l p (SelProp (sp_name (l p)) set_by_user (sp_type (l p)) v))
                      (connection_properties t).

Definition ct_transport_properties_add_preference_map (t : ct_transport_properties) (type : sel_prop)
    (value : string) (pref : preference) : M heap (Z * ct_transport_properties) :=
  set ← deref (the_set (sp_value (selection_properties t type))) "preference set member";
  let was_user := sp_set_by_user (selection_properties t type) in
  match find_index (matches_value value) (combination_list set) with
  | Some i =>
      let l' := alter (fun c => Combination (cmb_value c) pref) i (combination_list set) in
      mret (0, update_sel t type was_user (preference_set_val (PreferenceSet (Some l'))))
  | None =>
      ok ← realloc (negb (is_Some_b (combinations set)));
      if negb ok then mret (- ENOMEM, t) else
      v ← strdup value;
      match v with
      | None =>
          mret (- ENOMEM, update_sel t type was_user
                            (preference_set_val (PreferenceSet (Some (combination_list set)))))
      | Some _ =>
          mret (0, update_sel t type true
                     (preference_set_val
                        (PreferenceSet (Some (combination_list set ++ [Combination v pref])))))
      end
  end.

Definition ct_transport_properties_add_interface_preference t value pref :=
  ct_transport_properties_add_preference_map t INTERFACE value pref.
Definition ct_transport_properties_add_pvd_preference t value pref :=
  ct_transport_properties_add_preference_map t PVD value pref.

(** The lookup loop: unlike the insertion, it hands every value to [strcmp]. *)
Fixpoint lookup_preference (value : string) (l : list ct_preference_combination) : outcome preference :=
  match l with
  | [] => Ok NO_PREFERENCE
  | c :: l =>
      match cmb_value c with
      | None => UB "strcmp with NULL"
      | Some v => if bool_decide (value = v) then Ok (cmb_preference c) else lookup_preference value l
      end
  end.

Definition get_preference (p : sel_prop) (t : option ct_transport_properties) (value : string) :
    outcome preference :=
  match t with
  | None => Ok NO_PREFERENCE
  | Some t =>
      match the_set (sp_value (selection_properties t p)) with
      | None => UB "preference set member"
      | Some s => lookup_preference value (combination_list s)
      end
  end.

Definition ct_transport_properties_get_interface_preference := get_preference INTERFACE.
Definition ct_transport_properties_get_pvd_preference := get_preference PVD.

(** [DEFINE_CONNECTION_PROPERTY_GETTER]/[_SETTER]; a setter exists for the
    writable and the TCP rows. *)
Definition conn_prop_type (p : conn_prop) : property_type := cp_type (DEFAULT_CONNECTION_PROPERTIES p).
Definition conn_prop_has_setter (p : conn_prop) : bool :=
  match p with
  | SINGULAR_TRANSMISSION_MSG_MAX_LEN | SEND_MESSAGE_MAX_LEN | RECV_MESSAGE_MAX_LEN => false
  | _ => true
  end.

Definition ct_transport_properties_get_conn (p : conn_prop) (tp : option ct_transport_properties) : Z :=
  let w := width (conn_prop_type p) in
  match tp with
  | None => cp_read w DEFAULT_CONNECTION_PROPERTIES p
  | Some t => cp_read w (connection_properties t) p
  end.
Definition ct_transport_properties_set_conn (p : conn_prop) (tp : option ct_transport_properties) (v : Z) :
    option ct_transport_properties :=
  match tp with
  | None => None
  | Some t => Some (TransportProperties (selection_properties t)
                      (cp_write (width (conn_prop_type p)) (connection_properties t) p v))
  end.

(** [DEFINE_SELECTION_PROPERTY_GETTER]/[_SETTER]: the member named by the
    row's type is read and written. *)
Definition ct_transport_properties_get_sel (p : sel_prop) (tp : option ct_transport_properties) : selection_value :=
  match tp with
  | None => sp_value (DEFAULT_SELECTION_PROPERTIES p)
  | Some t => sp_value (selection_properties t p)
  end.
Definition ct_transport_properties_set_sel (p : sel_prop) (tp : option ct_transport_properties)
    (v : selection_value) : option ct_transport_properties :=
  match tp with
  | None => None
  | Some t => Some (update_sel t p true v)
  end.

(** ** Heap accounting of preference sets *)

Definition set_blocks (s : ct_preference_set) : Z :=
  (if is_Some_b (combinations s) then 1 else 0) +
  zsum ((fun c => blocks_of (cmb_value c)) <$> combination_list s).

Definition sel_blocks (l : ct_selection_properties) : Z :=
  zsum ((fun p => match the_set (sp_value (l p)) with Some s => set_blocks s | None => 0 end)
          <$> all_sel_props).

Lemma value_matches_set t v :
  value_matches t v = true -> is_preference_set t = is_Some_b (the_set v).
Proof. destruct t, v; done. Qed.

Lemma frees_cleanup l : wf_selection l -> frees (ct_selection_properties_cleanup l) (sel_blocks l).
Proof.
  intros Hwf. apply frees_for_each. intros p _.
  rewrite (value_matches_set _ (sp_value (l p))) by apply Hwf.
  destruct (the_set (sp_value (l p))) as [s|] eqn:Hs; cbn; [|apply frees_ret].
  eapply frees_eq.
  - apply (frees_bind _ _ (zsum ((fun c => blocks_of (cmb_value c)) <$> combination_list s))).
    + apply (frees_for_each _ _ (fun c => blocks_of (cmb_value c))). intros c _. apply frees_string.
    + apply frees_when. intros _. apply frees_block.
  - unfold set_blocks. destruct (is_Some_b (combinations s)); lia.
Qed.

(** No entry has a NULL value. *)
Definition no_null (s : ct_preference_set) : Prop :=
  Forall (fun c => is_Some (cmb_value c)) (combination_list s).

Lemma allocs_copy_combinations l :
  Forall (fun c => is_Some (cmb_value c)) l ->
  allocs (copy_combinations l) (eq l) (fun l' => zsum ((fun c => blocks_of (cmb_value c)) <$> l')).
Proof.
  induction 1 as [|[v p] l [s Hs] Hl IH]; cbn; [by apply allocs_ret|].
  cbn in Hs. subst v. eapply allocs_bind_deref; [done|].
  eapply allocs_bind; [apply allocs_strdup|]. intros v <-.
  eapply allocs_bind; [apply IH|].
  intros l' <-. apply allocs_ret; [done|]. unfold zsum. cbn. lia.
Qed.

Lemma allocs_copy_preference_set s :
  no_null s ->
  allocs (copy_preference_set s) (eq (PreferenceSet (Some (combination_list s)))) set_blocks.
Proof.
  intros Hs. eapply allocs_bind; [apply allocs_malloc|]. intros b <-.
  apply allocs_bind_assert; [done|].
  eapply (allocs_bind _ _ _ (fun l' => zsum ((fun c => blocks_of (cmb_value c)) <$> l'))).
  - by apply allocs_copy_combinations.
  - intros l' <-. apply allocs_ret; [done|].
    unfold set_blocks, combination_list. simpl. lia.
Qed.

(** The copy's preference sets hold the source's entries. *)
Definition same_selection (a b : ct_selection_properties) : Prop :=
  forall p, sp_name (a p) = sp_name (b p) /\ sp_set_by_user (a p) = sp_set_by_user (b p) /\
    sp_type (a p) = sp_type (b p) /\
    match sp_value (a p), sp_value (b p) with
    | preference_set_val s, preference_set_val s' => combination_list s = combination_list s'
    | v, v' => v = v'
    end.

#[export] Instance same_selection_equiv : Equivalence same_selection.
Proof.
  split.
  - intros a p. split_and!; try done. by destruct (sp_value (a p)).
  - intros a b H p. destruct (H p) as (?&?&?&Hv). split_and!; try done.
    destruct (sp_value (a p)), (sp_value (b p)); done.
  - intros a b c H1 H2 p. destruct (H1 p) as (->&->&->&Hv), (H2 p) as (->&->&->&Hv').
    split_and!; try done. destruct (sp_value (a p)), (sp_value (b p)), (sp_value (c p)); congruence.
Qed.

(** Both preference sets are free of NULL values. *)
Definition sets_ok (l : ct_selection_properties) : Prop :=
  forall p s, sp_value (l p) = preference_set_val s -> no_null s.

Lemma sets_ok_default : sets_ok DEFAULT_SELECTION_PROPERTIES.
Proof. intros [] s; cbn; intros [= <-]; constructor. Qed.

Lemma wf_not_set l p : wf_selection l -> p <> INTERFACE -> p <> PVD -> the_set (sp_value (l p)) = None.
Proof.
  intros Hwf H1 H2. destruct (Hwf p) as [Ht Hv]. rewrite Ht in Hv.
  destruct p; try done; cbn in Hv; by destruct (sp_value _).
Qed.

Lemma sel_blocks_wf l i p :
  wf_selection l ->
  sp_value (l INTERFACE) = preference_set_val i -> sp_value (l PVD) = preference_set_val p ->
  sel_blocks l = set_blocks i + set_blocks p.
Proof.
  intros Hwf Hi Hp. unfold sel_blocks. simpl. rewrite Hi, Hp, !(wf_not_set l) by done. simpl. lia.
Qed.

Lemma wf_set_preference_set l p s :
  wf_selection l -> p = INTERFACE \/ p = PVD -> wf_selection (set_preference_set l p s).
Proof.
  intros Hwf Hp. apply wf_selection_upd; [done|].
  destruct (wf_selection_set l p Hwf Hp) as (? & _ & ->). done.
Qed.

Lemma same_set_preference_set l p s s' :
  sp_value (l p) = preference_set_val s -> combination_list s' = combination_list s ->
  same_selection (set_preference_set l p s') l.
Proof.
  intros Hs Heq q. unfold set_preference_set, upd. case_decide as Hq; [subst q; cbn|].
  - by rewrite Hs.
  - split_and!; try done. by destruct (sp_value (l q)).
Qed.

Lemma allocs_selection_deep_copy src :
  wf_selection src -> sets_ok src ->
  allocs (ct_selection_properties_deep_copy src)
    (fun l => wf_selection l /\ same_selection l src) sel_blocks.
Proof.
  intros Hwf Hok.
  destruct (wf_selection_set src INTERFACE) as (i & Hi & _); [done|by left|].
  destruct (wf_selection_set src PVD) as (p & Hp & _); [done|by right|].
  eapply allocs_bind_deref; [by rewrite Hi|].
  eapply allocs_bind; [by eapply allocs_copy_preference_set, Hok|]. intros i' <-.
  eapply allocs_bind_deref; [by rewrite Hp|].
  eapply allocs_bind; [by eapply allocs_copy_preference_set, Hok|]. intros p' <-.
  set (l1 := set_preference_set src INTERFACE _).
  assert (Hl1 : wf_selection l1) by (apply wf_set_preference_set; auto).
  apply allocs_ret.
  - split; [apply wf_set_preference_set; auto|].
    transitivity l1.
    + by apply (same_set_preference_set _ _ p).
    + by apply (same_set_preference_set _ _ i).
  - erewrite sel_blocks_wf; [|apply wf_set_preference_set; auto|done|done]. lia.
Qed.

(** ** Properties *)

Definition tp_blocks (t : ct_transport_properties) : Z := sel_blocks (selection_properties t) + 1.

Lemma frees_transport_properties t :
  wf_selection (selection_properties t) -> frees (ct_transport_properties_free (Some t)) (tp_blocks t).
Proof. intros Hwf. apply frees_bind; [by apply frees_cleanup|apply frees_block]. Qed.

Lemma allocs_transport_deep_copy t :
  wf_selection (selection_properties t) -> sets_ok (selection_properties t) ->
  allocs (ct_transport_properties_deep_copy (Some t))
    (fun r => exists c, r = Some c /\ wf_selection (selection_properties c) /\
        same_selection (selection_properties c) (selection_properties t) /\
        connection_properties c = connection_properties t)
    (fun r => match r with Some c => tp_blocks c | None => 0 end).
Proof.
  intros Hwf Hok. cbn [ct_transport_properties_deep_copy].
  eapply (allocs_bind _ _ is_Some (fun _ => 1)).
  { eapply allocs_bind; [apply allocs_malloc|]. intros b <-. by apply allocs_ret; [eexists|]. }
  intros d [d' ->]. eapply allocs_bind.
  { by apply allocs_selection_deep_copy. }
  intros l [Hl1 Hl2]. apply allocs_ret.
  - by eexists.
  - unfold tp_blocks. simpl. lia.
Qed.

(** C31: [ct_transport_properties_deep_copy] of well-formed properties, when no allocation fails, returns
    properties equal to the source (entry by entry for the interface and PvD
    preferences) and freeing the copy with
    [ct_transport_properties_free] releases exactly what the copy allocated. *)
Theorem transport_properties_copy_free t h :
  wf_selection (selection_properties t) -> sets_ok (selection_properties t) -> oracle_ok h ->
  wp (ct_transport_properties_deep_copy (Some t)) (fun r h1 =>
    exists c, r = Some c /\
      same_selection (selection_properties c) (selection_properties t) /\
      connection_properties c = connection_properties t /\
      wp (ct_transport_properties_free r) (fun _ h2 => h_live h2 = h_live h) h1) h.
Proof.
  intros Hwf Hok Hh. eapply wp_mono; [by apply allocs_transport_deep_copy|].
  intros r h1 ((c & -> & Hc1 & Hc2 & Hc3) & _ & Hl). exists c. split_and!; [done..|].
  eapply wp_frees; [by apply frees_transport_properties|]. cbn. lia.
Qed.

Lemma transport_properties_copy_free_witness :
  exists t, wf_selection (selection_properties t) /\
  wp (ct_transport_properties_deep_copy (Some t)) (fun r h1 =>
    exists c, r = Some c /\
      same_selection (selection_properties c) (selection_properties t) /\
      connection_properties c = connection_properties t /\
      wp (ct_transport_properties_free r) (fun _ h2 => h_live h2 = 7) h1) (Heap [true; true] 7).
Proof.
  exists (TransportProperties
     (set_preference_set DEFAULT_SELECTION_PROPERTIES INTERFACE
        (PreferenceSet (Some [Combination (Some "wifi") REQUIRE]))) DEFAULT_CONNECTION_PROPERTIES).
  assert (Hwf : wf_selection (set_preference_set DEFAULT_SELECTION_PROPERTIES INTERFACE
        (PreferenceSet (Some [Combination (Some "wifi") REQUIRE])))) by (intros []; done).
  split; [exact Hwf|].
  apply (transport_properties_copy_free (TransportProperties
     (set_preference_set DEFAULT_SELECTION_PROPERTIES INTERFACE
        (PreferenceSet (Some [Combination (Some "wifi") REQUIRE]))) DEFAULT_CONNECTION_PROPERTIES) (Heap [true; true] 7)).
  - exact Hwf.
  - intros []; cbn; intros s [= <-]; repeat constructor. by eexists.
  - repeat constructor.
Defined.

(** *** Preference sets as finite maps *)

Definition combination_entry (c : ct_preference_combination) : option (string * preference) :=
  (fun v => (v, cmb_preference c)) <$> cmb_value c.

(** What a preference set means: the preference given to each name. *)
Definition preference_view (l : list ct_preference_combination) : gmap string preference :=
  list_to_map (omap combination_entry l).

#[global] Arguments preference_view : simpl never.

Definition view (t : ct_transport_properties) (p : sel_prop) : gmap string preference :=
  match the_set (sp_value (selection_properties t p)) with
  | Some s => preference_view (combination_list s)
  | None => ∅
  end.

Lemma preference_view_cons c l :
  preference_view (c :: l) =
    match cmb_value c with
    | Some v => <[v := cmb_preference c]> (preference_view l)
    | None => preference_view l
    end.
Proof. unfold preference_view, combination_entry. cbn. by destruct (cmb_value c). Qed.

Lemma lookup_preference_view v l :
  Forall (fun c => is_Some (cmb_value c)) l ->
  lookup_preference v l = Ok (default NO_PREFERENCE (preference_view l !! v)).
Proof.
  induction 1 as [|c l [s Hs] Hl IH]; [done|].
  cbn. rewrite preference_view_cons, Hs. case_bool_decide as Hv.
  - subst s. by rewrite lookup_insert_eq.
  - rewrite IH, lookup_insert_ne by congruence. done.
Qed.

Lemma preference_view_update v p l i :
  find_index (matches_value v) l = Some i ->
  preference_view (alter (fun c => Combination (cmb_value c) p) i l) = <[v := p]> (preference_view l).
Proof.
  revert i. induction l as [|c l IH]; intros i; cbn [find_index]; [done|].
  destruct (matches_value v c) eqn:Hc; unfold matches_value in Hc.
  - intros [= <-]. apply bool_decide_eq_true in Hc. cbn.
    rewrite !preference_view_cons; cbn [cmb_value cmb_preference]. rewrite Hc.
    by rewrite insert_insert_eq.
  - intros (k & Hk & ->)%fmap_Some. apply bool_decide_eq_false in Hc. cbn.
    rewrite !preference_view_cons, (IH k Hk). destruct (cmb_value c); [|done].
    apply insert_insert_ne. congruence.
Qed.

Lemma preference_view_extend v p l :
  find_index (matches_value v) l = None ->
  preference_view (l ++ [Combination (Some v) p]) = <[v := p]> (preference_view l).
Proof.
  rewrite find_index_None. induction l as [|c l IH]; intros H; [done|].
  cbn [app]. rewrite !preference_view_cons, IH by (intros; apply H; by constructor).
  assert (Hc : matches_value v c = false) by (apply H; constructor).
  apply bool_decide_eq_false in Hc. destruct (cmb_value c); [|done].
  apply insert_insert_ne. congruence.
Qed.

(** The effect of an insertion on the abstract preference map. *)
Definition added (t t' : ct_transport_properties) (type : sel_prop) (m : gmap string preference) : Prop :=
  wf_selection (selection_properties t') /\
  (sets_ok (selection_properties t) -> sets_ok (selection_properties t')) /\
  view t' type = m /\
  (forall q, q <> type -> selection_properties t' q = selection_properties t q) /\
  connection_properties t' = connection_properties t.

Lemma added_update t type u s :
  wf_selection (selection_properties t) -> type = INTERFACE \/ type = PVD ->
  (sets_ok (selection_properties t) -> no_null s) ->
  added t (update_sel t type u (preference_set_val s)) type (preference_view (combination_list s)).
Proof.
  intros Hwf Htype Hs. unfold added, update_sel, view; cbn. split_and!.
  - apply wf_selection_upd; [done|]. by destruct (wf_selection_set _ _ Hwf Htype) as (? & _ & ->).
  - intros Hok q s'. unfold upd. case_decide.
    + subst q. cbn. intros [= <-]. by apply Hs.
    + apply Hok.
  - by rewrite upd_same.
  - intros q Hq. by rewrite upd_other.
  - done.
Qed.

(** C30: [ct_transport_properties_add_preference_map] implements insertion
    in a finite map from names to preferences: it succeeds and binds the name
    (replacing an earlier preference for it), or reports [-ENOMEM] and leaves
    the map as it was; it succeeds whenever allocation does; the other
    properties are untouched; and the getters return the map's binding,
    [NO_PREFERENCE] for a name that was never added. *)
Theorem add_preference_refines_insert t type v pref h :
  wf_selection (selection_properties t) -> sets_ok (selection_properties t) ->
  type = INTERFACE \/ type = PVD ->
  wp (ct_transport_properties_add_preference_map t type v pref) (fun '(rc, t') h' =>
    (rc = 0 /\ added t t' type (<[v := pref]> (view t type)) \/
     rc = - ENOMEM /\ added t t' type (view t type) /\ ~ oracle_ok h) /\
    forall x, get_preference type (Some t') x = Ok (default NO_PREFERENCE (view t' type !! x))) h.
Proof.
  intros Hwf Hok Htype.
  destruct (wf_selection_set _ _ Hwf Htype) as (s & Hs & _).
  assert (Hview : view t type = preference_view (combination_list s)) by (unfold view; by rewrite Hs).
  assert (Hns : no_null s) by (by eapply Hok).
  assert (Hget : forall t', added t t' type (view t' type) ->
    forall x, get_preference type (Some t') x = Ok (default NO_PREFERENCE (view t' type !! x))).
  { intros t' (Hwf' & Hok' & _) x. unfold get_preference, view.
    destruct (wf_selection_set _ _ Hwf' Htype) as (s' & Hs' & _). rewrite Hs'. cbn.
    apply lookup_preference_view. by eapply Hok'. }
  assert (Hfin : forall t' m, added t t' type m -> added t t' type (view t' type)).
  { intros t' m (?&?&?&?&?). by split_and!. }
  unfold ct_transport_properties_add_preference_map. wp_steps.
  eapply wp_deref; [by rewrite Hs|]. destruct (find_index _ _) as [i|] eqn:Hi.
  - wp_steps. assert (Ha : added t (update_sel t type (sp_set_by_user (selection_properties t type))
      (preference_set_val (PreferenceSet (Some (alter (fun c => Combination (cmb_value c) pref) i (combination_list s))))))
      type (<[v := pref]> (view t type))).
    { rewrite Hview, <- (preference_view_update _ _ _ _ Hi). apply added_update; [done..|].
      intros _. unfold no_null; cbn. apply Forall_alter; [done|]. by intros. }
    split; [by left|]. by eapply Hget, Hfin.
  - assert (Hsame : added t t type (view t type)) by (by split_and!).
    wp_steps. apply wp_realloc. intros [] o Ho; cbn [negb]; wp_steps.
    + apply wp_strdup. intros r o' Ho' [-> | ->]; wp_steps.
      * assert (Ha : added t (update_sel t type true (preference_set_val
          (PreferenceSet (Some (combination_list s ++ [Combination (Some v) pref])))))
          type (<[v := pref]> (view t type))).
        { rewrite Hview, <- (preference_view_extend _ _ _ Hi). apply added_update; [done..|].
          intros _. unfold no_null; cbn. apply Forall_app; split; [done|]. repeat constructor. by eexists. }
        split; [by left|]. by eapply Hget, Hfin.
      * assert (Ha : added t (update_sel t type (sp_set_by_user (selection_properties t type)) (preference_set_val
          (PreferenceSet (Some (combination_list s))))) type (view t type)).
        { rewrite Hview. by apply (added_update _ _ _ (PreferenceSet (Some (combination_list s)))). }
        split; [right; split_and!; [done|done|]|by eapply Hget, Hfin].
        intros Hh. destruct (Ho Hh) as [_ Hh']. by destruct (Ho' Hh').
    + split; [right; split_and!; [done|done|]|by eapply Hget, Hfin].
      intros Hh. by destruct (Ho Hh).
Qed.

Lemma add_preference_refines_insert_witness :
  let t := TransportProperties DEFAULT_SELECTION_PROPERTIES DEFAULT_CONNECTION_PROPERTIES in
  wp (ct_transport_properties_add_preference_map t INTERFACE "eth0" PREFER) (fun '(rc, t') h' =>
    (rc = 0 /\ added t t' INTERFACE (<["eth0" := PREFER]> (view t INTERFACE)) \/
     rc = - ENOMEM /\ added t t' INTERFACE (view t INTERFACE) /\ ~ oracle_ok (Heap [true; false] 1)) /\
    forall x, get_preference INTERFACE (Some t') x = Ok (default NO_PREFERENCE (view t' INTERFACE !! x)))
    (Heap [true; false] 1).
Proof.
  apply add_preference_refines_insert; [exact wf_default_selection|exact sets_ok_default|by left].
Defined.

(** C34: the accessor macros of transport properties round trip at the
    width of the property's type: after a set, the getter of the same property
    returns the value (in range), every other connection property reads as
    before, and the selection properties are unchanged; and the selection
    accessors round trip and record that the user set the property. *)
Theorem transport_property_roundtrip p v t :
  conn_prop_has_setter p = true -> 0 <= v < 2 ^ width (conn_prop_type p) ->
  exists t', ct_transport_properties_set_conn p (Some t) v = Some t' /\
    ct_transport_properties_get_conn p (Some t') = v /\
    (forall q, q <> p -> ct_transport_properties_get_conn q (Some t') =
                         ct_transport_properties_get_conn q (Some t)) /\
    selection_properties t' = selection_properties t /\
    forall s x, exists t2, ct_transport_properties_set_sel s (Some t') x = Some t2 /\
      ct_transport_properties_get_sel s (Some t2) = x /\
      sp_set_by_user (selection_properties t2 s) = true /\
      (forall q, q <> s -> selection_properties t2 q = selection_properties t q) /\
      connection_properties t2 = connection_properties t'.
Proof.
  intros _ Hv. eexists. split_and!; [done|..].
  - unfold ct_transport_properties_get_conn, cp_read, cp_write; cbn. rewrite upd_same; cbn.
    rewrite read_write_low; [by apply wrap_small|]. unfold width. by case_match.
  - intros q Hq. unfold ct_transport_properties_get_conn, cp_read, cp_write; cbn. by rewrite upd_other.
  - done.
  - intros s x. eexists. split_and!; [done|..]; cbn; try by rewrite upd_same.
    + intros q Hq. by rewrite upd_other.
    + done.
Qed.

Lemma transport_property_roundtrip_witness :
  let t := TransportProperties DEFAULT_SELECTION_PROPERTIES DEFAULT_CONNECTION_PROPERTIES in
  exists t', ct_transport_properties_set_conn CONN_PRIORITY (Some t) 7 = Some t' /\
    ct_transport_properties_get_conn CONN_PRIORITY (Some t') = 7.
Proof.
  destruct (transport_property_roundtrip CONN_PRIORITY 7
    (TransportProperties DEFAULT_SELECTION_PROPERTIES DEFAULT_CONNECTION_PROPERTIES))
    as (t' & H1 & H2 & _); [reflexivity|vm_compute; split; congruence|].
  exists t'. split; [exact H1|exact H2].
Defined.

(** C36: the direct accessors of connection_properties.c treat [connPriority]
    as 32 bits wide: what
    [ct_connection_properties_set_conn_priority] stores is returned by its
    own getter, but the 8-bit accessor of the transport properties returns it
    modulo 256. *)
Theorem conn_priority_width_mismatch l v :
  is_u32 v ->
  exists l', ct_connection_properties_set_conn_priority (Some l) v = Some l' /\
    ct_connection_properties_get_conn_priority (Some l') = v /\
    forall sel, ct_transport_properties_get_conn CONN_PRIORITY (Some (TransportProperties sel l')) = u8 v.
Proof.
  intros Hv. eexists. split_and!; [done|..].
  - unfold ct_connection_properties_get_conn_priority, cp_get, cp_read, cp_write.
    rewrite upd_same; cbn. rewrite read_write_low by done. by apply wrap_small.
  - intros sel. unfold ct_transport_properties_get_conn, cp_read, cp_write. cbn.
    rewrite upd_same; cbn. by apply read_narrow_write.
Qed.

Lemma conn_priority_width_mismatch_witness :
  exists l', ct_connection_properties_set_conn_priority (Some DEFAULT_CONNECTION_PROPERTIES) 300 = Some l' /\
    ct_connection_properties_get_conn_priority (Some l') = 300 /\
    forall sel, ct_transport_properties_get_conn CONN_PRIORITY (Some (TransportProperties sel l')) = u8 300.
Proof. apply conn_priority_width_mismatch. vm_compute. split; congruence. Defined.
