(* ===== verification/Endpoint.v ===== *)
(** Local and remote endpoints.

    Models src/src/endpoint/: local_endpoint.c, remote_endpoint.c,
    port_util.c and the interface and endpoint-pair functions of util.c (its
    address comparisons are in [SockAddr], its DNS completion in
    [Candidates]).  An endpoint is the C struct; the strings behind its
    pointers are counted by the allocator of [Prelude], so that copies and
    frees can be balanced.  [getaddrinfo] and [uv_interface_addresses] are
    parameters. *)

From S2P Require Export SockAddr.

(** ** Data *)

(** [ct_local_endpoint_t] *)
Record ct_local_endpoint := LocalEndpoint {
  le_port : Z;
  le_interface_name : option string;
  le_service : option string;
  le_resolved_address : sockaddr }.

(** [ct_remote_endpoint_t] *)
Record ct_remote_endpoint := RemoteEndpoint {
  re_port : Z;
  re_service : option string;
  re_hostname : option string;
  re_resolved_address : sockaddr }.

#[export] Instance ct_local_endpoint_eq_dec : EqDecision ct_local_endpoint.
Proof. solve_decision. Defined.
#[export] Instance ct_remote_endpoint_eq_dec : EqDecision ct_remote_endpoint.
Proof. solve_decision. Defined.

Definition eta_le (e : ct_local_endpoint) :=
  LocalEndpoint (le_port e) (le_interface_name e) (le_service e) (le_resolved_address e).
Definition set_le_port v e : ct_local_endpoint := ltac:(set_field eta_le le_port v e).
Definition set_le_interface_name v e : ct_local_endpoint := ltac:(set_field eta_le le_interface_name v e).
Definition set_le_service v e : ct_local_endpoint := ltac:(set_field eta_le le_service v e).
Definition set_le_resolved_address v e : ct_local_endpoint := ltac:(set_field eta_le le_resolved_address v e).

Definition eta_re (e : ct_remote_endpoint) :=
  RemoteEndpoint (re_port e) (re_service e) (re_hostname e) (re_resolved_address e).
Definition set_re_port v e : ct_remote_endpoint := ltac:(set_field eta_re re_port v e).
Definition set_re_service v e : ct_remote_endpoint := ltac:(set_field eta_re re_service v e).
Definition set_re_hostname v e : ct_remote_endpoint := ltac:(set_field eta_re re_hostname v e).
Definition set_re_resolved_address v e : ct_remote_endpoint := ltac:(set_field eta_re re_resolved_address v e).

Definition wf_local (e : ct_local_endpoint) : Prop :=
  is_u16 (le_port e) /\ wf_sockaddr (le_resolved_address e).
Definition wf_remote (e : ct_remote_endpoint) : Prop :=
  is_u16 (re_port e) /\ wf_sockaddr (re_resolved_address e).

(** [addr->sinX_port = htons(port)] when the family is one of the two. *)
Definition set_port_if_inet (port : Z) (a : sockaddr) : sockaddr :=
  if ss_family a =? AF_INET6 then set_port port a
  else if ss_family a =? AF_INET then set_port port a
  else a.

(** ** Ports of services (port_util.c) *)

Section service.
(** [getaddrinfo(NULL, service, &hints, &result)]: a status and, when it is
    0, the result list (family, address). *)
Context (getaddrinfo : string -> Z * list (Z * sockaddr)).

Definition ct_get_service_port (service : string) (family : Z) : Z :=
  let '(status, result) := getaddrinfo service in
  if negb (status =? 0) then status
  else
    foldl (fun res '(ai_family, ai_addr) =>
      let res := if (ai_family =? AF_INET) && ((family =? AF_INET) || (family =? AF_UNSPEC))
                 then port_of ai_addr else res in
      if (ai_family =? AF_INET6) && (family =? AF_INET6) then port_of ai_addr else res)
      (-1) result.
End service.

(** ** Interface addresses (util.c) *)

Definition MAX_FOUND_INTERFACE_ADDRS : nat := 64.

Section interfaces.
(** [uv_interface_addresses]: a status and the system's interfaces. *)
Context (uv_interface_addresses : Z * list (string * sockaddr)).

Definition interface_selected (interface_name : string) (i : string * sockaddr) : bool :=
  bool_decide ("any" = interface_name) || bool_decide (i.1 = interface_name).

(** The loop body; [found] are the addresses stored so far. *)
Fixpoint collect_interfaces (interface_name : string) (l : list (string * sockaddr))
    (found : list sockaddr) : list sockaddr :=
  match l with
  | [] => found
  | i :: l =>
      if interface_selected interface_name i then
        if (MAX_FOUND_INTERFACE_ADDRS <=? length found)%nat then found else
        let found := if ss_family i.2 =? AF_INET
                     then found ++ [memcpy SOCKADDR_IN_SIZE i.2 sockaddr_zero] else found in
        if (MAX_FOUND_INTERFACE_ADDRS <=? length found)%nat then found else
        let found := if ss_family i.2 =? AF_INET6
                     then found ++ [memcpy SOCKADDR_IN6_SIZE i.2 sockaddr_zero] else found in
        collect_interfaces interface_name l found
      else collect_interfaces interface_name l found
  end.

Definition ct_get_interface_addresses (interface_name : option string) : list sockaddr :=
  match interface_name with
  | None => []
  | Some name =>
      let '(rc, interfaces) := uv_interface_addresses in
      if negb (rc =? 0) then [] else collect_interfaces name interfaces []
  end.
End interfaces.

(** ** Local endpoints *)

Definition ct_local_endpoint_with_port (local_endpoint : ct_local_endpoint) (port : Z) : ct_local_endpoint :=
  set_le_resolved_address (set_port_if_inet port (le_resolved_address local_endpoint))
    (set_le_port port local_endpoint).

Definition ct_local_endpoint_get_interface_name := le_interface_name.

Definition ct_local_endpoint_build : ct_local_endpoint := LocalEndpoint 0 None None sockaddr_zero.

Definition ct_local_endpoint_new : M heap (option ct_local_endpoint) :=
  ok ← malloc; mret (if ok : bool then Some ct_local_endpoint_build else None).

(** The result of [strdup] is not checked. *)
Definition ct_local_endpoint_with_interface (e : ct_local_endpoint) (interface_name : string) :
    M heap (Z * ct_local_endpoint) :=
  p ← strdup interface_name; mret (0, set_le_interface_name p e).

Definition ct_local_endpoint_with_service (e : ct_local_endpoint) (service : string) :
    M heap (Z * ct_local_endpoint) :=
  p ← strdup service;
  mret (if is_Some_b p then 0 else - ENOMEM, set_le_service p e).

Definition ct_local_endpoint_free_content (e : option ct_local_endpoint) : M heap (option ct_local_endpoint) :=
  match e with
  | None => mret None
  | Some e =>
      free_string (le_interface_name e) ;;
      free_string (le_service e) ;;
      mret (Some (set_le_service None (set_le_interface_name None e)))
  end.

Definition ct_local_endpoint_free (e : option ct_local_endpoint) : M heap unit :=
  match e with
  | None => mret tt
  | Some _ => ct_local_endpoint_free_content e ;; free_block
  end.

(** [ct_local_endpoint_copy_content]: return code and contents of [dest].
    When the second [strdup] fails the service copy has been freed; it stays,
    dangling, in the C [dest], which every caller discards, and is cleared here. *)
Definition ct_local_endpoint_copy_content (src : ct_local_endpoint) : M heap (Z * ct_local_endpoint) :=
  let dest := set_le_interface_name None (set_le_service None src) in
  service ← strdup_opt (le_service src);
  if is_Some_b (le_service src) && negb (is_Some_b service) then mret (- ENOMEM, dest) else
  name ← strdup_opt (le_interface_name src);
  if is_Some_b (le_interface_name src) && negb (is_Some_b name)
  then free_string service ;; mret (- ENOMEM, dest)
  else mret (0, set_le_interface_name name (set_le_service service dest)).

Definition ct_local_endpoint_deep_copy (e : option ct_local_endpoint) : M heap (option ct_local_endpoint) :=
  match e with
  | None => mret None
  | Some e =>
      ok ← malloc;
      if negb ok then mret None else
      '(rc, res) ← ct_local_endpoint_copy_content e;
      if negb (rc =? 0) then free_block ;; mret None else mret (Some res)
  end.

Definition ct_local_endpoint_get_service := le_service.

Definition ct_local_endpoint_get_resolved_address (e : option ct_local_endpoint) : option sockaddr :=
  le_resolved_address <$> e.

Definition ct_local_endpoint_get_address_family (e : option ct_local_endpoint) : Z :=
  match e with None => 0 | Some e => ss_family (le_resolved_address e) end.

Definition ct_local_endpoint_get_resolved_port (e : option ct_local_endpoint) : Z :=
  match ct_local_endpoint_get_resolved_address e with
  | None => 0
  | Some a =>
      if ct_local_endpoint_get_address_family e =? AF_INET6 then port_of a
      else if ct_local_endpoint_get_address_family e =? AF_INET then port_of a
      else 0
  end.

Definition ct_local_endpoint_set_resolved_address (e : ct_local_endpoint) (a : sockaddr) : ct_local_endpoint :=
  set_le_resolved_address a e.

Definition ct_local_endpoint_with_ipv4 (e : option ct_local_endpoint) (ipv4_addr : bytes) :
    Z * option ct_local_endpoint :=
  match e with
  | None => (- EINVAL, None)
  | Some e => (0, Some (set_le_resolved_address
                          (set_sin_addr ipv4_addr (set_family AF_INET sockaddr_zero)) e))
  end.

Definition ct_local_endpoint_with_ipv6 (e : option ct_local_endpoint) (ipv6_addr : bytes) :
    Z * option ct_local_endpoint :=
  match e with
  | None => (- EINVAL, None)
  | Some e => (0, Some (set_le_resolved_address
                          (set_sin6_addr ipv6_addr (set_family AF_INET6 (le_resolved_address e))) e))
  end.

Definition ct_local_endpoint_from_sockaddr (e : ct_local_endpoint) (addr : option sockaddr) :
    Z * ct_local_endpoint :=
  match addr with
  | None => (- EINVAL, e)
  | Some a =>
      if is_Some_b (le_service e) then (- EINVAL, e)
      else if ss_family a =? AF_INET then
        (0, set_le_resolved_address (memcpy SOCKADDR_IN_SIZE a (le_resolved_address e))
              (set_le_port (port_of a) e))
      else if ss_family a =? AF_INET6 then
        (0, set_le_resolved_address (memcpy SOCKADDR_IN6_SIZE a (le_resolved_address e))
              (set_le_port (port_of a) e))
      else (- EINVAL, e)
  end.

Definition ct_local_endpoint_resolved_equals (e1 e2 : option ct_local_endpoint) : bool :=
  match e1, e2 with
  | Some e1, Some e2 => ct_sockaddr_equal (le_resolved_address e1) (le_resolved_address e2)
  | _, _ => false
  end.

(** The copy loop of an array of endpoints: on failure the entries copied so
    far and the array are freed. *)
Fixpoint copy_loop {A} (copy : A -> M heap (Z * A)) (free : A -> M heap unit) (todo res : list A) :
    M heap (option (list A)) :=
  match todo with
  | [] => mret (Some res)
  | e :: todo =>
      '(rc, e') ← copy e;
      if negb (rc =? 0) then for_each res free ;; free_block ;; mret None
      else copy_loop copy free todo (res ++ [e'])
  end.

Definition free_local (e : ct_local_endpoint) : M heap unit :=
  ct_local_endpoint_free_content (Some e) ;; mret tt.

(** A NULL array and an empty one are both [[]]. *)
Definition ct_local_endpoints_deep_copy (l : list ct_local_endpoint) : M heap (option (list ct_local_endpoint)) :=
  if bool_decide (length l = 0%nat) then mret None else
  ok ← malloc;
  if negb ok then mret None else copy_loop ct_local_endpoint_copy_content free_local l [].

(** [array_null] says that the array pointer is NULL ([free(NULL)] does nothing). *)
Definition ct_local_endpoints_free (array_null : bool) (l : list ct_local_endpoint) : M heap unit :=
  for_each l free_local ;; when (negb array_null) free_block.

Section local_resolve.
Context (getaddrinfo : string -> Z * list (Z * sockaddr)).
Context (uv_interface_addresses : Z * list (string * sockaddr)).

Definition ct_local_endpoint_get_service_port (e : ct_local_endpoint) : M heap Z :=
  service ← deref (ct_local_endpoint_get_service e) "getaddrinfo with NULL service";
  mret (ct_get_service_port getaddrinfo service (ss_family (le_resolved_address e))).

(** One entry of the output list. *)
Definition resolved_local (e : ct_local_endpoint) (assigned_port : Z) (a : sockaddr) : M heap ct_local_endpoint :=
  name ← strdup_opt (le_interface_name e);
  service ← strdup_opt (le_service e);
  mret (LocalEndpoint assigned_port name service (set_port_if_inet assigned_port a)).

Fixpoint resolved_locals (e : ct_local_endpoint) (assigned_port : Z) (l : list sockaddr) :
    M heap (list ct_local_endpoint) :=
  match l with
  | [] => mret []
  | a :: l =>
      x ← resolved_local e assigned_port a;
      xs ← resolved_locals e assigned_port l;
      mret (x :: xs)
  end.

(** [None] is the NULL list with [out_count] 0. *)
Definition ct_local_endpoint_resolve (e : ct_local_endpoint) : M heap (option (list ct_local_endpoint)) :=
  if negb (ss_family (le_resolved_address e) =? AF_UNSPEC) then
    out ← ct_local_endpoint_deep_copy (Some e);
    mret ((fun x => [x]) <$> out)
  else
    let found := ct_get_interface_addresses uv_interface_addresses
                   (Some (default "any" (le_interface_name e))) in
    assigned_port ←
      (if is_Some_b (le_service e)
       then p ← ct_local_endpoint_get_service_port e; mret (u16 p)
       else mret (le_port e));
    if (0 <? length found)%nat then
      ok ← malloc;
      if negb ok then mret None else
      l ← resolved_locals e assigned_port found;
      mret (Some l)
    else mret None.
End local_resolve.

(** ** Remote endpoints *)

Definition ct_remote_endpoint_build : ct_remote_endpoint := RemoteEndpoint 0 None None sockaddr_zero.

Definition ct_remote_endpoint_new : M heap (option ct_remote_endpoint) :=
  ok ← malloc; mret (if ok : bool then Some ct_remote_endpoint_build else None).

Definition ct_remote_endpoint_with_ipv4 (e : ct_remote_endpoint) (ipv4_addr : bytes) : Z * ct_remote_endpoint :=
  if is_Some_b (re_hostname e) then (- EINVAL, e)
  else (0, set_re_resolved_address (set_sin_addr ipv4_addr (set_family AF_INET sockaddr_zero)) e).

Definition ct_remote_endpoint_with_ipv6 (e : ct_remote_endpoint) (ipv6_addr : bytes) : Z * ct_remote_endpoint :=
  if is_Some_b (re_hostname e) then (- EINVAL, e)
  else (0, set_re_resolved_address
             (set_sin6_addr ipv6_addr (set_family AF_INET6 (re_resolved_address e))) e).

Definition ct_remote_endpoint_from_sockaddr (e : ct_remote_endpoint) (a : sockaddr) : Z * ct_remote_endpoint :=
  if is_Some_b (re_hostname e) then (- EINVAL, e)
  else if ss_family a =? AF_INET then
    (0, set_re_resolved_address (memcpy SOCKADDR_IN_SIZE a (re_resolved_address e))
          (set_re_port (port_of a) e))
  else if ss_family a =? AF_INET6 then
    (0, set_re_resolved_address (memcpy SOCKADDR_IN6_SIZE a (re_resolved_address e))
          (set_re_port (port_of a) e))
  else (- EINVAL, e).

(** A failed [malloc] sets [errno] to [ENOMEM]. *)
Definition ct_remote_endpoint_with_hostname (e : ct_remote_endpoint) (hostname : string) :
    M heap (Z * ct_remote_endpoint) :=
  if negb (ss_family (re_resolved_address e) =? AF_UNSPEC) then mret (- EINVAL, e) else
  ok ← malloc;
  if negb ok then mret (- ENOMEM, set_re_hostname None e)
  else mret (0, set_re_hostname (Some hostname) e).

Definition ct_remote_endpoint_with_service (e : ct_remote_endpoint) (service : string) :
    M heap (Z * ct_remote_endpoint) :=
  p ← strdup service;
  mret (if is_Some_b p then 0 else - ENOMEM, set_re_service p e).

Definition ct_remote_endpoint_with_port (e : ct_remote_endpoint) (port : Z) : ct_remote_endpoint :=
  set_re_resolved_address (set_port_if_inet port (re_resolved_address e)) (set_re_port port e).

Definition ct_remote_endpoint_free_content (e : option ct_remote_endpoint) : M heap (option ct_remote_endpoint) :=
  match e with
  | None => mret None
  | Some e =>
      free_string (re_hostname e) ;;
      free_string (re_service e) ;;
      mret (Some (set_re_service None (set_re_hostname None e)))
  end.

Definition ct_remote_endpoint_free (e : option ct_remote_endpoint) : M heap unit :=
  ct_remote_endpoint_free_content e ;; when (is_Some_b e) free_block.

Definition ct_remote_endpoint_copy_content (src : ct_remote_endpoint) : M heap (Z * ct_remote_endpoint) :=
  let dest := set_re_hostname None (set_re_service None src) in
  host ← strdup_opt (re_hostname src);
  if is_Some_b (re_hostname src) && negb (is_Some_b host) then mret (- ENOMEM, dest) else
  service ← strdup_opt (re_service src);
  if is_Some_b (re_service src) && negb (is_Some_b service)
  then free_string host ;; mret (- ENOMEM, dest)
  else mret (0, set_re_service service (set_re_hostname host dest)).

(** The result of [malloc] is not checked: copying into NULL. *)
Definition ct_remote_endpoint_deep_copy (e : ct_remote_endpoint) : M heap (option ct_remote_endpoint) :=
  ok ← malloc;
  assert_ ok "memset through NULL" ;;
  '(rc, res) ← ct_remote_endpoint_copy_content e;
  if negb (rc =? 0) then free_block ;; mret None else mret (Some res).

Definition ct_remote_endpoint_get_service := re_service.

Definition remote_endpoint_get_resolved_address (e : option ct_remote_endpoint) : option sockaddr :=
  re_resolved_address <$> e.

Definition free_remote (e : ct_remote_endpoint) : M heap unit :=
  ct_remote_endpoint_free_content (Some e) ;; mret tt.

Definition ct_remote_endpoints_deep_copy (l : list ct_remote_endpoint) : M heap (option (list ct_remote_endpoint)) :=
  if bool_decide (length l = 0%nat) then mret None else
  ok ← malloc;
  if negb ok then mret None else copy_loop ct_remote_endpoint_copy_content free_remote l [].

Definition ct_remote_endpoints_free (array_null : bool) (l : list ct_remote_endpoint) : M heap unit :=
  for_each l free_remote ;; when (negb array_null) free_block.

Definition ct_remote_endpoint_resolved_equals (e1 e2 : option ct_remote_endpoint) : bool :=
  match e1, e2 with
  | Some e1, Some e2 => ct_sockaddr_equal (re_resolved_address e1) (re_resolved_address e2)
  | _, _ => false
  end.

Section remote_resolve.
Context (getaddrinfo : string -> Z * list (Z * sockaddr)).
(** The caller's state, its [malloc], the field [context->assigned_port],
    the start of a DNS lookup and the completion callback. *)
Context {S : Type} (alloc : M S bool) (set_assigned_port : Z -> M S unit)
  (ct_perform_dns_lookup : string -> option string -> M S Z)
  (ct_remote_endpoint_resolve_cb : list ct_remote_endpoint -> M S unit).

Definition ct_remote_endpoint_get_service_port (e : ct_remote_endpoint) : M S Z :=
  service ← deref (ct_remote_endpoint_get_service e) "getaddrinfo with NULL service";
  mret (ct_get_service_port getaddrinfo service (ss_family (re_resolved_address e))).

(** [context->assigned_port] is an [int32_t]; [htons(assigned_port)] truncates. *)
Definition ct_remote_endpoint_resolve (e : ct_remote_endpoint) : M S Z :=
  assigned_port ←
    (if is_Some_b (re_service e) then ct_remote_endpoint_get_service_port e
     else mret (re_port e));
  if assigned_port =? -1 then mret (- EINVAL) else
  set_assigned_port assigned_port ;;
  match re_hostname e with
  | Some hostname => ct_perform_dns_lookup hostname (re_service e)
  | None =>
      if negb (ss_family (re_resolved_address e) =? AF_UNSPEC) then
        ok ← alloc;
        if negb ok then mret (- ENOMEM) else
        ct_remote_endpoint_resolve_cb
          [set_re_resolved_address (set_port_if_inet assigned_port (re_resolved_address e)) e] ;;
        mret 0
      else mret (- EINVAL)
  end.
End remote_resolve.

(** ** Endpoint pairs (util.c) *)

Definition ct_address_families_match (local : option ct_local_endpoint) (remote : option ct_remote_endpoint) : bool :=
  match local, remote with
  | None, None => true
  | Some l, Some r => ss_family (le_resolved_address l) =? ss_family (re_resolved_address r)
  | _, _ => false
  end.

Definition ct_address_scope_match (local : option ct_local_endpoint) (remote : option ct_remote_endpoint) : bool :=
  match local, remote with
  | None, None => true
  | Some l, Some r => bool_decide (ct_get_addr_scope (le_resolved_address l) = ct_get_addr_scope (re_resolved_address r))
  | _, _ => false
  end.

(** The endpoints built from the results of a DNS lookup
    ([on_uv_getaddrinfo_cb]): IPv4 and IPv6 results, with the assigned port. *)
Definition dns_endpoint (assigned_port : Z) (r : Z * sockaddr) : option ct_remote_endpoint :=
  let '(ai_family, ai_addr) := r in
  if (ai_family =? AF_INET) then
    Some (RemoteEndpoint (u16 assigned_port) None None
            (set_port assigned_port (memcpy SOCKADDR_IN_SIZE ai_addr sockaddr_zero)))
  else if (ai_family =? AF_INET6) then
    Some (RemoteEndpoint (u16 assigned_port) None None
            (set_port assigned_port (memcpy SOCKADDR_IN6_SIZE ai_addr sockaddr_zero)))
  else None.

(** ** Copies and frees *)

Definition local_blocks (e : ct_local_endpoint) : Z := blocks_of (le_interface_name e) + blocks_of (le_service e).
Definition remote_blocks (e : ct_remote_endpoint) : Z := blocks_of (re_hostname e) + blocks_of (re_service e).

Lemma frees_local e : frees (free_local e) (local_blocks e).
Proof.
  intros h. unfold free_local. cbn [ct_local_endpoint_free_content]. wp_steps.
  apply wp_free_string. wp_steps. apply wp_free_string. wp_steps. unfold local_blocks. cbn. f_equal. lia.
Qed.

Lemma frees_remote e : frees (free_remote e) (remote_blocks e).
Proof.
  intros h. unfold free_remote. cbn [ct_remote_endpoint_free_content]. wp_steps.
  apply wp_free_string. wp_steps. apply wp_free_string. wp_steps. unfold remote_blocks. cbn. f_equal. lia.
Qed.

Lemma set_le_same e : set_le_interface_name (le_interface_name e) (set_le_service (le_service e)
  (set_le_interface_name None (set_le_service None e))) = e.
Proof. by destruct e. Qed.

Lemma set_re_same e : set_re_service (re_service e) (set_re_hostname (re_hostname e)
  (set_re_hostname None (set_re_service None e))) = e.
Proof. by destruct e. Qed.

(** A copy operation that either returns an equal value, having allocated the
    value's blocks, or fails because allocation failed, having released
    everything it had allocated. *)
Definition copies {A} (copy : A -> M heap (Z * A)) (blocks : A -> Z) : Prop :=
  forall e h, wp (copy e) (fun '(rc, e') h' =>
    rc = 0 /\ e' = e /\ heap_step h h' (blocks e) \/
    rc <> 0 /\ heap_step h h' 0 /\ ~ oracle_ok h) h.

Ltac heap_lia := unfold heap_step, oracle_ok in *; simpl in *; intuition (try lia; eauto).

Lemma copies_local : copies ct_local_endpoint_copy_content local_blocks.
Proof.
  intros e h. unfold ct_local_endpoint_copy_content. wp_steps. apply wp_strdup_opt.
  intros s h1 H1 [-> | (Hs & -> & Ho)].
  - rewrite andb_negb_r. wp_steps. apply wp_strdup_opt. intros n h2 H2 [-> | (Hn & -> & Ho)].
    + rewrite andb_negb_r. wp_steps. left. split_and!; [done|apply set_le_same|].
      eapply heap_step_trans; [exact H1|exact H2|]. unfold local_blocks. lia.
    + rewrite Hn. cbn. wp_steps. apply wp_free_string. wp_steps. right. split_and!; [done| |].
      * unfold heap_step in *; simpl in *. intuition lia.
      * unfold heap_step in H1. tauto.
  - rewrite Hs. cbn. wp_steps. right. split_and!; [done|exact H1|done].
Qed.

Lemma copies_remote : copies ct_remote_endpoint_copy_content remote_blocks.
Proof.
  intros e h. unfold ct_remote_endpoint_copy_content. wp_steps. apply wp_strdup_opt.
  intros s h1 H1 [-> | (Hs & -> & Ho)].
  - rewrite andb_negb_r. wp_steps. apply wp_strdup_opt. intros n h2 H2 [-> | (Hn & -> & Ho)].
    + rewrite andb_negb_r. wp_steps. left. split_and!; [done|apply set_re_same|].
      eapply heap_step_trans; [exact H1|exact H2|]. unfold remote_blocks. lia.
    + rewrite Hn. cbn. wp_steps. apply wp_free_string. wp_steps. right. split_and!; [done| |].
      * unfold heap_step in *; simpl in *. intuition lia.
      * unfold heap_step in H1. tauto.
  - rewrite Hs. cbn. wp_steps. right. split_and!; [done|exact H1|done].
Qed.

Lemma wp_copy_loop {A} (copy : A -> M heap (Z * A)) free blocks todo res h h0 n0 :
  copies copy blocks -> (forall e, frees (free e) (blocks e)) ->
  heap_step h0 h (n0 + 1 + zsum (blocks <$> res)) ->
  wp (copy_loop copy free todo res) (fun r h' =>
    match r with
    | Some l => l = res ++ todo /\ heap_step h0 h' (n0 + 1 + zsum (blocks <$> l))
    | None => heap_step h0 h' n0 /\ ~ oracle_ok h0
    end) h.
Proof.
  intros Hcopy Hfree. revert res h. induction todo as [|e todo IH]; intros res h Hh; cbn [copy_loop].
  - wp_steps. by rewrite app_nil_r.
  - wp_steps. eapply wp_mono; [apply Hcopy|].
    intros [rc e'] h' [(-> & -> & H1)|(Hrc & H1 & Ho)].
    + cbn. eapply wp_mono; [apply IH|].
      * eapply heap_step_trans; [exact Hh|exact H1|]. rewrite fmap_app, zsum_app. unfold zsum; simpl. lia.
      * intros [l|] h2; [|done]. by rewrite <- app_assoc.
    + destruct (Z.eqb_spec rc 0); [done|]. cbn [negb]. wp_steps.
      eapply wp_frees; [by apply (frees_for_each res _ blocks)|]. wp_steps.
      apply wp_free_block. wp_steps. unfold heap_step, oracle_ok in *; simpl in *. intuition lia.
Qed.

(** The result of a deep copy of an array: an equal array whose blocks were
    added to the heap, or nothing at all. *)
Definition copied {A} (blocks : A -> Z) (l : list A) (h : heap) (r : option (list A)) (h' : heap) : Prop :=
  match r with
  | Some l' => l' = l /\ l <> [] /\ h_live h' = h_live h + 1 + zsum (blocks <$> l)
  | None => h_live h' = h_live h /\ (l = [] \/ ~ oracle_ok h)
  end.

Lemma wp_array_copy {A} (copy : A -> M heap (Z * A)) free blocks l h :
  copies copy blocks -> (forall e, frees (free e) (blocks e)) ->
  wp (if bool_decide (length l = 0%nat) then mret None else
      ok ← malloc;
      if negb ok then mret None else copy_loop copy free l []) (copied blocks l h) h.
Proof.
  intros Hc Hf. case_bool_decide as Hl.
  - apply wp_ret. split; [done|]. left. by apply length_zero_iff_nil.
  - wp_steps. apply wp_malloc. intros [] o Ho; cbn [negb].
    + assert (Hs : heap_step h (Heap o (h_live h + 1)) (0 + 1 + zsum (blocks <$> []))).
      { split; [unfold zsum; simpl; lia|]. intros Hh. by destruct (Ho Hh). }
      eapply wp_mono; [by apply (wp_copy_loop _ _ blocks _ _ _ h 0)|].
      intros [l'|] h' H; cbn in *.
      * destruct H as (-> & H & _). split_and!; [done| |lia]. by intros ->.
      * destruct H as [[H _] ?]. split; [lia|by right].
    + wp_steps. split; [done|]. right. intros Hh. by destruct (Ho Hh).
Qed.

(** Freeing an array gives its blocks back. *)
Lemma frees_array {A} (free : A -> M heap unit) blocks l :
  (forall e, frees (free e) (blocks e)) ->
  frees (for_each l free ;; when (negb false) free_block) (1 + zsum (blocks <$> l)).
Proof.
  intros Hf. eapply frees_eq.
  - apply frees_bind; [by apply (frees_for_each l _ blocks)|]. apply frees_when. intros _. apply frees_block.
  - cbn. lia.
Qed.

(** C33: deep copies of endpoint arrays are exception safe for every
    pattern of allocation failures: either an array equal to the source is
    returned and [ct_*_endpoints_free] of it restores the number of live
    blocks, or NULL is returned (an empty source, or a failed allocation) and
    nothing allocated on the way is leaked or freed twice. *)
Theorem endpoints_deep_copy_exception_safe (ll : list ct_local_endpoint) (rl : list ct_remote_endpoint) h :
  wp (ct_local_endpoints_deep_copy ll) (fun r h1 =>
    copied local_blocks ll h r h1 /\
    forall l, r = Some l -> wp (ct_local_endpoints_free false l) (fun _ h2 => h_live h2 = h_live h) h1) h /\
  wp (ct_remote_endpoints_deep_copy rl) (fun r h1 =>
    copied remote_blocks rl h r h1 /\
    forall l, r = Some l -> wp (ct_remote_endpoints_free false l) (fun _ h2 => h_live h2 = h_live h) h1) h.
Proof.
  split.
  - eapply wp_mono; [by apply (wp_array_copy _ _ local_blocks); [apply copies_local|apply frees_local]|].
    intros r h1 H. split; [done|]. intros l ->. destruct H as (-> & _ & H).
    eapply wp_frees; [apply (frees_array _ _ _ frees_local)|]. cbn. lia.
  - eapply wp_mono; [by apply (wp_array_copy _ _ remote_blocks); [apply copies_remote|apply frees_remote]|].
    intros r h1 H. split; [done|]. intros l ->. destruct H as (-> & _ & H).
    eapply wp_frees; [apply (frees_array _ _ _ frees_remote)|]. cbn. lia.
Qed.

(** ** Interface addresses *)

(** The address an interface contributes. *)
Definition interface_address (name : string) (i : string * sockaddr) : option sockaddr :=
  if interface_selected name i then
    if ss_family i.2 =? AF_INET then Some (memcpy SOCKADDR_IN_SIZE i.2 sockaddr_zero)
    else if ss_family i.2 =? AF_INET6 then Some (memcpy SOCKADDR_IN6_SIZE i.2 sockaddr_zero)
    else None
  else None.

Lemma collect_interfaces_spec name l found :
  (length found <= MAX_FOUND_INTERFACE_ADDRS)%nat ->
  collect_interfaces name l found =
    take MAX_FOUND_INTERFACE_ADDRS (found ++ omap (interface_address name) l).
Proof.
  revert found. induction l as [|i l IH]; intros found Hf; cbn [collect_interfaces].
  - cbn. by rewrite app_nil_r, take_ge.
  - cbn [omap list_omap]. unfold interface_address at 1. destruct (interface_selected name i); [|by apply IH].
    destruct (Nat.leb_spec MAX_FOUND_INTERFACE_ADDRS (length found)).
    { assert (length found = MAX_FOUND_INTERFACE_ADDRS) as <- by lia. by rewrite take_app_length. }
    destruct (Z.eqb_spec (ss_family i.2) AF_INET) as [Hi|Hi].
    + rewrite length_app; cbn [length].
      replace (ss_family i.2 =? AF_INET6) with false by (by rewrite Hi).
      destruct (Nat.leb_spec MAX_FOUND_INTERFACE_ADDRS (length found + 1)).
      * assert (length found + 1 = MAX_FOUND_INTERFACE_ADDRS)%nat as <- by lia.
        set (x := memcpy _ _ _).
        replace (found ++ x :: omap _ l) with ((found ++ [x]) ++ omap (interface_address name) l)
          by (by rewrite <- app_assoc).
        rewrite take_app_length'; [done|]. by rewrite length_app.
      * rewrite IH by (rewrite length_app; cbn; lia). by rewrite <- app_assoc.
    + destruct (Nat.leb_spec MAX_FOUND_INTERFACE_ADDRS (length found)); [lia|].
      destruct (ss_family i.2 =? AF_INET6).
      * rewrite IH by (rewrite length_app; cbn; lia). by rewrite <- app_assoc.
      * by apply IH.
Qed.

(** [ct_get_interface_addresses] stores the IPv4 and IPv6 addresses of
    the named interface (of every interface for "any"), in the system's
    order, and never more than the 64 its output array holds: the first 64. *)
Theorem interface_addresses_spec uv name :
  let out := ct_get_interface_addresses uv (Some name) in
  (length out <= MAX_FOUND_INTERFACE_ADDRS)%nat /\
  (uv.1 = 0 -> out = take MAX_FOUND_INTERFACE_ADDRS (omap (interface_address name) uv.2)) /\
  (uv.1 <> 0 -> out = []).
Proof.
  destruct uv as [rc l]. cbn -[MAX_FOUND_INTERFACE_ADDRS].
  destruct (Z.eqb_spec rc 0); cbn -[MAX_FOUND_INTERFACE_ADDRS].
  - rewrite collect_interfaces_spec by (cbn; lia). split_and!; [|done|done].
    rewrite length_take. lia.
  - split_and!; [lia|done|done].
Qed.

(** ** Ports *)

Lemma ss_family_u16 a : wf_sockaddr a -> is_u16 (ss_family a).
Proof.
  intros [Hl Ha]. unfold ss_family, le16_value, is_u16.
  destruct (read 0 2 a) as [|x [|y [|]]] eqn:Hr; try lia.
  assert (Hb : Forall is_u8 [x; y]) by (rewrite <- Hr; by apply Forall_take, Forall_drop).
  rewrite !Forall_cons_iff in Hb. unfold is_u8 in Hb. lia.
Qed.

Lemma set_port_if_inet_port p a :
  wf_sockaddr a -> is_inet a = true -> port_of (set_port_if_inet p a) = u16 p.
Proof.
  intros Hwf Ha. unfold set_port_if_inet, is_inet in *.
  destruct (ss_family a =? AF_INET6); [by apply port_set_port|].
  rewrite orb_false_r in Ha. rewrite Ha. by apply port_set_port.
Qed.

Lemma set_port_if_inet_family p a : wf_sockaddr a -> ss_family (set_port_if_inet p a) = ss_family a.
Proof. intros. unfold set_port_if_inet. repeat case_match; by try apply family_set_port. Qed.

Lemma set_port_if_inet_wf p a : wf_sockaddr a -> wf_sockaddr (set_port_if_inet p a).
Proof. intros. unfold set_port_if_inet. repeat case_match; auto with ctaps. Qed.

Lemma set_port_if_inet_read off n p a :
  wf_sockaddr a -> (4 <= off)%nat -> read off n (set_port_if_inet p a) = read off n a.
Proof. intros. unfold set_port_if_inet. repeat case_match; [by apply read_set_port..|done]. Qed.

Lemma memcpy_family n a b :
  wf_sockaddr a -> wf_sockaddr b -> (2 <= n <= SOCKADDR_STORAGE_SIZE)%nat -> ss_family (memcpy n a b) = ss_family a.
Proof.
  intros [Ha _] [Hb _] Hn. unfold ss_family, memcpy. f_equal. unfold write. rewrite take_0. cbn [app].
  unfold read. rewrite !drop_0, take_app_le by (rewrite length_take; side).
  rewrite take_take. f_equal. lia.
Qed.

(** The addresses the system reports are socket addresses. *)
Definition interfaces_ok (uv : Z * list (string * sockaddr)) : Prop :=
  Forall (fun i => wf_sockaddr i.2) uv.2.

Lemma interface_addresses_inet uv name :
  interfaces_ok uv ->
  Forall (fun a => wf_sockaddr a /\ is_inet a = true) (ct_get_interface_addresses uv name).
Proof.
  intros Hok. destruct name as [name|]; [|constructor]. unfold ct_get_interface_addresses.
  destruct uv as [rc l]. destruct (negb _); [constructor|].
  rewrite collect_interfaces_spec by (cbn; lia). apply Forall_take. cbn [app].
  apply Forall_elem. intros a (i & Hi & Ha)%list_elem_of_omap.
  assert (Hwf : wf_sockaddr i.2) by (by apply (proj1 (Forall_elem _ _) Hok)).
  unfold interface_address in Ha. destruct (interface_selected name i); [|done].
  rewrite is_inet_spec.
  destruct (Z.eqb_spec (ss_family i.2) AF_INET) as [Hf|];
    [|destruct (Z.eqb_spec (ss_family i.2) AF_INET6) as [Hf|]; [|done]];
    injection Ha as <-; rewrite memcpy_family by (auto with ctaps; vm_compute; lia);
    (split; [apply wf_memcpy; [vm_compute; lia|done|apply wf_sockaddr_zero]|auto]).
Qed.

Section resolve_facts.
Context (gai : string -> Z * list (Z * sockaddr)) (uv : Z * list (string * sockaddr)).

Lemma wp_resolved_locals e p l h :
  wp (resolved_locals e p l) (fun r h' =>
    Forall2 (fun x a => le_port x = p /\ le_resolved_address x = set_port_if_inet p a) r l) h.
Proof.
  revert h. induction l as [|a l IH]; intros h; cbn [resolved_locals].
  - apply wp_ret. constructor.
  - unfold resolved_local. wp_steps. apply wp_strdup_opt. intros n h1 _ _. wp_steps.
    apply wp_strdup_opt. intros s h2 _ _. wp_steps. eapply wp_mono; [apply IH|].
    intros r h3 Hr. wp_steps. by constructor.
Qed.

(** The port an unresolved endpoint asks for. *)
Definition requested_port (e : ct_local_endpoint) : Z :=
  match le_service e with
  | Some s => u16 (ct_get_service_port gai s (ss_family (le_resolved_address e)))
  | None => le_port e
  end.

(** Resolving an unresolved local endpoint yields one endpoint per
    address of its interface (all interfaces when it names none), every one
    of which is bound to the requested port - the service's, truncated to
    16 bits, else the port field - both in its port field and in its
    socket address, whatever allocations fail; an endpoint that already
    has an address resolves to a copy of itself. *)
Theorem local_resolve_ports e h :
  wf_local e -> interfaces_ok uv ->
  wp (ct_local_endpoint_resolve gai uv e) (fun r h' =>
    if ss_family (le_resolved_address e) =? AF_UNSPEC then
      forall l, r = Some l ->
        length l = length (ct_get_interface_addresses uv (Some (default "any" (le_interface_name e)))) /\
        Forall (fun x => le_port x = requested_port e /\
                         ct_local_endpoint_get_resolved_port (Some x) = requested_port e) l
    else r = Some [e] \/ r = None /\ ~ oracle_ok h) h.
Proof.
  intros [Hp Hwf] Huv. unfold ct_local_endpoint_resolve.
  pose proof (interface_addresses_inet uv (Some (default "any" (le_interface_name e))) Huv) as Hinet.
  assert (Hreq : is_u16 (requested_port e)).
  { unfold requested_port. destruct (le_service e); [apply u16_range|done]. }
  destruct (Z.eqb_spec (ss_family (le_resolved_address e)) AF_UNSPEC) as [Hu|Hu]; cbn [negb].
  - wp_steps. eapply (wp_mono _ (fun p h' => p = requested_port e)).
    { unfold requested_port, ct_local_endpoint_get_service_port, ct_local_endpoint_get_service.
      destruct (le_service e); cbn [is_Some_b]; wp_steps; done. }
    intros p h1 ->. destruct (0 <? _)%nat; [|by wp_steps].
    wp_steps. apply wp_malloc. intros [] o _; cbn [negb]; [|by wp_steps]. wp_steps.
    eapply wp_mono; [apply wp_resolved_locals|]. intros l h2 Hl. wp_steps. intros l' [= <-].
    split; [exact (Forall2_length Hl)|].
    clear -Hl Hinet Hreq. induction Hl as [|x a l la [Hx1 Hx2] _ IH]; [constructor|].
    apply Forall_cons_iff in Hinet as [[Hwa Hia] Hinet]. apply Forall_cons_iff. split; [|by apply IH].
    split; [done|]. unfold ct_local_endpoint_get_resolved_port, ct_local_endpoint_get_address_family; cbn.
    rewrite Hx2, set_port_if_inet_family, set_port_if_inet_port, u16_small by done.
    apply is_inet_spec in Hia as [-> | ->]; done.
  - wp_steps. unfold ct_local_endpoint_deep_copy. wp_steps. apply wp_malloc.
    intros [] o Ho; cbn [negb]; [|wp_steps; right; split; [done|intros Hh; by destruct (Ho Hh)]].
    wp_steps. eapply wp_mono; [apply copies_local|].
    intros [rc e'] h2 [(-> & -> & _)|(Hrc & _ & Hor)]; cbn.
    + wp_steps. by left.
    + destruct (Z.eqb_spec rc 0); [done|]. cbn [negb]. wp_steps. apply wp_free_block. wp_steps.
      right. split; [done|]. intros Hh. apply Hor. by destruct (Ho Hh).
Qed.
End resolve_facts.

(** A system with one IPv4 interface, for the witnesses. *)
Definition loopback_v4 : sockaddr :=
  set_sin_addr [127; 0; 0; 1] (set_family AF_INET sockaddr_zero).
Definition one_interface : Z * list (string * sockaddr) := (0, [("lo", loopback_v4)]).
Definition no_services : string -> Z * list (Z * sockaddr) := fun _ => (-2, []).

Lemma loopback_v4_wf : wf_sockaddr loopback_v4.
Proof. split; [done|]. vm_compute. repeat constructor; congruence. Qed.

Lemma local_resolve_ports_witness :
  let e := set_le_port 8080 ct_local_endpoint_build in
  wf_local e /\
  wp (ct_local_endpoint_resolve no_services one_interface e) (fun r h' =>
    if ss_family (le_resolved_address e) =? AF_UNSPEC then
      forall l, r = Some l -> length l = 1%nat /\
        Forall (fun x => le_port x = 8080 /\ ct_local_endpoint_get_resolved_port (Some x) = 8080) l
    else r = Some [e] \/ r = None /\ ~ oracle_ok (Heap [] 0)) (Heap [] 0).
Proof.
  assert (Hwf : wf_local (set_le_port 8080 ct_local_endpoint_build)).
  { split; [unfold is_u16; simpl; lia|apply wf_sockaddr_zero]. }
  split; [exact Hwf|].
  apply (local_resolve_ports no_services one_interface _ (Heap [] 0) Hwf).
  constructor; [exact loopback_v4_wf|constructor].
Defined.

Lemma wf_set_sin_addr ip a : wf_sockaddr a -> length ip = 4%nat -> Forall is_u8 ip -> wf_sockaddr (set_sin_addr ip a).
Proof. intros. apply wf_write; [done..|]. rewrite H0. vm_compute. lia. Qed.

Lemma resolved_port_inet x :
  is_inet (le_resolved_address x) = true ->
  ct_local_endpoint_get_resolved_port (Some x) = port_of (le_resolved_address x).
Proof.
  intros Hx%is_inet_spec. unfold ct_local_endpoint_get_resolved_port, ct_local_endpoint_get_address_family.
  cbn -[Z.eqb]. by destruct Hx as [-> | ->].
Qed.

(** The order of the two setters decides the port of a local
    endpoint: [with_ipv4] after [with_port] clears the socket address, so the
    endpoint's resolution keeps the port field but carries port 0 in the
    address that will be bound, while [with_port] after [with_ipv4] gives
    both the port. *)
Theorem local_endpoint_port_lost e p ip h :
  wf_local e -> is_u16 p -> length ip = 4%nat -> Forall is_u8 ip -> oracle_ok h ->
  forall gai uv,
  (exists e', ct_local_endpoint_with_ipv4 (Some (ct_local_endpoint_with_port e p)) ip = (0, Some e') /\
     wp (ct_local_endpoint_resolve gai uv e') (fun r _ => exists x, r = Some [x] /\
        le_port x = p /\ ct_local_endpoint_get_resolved_port (Some x) = 0) h) /\
  (exists e', ct_local_endpoint_with_ipv4 (Some e) ip = (0, Some e') /\
     wp (ct_local_endpoint_resolve gai uv (ct_local_endpoint_with_port e' p)) (fun r _ => exists x,
        r = Some [x] /\ le_port x = p /\ ct_local_endpoint_get_resolved_port (Some x) = p) h).
Proof.
  intros [He1 He2] Hp Hl Hip Hh gai uv.
  set (a := set_sin_addr ip (set_family AF_INET sockaddr_zero)).
  assert (Hlen : length (set_family AF_INET sockaddr_zero) = 128%nat) by done.
  assert (Hfam : ss_family a = AF_INET).
  { unfold ss_family, a, set_sin_addr. rewrite read_write_before by (rewrite ?Hl, ?Hlen; lia). done. }
  assert (Hport : port_of a = 0).
  { unfold port_of, port_bytes, a, set_sin_addr. rewrite read_write_before by (rewrite ?Hl, ?Hlen; lia). done. }
  assert (Hwfa : wf_sockaddr a) by (apply wf_set_sin_addr; auto with ctaps).
  assert (Hres : forall x, ss_family (le_resolved_address x) = AF_INET ->
    wp (ct_local_endpoint_resolve gai uv x) (fun r _ => r = Some [x]) h).
  { intros x Hx. unfold ct_local_endpoint_resolve. rewrite Hx. cbn [Z.eqb negb].
    change (AF_INET =? AF_UNSPEC) with false. cbn [negb]. unfold ct_local_endpoint_deep_copy. wp_steps.
    apply wp_malloc. intros b o Ho. destruct (Ho Hh) as [-> Ho']. cbn [negb]. wp_steps.
    eapply wp_mono; [apply copies_local|]. intros [rc e'] h' [(-> & -> & _)|(_ & _ & [])]; [|done].
    cbn. by wp_steps. }
  assert (Hin : is_inet a = true) by (by apply is_inet_spec; left).
  split; (eexists; split; [done|]); (eapply wp_mono; [apply Hres|]).
  - exact Hfam.
  - intros r h' ->. eexists. split_and!; [done..|]. rewrite resolved_port_inet; [exact Hport|exact Hin].
  - transitivity (ss_family a); [|exact Hfam]. by apply set_port_if_inet_family.
  - intros r h' ->. eexists. split_and!; [done..|]. rewrite resolved_port_inet.
    + transitivity (u16 p); [by apply set_port_if_inet_port|by apply u16_small].
    + rewrite <- Hin. unfold is_inet. f_equal; f_equal; by apply set_port_if_inet_family.
Qed.

Lemma local_endpoint_port_lost_witness :
  exists e', ct_local_endpoint_with_ipv4 (Some (ct_local_endpoint_with_port ct_local_endpoint_build 443)) [10; 0; 0; 1]
       = (0, Some e') /\
     wp (ct_local_endpoint_resolve no_services one_interface e') (fun r _ => exists x, r = Some [x] /\
        le_port x = 443 /\ ct_local_endpoint_get_resolved_port (Some x) = 0) (Heap [] 0).
Proof.
  destruct (local_endpoint_port_lost ct_local_endpoint_build 443 [10; 0; 0; 1] (Heap [] 0)) with
    (gai := no_services) (uv := one_interface) as [H _].
  - split; [vm_compute; split; congruence|apply wf_sockaddr_zero].
  - vm_compute. split; congruence.
  - reflexivity.
  - repeat constructor; vm_compute; congruence.
  - constructor.
  - exact H.
Defined.

(** ** Remote resolution, over a state that records the callback *)

Record resolve_log := ResolveLog { rl_alloc : bool; rl_port : option Z; rl_found : list (list ct_remote_endpoint);
  rl_lookups : list (string * option string) }.

Definition log_alloc : M resolve_log bool := gets rl_alloc.
Definition log_port (p : Z) : M resolve_log unit :=
  modify (fun s => ResolveLog (rl_alloc s) (Some p) (rl_found s) (rl_lookups s)).
Definition log_cb (l : list ct_remote_endpoint) : M resolve_log unit :=
  modify (fun s => ResolveLog (rl_alloc s) (rl_port s) (rl_found s ++ [l]) (rl_lookups s)).
Definition log_dns (rc : Z) (host : string) (service : option string) : M resolve_log Z :=
  modify (fun s => ResolveLog (rl_alloc s) (rl_port s) (rl_found s) (rl_lookups s ++ [(host, service)])) ;; mret rc.

Definition resolve_remote gai rc := ct_remote_endpoint_resolve gai log_alloc log_port (log_dns rc) log_cb.

(** Resolving a remote endpoint with an address and a service: when
    the service lookup reports an error other than -1 (getaddrinfo's codes
    for an unknown service are -2 and below), the resolution does not fail:
    it succeeds with the error code's low 16 bits as the port, 65534 for an
    unknown service.  A port lookup that succeeds, or no service at all,
    gives the address that port and leaves the IP address alone. *)
Theorem remote_resolve_port gai rc e :
  wf_remote e ->
  re_hostname e = None -> is_inet (re_resolved_address e) = true ->
  let p := match re_service e with
           | Some s => ct_get_service_port gai s (ss_family (re_resolved_address e))
           | None => re_port e
           end in
  wp (resolve_remote gai rc e) (fun r s =>
    if p =? -1 then r = - EINVAL /\ rl_found s = []
    else r = 0 /\ exists x, rl_found s = [[x]] /\ port_of (re_resolved_address x) = u16 p /\
         sin_addr (re_resolved_address x) = sin_addr (re_resolved_address e) /\
         sin6_addr (re_resolved_address x) = sin6_addr (re_resolved_address e))
    (ResolveLog true None [] []) /\
  (forall s, re_service e = Some s -> (gai s).1 = -2 ->
     wp (resolve_remote gai rc e) (fun r s =>
       r = 0 /\ exists x, rl_found s = [[x]] /\ port_of (re_resolved_address x) = 65534)
       (ResolveLog true None [] [])).
Proof.
  intros [Hp Hwf] Hhost Hin p.
  assert (Hmain : wp (resolve_remote gai rc e) (fun r s =>
    if p =? -1 then r = - EINVAL /\ rl_found s = []
    else r = 0 /\ exists x, rl_found s = [[x]] /\ port_of (re_resolved_address x) = u16 p /\
         sin_addr (re_resolved_address x) = sin_addr (re_resolved_address e) /\
         sin6_addr (re_resolved_address x) = sin6_addr (re_resolved_address e))
    (ResolveLog true None [] [])).
  { unfold resolve_remote, ct_remote_endpoint_resolve. wp_steps.
    eapply (wp_mono _ (fun q s => q = p /\ s = ResolveLog true None [] [])).
    { subst p. unfold ct_remote_endpoint_get_service_port, ct_remote_endpoint_get_service.
      destruct (re_service e); cbn [is_Some_b]; wp_steps; done. }
    intros q s [-> ->]. destruct (p =? -1); [by wp_steps|]. unfold log_port. wp_steps. rewrite Hhost.
    assert (Hnu : (ss_family (re_resolved_address e) =? AF_UNSPEC) = false).
    { by apply is_inet_spec in Hin as [-> | ->]. }
    rewrite Hnu. cbn [negb]. unfold log_alloc, log_cb. wp_steps. cbn [rl_alloc negb]. wp_steps.
    split; [done|]. eexists. split_and!; [done|..]; cbn [re_resolved_address set_re_resolved_address].
    - by apply set_port_if_inet_port.
    - apply set_port_if_inet_read; [done|lia].
    - apply set_port_if_inet_read; [done|lia]. }
  split; [exact Hmain|]. intros s Hs Hst. eapply wp_mono; [exact Hmain|].
  assert (Hpv : p = -2).
  { subst p. rewrite Hs. unfold ct_get_service_port. destruct (gai s) as [st res]; cbn in Hst. by subst st. }
  rewrite Hpv. cbn. intros r t (-> & x & Hx & Hport & _). split; [done|]. by exists x.
Qed.

Lemma remote_resolve_port_witness :
  let e := RemoteEndpoint 0 (Some "no-such-service") None loopback_v4 in
  wp (resolve_remote no_services 0 e) (fun r s =>
    r = 0 /\ exists x, rl_found s = [[x]] /\ port_of (re_resolved_address x) = 65534) (ResolveLog true None [] []).
Proof.
  apply (proj2 (remote_resolve_port no_services 0 (RemoteEndpoint 0 (Some "no-such-service") None loopback_v4)
    (conj (conj (Z.le_refl 0) eq_refl) loopback_v4_wf) eq_refl eq_refl) "no-such-service" eq_refl eq_refl).
Defined.
