(* ===== verification/Security.v ===== *)
(** Security parameters.

    Models src/src/security_parameter/: security_parameters.c,
    certificate_bundles/certificate_bundles.c and byte_array/byte_array.c,
    with the data types of src/src/ctaps_internal.h.  Pointers stored in
    these structures can be NULL, valid, or bad (freed or never
    initialised), because some error paths leave bad pointers behind; every
    use of a bad pointer is undefined. *)

From S2P Require Export Prelude.

(** ** Pointers *)

Inductive cptr (A : Type) : Type :=
| Null
| Ptr (a : A)
| Bad.
Arguments Null {A}.
Arguments Ptr {A} a.
Arguments Bad {A}.

Definition is_null {A} (p : cptr A) : bool := match p with Null => true | _ => false end.

(** [*p], [free(p)], [strdup(p)] and [realloc]/[strdup]/[malloc] results. *)
Definition load {S A} (p : cptr A) : M S A :=
  match p with Ptr a => mret a | Null => ub "NULL dereference" | Bad => ub "bad pointer" end.
Definition free_ptr {A} (p : cptr A) : M heap unit :=
  match p with Null => mret tt | Ptr _ => free_block | Bad => ub "free of a bad pointer" end.
Definition strdup_ptr (p : cptr string) : M heap (cptr string) :=
  s ← load p;
  r ← strdup s;
  mret (match r with Some s => Ptr s | None => Null end).
Definition strdup_str (s : string) : M heap (cptr string) := strdup_ptr (Ptr s).
Definition malloc_ptr {A} (a : A) : M heap (cptr A) :=
  ok ← malloc; mret (if ok : bool then Ptr a else Null).
(** [array[i]] *)
Definition index {S A} (l : list A) (i : nat) : M S A := deref (l !! i) "index out of bounds".

(** ** Data *)

(** [ct_security_property_enum_t] *)
Inductive sec_prop : Set :=
| SUPPORTED_GROUP | CIPHERSUITE | SERVER_CERTIFICATE | CLIENT_CERTIFICATE
| SIGNATURE_ALGORITHM | ALPN | SESSION_TICKET_ENCRYPTION_KEY | TICKET_STORE_PATH
| SERVER_NAME_IDENTIFICATION.

#[export] Instance sec_prop_eq_dec : EqDecision sec_prop.
Proof. solve_decision. Defined.

Definition all_sec_props : list sec_prop :=
  [SUPPORTED_GROUP; CIPHERSUITE; SERVER_CERTIFICATE; CLIENT_CERTIFICATE;
   SIGNATURE_ALGORITHM; ALPN; SESSION_TICKET_ENCRYPTION_KEY; TICKET_STORE_PATH;
   SERVER_NAME_IDENTIFICATION].

Lemma all_sec_props_complete p : p ∈ all_sec_props.
Proof. destruct p; set_solver. Qed.

Lemma all_sec_props_nodup : NoDup all_sec_props.
Proof. by apply (bool_decide_unpack _). Qed.

Record ct_certificate_bundle := Bundle {
  certificate_file_name : cptr string;
  private_key_file_name : cptr string }.

(** The arrays hold their allocated elements; the counts are the C fields. *)
Record ct_certificate_bundles := Bundles {
  cb_bundles : cptr (list ct_certificate_bundle); num_bundles : nat }.
Record ct_string_array := StringArray {
  strings : cptr (list (cptr string)); num_strings : nat }.
Record ct_byte_array := ByteArray { ba_bytes : cptr (list Z); ba_length : nat }.

(** [ct_sec_property_value_t]: a tagged union, the tag is the property's type. *)
Inductive sec_value : Type :=
| array_of_strings (a : ct_string_array)
| certificate_bundles (b : ct_certificate_bundles)
| sec_string (p : cptr string)
| byte_array (b : ct_byte_array).

Record ct_security_parameter := SecParam {
  sec_name : string; sec_set_by_user : bool; sec_val : sec_value }.

Definition ct_security_parameters : Type := sec_prop -> ct_security_parameter.

Definition empty_bundles : ct_certificate_bundles := Bundles Null 0.
Definition empty_strings : ct_string_array := StringArray Null 0.
Definition empty_bytes : ct_byte_array := ByteArray Null 0.

Definition DEFAULT_SECURITY_PARAMETERS : ct_security_parameters := fun p =>
  match p with
  | SUPPORTED_GROUP => SecParam "supportedGroup" false (array_of_strings empty_strings)
  | CIPHERSUITE => SecParam "ciphersuite" false (array_of_strings empty_strings)
  | SERVER_CERTIFICATE => SecParam "serverCertificate" false (certificate_bundles empty_bundles)
  | CLIENT_CERTIFICATE => SecParam "clientCertificate" false (certificate_bundles empty_bundles)
  | SIGNATURE_ALGORITHM => SecParam "signatureAlgorithm" false (array_of_strings empty_strings)
  | ALPN => SecParam "alpn" false (array_of_strings empty_strings)
  | SESSION_TICKET_ENCRYPTION_KEY => SecParam "sessionTicketEncryptionKey" false (byte_array empty_bytes)
  | TICKET_STORE_PATH => SecParam "ticketStorePath" false (sec_string Null)
  | SERVER_NAME_IDENTIFICATION => SecParam "serverNameIdentification" false (sec_string Null)
  end.

Definition sec_upd (l : ct_security_parameters) (p : sec_prop) (u : bool) (v : sec_value) : ct_security_parameters :=
  fun q => if decide (q = p) then SecParam (sec_name (l p)) u v else l q.

(** Reads of the union's members. *)
Definition as_strings (v : sec_value) : option ct_string_array :=
  match v with array_of_strings a => Some a | _ => None end.
Definition as_bundles (v : sec_value) : option ct_certificate_bundles :=
  match v with certificate_bundles b => Some b | _ => None end.
Definition as_string (v : sec_value) : option (cptr string) :=
  match v with sec_string s => Some s | _ => None end.
Definition as_bytes (v : sec_value) : option ct_byte_array :=
  match v with byte_array b => Some b | _ => None end.

Definition member {S A} (f : sec_value -> option A) (l : ct_security_parameters) (p : sec_prop) : M S A :=
  deref (f (sec_val (l p))) "union member".

(** ** Byte arrays (byte_array.c) *)

(** [malloc(length)] followed by [memcpy] of that many bytes. *)
Definition ct_byte_array_new_from_data (data : list Z) (length : nat) : M heap (option ct_byte_array) :=
  ok ← malloc;
  if negb ok then mret None else
  b ← malloc_ptr (take length data);
  if is_null b then free_block ;; mret None else
  mret (Some (ByteArray b length)).

Definition ct_byte_array_free (b : ct_byte_array) : M heap unit := free_ptr (ba_bytes b).

Definition ct_byte_array_copy (source : option ct_byte_array) : M heap (option ct_byte_array) :=
  match source with
  | None => mret None
  | Some s => d ← load (ba_bytes s); ct_byte_array_new_from_data d (ba_length s)
  end.

(** ** Certificate bundles (certificate_bundles.c) *)

Definition ct_certificate_bundles_new : M heap (option ct_certificate_bundles) :=
  ok ← malloc; mret (if ok : bool then Some empty_bundles else None).

(** The array grown by one uninitialised element; NULL when [realloc] fails. *)
Definition grow {A} (p : cptr (list A)) (n : nat) (uninit : A) : M heap (cptr (list A)) :=
  match p with
  | Null => ok ← realloc true; mret (if ok : bool then Ptr (replicate (Datatypes.S n) uninit) else Null)
  | Ptr l => ok ← realloc false; mret (if ok : bool then Ptr (take n l ++ [uninit]) else Null)
  | Bad => ub "realloc of a bad pointer"
  end.

Definition uninit_bundle : ct_certificate_bundle := Bundle Bad Bad.

(** The check after [realloc] reads the old pointer, not the new one. *)
Definition ct_certificate_bundles_add_cert (bundles : option ct_certificate_bundles)
    (cert_file_path key_file_path : option string) : M heap (Z * option ct_certificate_bundles) :=
  match bundles, cert_file_path, key_file_path with
  | Some b, Some cert, Some key =>
      if negb (bool_decide (num_bundles b = 0%nat)) then mret (- ENOSYS, bundles) else
      tmp ← grow (cb_bundles b) (num_bundles b) uninit_bundle;
      if is_null (cb_bundles b) then mret (- ENOMEM, bundles) else
      arr ← load tmp;
      c ← strdup_str cert;
      let arr := <[num_bundles b := Bundle c Bad]> arr in
      if is_null c then mret (- ENOMEM, Some (Bundles (Ptr arr) (num_bundles b))) else
      k ← strdup_str key;
      let arr := <[num_bundles b := Bundle c k]> arr in
      if is_null k then
        free_ptr c ;;
        mret (- ENOMEM, Some (Bundles (Ptr (<[num_bundles b := Bundle Bad k]> arr)) (num_bundles b)))
      else mret (0, Some (Bundles (Ptr arr) (Datatypes.S (num_bundles b))))
  | _, _, _ => mret (- EINVAL, bundles)
  end.

(** The first [n] elements of an array, read one by one: a NULL array may not
    be indexed at all. *)
Fixpoint for_n {S A} (n i : nat) (p : cptr (list A)) (f : A -> M S unit) : M S unit :=
  match n with
  | O => mret tt
  | Datatypes.S n => l ← load p; x ← index l i; f x ;; for_n n (Datatypes.S i) p f
  end.

Definition free_bundle (b : ct_certificate_bundle) : M heap unit :=
  free_ptr (certificate_file_name b) ;; free_ptr (private_key_file_name b).

Definition ct_certificate_bundles_free (b : ct_certificate_bundles) : M heap unit :=
  for_n (num_bundles b) 0 (cb_bundles b) free_bundle ;; free_ptr (cb_bundles b).

(** The names that [free] has released. *)
Definition freed_bundle (b : ct_certificate_bundle) : ct_certificate_bundle := Bundle Bad Bad.

(** The copy loop of [ct_certificate_bundles_deep_copy]; [done] are the
    entries copied so far, [dest->num_bundles] of them.  Its error paths free
    the strings of the copied entries but leave them, and the count, in
    [dest]. *)
Fixpoint copy_bundles (todo done : list ct_certificate_bundle) : M heap (Z * ct_certificate_bundles) :=
  match todo with
  | [] => mret (0, Bundles (Ptr done) (length done))
  | b :: rest =>
      let uninit := replicate (length rest) uninit_bundle in
      c ← strdup_ptr (certificate_file_name b);
      if is_null c then
        for_each done free_bundle ;;
        mret (- ENOMEM, Bundles (Ptr ((freed_bundle <$> done) ++ Bundle Null Bad :: uninit)) (length done))
      else
        k ← strdup_ptr (private_key_file_name b);
        if is_null k then
          free_ptr c ;;
          for_each done free_bundle ;;
          mret (- ENOMEM, Bundles (Ptr ((freed_bundle <$> done) ++ Bundle Bad Null :: uninit)) (length done))
        else copy_bundles rest (done ++ [Bundle c k])
  end.

Definition ct_certificate_bundles_deep_copy (src : ct_certificate_bundles) : M heap (Z * ct_certificate_bundles) :=
  if bool_decide (num_bundles src = 0%nat) then mret (0, empty_bundles) else
  ok ← malloc;
  if negb ok then mret (- ENOMEM, empty_bundles) else
  l ← load (cb_bundles src);
  assert_ (num_bundles src <=? length l)%nat "index out of bounds" ;;
  copy_bundles (take (num_bundles src) l) [].

(** ** Security parameters (security_parameters.c) *)

Definition ct_security_parameters_new : M heap (option ct_security_parameters) :=
  ok ← malloc; mret (if ok : bool then Some DEFAULT_SECURITY_PARAMETERS else None).

Definition ct_string_array_value_free (a : ct_string_array) : M heap unit :=
  for_n (num_strings a) 0 (strings a) free_ptr ;; free_ptr (strings a).

Definition free_value (v : sec_value) : M heap unit :=
  match v with
  | array_of_strings a => ct_string_array_value_free a
  | certificate_bundles b => ct_certificate_bundles_free b
  | sec_string s => free_ptr s
  | byte_array b => ct_byte_array_free b
  end.

Definition ct_security_parameters_free (sec : option ct_security_parameters) : M heap unit :=
  match sec with
  | None => mret tt
  | Some l => for_each all_sec_props (fun i => free_value (sec_val (l i))) ;; free_block
  end.

(** The copy loop of [ct_string_array_value_deep_copy]; on failure the
    strings and the array are freed and [dest] is cleared. *)
Fixpoint copy_strings (todo done : list (cptr string)) : M heap (Z * ct_string_array) :=
  match todo with
  | [] => mret (0, StringArray (Ptr done) (length done))
  | s :: todo =>
      c ← strdup_ptr s;
      if is_null c then
        for_each done free_ptr ;; free_block ;; mret (- ENOMEM, empty_strings)
      else copy_strings todo (done ++ [c])
  end.

(** A failed [malloc] leaves [dest] with a NULL array and the source's count. *)
Definition ct_string_array_value_deep_copy (source : ct_string_array) : M heap (Z * ct_string_array) :=
  if bool_decide (num_strings source = 0%nat) then mret (0, source) else
  ok ← malloc;
  if negb ok then mret (- ENOMEM, StringArray Null (num_strings source)) else
  l ← load (strings source);
  assert_ (num_strings source <=? length l)%nat "index out of bounds" ;;
  copy_strings (take (num_strings source) l) [].

(** The body of the copy loop for one property that the user set: return
    code and value stored in the copy. *)
Definition copy_value (src dst : sec_value) : M heap (Z * sec_value) :=
  match src with
  | array_of_strings a =>
      '(rc, a') ← ct_string_array_value_deep_copy a; mret (rc, array_of_strings a')
  | certificate_bundles b =>
      '(rc, b') ← ct_certificate_bundles_deep_copy b; mret (rc, certificate_bundles b')
  | sec_string s =>
      if is_null s then mret (0, sec_string Null) else
      c ← strdup_ptr s; mret (if is_null c then - ENOMEM else 0, sec_string c)
  | byte_array b =>
      if bool_decide (ba_length b = 0%nat) then mret (0, dst) else
      d ← load (ba_bytes b);
      c ← malloc_ptr (take (ba_length b) d);
      if is_null c then mret (- ENOMEM, byte_array empty_bytes)
      else mret (0, byte_array (ByteArray c (ba_length b)))
  end.

Fixpoint copy_params (source copy : ct_security_parameters) (l : list sec_prop) :
    M heap (option ct_security_parameters) :=
  match l with
  | [] => mret (Some copy)
  | i :: l =>
      if sec_set_by_user (source i) then
        '(rc, v) ← copy_value (sec_val (source i)) (sec_val (copy i));
        let copy := sec_upd copy i (sec_set_by_user (source i)) v in
        if rc <? 0 then ct_security_parameters_free (Some copy) ;; mret None
        else copy_params source copy l
      else copy_params source (sec_upd copy i (sec_set_by_user (source i)) (sec_val (copy i))) l
  end.

Definition ct_security_parameters_deep_copy (source : option ct_security_parameters) :
    M heap (option ct_security_parameters) :=
  match source with
  | None => mret None
  | Some s =>
      copy ← ct_security_parameters_new;
      match copy with
      | None => mret None
      | Some c => copy_params s c all_sec_props
      end
  end.

(** *** Setters and getters *)

Definition set_user_string (l : ct_security_parameters) (p : sec_prop) (s : cptr string) : ct_security_parameters :=
  sec_upd l p true (sec_string s).

Definition ct_security_parameters_set_ticket_store_path (sec : option ct_security_parameters)
    (ticket_store_path : option string) : M heap (Z * option ct_security_parameters) :=
  match sec with
  | None => mret (- EINVAL, None)
  | Some l =>
      old ← member as_string l TICKET_STORE_PATH;
      free_ptr old ;;
      match ticket_store_path with
      | None => mret (0, Some (set_user_string l TICKET_STORE_PATH Null))
      | Some path =>
          s ← strdup_str path;
          mret (if is_null s then - ENOMEM else 0, Some (set_user_string l TICKET_STORE_PATH s))
      end
  end.

Definition ct_security_parameters_get_ticket_store_path (sec : option ct_security_parameters) : M heap (cptr string) :=
  match sec with None => mret Null | Some l => member as_string l TICKET_STORE_PATH end.

(** The loop of [strdup]s into a new array, whose [malloc] is not checked. *)
Fixpoint dup_strings (todo : list string) (done : list (cptr string)) : M heap (option (list (cptr string))) :=
  match todo with
  | [] => mret (Some done)
  | s :: todo =>
      c ← strdup_str s;
      if is_null c then for_each done free_ptr ;; free_block ;; mret None
      else dup_strings todo (done ++ [c])
  end.

Definition ct_string_array_value_new (l : list string) : M heap (option ct_string_array) :=
  ok ← malloc;
  if negb ok then mret None else
  arr ← malloc;
  assert_ (arr || bool_decide (length l = 0%nat)) "write through NULL strings" ;;
  r ← dup_strings l [];
  match r with
  | None => free_block ;; mret None
  | Some d => mret (Some (StringArray (if arr : bool then Ptr d else Null) (length l)))
  end.

Definition ct_security_parameters_clear_alpn (sec : option ct_security_parameters) :
    M heap (Z * option ct_security_parameters) :=
  match sec with
  | None => mret (- EINVAL, None)
  | Some l =>
      a ← member as_strings l ALPN;
      for_n (num_strings a) 0 (strings a) free_ptr ;;
      free_ptr (strings a) ;;
      mret (0, Some (sec_upd l ALPN (sec_set_by_user (l ALPN)) (array_of_strings empty_strings)))
  end.

Definition ct_security_parameters_add_to_array_of_strings (l : ct_security_parameters) (type : sec_prop)
    (value : string) : M heap (Z * ct_security_parameters) :=
  prev ← member as_strings l type;
  new_strings ← grow (strings prev) (num_strings prev) Bad;
  if is_null new_strings then mret (- ENOMEM, l) else
  arr ← load new_strings;
  s ← strdup_str value;
  let arr := <[num_strings prev := s]> arr in
  if is_null s then
    mret (- ENOMEM, sec_upd l type (sec_set_by_user (l type))
                      (array_of_strings (StringArray (Ptr arr) (num_strings prev))))
  else
    mret (0, sec_upd l type true
               (array_of_strings (StringArray (Ptr arr) (Datatypes.S (num_strings prev))))).

Definition ct_security_parameters_add_alpn (sec : option ct_security_parameters) (alpn : option string) :
    M heap (Z * option ct_security_parameters) :=
  match sec, alpn with
  | Some l, Some a =>
      '(rc, l') ← ct_security_parameters_add_to_array_of_strings l ALPN a; mret (rc, Some l')
  | _, _ => mret (- EINVAL, sec)
  end.

(** The array and [*num_alpns]; the count is not written when the arguments
    are invalid. *)
Definition ct_security_parameters_get_alpns (sec : option ct_security_parameters) :
    M heap (cptr (list (cptr string)) * option nat) :=
  match sec with
  | None => mret (Null, None)
  | Some l =>
      a ← member as_strings l ALPN;
      mret (if bool_decide (num_strings a = 0%nat) then (Null, Some 0%nat)
            else (strings a, Some (num_strings a)))
  end.

Definition ct_security_parameters_get_session_ticket_encryption_key (sec : option ct_security_parameters) :
    M heap (cptr (list Z) * option nat) :=
  match sec with
  | None => mret (Null, None)
  | Some l => b ← member as_bytes l SESSION_TICKET_ENCRYPTION_KEY; mret (ba_bytes b, Some (ba_length b))
  end.

Definition ct_security_parameters_set_session_ticket_encryption_key (sec : option ct_security_parameters)
    (key : list Z) (key_len : nat) : M heap (Z * option ct_security_parameters) :=
  match sec with
  | None => mret (- EINVAL, None)
  | Some l =>
      let p := SESSION_TICKET_ENCRYPTION_KEY in
      old ← member as_bytes l p;
      cur ← (if bool_decide (ba_length old = 0%nat) then mret old
             else free_ptr (ba_bytes old) ;; mret empty_bytes);
      if (0 <? key_len)%nat then
        b ← malloc_ptr (take key_len key);
        if is_null b
        then mret (- ENOMEM, Some (sec_upd l p (sec_set_by_user (l p)) (byte_array (ByteArray Null (ba_length cur)))))
        else mret (0, Some (sec_upd l p true (byte_array (ByteArray b key_len))))
      else mret (0, Some (sec_upd l p true (byte_array cur)))
  end.

(** [new_bundle->private_key_file_name] is only assigned when there is a key
    file.  On the error paths after [realloc] the array is freed while the
    parameters keep the pointer to it. *)
Definition ct_security_parameters_add_certificate (sec : option ct_security_parameters) (type : sec_prop)
    (cert_file key_file : option string) : M heap (Z * option ct_security_parameters) :=
  match sec, cert_file with
  | Some l, Some cert =>
      prev ← member as_bundles l type;
      bundle_array ← grow (cb_bundles prev) (num_bundles prev) uninit_bundle;
      if is_null bundle_array then mret (- ENOMEM, sec) else
      arr ← load bundle_array;
      let stale := certificate_bundles
        (Bundles (if is_null (cb_bundles prev) then Null else Bad) (num_bundles prev)) in
      let failed := Some (sec_upd l type (sec_set_by_user (l type)) stale) in
      c ← strdup_str cert;
      if is_null c then free_block ;; mret (- ENOMEM, failed) else
      k ← match key_file with Some k => strdup_str k | None => mret Bad end;
      if is_null k then free_ptr c ;; free_block ;; mret (- ENOMEM, failed) else
      mret (0, Some (sec_upd l type true (certificate_bundles
             (Bundles (Ptr (<[num_bundles prev := Bundle c k]> arr)) (Datatypes.S (num_bundles prev))))))
  | _, _ => mret (- EINVAL, sec)
  end.

Definition ct_security_parameters_add_server_certificate sec cert_file key_file :=
  ct_security_parameters_add_certificate sec SERVER_CERTIFICATE cert_file key_file.
Definition ct_security_parameters_add_client_certificate sec cert_file key_file :=
  ct_security_parameters_add_certificate sec CLIENT_CERTIFICATE cert_file key_file.

(** [certificate_bundles[index].<field>] *)
Definition bundle_field (f : ct_certificate_bundle -> cptr string) (b : ct_certificate_bundles) (i : nat) : M heap (cptr string) :=
  arr ← load (cb_bundles b); x ← index arr i; mret (f x).

Definition ct_security_parameters_get_certificate_file (sec : option ct_security_parameters) (type : sec_prop)
    (i : nat) : M heap (cptr string) :=
  match sec with
  | None => mret Null
  | Some l =>
      b ← member as_bundles l type;
      if (num_bundles b <? i)%nat then mret Null else bundle_field certificate_file_name b i
  end.

Definition ct_security_parameters_get_key_file (sec : option ct_security_parameters) (type : sec_prop)
    (i : nat) : M heap (cptr string) :=
  match sec with
  | None => mret Null
  | Some l =>
      b ← member as_bundles l type;
      if (num_bundles b <=? i)%nat then mret Null else bundle_field private_key_file_name b i
  end.

Definition certificate_count (sec : option ct_security_parameters) (type : sec_prop) : M heap nat :=
  match sec with None => mret 0%nat | Some l => b ← member as_bundles l type; mret (num_bundles b) end.

Definition ct_security_parameters_get_server_certificate_count sec := certificate_count sec SERVER_CERTIFICATE.
Definition ct_security_parameters_get_server_certificate_file sec i :=
  ct_security_parameters_get_certificate_file sec SERVER_CERTIFICATE i.
Definition ct_security_parameters_get_server_certificate_key_file sec i :=
  ct_security_parameters_get_key_file sec SERVER_CERTIFICATE i.
Definition ct_security_parameters_get_client_certificate_count sec := certificate_count sec CLIENT_CERTIFICATE.
Definition ct_security_parameters_get_client_certificate_file sec i :=
  ct_security_parameters_get_certificate_file sec CLIENT_CERTIFICATE i.
Definition ct_security_parameters_get_client_certificate_key_file sec i :=
  ct_security_parameters_get_key_file sec CLIENT_CERTIFICATE i.

Definition ct_security_parameters_set_server_name_identification (sec : option ct_security_parameters)
    (sni : option string) : M heap (Z * option ct_security_parameters) :=
  match sec with
  | None => mret (- EINVAL, None)
  | Some l =>
      old ← member as_string l SERVER_NAME_IDENTIFICATION;
      free_ptr old ;;
      s ← match sni with Some s => strdup_str s | None => mret Null end;
      mret (0, Some (set_user_string l SERVER_NAME_IDENTIFICATION s))
  end.

Definition ct_security_parameters_add_supported_group (sec : option ct_security_parameters) (group : string) :
    M heap (Z * option ct_security_parameters) :=
  l ← deref sec "NULL security parameters";
  '(rc, l') ← ct_security_parameters_add_to_array_of_strings l SUPPORTED_GROUP group;
  mret (rc, Some l').

Definition ct_security_parameters_get_server_name_identification (sec : option ct_security_parameters) :
    M heap (cptr string) :=
  match sec with None => mret Null | Some l => member as_string l SERVER_NAME_IDENTIFICATION end.

(** ** Well-formed parameters and their heap blocks *)

Definition is_ptr {A} (p : cptr A) : Prop := match p with Ptr _ => True | _ => False end.

Definition bundle_ok (b : ct_certificate_bundle) : Prop :=
  is_ptr (certificate_file_name b) /\ is_ptr (private_key_file_name b).

(** An array is NULL with count 0, or holds exactly the counted elements. *)
Definition array_ok {A} (ok : A -> Prop) (p : cptr (list A)) (n : nat) : Prop :=
  match p with
  | Null => n = 0%nat
  | Ptr l => n = length l /\ (0 < n)%nat /\ Forall ok l
  | Bad => False
  end.

Definition val_ok (v : sec_value) : Prop :=
  match v with
  | array_of_strings a => array_ok is_ptr (strings a) (num_strings a)
  | certificate_bundles b => array_ok bundle_ok (cb_bundles b) (num_bundles b)
  | sec_string s => s <> Bad
  | byte_array b => array_ok (fun _ => True) (ba_bytes b) (ba_length b)
  end.

(** Blocks behind an array whose elements own [n] blocks each. *)
Definition array_blocks {A} (n : Z) (p : cptr (list A)) : Z :=
  match p with Ptr l => 1 + n * Z.of_nat (length l) | _ => 0 end.

Definition val_blocks (v : sec_value) : Z :=
  match v with
  | array_of_strings a => array_blocks 1 (strings a)
  | certificate_bundles b => array_blocks 2 (cb_bundles b)
  | sec_string s => if is_null s then 0 else 1
  | byte_array b => array_blocks 0 (ba_bytes b)
  end.

(** The value's union member is the one its property declares. *)
Definition same_kind (v w : sec_value) : bool :=
  match v, w with
  | array_of_strings _, array_of_strings _ | certificate_bundles _, certificate_bundles _
  | sec_string _, sec_string _ | byte_array _, byte_array _ => true
  | _, _ => false
  end.

Definition wf_sec (l : ct_security_parameters) : Prop :=
  forall p, sec_name (l p) = sec_name (DEFAULT_SECURITY_PARAMETERS p) /\
            same_kind (sec_val (l p)) (sec_val (DEFAULT_SECURITY_PARAMETERS p)) = true /\
            val_ok (sec_val (l p)).

Definition sec_blocks (l : ct_security_parameters) : Z :=
  zsum ((fun p => val_blocks (sec_val (l p))) <$> all_sec_props) + 1.

Lemma wf_sec_default : wf_sec DEFAULT_SECURITY_PARAMETERS.
Proof. intros []; done. Qed.

Lemma wf_sec_upd l p u v :
  wf_sec l -> same_kind v (sec_val (DEFAULT_SECURITY_PARAMETERS p)) = true -> val_ok v ->
  wf_sec (sec_upd l p u v).
Proof.
  intros Hwf Hk Hv q. unfold sec_upd. case_decide; [subst q|apply Hwf]. split_and!; [apply Hwf|done..].
Qed.

Lemma frees_ptr {A} (p : cptr A) : p <> Bad -> frees (free_ptr p) (if is_null p then 0 else 1).
Proof. destruct p; [intros _; apply frees_ret|intros _; apply frees_block|done]. Qed.

Lemma frees_for_n {A} (f : A -> M heap unit) g n i l :
  Forall (fun x => frees (f x) g) l -> (i + n <= length l)%nat ->
  frees (for_n n i (Ptr l) f) (g * Z.of_nat n).
Proof.
  intros Hf. revert i. induction n as [|n IH]; intros i Hi; cbn [for_n].
  - eapply frees_eq; [apply frees_ret|lia].
  - destruct (lookup_lt_is_Some_2 l i) as [x Hx]; [lia|]. intros h. cbn [load]. wp_steps.
    unfold index. wp_steps. eapply wp_mono; [by apply (proj1 (Forall_lookup _ _) Hf i x Hx)|].
    intros [] h1 ->. eapply wp_mono; [apply IH; lia|]. intros [] h2 ->. cbn. f_equal. lia.
Qed.

Lemma frees_owned_array {A} (ok : A -> Prop) (f : A -> M heap unit) g p n :
  array_ok ok p n -> (forall x, ok x -> frees (f x) g) ->
  frees (for_n n 0 p f ;; free_ptr p) (array_blocks g p).
Proof.
  intros Hok Hf. destruct p as [|l|]; cbn in Hok; [..|done].
  - subst n. eapply frees_eq; [apply frees_bind; apply frees_ret|done].
  - destruct Hok as (-> & _ & Hok). eapply frees_eq.
    + apply frees_bind; [|apply frees_block]. apply frees_for_n; [|lia].
      by eapply Forall_impl.
    + cbn. lia.
Qed.

Lemma frees_bundle b : bundle_ok b -> frees (free_bundle b) 2.
Proof.
  destruct b as [[] []]; cbn; intros []; try done.
  apply (frees_bind _ _ 1 1); apply frees_block.
Qed.

Lemma frees_value v : val_ok v -> frees (free_value v) (val_blocks v).
Proof.
  destruct v as [a|b|s|b]; cbn [val_ok free_value val_blocks].
  - intros Hok. eapply (frees_owned_array is_ptr); [done|]. intros [] Hx; [done|apply frees_block|done].
  - intros Hok. eapply (frees_owned_array bundle_ok); [done|]. apply frees_bundle.
  - apply frees_ptr.
  - unfold ct_byte_array_free. destruct (ba_bytes b) as [|l|]; cbn [array_ok array_blocks]; [..|done].
    + intros _. apply frees_ret.
    + intros _. eapply frees_eq; [apply frees_block|lia].
Qed.

Lemma frees_security_parameters l :
  wf_sec l -> frees (ct_security_parameters_free (Some l)) (sec_blocks l).
Proof.
  intros Hwf. apply frees_bind; [|apply frees_block].
  apply (frees_for_each _ _ (fun p => val_blocks (sec_val (l p)))). intros p _. apply frees_value, Hwf.
Qed.

(** ** Deep copies that do not run out of memory *)

Lemma allocs_strdup_ptr (s : cptr string) :
  is_ptr s -> allocs (strdup_ptr s) (eq s) (fun _ => 1).
Proof.
  destruct s as [|s|]; cbn; [done| |done]. intros _.
  eapply (allocs_bind (mret s) _ (eq s) (fun _ => 0)); [by apply allocs_ret|]. intros ? <-.
  eapply allocs_bind; [apply allocs_strdup|]. intros ? <-. by apply allocs_ret.
Qed.

Lemma allocs_malloc_ptr {A} (a : A) : allocs (malloc_ptr a) (eq (Ptr a)) (fun _ => 1).
Proof. eapply allocs_bind; [apply allocs_malloc|]. intros b <-. by apply allocs_ret. Qed.

Lemma allocs_copy_strings todo d :
  Forall is_ptr todo ->
  allocs (copy_strings todo d) (eq (0, StringArray (Ptr (d ++ todo)) (length (d ++ todo))))
    (fun _ => Z.of_nat (length todo)).
Proof.
  intros Htodo. revert d. induction Htodo as [|s todo Hs _ IH]; intros d; cbn [copy_strings].
  - rewrite app_nil_r. by apply allocs_ret.
  - eapply allocs_bind; [by apply allocs_strdup_ptr|]. intros c <-. destruct s as [|s|]; [done| |done].
    cbn [is_null]. eapply allocs_mono; [apply IH|]. intros r <-. rewrite <- app_assoc. split; [done|].
    cbn [length]. lia.
Qed.

Lemma allocs_copy_bundles todo d :
  Forall bundle_ok todo ->
  allocs (copy_bundles todo d) (eq (0, Bundles (Ptr (d ++ todo)) (length (d ++ todo))))
    (fun _ => 2 * Z.of_nat (length todo)).
Proof.
  intros Htodo. revert d. induction Htodo as [|b todo [Hc Hk] _ IH]; intros d; cbn [copy_bundles].
  - rewrite app_nil_r. by apply allocs_ret.
  - destruct b as [[|c|] [|k|]]; cbn in Hc, Hk; try done. cbn [certificate_file_name private_key_file_name].
    eapply allocs_bind; [by apply allocs_strdup_ptr|]. intros ? <-. cbn [is_null].
    eapply allocs_bind; [by apply allocs_strdup_ptr|]. intros ? <-. cbn [is_null].
    eapply allocs_mono; [apply IH|]. intros r <-. rewrite <- app_assoc. split; [done|].
    cbn [length]. lia.
Qed.

Lemma allocs_copy_value src dst :
  val_ok src -> same_kind src dst = true -> (forall b, dst = byte_array b -> b = empty_bytes) ->
  allocs (copy_value src dst) (eq (0, src)) (fun _ => val_blocks src).
Proof.
  intros Hok Hk Hd. destruct src as [[p n]|[p n]|s|[p n]]; cbn in Hok; cbn [copy_value].
  - eapply (allocs_bind _ _ (eq (0, StringArray p n)) (fun _ => array_blocks 1 p)).
    2: { intros ? <-. by apply allocs_ret; [|cbn; lia]. }
    unfold ct_string_array_value_deep_copy; cbn. destruct p as [|l|]; cbn in Hok; [|..|done].
    + subst n. by apply allocs_ret.
    + destruct Hok as (-> & Hl & Hok). rewrite bool_decide_false by lia.
      eapply allocs_bind; [apply allocs_malloc|]. intros ? <-. cbn [negb].
      eapply (allocs_bind (mret l) _ (eq l) (fun _ => 0)); [by apply allocs_ret|]. intros ? <-.
      apply allocs_bind_assert; [by apply Nat.leb_le|].
      rewrite firstn_all. eapply allocs_mono; [by apply allocs_copy_strings|].
      intros r <-. split; [done|]. cbn. lia.
  - eapply (allocs_bind _ _ (eq (0, Bundles p n)) (fun _ => array_blocks 2 p)).
    2: { intros ? <-. by apply allocs_ret; [|cbn; lia]. }
    unfold ct_certificate_bundles_deep_copy; cbn. destruct p as [|l|]; cbn in Hok; [|..|done].
    + subst n. by apply allocs_ret.
    + destruct Hok as (-> & Hl & Hok). rewrite bool_decide_false by lia.
      eapply allocs_bind; [apply allocs_malloc|]. intros ? <-. cbn [negb].
      eapply (allocs_bind (mret l) _ (eq l) (fun _ => 0)); [by apply allocs_ret|]. intros ? <-.
      apply allocs_bind_assert; [by apply Nat.leb_le|].
      rewrite firstn_all. eapply allocs_mono; [by apply allocs_copy_bundles|].
      intros r <-. split; [done|]. cbn. lia.
  - destruct s as [|s|]; cbn [is_null]; [by apply allocs_ret| |done].
    eapply allocs_bind; [by apply allocs_strdup_ptr|]. intros ? <-. by apply allocs_ret.
  - cbn. destruct p as [|l|]; cbn in Hok; [| |done].
    + subst n. cbn. destruct dst; try done. rewrite (Hd b eq_refl). by apply allocs_ret.
    + destruct Hok as (-> & Hl & _). rewrite bool_decide_false by lia.
      eapply (allocs_bind (mret l) _ (eq l) (fun _ => 0)); [by apply allocs_ret|]. intros ? <-.
      rewrite firstn_all.
      eapply allocs_bind; [apply allocs_malloc_ptr|]. intros ? <-. cbn [is_null].
      apply allocs_ret; [done|]. cbn. lia.
Qed.

(** What the copy loop leaves in the copy: user-set values, and for the other
    properties whatever the copy started with. *)
Definition merged (source copy : ct_security_parameters) (l : list sec_prop) : ct_security_parameters :=
  fun p => if decide (p ∈ l)
           then SecParam (sec_name (copy p)) (sec_set_by_user (source p))
                  (if sec_set_by_user (source p) then sec_val (source p) else sec_val (copy p))
           else copy p.

Definition user_blocks (source : ct_security_parameters) (p : sec_prop) : Z :=
  if sec_set_by_user (source p) then val_blocks (sec_val (source p)) else 0.

Lemma merged_step source copy i l v p :
  i ∉ l -> v = (if sec_set_by_user (source i) then sec_val (source i) else sec_val (copy i)) ->
  merged source (sec_upd copy i (sec_set_by_user (source i)) v) l p = merged source copy (i :: l) p.
Proof.
  intros Hi ->. unfold merged, sec_upd. destruct (decide (p = i)) as [->|Hp].
  - rewrite decide_False by done. by rewrite decide_True by constructor.
  - destruct (decide (p ∈ l)).
    + by rewrite decide_True by (by constructor).
    + rewrite decide_False; [done|]. by rewrite not_elem_of_cons.
Qed.

Lemma allocs_copy_params source copy l :
  wf_sec source -> NoDup l -> (forall p, p ∈ l -> copy p = DEFAULT_SECURITY_PARAMETERS p) ->
  allocs (copy_params source copy l)
    (fun r => exists c, r = Some c /\ forall p, c p = merged source copy l p)
    (fun _ => zsum (user_blocks source <$> l)).
Proof.
  intros Hwf Hnd. revert copy. induction Hnd as [|i l Hi Hnd IH]; intros copy Hcopy; cbn [copy_params].
  - apply allocs_ret; [|done]. eexists. split; [done|]. intros p. unfold merged.
    by rewrite decide_False by apply not_elem_of_nil.
  - assert (Hrest : forall u v p, p ∈ l -> sec_upd copy i u v p = DEFAULT_SECURITY_PARAMETERS p).
    { intros u v p Hp. unfold sec_upd. rewrite decide_False by (intros ->; done). apply Hcopy. by constructor. }
    destruct (Hwf i) as (_ & Hk & Hv). rewrite fmap_cons, zsum_cons.
    assert (Hub : user_blocks source i = if sec_set_by_user (source i) then val_blocks (sec_val (source i)) else 0) by done.
    destruct (sec_set_by_user (source i)) eqn:Hu.
    + eapply allocs_bind.
      { apply allocs_copy_value; [done|by rewrite (Hcopy i) by constructor|].
        rewrite (Hcopy i) by constructor. intros b. destruct i; cbn; congruence. }
      intros ? <-. cbn [Z.ltb Z.compare].
      eapply allocs_mono; [apply IH; auto|]. intros r (c & -> & Hc). split.
      * eexists. split; [done|]. intros p. rewrite Hc.
        rewrite <- Hu. apply merged_step; [done|]. by rewrite Hu.
      * lia.
    + eapply allocs_mono; [apply IH; auto|]. intros r (c & -> & Hc). split.
      * eexists. split; [done|]. intros p. rewrite Hc.
        rewrite <- Hu. apply merged_step; [done|]. by rewrite Hu.
      * lia.
Qed.

(** The abstract content of the parameters: what the user set. *)
Definition same_user_settings (c source : ct_security_parameters) : Prop :=
  forall p, sec_set_by_user (c p) = sec_set_by_user (source p) /\
    (sec_set_by_user (source p) = true -> sec_val (c p) = sec_val (source p)) /\
    (sec_set_by_user (source p) = false -> sec_val (c p) = sec_val (DEFAULT_SECURITY_PARAMETERS p)).

Lemma allocs_security_deep_copy source :
  wf_sec source ->
  allocs (ct_security_parameters_deep_copy (Some source))
    (fun r => exists c, r = Some c /\ wf_sec c /\ same_user_settings c source)
    (fun r => match r with Some c => sec_blocks c | None => 0 end).
Proof.
  intros Hwf. cbn [ct_security_parameters_deep_copy].
  eapply (allocs_bind _ _ (eq (Some DEFAULT_SECURITY_PARAMETERS)) (fun _ => 1)).
  { eapply allocs_bind; [apply allocs_malloc|]. intros ? <-. by apply allocs_ret. }
  intros ? <-. eapply allocs_mono.
  { apply allocs_copy_params; [done|apply all_sec_props_nodup|done]. }
  intros r (c & -> & Hc).
  assert (Hm : forall p, c p = SecParam (sec_name (DEFAULT_SECURITY_PARAMETERS p)) (sec_set_by_user (source p))
    (if sec_set_by_user (source p) then sec_val (source p) else sec_val (DEFAULT_SECURITY_PARAMETERS p))).
  { intros p. rewrite Hc. unfold merged. by rewrite decide_True by apply all_sec_props_complete. }
  split.
  - exists c. split_and!; [done| |].
    + intros p. rewrite Hm; cbn. destruct (sec_set_by_user (source p)); [|apply wf_sec_default].
      split; [done|apply Hwf].
    + intros p. rewrite Hm; cbn. by destruct (sec_set_by_user (source p)).
  - unfold sec_blocks. apply Z.eq_sym. cut (zsum ((fun p => val_blocks (sec_val (c p))) <$> all_sec_props)
       = zsum (user_blocks source <$> all_sec_props)); [lia|].
    f_equal. apply list_fmap_ext. intros _ p _. rewrite Hm. unfold user_blocks; cbn.
    destruct (sec_set_by_user (source p)); [done|]. by destruct p.
Qed.

(** C32: copying well-formed security parameters, when memory suffices, gives
    parameters with the same user settings - certificate chains, key files,
    ALPNs, strings and session keys by value, everything the user did not set
    at its default - and freeing the copy releases exactly its blocks. *)
Theorem security_deep_copy_free source h :
  wf_sec source -> oracle_ok h ->
  wp (ct_security_parameters_deep_copy (Some source)) (fun r h1 =>
    exists c, r = Some c /\ same_user_settings c source /\
      wp (ct_security_parameters_free r) (fun _ h2 => h_live h2 = h_live h) h1) h.
Proof.
  intros Hwf Hh. eapply wp_mono; [by apply allocs_security_deep_copy|].
  intros r h1 ((c & -> & Hc & Hs) & _ & Hl). exists c. split_and!; [done..|].
  eapply wp_frees; [by apply frees_security_parameters|]. cbn. lia.
Qed.

Definition sample_params : ct_security_parameters :=
  sec_upd (sec_upd DEFAULT_SECURITY_PARAMETERS ALPN true (array_of_strings (StringArray (Ptr [Ptr "h3"; Ptr "hq"]) 2)))
    SERVER_CERTIFICATE true (certificate_bundles (Bundles (Ptr [Bundle (Ptr "cert.pem") (Ptr "key.pem")]) 1)).

Lemma sample_params_wf : wf_sec sample_params.
Proof. intros []; cbn; split_and!; try done; repeat constructor. Qed.

Lemma security_deep_copy_free_witness :
  wp (ct_security_parameters_deep_copy (Some sample_params)) (fun r h1 =>
    exists c, r = Some c /\ same_user_settings c sample_params /\
      wp (ct_security_parameters_free r) (fun _ h2 => h_live h2 = 0) h1) (Heap [] 0).
Proof. apply (security_deep_copy_free sample_params (Heap [] 0) sample_params_wf). constructor. Defined.

(** ** Every setter keeps the parameters well formed *)

Lemma sec_blocks_upd l p u v :
  sec_blocks (sec_upd l p u v) = sec_blocks l - val_blocks (sec_val (l p)) + val_blocks v.
Proof. destruct p; unfold sec_blocks, sec_upd, zsum; simpl; lia. Qed.

(** The user's operations on security parameters. *)
Inductive sec_op : Type :=
| SetTicketStorePath (path : option string)
| SetServerName (sni : option string)
| SetSessionKey (key : list Z)
| AddAlpn (alpn : string)
| ClearAlpn
| AddSupportedGroup (group : string)
| AddServerCertificate (cert key : string)
| AddClientCertificate (cert key : string).

Definition run_sec_op (op : sec_op) (sec : option ct_security_parameters) : M heap (Z * option ct_security_parameters) :=
  match op with
  | SetTicketStorePath path => ct_security_parameters_set_ticket_store_path sec path
  | SetServerName sni => ct_security_parameters_set_server_name_identification sec sni
  | SetSessionKey key => ct_security_parameters_set_session_ticket_encryption_key sec key (length key)
  | AddAlpn alpn => ct_security_parameters_add_alpn sec (Some alpn)
  | ClearAlpn => ct_security_parameters_clear_alpn sec
  | AddSupportedGroup group => ct_security_parameters_add_supported_group sec group
  | AddServerCertificate cert key => ct_security_parameters_add_server_certificate sec (Some cert) (Some key)
  | AddClientCertificate cert key => ct_security_parameters_add_client_certificate sec (Some cert) (Some key)
  end.

(** An operation's success: parameters are again well formed and own exactly
    the blocks that the operation added. *)
Definition sec_op_ok (l : ct_security_parameters) (m : M heap (Z * option ct_security_parameters)) : Prop :=
  allocs m (fun r => exists l', r = (0, Some l') /\ wf_sec l')
    (fun r => match r.2 with Some l' => sec_blocks l' - sec_blocks l | None => 0 end).

Lemma sec_member {A} (f : sec_value -> option A) l p :
  wf_sec l -> is_Some (f (sec_val (DEFAULT_SECURITY_PARAMETERS p))) ->
  (forall v w, same_kind v w = true -> is_Some (f w) -> is_Some (f v)) ->
  exists a, f (sec_val (l p)) = Some a.
Proof. intros Hwf Hd Hf. destruct (Hwf p) as (_ & Hk & _). by apply (Hf _ _ Hk). Qed.

Ltac get_member f l p a Ha :=
  destruct (sec_member f l p) as [a Ha]; [assumption|by eexists|by intros [] []; cbn; intros; try done|];
  eapply allocs_bind_deref; [exact Ha|].

Lemma kind_of_default p v :
  match sec_val (DEFAULT_SECURITY_PARAMETERS p) with
  | array_of_strings _ => exists a, v = array_of_strings a
  | certificate_bundles _ => exists a, v = certificate_bundles a
  | sec_string _ => exists a, v = sec_string a
  | byte_array _ => exists a, v = byte_array a
  end -> same_kind v (sec_val (DEFAULT_SECURITY_PARAMETERS p)) = true.
Proof. destruct p; cbn; by intros [a ->]. Qed.

Lemma as_string_inv v s : as_string v = Some s -> v = sec_string s.
Proof. destruct v; cbn; congruence. Qed.
Lemma as_strings_inv v s : as_strings v = Some s -> v = array_of_strings s.
Proof. destruct v; cbn; congruence. Qed.
Lemma as_bundles_inv v s : as_bundles v = Some s -> v = certificate_bundles s.
Proof. destruct v; cbn; congruence. Qed.
Lemma as_bytes_inv v s : as_bytes v = Some s -> v = byte_array s.
Proof. destruct v; cbn; congruence. Qed.

(** Closes the last step of an operation that stores a value. *)
Ltac sec_ret Hv :=
  apply allocs_ret;
  [ eexists; split; [reflexivity|]; apply wf_sec_upd; [assumption|reflexivity|]
  | cbn [snd]; unfold set_user_string; rewrite sec_blocks_upd, Hv; simpl; try lia ].

(** [realloc] to one more element. *)
Lemma allocs_grow {A} (ok : A -> Prop) (p : cptr (list A)) n uninit :
  array_ok ok p n ->
  allocs (grow p n uninit) (fun q => exists l, q = Ptr (l ++ [uninit]) /\ length l = n /\ Forall ok l /\
      (p = Ptr l \/ p = Null /\ l = []))
    (fun _ => if is_null p then 1 else 0).
Proof.
  intros Hok. destruct p as [|l|]; cbn in Hok; [| |done]; cbn [grow is_null].
  - subst n. eapply allocs_bind; [apply allocs_realloc|]. intros ? <-.
    apply allocs_ret; [|lia]. exists []. split_and!; [done|done|constructor|by right].
  - destruct Hok as (-> & _ & Hl). eapply allocs_bind; [apply allocs_realloc|]. intros ? <-.
    apply allocs_ret; [|lia]. exists l. rewrite firstn_all. by auto.
Qed.

Lemma insert_last {A} (l : list A) n x y : length l = n -> <[n := y]> (l ++ [x]) = l ++ [y].
Proof. intros <-. rewrite insert_app_r_alt by lia. by rewrite Nat.sub_diag. Qed.

Section setters.
Context (l : ct_security_parameters) (Hwf : wf_sec l).

Lemma strdup_str_ok s : allocs (strdup_str s) (eq (Ptr s)) (fun _ => 1).
Proof. by apply allocs_strdup_ptr. Qed.

Lemma set_ticket_store_path_ok path :
  sec_op_ok l (ct_security_parameters_set_ticket_store_path (Some l) path).
Proof.
  unfold sec_op_ok, ct_security_parameters_set_ticket_store_path.
  get_member as_string l TICKET_STORE_PATH old Hold. apply as_string_inv in Hold.
  destruct (Hwf TICKET_STORE_PATH) as (_ & _ & Hok). rewrite Hold in Hok.
  eapply allocs_bind; [apply allocs_frees, frees_ptr, Hok|]. intros [] _.
  destruct path as [path|].
  - eapply allocs_bind; [apply strdup_str_ok|]. intros ? <-. cbn [is_null]. sec_ret Hold; done.
  - sec_ret Hold; done.
Qed.

Lemma set_server_name_ok sni :
  sec_op_ok l (ct_security_parameters_set_server_name_identification (Some l) sni).
Proof.
  unfold sec_op_ok, ct_security_parameters_set_server_name_identification.
  get_member as_string l SERVER_NAME_IDENTIFICATION old Hold. apply as_string_inv in Hold.
  destruct (Hwf SERVER_NAME_IDENTIFICATION) as (_ & _ & Hok). rewrite Hold in Hok.
  eapply allocs_bind; [apply allocs_frees, frees_ptr, Hok|]. intros [] _.
  destruct sni as [sni|].
  - eapply allocs_bind; [apply strdup_str_ok|]. intros ? <-. sec_ret Hold; done.
  - eapply (allocs_bind (mret Null) _ (eq Null) (fun _ => 0)); [by apply allocs_ret|]. intros ? <-.
    sec_ret Hold; done.
Qed.

Lemma set_session_key_ok key :
  sec_op_ok l (ct_security_parameters_set_session_ticket_encryption_key (Some l) key (length key)).
Proof.
  unfold sec_op_ok, ct_security_parameters_set_session_ticket_encryption_key.
  get_member as_bytes l SESSION_TICKET_ENCRYPTION_KEY old Hold. apply as_bytes_inv in Hold.
  destruct (Hwf SESSION_TICKET_ENCRYPTION_KEY) as (_ & _ & Hok). rewrite Hold in Hok.
  eapply (allocs_bind _ _ (eq empty_bytes) (fun _ => - val_blocks (byte_array old))).
  { destruct old as [p n]; cbn in Hok |- *. destruct p as [|k|]; cbn in Hok; [| |done].
    - subst n. by apply allocs_ret.
    - destruct Hok as (-> & Hk & _). rewrite bool_decide_false by lia.
      eapply allocs_bind; [apply allocs_frees, frees_block|]. intros [] _.
      apply allocs_ret; [done|]. cbn. lia. }
  intros ? <-. destruct (Nat.ltb_spec 0 (length key)).
  - eapply allocs_bind; [apply allocs_malloc_ptr|]. intros ? <-. cbn [is_null].
    rewrite firstn_all. sec_ret Hold. cbn. split_and!; [done|lia|]. by apply Forall_true.
  - sec_ret Hold; done.
Qed.

Lemma add_string_ok p s :
  as_strings (sec_val (DEFAULT_SECURITY_PARAMETERS p)) = Some empty_strings ->
  allocs (ct_security_parameters_add_to_array_of_strings l p s)
    (fun r => exists l', r = (0, l') /\ wf_sec l') (fun r => sec_blocks r.2 - sec_blocks l).
Proof.
  intros Hd. unfold ct_security_parameters_add_to_array_of_strings.
  destruct (sec_member as_strings l p) as [a Ha]; [done|by rewrite Hd|by intros [] []|].
  eapply allocs_bind_deref; [exact Ha|]. apply as_strings_inv in Ha.
  destruct (Hwf p) as (_ & _ & Hok). rewrite Ha in Hok. cbn in Hok.
  eapply allocs_bind; [apply allocs_grow, Hok|].
  intros ? (arr & -> & Hlen & Harr & Hp). cbn [is_null].
  eapply (allocs_bind (load _) _ (eq (arr ++ [Bad])) (fun _ => 0)); [by apply allocs_ret|]. intros ? <-.
  eapply allocs_bind; [apply strdup_str_ok|]. intros ? <-. cbn [is_null]. rewrite insert_last by done.
  apply allocs_ret.
  - eexists. split; [reflexivity|]. apply wf_sec_upd; [done| |].
    + apply as_strings_inv in Hd. by rewrite Hd.
    + cbn. rewrite length_app, <- Hlen. cbn. split_and!; [lia|lia|]. apply Forall_app. by repeat constructor.
  - cbn [snd]. rewrite sec_blocks_upd, Ha. cbn. rewrite length_app. cbn [length].
    destruct Hp as [-> | [-> ->]]; cbn; lia.
Qed.

Lemma add_certificate_ok p cert key :
  as_bundles (sec_val (DEFAULT_SECURITY_PARAMETERS p)) = Some empty_bundles ->
  sec_op_ok l (ct_security_parameters_add_certificate (Some l) p (Some cert) (Some key)).
Proof.
  intros Hd. unfold sec_op_ok, ct_security_parameters_add_certificate.
  destruct (sec_member as_bundles l p) as [a Ha]; [done|by rewrite Hd|by intros [] []|].
  eapply allocs_bind_deref; [exact Ha|]. apply as_bundles_inv in Ha.
  destruct (Hwf p) as (_ & _ & Hok). rewrite Ha in Hok. cbn in Hok.
  eapply allocs_bind; [apply allocs_grow, Hok|].
  intros ? (arr & -> & Hlen & Harr & Hp). cbn [is_null].
  eapply (allocs_bind (load _) _ (eq (arr ++ [uninit_bundle])) (fun _ => 0)); [by apply allocs_ret|].
  intros ? <-.
  eapply allocs_bind; [apply strdup_str_ok|]. intros ? <-. cbn [is_null].
  eapply allocs_bind; [apply strdup_str_ok|]. intros ? <-. cbn [is_null]. rewrite insert_last by done.
  apply allocs_ret.
  - eexists. split; [reflexivity|]. apply wf_sec_upd; [done| |].
    + apply as_bundles_inv in Hd. by rewrite Hd.
    + cbn. rewrite length_app, <- Hlen. cbn. split_and!; [lia|lia|]. apply Forall_app. by repeat constructor.
  - cbn [snd]. rewrite sec_blocks_upd, Ha. cbn. rewrite length_app. cbn [length].
    destruct Hp as [-> | [-> ->]]; cbn; lia.
Qed.

Lemma clear_alpn_ok : sec_op_ok l (ct_security_parameters_clear_alpn (Some l)).
Proof.
  unfold sec_op_ok, ct_security_parameters_clear_alpn.
  get_member as_strings l ALPN a Ha. apply as_strings_inv in Ha.
  destruct (Hwf ALPN) as (_ & _ & Hok). pose proof (frees_value _ Hok) as Hf. rewrite Ha in Hf.
  intros h Hh. wp_steps. eapply wp_mono; [exact (wp_bind_inv _ _ _ _ (Hf h))|]. intros [] h1 H1.
  wp_steps. eapply wp_mono; [exact H1|]. intros [] h2 ->. wp_steps. split_and!.
  - eexists. split; [reflexivity|]. by apply wf_sec_upd.
  - done.
  - cbn [snd h_live]. rewrite sec_blocks_upd, Ha. cbn. lia.
Qed.

Lemma run_sec_op_ok op : sec_op_ok l (run_sec_op op (Some l)).
Proof.
  destruct op; cbn [run_sec_op].
  - apply set_ticket_store_path_ok.
  - apply set_server_name_ok.
  - apply set_session_key_ok.
  - unfold ct_security_parameters_add_alpn. eapply allocs_bind; [by apply (add_string_ok ALPN)|].
    intros r (l' & -> & Hl'). apply allocs_ret; [by eexists|cbn; lia].
  - apply clear_alpn_ok.
  - unfold ct_security_parameters_add_supported_group. eapply allocs_bind_deref; [done|].
    eapply allocs_bind; [by apply (add_string_ok SUPPORTED_GROUP)|].
    intros r (l' & -> & Hl'). apply allocs_ret; [by eexists|cbn; lia].
  - by apply add_certificate_ok.
  - by apply add_certificate_ok.
Qed.
End setters.

Fixpoint run_sec_ops (ops : list sec_op) (sec : option ct_security_parameters) : M heap (option ct_security_parameters) :=
  match ops with
  | [] => mret sec
  | op :: ops => '(_, sec') ← run_sec_op op sec; run_sec_ops ops sec'
  end.

(** Any sequence of setter calls on fresh security parameters, when
    memory suffices, has no undefined behaviour, keeps the parameters well
    formed (every array NULL and empty, or as long as its count with valid
    strings in it) and leaks nothing: freeing the parameters at the end
    returns the heap to the number of live blocks it started with. *)
Theorem security_setters_safe ops h :
  oracle_ok h ->
  wp (l ← ct_security_parameters_new; run_sec_ops ops l) (fun r h1 =>
    exists l, r = Some l /\ wf_sec l /\ h_live h1 = h_live h + sec_blocks l /\
      wp (ct_security_parameters_free r) (fun _ h2 => h_live h2 = h_live h) h1) h.
Proof.
  intros Hh.
  assert (Hrun : forall ops l h1, wf_sec l -> oracle_ok h1 -> h_live h1 = h_live h + sec_blocks l ->
    wp (run_sec_ops ops (Some l)) (fun r h2 => exists l', r = Some l' /\ wf_sec l' /\
      h_live h2 = h_live h + sec_blocks l') h1).
  { clear. induction ops as [|op ops IH]; intros l h1 Hwf Ho Hl; cbn [run_sec_ops].
    - apply wp_ret. eauto.
    - wp_steps. eapply wp_mono; [by apply (run_sec_op_ok l Hwf op)|].
      intros r h2 ((l' & -> & Hl') & Ho2 & Hl2). apply IH; [done|done|]. cbn in Hl2. lia. }
  unfold ct_security_parameters_new. wp_steps. eapply wp_mono; [by apply allocs_malloc|].
  intros b h1 (<- & Ho & Hl). wp_steps.
  eapply wp_mono; [apply Hrun; [apply wf_sec_default|done|]|].
  { rewrite Hl. unfold sec_blocks. cbn. lia. }
  intros r h2 (l' & -> & Hwf & Hl2). exists l'. split_and!; [done..|].
  eapply wp_frees; [by apply frees_security_parameters|]. cbn. lia.
Qed.

Lemma security_setters_safe_witness :
  wp (l ← ct_security_parameters_new; run_sec_ops [AddAlpn "h3"; AddServerCertificate "c" "k"; SetSessionKey [1; 2]; ClearAlpn] l)
    (fun r h1 => exists l, r = Some l /\ wf_sec l /\ h_live h1 = 0 + sec_blocks l /\
      wp (ct_security_parameters_free r) (fun _ h2 => h_live h2 = 0) h1) (Heap [true; true; true] 0).
Proof. apply (security_setters_safe _ (Heap [true; true; true] 0)). repeat constructor. Defined.

(** ** Lookups and the error paths *)

(** Certificate lookups on well-formed parameters: below the count both
    getters return the stored names; past the end
    [ct_security_parameters_get_key_file] returns NULL at every index, but
    [ct_security_parameters_get_certificate_file], whose bound check is off
    by one, reads outside the array (or through NULL) when the index equals
    the count. *)
Theorem certificate_lookup_bounds l type b i h :
  wf_sec l -> sec_val (l type) = certificate_bundles b ->
  ((i < num_bundles b)%nat -> exists cert key,
     ct_security_parameters_get_certificate_file (Some l) type i h = Ok (Ptr cert, h) /\
     ct_security_parameters_get_key_file (Some l) type i h = Ok (Ptr key, h)) /\
  ((num_bundles b < i)%nat ->
     ct_security_parameters_get_certificate_file (Some l) type i h = Ok (Null, h) /\
     ct_security_parameters_get_key_file (Some l) type i h = Ok (Null, h)) /\
  (i = num_bundles b ->
     (exists why, ct_security_parameters_get_certificate_file (Some l) type i h = UB why) /\
     ct_security_parameters_get_key_file (Some l) type i h = Ok (Null, h)).
Proof.
  intros Hwf Hb. destruct (Hwf type) as (_ & _ & Hok). rewrite Hb in Hok. cbn in Hok.
  unfold ct_security_parameters_get_certificate_file, ct_security_parameters_get_key_file, member.
  rewrite Hb. cbn -[Nat.ltb Nat.leb]. unfold mbind, M_bind; cbn -[Nat.ltb Nat.leb].
  destruct b as [p n]; cbn -[Nat.ltb Nat.leb] in *. split_and!.
  - intros Hi. destruct p as [|arr|]; cbn in Hok; [lia| |done]. destruct Hok as (-> & _ & Hok).
    destruct (lookup_lt_is_Some_2 arr i Hi) as [x Hx].
    pose proof (proj1 (Forall_lookup _ _) Hok i x Hx) as [Hc Hk]. unfold bundle_field, index; cbn -[Nat.ltb Nat.leb].
    rewrite (proj2 (Nat.ltb_ge _ _)), (proj2 (Nat.leb_gt _ _)) by lia.
    unfold mbind, M_bind; cbn. rewrite Hx. cbn.
    destruct (certificate_file_name x) as [|c|], (private_key_file_name x) as [|k|]; try done.
    by exists c, k.
  - intros Hi. by destruct (Nat.ltb_spec n i), (Nat.leb_spec n i); try lia.
  - intros ->. rewrite Nat.ltb_irrefl, Nat.leb_refl. split; [|done].
    unfold bundle_field, index, mbind, M_bind. destruct p as [|arr|]; cbn -[Nat.ltb Nat.leb] in *; [by eexists| |by eexists].
    destruct Hok as (-> & _). rewrite lookup_ge_None_2 by lia. cbn. by eexists.
Qed.

Lemma certificate_lookup_bounds_witness :
  wf_sec sample_params /\
  (exists why, ct_security_parameters_get_certificate_file (Some sample_params) SERVER_CERTIFICATE 1 (Heap [] 0) = UB why).
Proof.
  split; [exact sample_params_wf|].
  apply (certificate_lookup_bounds sample_params SERVER_CERTIFICATE
    (Bundles (Ptr [Bundle (Ptr "cert.pem") (Ptr "key.pem")]) 1) 1 (Heap [] 0) sample_params_wf eq_refl); reflexivity.
Defined.

(** [ct_certificate_bundles_add_cert] can never add a bundle to a new
    set: after the reallocation it tests the old (NULL) array instead of the
    new one, so it always reports [-ENOMEM], changes nothing and leaks the
    array it allocated. *)
Theorem certificate_bundles_add_cert_never_succeeds cert key h :
  wp (b ← ct_certificate_bundles_new; ct_certificate_bundles_add_cert b (Some cert) (Some key))
    (fun '(rc, b) h' => rc <> 0 /\
       (oracle_ok h -> rc = - ENOMEM /\ b = Some empty_bundles /\ h_live h' = h_live h + 2)) h.
Proof.
  unfold ct_certificate_bundles_new. wp_steps. apply wp_malloc. intros b o Ho. wp_steps.
  destruct b; [|wp_steps; split; [done|intros Hh; by destruct (Ho Hh)]].
  cbn [ct_certificate_bundles_add_cert empty_bundles num_bundles cb_bundles]. rewrite bool_decide_true by done.
  cbn [negb]. unfold grow. wp_steps. apply wp_realloc. intros b' o' Ho'. wp_steps. cbn [is_null]. wp_steps.
  split; [done|]. intros Hh. destruct (Ho Hh) as [_ Hh1]. destruct (Ho' Hh1) as [-> _]. cbn.
  split_and!; [done|done|lia].
Qed.

Definition one_alpn (alpn : string) : ct_security_parameters :=
  sec_upd DEFAULT_SECURITY_PARAMETERS ALPN true (array_of_strings (StringArray (Ptr [Ptr alpn]) 1)).
Definition two_certificates (c1 k1 c2 k2 : string) : ct_security_parameters :=
  sec_upd DEFAULT_SECURITY_PARAMETERS SERVER_CERTIFICATE true
    (certificate_bundles (Bundles (Ptr [Bundle (Ptr c1) (Ptr k1); Bundle (Ptr c2) (Ptr k2)]) 2)).

(** Three ways in which [ct_security_parameters_deep_copy] leaves
    defined behaviour: (1) after a certificate was added without a key file,
    its key pointer is uninitialised and copied from, even when memory
    suffices; (2) when the copy of a non-empty string array cannot be
    allocated, the partial copy keeps the source's count with a NULL array
    and freeing it reads through NULL; (3) when copying the second
    certificate fails, the first one's names are freed, stay counted in the
    partial copy, and are freed again. *)
Theorem security_deep_copy_unsafe cert alpn c1 k1 c2 k2 n :
  (exists l h, ct_security_parameters_add_server_certificate (Some DEFAULT_SECURITY_PARAMETERS) (Some cert) None
                 (Heap [] n) = Ok (0, Some l, h) /\
     exists why, ct_security_parameters_deep_copy (Some l) h = UB why) /\
  (wf_sec (one_alpn alpn) /\
     exists why, ct_security_parameters_deep_copy (Some (one_alpn alpn)) (Heap [true; false] n) = UB why) /\
  (wf_sec (two_certificates c1 k1 c2 k2) /\
     exists why, ct_security_parameters_deep_copy (Some (two_certificates c1 k1 c2 k2))
                   (Heap [true; true; true; true; false] n) = UB why).
Proof.
  split_and!.
  - exists (sec_upd DEFAULT_SECURITY_PARAMETERS SERVER_CERTIFICATE true
      (certificate_bundles (Bundles (Ptr [Bundle (Ptr cert) Bad]) 1))), (Heap [] (n + 1 + 1)).
    split; [reflexivity|]. exists "bad pointer". reflexivity.
  - intros []; cbn; split_and!; try done; repeat constructor.
  - exists "NULL dereference". reflexivity.
  - intros []; cbn; split_and!; try done; repeat constructor.
  - exists "free of a bad pointer". reflexivity.
Qed.
