(* ===== verification/Uuid.v ===== *)
(** Connection and group identifiers.

    Models src/src/util/uuid_util.c: sixteen random bytes (or the clock and a
    counter when [getrandom] fails), the version and variant bits, and the
    textual form. *)

From S2P Require Export Prelude.
From Stdlib Require Import Ascii.
Open Scope Z_scope.

(** [snprintf]'s ["%02x"] *)
Definition hex_digit (n : Z) : ascii :=
  match n with
  | 0 => "0" | 1 => "1" | 2 => "2" | 3 => "3" | 4 => "4" | 5 => "5" | 6 => "6" | 7 => "7"
  | 8 => "8" | 9 => "9" | 10 => "a" | 11 => "b" | 12 => "c" | 13 => "d" | 14 => "e" | _ => "f"
  end%char.
Definition hex_byte (b : Z) : list ascii := [hex_digit (b / 16); hex_digit (b mod 16)].

(** A [uint64_t] as [memcpy] copies it on a little-endian machine. *)
Definition le64_bytes (v : Z) : list Z :=
  (fun i => u64 v / 2 ^ (8 * Z.of_nat i) mod 256) <$> seq 0 8.

(** [uuid[6] = (uuid[6] & 0x0F) | 0x40; uuid[8] = (uuid[8] & 0x3F) | 0x80] *)
Definition set_version_variant (u : list Z) : list Z :=
  alter (fun b => Z.lor (Z.land b 0x3F) 0x80) 8%nat (alter (fun b => Z.lor (Z.land b 0x0F) 0x40) 6%nat u).

Definition format_uuid (u : list Z) : list ascii :=
  let part i n := mjoin (hex_byte <$> take n (drop i u)) in
  part 0%nat 4%nat ++ "-"%char :: part 4%nat 2%nat ++ "-"%char :: part 6%nat 2%nat ++
  "-"%char :: part 8%nat 2%nat ++ "-"%char :: part 10%nat 6%nat.

(** [rand] is what [getrandom] filled in, [None] when it did not return 16
    bytes; [time] is the clock; the state is the static counter. *)
Definition generate_uuid_string (rand : option (list Z)) (time : Z) : M Z (list ascii) :=
  uuid ← match rand with
         | Some r => mret r
         | None => c ← get; put (u64 (c + 1)) ;; mret (le64_bytes time ++ le64_bytes c)
         end;
  mret (format_uuid (set_version_variant uuid)).

(** ** Facts *)

Definition hex_value (c : ascii) : option Z :=
  let n := Z.of_nat (nat_of_ascii c) in
  if (48 <=? n) && (n <=? 57) then Some (n - 48)
  else if (97 <=? n) && (n <=? 102) then Some (n - 87)
  else None.

Lemma hex_digit_value n : 0 <= n < 16 -> hex_value (hex_digit n) = Some n.
Proof.
  intros H. assert (Hn : n ∈ seqZ 0 16) by (apply elem_of_seqZ; lia). clear H.
  revert n Hn. apply Forall_elem. vm_compute. repeat constructor.
Qed.

(** Reading a textual identifier back. *)
Fixpoint parse_hex (l : list ascii) : option (list Z) :=
  match l with
  | [] => Some []
  | "-"%char :: l => parse_hex l
  | a :: b :: l => x ← hex_value a; y ← hex_value b; r ← parse_hex l; Some (x * 16 + y :: r)
  | _ => None
  end.

Lemma hex_digit_not_dash n : hex_digit n <> "-"%char.
Proof. unfold hex_digit. by repeat case_match. Qed.

Lemma parse_hex_byte b l r :
  is_u8 b -> parse_hex l = Some r -> parse_hex (hex_byte b ++ l) = Some (b :: r).
Proof.
  intros Hb Hl. unfold hex_byte. unfold is_u8 in Hb.
  assert (0 <= b / 16 < 16) by (split; [apply Z.div_pos|apply Z.div_lt_upper_bound]; lia).
  pose proof (Z.mod_pos_bound b 16).
  pose proof (hex_digit_value (b / 16)) as H1. pose proof (hex_digit_value (b mod 16)) as H2.
  pose proof (hex_digit_not_dash (b / 16)) as Hd.
  cbn [app]. generalize dependent (hex_digit (b / 16)). generalize dependent (hex_digit (b mod 16)).
  intros y H2 x H1 Hd.
  transitivity (x ← hex_value x; y ← hex_value y; r ← parse_hex l; Some (x * 16 + y :: r)).
  { cbn [parse_hex]. destruct x as [[] [] [] [] [] [] [] []]; try done; exfalso; by apply Hd. }
  rewrite H1, H2 by lia. cbn. rewrite Hl. cbn. do 2 f_equal. rewrite (Z.div_mod b 16) at 3 by lia. lia.
Qed.

Lemma parse_hex_bytes u l r :
  Forall is_u8 u -> parse_hex l = Some r -> parse_hex (mjoin (hex_byte <$> u) ++ l) = Some (u ++ r).
Proof.
  intros Hu Hl. induction Hu as [|b u Hb Hu IH]; [done|].
  cbn [fmap list_fmap mjoin list_join app]. rewrite <- app_assoc. by apply parse_hex_byte.
Qed.

Lemma parse_hex_dash l : parse_hex ("-"%char :: l) = parse_hex l.
Proof. done. Qed.

Lemma parse_format u :
  length u = 16%nat -> Forall is_u8 u -> parse_hex (format_uuid u) = Some u.
Proof.
  intros Hlen Hu.
  assert (Hp : forall i n, Forall is_u8 (take n (drop i u))) by (intros; by apply Forall_take, Forall_drop).
  transitivity (Some (take 4 (drop 0 u) ++ take 2 (drop 4 u) ++ take 2 (drop 6 u) ++ take 2 (drop 8 u) ++
                      take 6 (drop 10 u) ++ [])).
  - unfold format_uuid. rewrite <- (app_nil_r (mjoin (hex_byte <$> take 6 _))).
    repeat (apply parse_hex_bytes; [apply Hp|]; rewrite ?parse_hex_dash). done.
  - do 16 (destruct u as [|? u]; [done|]). by destruct u.
Qed.

(** Facts about one byte, by enumeration. *)
Lemma byte_cases (P : Z -> bool) b : forallb P (seqZ 0 256) = true -> is_u8 b -> P b = true.
Proof.
  intros HP Hb. rewrite forallb_forall in HP. apply HP, list_elem_of_In, elem_of_seqZ.
  unfold is_u8 in Hb. lia.
Qed.

(** The bits the two masks leave. *)
Lemma version_byte b : is_u8 b -> Z.lor (Z.land b 0x0F) 0x40 = 64 + b mod 16.
Proof.
  intros Hb. apply Z.eqb_eq. revert Hb.
  by apply (byte_cases (fun b => Z.lor (Z.land b 0x0F) 0x40 =? 64 + b mod 16)).
Qed.

Lemma variant_byte b : is_u8 b -> Z.lor (Z.land b 0x3F) 0x80 = 128 + b mod 64.
Proof.
  intros Hb. apply Z.eqb_eq. revert Hb.
  by apply (byte_cases (fun b => Z.lor (Z.land b 0x3F) 0x80 =? 128 + b mod 64)).
Qed.

Lemma set_version_variant_ok u :
  length u = 16%nat -> Forall is_u8 u ->
  length (set_version_variant u) = 16%nat /\ Forall is_u8 (set_version_variant u).
Proof.
  intros Hlen Hu. unfold set_version_variant. split; [by rewrite !length_alter|].
  apply Forall_alter; [apply Forall_alter; [done|]|].
  - intros b _ Hb. rewrite version_byte by done. pose proof (Z.mod_pos_bound b 16). unfold is_u8. lia.
  - intros b _ Hb.
    rewrite variant_byte by done. pose proof (Z.mod_pos_bound b 64). unfold is_u8. lia.
Qed.

Lemma length_mjoin_hex u : length (mjoin (hex_byte <$> u)) = (2 * length u)%nat.
Proof.
  induction u as [|b u IH]; [done|].
  change (length (hex_byte b ++ mjoin (hex_byte <$> u)) = (2 * length (b :: u))%nat).
  rewrite length_app, IH. cbn [hex_byte length]. lia.
Qed.

Lemma length_format u : length u = 16%nat -> length (format_uuid u) = 36%nat.
Proof.
  intros Hlen. unfold format_uuid.
  repeat rewrite ?length_app, ?length_cons, ?length_mjoin_hex, ?length_take, ?length_drop.
  lia.
Qed.

(** [generate_uuid_string] always writes exactly 36 characters (its
    37-byte buffer is never overrun or truncated), in the 8-4-4-4-12 form
    whose digits read back to sixteen bytes with version 4 and variant 1, and
    the six other version/variant bits and fourteen other bytes are the ones
    drawn; the counter moves only when [getrandom] failed. *)
Theorem generate_uuid_wf rand time c :
  match rand with Some r => length r = 16%nat /\ Forall is_u8 r | None => True end ->
  wp (generate_uuid_string rand time) (fun s c' =>
    length s = 36%nat /\ c' = (if is_Some_b rand then c else u64 (c + 1)) /\
    exists u raw, parse_hex s = Some u /\ length u = 16%nat /\
      raw = default (le64_bytes time ++ le64_bytes c) rand /\
      (forall i, i <> 6%nat -> i <> 8%nat -> u !! i = raw !! i) /\
      (exists b6 b8, u !! 6%nat = Some b6 /\ u !! 8%nat = Some b8 /\ b6 / 16 = 4 /\ b8 / 64 = 2)) c.
Proof.
  intros Hrand.
  assert (Hraw : exists raw, raw = default (le64_bytes time ++ le64_bytes c) rand /\
            length raw = 16%nat /\ Forall is_u8 raw).
  { eexists. split; [done|]. destruct rand as [r|]; [done|]. cbn [default]. split; [done|].
    assert (Hb : forall v, Forall is_u8 (le64_bytes v)).
    { intros v. unfold le64_bytes. apply Forall_fmap, Forall_true. intros i. cbn.
      unfold is_u8. apply Z.mod_pos_bound. lia. }
    apply Forall_app. auto. }
  destruct Hraw as (raw & Hr & Hlen & Hu8).
  destruct (set_version_variant_ok raw Hlen Hu8) as [Hlen' Hu8'].
  assert (Hgoal : length (format_uuid (set_version_variant raw)) = 36%nat /\
    exists u raw', parse_hex (format_uuid (set_version_variant raw)) = Some u /\ length u = 16%nat /\
      raw' = raw /\ (forall i, i <> 6%nat -> i <> 8%nat -> u !! i = raw' !! i) /\
      (exists b6 b8, u !! 6%nat = Some b6 /\ u !! 8%nat = Some b8 /\ b6 / 16 = 4 /\ b8 / 64 = 2)).
  { split; [by apply length_format|]. exists (set_version_variant raw), raw.
    split_and!; [by apply parse_format|done|done|..].
    - intros i H6 H8. unfold set_version_variant. by rewrite !list_lookup_alter_ne by done.
    - destruct (lookup_lt_is_Some_2 raw 6) as [b6 H6]; [lia|].
      destruct (lookup_lt_is_Some_2 raw 8) as [b8 H8]; [lia|].
      pose proof (proj1 (Forall_lookup _ _) Hu8 _ _ H6) as Hb6.
      pose proof (proj1 (Forall_lookup _ _) Hu8 _ _ H8) as Hb8.
      eexists _, _. unfold set_version_variant. split_and!.
      + rewrite list_lookup_alter_ne, list_lookup_alter, H6 by done. done.
      + rewrite list_lookup_alter, list_lookup_alter_ne, H8 by done. done.
      + rewrite version_byte by done. Z.to_euclidean_division_equations; lia.
      + rewrite variant_byte by done. Z.to_euclidean_division_equations; lia. }
  destruct Hgoal as [Hg1 (u & raw' & Hg2 & Hg3 & -> & Hg4)].
  unfold generate_uuid_string. destruct rand as [r|]; cbn [default] in Hr; subst; wp_steps;
    (split_and!; [done|done|by eexists _, _]).
Qed.

Lemma generate_uuid_wf_witness :
  wp (generate_uuid_string (Some (replicate 16 255)) 0) (fun s c' => length s = 36%nat /\ c' = 3) 3.
Proof.
  eapply wp_mono.
  - apply (generate_uuid_wf (Some (replicate 16 255)) 0 3). split; [reflexivity|].
    repeat constructor; vm_compute; congruence.
  - intros s c' (H1 & H2 & _). split; [exact H1|exact H2].
Defined.
