(* ===== verification/Logging.v ===== *)
(** Logging (src/src/logging/log.c, log.h).

    The logger is one static object: a lock function, a threshold for stderr,
    and an array of 32 callbacks with thresholds of their own.  A message is
    [fmt] applied to its arguments; what it leads to is a list of effects in
    order: lines written to streams, calls of the application's log functions
    and of its lock. *)

From S2P Require Export Prelude.
From Stdlib Require Import Ascii.
From stdpp Require Import pretty.
Open Scope Z_scope.

(** ** Data *)

Definition LOG_TRACE : Z := 0.
Definition LOG_DEBUG : Z := 1.
Definition LOG_INFO : Z := 2.
Definition LOG_WARN : Z := 3.
Definition LOG_ERROR : Z := 4.
Definition LOG_FATAL : Z := 5.
Definition MAX_CALLBACKS : nat := 32.

(** [FILE*]: stderr or a file by its identifier.  [void* udata]: a [FILE*] or
    a pointer of the application's. *)
Inductive stream : Type := Stderr | File (fp : positive).
Inductive log_udata : Type := Stream (s : stream) | Opaque (n : Z).

(** [struct tm], as far as the formats use it. *)
Record tm : Type := Tm { tm_year : Z; tm_mon : Z; tm_mday : Z; tm_hour : Z; tm_min : Z; tm_sec : Z }.

Record log_Event : Type := LogEvent {
  ev_text : string; (* [fmt] with its arguments *)
  ev_file : string;
  ev_line : Z;
  ev_level : Z;
  ev_time : option tm;
  ev_udata : option log_udata }.

Inductive log_LogFn : Type := file_callback_ptr | UserLog (n : Z).

Record ct_callback_t : Type := Callback { cb_fn : option log_LogFn; cb_udata : option log_udata; cb_level : Z }.
Definition empty_callback : ct_callback_t := Callback None None 0.

Inductive log_effect : Type :=
| LockCall (fn : Z) (lock : bool) (udata : option log_udata)
| Written (s : stream) (line : string)
| LogCall (fn : Z) (ev : log_Event).

(** [ct_l_t], the times that the clock will show, and the effects so far. *)
Record logger : Type := Logger {
  lg_udata : option log_udata;
  lg_lock : option Z;
  lg_level : Z;
  lg_quiet : bool;
  lg_callbacks : list ct_callback_t;
  lg_clock : list tm;
  lg_effects : list log_effect }.

Definition set_lg_lock f u (l : logger) := Logger u f (lg_level l) (lg_quiet l) (lg_callbacks l) (lg_clock l) (lg_effects l).
Definition set_lg_level x (l : logger) := Logger (lg_udata l) (lg_lock l) x (lg_quiet l) (lg_callbacks l) (lg_clock l) (lg_effects l).
Definition set_lg_quiet x (l : logger) := Logger (lg_udata l) (lg_lock l) (lg_level l) x (lg_callbacks l) (lg_clock l) (lg_effects l).
Definition set_lg_callbacks x (l : logger) := Logger (lg_udata l) (lg_lock l) (lg_level l) (lg_quiet l) x (lg_clock l) (lg_effects l).
Definition set_lg_clock x (l : logger) := Logger (lg_udata l) (lg_lock l) (lg_level l) (lg_quiet l) (lg_callbacks l) x (lg_effects l).
Definition add_effects x (l : logger) := Logger (lg_udata l) (lg_lock l) (lg_level l) (lg_quiet l) (lg_callbacks l) (lg_clock l) (lg_effects l ++ x).

(** Static storage starts zeroed. *)
Definition initial_logger (clock : list tm) : logger :=
  Logger None None 0 false (replicate MAX_CALLBACKS empty_callback) clock [].

Definition emit (e : log_effect) : M logger unit := modify (add_effects [e]).

(** ** Formats *)

Definition level_strings : list string := ["TRACE"; "DEBUG"; "INFO"; "WARN"; "ERROR"; "FATAL"]%string.

Definition level_string_at (level : Z) : M logger string :=
  if level <? 0 then ub "negative index" else deref (level_strings !! Z.to_nat level) "no such level".
Definition log_level_string (level : Z) : M logger string := level_string_at level.

(** [%02d], [%d] and [%-5s]. *)
Definition two_digits (n : Z) : string := if n <? 10 then "0" +:+ pretty n else pretty n.
Fixpoint spaces (n : nat) : string := match n with O => EmptyString | S n => String " "%char (spaces n) end.
Definition pad5 (s : string) : string := s +:+ spaces (5 - String.length s).

(** [strftime] into a buffer of [size] bytes writes nothing when the result
    and its NUL do not fit; [buf\[strftime(...)\] = 0] is then the empty string. *)
Definition strftime (size : nat) (s : string) : string := if (String.length s <? size)%nat then s else EmptyString.
Definition clock_time (t : tm) : string :=
  two_digits (tm_hour t) +:+ ":" +:+ two_digits (tm_min t) +:+ ":" +:+ two_digits (tm_sec t).
Definition clock_date (t : tm) : string :=
  pretty (tm_year t + 1900) +:+ "-" +:+ two_digits (tm_mon t + 1) +:+ "-" +:+ two_digits (tm_mday t) +:+ " " +:+ clock_time t.

(** The line of an event: its time, level, place and text. *)
Definition event_line (time level : string) (ev : log_Event) : string :=
  time +:+ " " +:+ pad5 level +:+ " " +:+ ev_file ev +:+ ":" +:+ pretty (ev_line ev) +:+ ": " +:+ ev_text ev +:+ String "010"%char EmptyString.

Definition event_stream (ev : log_Event) : M logger stream :=
  u ← deref (ev_udata ev) "NULL stream";
  match u with Stream s => mret s | Opaque _ => ub "not a FILE" end.

Definition stdout_callback (ev : log_Event) : M logger unit :=
  t ← deref (ev_time ev) "NULL time";
  let buf := strftime 16 (clock_time t) in
  s ← event_stream ev;
  level ← level_string_at (ev_level ev);
  emit (Written s (event_line buf level ev)).

Definition file_callback (ev : log_Event) : M logger unit :=
  t ← deref (ev_time ev) "NULL time";
  let buf := strftime 64 (clock_date t) in
  s ← event_stream ev;
  level ← level_string_at (ev_level ev);
  emit (Written s (event_line buf level ev)).

(** ** Operations *)

Definition lock : M logger unit :=
  l ← get;
  match lg_lock l with Some fn => emit (LockCall fn true (lg_udata l)) | None => mret tt end.
Definition unlock : M logger unit :=
  l ← get;
  match lg_lock l with Some fn => emit (LockCall fn false (lg_udata l)) | None => mret tt end.

Definition log_set_lock (fn : option Z) (udata : option log_udata) : M logger unit := modify (set_lg_lock fn udata).
Definition log_set_level (level : Z) : M logger unit := modify (set_lg_level level).
Definition log_set_quiet (enable : bool) : M logger unit := modify (set_lg_quiet enable).

(** The first entry without a function. *)
Fixpoint free_entry (l : list ct_callback_t) : option nat :=
  match l with
  | [] => None
  | cb :: l => if is_Some_b (cb_fn cb) then S <$> free_entry l else Some O
  end.
Definition log_add_callback (fn : option log_LogFn) (udata : option log_udata) (level : Z) : M logger Z :=
  l ← get;
  match free_entry (lg_callbacks l) with
  | Some i => modify (set_lg_callbacks (<[i := Callback fn udata level]> (lg_callbacks l))) ;; mret 0
  | None => mret (-1)
  end.
Definition log_add_fp (fp : stream) (level : Z) : M logger Z :=
  log_add_callback (Some file_callback_ptr) (Some (Stream fp)) level.

(** [localtime(time(NULL))]; an exhausted clock shows the epoch. *)
Definition epoch : tm := Tm 70 0 1 0 0 0.
Definition read_clock : M logger tm :=
  l ← get;
  match lg_clock l with
  | t :: clock => modify (set_lg_clock clock) ;; mret t
  | [] => mret epoch
  end.
Definition init_event (ev : log_Event) (udata : option log_udata) : M logger log_Event :=
  time ← match ev_time ev with Some t => mret t | None => read_clock end;
  mret (LogEvent (ev_text ev) (ev_file ev) (ev_line ev) (ev_level ev) (Some time) udata).

Definition call_log_fn (fn : log_LogFn) (ev : log_Event) : M logger unit :=
  match fn with
  | file_callback_ptr => file_callback ev
  | UserLog n => emit (LogCall n ev)
  end.

(** The loop over the callbacks, up to the first without a function. *)
Fixpoint run_log_callbacks (ev : log_Event) (callbacks : list ct_callback_t) : M logger unit :=
  match callbacks with
  | [] => mret tt
  | cb :: callbacks =>
      match cb_fn cb with
      | None => mret tt
      | Some fn =>
          if cb_level cb <=? ev_level ev then
            ev ← init_event ev (cb_udata cb);
            call_log_fn fn ev ;;
            run_log_callbacks ev callbacks
          else run_log_callbacks ev callbacks
      end
  end.

Definition log_log (level : Z) (file : string) (line : Z) (text : string) : M logger unit :=
  let ev := LogEvent text file line level None None in
  lock ;;
  l ← get;
  ev ← (if negb (lg_quiet l) && (lg_level l <=? level) then
          ev ← init_event ev (Some (Stream Stderr));
          stdout_callback ev ;;
          mret ev
        else mret ev);
  run_log_callbacks ev (lg_callbacks l) ;;
  unlock.

(** ** The registry that the logger implements *)

(** A destination of messages, with its threshold. *)
Inductive sink : Type :=
| FileSink (s : stream) (level : Z)
| UserSink (n : Z) (udata : option log_udata) (level : Z).
Definition sink_level (k : sink) : Z := match k with FileSink _ l => l | UserSink _ _ l => l end.

(** At most [MAX_CALLBACKS] sinks, in the order in which they were added. *)
Record registry : Type := Registry {
  rg_lock : option (Z * option log_udata);
  rg_level : Z;
  rg_quiet : bool;
  rg_sinks : list sink }.
Definition empty_registry : registry := Registry None 0 false [].

(** The operations of log.h.  [file_callback] is static: an application can
    register only functions of its own, or none. *)
Inductive log_op : Type :=
| SetLock (fn : option Z) (udata : option log_udata)
| SetLevel (level : Z)
| SetQuiet (enable : bool)
| AddCallback (fn : option Z) (udata : option log_udata) (level : Z)
| AddFp (fp : stream) (level : Z)
| Log (level : Z) (file : string) (line : Z) (text : string).

Definition run_log_op (op : log_op) : M logger Z :=
  match op with
  | SetLock fn u => log_set_lock fn u ;; mret 0
  | SetLevel level => log_set_level level ;; mret 0
  | SetQuiet b => log_set_quiet b ;; mret 0
  | AddCallback fn u level => log_add_callback (UserLog <$> fn) u level
  | AddFp fp level => log_add_fp fp level
  | Log level file line text => log_log level file line text ;; mret 0
  end.
Fixpoint run_log_ops (ops : list log_op) : M logger (list Z) :=
  match ops with
  | [] => mret []
  | op :: ops => rc ← run_log_op op; rcs ← run_log_ops ops; mret (rc :: rcs)
  end.

(** What a message of a level looks like at its destinations. *)
Definition level_name (level : Z) : string := default EmptyString (level_strings !! Z.to_nat level).
Definition deliver (t : tm) (ev : log_Event) (k : sink) : log_effect :=
  match k with
  | FileSink s _ => Written s (event_line (clock_date t) (level_name (ev_level ev)) ev)
  | UserSink n u _ => LogCall n (LogEvent (ev_text ev) (ev_file ev) (ev_line ev) (ev_level ev) (Some t) u)
  end.
Definition heard (rg : registry) (level : Z) : bool := negb (rg_quiet rg) && (rg_level rg <=? level).
Definition listening (level : Z) (l : list sink) : list sink := filter (fun k => sink_level k <= level) l.
Definition locked (rg : registry) (b : bool) : list log_effect :=
  match rg_lock rg with Some (fn, u) => [LockCall fn b u] | None => [] end.
Definition message_effects (rg : registry) (t : tm) (ev : log_Event) : list log_effect :=
  locked rg true
  ++ (if heard rg (ev_level ev) then [Written Stderr (event_line (clock_time t) (level_name (ev_level ev)) ev)] else [])
  ++ (deliver t ev <$> listening (ev_level ev) (rg_sinks rg))
  ++ locked rg false.

Definition add_sink (k : sink) (rg : registry) : Z * registry :=
  if (length (rg_sinks rg) <? MAX_CALLBACKS)%nat
  then (0, Registry (rg_lock rg) (rg_level rg) (rg_quiet rg) (rg_sinks rg ++ [k])) else (-1, rg).
Definition has_room (rg : registry) : Z := if (length (rg_sinks rg) <? MAX_CALLBACKS)%nat then 0 else -1.

(** One operation: its result, its effects and the registry after it. *)
Definition registry_step (t : tm) (op : log_op) (rg : registry) : Z * list log_effect * registry :=
  match op with
  | SetLock fn u => (0, [], Registry ((fun f => (f, u)) <$> fn) (rg_level rg) (rg_quiet rg) (rg_sinks rg))
  | SetLevel level => (0, [], Registry (rg_lock rg) level (rg_quiet rg) (rg_sinks rg))
  | SetQuiet b => (0, [], Registry (rg_lock rg) (rg_level rg) b (rg_sinks rg))
  | AddCallback (Some n) u level => let '(rc, rg') := add_sink (UserSink n u level) rg in (rc, [], rg')
  | AddCallback None _ _ => (has_room rg, [], rg)
  | AddFp fp level => let '(rc, rg') := add_sink (FileSink fp level) rg in (rc, [], rg')
  | Log level file line text => (0, message_effects rg t (LogEvent text file line level None None), rg)
  end.

(** Whether an operation reads the clock: when its message goes anywhere. *)
Definition reads_clock (op : log_op) (rg : registry) : bool :=
  match op with
  | Log level _ _ _ => heard rg level || bool_decide (listening level (rg_sinks rg) <> [])
  | _ => false
  end.

Fixpoint registry_run (clock : list tm) (ops : list log_op) (rg : registry) : list Z * list log_effect * registry :=
  match ops with
  | [] => ([], [], rg)
  | op :: ops =>
      let '(rc, out, rg1) := registry_step (hd epoch clock) op rg in
      let '(rcs, outs, rg2) := registry_run (if reads_clock op rg then tail clock else clock) ops rg1 in
      (rc :: rcs, out ++ outs, rg2)
  end.

(** ** Formats fit *)

(** The fields of [struct tm], up to the year 9999. *)
Definition wf_tm (t : tm) : Prop :=
  -1900 <= tm_year t < 8100 /\ 0 <= tm_mon t < 12 /\ 1 <= tm_mday t < 32
  /\ 0 <= tm_hour t < 24 /\ 0 <= tm_min t < 60 /\ 0 <= tm_sec t <= 60.

Lemma two_digits_length n : 0 <= n < 100 -> String.length (two_digits n) = 2%nat.
Proof.
  intros Hn. assert (Forall (fun n => String.length (two_digits n) = 2%nat) (seqZ 0 100)) as H.
  { apply (bool_decide_unpack _). by vm_compute. }
  rewrite Forall_forall in H. apply H, elem_of_seqZ. lia.
Qed.

Lemma year_length n : 0 <= n < 10000 -> (String.length (pretty n) <= 4)%nat.
Proof.
  intros Hn. assert (Forall (fun n => (String.length (pretty n) <= 4)%nat) (seqZ 0 10000)) as H.
  { apply (bool_decide_unpack _). by vm_compute. }
  rewrite Forall_forall in H. apply H, elem_of_seqZ. lia.
Qed.

Lemma length_string_app s1 s2 : String.length (s1 +:+ s2) = (String.length s1 + String.length s2)%nat.
Proof. induction s1 as [|a s1 IH]; [done|]. change (String a s1 +:+ s2) with (String a (s1 +:+ s2)). cbn. by rewrite IH. Qed.

Lemma strftime_time t : wf_tm t -> strftime 16 (clock_time t) = clock_time t.
Proof.
  intros (_ & _ & _ & ? & ? & ?). unfold strftime, clock_time. rewrite !length_string_app, !two_digits_length by lia. done.
Qed.
Lemma strftime_date t : wf_tm t -> strftime 64 (clock_date t) = clock_date t.
Proof.
  intros (? & ? & ? & ? & ? & ?). unfold strftime, clock_date, clock_time. pose proof (year_length (tm_year t + 1900)).
  rewrite !length_string_app, !two_digits_length by lia. cbn [String.length]. rewrite (proj2 (Nat.ltb_lt _ _)); [done|lia].
Qed.

(** ** The logger holds a registry *)

Definition callback_of (k : sink) : ct_callback_t :=
  match k with
  | FileSink s level => Callback (Some file_callback_ptr) (Some (Stream s)) level
  | UserSink n u level => Callback (Some (UserLog n)) u level
  end.

(** The sinks are a prefix of the array; the entries after it have no
    function. *)
Definition holds_sinks (callbacks : list ct_callback_t) (l : list sink) : Prop :=
  exists rest, callbacks = (callback_of <$> l) ++ rest /\ Forall (fun cb => cb_fn cb = None) rest /\ length callbacks = MAX_CALLBACKS.

Record holds (lg : logger) (rg : registry) : Prop := {
  ho_lock : (fun fn => (fn, lg_udata lg)) <$> lg_lock lg = rg_lock rg;
  ho_level : lg_level lg = rg_level rg;
  ho_quiet : lg_quiet lg = rg_quiet rg;
  ho_sinks : holds_sinks (lg_callbacks lg) (rg_sinks rg) }.

Lemma initial_logger_holds clock : holds (initial_logger clock) empty_registry.
Proof. split; [done..|]. exists (replicate MAX_CALLBACKS empty_callback). split_and!; [done|by apply Forall_replicate|done]. Qed.

Lemma callback_of_fn k : is_Some_b (cb_fn (callback_of k)) = true.
Proof. by destruct k. Qed.
Lemma callback_of_level k : cb_level (callback_of k) = sink_level k.
Proof. by destruct k. Qed.

Lemma free_entry_holds callbacks l :
  holds_sinks callbacks l -> free_entry callbacks = if (length l <? MAX_CALLBACKS)%nat then Some (length l) else None.
Proof.
  intros (rest & -> & Hrest & Hlen). rewrite length_app, length_fmap in Hlen.
  assert (forall l, free_entry ((callback_of <$> l) ++ rest) = Nat.add (length l) <$> free_entry rest) as ->.
  { intros l'. induction l' as [|k l' IH]; cbn; [by destruct (free_entry rest)|]. rewrite callback_of_fn, IH. by destruct (free_entry rest). }
  destruct rest as [|cb rest]; cbn [length] in Hlen.
  - rewrite (proj2 (Nat.ltb_ge _ _)) by lia. done.
  - rewrite (proj2 (Nat.ltb_lt _ _)) by lia. apply Forall_cons_1 in Hrest as [Hcb _]. cbn. rewrite Hcb. cbn. by rewrite Nat.add_0_r.
Qed.

(** Writing the first free entry. *)
Lemma holds_sinks_insert callbacks l k :
  holds_sinks callbacks l -> (length l < MAX_CALLBACKS)%nat -> holds_sinks (<[length l := callback_of k]> callbacks) (l ++ [k]).
Proof.
  intros (rest & -> & Hrest & Hlen) Hl. rewrite length_app, length_fmap in Hlen. destruct rest as [|cb rest]; [cbn in Hlen; lia|].
  exists rest. apply Forall_cons_1 in Hrest as [_ Hrest]. split_and!; [|done|].
  - rewrite insert_app_r_alt by (by rewrite length_fmap). rewrite length_fmap, Nat.sub_diag. cbn. by rewrite fmap_app, <- app_assoc.
  - by rewrite length_insert, length_app, length_fmap.
Qed.
Lemma holds_sinks_insert_null callbacks l u level :
  holds_sinks callbacks l -> (length l < MAX_CALLBACKS)%nat -> holds_sinks (<[length l := Callback None u level]> callbacks) l.
Proof.
  intros (rest & -> & Hrest & Hlen) Hl. rewrite length_app, length_fmap in Hlen. destruct rest as [|cb rest]; [cbn in Hlen; lia|].
  exists (Callback None u level :: rest). apply Forall_cons_1 in Hrest as [_ Hrest]. split_and!; [|by constructor|].
  - rewrite insert_app_r_alt by (by rewrite length_fmap). by rewrite length_fmap, Nat.sub_diag.
  - by rewrite length_insert, length_app, length_fmap.
Qed.

Lemma wp_log_add_callback fn u level k rg lg :
  holds lg rg -> Callback fn u level = callback_of k ->
  wp (log_add_callback fn u level) (fun rc lg' =>
    rc = (add_sink k rg).1 /\ holds lg' (add_sink k rg).2 /\ lg_effects lg' = lg_effects lg /\ lg_clock lg' = lg_clock lg) lg.
Proof.
  intros Hh Hk. unfold log_add_callback, add_sink. wp_steps. rewrite (free_entry_holds _ _ (ho_sinks _ _ Hh)), Hk.
  destruct (Nat.ltb_spec (length (rg_sinks rg)) MAX_CALLBACKS); wp_steps; [|done].
  split_and!; [done| |done..]. destruct Hh. split; [done..|]. by apply holds_sinks_insert.
Qed.

Lemma wp_log_add_nothing u level rg lg :
  holds lg rg ->
  wp (log_add_callback None u level) (fun rc lg' =>
    rc = has_room rg /\ holds lg' rg /\ lg_effects lg' = lg_effects lg /\ lg_clock lg' = lg_clock lg) lg.
Proof.
  intros Hh. unfold log_add_callback, has_room. wp_steps. rewrite (free_entry_holds _ _ (ho_sinks _ _ Hh)).
  destruct (Nat.ltb_spec (length (rg_sinks rg)) MAX_CALLBACKS); wp_steps; [|done].
  split_and!; [done| |done..]. destruct Hh. split; [done..|]. by apply holds_sinks_insert_null.
Qed.

(** ** Messages *)

Definition is_level (level : Z) : Prop := LOG_TRACE <= level <= LOG_FATAL.

Lemma wp_level_string level (Q : string -> logger -> Prop) lg :
  is_level level -> Q (level_name level) lg -> wp (level_string_at level) Q lg.
Proof.
  unfold is_level, LOG_TRACE, LOG_FATAL, level_string_at, level_name. intros Hl HQ. rewrite (proj2 (Z.ltb_ge _ _)) by lia.
  destruct (lookup_lt_is_Some_2 level_strings (Z.to_nat level)) as [s Hs]; [cbn; lia|]. rewrite Hs in *. by wp_steps.
Qed.

(** The time of an event: its own, or what the clock shows. *)
Definition event_time (ev : log_Event) (lg : logger) : tm := default (hd epoch (lg_clock lg)) (ev_time ev).
Definition clock_after (ev : log_Event) (lg : logger) : list tm := if ev_time ev is Some _ then lg_clock lg else tail (lg_clock lg).
Definition timed (t : tm) (u : option log_udata) (ev : log_Event) : log_Event :=
  LogEvent (ev_text ev) (ev_file ev) (ev_line ev) (ev_level ev) (Some t) u.

Lemma wp_init_event ev u (Q : log_Event -> logger -> Prop) lg :
  Q (timed (event_time ev lg) u ev) (set_lg_clock (clock_after ev lg) lg) -> wp (init_event ev u) Q lg.
Proof.
  intros HQ. unfold init_event, read_clock, event_time, clock_after in *. destruct (ev_time ev), lg as [? ? ? ? ? [|] ?]; by wp_steps.
Qed.

Lemma wf_hd_clock clock : Forall wf_tm clock -> wf_tm (hd epoch clock).
Proof. intros [|t' clock' Ht _]; [unfold wf_tm; cbn; lia|done]. Qed.

Lemma wp_call_sink t ev k (Q : unit -> logger -> Prop) lg fn :
  wf_tm t -> is_level (ev_level ev) -> cb_fn (callback_of k) = Some fn ->
  Q tt (add_effects [deliver t ev k] lg) -> wp (call_log_fn fn (timed t (cb_udata (callback_of k)) ev)) Q lg.
Proof.
  intros Ht Hl Hfn HQ. destruct k as [s level|n u level]; injection Hfn as <-; cbn [call_log_fn]; unfold file_callback, emit, event_stream; cbn [ev_udata ev_time timed cb_udata callback_of]; wp_steps; [|done].
  apply wp_bind, wp_level_string; [done|]. wp_steps. by rewrite strftime_date.
Qed.

(** A logger after effects and readings of the clock. *)
Definition after (x : list log_effect) (clock : list tm) (lg : logger) : logger := set_lg_clock clock (add_effects x lg).
Lemma after_after x c y d lg : after x c (after y d lg) = after (y ++ x) c lg.
Proof. unfold after, add_effects, set_lg_clock. cbn. by rewrite <- app_assoc. Qed.
Lemma after_nothing lg : lg = after [] (lg_clock lg) lg.
Proof. destruct lg. unfold after, add_effects, set_lg_clock. cbn. by rewrite app_nil_r. Qed.
Lemma add_effects_after x lg : add_effects x lg = after x (lg_clock lg) lg.
Proof. by destruct lg. Qed.
Lemma holds_after x c lg rg : holds lg rg -> holds (after x c lg) rg.
Proof. intros []. by split. Qed.

Definition loop_clock (ev : log_Event) (l : list sink) (lg : logger) : list tm :=
  match listening (ev_level ev) l with [] => lg_clock lg | _ => clock_after ev lg end.

Lemma wp_run_log_callbacks l rest ev lg :
  Forall (fun cb => cb_fn cb = None) rest -> is_level (ev_level ev) -> wf_tm (event_time ev lg) ->
  wp (run_log_callbacks ev ((callback_of <$> l) ++ rest)) (fun _ lg' =>
    lg' = after (deliver (event_time ev lg) ev <$> listening (ev_level ev) l) (loop_clock ev l lg) lg) lg.
Proof.
  intros Hrest. revert ev lg. induction l as [|k l IH]; intros ev lg Hlevel Ht; cbn [fmap list_fmap app].
  { destruct rest as [|cb rest]; cbn; [wp_steps; apply after_nothing|]. apply Forall_cons_1 in Hrest as [-> _]. wp_steps. apply after_nothing. }
  cbn [run_log_callbacks]. destruct (cb_fn (callback_of k)) as [fn|] eqn:Hfn; [|by destruct k]. rewrite callback_of_level.
  unfold loop_clock, listening in *. rewrite filter_cons. destruct (Z.leb_spec (sink_level k) (ev_level ev)) as [Hle|Hgt].
  - rewrite decide_True by done. wp_steps. apply wp_init_event. wp_steps. eapply wp_call_sink; [done..|].
    eapply wp_mono; [apply IH; [done|exact Ht]|]. intros ? lg' ->. cbn [ev_level timed].
    change (event_time (timed (event_time ev lg) _ ev) _) with (event_time ev lg).
    rewrite add_effects_after. change (set_lg_clock (clock_after ev lg) lg) with (set_lg_clock (clock_after ev lg) lg).
    assert (forall f : list sink, deliver (event_time ev lg) (timed (event_time ev lg) (cb_udata (callback_of k)) ev) <$> f =
      deliver (event_time ev lg) ev <$> f) as -> by (intros f; by apply list_fmap_ext; intros ? [] ?).
    destruct (filter _ l); unfold after, add_effects, set_lg_clock, clock_after; cbn; by rewrite <- ?app_assoc.
  - rewrite decide_False by lia. by apply IH.
Qed.

Lemma wp_lock rg lg : holds lg rg -> wp lock (fun _ lg' => lg' = after (locked rg true) (lg_clock lg) lg) lg.
Proof.
  intros [Hlock _ _ _]. unfold locked, lock, emit. rewrite <- Hlock. wp_steps.
  destruct (lg_lock lg); wp_steps; [by rewrite add_effects_after|apply after_nothing].
Qed.
Lemma wp_unlock rg lg : holds lg rg -> wp unlock (fun _ lg' => lg' = after (locked rg false) (lg_clock lg) lg) lg.
Proof.
  intros [Hlock _ _ _]. unfold locked, unlock, emit. rewrite <- Hlock. wp_steps.
  destruct (lg_lock lg); wp_steps; [by rewrite add_effects_after|apply after_nothing].
Qed.

(** The loop over the callbacks and the unlocking. *)
Lemma wp_notify rg ev rest lg :
  holds lg rg -> lg_callbacks lg = (callback_of <$> rg_sinks rg) ++ rest -> Forall (fun cb => cb_fn cb = None) rest ->
  is_level (ev_level ev) -> wf_tm (event_time ev lg) ->
  wp (run_log_callbacks ev ((callback_of <$> rg_sinks rg) ++ rest) ;; unlock) (fun _ lg' =>
    lg' = after ((deliver (event_time ev lg) ev <$> listening (ev_level ev) (rg_sinks rg)) ++ locked rg false) (loop_clock ev (rg_sinks rg) lg) lg) lg.
Proof.
  intros Hh Hcb Hrest Hl Ht. wp_steps. eapply wp_mono; [by apply wp_run_log_callbacks|]. intros _ ? ->.
  eapply wp_mono; [by apply wp_unlock, holds_after|]. intros _ ? ->. by rewrite after_after.
Qed.

(** A message: its effects in order, and one reading of the clock if it goes
    anywhere. *)
Lemma wp_log_log level file line text rg lg :
  holds lg rg -> is_level level -> Forall wf_tm (lg_clock lg) ->
  wp (log_log level file line text) (fun _ lg' =>
    lg' = after (message_effects rg (hd epoch (lg_clock lg)) (LogEvent text file line level None None))
      (if reads_clock (Log level file line text) rg then tail (lg_clock lg) else lg_clock lg) lg) lg.
Proof.
  intros Hh Hlevel Hclock. pose proof (wf_hd_clock _ Hclock) as Ht. unfold log_log. wp_steps.
  eapply wp_mono; [by apply wp_lock|]. intros _ ? ->. apply (holds_after (locked rg true) (lg_clock lg)) in Hh as Hh1.
  wp_steps. set (ev := LogEvent _ _ _ _ _ _). destruct (ho_sinks _ _ Hh1) as (rest & Hcb & Hrest & _).
  rewrite Hcb, (ho_quiet _ _ Hh1), (ho_level _ _ Hh1). unfold message_effects, reads_clock, heard. cbn [ev_level ev].
  destruct (negb (rg_quiet rg) && (rg_level rg <=? level)); cbn [orb].
  - wp_steps. apply wp_init_event. wp_steps. unfold stdout_callback, event_stream, emit. cbn [ev_time ev_udata timed]. wp_steps.
    apply wp_bind, wp_level_string; [done|]. wp_steps. rewrite strftime_time by done. rewrite add_effects_after.
    apply (wp_bind_inv _ (fun _ => unlock)). eapply wp_mono; [apply wp_notify; [by destruct Hh; split|exact Hcb|exact Hrest|done|done]|].
    intros _ ? ->. rewrite after_after. unfold after, loop_clock, clock_after, add_effects, set_lg_clock. cbn. rewrite <- !app_assoc.
    by destruct (listening _ _).
  - wp_steps. apply (wp_bind_inv _ (fun _ => unlock)). eapply wp_mono; [by apply wp_notify|]. intros _ ? ->. rewrite after_after. cbn [app]. rewrite <- ?app_assoc.
    unfold loop_clock, clock_after. cbn [ev_time ev ev_level]. case_bool_decide as Hnil; destruct (listening _ _); done.
Qed.

(** ** The refinement *)

Definition log_op_ok (op : log_op) : Prop := match op with Log level _ _ _ => is_level level | _ => True end.

Lemma wp_run_log_op op rg lg :
  holds lg rg -> Forall wf_tm (lg_clock lg) -> log_op_ok op ->
  wp (run_log_op op) (fun rc lg' => let '(rc', out, rg') := registry_step (hd epoch (lg_clock lg)) op rg in
    rc = rc' /\ holds lg' rg' /\ lg_effects lg' = lg_effects lg ++ out
    /\ lg_clock lg' = if reads_clock op rg then tail (lg_clock lg) else lg_clock lg) lg.
Proof.
  intros Hh Hclock Hok.
  destruct op as [fn u|level|b|[n|] u level|fp level|level file line text]; cbn [run_log_op registry_step reads_clock].
  - unfold log_set_lock. wp_steps. split_and!; [done| |by rewrite app_nil_r|done]. destruct Hh. by split.
  - unfold log_set_level. wp_steps. split_and!; [done| |by rewrite app_nil_r|done]. destruct Hh. by split.
  - unfold log_set_quiet. wp_steps. split_and!; [done| |by rewrite app_nil_r|done]. destruct Hh. by split.
  - eapply wp_mono; [by apply (wp_log_add_callback _ _ _ (UserSink n u level))|]. intros rc lg'. destruct (add_sink _ rg). by rewrite app_nil_r.
  - eapply wp_mono; [by apply wp_log_add_nothing|]. intros rc lg'. by rewrite app_nil_r.
  - unfold log_add_fp. eapply wp_mono; [by apply (wp_log_add_callback _ _ _ (FileSink fp level))|]. intros rc lg'. destruct (add_sink _ rg). by rewrite app_nil_r.
  - wp_steps. eapply wp_mono; [by eapply wp_log_log|]. intros _ lg' ->. wp_steps. split_and!; [done|by apply holds_after|done..].
Qed.

(** C27: the logger implements a registry of at most 32 destinations.  For
    every sequence of operations, from any state that holds a registry (such
    as the zeroed one at the start), nothing is undefined, and results and
    effects are those of the registry: callbacks and files are added in
    order until there are 32, and refused with -1, without effect, after that; a
    message goes, between the calls of the lock, to stderr if the logger is
    not quiet and the level reaches its threshold, then to every destination
    whose threshold it reaches, in the order in which they were added, all
    with the same time: the clock is read once, and only if the message goes
    anywhere.  The time always fits the buffers it is formatted into. *)
Theorem logger_refines_registry ops rg lg :
  holds lg rg -> Forall wf_tm (lg_clock lg) -> Forall log_op_ok ops ->
  wp (run_log_ops ops) (fun rcs lg' => let '(rcs', out, rg') := registry_run (lg_clock lg) ops rg in
    rcs = rcs' /\ holds lg' rg' /\ lg_effects lg' = lg_effects lg ++ out) lg.
Proof.
  revert rg lg. induction ops as [|op ops IH]; intros rg lg Hh Hclock Hops; cbn [run_log_ops registry_run].
  { wp_steps. by rewrite app_nil_r. }
  apply Forall_cons_1 in Hops as [Hop Hops]. wp_steps. eapply wp_mono; [by apply wp_run_log_op|]. intros rc lg1.
  destruct (registry_step _ op rg) as [[rc' out] rg1]. intros (-> & Hh1 & He & Hc). rewrite <- Hc. wp_steps.
  eapply wp_mono; [apply IH; [exact Hh1| |done]|].
  - rewrite Hc. destruct (reads_clock op rg); [|done]. by destruct Hclock.
  - intros rcs lg2. destruct (registry_run _ ops rg1) as [[rcs' outs] rg2]. intros (-> & Hh2 & He2). wp_steps.
    by rewrite He2, He, app_assoc.
Qed.

(** A log file for warnings, a quiet stderr, and two messages. *)
Definition noon : tm := Tm 125 5 1 12 0 5.
Definition some_log_ops : list log_op :=
  [AddFp (File 1) LOG_WARN; Log LOG_INFO "udp.c" 7 "opened"; SetQuiet true; Log LOG_ERROR "udp.c" 42 "broken"].

Lemma logger_refines_registry_witness :
  wp (run_log_ops some_log_ops) (fun rcs lg' => rcs = [0; 0; 0; 0] /\
    lg_effects lg' =
      [Written Stderr ("12:00:05 INFO  udp.c:7: opened" +:+ String "010"%char EmptyString);
       Written (File 1) ("2025-06-01 12:00:05 ERROR udp.c:42: broken" +:+ String "010"%char EmptyString)])
    (initial_logger [noon; noon]).
Proof.
  eapply wp_mono; [apply (logger_refines_registry some_log_ops empty_registry (initial_logger [noon; noon]))|].
  - apply initial_logger_holds.
  - by repeat constructor.
  - by repeat constructor.
  - cbn beta. intros rcs lg'. destruct (registry_run _ _ _) as [[rcs' out] rg'] eqn:E. vm_compute in E. injection E as <- <- <-.
    by intros (-> & _ & ->).
Defined.
