(* ===== verification/Message.v ===== *)
(** Messages, message contexts and queued messages.

    Models src/src/message/: message.c, message_context.c and framer.c.  The
    endpoints a context refers to belong to a connection: they are pointers,
    an object identifier and an index.  User contexts are opaque pointers. *)

From S2P Require Export Properties.

(** ** Messages (message.c) *)

(** [ct_message_t]; [None] is a NULL [content]. *)
Record ct_message := Message { msg_content : option (list Z); msg_length : nat }.

#[export] Instance ct_message_eq_dec : EqDecision ct_message.
Proof. solve_decision. Defined.

(** A pointer to an endpoint of a connection: owner and index. *)
Definition endpoint_ptr : Type := positive * nat.
(** A [void*] owned by the application. *)
Definition user_ptr : Type := Z.

(** [ct_message_context_t] *)
Record ct_message_context := MessageContext {
  mc_properties : ct_message_properties;
  mc_local_endpoint : option endpoint_ptr;
  mc_remote_endpoint : option endpoint_ptr;
  mc_per_receive_context : option user_ptr }.

(** [ct_queued_message_t] *)
Record ct_queued_message := QueuedMessage {
  qm_message : ct_message; qm_context : option ct_message_context }.

Definition ct_message_free (message : option ct_message) : M heap unit :=
  match message with
  | None => mret tt
  | Some m => when (is_Some_b (msg_content m)) free_block ;; free_block
  end.

(** [memcpy] of [length] bytes: the content must hold that many. *)
Definition content_bytes (m : ct_message) : option (list Z) :=
  match msg_content m with
  | Some c => if (msg_length m <=? length c)%nat then Some (take (msg_length m) c) else None
  | None => if bool_decide (msg_length m = 0%nat) then Some [] else None
  end.

Definition ct_message_deep_copy (message : option ct_message) : M heap (option ct_message) :=
  match message with
  | None => mret None
  | Some m =>
      ok ← malloc;
      if negb ok then mret None else
      ok ← malloc;
      if negb ok then free_block ;; mret None else
      c ← deref (content_bytes m) "message content shorter than its length";
      mret (Some (Message (Some c) (msg_length m)))
  end.

Definition ct_message_new : M heap (option ct_message) :=
  ok ← malloc; mret (if ok : bool then Some (Message None 0) else None).

Definition ct_message_new_with_content (content : list Z) : M heap (option ct_message) :=
  message ← ct_message_new;
  match message with
  | None => mret None
  | Some _ =>
      ok ← malloc;
      if negb ok then free_block ;; mret None
      else mret (Some (Message (Some content) (length content)))
  end.

Definition ct_message_get_length (message : option ct_message) : nat :=
  match message with Some m => msg_length m | None => 0%nat end.
Definition ct_message_get_content (message : option ct_message) : option (list Z) :=
  message ≫= msg_content.

(** The [content] argument: the message's own buffer, NULL or another buffer. *)
Inductive new_content := OwnBuffer | OtherBuffer (content : option (list Z)).

Definition ct_message_set_content (message : option ct_message) (content : new_content) (len : nat) :
    M heap (option ct_message) :=
  match message with
  | None => mret None
  | Some m =>
      match content, msg_content m with
      | OwnBuffer, _ | OtherBuffer None, None => mret (Some m)
      | OtherBuffer content, _ =>
          when (is_Some_b (msg_content m)) free_block ;;
          match content with
          | Some c =>
              if bool_decide (len = 0%nat) then mret (Some (Message None 0)) else
              ok ← malloc;
              if negb ok then mret (Some (Message None 0)) else
              mret (Some (Message (Some (take len c)) len))
          | None => mret (Some (Message None 0))
          end
      end
  end.

(** ** Message contexts (message_context.c) *)

Definition ct_message_context_new : M heap (option ct_message_context) :=
  ok ← malloc;
  mret (if ok : bool then Some (MessageContext DEFAULT_MESSAGE_PROPERTIES None None None) else None).

(** [local] and [remote] are the connection's active endpoints. *)
Definition ct_message_context_new_from_connection (local remote : option endpoint_ptr) :
    M heap (option ct_message_context) :=
  ctx ← ct_message_context_new;
  mret ((fun c => MessageContext (mc_properties c) local remote (mc_per_receive_context c)) <$> ctx).

Definition ct_message_context_deep_copy (source : option ct_message_context) : M heap (option ct_message_context) :=
  match source with
  | None => mret None
  | Some s =>
      ok ← malloc;
      if negb ok then mret None else
      mret (Some (MessageContext (mc_properties s) (mc_local_endpoint s) (mc_remote_endpoint s)
                    (mc_per_receive_context s)))
  end.

Definition ct_message_context_free (message_context : option ct_message_context) : M heap unit :=
  when (is_Some_b message_context) free_block.

Definition ct_message_context_get_message_properties (c : option ct_message_context) : option ct_message_properties :=
  mc_properties <$> c.
Definition ct_message_context_get_remote_endpoint (c : option ct_message_context) : option endpoint_ptr :=
  c ≫= mc_remote_endpoint.
Definition ct_message_context_get_local_endpoint (c : option ct_message_context) : option endpoint_ptr :=
  c ≫= mc_local_endpoint.
Definition ct_message_context_get_receive_context (c : option ct_message_context) : option user_ptr :=
  c ≫= mc_per_receive_context.

(** [DEFINE_MSG_CONTEXT_PROPERTY_GETTER]/[_SETTER] *)
Definition ct_message_context_get (p : msg_prop) (ctx : option ct_message_context) : Z :=
  ct_message_properties_get p (mc_properties <$> ctx).
Definition ct_message_context_set (p : msg_prop) (ctx : option ct_message_context) (v : Z) : option ct_message_context :=
  c ← ctx;
  l ← ct_message_properties_set p (Some (mc_properties c)) v;
  Some (MessageContext l (mc_local_endpoint c) (mc_remote_endpoint c) (mc_per_receive_context c)).

(** ** Queued messages (message.c) *)

Definition ct_queued_message_new (message : option ct_message) (context : option ct_message_context) :
    M heap (option ct_queued_message) :=
  match message with
  | None => mret None
  | Some m => ok ← malloc; mret (if ok : bool then Some (QueuedMessage m context) else None)
  end.

Definition ct_queued_message_free_all (q : option ct_queued_message) : M heap unit :=
  match q with
  | None => mret tt
  | Some q =>
      ct_message_free (Some (qm_message q)) ;;
      ct_message_context_free (qm_context q) ;;
      free_block
  end.

(** ** Framers (framer.c) *)

(** The two callbacks of [ct_framer_impl_t], by identity. *)
Record ct_framer_impl := Framer { encode_message : Z; decode_data : Z }.

Definition ct_framer_impl_deep_copy (source : option ct_framer_impl) : M heap (option ct_framer_impl) :=
  match source with
  | None => mret None
  | Some f => ok ← malloc; mret (if ok : bool then Some f else None)
  end.
Definition ct_framer_impl_free (framer : option ct_framer_impl) : M heap unit :=
  when (is_Some_b framer) free_block.

(** ** Facts *)

(** A message whose buffer, when it has one, is at least as long as its length. *)
Definition wf_message (m : ct_message) : Prop := is_Some (content_bytes m).

Definition msg_blocks (m : ct_message) : Z := 1 + (if is_Some_b (msg_content m) then 1 else 0).
Definition queued_blocks (q : ct_queued_message) : Z :=
  msg_blocks (qm_message q) + (if is_Some_b (qm_context q) then 1 else 0) + 1.

Lemma frees_message m : frees (ct_message_free (Some m)) (msg_blocks m).
Proof.
  eapply frees_eq; [apply frees_bind; [apply frees_when; intros _; apply frees_block|apply frees_block]|].
  unfold msg_blocks. destruct (is_Some_b _); lia.
Qed.

Definition opt_msg_blocks (m : option ct_message) : Z :=
  match m with Some m => msg_blocks m | None => 0 end.

Lemma frees_message_opt m : frees (ct_message_free m) (opt_msg_blocks m).
Proof. destruct m; [apply frees_message|apply frees_ret]. Qed.

Lemma frees_context c : frees (ct_message_context_free (Some c)) 1.
Proof. apply frees_block. Qed.

Lemma frees_queued q : frees (ct_queued_message_free_all (Some q)) (queued_blocks q).
Proof.
  eapply frees_eq.
  - apply frees_bind; [apply frees_message|]. apply frees_bind; [|apply frees_block].
    apply frees_when. intros _. apply frees_block.
  - unfold queued_blocks. destruct (is_Some_b _); lia.
Qed.

(** A deep copy holds the same bytes. *)
(** A copy has the bytes of the original. *)
Lemma content_bytes_copy m c : content_bytes m = Some c -> content_bytes (Message (Some c) (msg_length m)) = Some c.
Proof.
  unfold content_bytes. cbn [msg_content msg_length]. destruct (msg_content m) as [l|].
  - destruct (msg_length m <=? length l)%nat eqn:Hlen; [|done]. intros [= <-]. apply Nat.leb_le in Hlen.
    by rewrite length_take, Nat.min_l, Nat.leb_refl, take_take, Nat.min_id.
  - case_bool_decide as H; [|done]. intros [= <-]. by rewrite H.
Qed.

Lemma wp_message_deep_copy m (Q : option ct_message -> heap -> Prop) h :
  wf_message m ->
  (forall c h', content_bytes m = Some c -> heap_step h h' 2 ->
     Q (Some (Message (Some c) (msg_length m))) h') ->
  (forall h', heap_step h h' 0 -> ~ oracle_ok h -> Q None h') ->
  wp (ct_message_deep_copy (Some m)) Q h.
Proof.
  intros [c Hc] H1 H2. cbn [ct_message_deep_copy]. wp_steps. apply wp_malloc. intros [] o Ho; cbn [negb].
  - wp_steps. apply wp_malloc. intros [] o' Ho'; cbn [negb].
    + wp_steps. apply H1; [done|]. split; [cbn; lia|]. intros Hh. apply Ho', Ho, Hh.
    + wp_steps. apply wp_free_block. wp_steps. apply H2.
      * split; [cbn; lia|]. intros Hh. apply Ho', Ho, Hh.
      * intros Hh. by destruct (Ho' (proj2 (Ho Hh))).
  - wp_steps. apply H2.
    + split; [cbn; lia|]. intros Hh. by destruct (Ho Hh).
    + intros Hh. by destruct (Ho Hh).
Qed.

(** C35: messages round trip: [ct_message_new_with_content] stores exactly the
    given bytes, [ct_message_set_content] replaces them (any buffer other than
    the message's own) without leaking the old buffer, a deep copy has the
    same length and bytes, and freeing the message and its copy returns the
    heap to where it was; a failed allocation leaks nothing. *)
Theorem message_round_trip bs bs' h :
  (0 < length bs')%nat ->
  wp (m ← ct_message_new_with_content bs;
      m ← ct_message_set_content m (OtherBuffer (Some bs')) (length bs');
      c ← ct_message_deep_copy m;
      mret (m, c)) (fun '(m, c) h1 =>
    (oracle_ok h -> ct_message_get_content m = Some bs' /\ ct_message_get_length m = length bs' /\ c = m) /\
    wp (ct_message_free m ;; ct_message_free c) (fun _ h2 => h_live h2 = h_live h) h1) h.
Proof.
  intros Hlen. unfold ct_message_new_with_content, ct_message_new. wp_steps.
  assert (Hfree : forall m c h1, h_live h1 = h_live h + opt_msg_blocks m + opt_msg_blocks c ->
    wp (ct_message_free m ;; ct_message_free c) (fun _ h2 => h_live h2 = h_live h) h1).
  { intros m c h1 Hl. eapply wp_frees.
    - apply frees_bind; apply frees_message_opt.
    - cbn. lia. }
  apply wp_malloc. intros b o Ho. wp_steps. destruct b; cbn iota beta.
  2: { wp_steps. split; [intros Hh; by destruct (Ho Hh)|]. apply Hfree. cbn. lia. }
  wp_steps. apply wp_malloc. intros b o' Ho'. destruct b; cbn [negb].
  2: { wp_steps. apply wp_free_block. wp_steps. split.
       - intros Hh. by destruct (Ho' (proj2 (Ho Hh))).
       - apply Hfree. cbn. lia. }
  wp_steps. cbn [ct_message_set_content msg_content is_Some_b]. wp_steps. apply wp_when; [|done]. intros _. apply wp_free_block.
  rewrite bool_decide_false by lia. wp_steps. apply wp_malloc. intros b o'' Ho''.
  assert (Hok : oracle_ok h -> b = true /\ Forall (fun b => b = true) o'').
  { intros Hh. apply Ho'', Ho', Ho, Hh. }
  assert (Hwf : wf_message (Message (Some (take (length bs') bs')) (length bs'))).
  { unfold wf_message, content_bytes; cbn. rewrite firstn_all, (proj2 (Nat.leb_le _ _)) by lia. by eexists. }
  destruct b; cbn [negb]; wp_steps.
  - apply wp_message_deep_copy; [done|..].
    + intros c h' Hc [Hl _]. wp_steps. split.
      * intros _. cbn. unfold content_bytes in Hc; cbn in Hc. rewrite firstn_all in Hc |- *.
        rewrite (proj2 (Nat.leb_le _ _)), firstn_all in Hc by lia. injection Hc as <-. done.
      * apply Hfree. unfold opt_msg_blocks, msg_blocks. simpl in *. lia.
    + intros h' [Hl _] Hno. wp_steps. split.
      * intros Hh. destruct Hno. by apply Hok.
      * apply Hfree. unfold opt_msg_blocks, msg_blocks. simpl in *. lia.
  - apply wp_message_deep_copy; [by eexists|..].
    + intros c h' Hc [Hl _]. wp_steps. split; [intros Hh; by destruct (Hok Hh)|].
      apply Hfree. unfold opt_msg_blocks, msg_blocks. simpl in *. lia.
    + intros h' [Hl _] Hno. wp_steps. split; [intros Hh; by destruct (Hok Hh)|].
      apply Hfree. unfold opt_msg_blocks, msg_blocks. simpl in *. lia.
Qed.

Lemma message_round_trip_witness :
  wp (m ← ct_message_new_with_content [1; 2; 3];
      m ← ct_message_set_content m (OtherBuffer (Some [9])) 1;
      c ← ct_message_deep_copy m;
      mret (m, c)) (fun '(m, c) h1 =>
    (oracle_ok (Heap [true; true; false] 5) ->
       ct_message_get_content m = Some [9] /\ ct_message_get_length m = 1%nat /\ c = m) /\
    wp (ct_message_free m ;; ct_message_free c) (fun _ h2 => h_live h2 = 5) h1) (Heap [true; true; false] 5).
Proof. apply (message_round_trip [1; 2; 3] [9] (Heap [true; true; false] 5)). simpl. lia. Defined.
