(* ===== verification/Protocols.v ===== *)
(** The supported protocols and the ranking of candidates.

    Models the selection tables at the top of src/src/protocol/udp/udp.c,
    tcp/tcp.c and quic/quic.c, src/src/protocol/protocol_registry.c and
    common/protocol.c, and the protocol-level decisions of
    src/src/candidate_gathering/candidate_gathering.c: which protocols a
    preconnection's properties rule out and which interfaces, and the
    comparison function that orders the candidates. *)

From S2P Require Export Endpoint Properties.
Open Scope Z_scope.

(** ** Protocol implementations *)

(** [ct_protocol_enum_t] *)
Inductive ct_protocol_enum : Set := CT_PROTOCOL_TCP | CT_PROTOCOL_UDP | CT_PROTOCOL_QUIC.

#[export] Instance ct_protocol_enum_eq_dec : EqDecision ct_protocol_enum.
Proof. solve_decision. Defined.

(** The data of [ct_protocol_impl_t]; [pi_preference] is
    [selection_properties.list[p].value.simple_preference] (for the rows that
    have one).  The operations behind its function pointers are in the
    protocols' own files. *)
Record ct_protocol_impl := ProtocolImpl {
  pi_name : string;
  pi_enum : ct_protocol_enum;
  pi_supports_alpn : bool;
  pi_preference : sel_prop -> preference;
  pi_multipath : Z }.

Definition ct_protocol_supports_alpn (p : ct_protocol_impl) : bool := pi_supports_alpn p.

Definition udp_protocol_interface : ct_protocol_impl :=
  ProtocolImpl "UDP" CT_PROTOCOL_UDP false
    (fun p => match p with
     | RELIABILITY => PROHIBIT
     | PRESERVE_MSG_BOUNDARIES => REQUIRE
     | PER_MSG_RELIABILITY => PROHIBIT
     | PRESERVE_ORDER => PROHIBIT
     | ZERO_RTT_MSG => NO_PREFERENCE
     | MULTISTREAMING => PROHIBIT
     | FULL_CHECKSUM_SEND => REQUIRE
     | FULL_CHECKSUM_RECV => REQUIRE
     | CONGESTION_CONTROL => PROHIBIT
     | KEEP_ALIVE => NO_PREFERENCE
     | USE_TEMPORARY_LOCAL_ADDRESS => NO_PREFERENCE
     | ADVERTISES_ALT_ADDRESS => PROHIBIT
     | SOFT_ERROR_NOTIFY => NO_PREFERENCE
     | ACTIVE_READ_BEFORE_SEND => NO_PREFERENCE
     | INTERFACE | PVD | MULTIPATH | DIRECTION => NO_PREFERENCE
     end) CT_MULTIPATH_DISABLED.

Definition tcp_protocol_interface : ct_protocol_impl :=
  ProtocolImpl "TCP" CT_PROTOCOL_TCP false
    (fun p => match p with
     | RELIABILITY => REQUIRE
     | PRESERVE_MSG_BOUNDARIES => PROHIBIT
     | PER_MSG_RELIABILITY => PROHIBIT
     | PRESERVE_ORDER => REQUIRE
     | ZERO_RTT_MSG => NO_PREFERENCE
     | MULTISTREAMING => PROHIBIT
     | FULL_CHECKSUM_SEND => REQUIRE
     | FULL_CHECKSUM_RECV => REQUIRE
     | CONGESTION_CONTROL => REQUIRE
     | KEEP_ALIVE => NO_PREFERENCE
     | USE_TEMPORARY_LOCAL_ADDRESS => NO_PREFERENCE
     | ADVERTISES_ALT_ADDRESS => PROHIBIT
     | SOFT_ERROR_NOTIFY => NO_PREFERENCE
     | ACTIVE_READ_BEFORE_SEND => NO_PREFERENCE
     | INTERFACE | PVD | MULTIPATH | DIRECTION => NO_PREFERENCE
     end) CT_MULTIPATH_DISABLED.

Definition quic_protocol_interface : ct_protocol_impl :=
  ProtocolImpl "QUIC" CT_PROTOCOL_QUIC true
    (fun p => match p with
     | RELIABILITY => REQUIRE
     | PRESERVE_MSG_BOUNDARIES => PROHIBIT
     | PER_MSG_RELIABILITY => NO_PREFERENCE
     | PRESERVE_ORDER => REQUIRE
     | ZERO_RTT_MSG => NO_PREFERENCE
     | MULTISTREAMING => NO_PREFERENCE
     | FULL_CHECKSUM_SEND => REQUIRE
     | FULL_CHECKSUM_RECV => REQUIRE
     | CONGESTION_CONTROL => REQUIRE
     | KEEP_ALIVE => NO_PREFERENCE
     | USE_TEMPORARY_LOCAL_ADDRESS => NO_PREFERENCE
     | ADVERTISES_ALT_ADDRESS => NO_PREFERENCE
     | SOFT_ERROR_NOTIFY => NO_PREFERENCE
     | ACTIVE_READ_BEFORE_SEND => NO_PREFERENCE
     | INTERFACE | PVD | MULTIPATH | DIRECTION => NO_PREFERENCE
     end) CT_MULTIPATH_ACTIVE.

Definition ct_supported_protocols : list ct_protocol_impl :=
  [udp_protocol_interface; tcp_protocol_interface; quic_protocol_interface].
Definition ct_num_protocols : nat := length ct_supported_protocols.

(** ** Which protocols and interfaces remain *)

(** One iteration of the loop: the property rules the protocol out. *)
Definition property_conflict (protocol : ct_protocol_impl) (desired : ct_selection_properties) (i : sel_prop) : bool :=
  match sp_type (desired i), the_preference (sp_value (desired i)) with
  | TYPE_PREFERENCE, Some d =>
      (bool_decide (d = REQUIRE) && bool_decide (pi_preference protocol i = PROHIBIT)) ||
      (bool_decide (d = PROHIBIT) && bool_decide (pi_preference protocol i = REQUIRE))
  | _, _ => false
  end.

Definition protocol_implementation_supports_selection_properties (protocol : ct_protocol_impl)
    (selection_properties : ct_selection_properties) : bool :=
  (fix loop (l : list sel_prop) : bool :=
     match l with
     | [] => true
     | i :: l => if property_conflict protocol selection_properties i then false else loop l
     end) all_sel_props.

Definition get_generic_interface_type (system_interface_name : string) : option string :=
  if String.prefix "wl" system_interface_name then Some "Wi-Fi"
  else if String.prefix "en" system_interface_name then Some "Ethernet"
  else if bool_decide (system_interface_name = "lo") then Some "Loopback"
  else None.

(** The loop over the preference set: [strcmp] of a NULL name is undefined. *)
Fixpoint interface_loop {S} (interface_type : string) (l : list ct_preference_combination) : M S bool :=
  match l with
  | [] => mret true
  | c :: l =>
      key ← deref (cmb_value c) "strcmp with NULL";
      if bool_decide (key = interface_type) then
        if bool_decide (cmb_preference c = PROHIBIT) then mret false else interface_loop interface_type l
      else
        if bool_decide (cmb_preference c = REQUIRE) then mret false else interface_loop interface_type l
  end.

Definition interface_is_compatible {S} (interface_name : string) (t : ct_transport_properties) : M S bool :=
  preference_map ← deref (the_set (sp_value (selection_properties t INTERFACE))) "interface member";
  if bool_decide (num_combinations preference_map = 0%nat) then mret true
  else if bool_decide (interface_name = "any") then mret true
  else match get_generic_interface_type interface_name with
       | None => mret false
       | Some interface_type => interface_loop interface_type (combination_list preference_map)
       end.

(** ** Candidates and their order *)

(** [ct_protocol_candidate_t] *)
Record ct_protocol_candidate := ProtocolCandidate {
  pc_protocol_impl : ct_protocol_impl; pc_alpn : option string }.

(** The two counters after looking at property [i]. *)
Definition compare_step (desired : ct_selection_properties) (a b : ct_protocol_impl) (s : Z * Z) (i : sel_prop) : Z * Z :=
  let '(a_prefer_score, a_avoid_score) := s in
  match sp_type (desired i), the_preference (sp_value (desired i)) with
  | TYPE_PREFERENCE, Some PREFER =>
      let p := if bool_decide (pi_preference a i <> PROHIBIT) then a_prefer_score + 1 else a_prefer_score in
      let p := if bool_decide (pi_preference b i <> PROHIBIT) then p - 1 else p in
      (p, a_avoid_score)
  | TYPE_PREFERENCE, Some AVOID =>
      let v := if bool_decide (pi_preference a i <> REQUIRE) then a_avoid_score + 1 else a_avoid_score in
      let v := if bool_decide (pi_preference b i <> REQUIRE) then v - 1 else v in
      (a_prefer_score, v)
  | _, _ => s
  end.

Definition compare_prefer_and_avoid_preferences (desired : ct_selection_properties) (a b : ct_protocol_impl) : Z :=
  let '(a_prefer_score, a_avoid_score) := foldl (compare_step desired a b) (0, 0) all_sel_props in
  if negb (a_prefer_score =? 0) then - a_prefer_score else - a_avoid_score.

(** ** Facts *)

(** Specification: how many PREFERs (AVOIDs) a protocol can honour. *)
Definition honours_prefer (desired : ct_selection_properties) (a : ct_protocol_impl) (i : sel_prop) : bool :=
  match sp_type (desired i), the_preference (sp_value (desired i)) with
  | TYPE_PREFERENCE, Some PREFER => bool_decide (pi_preference a i <> PROHIBIT)
  | _, _ => false
  end.
Definition honours_avoid (desired : ct_selection_properties) (a : ct_protocol_impl) (i : sel_prop) : bool :=
  match sp_type (desired i), the_preference (sp_value (desired i)) with
  | TYPE_PREFERENCE, Some AVOID => bool_decide (pi_preference a i <> REQUIRE)
  | _, _ => false
  end.
Definition count (f : sel_prop -> bool) : Z := zsum ((fun i => b2z (f i)) <$> all_sel_props).
Definition prefer_score desired a := count (honours_prefer desired a).
Definition avoid_score desired a := count (honours_avoid desired a).

Lemma compare_step_counts desired a b s i :
  compare_step desired a b s i =
    (s.1 + b2z (honours_prefer desired a i) - b2z (honours_prefer desired b i),
     s.2 + b2z (honours_avoid desired a i) - b2z (honours_avoid desired b i)).
Proof.
  destruct s as [p v]. unfold compare_step, honours_prefer, honours_avoid; cbn.
  repeat case_match; cbn; f_equal; lia.
Qed.

Lemma compare_scores desired a b :
  foldl (compare_step desired a b) (0, 0) all_sel_props =
    (prefer_score desired a - prefer_score desired b, avoid_score desired a - avoid_score desired b).
Proof.
  assert (H : forall l s, foldl (compare_step desired a b) s l =
    (s.1 + zsum ((fun i => b2z (honours_prefer desired a i)) <$> l) - zsum ((fun i => b2z (honours_prefer desired b i)) <$> l),
     s.2 + zsum ((fun i => b2z (honours_avoid desired a i)) <$> l) - zsum ((fun i => b2z (honours_avoid desired b i)) <$> l))).
  { induction l as [|i l IH]; intros s; cbn [foldl].
    - destruct s. cbn. f_equal; lia.
    - rewrite IH, compare_step_counts, !fmap_cons, !zsum_cons. cbn [fst snd]. f_equal; lia. }
  rewrite H. done.
Qed.

(** The comparison is a total preorder. *)
Lemma compare_preorder desired a b c :
  let cmp := compare_prefer_and_avoid_preferences desired in
  cmp b a = - cmp a b /\ (cmp a b <= 0 -> cmp b c <= 0 -> cmp a c <= 0).
Proof.
  cbv zeta. unfold compare_prefer_and_avoid_preferences. rewrite !compare_scores.
  repeat match goal with |- context [negb (?x =? 0)] => destruct (Z.eqb_spec x 0) end; cbn [negb]; lia.
Qed.

(** C29: [compare_prefer_and_avoid_preferences] orders candidates
    lexicographically: first by the number of PREFERs the protocol does not
    prohibit, then by the number of AVOIDs it does not require, so that one
    missing PREFER outweighs any number of missing AVOIDs; it is antisymmetric
    and transitive, hence a valid comparison for a sort. *)
Theorem compare_lexicographic desired a b c :
  let cmp := compare_prefer_and_avoid_preferences desired in
  (cmp a b < 0 <-> prefer_score desired b < prefer_score desired a \/
     prefer_score desired a = prefer_score desired b /\ avoid_score desired b < avoid_score desired a) /\
  (cmp a b = 0 <-> prefer_score desired a = prefer_score desired b /\ avoid_score desired a = avoid_score desired b) /\
  cmp b a = - cmp a b /\
  (cmp a b <= 0 -> cmp b c <= 0 -> cmp a c <= 0).
Proof.
  cbv zeta. unfold compare_prefer_and_avoid_preferences. rewrite !compare_scores.
  generalize (prefer_score desired a) (prefer_score desired b) (prefer_score desired c)
    (avoid_score desired a) (avoid_score desired b) (avoid_score desired c). intros pa pb pc va vb vc.
  destruct (Z.eqb_spec (pa - pb) 0), (Z.eqb_spec (pb - pa) 0), (Z.eqb_spec (pb - pc) 0), (Z.eqb_spec (pa - pc) 0);
    cbn [negb]; lia.
Qed.

Lemma compare_lexicographic_witness :
  let cmp := compare_prefer_and_avoid_preferences DEFAULT_SELECTION_PROPERTIES in
  cmp quic_protocol_interface tcp_protocol_interface < 0 /\
  cmp quic_protocol_interface udp_protocol_interface <= 0.
Proof.
  split; [reflexivity|].
  apply (compare_lexicographic DEFAULT_SELECTION_PROPERTIES quic_protocol_interface tcp_protocol_interface
    udp_protocol_interface); vm_compute; congruence.
Defined.

Lemma supports_spec protocol l :
  protocol_implementation_supports_selection_properties protocol l = true <->
  forall i, property_conflict protocol l i = false.
Proof.
  unfold protocol_implementation_supports_selection_properties.
  assert (H : forall ps,
    (fix loop (ps : list sel_prop) : bool :=
       match ps with [] => true | i :: ps => if property_conflict protocol l i then false else loop ps end) ps = true
    <-> forall i, i ∈ ps -> property_conflict protocol l i = false).
  { induction ps as [|p ps IH]; [split; [intros _ i Hi; by apply not_elem_of_nil in Hi|done]|].
    destruct (property_conflict protocol l p) eqn:Hp.
    - split; [done|]. intros H. rewrite H in Hp by constructor. done.
    - rewrite IH. split; [|by intros H i Hi; apply H; constructor].
      intros H i [->|Hi]%elem_of_cons; auto. }
  rewrite H. split; [intros Hi i; apply Hi, all_sel_props_complete|auto].
Qed.

(** The README's client example: [ct_transport_properties_set_preserve_msg_boundaries(props, AVOID)]. *)
Definition readme_properties (l : ct_selection_properties) : ct_selection_properties :=
  upd l PRESERVE_MSG_BOUNDARIES (SelProp (sp_name (l PRESERVE_MSG_BOUNDARIES)) true TYPE_PREFERENCE (simple_preference AVOID)).

(** C28: the selection step is exactly the specified one: a protocol survives
    iff it prohibits nothing that is required and requires nothing that is
    prohibited.  With the default properties UDP is ruled out and QUIC ranks
    before TCP; and avoiding message boundaries, as the README does "to prefer
    TCP", does not change that order. *)
Theorem protocol_selection_spec protocol l :
  wf_selection l ->
  (protocol_implementation_supports_selection_properties protocol l = true <->
   forall i p, sp_value (l i) = simple_preference p ->
     ~ (p = REQUIRE /\ pi_preference protocol i = PROHIBIT) /\
     ~ (p = PROHIBIT /\ pi_preference protocol i = REQUIRE)) /\
  filter (fun p => protocol_implementation_supports_selection_properties p DEFAULT_SELECTION_PROPERTIES = true)
    ct_supported_protocols = [tcp_protocol_interface; quic_protocol_interface] /\
  compare_prefer_and_avoid_preferences DEFAULT_SELECTION_PROPERTIES quic_protocol_interface tcp_protocol_interface < 0 /\
  compare_prefer_and_avoid_preferences (readme_properties DEFAULT_SELECTION_PROPERTIES)
    quic_protocol_interface tcp_protocol_interface < 0.
Proof.
  intros Hwf. split; [|done].
  rewrite supports_spec. split.
  - intros H i p Hp. specialize (H i). unfold property_conflict in H. rewrite Hp in H.
    destruct (Hwf i) as [_ Hm]. rewrite Hp in Hm. destruct (sp_type (l i)); try done. cbn in H.
    apply orb_false_iff in H as [H1 H2]. apply andb_false_iff in H1, H2. rewrite !bool_decide_eq_false in H1, H2.
    tauto.
  - intros H i. unfold property_conflict. destruct (sp_type (l i)); try done.
    destruct (sp_value (l i)) as [p| | |] eqn:Hp; try done. cbn.
    destruct (H i p Hp) as [H1 H2].
    apply orb_false_iff. rewrite !andb_false_iff, !bool_decide_eq_false.
    destruct (decide (p = REQUIRE)), (decide (p = PROHIBIT)); tauto.
Qed.

Lemma protocol_selection_spec_witness :
  wf_selection DEFAULT_SELECTION_PROPERTIES /\
  protocol_implementation_supports_selection_properties quic_protocol_interface DEFAULT_SELECTION_PROPERTIES = true.
Proof.
  split; [exact wf_default_selection|].
  apply (protocol_selection_spec quic_protocol_interface DEFAULT_SELECTION_PROPERTIES wf_default_selection).
  intros [] p; cbn; intros [= <-]; split; intros [? ?]; congruence.
Defined.

(** Whether an interface type may be used under a set of preferences. *)
Definition type_allowed (interface_type : string) (l : list ct_preference_combination) : Prop :=
  forall c v, c ∈ l -> cmb_value c = Some v ->
    (v = interface_type -> cmb_preference c <> PROHIBIT) /\
    (v <> interface_type -> cmb_preference c <> REQUIRE).

Lemma interface_loop_spec {S} ty l (s : S) :
  Forall (fun c => is_Some (cmb_value c)) l ->
  exists b, interface_loop ty l s = Ok (b, s) /\ (b = true <-> type_allowed ty l).
Proof.
  induction 1 as [|c l [v Hv] _ IH]; cbn [interface_loop].
  - exists true. split; [done|]. split; [|done]. intros _ c v Hc. by apply not_elem_of_nil in Hc.
  - rewrite Hv. unfold deref, mbind, M_bind; cbn.
    assert (Hno : forall P : Prop, P -> (type_allowed ty (c :: l) -> ~ P) ->
        exists b, Ok (false, s) = Ok (b, s) /\ (b = true <-> type_allowed ty (c :: l))).
    { intros P HP Hn. exists false. split; [done|]. split; [done|]. intros H. by destruct (Hn H). }
    assert (Hyes : ((v = ty -> cmb_preference c <> PROHIBIT) /\ (v <> ty -> cmb_preference c <> REQUIRE)) ->
        exists b, interface_loop ty l s = Ok (b, s) /\ (b = true <-> type_allowed ty (c :: l))).
    { intros Hc. destruct IH as (b & -> & Hb). exists b. split; [done|]. rewrite Hb. split.
      - intros H c' v' [->|Hc']%elem_of_cons Hv'; [|by eapply H].
        rewrite Hv in Hv'. by injection Hv' as <-.
      - intros H c' v' Hc'. apply H. by constructor. }
    case_bool_decide as Ht; case_bool_decide as Hp.
    + apply (Hno (cmb_preference c = PROHIBIT)); [done|]. intros H. by apply (H c v); [constructor|..].
    + apply Hyes. done.
    + apply (Hno (cmb_preference c = REQUIRE)); [done|]. intros H. by apply (H c v); [constructor|..].
    + apply Hyes. done.
Qed.

Lemma interface_is_compatible_iff {S} name t (s : S) :
  wf_selection (selection_properties t) -> sets_ok (selection_properties t) ->
  exists set b, sp_value (selection_properties t INTERFACE) = preference_set_val set /\
    interface_is_compatible name t s = Ok (b, s) /\
    (b = true <-> combination_list set = [] \/ name = "any" \/
       exists ty, get_generic_interface_type name = Some ty /\ type_allowed ty (combination_list set)).
Proof.
  intros Hwf Hok. destruct (wf_selection_set _ INTERFACE Hwf) as (set & Hset & _); [by left|].
  pose proof (Hok _ _ Hset) as Hnn. exists set.
  unfold interface_is_compatible. rewrite Hset. unfold deref, mbind, M_bind; cbn.
  unfold num_combinations. case_bool_decide as Hn.
  { exists true. split_and!; [done..|]. split; [|done]. intros _. left. by apply length_zero_iff_nil. }
  case_bool_decide as Hany.
  { exists true. split_and!; [done..|]. split; [|done]. intros _. right. by left. }
  destruct (get_generic_interface_type name) as [ty|].
  - destruct (interface_loop_spec ty (combination_list set) s Hnn) as (b & Hb & Hspec).
    exists b. split_and!; [done|done|]. rewrite Hspec. split; [intros H; right; right; by exists ty|].
    intros [H|[H|(ty' & [= <-] & H)]]; [by rewrite H in Hn|done|done].
  - exists false. split_and!; [done..|]. split; [done|].
    intros [H|[H|(ty' & ? & H)]]; [by rewrite H in Hn|done|done].
Qed.

(** [interface_is_compatible] on well-formed preferences: with no
    preferences, or for the interface "any", every interface is usable;
    otherwise the interface's generic type (Wi-Fi, Ethernet, Loopback) must
    be known, must not be prohibited, and no other name may be required. *)
Theorem interface_is_compatible_spec {S} name t (s : S) :
  wf_selection (selection_properties t) -> sets_ok (selection_properties t) ->
  exists set b, sp_value (selection_properties t INTERFACE) = preference_set_val set /\
    interface_is_compatible name t s = Ok (b, s) /\
    (b = true <-> combination_list set = [] \/ name = "any" \/
       exists ty, get_generic_interface_type name = Some ty /\ type_allowed ty (combination_list set)).
Proof. apply interface_is_compatible_iff. Qed.

Lemma interface_is_compatible_spec_witness :
  let t := update_sel (TransportProperties DEFAULT_SELECTION_PROPERTIES DEFAULT_CONNECTION_PROPERTIES) INTERFACE true
    (preference_set_val (PreferenceSet (Some [Combination (Some "Wi-Fi") REQUIRE]))) in
  exists set b, sp_value (selection_properties t INTERFACE) = preference_set_val set /\
    interface_is_compatible "en0" t tt = Ok (b, tt) /\ b = false.
Proof.
  destruct (interface_is_compatible_spec "en0"
    (update_sel (TransportProperties DEFAULT_SELECTION_PROPERTIES DEFAULT_CONNECTION_PROPERTIES) INTERFACE true
      (preference_set_val (PreferenceSet (Some [Combination (Some "Wi-Fi") REQUIRE])))) tt)
    as (set & b & H1 & H2 & _).
  - apply wf_selection_upd; [exact wf_default_selection|reflexivity].
  - intros p q. destruct p; cbn; intros [= <-]; repeat constructor. by eexists.
  - exists set, b. split; [exact H1|]. split; [exact H2|]. vm_compute in H2. by injection H2 as <-.
Defined.
