(* ===== verification/Candidates.v ===== *)
(** Candidate gathering.

    Models src/src/candidate_gathering/candidate_gathering.c and the DNS
    functions of src/src/endpoint/util.c: building the candidate tree (root,
    paths, protocols, endpoints), asynchronous name resolution with the
    counter of pending resolutions, pruning, collecting and ordering the
    candidates.  The tree is a store of nodes that point to their parent, in
    creation order; GLib's traversals and sort and libuv's name resolution
    are parameters. *)

From S2P Require Export Protocols Security.
From Stdlib Require Import Sorted.

(** ** Data *)

(** [ct_node_type_enum_t] *)
Inductive node_type : Set := NODE_TYPE_ROOT | NODE_TYPE_PATH | NODE_TYPE_PROTOCOL | NODE_TYPE_ENDPOINT.

#[export] Instance node_type_eq_dec : EqDecision node_type.
Proof. solve_decision. Defined.

(** [ct_candidate_node_t]; the transport properties are those of the
    preconnection, which the gathering only reads. *)
Record ct_candidate_node := CandidateNode {
  cn_type : node_type;
  cn_local_endpoint : option ct_local_endpoint;
  cn_remote_endpoint : option ct_remote_endpoint;
  cn_protocol_candidate : option ct_protocol_candidate }.

(** [GNode]: identity, parent and the data pointer (NULL when the node's data
    could not be allocated). *)
Record gnode := GNode { gn_id : nat; gn_parent : option nat; gn_data : option ct_candidate_node }.

(** [ct_remote_resolve_call_context_t] *)
Record resolve_context := ResolveContext { rc_parent_node : nat; rc_assigned_port : Z }.

(** [ct_preconnection_t], the parts that gathering reads. *)
Record gather_input := GatherInput {
  gi_transport_properties : ct_transport_properties;
  gi_security_parameters : option ct_security_parameters;
  gi_local_endpoints : list ct_local_endpoint;
  gi_remote_endpoints : list ct_remote_endpoint }.

(** [ct_gather_context_t] and what surrounds it: the heap, the tree (with
    the next fresh node), the live resolve contexts, the DNS requests that
    libuv holds (with the name being looked up), the calls made to [candidate_node_array_ready_cb] ([None]:
    with NULL) and whether the context has been freed. *)
Record gather := Gather {
  g_heap : heap;
  g_next_node : nat;
  g_nodes : list gnode;
  g_root_node : option nat;
  g_pending_resolutions : Z;
  g_num_in_flight : Z;
  g_failed : bool;
  g_local_only : bool;
  g_context_freed : bool;
  g_contexts : gmap nat resolve_context;
  g_next_context : nat;
  g_dns_requests : list (nat * string);
  g_calls : list (option (list ct_candidate_node)) }.

Definition eta_g (g : gather) :=
  Gather (g_heap g) (g_next_node g) (g_nodes g) (g_root_node g) (g_pending_resolutions g)
    (g_num_in_flight g) (g_failed g) (g_local_only g) (g_context_freed g) (g_contexts g)
    (g_next_context g) (g_dns_requests g) (g_calls g).
Definition set_g_heap v g : gather := ltac:(set_field eta_g g_heap v g).
Definition set_g_next_node v g : gather := ltac:(set_field eta_g g_next_node v g).
Definition set_g_nodes v g : gather := ltac:(set_field eta_g g_nodes v g).
Definition set_g_root_node v g : gather := ltac:(set_field eta_g g_root_node v g).
Definition set_g_pending_resolutions v g : gather := ltac:(set_field eta_g g_pending_resolutions v g).
Definition set_g_num_in_flight v g : gather := ltac:(set_field eta_g g_num_in_flight v g).
Definition set_g_failed v g : gather := ltac:(set_field eta_g g_failed v g).
Definition set_g_context_freed v g : gather := ltac:(set_field eta_g g_context_freed v g).
Definition set_g_contexts v g : gather := ltac:(set_field eta_g g_contexts v g).
Definition set_g_next_context v g : gather := ltac:(set_field eta_g g_next_context v g).
Definition set_g_dns_requests v g : gather := ltac:(set_field eta_g g_dns_requests v g).
Definition set_g_calls v g : gather := ltac:(set_field eta_g g_calls v g).

(** Heap computations over the gathering state. *)
Definition heaped {A} (m : M heap A) : M gather A := zoom g_heap set_g_heap m.

(** Any access to [gather_context]. *)
Definition use_context : M gather unit :=
  g ← get; assert_ (negb (g_context_freed g)) "gather context used after free".

Definition free_gather_context : M gather unit :=
  g ← get;
  assert_ (negb (g_context_freed g)) "double free of the gather context" ;;
  heaped free_block ;;
  modify (set_g_context_freed true).

(** ** Protocol candidates and nodes *)

Definition ct_protocol_candidate_new (protocol_impl : option ct_protocol_impl) (alpn : option string) :
    M heap (option ct_protocol_candidate) :=
  ok ← malloc;
  if negb ok then mret None else
  match protocol_impl with
  | None => free_block ;; mret None
  | Some impl =>
      a ← strdup_opt alpn;
      if is_Some_b alpn && negb (is_Some_b a) then free_block ;; mret None
      else mret (Some (ProtocolCandidate impl a))
  end.

Definition ct_protocol_candidate_free (p : option ct_protocol_candidate) : M heap unit :=
  match p with
  | None => mret tt
  | Some p => free_string (pc_alpn p) ;; free_block
  end.

Definition ct_protocol_candidate_copy (p : option ct_protocol_candidate) : M heap (option ct_protocol_candidate) :=
  match p with
  | None => mret None
  | Some p => ct_protocol_candidate_new (Some (pc_protocol_impl p)) (pc_alpn p)
  end.

(** The copy of the protocol candidate is not checked. *)
Definition candidate_node_new (type : node_type) (local_ep : option ct_local_endpoint)
    (remote_ep : option ct_remote_endpoint) (proto : option ct_protocol_candidate) :
    M heap (option ct_candidate_node) :=
  ok ← malloc;
  if negb ok then mret None else
  l ← ct_local_endpoint_deep_copy local_ep;
  if is_Some_b local_ep && negb (is_Some_b l) then free_block ;; mret None else
  r ← match remote_ep with Some r => ct_remote_endpoint_deep_copy r | None => mret None end;
  if is_Some_b remote_ep && negb (is_Some_b r)
  then ct_local_endpoint_free l ;; free_block ;; mret None
  else
    p ← ct_protocol_candidate_copy proto;
    mret (Some (CandidateNode type l r p)).

Definition ct_candidate_node_copy (n : option ct_candidate_node) : M heap (option ct_candidate_node) :=
  match n with
  | None => mret None
  | Some n => candidate_node_new (cn_type n) (cn_local_endpoint n) (cn_remote_endpoint n) (cn_protocol_candidate n)
  end.

(** The contents of one node, without the node itself: [free_candidate_array]. *)
Definition free_candidate_content (n : ct_candidate_node) : M heap unit :=
  ct_local_endpoint_free (cn_local_endpoint n) ;;
  when (is_Some_b (cn_remote_endpoint n)) (ct_remote_endpoint_free (cn_remote_endpoint n)) ;;
  ct_protocol_candidate_free (cn_protocol_candidate n).

(** The array itself is GLib's. *)
Definition free_candidate_array (candidate_array : list ct_candidate_node) : M heap unit :=
  for_each candidate_array free_candidate_content.

(** ** The tree *)

Definition find_node (l : list gnode) (i : nat) : option gnode :=
  list_find (fun n => gn_id n = i) l ≫= fun p => Some p.2.

Definition has_child (l : list gnode) (i : nat) : bool :=
  existsb (fun n => bool_decide (gn_parent n = Some i)) l.

(** The subtree below node [i]: parents precede their children. *)
Definition subtree_ids (l : list gnode) (i : nat) : list nat :=
  foldl (fun acc n => match gn_parent n with
                      | Some p => if bool_decide (p ∈ acc) then acc ++ [gn_id n] else acc
                      | None => acc
                      end) [i] l.

(** Depth of a node: the length of its chain of parents. *)
Fixpoint depth_in (l : list gnode) (fuel : nat) (i : nat) : nat :=
  match fuel with
  | O => 0%nat
  | Datatypes.S fuel =>
      match find_node l i ≫= gn_parent with
      | Some p => Datatypes.S (depth_in l fuel p)
      | None => 0%nat
      end
  end.
Definition depth (l : list gnode) (i : nat) : nat := depth_in l (length l) i.

Definition g_node_append_data (parent : option nat) (data : option ct_candidate_node) : M gather nat :=
  g ← get;
  put (set_g_next_node (Datatypes.S (g_next_node g))
        (set_g_nodes (g_nodes g ++ [GNode (g_next_node g) parent data]) g)) ;;
  mret (g_next_node g).

(** A GNode pointer and the data it points to. *)
Definition node_at (i : nat) : M gather gnode :=
  g ← get; deref (find_node (g_nodes g) i) "GNode used after free".
Definition data_at (i : nat) : M gather ct_candidate_node :=
  n ← node_at i; deref (gn_data n) "NULL node data".

Inductive traverse_flags := G_TRAVERSE_LEAVES | G_TRAVERSE_NON_LEAVES | G_TRAVERSE_ALL.
Inductive traverse_order := G_IN_ORDER | G_LEVEL_ORDER.

Definition flag_selects (f : traverse_flags) (l : list gnode) (i : nat) : bool :=
  match f with
  | G_TRAVERSE_LEAVES => negb (has_child l i)
  | G_TRAVERSE_NON_LEAVES => has_child l i
  | G_TRAVERSE_ALL => true
  end.

(** Calling [f] on the visited nodes until it asks to stop. *)
Fixpoint visit {S} (l : list nat) (f : nat -> M S bool) : M S unit :=
  match l with
  | [] => mret tt
  | i :: l => stop ← f i; if stop : bool then mret tt else visit l f
  end.

Section gathering.
(** GLib's traversal of the subtree of a node, its stable sort, the
    system's interfaces and service database, and the immediate result of
    [uv_getaddrinfo]. *)
Context (g_node_traverse_order : traverse_order -> traverse_flags -> list gnode -> nat -> list nat).
Context (g_array_sort_with_data : (ct_candidate_node -> ct_candidate_node -> Z) ->
           list ct_candidate_node -> list ct_candidate_node).
Context (uv_interface_addresses : Z * list (string * sockaddr)).
Context (getaddrinfo : string -> Z * list (Z * sockaddr)).
Context (uv_getaddrinfo : string -> Z).
Context (precon : gather_input).

Definition g_node_traverse (root : nat) (order : traverse_order) (flags : traverse_flags)
    (f : nat -> M gather bool) : M gather unit :=
  g ← get; visit (g_node_traverse_order order flags (g_nodes g) root) f.

(** [free_data_in_tree_node_and_children] *)
Definition free_data_in_tree_node_and_children (node : nat) : M gather bool :=
  d ← data_at node;
  heaped (when (is_Some_b (cn_local_endpoint d)) (ct_local_endpoint_free (cn_local_endpoint d)) ;;
          when (is_Some_b (cn_remote_endpoint d)) (ct_remote_endpoint_free (cn_remote_endpoint d)) ;;
          ct_protocol_candidate_free (cn_protocol_candidate d) ;;
          free_block) ;;
  mret false.

(** Unlinking and destroying a subtree: its nodes are gone. *)
Definition g_node_destroy (node : nat) : M gather unit :=
  modify (fun g => set_g_nodes
    (filter (fun n => gn_id n ∉ subtree_ids (g_nodes g) node) (g_nodes g)) g).

(** *** Pruning *)

(** The three gathering callbacks; the list of undesirable nodes is their
    accumulator. *)
Definition append_node (acc : list nat) (i : nat) (b : bool) : list nat := if b then acc ++ [i] else acc.

Fixpoint visit_collect (l : list nat) (f : nat -> M gather (bool * bool)) (acc : list nat) : M gather (list nat) :=
  match l with
  | [] => mret acc
  | i :: l =>
      '(undesirable, stop) ← f i;
      let acc := append_node acc i undesirable in
      if stop : bool then mret acc else visit_collect l f acc
  end.

Definition traverse_collect (root : nat) (order : traverse_order) (flags : traverse_flags)
    (f : nat -> M gather (bool * bool)) (acc : list nat) : M gather (list nat) :=
  g ← get; visit_collect (g_node_traverse_order order flags (g_nodes g) root) f acc.

(** Each callback returns whether the node is undesirable and whether the
    traversal stops. *)
Definition gather_incompatible_path_nodes (node : nat) : M gather (bool * bool) :=
  d ← data_at node;
  match cn_type d with
  | NODE_TYPE_ROOT => mret (false, false)
  | NODE_TYPE_PATH =>
      l ← deref (cn_local_endpoint d) "local endpoint of a PATH node";
      ok ← interface_is_compatible (default "any" (ct_local_endpoint_get_interface_name l))
             (gi_transport_properties precon);
      mret (negb ok, false)
  | _ => mret (false, true)
  end.

Definition gather_incompatible_endpoint_nodes (node : nat) : M gather (bool * bool) :=
  d ← data_at node;
  match cn_type d with
  | NODE_TYPE_ROOT | NODE_TYPE_PATH | NODE_TYPE_PROTOCOL => mret (false, false)
  | NODE_TYPE_ENDPOINT =>
      if negb (ct_address_families_match (cn_local_endpoint d) (cn_remote_endpoint d)) then mret (true, false)
      else
        l ← deref (cn_local_endpoint d) "local endpoint of an ENDPOINT node";
        mret (negb (ct_address_is_wildcard (le_resolved_address l) ||
                    ct_address_scope_match (cn_local_endpoint d) (cn_remote_endpoint d)), false)
  end.

Definition gather_incompatible_protocol_nodes (node : nat) : M gather (bool * bool) :=
  d ← data_at node;
  match cn_type d with
  | NODE_TYPE_ROOT | NODE_TYPE_PATH => mret (false, false)
  | NODE_TYPE_ENDPOINT => mret (false, true)
  | NODE_TYPE_PROTOCOL =>
      p ← deref (cn_protocol_candidate d) "protocol candidate of a PROTOCOL node";
      mret (negb (protocol_implementation_supports_selection_properties (pc_protocol_impl p)
                    (selection_properties (gi_transport_properties precon))), false)
  end.

Definition remove_nodes_from_tree (undesirable_nodes : list nat) : M gather unit :=
  for_each undesirable_nodes (fun node =>
    node_at node ;;
    g_node_traverse node G_IN_ORDER G_TRAVERSE_ALL free_data_in_tree_node_and_children ;;
    g_node_destroy node).

Definition prune_candidate_tree (root : nat) : M gather unit :=
  acc ← traverse_collect root G_LEVEL_ORDER G_TRAVERSE_ALL gather_incompatible_endpoint_nodes [];
  acc ← traverse_collect root G_LEVEL_ORDER G_TRAVERSE_ALL gather_incompatible_protocol_nodes acc;
  acc ← traverse_collect root G_LEVEL_ORDER G_TRAVERSE_NON_LEAVES gather_incompatible_path_nodes acc;
  remove_nodes_from_tree acc.

(** *** Completion *)

(** Comparison of two candidates, through their protocols. *)
Definition compare_candidates (a b : ct_candidate_node) : Z :=
  match cn_protocol_candidate a, cn_protocol_candidate b with
  | Some p, Some q =>
      compare_prefer_and_avoid_preferences (selection_properties (gi_transport_properties precon))
        (pc_protocol_impl p) (pc_protocol_impl q)
  | _, _ => 0
  end.

(** The copies of the leaves of the wanted type, in visiting order.  The
    node that holds the copy is freed after its contents were moved to the
    array; a failed copy is dereferenced. *)
Fixpoint get_deep_copy_leaf_nodes (l : list nat) (acc : list ct_candidate_node) : M gather (list ct_candidate_node) :=
  match l with
  | [] => mret acc
  | i :: l =>
      d ← data_at i;
      use_context ;;
      g ← get;
      let wanted := if g_local_only g then NODE_TYPE_PROTOCOL else NODE_TYPE_ENDPOINT in
      if negb (bool_decide (cn_type d = wanted)) then get_deep_copy_leaf_nodes l acc
      else
        c ← heaped (ct_candidate_node_copy (Some d));
        c ← deref c "NULL candidate node copy";
        heaped free_block ;;
        get_deep_copy_leaf_nodes l (acc ++ [c])
  end.

Definition candidate_node_array_ready_cb (a : option (list ct_candidate_node)) : M gather unit :=
  modify (fun g => set_g_calls (g_calls g ++ [a]) g).

(** Sorting, and printing the first candidate, read the protocol of every
    candidate. *)
Definition build_candidate_tree_is_complete_cb : M gather unit :=
  use_context ;;
  g ← get;
  if g_failed g then candidate_node_array_ready_cb None ;; free_gather_context
  else
    root ← deref (g_root_node g) "NULL root node";
    prune_candidate_tree root ;;
    g ← get;
    root_array ← get_deep_copy_leaf_nodes
                   (g_node_traverse_order G_IN_ORDER G_TRAVERSE_LEAVES (g_nodes g) root) [];
    g_node_traverse root G_IN_ORDER G_TRAVERSE_ALL free_data_in_tree_node_and_children ;;
    g_node_destroy root ;;
    for_each root_array (fun c => deref (cn_protocol_candidate c) "NULL protocol candidate" ;; mret tt) ;;
    let sorted := g_array_sort_with_data compare_candidates root_array in
    candidate_node_array_ready_cb (Some sorted) ;;
    free_gather_context.

(** *** Remote endpoints *)

Definition context_at (ctx : nat) : M gather resolve_context :=
  g ← get; deref (g_contexts g !! ctx) "resolve context used after free".

Definition ct_remote_resolve_call_context_free (ctx : nat) : M gather unit :=
  context_at ctx ;;
  heaped free_block ;;
  modify (fun g => set_g_contexts (delete ctx (g_contexts g)) g).

Definition ct_remote_resolve_call_context_new (parent : nat) : M gather (option nat) :=
  ok ← heaped malloc;
  if negb ok then mret None else
  g ← get;
  put (set_g_next_context (Datatypes.S (g_next_context g))
        (set_g_contexts (<[g_next_context g := ResolveContext parent 0]> (g_contexts g)) g)) ;;
  mret (Some (g_next_context g)).

(** The leaf nodes added by the completion of one resolution; a failed
    [candidate_node_new] appends a node with NULL data. *)
Definition append_endpoint (parent : nat) (d : ct_candidate_node) (r : ct_remote_endpoint) : M gather unit :=
  n ← heaped (candidate_node_new NODE_TYPE_ENDPOINT (cn_local_endpoint d) (Some r) (cn_protocol_candidate d));
  g_node_append_data (Some parent) n ;; mret tt.

(** [remote_endpoint] is NULL or a block of its own, which is freed; the
    strings in it belong to the preconnection. *)
Definition ct_remote_endpoint_resolve_cb (remote_endpoint : option (list ct_remote_endpoint)) (ctx : nat) : M gather unit :=
  context ← context_at ctx;
  d ← data_at (rc_parent_node context);
  for_each (default [] remote_endpoint) (append_endpoint (rc_parent_node context) d) ;;
  heaped (when (is_Some_b remote_endpoint) free_block) ;;
  use_context ;;
  modify (fun g => set_g_pending_resolutions (u64 (g_pending_resolutions g - 1))
                     (set_g_num_in_flight (u64 (g_num_in_flight g - 1)) g)) ;;
  g ← get;
  when (g_pending_resolutions g =? 0) build_candidate_tree_is_complete_cb ;;
  ct_remote_resolve_call_context_free ctx.

(** [ct_perform_dns_lookup] (util.c) *)
Definition ct_perform_dns_lookup (ctx : nat) (hostname : string) (service : option string) : M gather Z :=
  ok ← heaped malloc;
  if negb ok then mret (- ENOMEM) else
  let rc := uv_getaddrinfo hostname in
  if rc <? 0 then heaped free_block ;; mret rc
  else modify (fun g => set_g_dns_requests (g_dns_requests g ++ [(ctx, hostname)]) g) ;; mret 0.

Definition set_assigned_port (ctx : nat) (port : Z) : M gather unit :=
  c ← context_at ctx;
  modify (fun g => set_g_contexts (<[ctx := ResolveContext (rc_parent_node c) port]> (g_contexts g)) g).

Definition ct_branch_by_remote (parent : nat) (remote_ep : ct_remote_endpoint) (ctx : nat) : M gather Z :=
  d ← data_at parent;
  assert_ (bool_decide (cn_type d = NODE_TYPE_PROTOCOL)) "assert: PROTOCOL node" ;;
  ct_remote_endpoint_resolve getaddrinfo (heaped malloc) (set_assigned_port ctx)
    (ct_perform_dns_lookup ctx) (fun l => ct_remote_endpoint_resolve_cb (Some l) ctx) remote_ep.

(** The list built from the results of a lookup; [None] when a [realloc]
    failed, with the partial list freed. *)
Fixpoint dns_list (assigned_port : Z) (res : list (Z * sockaddr)) (out : list ct_remote_endpoint) :
    M heap (option (list ct_remote_endpoint)) :=
  match res with
  | [] => mret (Some out)
  | r :: res =>
      match dns_endpoint assigned_port r with
      | None => dns_list assigned_port res out
      | Some e =>
          ok ← realloc (bool_decide (out = []));
          if negb ok then when (negb (bool_decide (out = []))) free_block ;; mret None
          else dns_list assigned_port res (out ++ [e])
      end
  end.

(** [on_uv_getaddrinfo_cb]: the completion of the request of [ctx].  The
    error branch logs the hostname of the remote endpoint of the parent
    node, which is a PROTOCOL node and has none. *)
Definition on_uv_getaddrinfo_cb (ctx : nat) (status : Z) (res : list (Z * sockaddr)) : M gather unit :=
  modify (fun g => set_g_dns_requests (filter (fun r => r.1 <> ctx) (g_dns_requests g)) g) ;;
  context ← context_at ctx;
  parent_data ← data_at (rc_parent_node context);
  if status <? 0 then
    deref (cn_remote_endpoint parent_data) "NULL remote endpoint in the error message" ;;
    ct_remote_endpoint_resolve_cb None ctx ;;
    heaped free_block
  else
    out ← heaped (dns_list (rc_assigned_port context) res []);
    match out with
    | None => ct_remote_endpoint_resolve_cb None ctx ;; heaped free_block
    | Some out =>
        ct_remote_endpoint_resolve_cb (if bool_decide (out = []) then None else Some out) ctx ;;
        heaped free_block
    end.

(** *** Building the tree *)

(** The PATH children of [parent]. *)
Fixpoint add_path_nodes (parent : nat) (todo : list ct_local_endpoint) : M gather Z :=
  match todo with
  | [] => mret 0
  | e :: todo =>
      n ← heaped (candidate_node_new NODE_TYPE_PATH (Some e) None None);
      match n with
      | None => mret (- ENOMEM)
      | Some n => g_node_append_data (Some parent) (Some n) ;; add_path_nodes parent todo
      end
  end.

Definition ct_branch_by_path (parent : nat) (local_ep : ct_local_endpoint) : M gather Z :=
  d ← data_at parent;
  assert_ (bool_decide (cn_type d = NODE_TYPE_ROOT)) "assert: ROOT node" ;;
  found ← heaped (ct_local_endpoint_resolve getaddrinfo uv_interface_addresses local_ep);
  let l := default [] found in
  rc ← add_path_nodes parent l;
  heaped (ct_local_endpoints_free (negb (is_Some_b found)) l) ;;
  mret rc.

(** One PROTOCOL child. *)
Definition add_protocol_node (parent : nat) (d : ct_candidate_node) (impl : ct_protocol_impl) (alpn : option string) :
    M gather Z :=
  candidate ← heaped (ct_protocol_candidate_new (Some impl) alpn);
  match candidate with
  | None => mret (-1)
  | Some c =>
      n ← heaped (candidate_node_new NODE_TYPE_PROTOCOL (cn_local_endpoint d) None (Some c));
      heaped (ct_protocol_candidate_free (Some c)) ;;
      match n with
      | None => mret (-1)
      | Some n => g_node_append_data (Some parent) (Some n) ;; mret 0
      end
  end.

(** The children a protocol contributes: one per ALPN, or a single one. *)
Definition protocol_alpns (alpns : list (option string)) (impl : ct_protocol_impl) : list (option string) :=
  if ct_protocol_supports_alpn impl && (0 <? length alpns)%nat then alpns else [None].

Fixpoint add_protocol_nodes (parent : nat) (d : ct_candidate_node) (l : list (ct_protocol_impl * option string)) :
    M gather Z :=
  match l with
  | [] => mret 0
  | (impl, alpn) :: l =>
      rc ← add_protocol_node parent d impl alpn;
      if negb (rc =? 0) then mret rc else add_protocol_nodes parent d l
  end.

(** The nested loops over the supported protocols and the ALPNs. *)
Definition protocol_combinations (alpns : list (option string)) : list (ct_protocol_impl * option string) :=
  mjoin ((fun impl => pair impl <$> protocol_alpns alpns impl) <$> ct_supported_protocols).

Definition branch_by_protocol_options (parent : nat) (alpns : list (option string)) : M gather Z :=
  d ← data_at parent;
  assert_ (bool_decide (cn_type d = NODE_TYPE_PATH)) "assert: PATH node" ;;
  add_protocol_nodes parent d (protocol_combinations alpns).

(** [ct_protocol_options_new]: the ALPN strings of the security parameters. *)
Definition ct_protocol_options_new : M heap (option (list (option string))) :=
  ok ← malloc;
  if negb ok then mret None else
  match gi_security_parameters precon with
  | None => mret (Some [])
  | Some sec =>
      '(arr, n) ← ct_security_parameters_get_alpns (Some sec);
      match n with
      | Some (Datatypes.S n) =>
          l ← load arr;
          assert_ (Datatypes.S n <=? length l)%nat "index out of bounds" ;;
          mret (Some ((fun p => match p with Ptr s => Some s | _ => None end) <$> take (Datatypes.S n) l))
      | _ => mret (Some [])
      end
  end.

Definition ct_protocol_options_free (o : option (list (option string))) : M heap unit :=
  when (is_Some_b o) free_block.

Definition free_tree (root : nat) : M gather unit :=
  g_node_traverse root G_IN_ORDER G_TRAVERSE_ALL free_data_in_tree_node_and_children ;;
  g_node_destroy root.

Fixpoint branch_all_by_path (root : nat) (l : list ct_local_endpoint) : M gather Z :=
  match l with
  | [] => mret 0
  | e :: l => rc ← ct_branch_by_path root e; if negb (rc =? 0) then mret rc else branch_all_by_path root l
  end.

(** What both error exits of the remote loop do before returning. *)
Definition fail_gathering : M gather unit :=
  modify (fun g => set_g_pending_resolutions (g_num_in_flight g) (set_g_failed true g)) ;;
  g ← get;
  when (g_pending_resolutions g =? 0) build_candidate_tree_is_complete_cb.

Fixpoint branch_all_by_remote (l : list (nat * ct_remote_endpoint)) : M gather Z :=
  match l with
  | [] => mret 0
  | (leaf_node, remote) :: l =>
      context ← ct_remote_resolve_call_context_new leaf_node;
      use_context ;;
      match context with
      | None => fail_gathering ;; mret (- ENOMEM)
      | Some ctx =>
          modify (fun g => set_g_num_in_flight (u64 (g_num_in_flight g + 1)) g) ;;
          rc ← ct_branch_by_remote leaf_node remote ctx;
          if negb (rc =? 0) then
            use_context ;;
            modify (fun g => set_g_num_in_flight (u64 (g_num_in_flight g - 1)) g) ;;
            fail_gathering ;;
            ct_remote_resolve_call_context_free ctx ;;
            mret rc
          else branch_all_by_remote l
      end
  end.

Definition ct_build_candidate_tree : M gather Z :=
  root ← heaped (candidate_node_new NODE_TYPE_ROOT None None None);
  match root with
  | None => mret (- ENOMEM)
  | Some root =>
      root_node ← g_node_append_data None (Some root);
      modify (set_g_root_node (Some root_node)) ;;
      ephemeral ← (if bool_decide (length (gi_local_endpoints precon) = 0%nat)
                   then heaped ct_local_endpoint_new else mret None);
      local_eps ← (if bool_decide (length (gi_local_endpoints precon) = 0%nat)
                   then e ← deref ephemeral "NULL local endpoint"; mret [e]
                   else mret (gi_local_endpoints precon));
      rc ← branch_all_by_path root_node local_eps;
      heaped (ct_local_endpoint_free ephemeral) ;;
      if negb (rc =? 0) then free_tree root_node ;; mret rc else
      g ← get;
      let leaves := g_node_traverse_order G_IN_ORDER G_TRAVERSE_LEAVES (g_nodes g) root_node in
      protocol_options ← heaped ct_protocol_options_new;
      match protocol_options with
      | None => free_tree root_node ;; mret (- ENOMEM)
      | Some alpns =>
          for_each leaves (fun leaf_node => branch_by_protocol_options leaf_node alpns ;; mret tt) ;;
          heaped (ct_protocol_options_free protocol_options) ;;
          g ← get;
          let leaves := g_node_traverse_order G_IN_ORDER G_TRAVERSE_LEAVES (g_nodes g) root_node in
          if g_local_only g then build_candidate_tree_is_complete_cb ;; mret 0 else
          let remote_endpoints := gi_remote_endpoints precon in
          if bool_decide (leaves = []) || bool_decide (length remote_endpoints = 0%nat) then
            modify (set_g_failed true) ;;
            build_candidate_tree_is_complete_cb ;;
            mret 0
          else
            modify (set_g_pending_resolutions
                      (u64 (Z.of_nat (length leaves) * Z.of_nat (length remote_endpoints)))) ;;
            branch_all_by_remote (l ← leaves; pair l <$> remote_endpoints)
      end
  end.

(** *** Entry points *)

(** A fresh context over the caller's heap. *)
Definition new_gather (local_only : bool) (h : heap) : gather :=
  Gather h 0 [] None 0 0 false local_only false ∅ 0 [] [].

Definition get_candidates (h : heap) (local_only : bool) : outcome (Z * gather) :=
  match malloc h with
  | Ok (false, h) => Ok (- ENOMEM, new_gather local_only h)
  | Ok (true, h) =>
      (rc ← ct_build_candidate_tree;
       if negb (rc =? 0) then free_gather_context ;; mret rc else mret 0) (new_gather local_only h)
  | UB why => UB why
  end.

Definition ct_get_ordered_candidate_nodes (h : heap) : outcome (Z * gather) := get_candidates h false.
Definition ct_get_ordered_local_candidate_nodes (h : heap) : outcome (Z * gather) := get_candidates h true.
End gathering.

(** ** Trees *)

Definition level (t : node_type) : nat :=
  match t with
  | NODE_TYPE_ROOT => 0 | NODE_TYPE_PATH => 1 | NODE_TYPE_PROTOCOL => 2 | NODE_TYPE_ENDPOINT => 3
  end.
Definition data_level (d : ct_candidate_node) : nat := level (cn_type d).

Definition ids (l : list gnode) : list nat := gn_id <$> l.

(** A node refines its parent: one level down, with the parent's choices. *)
Definition refines (parent child : ct_candidate_node) : Prop :=
  data_level child = S (data_level parent) /\
  ((1 <= data_level parent)%nat -> cn_local_endpoint child = cn_local_endpoint parent) /\
  ((2 <= data_level parent)%nat -> cn_protocol_candidate child = cn_protocol_candidate parent).

(** A PATH node has a local endpoint, a PROTOCOL node a protocol, and so on. *)
Definition data_ok (d : ct_candidate_node) : Prop :=
  ((1 <= data_level d)%nat -> is_Some (cn_local_endpoint d)) /\
  ((2 <= data_level d)%nat -> is_Some (cn_protocol_candidate d)) /\
  ((3 <= data_level d)%nat -> is_Some (cn_remote_endpoint d)).

Inductive tree : list gnode -> Prop :=
| tree_root i d : cn_type d = NODE_TYPE_ROOT -> tree [GNode i None (Some d)]
| tree_add l i p dp d :
    tree l -> i ∉ ids l -> find_node l p = Some dp ->
    (exists dpd, gn_data dp = Some dpd /\ refines dpd d) -> data_ok d ->
    tree (l ++ [GNode i (Some p) (Some d)]).

Lemma find_node_Some l i n : find_node l i = Some n -> n ∈ l /\ gn_id n = i.
Proof.
  unfold find_node. destruct (list_find _ l) as [[k m]|] eqn:Hf; cbn; [|done]. intros [= <-].
  apply list_find_Some in Hf as (Hk & Hi & _). split; [by eapply list_elem_of_lookup_2|done].
Qed.

Lemma find_node_ids l i : i ∈ ids l <-> is_Some (find_node l i).
Proof.
  unfold find_node, ids. rewrite list_elem_of_fmap. split.
  - intros (n & -> & Hn). destruct (list_find_elem_of (fun m => gn_id m = gn_id n) l n Hn eq_refl) as [[k m] ->].
    by eexists.
  - intros [n Hn]. destruct (find_node_Some l i n Hn) as [? <-]. by exists n.
Qed.

Lemma find_node_nodup l n : NoDup (ids l) -> n ∈ l -> find_node l (gn_id n) = Some n.
Proof.
  intros Hnd Hn. destruct (proj1 (find_node_ids l (gn_id n))) as [m Hm].
  { apply list_elem_of_fmap. by exists n. }
  rewrite Hm. f_equal. apply find_node_Some in Hm as [Hm Hi].
  clear -Hnd Hn Hm Hi. unfold ids in Hnd. induction l as [|x l IH]; [by apply not_elem_of_nil in Hn|].
  cbn in Hnd. apply list.NoDup_cons in Hnd as [Hx Hnd].
  apply elem_of_cons in Hn as [->|Hn], Hm as [->|Hm]; [done| | |by apply IH].
  - destruct Hx. rewrite <- Hi. apply list_elem_of_fmap. by exists m.
  - destruct Hx. rewrite Hi. apply list_elem_of_fmap. by exists n.
Qed.

Lemma find_node_app_l l1 l2 i n : find_node l1 i = Some n -> find_node (l1 ++ l2) i = Some n.
Proof.
  unfold find_node. intros H. destruct (list_find _ l1) as [[k m]|] eqn:Hf; cbn in H; [|done].
  by rewrite (list_find_app_l _ _ _ _ _ Hf).
Qed.

Lemma ids_app l1 l2 : ids (l1 ++ l2) = ids l1 ++ ids l2.
Proof. apply fmap_app. Qed.

Lemma tree_nodup l : tree l -> NoDup (ids l).
Proof.
  induction 1 as [|l i p dp d Ht IH Hi _ _ _].
  - apply list.NoDup_singleton.
  - rewrite ids_app. apply list.NoDup_app. split_and!; [done| |apply list.NoDup_singleton].
    intros x Hx Hx'. apply list_elem_of_singleton in Hx'. cbn in Hx'. by subst.
Qed.

Lemma tree_data l n : tree l -> n ∈ l -> exists d, gn_data n = Some d /\
  (gn_parent n = None -> cn_type d = NODE_TYPE_ROOT) /\ (gn_parent n <> None -> data_ok d).
Proof.
  induction 1 as [i d Hd|l i p dp d Ht IH Hi _ _ Hok].
  - intros ->%list_elem_of_singleton. exists d. by split_and!.
  - intros [Hn| ->%list_elem_of_singleton]%elem_of_app; [by apply IH|].
    exists d. by split_and!.
Qed.

(** Every node but the root refines its parent. *)
Lemma tree_parent l n p :
  tree l -> n ∈ l -> gn_parent n = Some p ->
  exists m dm d, m ∈ l /\ gn_id m = p /\ gn_data m = Some dm /\ gn_data n = Some d /\ refines dm d /\ data_ok d.
Proof.
  intros Ht. revert n. induction Ht as [i d Hd|l i q dp d Ht IH Hi Hq (dpd & Hdp & Href) Hok]; intros n Hn Hp.
  - apply list_elem_of_singleton in Hn. by subst n.
  - apply elem_of_app in Hn as [Hn| ->%list_elem_of_singleton].
    + destruct (IH n Hn Hp) as (m & dm & d' & Hm & ?). exists m, dm, d'. split; [|done]. apply elem_of_app. by left.
    + cbn in Hp. injection Hp as ->. apply find_node_Some in Hq as [Hq Hqi].
      exists dp, dpd, d. split_and!; try done. apply elem_of_app. by left.
Qed.

(** *** Subtrees *)

Definition subtree_step (acc : list nat) (n : gnode) : list nat :=
  match gn_parent n with
  | Some p => if bool_decide (p ∈ acc) then acc ++ [gn_id n] else acc
  | None => acc
  end.

Lemma subtree_ids_snoc l n i : subtree_ids (l ++ [n]) i = subtree_step (subtree_ids l i) n.
Proof. unfold subtree_ids. by rewrite foldl_app. Qed.

Lemma subtree_self l i : i ∈ subtree_ids l i.
Proof.
  induction l as [|n l IH] using rev_ind; [by constructor|].
  rewrite subtree_ids_snoc. unfold subtree_step. repeat case_match; [|done..]. apply elem_of_app. by left.
Qed.

(** Being below [i]: the node itself, or a node whose parent is below [i]. *)
Lemma subtree_ids_elem l i x :
  tree l ->
  x ∈ subtree_ids l i <-> x = i \/ exists n p, n ∈ l /\ gn_id n = x /\ gn_parent n = Some p /\ p ∈ subtree_ids l i.
Proof.
  intros Ht. revert x. induction Ht as [j d Hd|l j q dp d Ht IH Hj Hq Hr Hok]; intros x.
  - cbn. rewrite list_elem_of_singleton. split; [by left|].
    intros [->|(n & p & Hn & Hx & Hp & _)]; [done|]. apply list_elem_of_singleton in Hn. by subst n.
  - rewrite subtree_ids_snoc. unfold subtree_step; cbn. case_bool_decide as Hin.
    + rewrite elem_of_app, list_elem_of_singleton. setoid_rewrite elem_of_app.
      setoid_rewrite list_elem_of_singleton. rewrite IH. split.
      * intros [[->|(n & p & Hn & Hx & Hp & Hpin)]| ->]; [by left|right; exists n, p; tauto|].
        right. eexists _, q. split; [by right|]. cbn. tauto.
      * intros [->|(n & p & [Hn| ->] & Hx & Hp & Hpin)]; [by left; left| |right; by cbn in Hx].
        destruct Hpin as [Hpin| ->].
        -- left. right. exists n, p. tauto.
        -- (* the parent would be the new node *)
           destruct (tree_parent _ _ _ Ht Hn Hp) as (m & _ & _ & Hm & Hmi & _).
           destruct Hj. rewrite <- Hmi. apply list_elem_of_fmap. by exists m.
    + setoid_rewrite elem_of_app. setoid_rewrite list_elem_of_singleton. rewrite IH. split.
      * intros [->|(n & p & Hn & Hx & Hp & Hpin)]; [by left|right; exists n, p; tauto].
      * intros [->|(n & p & [Hn| ->] & Hx & Hp & Hpin)]; [by left|right; exists n, p; tauto|].
        cbn in Hp. by injection Hp as ->.
Qed.

Definition node_data (n : gnode) : ct_candidate_node :=
  default (CandidateNode NODE_TYPE_ROOT None None None) (gn_data n).
Definition node_level (n : gnode) : nat := data_level (node_data n).

Lemma tree_node_data l n : tree l -> n ∈ l -> gn_data n = Some (node_data n).
Proof. intros Ht Hn. destruct (tree_data l n Ht Hn) as (d & Hd & _). unfold node_data. by rewrite Hd. Qed.

Lemma tree_parent_level l n p :
  tree l -> n ∈ l -> gn_parent n = Some p ->
  exists m, m ∈ l /\ gn_id m = p /\ refines (node_data m) (node_data n) /\ data_ok (node_data n).
Proof.
  intros Ht Hn Hp. destruct (tree_parent l n p Ht Hn Hp) as (m & dm & d & Hm & Hi & Hdm & Hd & Hr & Hok).
  exists m. unfold node_data. rewrite Hdm, Hd. by split_and!.
Qed.

Lemma tree_root_level l n : tree l -> n ∈ l -> gn_parent n = None <-> node_level n = 0%nat.
Proof.
  intros Ht Hn. destruct (tree_data l n Ht Hn) as (d & Hd & Hroot & Hnr). split.
  - intros Hp. unfold node_level, node_data, data_level. rewrite Hd. cbn. by rewrite Hroot.
  - intros Hl. destruct (gn_parent n) as [p|] eqn:Hp; [|done].
    destruct (tree_parent_level l n p Ht Hn Hp) as (m & _ & _ & (Hlv & _) & _). unfold node_level in Hl. lia.
Qed.

(** Nodes properly below [i] are on deeper levels. *)
Lemma subtree_deeper l m n :
  tree l -> m ∈ l -> n ∈ l -> gn_id n ∈ subtree_ids l (gn_id m) -> n = m \/ (node_level m < node_level n)%nat.
Proof.
  intros Ht. remember (node_level n) as k' eqn:Hk. revert n Hk.
  induction k' as [k' IH] using (well_founded_induction Nat.lt_wf_0). intros n Hk Hm Hn Hin.
  apply subtree_ids_elem in Hin as [Hid|(n' & p & Hn' & Hid & Hp & Hpin)]; [| |done].
  - left. pose proof (find_node_nodup l n (tree_nodup l Ht) Hn) as H1.
    pose proof (find_node_nodup l m (tree_nodup l Ht) Hm) as H2. rewrite Hid, H2 in H1. by injection H1.
  - assert (n' = n) as ->.
    { pose proof (find_node_nodup l n (tree_nodup l Ht) Hn) as H1.
      pose proof (find_node_nodup l n' (tree_nodup l Ht) Hn') as H2. rewrite Hid, H1 in H2. by injection H2. }
    destruct (tree_parent_level l n p Ht Hn Hp) as (q & Hq & Hqi & (Hlv & _) & _). subst p.
    assert (Hlt : (node_level q < k')%nat) by (unfold node_level in *; lia).
    destruct (IH _ Hlt q eq_refl Hm Hq Hpin) as [->|H]; right; unfold node_level in *; lia.
Qed.

(** The part of a tree outside a set of nodes closed under children. *)
Definition closed (l : list gnode) (R : list nat) : Prop :=
  forall n p, n ∈ l -> gn_parent n = Some p -> p ∈ R -> gn_id n ∈ R.

Definition outside (R : list nat) (l : list gnode) : list gnode := filter (fun n => gn_id n ∉ R) l.

Lemma outside_app R l1 l2 : outside R (l1 ++ l2) = outside R l1 ++ outside R l2.
Proof. apply list.filter_app. Qed.

Lemma outside_elem R l n : (n ∈ outside R l) <-> ((gn_id n ∉ R) /\ (n ∈ l)).
Proof. unfold outside. by rewrite list_elem_of_filter. Qed.

Lemma closed_app_l l1 l2 R : closed (l1 ++ l2) R -> closed l1 R.
Proof. intros H n p Hn. apply H. apply elem_of_app. by left. Qed.

Lemma find_node_outside l R i n :
  find_node l i = Some n -> i ∉ R -> NoDup (ids l) -> find_node (outside R l) i = Some n.
Proof.
  intros Hf Hi Hnd. destruct (find_node_Some l i n Hf) as [Hn Hid]. rewrite <- Hid.
  apply find_node_nodup.
  - unfold ids, outside. eapply (sublist_NoDup _ (gn_id <$> l)); [exact Hnd|]. by apply fmap_sublist, sublist_filter.
  - apply outside_elem. by rewrite Hid.
Qed.

Lemma tree_outside l R root :
  tree l -> closed l R -> find_node l root <> None ->
  (forall n, n ∈ l -> gn_parent n = None -> gn_id n ∉ R) -> tree (outside R l).
Proof.
  intros Ht Hc _ Hroot.
  induction Ht as [j d Hd|l j q dp d Ht IH Hj Hq (dpd & Hdp & Href) Hok].
  - unfold outside. rewrite filter_cons_True; [by constructor|]. apply (Hroot (GNode j None (Some d))); [constructor|done].
  - rewrite outside_app.
    assert (IH' : tree (outside R l)).
    { apply IH; [by eapply closed_app_l|]. intros n Hn. apply Hroot. apply elem_of_app. by left. }
    unfold outside at 2. destruct (decide (j ∈ R)) as [Hin|Hin].
    + rewrite filter_cons_False by (cbn; tauto). by rewrite app_nil_r.
    + rewrite filter_cons_True by done. apply (tree_add _ _ _ dp); [done| | |by exists dpd|done].
      * intros Hj'. apply Hj. apply list_elem_of_fmap in Hj' as (n & -> & [_ Hn]%outside_elem).
        apply list_elem_of_fmap. by exists n.
      * apply find_node_outside; [done| |by apply tree_nodup]. intros HqR. apply Hin.
        apply (Hc (GNode j (Some q) (Some d)) q); [|done..]. apply elem_of_app. right. by constructor.
Qed.

Lemma subtree_outside l R i :
  closed l R -> i ∉ R -> subtree_ids (outside R l) i = filter (fun x => x ∉ R) (subtree_ids l i).
Proof.
  intros Hc Hi. induction l as [|n l IH] using rev_ind.
  - change ([i] = filter (fun x => x ∉ R) [i]). by rewrite filter_cons_True.
  - rewrite outside_app, subtree_ids_snoc. unfold outside at 2.
    destruct (decide (gn_id n ∈ R)) as [Hin|Hin].
    + rewrite filter_cons_False by (cbn; tauto). rewrite app_nil_r, IH by (by eapply closed_app_l).
      unfold subtree_step. destruct (gn_parent n) as [p|]; [|done]. case_bool_decide; [|done].
      rewrite list.filter_app. rewrite (filter_cons_False _ (gn_id n)) by tauto. by rewrite app_nil_r.
    + rewrite filter_cons_True by done. cbn [filter list_filter]. rewrite subtree_ids_snoc, IH by (by eapply closed_app_l).
      unfold subtree_step. destruct (gn_parent n) as [p|] eqn:Hp; [|done].
      assert (HpR : p ∉ R).
      { intros HpR. apply Hin. apply (Hc n p); [apply elem_of_app; right; by constructor|done..]. }
      case_bool_decide as H1; case_bool_decide as H2.
      * rewrite list.filter_app, filter_cons_True by done. done.
      * destruct H2. apply list_elem_of_filter in H1 as [_ H1]. done.
      * destruct H1. by apply list_elem_of_filter.
      * done.
Qed.

(** A subtree, and any union of subtrees, is closed. *)
Lemma closed_subtree l i : tree l -> closed l (subtree_ids l i).
Proof.
  intros Ht n p Hn Hp Hpin. apply subtree_ids_elem; [done|]. right. by exists n, p.
Qed.

Lemma closed_union l R1 R2 : closed l R1 -> closed l R2 -> closed l (R1 ++ R2).
Proof.
  intros H1 H2 n p Hn Hp [Hin|Hin]%elem_of_app; apply elem_of_app; [left|right]; eauto.
Qed.

Lemma tree_level_length l n : tree l -> n ∈ l -> (node_level n < length l)%nat.
Proof.
  intros Ht. revert n. induction Ht as [i d Hd|l i p dp d Ht IH Hi Hp (dpd & Hdp & Hr & _) Hok]; intros n Hn.
  - apply list_elem_of_singleton in Hn as ->. unfold node_level, node_data, data_level; cbn. rewrite Hd. cbn. lia.
  - rewrite length_app; cbn. apply elem_of_app in Hn as [Hn| ->%list_elem_of_singleton].
    + specialize (IH n Hn). lia.
    + apply find_node_Some in Hp as [Hp _]. specialize (IH dp Hp).
      unfold node_level, node_data in *. rewrite Hdp in IH. cbn in *. lia.
Qed.

Lemma depth_in_level l n fuel :
  tree l -> n ∈ l -> (node_level n <= fuel)%nat -> depth_in l fuel (gn_id n) = node_level n.
Proof.
  intros Ht. revert n. induction fuel as [|fuel IH]; intros n Hn Hf; cbn [depth_in]; [lia|].
  rewrite (find_node_nodup l n (tree_nodup l Ht) Hn); cbn.
  destruct (gn_parent n) as [p|] eqn:Hp.
  - destruct (tree_parent_level l n p Ht Hn Hp) as (m & Hm & <- & (Hlv & _) & _).
    rewrite IH; unfold node_level in *; [lia|done|lia].
  - symmetry. by apply (tree_root_level l n Ht Hn).
Qed.

Lemma depth_level l n : tree l -> n ∈ l -> depth l (gn_id n) = node_level n.
Proof.
  intros Ht Hn. apply depth_in_level; [done..|]. pose proof (tree_level_length l n Ht Hn). lia.
Qed.

(** ** Documented behaviour of the libraries *)

(** [g_node_traverse] visits each node of the subtree that its flags select
    exactly once; in level order, never a node before one that is closer to
    the root. *)
Definition traversal_ok (tr : traverse_order -> traverse_flags -> list gnode -> nat -> list nat) : Prop :=
  forall o f l i, tree l -> i ∈ ids l ->
    tr o f l i ≡ₚ filter (fun x => flag_selects f l x = true) (subtree_ids l i) /\
    (o = G_LEVEL_ORDER -> StronglySorted (fun x y => (depth l x <= depth l y)%nat) (tr o f l i)).

(** [g_array_sort_with_data] permutes the array and orders it, when the
    comparison is antisymmetric in sign and transitive on its elements. *)
Definition sort_ok (sort : (ct_candidate_node -> ct_candidate_node -> Z) -> list ct_candidate_node -> list ct_candidate_node) : Prop :=
  forall cmp l,
    (forall a b, a ∈ l -> b ∈ l -> cmp b a = - cmp a b) ->
    (forall a b c, a ∈ l -> b ∈ l -> c ∈ l -> cmp a b <= 0 -> cmp b c <= 0 -> cmp a c <= 0) ->
    sort cmp l ≡ₚ l /\ StronglySorted (fun a b => cmp a b <= 0) (sort cmp l).

(** ** Pruning *)

Section pruning.
Context (precon : gather_input).
Let props := selection_properties (gi_transport_properties precon).

Definition interface_ok (name : string) : bool :=
  match interface_is_compatible name (gi_transport_properties precon) tt with
  | Ok (b, _) => b
  | UB _ => false
  end.

(** Why a node is undesirable, from its data. *)
Definition bad_path (d : ct_candidate_node) : bool :=
  bool_decide (cn_type d = NODE_TYPE_PATH) &&
  negb (interface_ok (default "any" (cn_local_endpoint d ≫= le_interface_name))).
Definition bad_protocol (d : ct_candidate_node) : bool :=
  bool_decide (cn_type d = NODE_TYPE_PROTOCOL) &&
  match cn_protocol_candidate d with
  | Some p => negb (protocol_implementation_supports_selection_properties (pc_protocol_impl p) props)
  | None => false
  end.
Definition bad_endpoint (d : ct_candidate_node) : bool :=
  bool_decide (cn_type d = NODE_TYPE_ENDPOINT) &&
  negb (ct_address_families_match (cn_local_endpoint d) (cn_remote_endpoint d) &&
        (match cn_local_endpoint d with Some l => ct_address_is_wildcard (le_resolved_address l) | None => false end ||
         ct_address_scope_match (cn_local_endpoint d) (cn_remote_endpoint d))).

Definition bad_id (bad : ct_candidate_node -> bool) (l : list gnode) (i : nat) : bool :=
  match find_node l i with Some n => bad (node_data n) | None => false end.
End pruning.

(** *** Symbolic execution over the gathering state *)

Lemma wp_heaped {A} (m : M heap A) P n (Q : A -> gather -> Prop) g :
  allocs m P n -> oracle_ok (g_heap g) ->
  (forall a h, P a -> oracle_ok h -> h_live h = h_live (g_heap g) + n a -> Q a (set_g_heap h g)) -> wp (heaped m) Q g.
Proof.
  intros Hm Ho HQ. unfold heaped. wp_steps. eapply wp_mono; [by apply Hm|].
  intros a h (HP & Hh & Hl). by apply HQ.
Qed.

Lemma wp_heaped_frees (m : M heap unit) n (Q : unit -> gather -> Prop) g :
  frees m n -> Q tt (set_g_heap (Heap (h_oracle (g_heap g)) (h_live (g_heap g) - n)) g) -> wp (heaped m) Q g.
Proof. intros Hm HQ. unfold heaped. wp_steps. eapply wp_frees; [done|]. apply HQ. Qed.

Lemma wp_data_at i n (Q : ct_candidate_node -> gather -> Prop) g :
  tree (g_nodes g) -> find_node (g_nodes g) i = Some n -> Q (node_data n) g -> wp (data_at i) Q g.
Proof.
  intros Ht Hf HQ. unfold data_at, node_at. wp_steps.
  eapply wp_deref; [|done]. apply tree_node_data with (l := g_nodes g); [done|]. apply (find_node_Some _ _ _ Hf).
Qed.

(** Another number of live blocks, nothing else. *)
Definition live (g : gather) : Z := h_live (g_heap g).
Definition set_live (v : Z) (g : gather) : gather := set_g_heap (Heap (h_oracle (g_heap g)) v) g.

Lemma set_live_same g v : v = live g -> set_live v g = g.
Proof. intros ->. by destruct g as [[o w]]. Qed.

Lemma frees_local_opt l : frees (ct_local_endpoint_free l) (match l with Some l => local_blocks l + 1 | None => 0 end).
Proof.
  destruct l as [l|]; [|apply frees_ret]. intros h. cbn [ct_local_endpoint_free ct_local_endpoint_free_content].
  wp_steps. apply wp_free_string. wp_steps. apply wp_free_string. wp_steps. apply wp_free_block.
  unfold local_blocks. cbn. f_equal. lia.
Qed.

Lemma frees_remote_opt r : frees (ct_remote_endpoint_free r) (match r with Some r => remote_blocks r + 1 | None => 0 end).
Proof.
  intros h. unfold ct_remote_endpoint_free. destruct r as [r|]; cbn [ct_remote_endpoint_free_content is_Some_b when].
  - wp_steps. apply wp_free_string. wp_steps. apply wp_free_string. wp_steps. apply wp_free_block.
    unfold remote_blocks. cbn. f_equal. lia.
  - wp_steps. destruct h as [o v]. cbn. f_equal. lia.
Qed.

Definition protocol_blocks (p : option ct_protocol_candidate) : Z :=
  match p with Some p => blocks_of (pc_alpn p) + 1 | None => 0 end.

Lemma frees_protocol p : frees (ct_protocol_candidate_free p) (protocol_blocks p).
Proof. destruct p; [apply frees_bind; [apply frees_string|apply frees_block]|apply frees_ret]. Qed.

(** The blocks of a node, and of a tree. *)
Definition local_opt_blocks (l : option ct_local_endpoint) : Z :=
  match l with Some l => local_blocks l + 1 | None => 0 end.
Definition remote_opt_blocks (r : option ct_remote_endpoint) : Z :=
  match r with Some r => remote_blocks r + 1 | None => 0 end.
Definition content_blocks (d : ct_candidate_node) : Z :=
  local_opt_blocks (cn_local_endpoint d) + remote_opt_blocks (cn_remote_endpoint d) +
  protocol_blocks (cn_protocol_candidate d).
Definition node_blocks (d : ct_candidate_node) : Z := content_blocks d + 1.
Definition tree_blocks (l : list gnode) : Z := zsum ((fun n => node_blocks (node_data n)) <$> l).
Definition id_blocks (l : list gnode) (i : nat) : Z :=
  match find_node l i with Some n => node_blocks (node_data n) | None => 0 end.

Lemma frees_node_content (d : ct_candidate_node) : frees
  (when (is_Some_b (cn_local_endpoint d)) (ct_local_endpoint_free (cn_local_endpoint d)) ;;
   when (is_Some_b (cn_remote_endpoint d)) (ct_remote_endpoint_free (cn_remote_endpoint d)) ;;
   ct_protocol_candidate_free (cn_protocol_candidate d) ;; free_block) (node_blocks d).
Proof.
  eapply frees_eq.
  - apply frees_bind; [apply frees_when; intros _; apply frees_local_opt|].
    apply frees_bind; [apply frees_when; intros _; apply frees_remote_opt|].
    apply frees_bind; [apply frees_protocol|apply frees_block].
  - unfold node_blocks, content_blocks, local_opt_blocks, remote_opt_blocks.
    destruct (cn_local_endpoint d), (cn_remote_endpoint d); cbn; lia.
Qed.

Lemma wp_visit_free ns (Q : unit -> gather -> Prop) g :
  tree (g_nodes g) -> (forall i, i ∈ ns -> i ∈ ids (g_nodes g)) ->
  Q tt (set_live (live g - zsum (id_blocks (g_nodes g) <$> ns)) g) -> wp (visit ns free_data_in_tree_node_and_children) Q g.
Proof.
  revert g. induction ns as [|i ns IH]; intros g Ht Hin HQ; cbn [visit].
  - apply wp_ret. rewrite set_live_same in HQ by (cbn; lia). done.
  - destruct (proj1 (find_node_ids (g_nodes g) i)) as [n Hn]; [apply Hin; constructor|].
    wp_steps. unfold free_data_in_tree_node_and_children. wp_steps. eapply wp_data_at; [done..|].
    wp_steps. eapply wp_heaped_frees; [apply frees_node_content|]. wp_steps.
    apply IH; [done|intros j Hj; apply Hin; by constructor|].
    unfold live in *. cbn in HQ |- *. unfold id_blocks in HQ at 1. rewrite Hn in HQ.
    unfold set_live in *. cbn in *. rewrite Z.sub_add_distr in HQ. exact HQ.
Qed.

(** A traversal whose callback does not change the state, stops only at
    nodes that are not undesirable and not before an undesirable one. *)
Lemma wp_visit_collect (f : nat -> M gather (bool * bool)) (bad stop : nat -> bool) ns acc (Q : list nat -> gather -> Prop) g :
  (forall i, i ∈ ns -> f i g = Ok ((bad i, stop i), g)) ->
  StronglySorted (fun i j => stop i = true -> bad j = false) ns ->
  (forall i, i ∈ ns -> stop i = true -> bad i = false) ->
  Q (acc ++ filter (fun i => bad i = true) ns) g ->
  wp (visit_collect ns f acc) Q g.
Proof.
  revert acc. induction ns as [|i ns IH]; intros acc Hf Hs Hstop HQ; cbn [visit_collect].
  - apply wp_ret. by rewrite app_nil_r in HQ.
  - wp_steps. unfold wp at 1. rewrite Hf by constructor. apply StronglySorted_inv in Hs as [Hs Hi].
    destruct (stop i) eqn:Hst.
    + apply wp_ret. unfold append_node. rewrite (Hstop i) by (constructor || done).
      rewrite filter_cons_False in HQ by (by rewrite (Hstop i) by (constructor || done)).
      replace (filter (fun i => bad i = true) ns) with (@nil nat) in HQ; [by rewrite app_nil_r in HQ|].
      clear -Hi. induction Hi as [|j ns Hj Hi IH]; [done|].
      rewrite filter_cons_False by (by rewrite (Hj eq_refl)). apply IH.
    + apply IH; [intros j Hj; apply Hf; by constructor|done|intros j Hj; apply Hstop; by constructor|].
      unfold append_node. destruct (bad i) eqn:Hb.
      * rewrite filter_cons_True in HQ by done. by rewrite <- app_assoc.
      * by rewrite filter_cons_False in HQ by (by rewrite Hb).
Qed.

Lemma data_at_Ok g i n : tree (g_nodes g) -> find_node (g_nodes g) i = Some n -> data_at i g = Ok (node_data n, g).
Proof.
  intros Ht Hf. unfold data_at, node_at, mbind, M_bind, get, deref. cbn. rewrite Hf. cbn.
  by rewrite (tree_node_data _ n Ht) by apply (find_node_Some _ _ _ Hf).
Qed.

Lemma bind_Ok {S A B} (m : M S A) (k : A -> M S B) s a s' : m s = Ok (a, s') -> (m ≫= k) s = k a s'.
Proof. unfold mbind, M_bind. by intros ->. Qed.

Lemma node_ok l n : tree l -> n ∈ l -> data_ok (node_data n).
Proof.
  intros Ht Hn. destruct (gn_parent n) as [p|] eqn:Hp.
  - by destruct (tree_parent_level l n p Ht Hn Hp) as (m & _ & _ & _ & Hok).
  - pose proof (proj1 (tree_root_level l n Ht Hn) Hp) as Hl. unfold node_level in Hl.
    unfold data_ok. rewrite Hl. split_and!; intros; lia.
Qed.

Section prune_facts.
Context (precon : gather_input).
Context (Hwf : wf_selection (selection_properties (gi_transport_properties precon))).
Context (Hsets : sets_ok (selection_properties (gi_transport_properties precon))).

Lemma interface_ok_Ok {S} name (s : S) :
  interface_is_compatible name (gi_transport_properties precon) s = Ok (interface_ok precon name, s).
Proof.
  destruct (interface_is_compatible_iff name _ s Hwf Hsets) as (set & b & Hset & -> & Hb).
  destruct (interface_is_compatible_iff name _ tt Hwf Hsets) as (set' & b' & Hset' & Hrun & Hb').
  unfold interface_ok. rewrite Hrun. rewrite Hset in Hset'. injection Hset' as <-.
  do 2 f_equal. apply eq_bool_prop_intro. rewrite !Is_true_true. by rewrite Hb, Hb'.
Qed.

Lemma endpoint_cb g i n :
  tree (g_nodes g) -> find_node (g_nodes g) i = Some n ->
  gather_incompatible_endpoint_nodes i g = Ok ((bad_endpoint (node_data n), false), g).
Proof.
  intros Ht Hf. unfold gather_incompatible_endpoint_nodes. rewrite (bind_Ok _ _ _ _ _ (data_at_Ok g i n Ht Hf)).
  pose proof (node_ok _ n Ht (proj1 (find_node_Some _ _ _ Hf))) as (Hl & _ & _).
  unfold bad_endpoint, data_level in *. destruct (cn_type (node_data n)); cbn in Hl |- *; try done.
  destruct (Hl ltac:(lia)) as [loc ->]. destruct (ct_address_families_match _ _); done.
Qed.

Lemma protocol_cb g i n :
  tree (g_nodes g) -> find_node (g_nodes g) i = Some n ->
  gather_incompatible_protocol_nodes precon i g =
    Ok ((bad_protocol precon (node_data n), bool_decide (cn_type (node_data n) = NODE_TYPE_ENDPOINT)), g).
Proof.
  intros Ht Hf. unfold gather_incompatible_protocol_nodes. rewrite (bind_Ok _ _ _ _ _ (data_at_Ok g i n Ht Hf)).
  pose proof (node_ok _ n Ht (proj1 (find_node_Some _ _ _ Hf))) as (_ & Hp & _).
  unfold bad_protocol, data_level in *. destruct (cn_type (node_data n)); cbn in Hp |- *; try done.
  by destruct (Hp ltac:(lia)) as [p ->].
Qed.

Lemma path_cb g i n :
  tree (g_nodes g) -> find_node (g_nodes g) i = Some n ->
  gather_incompatible_path_nodes precon i g =
    Ok ((bad_path precon (node_data n), (1 <? data_level (node_data n))%nat), g).
Proof.
  intros Ht Hf. unfold gather_incompatible_path_nodes. rewrite (bind_Ok _ _ _ _ _ (data_at_Ok g i n Ht Hf)).
  pose proof (node_ok _ n Ht (proj1 (find_node_Some _ _ _ Hf))) as (Hl & _ & _).
  unfold bad_path, data_level in *. destruct (cn_type (node_data n)); cbn -[Nat.ltb] in Hl |- *; try done.
  destruct (Hl ltac:(lia)) as [loc ->]. cbn -[Nat.ltb]. unfold deref, mbind, M_bind, mret, M_ret.
  rewrite interface_ok_Ok. done.
Qed.
End prune_facts.

(** *** Removing subtrees *)

Definition below_any (l : list gnode) (us : list nat) : list nat := mjoin (subtree_ids l <$> us).

Lemma below_any_app l us vs : below_any l (us ++ vs) = below_any l us ++ below_any l vs.
Proof. unfold below_any. by rewrite fmap_app, join_app. Qed.

Lemma below_any_elem l us x : x ∈ below_any l us <-> exists u, u ∈ us /\ x ∈ subtree_ids l u.
Proof.
  unfold below_any. rewrite list_elem_of_join. setoid_rewrite list_elem_of_fmap. split.
  - intros (ys & Hx & (u & -> & Hu)). by exists u.
  - intros (u & Hu & Hx). exists (subtree_ids l u). split; [done|]. by exists u.
Qed.

Lemma closed_below_any l us : tree l -> closed l (below_any l us).
Proof.
  intros Ht n p Hn Hp (u & Hu & Hpu)%below_any_elem. apply below_any_elem. exists u. split; [done|].
  by eapply (closed_subtree l u Ht).
Qed.

Lemma outside_outside l R i :
  closed l R -> i ∉ R ->
  outside (subtree_ids (outside R l) i) (outside R l) = outside (R ++ subtree_ids l i) l.
Proof.
  intros Hc Hi. rewrite subtree_outside by done. unfold outside. rewrite list_filter_filter.
  apply list_filter_iff. intros n. rewrite list_elem_of_filter, elem_of_app. tauto.
Qed.

(** The undesirable nodes are listed from the bottom of the tree up. *)
Definition bottom_up (l : list gnode) (us : list nat) : Prop :=
  NoDup us /\ (forall u, u ∈ us -> exists n, n ∈ l /\ gn_id n = u /\ (0 < node_level n)%nat) /\
  StronglySorted (fun u v => (depth l v <= depth l u)%nat) us.

Lemma StronglySorted_app_rel {A} (R : A -> A -> Prop) l1 x l2 y :
  StronglySorted R (l1 ++ x :: l2) -> y ∈ l1 -> R y x.
Proof.
  induction l1 as [|a l1 IH]; intros Hs Hy; [by apply not_elem_of_nil in Hy|].
  apply StronglySorted_inv in Hs as [Hs Ha]. apply elem_of_cons in Hy as [->|Hy]; [|by apply IH].
  apply (proj1 (Forall_elem _ _) Ha). apply elem_of_app. right. by constructor.
Qed.

Lemma bottom_up_present l seen u todo :
  tree l -> bottom_up l (seen ++ u :: todo) -> u ∉ below_any l seen.
Proof.
  intros Ht (Hnd & Hin & Hs) (v & Hv & Huv)%below_any_elem.
  destruct (Hin u) as (n & Hn & <- & _); [set_solver|].
  destruct (Hin v) as (m & Hm & <- & _); [set_solver|].
  destruct (subtree_deeper l m n Ht Hm Hn Huv) as [->|Hlt].
  - apply list.NoDup_app in Hnd as (_ & Hd & _). apply (Hd _ Hv). by constructor.
  - pose proof (StronglySorted_app_rel _ _ _ _ _ Hs Hv) as Hd. cbn in Hd.
    rewrite !depth_level in Hd by done. lia.
Qed.

Lemma subtree_ids_absent l i : tree l -> i ∉ ids l -> subtree_ids l i = [i].
Proof.
  induction 1 as [j d Hd|l j q dp d Ht IH Hj Hq Hr Hok]; intros Hi; [done|].
  rewrite ids_app in Hi. rewrite subtree_ids_snoc, IH by set_solver. unfold subtree_step; cbn.
  rewrite bool_decide_false; [done|]. intros ->%list_elem_of_singleton. apply Hi, elem_of_app. left.
  apply find_node_ids. by eexists.
Qed.

Lemma subtree_in_ids l i x : tree l -> i ∈ ids l -> x ∈ subtree_ids l i -> x ∈ ids l.
Proof.
  intros Ht Hi Hx. apply (subtree_ids_elem l i x Ht) in Hx as [->|(n & p & Hn & <- & _)]; [done|].
  apply list_elem_of_fmap. by exists n.
Qed.

Lemma subtree_ids_nodup l i : tree l -> NoDup (subtree_ids l i).
Proof.
  induction 1 as [j d Hd|l j q dp d Ht IH Hj Hq Hr Hok]; [apply list.NoDup_singleton|].
  rewrite subtree_ids_snoc. unfold subtree_step; cbn. case_bool_decide as Hin; [|done].
  apply list.NoDup_app. split_and!; [done| |apply list.NoDup_singleton].
  intros x Hx Hxj%list_elem_of_singleton. subst x. destruct (decide (i ∈ ids l)) as [Hi|Hi].
  - by apply Hj, (subtree_in_ids l i).
  - rewrite (subtree_ids_absent l i Ht Hi) in Hin. apply list_elem_of_singleton in Hin. subst q.
    apply Hi. apply find_node_ids. by eexists.
Qed.

Lemma outside_nothing R l : (forall n, n ∈ l -> gn_id n ∉ R) -> outside R l = l.
Proof. by apply list_filter_all. Qed.

(** In the middle of removing a bottom-up list, the rest is a tree that
    still holds the next node. *)
Lemma removal_step l seen u todo n :
  tree l -> bottom_up l (seen ++ u :: todo) -> n ∈ l -> gn_id n = u ->
  tree (outside (below_any l seen) l) /\ find_node (outside (below_any l seen) l) u = Some n.
Proof.
  intros Ht Hb Hn Hnu.
  assert (Hu : u ∉ below_any l seen) by (by apply (bottom_up_present l seen u todo)).
  destruct Hb as (_ & Hin & _). pose proof (closed_below_any l seen Ht) as Hcl.
  assert (Hfn : find_node l u = Some n) by (subst u; by apply find_node_nodup; [apply tree_nodup|]).
  split.
  - eapply (tree_outside _ _ u); [done|done|congruence|].
    intros r Hr Hrp (w & Hw & Hrw)%below_any_elem. destruct (Hin w) as (m & Hm & <- & Hml); [set_solver|].
    pose proof (proj1 (tree_root_level l r Ht Hr) Hrp).
    destruct (subtree_deeper l m r Ht Hm Hr Hrw) as [->|Hlt]; lia.
  - by apply find_node_outside; [| |apply tree_nodup].
Qed.

(** The blocks of a set of nodes and those outside of it. *)
Lemma blocks_outside l R :
  NoDup (ids l) -> NoDup R -> (forall i, i ∈ R -> i ∈ ids l) ->
  zsum (id_blocks l <$> R) + tree_blocks (outside R l) = tree_blocks l.
Proof.
  intros Hnd HR Hin.
  assert (Hp : R ≡ₚ ids (filter (fun n => gn_id n ∈ R) l)).
  { apply NoDup_Permutation; [done| |].
    - eapply (sublist_NoDup _ (ids l)); [exact Hnd|]. by apply fmap_sublist, sublist_filter.
    - intros x. unfold ids. rewrite list_elem_of_fmap. setoid_rewrite list_elem_of_filter. split.
      + intros Hx. destruct (proj1 (list_elem_of_fmap _ _ _) (Hin x Hx)) as (n & -> & Hn). by exists n.
      + by intros (n & -> & ? & ?). }
  rewrite (zsum_Permutation (id_blocks l <$> R) (id_blocks l <$> ids (filter (fun n => gn_id n ∈ R) l)))
    by (by rewrite <- Hp).
  unfold ids. rewrite <- list_fmap_compose.
  rewrite (list_fmap_ext _ (fun n => node_blocks (node_data n)) (filter _ l)); cycle 1.
  { intros k n Hk%list_elem_of_lookup_2. apply list_elem_of_filter in Hk as [_ Hn]. cbn. unfold id_blocks.
    by rewrite find_node_nodup. }
  unfold tree_blocks, outside. clear. induction l as [|n l IH]; [done|].
  destruct (decide (gn_id n ∈ R)).
  - rewrite filter_cons_True, (filter_cons_False (fun n => gn_id n ∉ R)) by tauto. rewrite !fmap_cons, !zsum_cons. lia.
  - rewrite filter_cons_False, (filter_cons_True (fun n => gn_id n ∉ R)) by tauto. rewrite !fmap_cons, !zsum_cons. lia.
Qed.

Section completion.
Context (tr : traverse_order -> traverse_flags -> list gnode -> nat -> list nat) (Htr : traversal_ok tr).

Lemma traversal_in_ids o f l i x : tree l -> i ∈ ids l -> x ∈ tr o f l i -> x ∈ ids l.
Proof.
  intros Ht Hi Hx. destruct (Htr o f l i Ht Hi) as [Hp _]. rewrite Hp in Hx.
  apply list_elem_of_filter in Hx as [_ Hx].
  apply (subtree_ids_elem l i x Ht) in Hx as [->|(n & p & Hn & <- & _)]; [done|].
  apply list_elem_of_fmap. by exists n.
Qed.

Lemma visited_blocks o l i :
  tree l -> i ∈ ids l ->
  zsum (id_blocks l <$> tr o G_TRAVERSE_ALL l i) = tree_blocks l - tree_blocks (outside (subtree_ids l i) l).
Proof.
  intros Ht Hi. destruct (Htr o G_TRAVERSE_ALL l i Ht Hi) as [Hp _].
  rewrite (list_filter_all (fun x => flag_selects G_TRAVERSE_ALL l x = true)) in Hp by done.
  rewrite (zsum_Permutation (id_blocks l <$> tr o G_TRAVERSE_ALL l i) (id_blocks l <$> subtree_ids l i)) by (by rewrite Hp).
  rewrite <- (blocks_outside l (subtree_ids l i)); [lia|by apply tree_nodup|by apply subtree_ids_nodup|].
  intros x. by apply subtree_in_ids.
Qed.

(** Removing a bottom-up list of nodes never meets a freed node, leaves what
    is outside of their subtrees and frees the blocks of the rest. *)
Lemma wp_remove_nodes us l (Q : unit -> gather -> Prop) g :
  g_nodes g = l -> tree l -> bottom_up l us ->
  Q tt (set_live (live g - tree_blocks l + tree_blocks (outside (below_any l us) l))
          (set_g_nodes (outside (below_any l us) l) g)) ->
  wp (remove_nodes_from_tree tr us) Q g.
Proof.
  intros Hl Ht Hb HQ. unfold remove_nodes_from_tree.
  eapply wp_mono.
  - apply (wp_for_each _ (fun seen _ s =>
      s = set_live (live g - tree_blocks l + tree_blocks (outside (below_any l seen) l))
            (set_g_nodes (outside (below_any l seen) l) g))).
    + rewrite outside_nothing by (intros n _; apply not_elem_of_nil). subst l.
      rewrite set_live_same; [by destruct g|]. unfold live. cbn. lia.
    + intros seen u todo s -> ->. destruct (Hb) as (_ & Hin & _). destruct (Hin u) as (n & Hn & Hnu & _); [set_solver|].
      destruct (removal_step l seen u todo n Ht Hb Hn Hnu) as [Ht' Hfn].
      set (l' := outside (below_any l seen) l) in *.
      wp_steps. unfold node_at. wp_steps. unfold g_node_traverse. wp_steps.
      assert (Hu : u ∈ ids l') by (apply find_node_ids; by eexists).
      apply wp_visit_free; [exact Ht'|intros x; by apply traversal_in_ids|].
      unfold g_node_destroy. wp_steps. rewrite below_any_app.
      replace (below_any l [u]) with (subtree_ids l u) by (cbn; by rewrite app_nil_r).
      pose proof (closed_below_any l seen Ht) as Hcl.
      rewrite <- outside_outside by (done || by apply (bottom_up_present l seen u todo)). fold l'. cbn [g_nodes set_live set_g_heap set_g_nodes].
      rewrite (visited_blocks G_IN_ORDER l' u Ht' Hu). unfold set_live, live; cbn.
      by replace (h_live (g_heap g) - tree_blocks l + tree_blocks l' -
           (tree_blocks l' - tree_blocks (outside (subtree_ids l' u) l')))
        with (h_live (g_heap g) - tree_blocks l + tree_blocks (outside (subtree_ids l' u) l')) by lia.
  - intros [] s ->. apply HQ.
Qed.
End completion.

(** *** What pruning keeps *)

Lemma tree_head l : tree l -> exists i d rest, l = GNode i None (Some d) :: rest /\ subtree_ids l i = ids l.
Proof.
  induction 1 as [j d Hd|l j q dp d Ht IH Hj Hq Hr Hok]; [by eexists _, _, []|].
  destruct IH as (i & d' & rest & -> & Hsub). eexists i, d', _. split; [done|].
  rewrite subtree_ids_snoc. unfold subtree_step. cbn [gn_parent gn_id].
  rewrite Hsub, ids_app, bool_decide_true; [done|]. apply find_node_ids. by eexists.
Qed.

Lemma ancestor_data l m n :
  tree l -> m ∈ l -> n ∈ l -> gn_id n ∈ subtree_ids l (gn_id m) ->
  ((1 <= node_level m)%nat -> cn_local_endpoint (node_data m) = cn_local_endpoint (node_data n)) /\
  ((2 <= node_level m)%nat -> cn_protocol_candidate (node_data m) = cn_protocol_candidate (node_data n)).
Proof.
  intros Ht. remember (node_level n) as k eqn:Hk. revert n Hk.
  induction k as [k IH] using (well_founded_induction Nat.lt_wf_0). intros n Hk Hm Hn Hin.
  destruct (subtree_deeper l m n Ht Hm Hn Hin) as [->|Hlt]; [done|].
  apply subtree_ids_elem in Hin as [Hid|(n' & p & Hn' & Hid & Hp & Hpin)]; [| |done].
  { pose proof (find_node_nodup l n (tree_nodup l Ht) Hn) as H1.
    pose proof (find_node_nodup l m (tree_nodup l Ht) Hm) as H2. rewrite Hid, H2 in H1. injection H1 as ->. lia. }
  assert (n' = n) as ->.
  { pose proof (find_node_nodup l n (tree_nodup l Ht) Hn) as H1.
    pose proof (find_node_nodup l n' (tree_nodup l Ht) Hn') as H2. rewrite Hid, H1 in H2. by injection H2. }
  destruct (tree_parent_level l n p Ht Hn Hp) as (q & Hq & <- & (Hlv & Hloc & Hpr) & _).
  assert (Hql : (node_level q < k)%nat) by (unfold node_level in *; lia).
  destruct (IH _ Hql q eq_refl Hm Hq Hpin) as [H1 H2].
  assert (Hmq : (node_level m <= node_level q)%nat).
  { destruct (subtree_deeper l m q Ht Hm Hq Hpin) as [->|]; lia. }
  unfold node_level in *. split; intros Hge.
  - rewrite H1 by done. symmetry. apply Hloc. lia.
  - rewrite H2 by done. symmetry. apply Hpr. lia.
Qed.

(** A node on level 2 or 3 has an ancestor-or-self on levels 1 and 2, and the
    one on level 1 is not a leaf. *)
Lemma ancestors l n :
  tree l -> n ∈ l -> (2 <= node_level n)%nat ->
  (exists m, m ∈ l /\ node_level m = 2%nat /\ gn_id n ∈ subtree_ids l (gn_id m)) /\
  (exists m, m ∈ l /\ node_level m = 1%nat /\ gn_id n ∈ subtree_ids l (gn_id m) /\ has_child l (gn_id m) = true).
Proof.
  intros Ht Hn Hlv.
  assert (Hup : forall x, x ∈ l -> (0 < node_level x)%nat -> exists y, y ∈ l /\ node_level x = S (node_level y) /\
      gn_id x ∈ subtree_ids l (gn_id y) /\ has_child l (gn_id y) = true).
  { intros x Hx Hl. destruct (gn_parent x) as [p|] eqn:Hp.
    2: { apply (tree_root_level l x Ht Hx) in Hp. lia. }
    destruct (tree_parent_level l x p Ht Hx Hp) as (y & Hy & <- & (Hl' & _) & _). exists y. split_and!; try done.
    - apply subtree_ids_elem; [done|]. right. exists x, (gn_id y). split_and!; try done. apply subtree_self.
    - apply existsb_exists. exists x. split; [by apply list_elem_of_In|]. by apply bool_decide_eq_true. }
  assert (Htrans : forall x y z, x ∈ l -> y ∈ l -> gn_id x ∈ subtree_ids l (gn_id y) -> gn_id y ∈ subtree_ids l z ->
      gn_id x ∈ subtree_ids l z).
  { intros x y z Hx Hy. remember (node_level x) as k eqn:Hk. revert x Hk Hx.
    induction k as [k IH] using (well_founded_induction Nat.lt_wf_0). intros x Hk Hx Hxy Hyz.
    apply subtree_ids_elem in Hxy as [->|(x' & p & Hx' & Hid & Hp & Hpin)]; [done| |done].
    destruct (tree_parent_level l x' p Ht Hx' Hp) as (q & Hq & <- & (Hl' & _) & _).
    assert (x' = x) as ->.
    { pose proof (find_node_nodup l x (tree_nodup l Ht) Hx) as H1.
      pose proof (find_node_nodup l x' (tree_nodup l Ht) Hx') as H2. rewrite Hid, H1 in H2. by injection H2. }
    apply subtree_ids_elem; [done|]. right. exists x, (gn_id q). split_and!; try done.
    apply (IH (node_level q)); try done. unfold node_level in *. lia. }
  assert (H2 : exists m, m ∈ l /\ node_level m = 2%nat /\ gn_id n ∈ subtree_ids l (gn_id m)).
  { destruct (decide (node_level n = 2%nat)) as [H2|H2]; [exists n; split_and!; [done..|apply subtree_self]|].
    destruct (Hup n Hn) as (y & Hy & Hly & Hny & _); [lia|]. exists y. split_and!; try done.
    assert (node_level n <= 3)%nat; [|lia]. unfold node_level, data_level. by destruct (cn_type _); cbn; lia. }
  split; [done|]. destruct H2 as (m & Hm & Hlm & Hnm).
  destruct (Hup m Hm) as (y & Hy & Hly & Hmy & Hc); [lia|]. exists y. split_and!; [done|lia| |done].
  by apply (Htrans n m).
Qed.

Section prune_run.
Context (tr : traverse_order -> traverse_flags -> list gnode -> nat -> list nat) (Htr : traversal_ok tr).
Context (precon : gather_input).
Context (Hwf : wf_selection (selection_properties (gi_transport_properties precon))).
Context (Hsets : sets_ok (selection_properties (gi_transport_properties precon))).

(** Specification of a usable candidate. *)
Definition keep_protocol (d : ct_candidate_node) : bool :=
  match cn_protocol_candidate d with
  | Some p => protocol_implementation_supports_selection_properties (pc_protocol_impl p)
                (selection_properties (gi_transport_properties precon))
  | None => true
  end.
Definition keep_interface (d : ct_candidate_node) : bool :=
  interface_ok precon (default "any" (cn_local_endpoint d ≫= le_interface_name)).
Definition keep (d : ct_candidate_node) : bool :=
  negb (bad_endpoint d) && keep_protocol d && keep_interface d.

(** The undesirable nodes of a tree, as the three traversals list them. *)
Definition undesirable (l : list gnode) (root : nat) : list nat :=
  filter (fun i => bad_id bad_endpoint l i = true) (tr G_LEVEL_ORDER G_TRAVERSE_ALL l root) ++
  filter (fun i => bad_id (bad_protocol precon) l i = true) (tr G_LEVEL_ORDER G_TRAVERSE_ALL l root) ++
  filter (fun i => bad_id (bad_path precon) l i = true) (tr G_LEVEL_ORDER G_TRAVERSE_NON_LEAVES l root).

Lemma visited_elem o f l root x :
  tree l -> subtree_ids l root = ids l -> root ∈ ids l ->
  x ∈ tr o f l root <-> exists n, n ∈ l /\ gn_id n = x /\ flag_selects f l x = true.
Proof.
  intros Ht Hr Hin. destruct (Htr o f l root Ht Hin) as [Hp _]. rewrite Hp, Hr, list_elem_of_filter.
  unfold ids. rewrite list_elem_of_fmap. naive_solver.
Qed.

Lemma undesirable_elem l root x :
  tree l -> subtree_ids l root = ids l -> root ∈ ids l ->
  x ∈ undesirable l root <-> exists n, n ∈ l /\ gn_id n = x /\
    (bad_endpoint (node_data n) = true \/ bad_protocol precon (node_data n) = true \/
     bad_path precon (node_data n) = true /\ has_child l x = true).
Proof.
  intros Ht Hr Hin. unfold undesirable. rewrite !elem_of_app, !list_elem_of_filter, !visited_elem by done.
  assert (Hb : forall bad n, n ∈ l -> bad_id bad l (gn_id n) = bad (node_data n)).
  { intros bad n Hn. unfold bad_id. by rewrite (find_node_nodup l n (tree_nodup l Ht) Hn). }
  split.
  - intros [(Hbad & n & Hn & <- & _)|[(Hbad & n & Hn & <- & _)|(Hbad & n & Hn & <- & Hf)]];
      rewrite Hb in Hbad by done; exists n; (split_and!; [done|done|]).
    + by left.
    + by right; left.
    + by right; right.
  - intros (n & Hn & <- & [Hbad|[Hbad|[Hbad Hf]]]); [left|right; left|right; right];
      (split; [by rewrite Hb|]); exists n; by split_and!.
Qed.

Lemma sorted_by_level l us k :
  tree l -> (forall u, u ∈ us -> exists n, n ∈ l /\ gn_id n = u /\ node_level n = k) ->
  StronglySorted (fun u v => (depth l v <= depth l u)%nat) us.
Proof.
  intros Ht H. induction us as [|u us IH]; [constructor|]. constructor.
  - apply IH. intros v Hv. apply H. by constructor.
  - apply Forall_elem. intros v Hv. destruct (H u) as (n & Hn & <- & Hl); [by constructor|].
    destruct (H v) as (m & Hm & <- & Hl'); [by constructor|]. rewrite !depth_level by done. lia.
Qed.

Lemma StronglySorted_app_intro {A} (R : A -> A -> Prop) l1 l2 :
  StronglySorted R l1 -> StronglySorted R l2 -> (forall x y, x ∈ l1 -> y ∈ l2 -> R x y) ->
  StronglySorted R (l1 ++ l2).
Proof.
  intros H1 H2 H. induction H1 as [|x l1 H1 IH Hx]; [done|]. cbn. constructor.
  - apply IH. intros a b Ha. apply H. by constructor.
  - apply Forall_app. split; [done|]. apply Forall_elem. intros y Hy. apply H; [by constructor|done].
Qed.

Lemma bad_levels d :
  (bad_endpoint d = true -> data_level d = 3%nat) /\
  (bad_protocol precon d = true -> data_level d = 2%nat) /\
  (bad_path precon d = true -> data_level d = 1%nat).
Proof.
  unfold bad_endpoint, bad_protocol, bad_path, data_level.
  destruct (cn_type d); cbn; split_and!; intros; done.
Qed.

Lemma undesirable_bottom_up l root :
  tree l -> subtree_ids l root = ids l -> root ∈ ids l -> bottom_up l (undesirable l root).
Proof.
  intros Ht Hr Hin.
  assert (Hnd : forall o f, NoDup (tr o f l root)).
  { intros o f. destruct (Htr o f l root Ht Hin) as [Hp _]. rewrite Hp. apply list.NoDup_filter, subtree_ids_nodup, Ht. }
  assert (Hlev : forall bad o f k, (forall d, bad d = true -> data_level d = k) -> forall u,
    u ∈ filter (fun i => bad_id bad l i = true) (tr o f l root) -> exists n, n ∈ l /\ gn_id n = u /\ node_level n = k).
  { intros bad o f k Hk u [Hb Hu]%list_elem_of_filter. apply visited_elem in Hu as (n & Hn & <- & _); [|done..].
    exists n. split_and!; [done..|]. apply Hk. unfold bad_id in Hb.
    by rewrite (find_node_nodup l n (tree_nodup l Ht) Hn) in Hb. }
  pose proof (Hlev bad_endpoint G_LEVEL_ORDER G_TRAVERSE_ALL 3%nat (fun d => proj1 (bad_levels d))) as H3.
  pose proof (Hlev (bad_protocol precon) G_LEVEL_ORDER G_TRAVERSE_ALL 2%nat (fun d => proj1 (proj2 (bad_levels d)))) as H2.
  pose proof (Hlev (bad_path precon) G_LEVEL_ORDER G_TRAVERSE_NON_LEAVES 1%nat (fun d => proj2 (proj2 (bad_levels d)))) as H1.
  assert (Hdis : forall k k' (us vs : list nat), k <> k' ->
    (forall u, u ∈ us -> exists n, n ∈ l /\ gn_id n = u /\ node_level n = k) ->
    (forall u, u ∈ vs -> exists n, n ∈ l /\ gn_id n = u /\ node_level n = k') ->
    forall x, x ∈ us -> x ∉ vs).
  { intros k k' us vs Hk Hu Hv x Hx Hx'. destruct (Hu x Hx) as (n & Hn & Hni & Hl).
    destruct (Hv x Hx') as (m & Hm & Hmi & Hl'). apply Hk. rewrite <- Hl, <- Hl'. f_equal.
    pose proof (find_node_nodup l n (tree_nodup l Ht) Hn) as E1.
    pose proof (find_node_nodup l m (tree_nodup l Ht) Hm) as E2. rewrite Hni in E1. rewrite Hmi, E1 in E2.
    by injection E2. }
  unfold undesirable. set (u3 := filter _ (tr G_LEVEL_ORDER G_TRAVERSE_ALL l root)) in *.
  set (u2 := filter (fun i => bad_id (bad_protocol precon) l i = true) _) in *.
  set (u1 := filter (fun i => bad_id (bad_path precon) l i = true) _) in *.
  split_and!.
  - apply list.NoDup_app. split_and!; [by apply list.NoDup_filter| |].
    + intros x Hx. rewrite elem_of_app. intros [Hx'|Hx'].
      * by apply (Hdis 3%nat 2%nat u3 u2 ltac:(lia) H3 H2 x).
      * by apply (Hdis 3%nat 1%nat u3 u1 ltac:(lia) H3 H1 x).
    + apply list.NoDup_app. split_and!; [by apply list.NoDup_filter| |by apply list.NoDup_filter].
      apply (Hdis 2%nat 1%nat); [lia|done|done].
  - intros u. rewrite !elem_of_app. intros [Hu|[Hu|Hu]];
      [destruct (H3 u Hu) as (n & ? & ? & Hl)|destruct (H2 u Hu) as (n & ? & ? & Hl)|destruct (H1 u Hu) as (n & ? & ? & Hl)];
      exists n; (split_and!; [done|done|lia]).
  - assert (Hrel : forall k k' (us vs : list nat), (k' <= k)%nat ->
      (forall u, u ∈ us -> exists n, n ∈ l /\ gn_id n = u /\ node_level n = k) ->
      (forall u, u ∈ vs -> exists n, n ∈ l /\ gn_id n = u /\ node_level n = k') ->
      forall x y, x ∈ us -> y ∈ vs -> (depth l y <= depth l x)%nat).
    { intros k k' us vs Hk Hu Hv x y Hx Hy. destruct (Hu x Hx) as (n & Hn & <- & Hl).
      destruct (Hv y Hy) as (m & Hm & <- & Hl'). rewrite !depth_level by done. lia. }
    apply StronglySorted_app_intro; [by apply (sorted_by_level l u3 3)| |].
    + apply StronglySorted_app_intro; [by apply (sorted_by_level l u2 2)|by apply (sorted_by_level l u1 1)|].
      apply (Hrel 2%nat 1%nat); [lia|done|done].
    + intros x y Hx [Hy|Hy]%elem_of_app.
      * by apply (Hrel 3%nat 2%nat u3 u2 ltac:(lia) H3 H2).
      * by apply (Hrel 3%nat 1%nat u3 u1 ltac:(lia) H3 H1).
Qed.

Definition pruned (l : list gnode) (root : nat) : list gnode := outside (below_any l (undesirable l root)) l.

(** On the lower two levels, pruning keeps exactly the usable nodes. *)
Lemma pruned_keep l root n :
  tree l -> subtree_ids l root = ids l -> root ∈ ids l -> n ∈ l -> (2 <= node_level n)%nat ->
  n ∈ pruned l root <-> keep (node_data n) = true.
Proof.
  intros Ht Hr Hin Hn Hlv. unfold pruned. rewrite outside_elem, below_any_elem. unfold keep.
  destruct (ancestors l n Ht Hn Hlv) as [(m2 & Hm2 & Hl2 & Ha2) (m1 & Hm1 & Hl1 & Ha1 & Hc1)].
  destruct (ancestor_data l m2 n Ht Hm2 Hn Ha2) as [Hloc2 Hpr2].
  destruct (ancestor_data l m1 n Ht Hm1 Hn Ha1) as [Hloc1 _].
  rewrite !andb_true_iff, negb_true_iff. split.
  - intros [Hno _].
    assert (Hgood : forall m, m ∈ l -> gn_id n ∈ subtree_ids l (gn_id m) ->
      ~ (bad_endpoint (node_data m) = true \/ bad_protocol precon (node_data m) = true \/
         bad_path precon (node_data m) = true /\ has_child l (gn_id m) = true)).
    { intros m Hm Hnm Hbad. apply Hno. exists (gn_id m). split; [|done].
      apply undesirable_elem; [done..|]. exists m. by split_and!. }
    split_and!.
    + destruct (bad_endpoint (node_data n)) eqn:Hb; [|done]. exfalso. apply (Hgood n Hn (subtree_self _ _)). by left.
    + unfold keep_protocol. rewrite <- Hpr2 by lia. destruct (cn_protocol_candidate (node_data m2)) as [p|] eqn:Hp; [|done].
      destruct (protocol_implementation_supports_selection_properties _ _) eqn:Hs; [done|].
      exfalso. apply (Hgood m2 Hm2 Ha2). right; left. unfold bad_protocol. rewrite Hp, Hs.
      unfold node_level, data_level in Hl2. by destruct (cn_type (node_data m2)).
    + unfold keep_interface. rewrite <- Hloc1 by lia.
      destruct (interface_ok precon _) eqn:Hs; [done|]. exfalso. apply (Hgood m1 Hm1 Ha1). right; right.
      split; [|done]. unfold bad_path. rewrite Hs. unfold node_level, data_level in Hl1.
      by destruct (cn_type (node_data m1)).
  - intros [[Hbe Hkp] Hki]. split; [|done]. intros (u & Hu & Hnu).
    apply undesirable_elem in Hu as (m & Hm & <- & Hbad); [|done..].
    destruct (ancestor_data l m n Ht Hm Hn Hnu) as [Hlocm Hprm].
    destruct (bad_levels (node_data m)) as (B3 & B2 & B1). destruct Hbad as [Hb|[Hb|[Hb _]]].
    + destruct (subtree_deeper l m n Ht Hm Hn Hnu) as [<-|Hlt]; [congruence|].
      specialize (B3 Hb). unfold node_level, data_level in *. destruct (cn_type (node_data n)); cbn in *; lia.
    + specialize (B2 Hb). unfold keep_protocol in Hkp. unfold node_level in Hprm. rewrite <- Hprm in Hkp by lia.
      unfold bad_protocol in Hb. destruct (cn_protocol_candidate (node_data m)).
      * rewrite Hkp in Hb. cbn in Hb. by rewrite andb_false_r in Hb.
      * by rewrite andb_false_r in Hb.
    + specialize (B1 Hb). unfold keep_interface in Hki. unfold node_level in Hlocm. rewrite <- Hlocm in Hki by lia.
      unfold bad_path in Hb. rewrite Hki in Hb. cbn in Hb. by rewrite andb_false_r in Hb.
Qed.
End prune_run.
