(* ===== verification/Gathering.v ===== *)
(** Correctness of candidate gathering.

    The theorems about the definitions of Candidates.v: pruning keeps exactly
    the usable candidates, completion delivers them sorted, and gathering
    calls its callback once, when the last name resolution has completed, in
    whatever order the resolutions complete. *)

From S2P Require Export Candidates.
From Stdlib Require Import Sorted.

Section run.
Context (tr : traverse_order -> traverse_flags -> list gnode -> nat -> list nat) (Htr : traversal_ok tr).
Context (sort : (ct_candidate_node -> ct_candidate_node -> Z) -> list ct_candidate_node -> list ct_candidate_node)
  (Hsort : sort_ok sort).
Context (precon : gather_input).
Context (Hwf : wf_selection (selection_properties (gi_transport_properties precon))).
Context (Hsets : sets_ok (selection_properties (gi_transport_properties precon))).

(** [root] is the root of the tree [l]. *)
Definition rooted (l : list gnode) (root : nat) : Prop :=
  tree l /\ root ∈ ids l /\ subtree_ids l root = ids l.

(** ** Pruning *)

(** One of the three traversals collects the nodes its callback rejects. *)
Lemma wp_traverse_bad (f : nat -> M gather (bool * bool)) (bad stop : ct_candidate_node -> bool) k flags acc
    (Q : list nat -> gather -> Prop) g root :
  rooted (g_nodes g) root ->
  (forall i n, find_node (g_nodes g) i = Some n -> f i g = Ok ((bad (node_data n), stop (node_data n)), g)) ->
  (forall d, bad d = true -> data_level d = k) ->
  (forall d, stop d = true -> (k < data_level d)%nat) ->
  Q (acc ++ filter (fun i => bad_id bad (g_nodes g) i = true) (tr G_LEVEL_ORDER flags (g_nodes g) root)) g ->
  wp (traverse_collect tr root G_LEVEL_ORDER flags f acc) Q g.
Proof.
  intros (Ht & Hin & Hr) Hf Hbad Hstop HQ. unfold traverse_collect. wp_steps.
  set (l := g_nodes g) in *. set (ns := tr G_LEVEL_ORDER flags l root) in *.
  assert (Hns : forall i, i ∈ ns -> exists n, find_node l i = Some n).
  { intros i Hi. apply visited_elem in Hi as (n & Hn & <- & _); [|done..]. exists n.
    by apply find_node_nodup; [apply tree_nodup|]. }
  assert (Hdata : forall i n, find_node l i = Some n -> bad_id bad l i = bad (node_data n)).
  { intros i n Hn. unfold bad_id. by rewrite Hn. }
  apply (wp_visit_collect f (bad_id bad l)
    (fun i => match find_node l i with Some n => stop (node_data n) | None => false end)).
  - intros i Hi. destruct (Hns i Hi) as [n Hn]. by rewrite (Hf i n Hn), (Hdata i n Hn), Hn.
  - destruct (Htr G_LEVEL_ORDER flags l root Ht Hin) as [_ Hs]. specialize (Hs eq_refl). fold ns in Hs.
    clear HQ. induction Hs as [|i ns' Hs IH Hi]; [constructor|]. constructor.
    + apply IH. intros j Hj. apply Hns. by constructor.
    + apply Forall_elem. intros j Hj Hst. apply (proj1 (Forall_elem _ _) Hi) in Hj as Hd.
      destruct (Hns i) as [n Hn]; [by constructor|]. destruct (Hns j) as [m Hm]; [by constructor|].
      rewrite (Hdata j m Hm). rewrite Hn in Hst. destruct (bad (node_data m)) eqn:Hb; [|done].
      apply Hbad in Hb. apply Hstop in Hst. pose proof (find_node_Some _ _ _ Hn) as [Hnl <-].
      pose proof (find_node_Some _ _ _ Hm) as [Hml <-]. rewrite !depth_level in Hd by done.
      unfold node_level in Hd. lia.
  - intros i Hi Hst. destruct (Hns i Hi) as [n Hn]. rewrite (Hdata i n Hn). rewrite Hn in Hst.
    destruct (bad (node_data n)) eqn:Hb; [|done]. apply Hbad in Hb. apply Hstop in Hst. lia.
  - exact HQ.
Qed.

Lemma wp_prune (Q : unit -> gather -> Prop) g root :
  rooted (g_nodes g) root ->
  (let l := g_nodes g in
   Q tt (set_live (live g - tree_blocks l + tree_blocks (pruned tr precon l root)) (set_g_nodes (pruned tr precon l root) g))) ->
  wp (prune_candidate_tree tr precon root) Q g.
Proof.
  intros Hr HQ. pose proof Hr as (Ht & Hin & Hids). unfold prune_candidate_tree. wp_steps.
  apply (wp_traverse_bad _ bad_endpoint (fun _ => false) 3); [done|intros; by apply endpoint_cb| |done|].
  { intros d. apply (proj1 (bad_levels precon d)). }
  wp_steps. apply (wp_traverse_bad _ (bad_protocol precon) (fun d => bool_decide (cn_type d = NODE_TYPE_ENDPOINT)) 2);
    [done|intros; by apply protocol_cb|intros d; apply (bad_levels precon d)| |].
  { intros d Hd%bool_decide_eq_true. unfold data_level. rewrite Hd. cbn. lia. }
  wp_steps. apply (wp_traverse_bad _ (bad_path precon) (fun d => (1 <? data_level d)%nat) 1);
    [done|intros; by apply path_cb|intros d; apply (bad_levels precon d)| |].
  { intros d Hd%Nat.ltb_lt. done. }
  rewrite <- app_assoc. cbn [app]. apply (wp_remove_nodes tr Htr _ (g_nodes g)); [done|done| |done].
  by apply (undesirable_bottom_up tr Htr precon).
Qed.

(** ** Copies *)

Lemma allocs_copies {A} (copy : A -> M heap (Z * A)) blocks e :
  copies copy blocks -> allocs (copy e) (eq (0, e)) (fun _ => blocks e).
Proof.
  intros Hc h Hh. eapply wp_mono; [apply Hc|]. intros [rc e'] h' [(-> & -> & Hl & Ho)|(_ & _ & Ho)]; [|done].
  split_and!; [done|by apply Ho|lia].
Qed.

Lemma allocs_local_copy l : allocs (ct_local_endpoint_deep_copy l) (eq l) local_opt_blocks.
Proof.
  destruct l as [l|]; [|by apply allocs_ret]. unfold ct_local_endpoint_deep_copy.
  eapply allocs_bind; [apply allocs_malloc|]. intros b <-. cbn [negb].
  eapply allocs_bind; [apply allocs_copies, copies_local|]. intros a <-. cbn [fst snd Z.eqb negb].
  apply allocs_ret; [done|]. cbn. lia.
Qed.

Lemma allocs_remote_copy r : allocs (ct_remote_endpoint_deep_copy r) (eq (Some r)) remote_opt_blocks.
Proof.
  unfold ct_remote_endpoint_deep_copy. eapply allocs_bind; [apply allocs_malloc|]. intros b <-.
  apply allocs_bind_assert; [done|].
  eapply allocs_bind; [apply allocs_copies, copies_remote|]. intros a <-. cbn [Z.eqb negb].
  apply allocs_ret; [done|]. cbn. lia.
Qed.

Lemma allocs_strdup_opt p : allocs (strdup_opt p) (eq p) blocks_of.
Proof. destruct p; [apply allocs_strdup|by apply allocs_ret]. Qed.

Lemma allocs_protocol_new impl alpn :
  allocs (ct_protocol_candidate_new (Some impl) alpn) (eq (Some (ProtocolCandidate impl alpn))) protocol_blocks.
Proof.
  unfold ct_protocol_candidate_new. eapply allocs_bind; [apply allocs_malloc|]. intros b <-. cbn [negb].
  eapply allocs_bind; [apply allocs_strdup_opt|]. intros a <-. rewrite andb_negb_r.
  apply allocs_ret; [done|]. cbn. lia.
Qed.

Lemma allocs_protocol_copy p : allocs (ct_protocol_candidate_copy p) (eq p) protocol_blocks.
Proof. destruct p as [[impl alpn]|]; [apply allocs_protocol_new|by apply allocs_ret]. Qed.

Definition node_opt_blocks (o : option ct_candidate_node) : Z :=
  match o with Some d => node_blocks d | None => 0 end.

(** When memory suffices, a new node holds copies of what it was given. *)
Lemma allocs_node ty l r p :
  allocs (candidate_node_new ty l r p) (eq (Some (CandidateNode ty l r p))) node_opt_blocks.
Proof.
  unfold candidate_node_new. eapply allocs_bind; [apply allocs_malloc|]. intros b <-. cbn [negb].
  eapply allocs_bind; [apply allocs_local_copy|]. intros a <-. rewrite andb_negb_r.
  eapply (allocs_bind _ _ (eq r) remote_opt_blocks).
  { destruct r as [r|]; [apply allocs_remote_copy|by apply allocs_ret]. }
  intros r' <-. rewrite andb_negb_r.
  eapply allocs_bind; [apply allocs_protocol_copy|]. intros p' <-. apply allocs_ret; [done|].
  cbn. unfold node_blocks, content_blocks. cbn. lia.
Qed.

Lemma allocs_node_copy d : allocs (ct_candidate_node_copy (Some d)) (eq (Some d)) node_opt_blocks.
Proof. destruct d. apply allocs_node. Qed.

(** ** Completion *)

Definition wanted (local_only : bool) : node_type := if local_only then NODE_TYPE_PROTOCOL else NODE_TYPE_ENDPOINT.

Definition leaf_data (l : list gnode) (i : nat) : ct_candidate_node :=
  match find_node l i with Some n => node_data n | None => CandidateNode NODE_TYPE_ROOT None None None end.

Lemma wp_copy_leaves ns acc (Q : list ct_candidate_node -> gather -> Prop) g :
  tree (g_nodes g) -> (forall i, i ∈ ns -> i ∈ ids (g_nodes g)) -> oracle_ok (g_heap g) ->
  g_context_freed g = false ->
  (let new := filter (fun d => cn_type d = wanted (g_local_only g)) (leaf_data (g_nodes g) <$> ns) in
   forall h, oracle_ok h -> h_live h = live g + zsum (content_blocks <$> new) -> Q (acc ++ new) (set_g_heap h g)) ->
  wp (get_deep_copy_leaf_nodes ns acc) Q g.
Proof.
  revert acc g. induction ns as [|i ns IH]; intros acc g Ht Hin Ho Hf HQ; cbn [get_deep_copy_leaf_nodes].
  - apply wp_ret. specialize (HQ (g_heap g) Ho). cbn in HQ. rewrite app_nil_r in HQ.
    replace (set_g_heap (g_heap g) g) with g in HQ by (by destruct g). apply HQ. unfold live. lia.
  - destruct (proj1 (find_node_ids (g_nodes g) i)) as [n Hn]; [apply Hin; constructor|].
    wp_steps. eapply wp_data_at; [done..|]. wp_steps. unfold use_context. wp_steps. { by rewrite Hf. } wp_steps.
    cbv zeta. fold (wanted (g_local_only g)). rewrite fmap_cons in HQ.
    replace (leaf_data (g_nodes g) i) with (node_data n) in HQ by (unfold leaf_data; by rewrite Hn).
    case_bool_decide as Hty; cbn [negb].
    + wp_steps. eapply wp_heaped; [apply allocs_node_copy|done|]. intros c h <- Hh Hl. wp_steps.
      eapply wp_heaped_frees; [apply frees_block|]. apply IH; [done|intros j Hj; apply Hin; by constructor|done|done|].
      cbn. intros h' Hh' Hl'. rewrite <- app_assoc. unfold live in Hl'. cbn in Hl'.
      rewrite filter_cons_True in HQ by done. apply HQ; [done|].
      rewrite fmap_cons, zsum_cons. unfold live, node_opt_blocks, node_blocks in *. lia.
    + apply IH; [done|intros j Hj; apply Hin; by constructor|done|done|].
      rewrite filter_cons_False in HQ by done. exact HQ.
Qed.

Lemma rooted_outside l root us :
  rooted l root -> bottom_up l us -> rooted (outside (below_any l us) l) root.
Proof.
  intros (Ht & Hin & Hids) (_ & Hus & _). pose proof (closed_below_any l us Ht) as Hcl.
  destruct (tree_head l Ht) as (i & d & rest & Hl & Hi).
  assert (Hno : forall n, n ∈ l -> gn_parent n = None -> gn_id n ∉ below_any l us).
  { intros r Hr Hrp (w & Hw & Hrw)%below_any_elem. destruct (Hus w Hw) as (m & Hm & <- & Hml).
    pose proof (proj1 (tree_root_level l r Ht Hr) Hrp).
    destruct (subtree_deeper l m r Ht Hm Hr Hrw) as [->|Hlt]; lia. }
  assert (Hroot : root ∉ below_any l us).
  { assert (Hh : GNode i None (Some d) ∈ l) by (rewrite Hl; constructor).
    assert (root = i) as ->; [|by apply (Hno (GNode i None (Some d)))].
    (* the root is below itself only *)
    assert (Hir : i ∈ subtree_ids l root).
    { rewrite Hids. apply list_elem_of_fmap. by exists (GNode i None (Some d)). }
    destruct (proj1 (list_elem_of_fmap _ _ _) Hin) as (m & Hmr & Hm).
    apply (subtree_ids_elem l root i Ht) in Hir as [?|(n & p & Hn & Hni & Hp & _)]; [done|].
    pose proof (find_node_nodup l n (tree_nodup l Ht) Hn) as E1. pose proof (find_node_nodup l _ (tree_nodup l Ht) Hh) as E2.
    cbn in E2. rewrite Hni, E2 in E1. injection E1 as <-. done. }
  split_and!.
  - apply (tree_outside l _ root Ht Hcl); [|exact Hno]. intros Hn. apply find_node_ids in Hin as [x Hx]. congruence.
  - destruct (proj1 (list_elem_of_fmap _ _ _) Hin) as (m & -> & Hm). apply list_elem_of_fmap. exists m.
    split; [done|]. by apply outside_elem.
  - rewrite subtree_outside by done. rewrite Hids. unfold ids, outside. clear.
    generalize (below_any l us). intros R. induction l as [|n l IH]; [done|]. rewrite fmap_cons.
    destruct (decide (gn_id n ∈ R)).
    + rewrite !filter_cons_False by tauto. apply IH.
    + rewrite !filter_cons_True by done. cbn. by f_equal.
Qed.

Lemma pruned_rooted l root : rooted l root -> rooted (pruned tr precon l root) root.
Proof.
  intros Hr. apply rooted_outside; [done|]. destruct Hr as (Ht & Hin & Hids). by apply undesirable_bottom_up.
Qed.

(** The data of the visited leaves. *)
Lemma leaves_data l root :
  rooted l root ->
  leaf_data l <$> tr G_IN_ORDER G_TRAVERSE_LEAVES l root ≡ₚ node_data <$> filter (fun n => has_child l (gn_id n) = false) l.
Proof.
  intros (Ht & Hin & Hids). destruct (Htr G_IN_ORDER G_TRAVERSE_LEAVES l root Ht Hin) as [Hp _].
  rewrite Hp, Hids. clear Hp. apply reflexive_eq.
  assert (H : forall k, (forall n, n ∈ k -> n ∈ l) ->
    leaf_data l <$> filter (fun x => flag_selects G_TRAVERSE_LEAVES l x = true) (ids k) =
    node_data <$> filter (fun n => has_child l (gn_id n) = false) k); [|by apply H].
  induction k as [|n k IH]; intros Hk; [done|]. unfold ids. rewrite fmap_cons.
  specialize (IH ltac:(intros m Hm; apply Hk; by constructor)). unfold ids in IH.
  destruct (has_child l (gn_id n)) eqn:Hc.
  - rewrite !filter_cons_False; [exact IH|by rewrite Hc|cbn; by rewrite Hc].
  - rewrite !filter_cons_True; [|done|cbn; by rewrite Hc]. rewrite !fmap_cons, IH. f_equal. unfold leaf_data.
    rewrite (find_node_nodup l n); [done|by apply tree_nodup|apply Hk; by constructor].
Qed.

(** A node of the deepest level has no children. *)
Lemma deepest_leaf l k n :
  tree l -> (forall n, n ∈ l -> (node_level n <= k)%nat) -> n ∈ l -> node_level n = k -> has_child l (gn_id n) = false.
Proof.
  intros Ht Hlv Hn Hk. destruct (has_child l (gn_id n)) eqn:Hc; [|done]. exfalso.
  apply existsb_exists in Hc as (m & Hm%list_elem_of_In & Hmp%bool_decide_eq_true).
  destruct (tree_parent_level l m (gn_id n) Ht Hm Hmp) as (q & Hq & Hqi & (Hl & _) & _).
  assert (q = n) as ->.
  { pose proof (find_node_nodup l q (tree_nodup l Ht) Hq) as E1.
    pose proof (find_node_nodup l n (tree_nodup l Ht) Hn) as E2. rewrite Hqi, E2 in E1. by injection E1. }
  specialize (Hlv m Hm). unfold node_level in *. lia.
Qed.

(** In a tree whose deepest level is the wanted one, the wanted leaves that
    are visited after pruning are the usable nodes of that level. *)
Lemma wanted_leaves l root local_only :
  rooted l root -> (forall n, n ∈ l -> (node_level n <= level (wanted local_only))%nat) ->
  let l' := pruned tr precon l root in
  filter (fun d => cn_type d = wanted local_only) (leaf_data l' <$> tr G_IN_ORDER G_TRAVERSE_LEAVES l' root) ≡ₚ
  filter (fun d => cn_type d = wanted local_only /\ keep precon d = true) (node_data <$> l).
Proof.
  intros Hr Hlv l'. destruct (pruned_rooted l root Hr) as (Ht' & Hin' & Hids'). fold l' in Ht', Hin', Hids'.
  pose proof Hr as (Ht & Hin & Hids).
  assert (Hsub : forall n, n ∈ l' -> n ∈ l) by (intros n Hn; by apply outside_elem in Hn as [_ Hn]).
  rewrite (leaves_data l' root (pruned_rooted l root Hr)).
  assert (Hleaf : forall n, n ∈ l' -> cn_type (node_data n) = wanted local_only -> has_child l' (gn_id n) = false).
  { intros n Hn Hty. apply (deepest_leaf l' (level (wanted local_only))); [done|auto|done|].
    unfold node_level, data_level. by rewrite Hty. }
  assert (Hkeep : forall n, n ∈ l -> cn_type (node_data n) = wanted local_only ->
            (n ∈ l' <-> keep precon (node_data n) = true)).
  { intros n Hn Hty. apply pruned_keep; [done..|]. unfold node_level, data_level. rewrite Hty.
    destruct local_only; cbn; lia. }
  rewrite filter_fmap_list, list_filter_filter.
  rewrite (list_filter_ext _ (fun n => cn_type (node_data n) = wanted local_only) l')
    by (intros n Hn; cbn; specialize (Hleaf n Hn); tauto).
  rewrite filter_fmap_list. apply reflexive_eq. f_equal. unfold l', pruned, outside.
  rewrite list_filter_filter. apply list_filter_ext. intros n Hn. cbn.
  specialize (Hkeep n Hn). unfold l', pruned in Hkeep. rewrite outside_elem in Hkeep. tauto.
Qed.

(** The array handed to the callback: the usable nodes of the wanted level,
    best first. *)
Definition delivered (l : list ct_candidate_node) (local_only : bool) (res : list ct_candidate_node) : Prop :=
  res ≡ₚ filter (fun d => cn_type d = wanted local_only /\ keep precon d = true) l /\
  StronglySorted (fun a b => compare_candidates precon a b <= 0) res.

Lemma sorted_candidates cands :
  (forall d, d ∈ cands -> is_Some (cn_protocol_candidate d)) ->
  sort (compare_candidates precon) cands ≡ₚ cands /\
  StronglySorted (fun a b => compare_candidates precon a b <= 0) (sort (compare_candidates precon) cands).
Proof.
  intros Hp. apply Hsort; unfold compare_candidates.
  - intros a b Ha Hb. destruct (Hp a Ha) as [p ->], (Hp b Hb) as [q ->].
    by destruct (compare_preorder (selection_properties (gi_transport_properties precon))
                   (pc_protocol_impl p) (pc_protocol_impl q) (pc_protocol_impl p)) as [? _].
  - intros a b c Ha Hb Hc. destruct (Hp a Ha) as [p ->], (Hp b Hb) as [q ->], (Hp c Hc) as [r ->].
    by destruct (compare_preorder (selection_properties (gi_transport_properties precon))
                   (pc_protocol_impl p) (pc_protocol_impl q) (pc_protocol_impl r)) as [_ ?].
Qed.

Lemma wp_complete (Q : unit -> gather -> Prop) g root :
  rooted (g_nodes g) root -> g_root_node g = Some root -> oracle_ok (g_heap g) ->
  g_context_freed g = false -> g_failed g = false ->
  (forall n, n ∈ g_nodes g -> (node_level n <= level (wanted (g_local_only g)))%nat) ->
  (forall h res, delivered (node_data <$> g_nodes g) (g_local_only g) res -> oracle_ok h ->
     h_live h = live g - tree_blocks (g_nodes g) - 1 + zsum (content_blocks <$> res) ->
     Q tt (set_g_context_freed true (set_g_calls (g_calls g ++ [Some res]) (set_g_nodes [] (set_g_heap h g))))) ->
  wp (build_candidate_tree_is_complete_cb tr sort precon) Q g.
Proof.
  intros Hr Hroot Ho Hf Hfail Hlv HQ. set (l := g_nodes g) in *.
  destruct (pruned_rooted l root Hr) as (Ht' & Hin' & Hids'). set (l' := pruned tr precon l root) in *.
  unfold build_candidate_tree_is_complete_cb, use_context. wp_steps. { by rewrite Hf. } wp_steps. rewrite Hfail.
  wp_steps. apply wp_prune; [exact Hr|]. cbv zeta. fold l l'. wp_steps.
  apply wp_copy_leaves; cbn [g_nodes set_g_nodes set_live set_g_heap g_heap g_context_freed g_local_only];
    [exact Ht'|intros i; by apply (traversal_in_ids tr Htr)|exact Ho|exact Hf|].
  cbv zeta. intros h Hh Hl. wp_steps. unfold live in Hl; cbn in Hl. fold l' in Hl.
  pose proof (wanted_leaves l root (g_local_only g) Hr Hlv) as Hcands. cbv zeta in Hcands. fold l' in Hcands.
  set (cands := filter (fun d => cn_type d = wanted (g_local_only g)) (leaf_data l' <$> _)) in *.
  assert (Hdata : forall d, d ∈ cands -> is_Some (cn_protocol_candidate d)).
  { intros d Hd. rewrite Hcands in Hd. apply list_elem_of_filter in Hd as [[Hty _] (n & -> & Hn)%list_elem_of_fmap].
    apply (node_ok l n (proj1 Hr) Hn). unfold data_level. rewrite Hty. destruct (g_local_only g); cbn; lia. }
  unfold g_node_traverse. wp_steps. apply wp_visit_free; cbn [g_nodes set_g_heap set_live set_g_nodes].
  { exact Ht'. } { intros i. by apply (traversal_in_ids tr Htr). }
  fold l'. rewrite (visited_blocks tr Htr G_IN_ORDER l' root Ht' Hin'). unfold g_node_destroy. wp_steps.
  assert (Hnil : outside (subtree_ids l' root) l' = []).
  { destruct (outside _ l') as [|n k] eqn:Hn; [done|]. exfalso.
    assert (Hx : n ∈ outside (subtree_ids l' root) l') by (rewrite Hn; constructor).
    apply outside_elem in Hx as [Hx Hy]. apply Hx. rewrite Hids'. apply list_elem_of_fmap. by exists n. }
  cbn [g_nodes set_g_heap set_live set_g_nodes]. fold l'.
  change (filter (fun n => gn_id n ∉ subtree_ids l' root) l') with (outside (subtree_ids l' root) l'). rewrite !Hnil.
  eapply wp_mono.
  { match goal with |- wp _ _ ?s0 => apply (wp_for_each_inv _ (fun s => s = s0)); [done|] end.
    intros d s Hd ->. destruct (Hdata d Hd) as [p Hp]. rewrite Hp. by wp_steps. }
  intros [] s ->. unfold candidate_node_array_ready_cb, free_gather_context. wp_steps. { cbn. by rewrite Hf. }
  wp_steps. eapply wp_heaped_frees; [apply frees_block|]. wp_steps.
  destruct (sorted_candidates cands Hdata) as [Hperm Hsorted].
  eapply (eq_rect _ (fun x => Q tt x)); [apply (HQ (Heap (h_oracle h) (h_live h - (tree_blocks l' - tree_blocks []) - 1))
    (sort (compare_candidates precon) cands))|done].
  - split; [by rewrite Hperm, Hcands|done].
  - done.
  - rewrite (zsum_Permutation _ _ (fmap_Permutation content_blocks _ _ Hperm)). cbn. unfold live. fold l'. lia.
Qed.

(** ** Building *)

Definition fresh (g : gather) : Prop := forall i, i ∈ ids (g_nodes g) -> (i < g_next_node g)%nat.

(** A new node: its parent and its data. *)
Definition kid (n : gnode) : option nat * ct_candidate_node := (gn_parent n, node_data n).

(** From [g] to [g'], only nodes were added and blocks allocated for them. *)
Definition extends (g g' : gather) (ks : list (option nat * ct_candidate_node)) : Prop :=
  exists extra h next,
    g' = set_g_next_node next (set_g_nodes (g_nodes g ++ extra) (set_g_heap h g)) /\
    kid <$> extra = ks /\ tree (g_nodes g') /\ fresh g' /\ oracle_ok h /\
    h_live h = live g + zsum (node_blocks <$> ks.*2).

Lemma extends_refl g : tree (g_nodes g) -> fresh g -> oracle_ok (g_heap g) -> extends g g [].
Proof.
  intros. exists [], (g_heap g), (g_next_node g). rewrite app_nil_r. destruct g. cbn in *. unfold live. cbn.
  split_and!; try done. lia.
Qed.

Lemma extends_trans g1 g2 g3 ks ks' : extends g1 g2 ks -> extends g2 g3 ks' -> extends g1 g3 (ks ++ ks').
Proof.
  intros (x & h & n & -> & <- & _ & _ & _ & Hl) (x' & h' & n' & -> & <- & Ht & Hf & Ho & Hl').
  exists (x ++ x'), h', n'. unfold live in *. cbn in *. rewrite app_assoc. split_and!; try done.
  - by rewrite fmap_app.
  - rewrite !fmap_app, zsum_app. lia.
Qed.

Lemma extends_find g g' ks i n : extends g g' ks -> find_node (g_nodes g) i = Some n -> find_node (g_nodes g') i = Some n.
Proof. intros (x & h & k & -> & _) Hn. cbn. by apply find_node_app_l. Qed.

Lemma extends_facts g g' ks :
  extends g g' ks -> tree (g_nodes g') /\ fresh g' /\ oracle_ok (g_heap g') /\
  live g' = live g + zsum (node_blocks <$> ks.*2) /\
  exists extra, g_nodes g' = g_nodes g ++ extra /\ kid <$> extra = ks.
Proof. intros (x & h & k & -> & ? & ? & ? & ? & ?). split_and!; try done. by exists x. Qed.

Definition building (g : gather) : Prop := tree (g_nodes g) /\ fresh g /\ oracle_ok (g_heap g).

Lemma building_extends g g' ks : extends g g' ks -> building g'.
Proof. intros H. by destruct (extends_facts g g' ks H) as (? & ? & ? & _). Qed.

(** Appending a node whose data was allocated since [g]. *)
Lemma wp_append p dp d h (Q : nat -> gather -> Prop) g :
  building g -> find_node (g_nodes g) p = Some dp -> refines (node_data dp) d -> data_ok d ->
  oracle_ok h -> h_live h = live g + node_blocks d ->
  (forall i g', extends g g' [(Some p, d)] -> Q i g') ->
  wp (g_node_append_data (Some p) (Some d)) Q (set_g_heap h g).
Proof.
  intros (Ht & Hf & Ho) Hp Href Hok Hh Hl HQ. unfold g_node_append_data. wp_steps. apply HQ.
  exists [GNode (g_next_node g) (Some p) (Some d)], h, (Datatypes.S (g_next_node g)). cbn.
  assert (Ht' : tree (g_nodes g ++ [GNode (g_next_node g) (Some p) (Some d)])).
  { eapply tree_add; [done| |done| |done].
    - intros Hin. apply Hf in Hin. lia.
    - exists (node_data dp). split; [|done]. eapply tree_node_data; [done|]. by apply (find_node_Some _ p). }
  split_and!; try done; [|lia].
  intros i. cbn. rewrite ids_app, elem_of_app. intros [Hi|Hi%list_elem_of_singleton]; [specialize (Hf i Hi)|]; cbn in *; lia.
Qed.

Definition path_node (e : ct_local_endpoint) : ct_candidate_node := CandidateNode NODE_TYPE_PATH (Some e) None None.
Definition protocol_node (parent : ct_candidate_node) (c : ct_protocol_impl * option string) : ct_candidate_node :=
  CandidateNode NODE_TYPE_PROTOCOL (cn_local_endpoint parent) None (Some (ProtocolCandidate c.1 c.2)).
Definition endpoint_node (parent : ct_candidate_node) (r : ct_remote_endpoint) : ct_candidate_node :=
  CandidateNode NODE_TYPE_ENDPOINT (cn_local_endpoint parent) (Some r) (cn_protocol_candidate parent).

(** The children of one node. *)
Definition kids_of (p : nat) (ds : list ct_candidate_node) : list (option nat * ct_candidate_node) :=
  pair (Some p) <$> ds.

Lemma path_node_ok dp e :
  cn_type (node_data dp) = NODE_TYPE_ROOT -> refines (node_data dp) (path_node e) /\ data_ok (path_node e).
Proof.
  intros Hty. unfold refines, data_ok, data_level. rewrite Hty. cbn. split_and!; intros; try lia; eauto.
Qed.

Lemma protocol_node_ok l dp c :
  tree l -> dp ∈ l -> cn_type (node_data dp) = NODE_TYPE_PATH ->
  refines (node_data dp) (protocol_node (node_data dp) c) /\ data_ok (protocol_node (node_data dp) c).
Proof.
  intros Ht Hp Hty. pose proof (node_ok l dp Ht Hp) as (Hloc & _).
  unfold refines, data_ok, data_level in *. rewrite Hty in *. cbn in *. split_and!; intros; try lia; eauto.
Qed.

Lemma endpoint_node_ok l dp r :
  tree l -> dp ∈ l -> cn_type (node_data dp) = NODE_TYPE_PROTOCOL ->
  refines (node_data dp) (endpoint_node (node_data dp) r) /\ data_ok (endpoint_node (node_data dp) r).
Proof.
  intros Ht Hp Hty. pose proof (node_ok l dp Ht Hp) as (Hloc & Hpr & _).
  unfold refines, data_ok, data_level in *. rewrite Hty in *. cbn in *.
  split_and!; intros; try lia; eauto with lia.
Qed.

Lemma wp_add_path_nodes p dp l (Q : Z -> gather -> Prop) g :
  building g -> find_node (g_nodes g) p = Some dp -> cn_type (node_data dp) = NODE_TYPE_ROOT ->
  (forall g', extends g g' (kids_of p (path_node <$> l)) -> Q 0 g') -> wp (add_path_nodes p l) Q g.
Proof.
  intros Hb Hp Hty. revert g Hb Hp. induction l as [|e l IH]; intros g Hb Hp HQ; cbn [add_path_nodes].
  - destruct Hb as (? & ? & ?). apply wp_ret, HQ, extends_refl; done.
  - wp_steps. eapply wp_heaped; [apply allocs_node|apply Hb|]. intros n h <- Hh Hl. wp_steps.
    destruct (path_node_ok dp e Hty) as [Href Hok]. eapply wp_append; [done..|].
    intros i g' Hg'. apply IH; [by eapply building_extends|by eapply extends_find|].
    intros g'' Hg''. apply HQ. by eapply (extends_trans _ _ _ [_]).
Qed.

Lemma wp_add_protocol_nodes p dp l (Q : Z -> gather -> Prop) g :
  building g -> find_node (g_nodes g) p = Some dp -> cn_type (node_data dp) = NODE_TYPE_PATH ->
  (forall g', extends g g' (kids_of p (protocol_node (node_data dp) <$> l)) -> Q 0 g') ->
  wp (add_protocol_nodes p (node_data dp) l) Q g.
Proof.
  intros Hb Hp Hty. revert g Hb Hp. induction l as [|[impl alpn] l IH]; intros g Hb Hp HQ; cbn [add_protocol_nodes].
  - destruct Hb as (? & ? & ?). apply wp_ret, HQ, extends_refl; done.
  - unfold add_protocol_node. wp_steps. eapply wp_heaped; [apply allocs_protocol_new|apply Hb|]. intros c h <- Hh Hl.
    wp_steps. eapply wp_heaped; [apply allocs_node|done|]. intros n h' <- Hh' Hl'.
    wp_steps. eapply wp_heaped_frees; [apply frees_protocol|]. wp_steps.
    destruct (protocol_node_ok _ dp (impl, alpn) (proj1 Hb) (proj1 (find_node_Some _ _ _ Hp)) Hty) as [Href Hok].
    unfold live in *. cbn in Hl, Hl' |- *.
    apply (wp_append p dp (protocol_node (node_data dp) (impl, alpn))
      (Heap (h_oracle h') (h_live h' - (blocks_of alpn + 1))) _ g); [done|done|done|done|exact Hh'| |].
    + unfold live, protocol_node. cbn. lia.
    + intros i g' Hg'. wp_steps. cbn [Z.eqb negb]. apply IH; [by eapply building_extends|by eapply extends_find|].
      intros g'' Hg''. apply HQ. by eapply (extends_trans _ _ _ [_]).
Qed.

Lemma wp_append_endpoints p dp l (Q : unit -> gather -> Prop) g :
  building g -> find_node (g_nodes g) p = Some dp -> cn_type (node_data dp) = NODE_TYPE_PROTOCOL ->
  (forall g', extends g g' (kids_of p (endpoint_node (node_data dp) <$> l)) -> Q tt g') ->
  wp (for_each l (append_endpoint p (node_data dp))) Q g.
Proof.
  intros Hb Hp Hty. revert g Hb Hp. induction l as [|r l IH]; intros g Hb Hp HQ; cbn [for_each].
  - destruct Hb as (? & ? & ?). apply wp_ret, HQ, extends_refl; done.
  - apply wp_bind. unfold append_endpoint at 1. wp_steps. eapply wp_heaped; [apply allocs_node|apply Hb|]. intros n h <- Hh Hl.
    wp_steps. destruct (endpoint_node_ok _ dp r (proj1 Hb) (proj1 (find_node_Some _ _ _ Hp)) Hty) as [Href Hok].
    eapply wp_append; [done..|].
    intros i g' Hg'. wp_steps. apply IH; [by eapply building_extends|by eapply extends_find|].
    intros g'' Hg''. apply HQ. by eapply (extends_trans _ _ _ [_]).
Qed.

(** *** Paths *)

Context (gai : string -> Z * list (Z * sockaddr)) (uv : Z * list (string * sockaddr)).

(** What a local endpoint resolves to: itself when it has an address, else
    one endpoint per address of its interfaces. *)
Definition local_resolution (e : ct_local_endpoint) : list ct_local_endpoint :=
  if negb (ss_family (le_resolved_address e) =? AF_UNSPEC) then [e]
  else (fun a => LocalEndpoint (requested_port gai e) (le_interface_name e) (le_service e)
                   (set_port_if_inet (requested_port gai e) a)) <$>
       ct_get_interface_addresses uv (Some (default "any" (le_interface_name e))).

Definition local_list_blocks (o : option (list ct_local_endpoint)) : Z :=
  match o with Some l => 1 + zsum (local_blocks <$> l) | None => 0 end.

Lemma allocs_resolved_locals e p l :
  allocs (resolved_locals e p l)
    (eq ((fun a => LocalEndpoint p (le_interface_name e) (le_service e) (set_port_if_inet p a)) <$> l))
    (fun l => zsum (local_blocks <$> l)).
Proof.
  induction l as [|a l IH]; cbn [resolved_locals]; [by apply allocs_ret|].
  eapply allocs_bind.
  { unfold resolved_local. eapply (allocs_bind _ _ _ _ (eq _) local_blocks); [apply allocs_strdup_opt|]. intros n <-.
    eapply allocs_bind; [apply allocs_strdup_opt|]. intros s <-. apply allocs_ret; [reflexivity|].
    unfold local_blocks. cbn. lia. }
  intros x <-. eapply allocs_bind; [exact IH|]. intros xs <-. apply allocs_ret; [done|].
  rewrite !fmap_cons, zsum_cons. lia.
Qed.

Lemma allocs_local_resolve e :
  allocs (ct_local_endpoint_resolve gai uv e) (fun r => default [] r = local_resolution e) local_list_blocks.
Proof.
  unfold ct_local_endpoint_resolve, local_resolution. destruct (negb _).
  - eapply allocs_bind; [apply allocs_local_copy|]. intros o <-. apply allocs_ret; [done|]. cbn. lia.
  - eapply (allocs_bind _ _ (eq (requested_port gai e)) (fun _ => 0)).
    { unfold requested_port, ct_local_endpoint_get_service_port, ct_local_endpoint_get_service.
      destruct (le_service e); cbn [is_Some_b]; [|by apply allocs_ret].
      eapply (allocs_bind _ _ (eq _) (fun _ => 0)); [|intros p <-; by apply allocs_ret].
      eapply allocs_bind_deref; [done|]. by apply allocs_ret. }
    intros p <-. generalize (ct_get_interface_addresses uv (Some (default "any" (le_interface_name e)))). intros found.
    destruct (Nat.ltb_spec 0 (length found)).
    + eapply allocs_bind; [apply allocs_malloc|]. intros b <-. cbn [negb].
      eapply allocs_bind; [apply allocs_resolved_locals|]. intros l <-. apply allocs_ret; [done|]. cbn. lia.
    + assert (found = []) as -> by (apply length_zero_iff_nil; lia). by apply allocs_ret.
Qed.

Lemma frees_local_list (null : bool) l :
  (null = true -> l = []) ->
  frees (ct_local_endpoints_free null l) (if null then 0 else 1 + zsum (local_blocks <$> l)).
Proof.
  intros Hn. unfold ct_local_endpoints_free. destruct null.
  - rewrite Hn by done. eapply frees_eq; [apply frees_bind; apply frees_ret|done].
  - by apply frees_array, frees_local.
Qed.

(** Blocks that were held while nodes were added. *)
Lemma extends_release g g' h ks n :
  extends (set_g_heap h g) g' ks -> h_live h = live g + n ->
  extends g (set_g_heap (Heap (h_oracle (g_heap g')) (h_live (g_heap g') - n)) g') ks.
Proof.
  intros (x & h' & k & -> & <- & Ht & Hf & Ho & Hl) Hn. exists x, (Heap (h_oracle h') (h_live h' - n)), k.
  split_and!; try done. revert Hl. generalize (zsum (node_blocks <$> (kid <$> x).*2)). intros z. unfold live in *. cbn. lia.
Qed.

Lemma wp_branch_by_path p dp e (Q : Z -> gather -> Prop) g :
  building g -> find_node (g_nodes g) p = Some dp -> cn_type (node_data dp) = NODE_TYPE_ROOT ->
  (forall g', extends g g' (kids_of p (path_node <$> local_resolution e)) -> Q 0 g') ->
  wp (ct_branch_by_path uv gai p e) Q g.
Proof.
  intros Hb Hp Hty HQ. unfold ct_branch_by_path. wp_steps. eapply wp_data_at; [apply Hb|done|]. wp_steps.
  { by apply bool_decide_eq_true. }
  wp_steps. eapply wp_heaped; [apply allocs_local_resolve|apply Hb|]. intros found h Hfound Hh Hl. wp_steps.
  eapply wp_add_path_nodes; [split_and!; [apply Hb|apply Hb|done]|done|done|]. intros g' Hg'. wp_steps.
  eapply wp_heaped_frees; [apply frees_local_list; by destruct found|]. wp_steps. apply HQ.
  rewrite <- Hfound. eapply extends_release; [exact Hg'|]. rewrite Hl. by destruct found.
Qed.

Lemma kids_of_app p a b : kids_of p (a ++ b) = kids_of p a ++ kids_of p b.
Proof. apply fmap_app. Qed.

Lemma wp_branch_all_by_path p dp l (Q : Z -> gather -> Prop) g :
  building g -> find_node (g_nodes g) p = Some dp -> cn_type (node_data dp) = NODE_TYPE_ROOT ->
  (forall g', extends g g' (kids_of p (path_node <$> mjoin (local_resolution <$> l))) -> Q 0 g') ->
  wp (branch_all_by_path uv gai p l) Q g.
Proof.
  intros Hb Hp Hty. revert g Hb Hp. induction l as [|e l IH]; intros g Hb Hp HQ; cbn [branch_all_by_path].
  - destruct Hb as (? & ? & ?). apply wp_ret, HQ, extends_refl; done.
  - wp_steps. eapply wp_branch_by_path; [done..|]. intros g' Hg'. cbn [Z.eqb negb].
    apply IH; [by eapply building_extends|by eapply extends_find|]. intros g'' Hg''. apply HQ.
    change (mjoin (local_resolution <$> e :: l)) with (local_resolution e ++ mjoin (local_resolution <$> l)).
    rewrite fmap_app, kids_of_app. by eapply extends_trans.
Qed.

(** *** Protocols *)

Definition protocol_kids (l : list gnode) (combos : list (ct_protocol_impl * option string)) (leaf : nat) :
    list (option nat * ct_candidate_node) :=
  kids_of leaf (protocol_node (leaf_data l leaf) <$> combos).

Lemma wp_branch_protocols alpns leaves l (Q : unit -> gather -> Prop) g :
  building g ->
  (forall i, i ∈ leaves -> exists n, find_node l i = Some n /\ find_node (g_nodes g) i = Some n /\
     cn_type (node_data n) = NODE_TYPE_PATH) ->
  (forall g', extends g g' (mjoin (protocol_kids l (protocol_combinations alpns) <$> leaves)) -> Q tt g') ->
  wp (for_each leaves (fun leaf => branch_by_protocol_options leaf alpns ;; mret tt)) Q g.
Proof.
  revert g. induction leaves as [|i leaves IH]; intros g Hb Hin HQ; cbn [for_each].
  - destruct Hb as (? & ? & ?). apply wp_ret, HQ, extends_refl; done.
  - destruct (Hin i) as (n & Hl & Hn & Hty); [by constructor|]. apply wp_bind. unfold branch_by_protocol_options. wp_steps.
    eapply wp_data_at; [apply Hb|done|]. wp_steps. { by apply bool_decide_eq_true. }
    wp_steps. eapply wp_add_protocol_nodes; [done..|]. intros g' Hg'. wp_steps.
    apply IH; [by eapply building_extends| |].
    + intros j Hj. destruct (Hin j) as (m & ? & ? & ?); [by constructor|]. exists m. split_and!; [done| |done].
      by eapply extends_find.
    + intros g'' Hg''. apply HQ.
      change (mjoin (protocol_kids l (protocol_combinations alpns) <$> i :: leaves)) with
        (protocol_kids l (protocol_combinations alpns) i ++ mjoin (protocol_kids l (protocol_combinations alpns) <$> leaves)).
      eapply extends_trans; [|exact Hg'']. unfold protocol_kids, leaf_data. by rewrite Hl.
Qed.

(** *** Levels *)

(** Every node above level [k] has a child, and none is deeper. *)
Definition full (l : list gnode) (k : nat) : Prop :=
  forall n, n ∈ l -> (node_level n <= k)%nat /\ ((node_level n < k)%nat -> has_child l (gn_id n) = true).

Lemma full_leaves l root k :
  rooted l root -> full l k ->
  leaf_data l <$> tr G_IN_ORDER G_TRAVERSE_LEAVES l root ≡ₚ node_data <$> filter (fun n => node_level n = k) l /\
  (forall i, i ∈ tr G_IN_ORDER G_TRAVERSE_LEAVES l root -> exists n, n ∈ l /\ find_node l i = Some n /\ node_level n = k).
Proof.
  intros Hr Hf. pose proof Hr as (Ht & Hin & Hids).
  assert (Hiff : forall n, n ∈ l -> (has_child l (gn_id n) = false <-> node_level n = k)).
  { intros n Hn. destruct (Hf n Hn) as [Hle Hlt]. split.
    - intros Hc. destruct (decide (node_level n < k)%nat) as [Hl|]; [rewrite Hlt in Hc by done; done|lia].
    - intros Hk. apply (deepest_leaf l k); [done| |done..]. intros m Hm. by apply Hf. }
  split.
  - rewrite (leaves_data l root Hr). apply reflexive_eq. f_equal. by apply list_filter_ext.
  - intros i Hi. apply (visited_elem tr Htr) in Hi as (n & Hn & <- & Hfl); [|done..].
    exists n. split_and!; [done|by apply find_node_nodup; [apply tree_nodup|]|]. apply Hiff; [done|].
    cbn in Hfl. by apply negb_true_iff.
Qed.

Lemma rooted_head l i d rest : tree l -> l = GNode i None (Some d) :: rest -> rooted l i.
Proof.
  intros Ht Hl. destruct (tree_head l Ht) as (j & d' & rest' & Hl' & Hs). rewrite Hl in Hl'. injection Hl' as -> -> ->.
  split_and!; [done| |done]. rewrite Hl. constructor.
Qed.

Lemma has_child_kid l n p : n ∈ l -> gn_parent n = Some p -> has_child l p = true.
Proof. intros Hn Hp. apply existsb_exists. exists n. split; [by apply list_elem_of_In|by apply bool_decide_eq_true]. Qed.

(** Adding children to every node of the deepest level makes the tree full
    one level further down. *)
Lemma full_extend l extra k :
  full l k -> tree (l ++ extra) ->
  (forall n, n ∈ extra -> node_level n = S k) ->
  (forall n, n ∈ l -> node_level n = k -> exists m, m ∈ extra /\ gn_parent m = Some (gn_id n)) ->
  full (l ++ extra) (S k).
Proof.
  intros Hf Ht Hx Hc n [Hn|Hn]%elem_of_app.
  - destruct (Hf n Hn) as [Hle Hlt]. split; [lia|]. intros _.
    destruct (decide (node_level n = k)) as [Hk|Hk].
    + destruct (Hc n Hn Hk) as (m & Hm & Hp). eapply has_child_kid; [|done]. apply elem_of_app. by right.
    + assert (Hl : (node_level n < k)%nat) by lia. apply Hlt in Hl.
      apply existsb_exists in Hl as (m & Hm%list_elem_of_In & Hp%bool_decide_eq_true).
      eapply has_child_kid; [|done]. apply elem_of_app. by left.
  - rewrite (Hx n Hn). split; lia.
Qed.

Lemma elem_of_kids (extra : list gnode) n : n ∈ extra -> kid n ∈ kid <$> extra.
Proof. intros. apply list_elem_of_fmap. by exists n. Qed.

Lemma kids_data (extra : list gnode) : node_data <$> extra = (kid <$> extra).*2.
Proof. by rewrite <- list_fmap_compose. Qed.

Lemma tree_blocks_kids (extra : list gnode) : tree_blocks extra = zsum (node_blocks <$> (kid <$> extra).*2).
Proof. unfold tree_blocks. rewrite <- kids_data, <- list_fmap_compose. done. Qed.

(** *** The tree of local choices *)

Definition root_data : ct_candidate_node := CandidateNode NODE_TYPE_ROOT None None None.
Definition root_gnode : gnode := GNode 0 None (Some root_data).

Lemma path_phase l paths x :
  l = [root_gnode] ++ x -> kid <$> x = kids_of 0 (path_node <$> paths) -> tree l -> paths <> [] ->
  rooted l 0 /\ full l 1 /\ node_data <$> filter (fun n => node_level n = 1%nat) l = path_node <$> paths.
Proof.
  intros Hl Hx Ht Hne.
  assert (Hkid : forall n, n ∈ x -> gn_parent n = Some 0%nat /\ exists e, node_data n = path_node e).
  { intros n Hn%elem_of_kids. rewrite Hx in Hn. unfold kids_of in Hn.
    apply list_elem_of_fmap in Hn as (d & Hd & (e & -> & _)%list_elem_of_fmap). injection Hd as Hp Hd. split; [done|by exists e]. }
  split_and!.
  - by apply (rooted_head l 0 root_data x).
  - subst l. apply (full_extend [root_gnode] x 0); [|done| |].
    + intros n ->%list_elem_of_singleton. split; [done|]. intros. cbn in *. lia.
    + intros n Hn. destruct (Hkid n Hn) as (_ & e & He). unfold node_level. by rewrite He.
    + intros n ->%list_elem_of_singleton _. destruct x as [|m x].
      { symmetry in Hx. apply fmap_nil_inv, fmap_nil_inv in Hx. by destruct Hne. }
      exists m. split; [constructor|]. apply Hkid. constructor.
  - subst l. rewrite list.filter_app, filter_cons_False by (cbn; lia). rewrite filter_nil. cbn [app].
    rewrite list_filter_all.
    + rewrite kids_data, Hx. unfold kids_of. rewrite <- list_fmap_compose. by rewrite list_fmap_id.
    + intros n Hn. destruct (Hkid n Hn) as (_ & e & He). unfold node_level. by rewrite He.
Qed.

Lemma protocol_phase l1 l2 rest x paths combos :
  l1 = root_gnode :: rest -> full l1 1 -> tree l1 ->
  node_data <$> filter (fun n => node_level n = 1%nat) l1 = path_node <$> paths ->
  l2 = l1 ++ x -> kid <$> x = mjoin (protocol_kids l1 combos <$> tr G_IN_ORDER G_TRAVERSE_LEAVES l1 0%nat) ->
  tree l2 -> combos <> [] ->
  rooted l2 0 /\ full l2 2 /\
  node_data <$> filter (fun n => node_level n = 2%nat) l2 ≡ₚ
    mjoin ((fun e => protocol_node (path_node e) <$> combos) <$> paths).
Proof.
  intros Hhead Hf Ht1 Hd Hl Hx Ht Hne. pose proof (rooted_head l1 0 _ _ Ht1 Hhead) as Hr.
  destruct (full_leaves l1 0 1 Hr Hf) as [Hlv Hleaf].
  set (leaves := tr G_IN_ORDER G_TRAVERSE_LEAVES l1 0%nat) in *. rewrite Hd in Hlv.
  assert (Hkid : forall n, n ∈ x -> exists i c, i ∈ leaves /\ gn_parent n = Some i /\
            node_data n = protocol_node (leaf_data l1 i) c).
  { intros n Hn%elem_of_kids. rewrite Hx in Hn. apply list_elem_of_join in Hn as (ks & Hn & (i & -> & Hi)%list_elem_of_fmap).
    unfold protocol_kids, kids_of in Hn. apply list_elem_of_fmap in Hn as (d & Hd' & (c & -> & _)%list_elem_of_fmap).
    injection Hd' as Hp Hnd. by exists i, c. }
  split_and!.
  - by apply (rooted_head l2 0 root_data (rest ++ x)); [|subst].
  - subst l2. apply full_extend; [done|done| |].
    + intros n Hn. destruct (Hkid n Hn) as (i & c & _ & _ & He). unfold node_level. by rewrite He.
    + intros n Hn Hk. assert (Hi : gn_id n ∈ leaves).
      { apply (visited_elem tr Htr); [apply Hr..|]. exists n. split_and!; [done..|]. cbn. apply negb_true_iff.
        apply (deepest_leaf l1 1); [done| |done..]. intros m Hm. by apply Hf. }
      destruct combos as [|c combos]; [done|].
      assert (Hin : (Some (gn_id n), protocol_node (leaf_data l1 (gn_id n)) c) ∈ kid <$> x).
      { rewrite Hx. apply list_elem_of_join. eexists. split; [|apply list_elem_of_fmap; by exists (gn_id n)]. constructor. }
      apply list_elem_of_fmap in Hin as (m & Hm & Hmx). exists m. split; [done|]. unfold kid in Hm. congruence.
  - subst l2. rewrite list.filter_app, list_filter_none; cycle 1.
    { intros n Hn. destruct (Hf n Hn) as [Hle _]. lia. }
    rewrite list_filter_all; cycle 1.
    { intros n Hn. destruct (Hkid n Hn) as (i & c & _ & _ & He). unfold node_level. by rewrite He. }
    cbn [app]. rewrite kids_data, Hx, fmap_join, <- list_fmap_compose.
    rewrite (list_fmap_ext _ ((fun d => protocol_node d <$> combos) ∘ leaf_data l1) leaves).
    + rewrite (list_fmap_compose (leaf_data l1)), Hlv, <- list_fmap_compose. done.
    + intros k i _. cbn. unfold protocol_kids, kids_of. rewrite <- list_fmap_compose. apply list_fmap_id.
Qed.

(** *** Resolutions *)

(** The immediate result of starting a lookup, and what a lookup that
    succeeds delivers. *)
Context (uv_getaddrinfo : string -> Z) (dns : string -> list (Z * sockaddr)).

Definition remote_port (r : ct_remote_endpoint) : Z :=
  match re_service r with
  | Some s => ct_get_service_port gai s (ss_family (re_resolved_address r))
  | None => re_port r
  end.

(** The endpoints a remote endpoint resolves to, by lookup or by itself. *)
Definition resolution (r : ct_remote_endpoint) : list ct_remote_endpoint :=
  match re_hostname r with
  | Some h => omap (dns_endpoint (remote_port r)) (dns h)
  | None => [set_re_resolved_address (set_port_if_inet (remote_port r) (re_resolved_address r)) r]
  end.

Definition resolvable (r : ct_remote_endpoint) : Prop :=
  remote_port r <> -1 /\
  match re_hostname r with
  | Some h => 0 <= uv_getaddrinfo h
  | None => ss_family (re_resolved_address r) <> AF_UNSPEC
  end.

(** A resolution: the PROTOCOL node it is for and the remote endpoint. *)
Local Notation item := (nat * ct_remote_endpoint)%type.
Definition context_of (it : item) : resolve_context := ResolveContext it.1 (remote_port it.2).

Section resolving.
(** The tree of local choices, the number of resolutions, and the number of
    live blocks when the tree was complete. *)
Context (l2 : list gnode) (total : nat) (base : Z).
Context (Hl2 : exists rest, l2 = root_gnode :: rest) (Htotal : Z.of_nat total < 2 ^ 64).
Context (Hlv2 : forall n, n ∈ l2 -> (node_level n <= 2)%nat).

Definition item_kids (it : item) : list (option nat * ct_candidate_node) :=
  kids_of it.1 (endpoint_node (leaf_data l2 it.1) <$> resolution it.2).

Definition kids_so_far (done : list item) : list (option nat * ct_candidate_node) := mjoin (item_kids <$> done).

(** Between two resolutions: [finished] are the completed ones, [out] those
    that have a context, [held] the blocks that are neither nodes nor the
    gather context. *)
Definition resolving (finished : list item) (out : gmap nat item) (held : Z) (g : gather) : Prop :=
  building g /\
  (exists extra, g_nodes g = l2 ++ extra /\ kid <$> extra = kids_so_far finished) /\
  g_root_node g = Some 0%nat /\ g_failed g = false /\ g_local_only g = false /\ g_context_freed g = false /\
  g_calls g = [] /\ g_contexts g = context_of <$> out /\
  (forall c, is_Some (out !! c) -> (c < g_next_context g)%nat) /\
  g_pending_resolutions g = Z.of_nat total - Z.of_nat (length finished) /\
  live g = base + zsum (node_blocks <$> (kids_so_far finished).*2) + held.

(** After the last resolution: the callback got the candidates, the tree and
    the gather context are gone. *)
Definition gathered (finished : list item) (out : gmap nat item) (held : Z) (g : gather) : Prop :=
  exists res, g_calls g = [Some res] /\
    delivered ((node_data <$> l2) ++ (kids_so_far finished).*2) false res /\
    g_nodes g = [] /\ g_context_freed g = true /\ g_contexts g = context_of <$> out /\ oracle_ok (g_heap g) /\
    live g = base - tree_blocks l2 - 1 + zsum (content_blocks <$> res) + held.

(** The state between resolutions, or the final one. *)
Definition progress (finished : list item) (out : gmap nat item) (held : Z) (g : gather) : Prop :=
  if decide (length finished = total) then gathered finished out held g else resolving finished out held g.

Lemma kids_so_far_snoc finished it : kids_so_far (finished ++ [it]) = kids_so_far finished ++ item_kids it.
Proof. unfold kids_so_far. by rewrite fmap_app, join_app; cbn; rewrite app_nil_r. Qed.

Lemma kids_so_far_level (extra : list gnode) finished n :
  kid <$> extra = kids_so_far finished -> n ∈ extra -> (node_level n <= 3)%nat.
Proof.
  intros Hk Hn. apply elem_of_kids in Hn. rewrite Hk in Hn.
  apply list_elem_of_join in Hn as (ks & Hn & (it & -> & Hit)%list_elem_of_fmap).
  unfold item_kids, kids_of in Hn. apply list_elem_of_fmap in Hn as (d & Hd & (r & -> & _)%list_elem_of_fmap).
  injection Hd as _ Hd. unfold node_level. rewrite Hd. cbn. lia.
Qed.

Lemma wp_context_free ctx c (Q : unit -> gather -> Prop) g :
  g_contexts g !! ctx = Some c ->
  Q tt (set_g_contexts (delete ctx (g_contexts g)) (set_live (live g - 1) g)) ->
  wp (ct_remote_resolve_call_context_free ctx) Q g.
Proof.
  intros Hc HQ. unfold ct_remote_resolve_call_context_free, context_at. wp_steps.
  eapply wp_heaped_frees; [apply frees_block|]. wp_steps. exact HQ.
Qed.

(** The completion of one resolution. *)
Lemma wp_resolve_cb list finished out held ctx it m (Q : unit -> gather -> Prop) g :
  resolving finished out held g -> (length finished < total)%nat -> out !! ctx = Some it ->
  find_node l2 it.1 = Some m -> cn_type (node_data m) = NODE_TYPE_PROTOCOL ->
  default [] list = resolution it.2 ->
  (forall g', progress (finished ++ [it]) (delete ctx out) (held - 1 - (if is_Some_b list then 1 else 0)) g' ->
     g_dns_requests g' = g_dns_requests g -> g_next_context g' = g_next_context g -> Q tt g') ->
  wp (ct_remote_endpoint_resolve_cb tr sort precon list ctx) Q g.
Proof.
  intros (Hb & (extra & Hn & Hk) & Hroot & Hfail & Hlo & Hfr & Hcalls & Hctx & Hfresh & Hpend & Hlive) Hlt Hout Hm Hty Hlist HQ.
  assert (Hc : g_contexts g !! ctx = Some (context_of it)) by (by rewrite Hctx, lookup_fmap, Hout).
  assert (Hfm : find_node (g_nodes g) it.1 = Some m) by (rewrite Hn; by apply find_node_app_l).
  unfold ct_remote_endpoint_resolve_cb, context_at. wp_steps. cbn [context_of rc_parent_node].
  eapply wp_data_at; [apply Hb|done|]. wp_steps. eapply wp_append_endpoints; [done..|]. intros g1 Hg1.
  rewrite Hlist in Hg1. wp_steps.
  eapply wp_heaped_frees; [apply frees_when; intros _; apply frees_block|]. wp_steps.
  destruct Hg1 as (x & h & nx & -> & Hx & Ht1 & Hf1 & Ho1 & Hl1).
  unfold use_context. wp_steps. { cbn. by rewrite Hfr. } wp_steps.
  assert (Hik : kid <$> x = item_kids it) by (rewrite Hx; unfold item_kids, leaf_data; by rewrite Hm).
  assert (Hkid : kid <$> (extra ++ x) = kids_so_far (finished ++ [it])).
  { by rewrite fmap_app, Hk, Hik, kids_so_far_snoc. }
  assert (Hnodes : g_nodes g ++ x = l2 ++ (extra ++ x)) by (by rewrite Hn, app_assoc).
  assert (Hblocks : zsum (node_blocks <$> (kids_so_far (finished ++ [it])).*2) =
                    zsum (node_blocks <$> (kids_so_far finished).*2) + zsum (node_blocks <$> (item_kids it).*2)).
  { by rewrite kids_so_far_snoc, !fmap_app, zsum_app. }
  rewrite <- Hx, Hik in Hl1. cbn in Ht1. rewrite Hnodes in Ht1.
  set (bl := if is_Some_b list then 1 else 0) in *.
  assert (Hp : u64 (g_pending_resolutions g - 1) = Z.of_nat total - Z.of_nat (length finished) - 1).
  { rewrite Hpend. unfold u64, wrap. apply Z.mod_small. lia. }
  match goal with |- wp (when (?a =? 0) _) _ _ => change a with (u64 (g_pending_resolutions g - 1)) end. rewrite Hp.
  apply wp_when; intros Hz.
  - apply Z.eqb_eq in Hz. destruct Hl2 as [rest Hrest].
    apply (wp_complete _ _ 0%nat); cbn; [|done..| |].
    + rewrite Hnodes. apply (rooted_head _ 0 root_data (rest ++ extra ++ x)); [done|by rewrite Hrest].
    + rewrite Hnodes, Hlo. cbn. intros n [Hn'|Hn']%elem_of_app; [specialize (Hlv2 n Hn'); lia|].
      by apply (kids_so_far_level (extra ++ x) (finished ++ [it])).
    + rewrite Hnodes, Hlo, Hcalls. intros h' res Hres Hh' Hl'.
      eapply wp_context_free; [exact Hc|]. apply HQ; [|done..]. unfold progress. rewrite decide_True by (rewrite length_app; cbn; lia).
      exists res. cbn. split_and!; try done.
      * by rewrite <- Hkid, <- kids_data, <- fmap_app.
      * by rewrite Hctx, fmap_delete.
      * revert Hl'. unfold tree_blocks. rewrite fmap_app, zsum_app. fold (tree_blocks l2) (tree_blocks (extra ++ x)).
        rewrite (tree_blocks_kids (extra ++ x)), Hkid, Hblocks. unfold live in *. cbn in *. lia.
  - apply Z.eqb_neq in Hz. eapply wp_context_free; [exact Hc|]. apply HQ; [|done..].
    unfold progress. rewrite decide_False by (rewrite length_app; cbn; lia).
    assert (Hdel : delete ctx (g_contexts g) = context_of <$> delete ctx out) by (by rewrite Hctx, fmap_delete).
    unfold resolving, building, fresh. cbn. rewrite Hnodes. split_and!; try done.
    + intros i Hi. apply Hf1. cbn. by rewrite Hnodes.
    + exists (extra ++ x). done.
    + intros c' Hc'. apply Hfresh. destruct (decide (ctx = c')) as [->|]; [by rewrite lookup_delete in Hc'; destruct Hc'|].
      by rewrite lookup_delete_ne in Hc'.
    + rewrite length_app; cbn. lia.
    + rewrite Hblocks. unfold live in *. cbn in *. lia.
Qed.

Lemma resolving_update finished out held g out' k g' :
  resolving finished out held g ->
  g_nodes g' = g_nodes g -> g_next_node g' = g_next_node g -> g_root_node g' = g_root_node g ->
  g_failed g' = g_failed g -> g_local_only g' = g_local_only g -> g_context_freed g' = g_context_freed g ->
  g_calls g' = g_calls g -> g_pending_resolutions g' = g_pending_resolutions g ->
  g_contexts g' = context_of <$> out' -> (forall c, is_Some (out' !! c) -> (c < g_next_context g')%nat) ->
  oracle_ok (g_heap g') -> live g' = live g + k -> resolving finished out' (held + k) g'.
Proof.
  intros ((Ht & Hf & _) & Hn & Hroot & Hfail & Hlo & Hfr & Hcalls & _ & _ & Hpend & Hlive)
    E1 E2 E3 E4 E5 E6 E7 E8 Hc Hfresh Ho Hl.
  unfold resolving, building, fresh. rewrite E1, E2, E3, E4, E5, E6, E7, E8. split_and!; try done. lia.
Qed.

(** The lookups that libuv holds are those of the outstanding contexts. *)
Definition lookups_ok (out : gmap nat item) (g : gather) : Prop :=
  NoDup (g_dns_requests g).*1 /\
  (forall c h, (c, h) ∈ g_dns_requests g <-> exists it, out !! c = Some it /\ re_hostname it.2 = Some h) /\
  (forall c it, out !! c = Some it -> is_Some (re_hostname it.2)).

Definition item_ok (it : item) : Prop :=
  resolvable it.2 /\ exists m, find_node l2 it.1 = Some m /\ cn_type (node_data m) = NODE_TYPE_PROTOCOL.

Definition held_for (out : gmap nat item) : Z := 2 * Z.of_nat (size out).

(** Starting one resolution: it completes at once, or a lookup is pending. *)
Lemma wp_branch_by_remote it finished out ctx p0 (Q : Z -> gather -> Prop) g0 :
  g_contexts g0 !! ctx = Some (ResolveContext it.1 p0) ->
  let g := set_g_contexts (<[ctx := context_of it]> (g_contexts g0)) g0 in
  resolving finished (<[ctx := it]> out) (held_for out + 1) g -> out !! ctx = None ->
  lookups_ok out g -> (length finished < total)%nat -> item_ok it ->
  (forall g', progress (finished ++ [it]) out (held_for out) g' -> lookups_ok out g' -> Q 0 g') ->
  (forall g', resolving finished (<[ctx := it]> out) (held_for (<[ctx := it]> out)) g' ->
     lookups_ok (<[ctx := it]> out) g' -> Q 0 g') ->
  wp (set_assigned_port ctx (remote_port it.2) ;;
      match re_hostname it.2 with
      | Some hostname => ct_perform_dns_lookup uv_getaddrinfo ctx hostname (re_service it.2)
      | None =>
          if negb (ss_family (re_resolved_address it.2) =? AF_UNSPEC) then
            ok ← heaped malloc;
            if negb ok then mret (- ENOMEM) else
            ct_remote_endpoint_resolve_cb tr sort precon
              (Some [set_re_resolved_address (set_port_if_inet (remote_port it.2) (re_resolved_address it.2)) it.2]) ctx ;;
            mret 0
          else mret (- EINVAL)
      end) Q g0.
Proof.
  intros Hc g Hg Hnew Hlk Hlt [[Hport Hres] (m & Hm & Hty)] Hsync Hasync.
  assert (Hsize : size (<[ctx := it]> out) = S (size out)) by (by apply map_size_insert_None).
  pose proof Hg as (Hb & _ & _ & _ & _ & _ & _ & Hctx & Hfresh & _).
  unfold set_assigned_port, context_at. wp_steps. cbn [rc_parent_node].
  change (set_g_contexts (<[ctx := ResolveContext it.1 (remote_port it.2)]> (g_contexts g0)) g0) with g. clearbody g.
  unfold resolution in *. destruct (re_hostname it.2) as [host|] eqn:Hhost.
  - unfold ct_perform_dns_lookup. wp_steps. eapply wp_heaped; [apply allocs_malloc|apply Hb|]. intros b h <- Hh Hl.
    cbn [negb]. destruct (Z.ltb_spec (uv_getaddrinfo host) 0); [lia|]. wp_steps. apply Hasync.
    + replace (held_for (<[ctx:=it]> out)) with (held_for out + 1 + 1) by (unfold held_for; lia).
      eapply resolving_update; [exact Hg|done..].
    + destruct Hlk as (Hnd & Hin & Hhosts). unfold lookups_ok. cbn. split_and!.
      * rewrite fmap_app. apply list.NoDup_app. split_and!; [done| |apply list.NoDup_singleton].
        intros c [[c' h'] [Hcc Hc']]%list_elem_of_fmap ->%list_elem_of_singleton. cbn in Hcc. subst c'.
        apply Hin in Hc' as (it' & Hit' & _). congruence.
      * intros c h'. rewrite elem_of_app, list_elem_of_singleton, Hin. destruct (decide (c = ctx)) as [->|Hne].
        -- rewrite lookup_insert_eq. split.
           ++ intros [(it' & Hit' & _)|[= ->]]; [congruence|]. by exists it.
           ++ intros (it' & [= <-] & Hh'). right. congruence.
        -- rewrite lookup_insert_ne by done. split; [|by left]. intros [?|[= ? ?]]; done.
      * intros c it'. destruct (decide (c = ctx)) as [->|Hne].
        -- rewrite lookup_insert_eq. intros [= <-]. by rewrite Hhost.
        -- rewrite lookup_insert_ne by done. apply Hhosts.
  - destruct (Z.eqb_spec (ss_family (re_resolved_address it.2)) AF_UNSPEC); [done|]. cbn [negb].
    wp_steps. eapply wp_heaped; [apply allocs_malloc|apply Hb|]. intros b h <- Hh Hl. cbn [negb].
    wp_steps. eapply (wp_resolve_cb _ finished (<[ctx := it]> out) (held_for out + 1 + 1)); [|done|apply lookup_insert_eq|done|done| |].
    + eapply resolving_update; [exact Hg|done..].
    + unfold resolution. by rewrite Hhost.
    + intros g' Hg' Hdns _. wp_steps. apply Hsync.
      * rewrite delete_insert_id in Hg' by done. cbn [is_Some_b] in Hg'.
        by replace (held_for out + 1 + 1 - 1 - 1) with (held_for out) in Hg' by lia.
      * unfold lookups_ok in *. by rewrite Hdns.
Qed.

(** The resolutions that have completed, are pending and are to come. *)
Definition accounts (items finished : list item) (out : gmap nat item) (todo : list item) : Prop :=
  finished ++ (map_to_list out).*2 ++ todo ≡ₚ items.

Lemma accounts_length items finished out todo :
  accounts items finished out todo -> length items = (length finished + size out + length todo)%nat.
Proof.
  intros H. rewrite <- H, !length_app, length_fmap, length_map_to_list. lia.
Qed.

Lemma accounts_insert items finished out ctx it todo :
  out !! ctx = None -> accounts items finished out (it :: todo) -> accounts items finished (<[ctx := it]> out) todo.
Proof.
  intros Hn H. unfold accounts in *. rewrite map_to_list_insert by done. rewrite <- H. cbn. f_equiv.
  apply Permutation_middle.
Qed.

Lemma accounts_finish items finished out it todo :
  accounts items finished out (it :: todo) -> accounts items (finished ++ [it]) out todo.
Proof.
  intros H. unfold accounts in *. rewrite <- H, <- app_assoc. f_equiv. cbn. apply Permutation_middle.
Qed.

Lemma accounts_delete items finished out ctx it :
  out !! ctx = Some it -> accounts items finished out [] -> accounts items (finished ++ [it]) (delete ctx out) [].
Proof.
  intros Hc H. unfold accounts in *. rewrite <- H, <- app_assoc. f_equiv. cbn. rewrite !app_nil_r.
  by rewrite <- (map_to_list_delete out ctx it Hc).
Qed.

Lemma progress_resolving finished out held g :
  progress finished out held g -> (length finished < total)%nat -> resolving finished out held g.
Proof. unfold progress. intros H Hlt. by rewrite decide_False in H by lia. Qed.

Lemma progress_free finished out held g :
  progress finished out held g ->
  progress finished out (held - 1) (set_g_heap (Heap (h_oracle (g_heap g)) (h_live (g_heap g) - 1)) g).
Proof.
  unfold progress. case_decide.
  - intros (res & ? & ? & ? & ? & ? & ? & Hl). exists res. unfold live in *. cbn. split_and!; try done. lia.
  - unfold resolving, building, fresh, live. cbn. intros ((? & ? & ?) & ? & ? & ? & ? & ? & ? & ? & ? & ? & Hl).
    split_and!; try done. lia.
Qed.

(** The double loop over leaves and remote endpoints. *)
Lemma wp_branch_all_by_remote items todo finished out (Q : Z -> gather -> Prop) g :
  progress finished out (held_for out) g -> lookups_ok out g -> accounts items finished out todo ->
  length items = total -> Forall item_ok todo ->
  (forall finished' out' g', progress finished' out' (held_for out') g' -> lookups_ok out' g' ->
     accounts items finished' out' [] -> Q 0 g') ->
  wp (branch_all_by_remote tr sort gai uv_getaddrinfo precon todo) Q g.
Proof.
  intros Hg Hlk Hacc Hlen Hok HQ. revert finished out g Hg Hlk Hacc.
  induction todo as [|[leaf r] todo IH]; intros finished out g Hg Hlk Hacc; cbn [branch_all_by_remote].
  { apply wp_ret. by eapply HQ. }
  apply Forall_cons_iff in Hok as [Hit Hok]. specialize (IH Hok).
  pose proof (accounts_length _ _ _ _ Hacc) as Hcount. cbn in Hcount.
  apply progress_resolving in Hg; [|lia].
  pose proof Hg as (Hb & _ & _ & _ & _ & Hfr & _ & Hctx & Hfresh & _).
  set (ctx := g_next_context g). assert (Hnew : out !! ctx = None).
  { destruct (out !! ctx) eqn:Ho; [|done]. pose proof (Hfresh ctx ltac:(by rewrite Ho)). unfold ctx in *. lia. }
  unfold ct_remote_resolve_call_context_new. wp_steps. eapply wp_heaped; [apply allocs_malloc|apply Hb|].
  intros b h <- Hh Hl. cbn [negb]. wp_steps. unfold use_context. wp_steps. { cbn. by rewrite Hfr. } wp_steps.
  assert (Hitem := Hit). destruct Hitem as [[Hport _] (m & Hm & Hty)]. cbn in Hm, Hport.
  set (c0 := ResolveContext leaf 0). set (g1 := set_g_num_in_flight _ _).
  assert (Hc1 : g_contexts g1 !! ctx = Some c0) by apply lookup_insert_eq.
  assert (Hg1 : resolving finished (<[ctx := (leaf, r)]> out) (held_for out + 1)
            (set_g_contexts (<[ctx := context_of (leaf, r)]> (g_contexts g1)) g1)).
  { eapply resolving_update; [exact Hg|try done..].
    - cbn. fold ctx. by rewrite insert_insert, decide_True, Hctx, fmap_insert.
    - intros c. cbn. fold ctx. destruct (decide (c = ctx)) as [->|]; [lia|]. rewrite lookup_insert_ne by done.
      intros Hc%Hfresh. unfold ctx. lia. }
  unfold ct_branch_by_remote, ct_remote_endpoint_resolve. wp_steps.
  eapply wp_data_at; [apply Hb|destruct Hg as (_ & (x & Hn & _) & _); cbn; rewrite Hn; by apply find_node_app_l|].
  wp_steps. { by apply bool_decide_eq_true. } wp_steps.
  eapply (wp_mono _ (fun p s => p = remote_port r /\ s = g1)).
  { unfold remote_port, ct_remote_endpoint_get_service_port, ct_remote_endpoint_get_service.
    destruct (re_service r); cbn [is_Some_b]; wp_steps; done. }
  intros p s [-> ->]. destruct (Z.eqb_spec (remote_port r) (-1)); [done|].
  apply (wp_branch_by_remote (leaf, r) finished out ctx 0 _ g1); [done|done|done| |lia|done| |].
  - done.
  - intros g' Hg' Hlk'. cbn [Z.eqb negb]. eapply IH; [done..|]. by apply accounts_finish.
  - intros g' Hg' Hlk'. cbn [Z.eqb negb]. eapply IH; [|done|by apply accounts_insert].
    unfold progress. rewrite decide_False by lia. done.
Qed.

(** Delivery of the results of one lookup. *)
Lemma allocs_dns_list p res acc :
  allocs (dns_list p res acc) (eq (Some (acc ++ omap (dns_endpoint p) res)))
    (fun o => match o with
              | Some l => (if bool_decide (l = []) then 0 else 1) - (if bool_decide (acc = []) then 0 else 1)
              | None => 0
              end).
Proof.
  revert acc. induction res as [|a res IH]; intros acc; cbn [dns_list omap list_omap].
  - apply allocs_ret; [by rewrite app_nil_r|]. cbn. lia.
  - destruct (dns_endpoint p a) as [e|]; [|apply IH].
    eapply allocs_bind; [apply allocs_realloc|]. intros b <-. cbn [negb].
    eapply allocs_mono; [apply IH|]. intros o <-. split; [by rewrite <- app_assoc|].
    rewrite (bool_decide_false (acc ++ [e] = [])) by (by destruct acc). repeat case_bool_decide; lia.
Qed.

Lemma wp_deliver items finished out ctx it host (Q : unit -> gather -> Prop) g :
  progress finished out (held_for out) g -> lookups_ok out g -> accounts items finished out [] ->
  length items = total -> out !! ctx = Some it -> re_hostname it.2 = Some host -> item_ok it ->
  (forall g', progress (finished ++ [it]) (delete ctx out) (held_for (delete ctx out)) g' ->
     lookups_ok (delete ctx out) g' ->
     g_dns_requests g' = filter (fun r => r.1 <> ctx) (g_dns_requests g) -> Q tt g') ->
  wp (on_uv_getaddrinfo_cb tr sort precon ctx 0 (dns host)) Q g.
Proof.
  intros Hg Hlk Hacc Hlen Hout Hhost [_ (m & Hm & Hty)] HQ.
  pose proof (accounts_length _ _ _ _ Hacc) as Hcount. cbn in Hcount.
  assert (Hsize : size out = S (size (delete ctx out))).
  { rewrite <- (insert_delete_id out ctx it Hout) at 1. apply map_size_insert_None, lookup_delete_eq. }
  apply progress_resolving in Hg; [|lia].
  unfold on_uv_getaddrinfo_cb. wp_steps. set (g1 := set_g_dns_requests _ g).
  assert (Hlk1 : lookups_ok (delete ctx out) g1).
  { destruct Hlk as (Hnd & Hin & Hhosts). unfold lookups_ok. cbn. split_and!.
    - eapply (sublist_NoDup _ (g_dns_requests g).*1); [exact Hnd|]. by apply fmap_sublist, sublist_filter.
    - intros c h. rewrite list_elem_of_filter, Hin. cbn. split.
      + intros (Hne & it' & ? & ?). exists it'. by rewrite lookup_delete_ne.
      + intros (it' & [Hne ?]%lookup_delete_Some & ?). split; [done|]. by exists it'.
    - intros c it' [_ Hc]%lookup_delete_Some. by eapply Hhosts. }
  assert (Hg1 : resolving finished out (held_for out) g1).
  { replace (held_for out) with (held_for out + 0) by lia.
    pose proof Hg as (Hb & _ & _ & _ & _ & _ & _ & Hctx & Hfresh & _).
    eapply resolving_update; [exact Hg|done..| |]; [apply Hb|unfold live; cbn; lia]. }
  pose proof Hg1 as (Hb & (x & Hn & _) & _ & _ & _ & _ & _ & Hctx & Hfresh & _).
  assert (Hc : g_contexts g1 !! ctx = Some (context_of it)) by (by rewrite Hctx, lookup_fmap, Hout).
  unfold context_at. wp_steps. eapply wp_data_at; [apply Hb|rewrite Hn; by apply find_node_app_l|].
  cbn [Z.ltb Z.compare]. wp_steps. cbn [context_of rc_assigned_port].
  eapply wp_heaped; [apply allocs_dns_list|apply Hb|]. intros o h <- Hh Hl. wp_steps. cbn [app] in *.
  set (res := omap (dns_endpoint (remote_port it.2)) (dns host)) in *.
  eapply (wp_resolve_cb _ finished out (held_for out + (if bool_decide (res = []) then 0 else 1))); [|lia|exact Hout|exact Hm|done| |].
  - eapply resolving_update; [exact Hg1|try done..]. cbn [g_heap set_g_heap] in *. unfold live in *. cbn. rewrite Hl. cbn. lia.
  - unfold resolution. rewrite Hhost. fold res. by case_bool_decide as Hr; rewrite ?Hr.
  - intros g' Hg' Hdns _. eapply wp_heaped_frees; [apply frees_block|]. apply HQ.
    + assert (Hheld : held_for out + (if bool_decide (res = []) then 0 else 1) - 1 -
               (if is_Some_b (if bool_decide (res = []) then None else Some res) then 1 else 0) - 1 = held_for (delete ctx out)).
      { unfold held_for. case_bool_decide; cbn; lia. }
      rewrite <- Hheld. by apply progress_free.
    + unfold lookups_ok in *. cbn. by rewrite Hdns.
    + cbn. by rewrite Hdns.
Qed.
End resolving.

(** *** The whole run *)

(** The ALPN strings of the security parameters. *)
Definition gathered_alpns : list (option string) :=
  match gi_security_parameters precon ≫= (fun sec => as_strings (sec_val (sec ALPN))) with
  | Some a => match strings a with
              | Ptr l => (fun p => match p with Ptr s => Some s | _ => None end) <$> l
              | _ => []
              end
  | None => []
  end.

Context (Hsec : forall sec, gi_security_parameters precon = Some sec -> wf_sec sec).

Lemma allocs_protocol_options : allocs (ct_protocol_options_new precon) (eq (Some gathered_alpns)) (fun _ => 1).
Proof.
  unfold ct_protocol_options_new, gathered_alpns. eapply allocs_bind; [apply allocs_malloc|]. intros b <-. cbn [negb].
  destruct (gi_security_parameters precon) as [sec|] eqn:Hs; cbn [mbind option_bind]; [|by apply allocs_ret].
  specialize (Hsec sec eq_refl). destruct (sec_member as_strings sec ALPN) as [a Ha]; [done|by eexists|by intros [] []|].
  rewrite Ha. apply as_strings_inv in Ha. destruct (Hsec ALPN) as (_ & _ & Hok). rewrite Ha in Hok. cbn in Hok.
  eapply (allocs_bind _ _ (eq (if bool_decide (num_strings a = 0%nat) then (Null, Some 0%nat) else (strings a, Some (num_strings a)))) (fun _ => 0)).
  { unfold ct_security_parameters_get_alpns, member. eapply allocs_bind_deref; [by rewrite Ha|]. by apply allocs_ret. }
  intros p <-. unfold array_ok in Hok. destruct (strings a) as [|l|]; [| |done].
  - rewrite Hok. cbn. by apply allocs_ret.
  - destruct Hok as (Hn & Hpos & _). rewrite bool_decide_false by lia. destruct (num_strings a) as [|n] eqn:He; [lia|].
    eapply (allocs_bind (load _) _ (eq l) (fun _ => 0)); [by apply allocs_ret|]. intros ? <-.
    apply allocs_bind_assert; [apply Nat.leb_le; lia|]. apply allocs_ret; [|done]. by rewrite Hn, firstn_all.
Qed.

(** The local endpoints used when the preconnection names none, and the
    candidates to choose from. *)
Definition local_endpoints : list ct_local_endpoint :=
  match gi_local_endpoints precon with [] => [ct_local_endpoint_build] | l => l end.
Definition paths : list ct_local_endpoint := mjoin (local_resolution <$> local_endpoints).
Definition local_candidates : list ct_candidate_node :=
  mjoin ((fun e => protocol_node (path_node e) <$> protocol_combinations gathered_alpns) <$> paths).
Definition remote_candidates : list ct_candidate_node :=
  mjoin ((fun d => mjoin ((fun r => endpoint_node d <$> resolution r) <$> gi_remote_endpoints precon)) <$> local_candidates).

Lemma combinations_nonempty alpns : protocol_combinations alpns <> [].
Proof. done. Qed.

(** The state when the tree of local choices is complete. *)
Definition locally_built (g0 g : gather) (l2 : list gnode) : Prop :=
  exists n h, g = set_g_next_node n (set_g_nodes l2 (set_g_heap h (set_g_root_node (Some 0%nat) g0))) /\
    building g /\ (exists rest, l2 = root_gnode :: rest) /\ full l2 2 /\
    node_data <$> filter (fun n => node_level n = 2%nat) l2 ≡ₚ local_candidates /\
    live g = live g0 + tree_blocks l2.

(** The loop over the local endpoints runs over [local_endpoints]. *)
Lemma wp_local_endpoints (k : option ct_local_endpoint -> list ct_local_endpoint -> M gather Z) (Q : Z -> gather -> Prop) g :
  oracle_ok (g_heap g) ->
  (forall e h, oracle_ok h -> h_live h = live g + local_opt_blocks e -> wp (k e local_endpoints) Q (set_g_heap h g)) ->
  wp (if bool_decide (length (gi_local_endpoints precon) = 0%nat) then heaped ct_local_endpoint_new else mret None)
    (fun ephemeral s =>
       wp ((if bool_decide (length (gi_local_endpoints precon) = 0%nat)
            then e ← deref ephemeral "NULL local endpoint"; mret [e]
            else mret (gi_local_endpoints precon)) ≫= k ephemeral) Q s) g.
Proof.
  intros Hg Hk. unfold local_endpoints in Hk. destruct (gi_local_endpoints precon) as [|e l]; cbn [length].
  - rewrite bool_decide_true by done.
    eapply (wp_heaped _ (eq (Some ct_local_endpoint_build)) (fun _ => 1)); [|exact Hg|].
    + unfold ct_local_endpoint_new. eapply allocs_bind; [apply allocs_malloc|]. intros b <-. by apply allocs_ret.
    + intros e h' <- Hh' Hl'. wp_steps. by apply Hk.
  - rewrite bool_decide_false by done. wp_steps. specialize (Hk None (g_heap g) Hg).
    replace (set_g_heap (g_heap g) g) with g in Hk by (by destruct g). apply Hk. unfold live. cbn. lia.
Qed.

Lemma wp_build (Q : Z -> gather -> Prop) h local_only :
  let g0 := new_gather local_only h in
  oracle_ok h -> paths <> [] ->
  (forall g l2, locally_built g0 g l2 ->
     wp (if local_only then build_candidate_tree_is_complete_cb tr sort precon ;; mret 0
         else
           let leaves := tr G_IN_ORDER G_TRAVERSE_LEAVES l2 0%nat in
           let remote_endpoints := gi_remote_endpoints precon in
           if bool_decide (leaves = []) || bool_decide (length remote_endpoints = 0%nat) then
             modify (set_g_failed true) ;;
             build_candidate_tree_is_complete_cb tr sort precon ;;
             mret 0
           else
             modify (set_g_pending_resolutions
                       (u64 (Z.of_nat (length leaves) * Z.of_nat (length remote_endpoints)))) ;;
             branch_all_by_remote tr sort gai uv_getaddrinfo precon (l ← leaves; pair l <$> remote_endpoints)) Q g) ->
  wp (ct_build_candidate_tree tr sort uv gai uv_getaddrinfo precon) Q g0.
Proof.
  intros g0 Ho Hpaths HQ. unfold ct_build_candidate_tree. wp_steps.
  eapply wp_heaped; [apply allocs_node|exact Ho|]. intros d h1 <- Hh1 Hl1. unfold g_node_append_data. wp_steps.
  apply (wp_local_endpoints (fun ephemeral local_eps => _)); [exact Hh1|]. intros eph h2 Hh2 Hl2. wp_steps.
  (* paths *)
  eapply (wp_branch_all_by_path 0 root_gnode); [split_and!; [by apply tree_root| |exact Hh2]|done|done|].
  { intros i. cbn. intros ->%list_elem_of_singleton. cbn. lia. }
  intros g1 Hg1. wp_steps. eapply wp_heaped_frees; [apply frees_local_opt|]. cbn [Z.eqb negb]. wp_steps.
  eapply (extends_release (set_g_heap h1 _) g1 h2) in Hg1; [|exact Hl2].
  change (match eph with Some l => local_blocks l + 1 | None => 0 end) with (local_opt_blocks eph).
  set (g1' := set_g_heap (Heap _ (_ - local_opt_blocks eph)) g1) in *. clearbody g1'.
  destruct Hg1 as (x1 & h3 & n1 & -> & Hx1 & Ht1 & Hf1 & Hh3 & Hl3).
  rewrite <- Hx1, <- tree_blocks_kids in Hl3. fold paths in Hx1.
  set (l1 := [root_gnode] ++ x1). cbn in Ht1. change (tree l1) in Ht1.
  destruct (path_phase l1 paths x1 eq_refl Hx1 Ht1 Hpaths) as (Hr1 & Hfull1 & Hd1).
  eapply wp_heaped; [apply allocs_protocol_options|exact Hh3|]. intros alpns h4 <- Hh4 Hl4. wp_steps.
  (* protocols *)
  apply (wp_branch_protocols gathered_alpns _ l1); [by split_and!| |].
  { intros i Hi. apply (full_leaves l1 0 1) in Hi as (n & Hn & Hfn & Hlv); [|done..]. exists n. split_and!; [done..|].
    unfold node_level, data_level in Hlv. by destruct (cn_type (node_data n)). }
  intros g2 Hg2. wp_steps. eapply wp_heaped_frees; [apply frees_block|]. wp_steps.
  destruct Hg2 as (x2 & h5 & n2 & -> & Hx2 & Ht2 & Hf2 & Hh5 & Hl5).
  rewrite <- Hx2, <- tree_blocks_kids in Hl5.
  cbn [g_nodes set_g_nodes set_g_heap set_g_next_node set_g_root_node] in Hx2, Ht2. change (tree (l1 ++ x2)) in Ht2.
  destruct (protocol_phase l1 (l1 ++ x2) x1 x2 paths (protocol_combinations gathered_alpns))
    as (Hr2 & Hfull2 & Hd2); [done|done|done|done|done|exact Hx2|done|apply combinations_nonempty|].
  specialize (HQ (set_g_next_node n2 (set_g_nodes (l1 ++ x2) (set_g_heap (Heap (h_oracle h5) (h_live h5 - 1))
    (set_g_root_node (Some 0%nat) g0)))) (l1 ++ x2)). cbv zeta in HQ. cbn [g_local_only set_g_next_node set_g_nodes set_g_heap set_g_root_node].
  destruct local_only; apply HQ.
  all: exists n2, (Heap (h_oracle h5) (h_live h5 - 1)); split_and!; try done.
  all: try (by exists (x1 ++ x2)).
  all: unfold tree_blocks; rewrite fmap_app, zsum_app; fold (tree_blocks l1) (tree_blocks x2).
  all: change (tree_blocks l1) with (node_blocks root_data + tree_blocks x1).
  all: revert Hl1 Hl3 Hl4 Hl5; unfold live, node_opt_blocks; fold root_data.
  all: generalize (node_blocks root_data), (tree_blocks x1), (tree_blocks x2); cbn; lia.
Qed.

(** The final state of gathering: the callback was called once, with the
    usable ones among [cands], best first; the tree and the contexts are
    gone and the only blocks left are those of the array's contents. *)
Definition handed_over (base : Z) (cands : list ct_candidate_node) (g : gather) : Prop :=
  exists res, g_calls g = [Some res] /\
    res ≡ₚ filter (fun d => keep precon d = true) cands /\
    StronglySorted (fun a b => compare_candidates precon a b <= 0) res /\
    g_nodes g = [] /\ g_context_freed g = true /\ g_contexts g = ∅ /\
    live g = base + zsum (content_blocks <$> res).

Lemma local_delivered l2 res :
  node_data <$> filter (fun n => node_level n = 2%nat) l2 ≡ₚ local_candidates ->
  delivered (node_data <$> l2) true res -> res ≡ₚ filter (fun d => keep precon d = true) local_candidates.
Proof.
  intros Hl [Hres _]. rewrite Hres, <- Hl.
  rewrite (list_filter_ext _ (fun d => keep precon d = true /\ cn_type d = wanted true)) by (intros; tauto).
  rewrite <- (list_filter_filter (fun d => keep precon d = true) (fun d => cn_type d = wanted true)).
  rewrite (filter_fmap_list node_data (fun d => cn_type d = wanted true)). apply reflexive_eq. do 2 f_equal. apply list_filter_ext. intros n _. cbn.
  unfold node_level, data_level. by destruct (cn_type (node_data n)).
Qed.

Lemma local_gathering_run h :
  oracle_ok h -> paths <> [] ->
  exists g, ct_get_ordered_local_candidate_nodes tr sort uv gai uv_getaddrinfo precon h = Ok (0, g) /\
    handed_over (h_live h) local_candidates g /\ oracle_ok (g_heap g).
Proof.
  intros Ho Hp. unfold ct_get_ordered_local_candidate_nodes, get_candidates.
  pose proof (allocs_malloc h Ho) as Hm. unfold wp in Hm. destruct (malloc h) as [[b h1]|]; [|done].
  destruct Hm as (<- & Hh1 & Hl1).
  match goal with |- exists g, ?m ?s = _ /\ _ =>
    enough (Hw : wp m (fun rc g => rc = 0 /\ handed_over (h_live h) local_candidates g /\ oracle_ok (g_heap g)) s) end.
  { apply wp_ok in Hw as (rc & g & Hw & -> & Hg). by exists g. }
  wp_steps. apply wp_build; [done|done|].
  intros g l2 (n & h2 & -> & (Ht & _ & Hh2) & (rest & Hrest) & Hfull & Hd & Hlive).
  wp_steps. apply (wp_complete _ _ 0%nat); [by apply (rooted_head _ 0 root_data rest)|done..| |].
  { intros m Hm. cbn. by apply Hfull. }
  intros h' res Hres Hh' Hl'. wp_steps. cbn [Z.eqb negb]. wp_steps. split; [done|]. split; [|exact Hh'].
  exists res. split_and!; try done; [by eapply local_delivered|apply Hres|].
  change (h_live h' = h_live h + zsum (content_blocks <$> res)). rewrite Hl'.
  change (live (new_gather true h1)) with (h_live h1) in Hlive. change (g_nodes _) with l2. lia.
Qed.

(** C3: gathering for a listener, when memory suffices and the local
    endpoints have an address: the call returns 0 after calling the callback
    exactly once, with every combination of local path and protocol that the
    selection properties allow, best first, and frees everything else. *)
Theorem local_gathering_spec h :
  oracle_ok h -> paths <> [] ->
  exists g, ct_get_ordered_local_candidate_nodes tr sort uv gai uv_getaddrinfo precon h = Ok (0, g) /\
    handed_over (h_live h) local_candidates g.
Proof. intros Ho Hp. destruct (local_gathering_run h Ho Hp) as (g & Hg & Hover & _). by exists g. Qed.

Definition is_nil {A} (l : list A) : bool := match l with [] => true | _ => false end.

(** Completion of a lookup that libuv holds, with its results. *)
Definition deliver (request : nat * string) : M gather unit :=
  on_uv_getaddrinfo_cb tr sort precon request.1 0 (dns request.2).

Lemma kids_so_far_candidates l2 finished leaves :
  finished ≡ₚ (l ← leaves; pair l <$> gi_remote_endpoints precon) ->
  leaf_data l2 <$> leaves ≡ₚ local_candidates ->
  (kids_so_far l2 finished).*2 ≡ₚ remote_candidates.
Proof.
  intros Hf Hl. unfold remote_candidates. rewrite <- Hl, <- list_fmap_compose. unfold kids_so_far. rewrite Hf. clear Hf Hl.
  apply reflexive_eq. induction leaves as [|i leaves IH]; [done|].
  cbn [mbind list_bind]. rewrite fmap_app, join_app, fmap_app, IH. clear IH.
  rewrite fmap_cons. change (mjoin (?x :: ?l)) with (x ++ mjoin l). f_equal.
  unfold compose. cbn beta.
  induction (gi_remote_endpoints precon) as [|r rs IH]; [done|]. rewrite !fmap_cons.
  change (mjoin (?x :: ?l)) with (x ++ mjoin l). rewrite fmap_app, IH. f_equal.
  unfold item_kids, kids_of. cbn [fst snd]. rewrite <- list_fmap_compose. apply list_fmap_id.
Qed.

Lemma remote_delivered l2 kids res :
  (forall n, n ∈ l2 -> (node_level n <= 2)%nat) -> (forall d, d ∈ kids -> cn_type d = NODE_TYPE_ENDPOINT) ->
  kids ≡ₚ remote_candidates ->
  delivered ((node_data <$> l2) ++ kids) false res ->
  res ≡ₚ filter (fun d => keep precon d = true) remote_candidates.
Proof.
  intros Hlv Hk Hp [Hres _]. rewrite Hres, list.filter_app, <- Hp. clear Hres Hp.
  rewrite list_filter_none.
  - cbn [app]. apply reflexive_eq, list_filter_ext. intros d Hd. rewrite (Hk d Hd). tauto.
  - intros d (n & -> & Hn)%list_elem_of_fmap [Hty _]. specialize (Hlv n Hn).
    unfold node_level, data_level in Hlv. rewrite Hty in Hlv. cbn in Hlv. lia.
Qed.

(** Delivering the pending lookups in any order. *)
Lemma wp_deliver_all l2 total base items pre post finished out g :
  (exists rest, l2 = root_gnode :: rest) -> Z.of_nat total < 2 ^ 64 -> (forall n, n ∈ l2 -> (node_level n <= 2)%nat) ->
  length items = total -> Forall (item_ok l2) items ->
  progress l2 total base finished out (held_for out) g -> lookups_ok out g -> accounts items finished out [] ->
  pre ++ post ≡ₚ g_dns_requests g ->
  wp (for_each pre deliver) (fun _ g' => exists finished' out',
    progress l2 total base finished' out' (held_for out') g' /\ lookups_ok out' g' /\
    accounts items finished' out' [] /\ g_dns_requests g' ≡ₚ post) g.
Proof.
  intros Hl2 Htot Hlv Hlen Hok. revert finished out g. induction pre as [|[ctx host] pre IH]; intros finished out g Hg Hlk Hacc Hpp.
  - apply wp_ret. exists finished, out. by split_and!.
  - cbn [for_each]. wp_steps. destruct Hlk as (Hnd & Hin & Hhosts).
    assert (Hreq : (ctx, host) ∈ g_dns_requests g) by (rewrite <- Hpp; constructor).
    apply Hin in Hreq as (it & Hit & Hhost).
    assert (Hitem : item_ok l2 it).
    { apply (proj1 (Forall_elem _ _) Hok). rewrite <- Hacc. rewrite !elem_of_app. right; left.
      apply list_elem_of_fmap. exists (ctx, it). split; [done|]. by apply elem_of_map_to_list. }
    unfold deliver at 1. cbn [fst snd].
    eapply (wp_deliver l2 total base Hl2 Htot Hlv items finished out ctx it host); [done|by split_and!|done..|].
    intros g' Hg' Hlk' Hreqs'. apply (IH (finished ++ [it]) (delete ctx out)); [done|done|by apply accounts_delete|].
    rewrite Hreqs', <- Hpp. cbn [app]. rewrite filter_cons_False by (cbn; tauto). rewrite list_filter_all; [done|].
    intros r Hr Heq. rewrite <- Hpp in Hnd. cbn in Hnd. apply list.NoDup_cons in Hnd as [Hno _]. apply Hno.
    rewrite <- Heq. apply list_elem_of_fmap. by exists r.
Qed.

(** All the resolutions to make, for the leaves of the tree. *)
Definition all_items (leaves : list nat) : list item := l ← leaves; pair l <$> gi_remote_endpoints precon.

Lemma length_all_items leaves : length (all_items leaves) = (length leaves * length (gi_remote_endpoints precon))%nat.
Proof.
  induction leaves as [|l leaves IH]; [done|]. unfold all_items. cbn [mbind list_bind].
  fold (all_items leaves). by rewrite length_app, length_fmap, IH.
Qed.

Lemma local_candidates_pos : paths <> [] -> (0 < length local_candidates)%nat.
Proof.
  unfold local_candidates. destruct paths as [|p ps]; [done|]. intros _. rewrite fmap_cons.
  change (mjoin (?x :: ?l)) with (x ++ mjoin l). rewrite length_app, length_fmap. cbn. lia.
Qed.

Lemma all_items_ok l2 leaves :
  Forall resolvable (gi_remote_endpoints precon) ->
  (forall i, i ∈ leaves -> exists n, n ∈ l2 /\ find_node l2 i = Some n /\ node_level n = 2%nat) ->
  Forall (item_ok l2) (all_items leaves).
Proof.
  intros Hres Hleaf. apply Forall_elem. intros [i r] Hi. unfold all_items in Hi.
  apply list_elem_of_bind in Hi as (l & Hi & Hl).
  apply list_elem_of_fmap in Hi as (r' & [= -> ->] & Hr'). split; [by apply (proj1 (Forall_elem _ _) Hres)|].
  destruct (Hleaf l Hl) as (m & _ & Hm & Hlvm). exists m. split; [done|].
  unfold node_level, data_level in Hlvm. by destruct (cn_type (node_data m)).
Qed.

(** Before the first resolution. *)
Lemma initial_progress g1 l2 g total :
  locally_built g1 g l2 -> (0 < total)%nat -> g_failed g1 = false -> g_local_only g1 = false ->
  g_context_freed g1 = false -> g_calls g1 = [] -> g_contexts g1 = ∅ -> g_dns_requests g1 = [] ->
  let g' := set_g_pending_resolutions (Z.of_nat total) g in
  progress l2 total (live g1 + tree_blocks l2) [] ∅ (held_for ∅) g' /\ lookups_ok ∅ g'.
Proof.
  intros (n & h & -> & Hb & _ & _ & _ & Hlive) Hpos E1 E2 E3 E4 E5 E6 g'. split.
  - unfold progress. rewrite decide_False by (cbn; lia). unfold resolving. split_and!; try done.
    + exists []. split; [|done]. cbn. by rewrite app_nil_r.
    + intros c [it Hc]. by rewrite lookup_empty in Hc.
    + cbn [length]. change (g_pending_resolutions g') with (Z.of_nat total). lia.
    + rewrite <- Hlive. unfold held_for. rewrite map_size_empty. unfold live; cbn. lia.
  - unfold lookups_ok. cbn. rewrite E6. split_and!; [constructor| |].
    + intros c host. split; [by intros ?%not_elem_of_nil|]. intros (it & Hc & _). by rewrite lookup_empty in Hc.
    + intros c it Hc. by rewrite lookup_empty in Hc.
Qed.

(** The outstanding contexts are none exactly when no lookup is. *)
Lemma no_lookups items finished out (outstanding : list (nat * string)) g :
  lookups_ok out g -> g_dns_requests g ≡ₚ outstanding -> accounts items finished out [] ->
  if is_nil outstanding then out = ∅ /\ length finished = length items else (length finished < length items)%nat.
Proof.
  intros (_ & Hin & Hhosts) Hreqs Hacc.
  assert (Hcount : length items = (length finished + size out)%nat).
  { unfold accounts in Hacc. rewrite <- Hacc, !length_app, length_fmap, length_map_to_list. cbn. lia. }
  destruct outstanding as [|[c host] o]; cbn [is_nil].
  - assert (out = ∅) as ->; [|by rewrite map_size_empty in Hcount; split; [|lia]].
    apply map_empty. intros c. destruct (out !! c) as [it|] eqn:Hc; [|done].
    destruct (Hhosts c it Hc) as [host Hh]. assert (Hreq : (c, host) ∈ g_dns_requests g) by (apply Hin; by exists it).
    rewrite Hreqs in Hreq. by apply not_elem_of_nil in Hreq.
  - assert (Hreq : (c, host) ∈ g_dns_requests g) by (rewrite Hreqs; constructor).
    apply Hin in Hreq as (it & Hc & _). assert (size out <> 0%nat); [|lia].
    intros Hz%map_size_empty_iff. subst. by rewrite lookup_empty in Hc.
Qed.

Lemma gathered_handed_over l2 leaves total h base finished g :
  gathered l2 (base + tree_blocks l2) finished ∅ (held_for ∅) g -> base = h + 1 ->
  (forall n, n ∈ l2 -> (node_level n <= 2)%nat) -> leaf_data l2 <$> leaves ≡ₚ local_candidates ->
  accounts (all_items leaves) finished ∅ [] -> length finished = total ->
  handed_over h remote_candidates g.
Proof.
  intros (res & Hcalls & Hres & Hn & Hfr & Hctx & _ & Hl) Hbase Hlv Hleaves Hacc _.
  unfold accounts in Hacc. rewrite map_to_list_empty in Hacc. cbn in Hacc. rewrite app_nil_r in Hacc.
  exists res. split_and!; try done.
  - apply (remote_delivered l2 (kids_so_far l2 finished).*2); [done| |by apply (kids_so_far_candidates l2 finished leaves)|done].
    intros d Hd'. apply list_elem_of_fmap in Hd' as (k & -> & Hk).
    apply list_elem_of_join in Hk as (ks & Hk & (it & -> & _)%list_elem_of_fmap).
    by apply list_elem_of_fmap in Hk as (? & -> & (? & -> & _)%list_elem_of_fmap).
  - apply Hres.
  - rewrite Hl. unfold held_for. rewrite map_size_empty. lia.
Qed.

(** The state in which the call returns: the tree of local choices, the
    completed resolutions and those that wait for a lookup. *)
Definition waiting (base : Z) (g : gather) (l2 : list gnode) (leaves : list nat) (finished : list item)
    (out : gmap nat item) : Prop :=
  (exists rest, l2 = root_gnode :: rest) /\ (forall n, n ∈ l2 -> (node_level n <= 2)%nat) /\
  leaf_data l2 <$> leaves ≡ₚ local_candidates /\ Z.of_nat (length (all_items leaves)) < 2 ^ 64 /\
  Forall (item_ok l2) (all_items leaves) /\
  progress l2 (length (all_items leaves)) (base + 1 + tree_blocks l2) finished out (held_for out) g /\
  lookups_ok out g /\ accounts (all_items leaves) finished out [].

Lemma gathering_run h :
  oracle_ok h -> paths <> [] -> gi_remote_endpoints precon <> [] ->
  Forall resolvable (gi_remote_endpoints precon) ->
  Z.of_nat (length local_candidates * length (gi_remote_endpoints precon)) < 2 ^ 64 ->
  exists g, ct_get_ordered_candidate_nodes tr sort uv gai uv_getaddrinfo precon h = Ok (0, g) /\
    exists l2 leaves finished out, waiting (h_live h) g l2 leaves finished out.
Proof.
  intros Ho Hp Hrem Hres Htot. unfold ct_get_ordered_candidate_nodes, get_candidates.
  pose proof (allocs_malloc h Ho) as Hm. unfold wp in Hm. destruct (malloc h) as [[b h1]|]; [|done].
  destruct Hm as (<- & Hh1 & Hl1).
  match goal with |- exists g, ?m ?s = _ /\ @?P g => enough (Hw : wp m (fun rc g => rc = 0 /\ P g) s) end.
  { apply wp_ok in Hw as (rc & g & Hw & -> & Hg). by exists g. }
  wp_steps. apply wp_build; [done|done|]. intros g l2 Hbuilt. cbn zeta.
  pose proof Hbuilt as (n & h2 & Heq & (Ht & _) & [rest Hrest] & Hfull & Hd & _). rewrite Heq in Ht.
  pose proof (rooted_head l2 0 root_data rest Ht Hrest) as Hr.
  destruct (full_leaves l2 0 2 Hr Hfull) as [Hleaves Hleaf]. rewrite Hd in Hleaves.
  set (leaves := tr G_IN_ORDER G_TRAVERSE_LEAVES l2 0%nat) in *.
  assert (Hlen : length leaves = length local_candidates) by (by rewrite <- Hleaves, length_fmap).
  assert (Hpos : (0 < length leaves * length (gi_remote_endpoints precon))%nat).
  { rewrite Hlen. by apply Nat.mul_pos_pos; [apply local_candidates_pos|destruct (gi_remote_endpoints precon); [done|cbn; lia]]. }
  rewrite bool_decide_false by (intros Hnil; rewrite Hnil in Hpos; cbn in Hpos; lia).
  rewrite bool_decide_false by (by intros Hnil%length_zero_iff_nil). cbn [orb].
  assert (Hlv2 : forall n, n ∈ l2 -> (node_level n <= 2)%nat) by (intros m Hm; by apply Hfull).
  rewrite <- Hlen, <- length_all_items in Htot. rewrite <- Nat2Z.inj_mul, <- length_all_items.
  rewrite <- length_all_items in Hpos. replace (u64 _) with (Z.of_nat (length (all_items leaves)))
    by (symmetry; apply Z.mod_small; lia).
  wp_steps. destruct (initial_progress _ _ _ (length (all_items leaves)) Hbuilt Hpos) as [Hg0 Hlk0]; [done..|].
  change (live (new_gather false h1)) with (h_live h1) in Hg0. rewrite Hl1 in Hg0.
  assert (Hrest2 : exists rest, l2 = root_gnode :: rest) by (by exists rest).
  pose proof (all_items_ok l2 leaves Hres Hleaf) as Hitems.
  eapply (wp_branch_all_by_remote l2 (length (all_items leaves)) _ Hrest2 Htot Hlv2 (all_items leaves));
    [exact Hg0|exact Hlk0|unfold accounts; by rewrite map_to_list_empty|done|exact Hitems|].
  intros finished out gx Hg Hlk Hacc. wp_steps. cbn [Z.eqb negb]. wp_steps. split; [done|].
  exists l2, leaves, finished, out. by split_and!.
Qed.

(** Gathering between two events: lookups are outstanding, or the callback
    has been called with the candidates. *)
Inductive gathering_state (base : Z) (g : gather) : Prop :=
| state_waiting l2 leaves finished out :
    waiting base g l2 leaves finished out -> g_dns_requests g <> [] -> g_calls g = [] -> oracle_ok (g_heap g) ->
    gathering_state base g
| state_done :
    handed_over base remote_candidates g -> g_dns_requests g = [] -> oracle_ok (g_heap g) -> gathering_state base g.

Lemma progressed base l2 leaves finished out g :
  waiting base g l2 leaves finished out -> gathering_state base g.
Proof.
  intros Hw. pose proof Hw as (Hrest & Hlv2 & Hleaves & Htotal & Hitems & Hg & Hlk & Hacc).
  pose proof (no_lookups _ _ _ (g_dns_requests g) _ Hlk (Permutation_refl _) Hacc) as Hno. unfold progress in Hg.
  destruct (g_dns_requests g) as [|r rs] eqn:Hr; cbn [is_nil] in Hno.
  - destruct Hno as [-> Hfin]. rewrite decide_True in Hg by done. apply state_done; [|done|].
    + by eapply (gathered_handed_over l2 leaves _ base).
    + by destruct Hg as (? & _ & _ & _ & _ & _ & ? & _).
  - rewrite decide_False in Hg by lia. eapply state_waiting; [exact Hw|by rewrite Hr|apply Hg|apply Hg].
Qed.

(** A lookup completes, whatever happened to the heap in between. *)
Lemma lookup_completes base g h request :
  gathering_state base g -> request ∈ g_dns_requests g -> oracle_ok h ->
  wp (deliver request)
    (fun _ g' => (exists base', gathering_state base' g') /\ (length (g_dns_requests g') < length (g_dns_requests g))%nat)
    (set_g_calls [] (set_g_heap h g)).
Proof.
  intros [l2 leaves finished out Hw Hne Hcalls Ho|_ Hno _] Hin Hh; [|rewrite Hno in Hin; by apply not_elem_of_nil in Hin].
  destruct Hw as (Hrest & Hlv2 & Hleaves & Htotal & Hitems & Hg & Hlk & Hacc).
  pose proof (no_lookups _ _ _ (g_dns_requests g) _ Hlk (Permutation_refl _) Hacc) as Hno.
  destruct (g_dns_requests g) as [|r0 rs0] eqn:Hr0; [done|]. cbn [is_nil] in Hno. rewrite <- Hr0 in *.
  apply progress_resolving in Hg; [|lia]. apply elem_of_Permutation in Hin as [rs Hrs].
  set (g1 := set_g_calls [] (set_g_heap h g)). set (base' := base + (h_live h - live g)).
  assert (Hg1 : progress l2 (length (all_items leaves)) (base' + 1 + tree_blocks l2) finished out (held_for out) g1).
  { unfold progress. rewrite decide_False by lia.
    destruct Hg as (Hb & Hx & H1 & H2 & H3 & H4 & _ & H5 & H6 & H7 & Hl). unfold resolving, building, fresh in *.
    split_and!; try done; [apply Hb..|]. unfold base', live in *. cbn in *. lia. }
  eapply wp_mono; [eapply wp_bind_inv, (wp_deliver_all l2 _ (base' + 1 + tree_blocks l2) (all_items leaves) [request] rs);
    [exact Hrest|exact Htotal|exact Hlv2|done|exact Hitems|exact Hg1|exact Hlk|exact Hacc|by rewrite <- Hrs]|].
  intros [] g' Hg'. apply wp_ret in Hg' as (finished' & out' & Hp' & Hlk' & Hacc' & Hrs').
  split; [exists base'; eapply progressed; by split_and!|]. rewrite Hrs', Hrs. cbn. lia.
Qed.

(** C2: gathering for a connection, when memory suffices, the local
    endpoints have an address and every remote endpoint can be resolved:
    the call returns 0, and in whatever order the lookups it left pending
    succeed, and whatever addresses they yield, the callback has not been
    called while one is outstanding, and after the last one (or during the
    call, when none was needed) it has been called exactly once, with every
    combination of path, protocol and resolved remote address that is usable,
    best first; nothing is leaked, no freed node or context is touched. *)
Theorem gathering_spec h :
  oracle_ok h -> paths <> [] -> gi_remote_endpoints precon <> [] ->
  Forall resolvable (gi_remote_endpoints precon) ->
  Z.of_nat (length local_candidates * length (gi_remote_endpoints precon)) < 2 ^ 64 ->
  exists g, ct_get_ordered_candidate_nodes tr sort uv gai uv_getaddrinfo precon h = Ok (0, g) /\
    forall completed outstanding, completed ++ outstanding ≡ₚ g_dns_requests g ->
      wp (for_each completed deliver) (fun _ g' =>
        if is_nil outstanding then handed_over (h_live h) remote_candidates g' else g_calls g' = []) g.
Proof.
  intros Ho Hp Hrem Hres Htot. destruct (gathering_run h Ho Hp Hrem Hres Htot) as (g & Hrun & l2 & leaves & finished & out & Hw).
  exists g. split; [exact Hrun|]. intros completed outstanding Hco.
  destruct Hw as (Hrest & Hlv2 & Hleaves & Htotal & Hitems & Hg & Hlk & Hacc).
  eapply wp_mono; [by eapply (wp_deliver_all l2 _ _ (all_items leaves))|].
  intros [] g' (finished' & out' & Hg' & Hlk' & Hacc' & Hreqs). cbn beta.
  pose proof (no_lookups _ _ _ _ _ Hlk' Hreqs Hacc') as Hno. unfold progress in Hg'. destruct (is_nil outstanding).
  - destruct Hno as [-> Hfin]. rewrite decide_True in Hg' by done.
    by eapply (gathered_handed_over l2 leaves _ (h_live h)).
  - rewrite decide_False in Hg' by lia. apply Hg'.
Qed.

(** *** Where gathering goes wrong *)

Lemma wp_ub {S A B} (m : M S A) (k : A -> M S B) (Q : A -> S -> Prop) why s :
  wp m Q s -> (forall a s', Q a s' -> k a s' = UB why) -> (m ≫= k) s = UB why.
Proof. unfold wp, mbind, M_bind. destruct (m s) as [[a s']|]; [|done]. intros HQ H. by apply H. Qed.

(** C37: a lookup that fails crashes the program: whatever lookup is pending
    when the call has returned, its completion with an error status reads
    the remote endpoint of a PROTOCOL node, which has none, to print the host
    name. *)
Theorem dns_failure_crashes h :
  oracle_ok h -> paths <> [] -> gi_remote_endpoints precon <> [] ->
  Forall resolvable (gi_remote_endpoints precon) ->
  Z.of_nat (length local_candidates * length (gi_remote_endpoints precon)) < 2 ^ 64 ->
  exists g, ct_get_ordered_candidate_nodes tr sort uv gai uv_getaddrinfo precon h = Ok (0, g) /\
    forall ctx host status res, (ctx, host) ∈ g_dns_requests g -> status < 0 ->
      on_uv_getaddrinfo_cb tr sort precon ctx status res g = UB "NULL remote endpoint in the error message".
Proof.
  intros Ho Hp Hrem Hres Htot. destruct (gathering_run h Ho Hp Hrem Hres Htot) as (g & Hrun & l2 & leaves & finished & out & Hw).
  exists g. split; [exact Hrun|]. intros ctx host status res Hreq Hst.
  destruct Hw as (Hrest & Hlv2 & Hleaves & Htotal & Hitems & Hg & Hlk & Hacc).
  assert (Hnn : is_nil (g_dns_requests g) = false) by (by destruct (g_dns_requests g); [apply not_elem_of_nil in Hreq|]).
  pose proof (no_lookups _ _ _ _ _ Hlk (reflexivity _) Hacc) as Hno. rewrite Hnn in Hno.
  apply progress_resolving in Hg; [|done]. destruct Hg as (Hb & (x & Hn & _) & _ & _ & _ & _ & _ & Hctx & _).
  destruct Hlk as (_ & Hin & _). apply Hin in Hreq as (it & Hit & _).
  assert (Hitem : it ∈ all_items leaves).
  { rewrite <- Hacc, !elem_of_app. right; left. apply list_elem_of_fmap. exists (ctx, it).
    split; [done|]. by apply elem_of_map_to_list. }
  destruct (proj1 (Forall_elem _ _) Hitems it Hitem) as (_ & m & Hm & _).
  assert (Hleaf : node_data m ∈ local_candidates).
  { rewrite <- Hleaves. apply list_elem_of_bind in Hitem as (i & Hi & Hil). apply list_elem_of_fmap in Hi as (r & -> & _).
    apply list_elem_of_fmap. exists i. split; [|done]. unfold leaf_data. cbn in Hm. by rewrite Hm. }
  assert (Hnone : cn_remote_endpoint (node_data m) = None).
  { unfold local_candidates in Hleaf. apply list_elem_of_join in Hleaf as (ks & Hk & (e & -> & _)%list_elem_of_fmap).
    by apply list_elem_of_fmap in Hk as (c & -> & _). }
  unfold on_uv_getaddrinfo_cb. eapply (wp_ub _ _ (fun _ s => s = _)); [by apply wp_modify|]. intros [] s ->.
  eapply (wp_ub _ _ (fun c s => c = context_of it /\ s = set_g_dns_requests _ g)).
  { unfold context_at. wp_steps. eapply wp_deref; [cbn; by rewrite Hctx, lookup_fmap, Hit|done]. }
  intros c s [-> ->]. eapply (wp_ub _ _ (fun d s => d = node_data m)).
  { eapply wp_data_at; [apply Hb| |done]. cbn. rewrite Hn. by apply find_node_app_l. }
  intros d s ->. destruct (Z.ltb_spec status 0); [|lia]. rewrite Hnone. done.
Qed.

(** An endpoint whose resolution fails at once: its service has no port, or it
    has neither a host name nor an address. *)
Definition unresolvable (r : ct_remote_endpoint) : Prop :=
  remote_port r = -1 \/ re_hostname r = None /\ ss_family (re_resolved_address r) = AF_UNSPEC.

Lemma wp_unresolvable ctx c r (Q : Z -> gather -> Prop) alloc lookup cb g :
  unresolvable r -> g_contexts g !! ctx = Some c ->
  (forall v, Q (- EINVAL) (set_g_contexts (<[ctx := v]> (g_contexts g)) g)) -> Q (- EINVAL) g ->
  wp (ct_remote_endpoint_resolve gai alloc (set_assigned_port ctx) lookup cb r) Q g.
Proof.
  intros Hr Hc HQ1 HQ2. unfold ct_remote_endpoint_resolve. wp_steps.
  eapply (wp_mono _ (fun p s => p = remote_port r /\ s = g)).
  { unfold remote_port, ct_remote_endpoint_get_service_port, ct_remote_endpoint_get_service.
    destruct (re_service r); cbn [is_Some_b]; wp_steps; done. }
  intros p s [-> ->]. destruct (Z.eqb_spec (remote_port r) (-1)) as [|Hp]; [by wp_steps|].
  destruct Hr as [?|[-> ->]]; [done|]. unfold set_assigned_port, context_at. wp_steps. cbn [Z.eqb negb]. apply wp_ret, HQ1.
Qed.

Lemma wp_complete_failed (Q : unit -> gather -> Prop) g :
  g_failed g = true -> g_context_freed g = false ->
  (forall g', g_calls g' = g_calls g ++ [None] -> g_context_freed g' = true -> g_contexts g' = g_contexts g -> Q tt g') ->
  wp (build_candidate_tree_is_complete_cb tr sort precon) Q g.
Proof.
  intros Hf Hfr HQ. unfold build_candidate_tree_is_complete_cb, use_context. wp_steps; [by rewrite Hfr|].
  wp_steps. rewrite Hf. unfold candidate_node_array_ready_cb, free_gather_context. wp_steps; [cbn; by rewrite Hfr|].
  wp_steps. eapply wp_heaped_frees; [apply frees_block|]. wp_steps. by apply HQ.
Qed.

Lemma wp_first_unresolvable h r rs :
  oracle_ok h -> paths <> [] -> gi_remote_endpoints precon = r :: rs -> unresolvable r ->
  wp (ct_build_candidate_tree tr sort uv gai uv_getaddrinfo precon) (fun rc g =>
    rc = - EINVAL /\ g_calls g = [None] /\ g_context_freed g = true) (new_gather false h).
Proof.
  intros Ho Hp Hrem Hr. apply wp_build; [done|done|].
  intros g l2 (n & h2 & -> & (Ht & Hfresh & Hh2) & [rest Hrest] & Hfull & Hd & _). cbn zeta.
  pose proof (rooted_head l2 0 root_data rest Ht Hrest) as Hroot.
  destruct (full_leaves l2 0 2 Hroot Hfull) as [Hleaves Hleaf]. rewrite Hd in Hleaves.
  set (leaves := tr G_IN_ORDER G_TRAVERSE_LEAVES l2 0%nat) in *.
  assert (Hlen : length leaves = length local_candidates) by (by rewrite <- Hleaves, length_fmap).
  pose proof (local_candidates_pos Hp) as Hpos. destruct leaves as [|i leaves']; [cbn in Hlen; lia|].
  rewrite Hrem, bool_decide_false by done. rewrite bool_decide_false by done. cbn [orb]. wp_steps.
  cbn [mbind list_bind fmap list_fmap app branch_all_by_remote].
  destruct (Hleaf i) as (m & _ & Hm & Hlv); [by constructor|].
  unfold ct_remote_resolve_call_context_new. wp_steps. eapply wp_heaped; [apply allocs_malloc|exact Hh2|].
  intros b h3 <- Hh3 _. cbn [negb]. unfold use_context. wp_steps; [done|]. wp_steps.
  unfold ct_branch_by_remote. wp_steps. eapply wp_data_at; [exact Ht|exact Hm|]. wp_steps.
  { apply bool_decide_eq_true. unfold node_level, data_level in Hlv. by destruct (cn_type (node_data m)). }
  wp_steps. eapply wp_unresolvable; [done|apply lookup_insert_eq|intros v|].
  all: change (negb (- EINVAL =? 0)) with true; cbn iota; wp_steps; [done|]; unfold fail_gathering; wp_steps.
  all: apply wp_when; [intros _|done].
  all: apply wp_complete_failed; [done|done|]; intros g' Hcalls Hfr Hctx.
  all: wp_steps; eapply wp_context_free; [rewrite Hctx; cbn; apply lookup_insert_eq|]; wp_steps; (split_and!; [done|cbn; by rewrite Hcalls|done]).
Qed.

(** When the first remote endpoint cannot be resolved, gathering has
    already reported the failure to the callback and freed its context when
    it returns the error, and the caller frees the context a second time. *)
Theorem gathering_double_free h r rs :
  oracle_ok h -> paths <> [] -> gi_remote_endpoints precon = r :: rs -> unresolvable r ->
  ct_get_ordered_candidate_nodes tr sort uv gai uv_getaddrinfo precon h = UB "double free of the gather context".
Proof.
  intros Ho Hp Hrem Hr. unfold ct_get_ordered_candidate_nodes, get_candidates.
  pose proof (allocs_malloc h Ho) as Hm. unfold wp in Hm. destruct (malloc h) as [[b h1]|]; [|done].
  destruct Hm as (<- & Hh1 & _). eapply wp_ub; [by apply (wp_first_unresolvable h1 r rs)|].
  intros rc g (-> & _ & Hfr). change (negb (- EINVAL =? 0)) with true. cbn iota.
  unfold free_gather_context, mbind, M_bind, get. cbn. by rewrite Hfr.
Qed.

(** When no interface has an address for any local endpoint (an
    interface name that does not exist, say), gathering - for a listener or
    a connection - takes the root of the tree for a path and aborts on the
    assertion in [branch_by_protocol_options] instead of reporting that
    there are no candidates. *)
Theorem unknown_interface_aborts h local_only :
  oracle_ok h -> paths = [] ->
  get_candidates tr sort uv gai uv_getaddrinfo precon h local_only = UB "assert: PATH node".
Proof.
  intros Ho Hp. unfold get_candidates.
  pose proof (allocs_malloc h Ho) as Hm. unfold wp in Hm. destruct (malloc h) as [[b h1]|]; [|done].
  destruct Hm as (<- & Hh1 & _).
  assert (Hb : ct_build_candidate_tree tr sort uv gai uv_getaddrinfo precon (new_gather local_only h1) = UB "assert: PATH node").
  2: { cbn [negb]. unfold mbind at 1, M_bind at 1. by rewrite Hb. }
  unfold ct_build_candidate_tree. set (g0 := new_gather local_only h1).
  eapply (wp_ub _ _ (fun n g => n = Some root_data /\ exists h, oracle_ok h /\ g = set_g_heap h g0)).
  { eapply wp_heaped; [apply allocs_node|exact Hh1|]. intros d h2 <- Hh2 _. split; [done|by exists h2]. }
  intros n g (-> & h2 & Hh2 & ->).
  set (bare := fun g => g_nodes g = [root_gnode] /\ (0 < g_next_node g)%nat /\ oracle_ok (g_heap g)).
  eapply (wp_ub _ _ (fun i g => i = 0%nat /\ bare g)).
  { unfold g_node_append_data. wp_steps. split; [done|]. split_and!; [done|cbn; lia|done]. }
  intros i g (-> & Hbare). eapply (wp_ub _ _ (fun _ => bare)); [by wp_steps|]. clear g Hbare. intros [] g Hbare.
  set (pick := fun eph : option ct_local_endpoint => (if bool_decide (length (gi_local_endpoints precon) = 0%nat)
    then e ← deref eph "NULL local endpoint"; mret [e] else mret (gi_local_endpoints precon)) : M gather _).
  eapply (wp_ub _ _ (fun eph g => bare g /\ forall s, pick eph s = Ok (local_endpoints, s))).
  { unfold pick, local_endpoints. destruct Hbare as (? & ? & ?). destruct (gi_local_endpoints precon) as [|e l]; cbn [length].
    - rewrite bool_decide_true by done.
      eapply (wp_heaped _ (eq (Some ct_local_endpoint_build)) (fun _ => 1)); [|done|].
      + unfold ct_local_endpoint_new. eapply allocs_bind; [apply allocs_malloc|]. intros b <-. by apply allocs_ret.
      + intros e h5 <- Hh5 _. split; [by split_and!|done].
    - rewrite bool_decide_false by done. wp_steps. split; [by split_and!|done]. }
  clear g Hbare. intros eph g (Hbare & Hpick). eapply (wp_ub _ _ (fun eps g => eps = local_endpoints /\ bare g)).
  { unfold wp. fold (pick eph). by rewrite Hpick. }
  clear g Hbare. intros eps g (-> & Hn & Hnext & Hh). eapply (wp_ub _ _ (fun rc g => rc = 0 /\ g_nodes g = [root_gnode] /\ oracle_ok (g_heap g))).
  { apply (wp_branch_all_by_path 0 root_gnode); [|by rewrite Hn|done|].
    - unfold building, fresh. rewrite Hn. split_and!; [by apply tree_root| |done].
      intros i. cbn. intros ->%list_elem_of_singleton. cbn. lia.
    - intros g' Hg'. split; [done|]. fold paths in Hg'. rewrite Hp in Hg'. destruct Hg' as (x & h7 & n7 & -> & Hx & _ & _ & Hh7 & _).
      apply fmap_nil_inv in Hx. subst x. split; [|done]. cbn. by rewrite Hn. }
  clear g Hn Hnext Hh. intros rc g (-> & Hn & Hh). set (bare2 := fun g => g_nodes g = [root_gnode] /\ oracle_ok (g_heap g)).
  eapply (wp_ub _ _ (fun _ => bare2)); [by eapply wp_heaped_frees; [apply frees_local_opt|]|].
  clear g Hn Hh. intros [] g Hbare. cbn [Z.eqb negb]. eapply (wp_ub _ _ (fun s g => s = g /\ bare2 g)); [by wp_steps|].
  intros s g' [-> [Hn Hh]]. eapply (wp_ub _ _ (fun o g => o = Some gathered_alpns /\ bare2 g)).
  { eapply wp_heaped; [apply allocs_protocol_options|exact Hh|]. intros o h8 <- Hh8 _. by split. }
  intros o g2 [-> [Hn2 Hh2']]. rewrite Hn.
  destruct (Htr G_IN_ORDER G_TRAVERSE_LEAVES [root_gnode] 0%nat (tree_root 0 root_data eq_refl) (list_elem_of_here _ _)) as [Hleaves _].
  change (filter _ _) with [0%nat] in Hleaves. apply Permutation_singleton_r in Hleaves. rewrite Hleaves. cbn [for_each].
  unfold branch_by_protocol_options, data_at, node_at, mbind, M_bind, get. rewrite Hn2. done.
Qed.
End run.

(** ** The addresses and protocols of candidates *)

Lemma is_inet_family a b : ss_family a = ss_family b -> is_inet a = is_inet b.
Proof. unfold is_inet. by intros ->. Qed.

(** Paths have IP addresses when the local endpoints are unresolved or have. *)
Definition local_inet (e : ct_local_endpoint) : Prop :=
  ss_family (le_resolved_address e) = AF_UNSPEC \/ is_inet (le_resolved_address e) = true.

Lemma paths_inet precon gai uv e :
  interfaces_ok uv -> Forall local_inet (gi_local_endpoints precon) ->
  e ∈ paths precon gai uv -> is_inet (le_resolved_address e) = true.
Proof.
  intros Huv Hl. unfold paths, local_endpoints. intros (l & He & (e0 & -> & He0)%list_elem_of_fmap)%list_elem_of_join.
  assert (Hok : local_inet e0).
  { rewrite Forall_elem in Hl. destruct (gi_local_endpoints precon) as [|e1 es]; [|by apply Hl].
    apply list_elem_of_singleton in He0 as ->. by left. }
  unfold local_resolution in He. destruct (Z.eqb_spec (ss_family (le_resolved_address e0)) AF_UNSPEC) as [Hun|Hne]; cbn [negb] in He.
  - apply list_elem_of_fmap in He as (a & -> & Ha). cbn [le_resolved_address].
    pose proof (interface_addresses_inet uv (Some (default "any" (le_interface_name e0))) Huv) as Hall.
    rewrite Forall_elem in Hall. destruct (Hall a Ha) as [Hwf Hi]. rewrite <- Hi. by apply is_inet_family, set_port_if_inet_family.
  - apply list_elem_of_singleton in He as ->. by destruct Hok.
Qed.

(** A local candidate that is kept: a path and a supported protocol that the
    selection properties allow. *)
Lemma local_candidate_inv precon gai uv n :
  n ∈ filter (fun d => keep precon d = true) (local_candidates precon gai uv) ->
  exists e p, n = CandidateNode NODE_TYPE_PROTOCOL (Some e) None (Some p) /\ e ∈ paths precon gai uv /\
    pc_protocol_impl p ∈ ct_supported_protocols /\
    protocol_implementation_supports_selection_properties (pc_protocol_impl p)
      (selection_properties (gi_transport_properties precon)) = true.
Proof.
  intros [Hkeep (l & Hn & (e & -> & He)%list_elem_of_fmap)%list_elem_of_join]%list_elem_of_filter.
  apply list_elem_of_fmap in Hn as ([impl alpn] & -> & Hc). unfold keep in Hkeep. apply andb_true_iff in Hkeep as [[_ Hk]%andb_true_iff _].
  exists e, (ProtocolCandidate impl alpn). split_and!; [done|done| |exact Hk].
  unfold protocol_combinations in Hc. apply list_elem_of_join in Hc as (l & Hc & (i & -> & Hi)%list_elem_of_fmap).
  by apply list_elem_of_fmap in Hc as (a & [= -> ->] & _).
Qed.

(** ** A concrete system

    Implementations of the library functions that satisfy their documented
    behaviour, and a preconnection, for the witnesses. *)

Section insertion_sort.
Context {A : Type} (cmp : A -> A -> Z).

Fixpoint insert_sorted (x : A) (l : list A) : list A :=
  match l with
  | [] => [x]
  | y :: l => if cmp x y <=? 0 then x :: y :: l else y :: insert_sorted x l
  end.
Definition insertion_sort (l : list A) : list A := foldr insert_sorted [] l.

Lemma insert_sorted_perm x l : insert_sorted x l ≡ₚ x :: l.
Proof.
  induction l as [|y l IH]; [done|]. cbn. destruct (cmp x y <=? 0); [done|]. rewrite IH. apply Permutation_swap.
Qed.

Lemma insertion_sort_perm l : insertion_sort l ≡ₚ l.
Proof. induction l as [|x l IH]; [done|]. cbn. by rewrite insert_sorted_perm, IH. Qed.

Lemma insert_sorted_sorted x l :
  (forall a b, a ∈ x :: l -> b ∈ x :: l -> cmp b a = - cmp a b) ->
  (forall a b c, a ∈ x :: l -> b ∈ x :: l -> c ∈ x :: l -> cmp a b <= 0 -> cmp b c <= 0 -> cmp a c <= 0) ->
  StronglySorted (fun a b => cmp a b <= 0) l -> StronglySorted (fun a b => cmp a b <= 0) (insert_sorted x l).
Proof.
  induction l as [|y l IH]; intros Ha Ht Hs; cbn.
  - repeat constructor.
  - apply StronglySorted_inv in Hs as [Hs Hy]. destruct (Z.leb_spec (cmp x y) 0) as [Hle|Hgt].
    + constructor; [by constructor|]. constructor; [done|]. apply Forall_elem. intros z Hz.
      apply (Ht x y z); [set_solver..|done|by apply (proj1 (Forall_elem _ _) Hy)].
    + constructor.
      * apply IH; [intros a b ? ?; apply Ha; set_solver|intros a b c ? ? ?; apply Ht; set_solver|done].
      * apply Forall_elem. intros z Hz. rewrite insert_sorted_perm in Hz. apply elem_of_cons in Hz as [->|Hz].
        -- rewrite (Ha x y) by set_solver. lia.
        -- by apply (proj1 (Forall_elem _ _) Hy).
Qed.

Lemma insertion_sort_sorted l :
  (forall a b, a ∈ l -> b ∈ l -> cmp b a = - cmp a b) ->
  (forall a b c, a ∈ l -> b ∈ l -> c ∈ l -> cmp a b <= 0 -> cmp b c <= 0 -> cmp a c <= 0) ->
  StronglySorted (fun a b => cmp a b <= 0) (insertion_sort l).
Proof.
  induction l as [|x l IH]; intros Ha Ht; [constructor|]. cbn.
  assert (Hin : forall a, a ∈ x :: insertion_sort l -> a ∈ x :: l).
  { intros a Hx. by rewrite insertion_sort_perm in Hx. }
  apply insert_sorted_sorted; [intros a b ? ?; apply Ha; auto|intros a b c ? ? ?; apply Ht; auto|].
  apply IH; [intros a b ? ?; apply Ha; by constructor|intros a b c ? ? ?; apply Ht; by constructor].
Qed.
End insertion_sort.

Lemma insertion_sort_ok : sort_ok (@insertion_sort ct_candidate_node).
Proof. intros cmp l Ha Ht. split; [apply insertion_sort_perm|by apply insertion_sort_sorted]. Qed.

Definition level_traverse (o : traverse_order) (f : traverse_flags) (l : list gnode) (i : nat) : list nat :=
  insertion_sort (fun x y => Z.of_nat (depth l x) - Z.of_nat (depth l y))
    (filter (fun x => flag_selects f l x = true) (subtree_ids l i)).

Lemma level_traverse_ok : traversal_ok level_traverse.
Proof.
  intros o f l i Ht Hi. split; [apply insertion_sort_perm|]. intros _.
  pose proof (insertion_sort_sorted (fun x y => Z.of_nat (depth l x) - Z.of_nat (depth l y))
    (filter (fun x => flag_selects f l x = true) (subtree_ids l i))) as Hs.
  assert (Hm : forall k, StronglySorted (fun a b => Z.of_nat (depth l a) - Z.of_nat (depth l b) <= 0) k ->
                StronglySorted (fun x y => (depth l x <= depth l y)%nat) k).
  { induction 1 as [|x k _ IH Hx]; constructor; [done|]. apply Forall_elem. intros y Hy.
    apply (proj1 (Forall_elem _ _) Hx) in Hy. lia. }
  apply Hm, Hs; intros; lia.
Qed.

Definition sample_precon (remotes : list ct_remote_endpoint) : gather_input :=
  GatherInput (TransportProperties DEFAULT_SELECTION_PROPERTIES DEFAULT_CONNECTION_PROPERTIES) None [] remotes.

(** One endpoint with an address, one with a host name. *)
Definition sample_remotes : list ct_remote_endpoint :=
  [RemoteEndpoint 443 None None loopback_v4; RemoteEndpoint 443 None (Some "localhost") sockaddr_zero].
Definition sample_dns (host : string) : list (Z * sockaddr) := [(AF_INET, loopback_v4)].

Lemma sample_resolvable : Forall (resolvable no_services (fun _ => 0)) sample_remotes.
Proof. repeat constructor; vm_compute; congruence. Qed.

Lemma sample_no_security rs sec : gi_security_parameters (sample_precon rs) = Some sec -> wf_sec sec.
Proof. done. Qed.

Lemma local_gathering_spec_witness :
  exists g, ct_get_ordered_local_candidate_nodes level_traverse (@insertion_sort _) one_interface no_services (fun _ => 0)
              (sample_precon []) (Heap [] 0) = Ok (0, g) /\
    handed_over (sample_precon []) 0 (local_candidates (sample_precon []) no_services one_interface) g.
Proof.
  apply (local_gathering_spec level_traverse level_traverse_ok (@insertion_sort _) insertion_sort_ok (sample_precon [])
    wf_default_selection sets_ok_default no_services one_interface (fun _ => 0) (sample_no_security []) (Heap [] 0)).
  - constructor.
  - vm_compute. congruence.
Defined.

Lemma gathering_spec_witness :
  exists g, ct_get_ordered_candidate_nodes level_traverse (@insertion_sort _) one_interface no_services (fun _ => 0)
              (sample_precon sample_remotes) (Heap [] 0) = Ok (0, g) /\
    forall completed outstanding, completed ++ outstanding ≡ₚ g_dns_requests g ->
      wp (for_each completed (deliver level_traverse (@insertion_sort _) (sample_precon sample_remotes) sample_dns)) (fun _ g' =>
        if is_nil outstanding
        then handed_over (sample_precon sample_remotes) 0
               (remote_candidates (sample_precon sample_remotes) no_services one_interface sample_dns) g'
        else g_calls g' = []) g.
Proof.
  apply (gathering_spec level_traverse level_traverse_ok (@insertion_sort _) insertion_sort_ok (sample_precon sample_remotes)
    wf_default_selection sets_ok_default no_services one_interface (fun _ => 0) sample_dns
    (sample_no_security sample_remotes) (Heap [] 0)).
  - constructor.
  - vm_compute. congruence.
  - done.
  - exact sample_resolvable.
  - vm_compute. reflexivity.
Defined.

(** The gathering of the sample, run: one path and three protocols, so three
    lookups of the host name are pending when the call returns. *)
Example sample_gathering :
  match ct_get_ordered_candidate_nodes level_traverse (@insertion_sort _) one_interface no_services (fun _ => 0)
          (sample_precon sample_remotes) (Heap [] 0) with
  | Ok (rc, g) => rc = 0 /\ length (g_dns_requests g) = 3%nat /\ g_calls g = []
  | UB _ => False
  end.
Proof. vm_compute. split_and!; reflexivity. Qed.

Lemma dns_failure_crashes_witness :
  exists g, ct_get_ordered_candidate_nodes level_traverse (@insertion_sort _) one_interface no_services (fun _ => 0)
              (sample_precon sample_remotes) (Heap [] 0) = Ok (0, g) /\
    forall ctx host status res, (ctx, host) ∈ g_dns_requests g -> status < 0 ->
      on_uv_getaddrinfo_cb level_traverse (@insertion_sort _) (sample_precon sample_remotes) ctx status res g =
        UB "NULL remote endpoint in the error message".
Proof.
  apply (dns_failure_crashes level_traverse level_traverse_ok (@insertion_sort _) insertion_sort_ok (sample_precon sample_remotes)
    wf_default_selection sets_ok_default no_services one_interface (fun _ => 0) sample_dns
    (sample_no_security sample_remotes) (Heap [] 0)).
  - constructor.
  - vm_compute. congruence.
  - done.
  - exact sample_resolvable.
  - vm_compute. reflexivity.
Defined.

(** A remote endpoint that names nothing. *)
Definition nameless : ct_remote_endpoint := RemoteEndpoint 443 None None sockaddr_zero.

Lemma gathering_double_free_witness :
  ct_get_ordered_candidate_nodes level_traverse (@insertion_sort _) one_interface no_services (fun _ => 0)
    (sample_precon [nameless]) (Heap [] 0) = UB "double free of the gather context".
Proof.
  apply (gathering_double_free level_traverse level_traverse_ok (@insertion_sort _) (sample_precon [nameless]) no_services
    one_interface (fun _ => 0) (sample_no_security [nameless]) (Heap [] 0) nameless []).
  - constructor.
  - vm_compute. congruence.
  - reflexivity.
  - right. split; reflexivity.
Defined.

Lemma unknown_interface_aborts_witness :
  get_candidates level_traverse (@insertion_sort _) (0, []) no_services (fun _ => 0) (sample_precon [nameless]) (Heap [] 0) true =
    UB "assert: PATH node".
Proof.
  apply (unknown_interface_aborts level_traverse level_traverse_ok (@insertion_sort _) (sample_precon [nameless]) no_services
    (0, []) (fun _ => 0) (sample_no_security [nameless]) (Heap [] 0) true).
  - constructor.
  - reflexivity.
Defined.
