(* ===== verification/World.v ===== *)
(** The objects that live between two turns of the event loop.

    Models the data types of src/src/ctaps_internal.h behind connections,
    connection groups, socket managers and listeners, the callback structures
    of src/include/ctaps.h, and what the sources use of libuv and GLib:
    handles that are closed asynchronously, requests that complete later,
    return codes, and hash tables whose order is unspecified.

    Objects have identifiers; an identifier that is no longer in its table
    is a freed object, so that every use of it is undefined.  Calls of
    application callbacks are recorded, in order, in [w_calls]: the sources
    make them in tail position, and whatever the application does in a
    callback is a later operation of the model. *)

From S2P Require Export Properties Message Security Protocols Uuid.
Open Scope Z_scope.

Definition id : Set := positive.

(** ** Callbacks *)

(** The functions a callback field can point to: an application function, or
    one of the wrappers that candidate_racing.c installs. *)
Inductive callback_fn : Set :=
| user_fn (n : Z)
| racing_on_attempt_ready
| on_attempt_establishment_error
| raced_connection_close_cb.

#[export] Instance callback_fn_eq_dec : EqDecision callback_fn.
Proof. solve_decision. Defined.

(** [ct_connection_callbacks_t] *)
Record ct_connection_callbacks := ConnectionCallbacks {
  cb_connection_error : option callback_fn;
  cb_establishment_error : option callback_fn;
  cb_path_change : option callback_fn;
  cb_ready : option callback_fn;
  cb_closed : option callback_fn;
  cb_send_error : option callback_fn;
  cb_sent : option callback_fn;
  cb_per_connection_context : option user_ptr }.

Definition no_connection_callbacks : ct_connection_callbacks :=
  ConnectionCallbacks None None None None None None None None.

(** [ct_listener_callbacks_t] *)
Record ct_listener_callbacks := ListenerCallbacks {
  lcb_listener_ready : option callback_fn;
  lcb_connection_received : option callback_fn;
  lcb_establishment_error : option callback_fn;
  lcb_listener_closed : option callback_fn;
  lcb_per_listener_context : option user_ptr }.

Definition no_listener_callbacks : ct_listener_callbacks := ListenerCallbacks None None None None None.

(** [ct_receive_callbacks_t] *)
Record ct_receive_callbacks := ReceiveCallbacks {
  rcb_receive_callback : option callback_fn;
  rcb_per_receive_context : option user_ptr }.

(** What a connection callback reports. *)
Inductive connection_event : Set :=
| Ready | Closed | EstablishmentError | ConnectionError | PathChange | Sent | SendError (reason : Z).

Inductive listener_event : Set :=
| ListenerReady | ListenerClosed | ListenerError (reason : Z) | ConnectionReceived (connection : id).

(** A call of a callback, with its arguments. *)
Inductive call : Type :=
| CallConnection (fn : callback_fn) (event : connection_event) (connection : option id)
| CallReceive (fn : callback_fn) (connection : id) (message : ct_message) (context : ct_message_context)
| CallListener (fn : callback_fn) (event : listener_event) (listener : option id).

(** ** Connections, groups, socket managers, listeners *)

(** [ct_connection_state_enum_t] *)
Inductive ct_connection_state : Set :=
| CT_CONN_STATE_ESTABLISHING | CT_CONN_STATE_ESTABLISHED | CT_CONN_STATE_CLOSING | CT_CONN_STATE_CLOSED.

#[export] Instance ct_connection_state_eq_dec : EqDecision ct_connection_state.
Proof. solve_decision. Defined.

Inductive ct_connection_role : Set := CT_CONNECTION_ROLE_CLIENT | CT_CONNECTION_ROLE_SERVER.

#[export] Instance ct_connection_role_eq_dec : EqDecision ct_connection_role.
Proof. solve_decision. Defined.

(** [ct_connection_t] with its [ct_per_connection_properties_t]; the numbers
    of endpoints are the lengths of the arrays, a NULL array is [None], and
    so is a queue that has been freed. *)
Record ct_connection := Connection {
  cn_uuid : list Ascii.ascii;
  cn_connection_group : option id;
  cn_security_parameters : option ct_security_parameters;
  cn_active_local_endpoint : nat;
  cn_all_local_endpoints : option (list ct_local_endpoint);
  cn_active_remote_endpoint : nat;
  cn_all_remote_endpoints : option (list ct_remote_endpoint);
  cn_state : ct_connection_state;
  cn_priority : Z;
  cn_can_receive : bool;
  cn_can_send : bool;
  cn_internal_connection_state : option id;
  cn_framer_impl : option ct_framer_impl;
  cn_role : ct_connection_role;
  cn_callbacks : ct_connection_callbacks;
  cn_socket_manager : option id;
  cn_received_callbacks : option (list ct_receive_callbacks);
  cn_received_messages : option (list (option ct_queued_message));
  cn_sent_early_data : bool }.

(** [ct_connection_group_t]; [None] is a destroyed table. *)
Record ct_connection_group := ConnectionGroup {
  gr_connection_group_id : list Ascii.ascii;
  gr_connections : option (list (list Ascii.ascii * id));
  gr_ref_count : Z;
  gr_transport_properties : option ct_transport_properties;
  gr_connection_group_state : option id }.

(** [ct_udp_socket_state_t], [ct_tcp_socket_state_t], and a pointer to a
    [ct_quic_socket_state_t] (below). *)
Inductive socket_state : Type :=
| UdpSocketState (udp_handle : option id)
| TcpSocketState (connection : option id) (listener : option id) (initial_message : option ct_message)
    (initial_message_context : option ct_message_context) (connect_req : option id) (tcp_handle : id)
| QuicSocketState (state : id).

(** [ct_socket_manager_close_reason_enum_t] *)
Inductive ct_close_reason : Set :=
| CT_CLOSE_TYPE_GRACEFUL | CT_CLOSE_TYPE_ESTABLISHMENT_ERROR | CT_CLOSE_TYPE_CONNECTION_ERROR.

#[export] Instance ct_close_reason_eq_dec : EqDecision ct_close_reason.
Proof. solve_decision. Defined.

(** [ct_socket_manager_t]; its [callbacks] always hold the functions that
    [ct_socket_manager_new] stores, and are called directly. *)
Record ct_socket_manager := SocketManager {
  sm_internal_socket_manager_state : option socket_state;
  sm_ref_count : Z;
  sm_all_connections : list id;
  sm_demux_table : option (list (bytes * id));
  sm_protocol_impl : ct_protocol_impl;
  sm_listener : option id;
  sm_close_reason : ct_close_reason }.

(** [ct_listener_state_enum_t] *)
Inductive ct_listener_state : Set :=
| CT_LISTENER_STATE_ESTABLISHING | CT_LISTENER_STATE_LISTENING | CT_LISTENER_STATE_CLOSED.

#[export] Instance ct_listener_state_eq_dec : EqDecision ct_listener_state.
Proof. solve_decision. Defined.

(** [ct_listener_t] *)
Record ct_listener := Listener {
  li_transport_properties : option ct_transport_properties;
  li_local_endpoint : option ct_local_endpoint;
  li_num_local_endpoints : nat;
  li_listener_callbacks : ct_listener_callbacks;
  li_connection_callbacks : ct_connection_callbacks;
  li_state : ct_listener_state;
  li_security_parameters : option ct_security_parameters;
  li_socket_manager : option id }.

(** ** libuv *)

(** Pointers to the close callbacks and to the callbacks of events of udp.c,
    tcp.c and quic.c. *)
Inductive close_cb : Set :=
| closed_handle_cb_ptr | socket_closed_success_ptr
| on_abort_ptr | on_stop_listen_ptr | on_libuv_close_ptr | on_libuv_close_after_error_ptr
| socket_timer_close_cb_ptr | quic_closed_poll_handle_cb_ptr.

#[export] Instance close_cb_eq_dec : EqDecision close_cb.
Proof. solve_decision. Defined.

Inductive read_cb : Set :=
| on_read_ptr | socket_listen_callback_ptr | tcp_on_read_ptr | poll_recv_cb_ptr | on_socket_timer_ptr.

#[export] Instance read_cb_eq_dec : EqDecision read_cb.
Proof. solve_decision. Defined.

(** A handle is open, closing (the loop will run the callback, if any, and
    still refers to the memory), or closed. *)
Inductive handle_phase : Set := HandleOpen | HandleClosing (cb : option close_cb) | HandleClosed.

#[export] Instance handle_phase_eq_dec : EqDecision handle_phase.
Proof. solve_decision. Defined.

(** [data] is the object the handle serves (a socket manager, or for a timer
    a [ct_quic_socket_state_t]); [uh_read] is the callback that runs when
    there is something to read or the timer fires, [uh_listening] says that
    new connections are reported, and [uh_bound] is the address that the socket
    was bound to. *)
Record uv_handle := Handle {
  uh_data : option id; uh_read : option read_cb; uh_listening : bool; uh_phase : handle_phase;
  uh_bound : option sockaddr }.

(** [udp_send_data_t] and [ct_tcp_send_data_t] *)
Record send_data := SendData {
  sd_connection : id; sd_message : option ct_message; sd_message_context : option ct_message_context }.

(** Requests; [req->data] is NULL when its allocation failed.  A connect
    request is a block of its own, [pending] while libuv refers to it. *)
Inductive request : Type :=
| UdpSendRequest (data : option send_data)
| TcpConnectRequest (handle : id) (clone pending : bool)
| TcpWriteRequest (handle : id) (data : option send_data).

(** ** QUIC *)

(** [ct_quic_stream_state_t] *)
Record ct_quic_stream_state := QuicStream { qs_stream_id : Z; qs_stream_initialized : bool }.

(** [ct_quic_connection_group_state_t]; picoquic's objects are opaque. *)
Record ct_quic_connection_group_state := QuicGroup {
  qg_picoquic_connection : option id; qg_attempted_early_data : bool }.

(** [ct_quic_socket_state_t] *)
Record ct_quic_socket_state := QuicSocket {
  qk_poll_handle : option id;
  qk_picoquic_ctx : option id;
  qk_timer_handle : option id;
  qk_socket_manager : id;
  qk_cert_file_name : cptr string;
  qk_key_file_name : cptr string;
  qk_ticket_store_path : cptr string;
  qk_initial_message : option ct_message;
  qk_initial_message_context : option ct_message_context }.

(** What a callback context of picoquic points to. *)
Inductive quic_ctx : Set := GroupCtx (connection_group : id) | SocketCtx (socket_state : id).

#[export] Instance quic_ctx_eq_dec : EqDecision quic_ctx.
Proof. solve_decision. Defined.

(** [picoquic_call_back_event_t], as far as [picoquic_callback] names it. *)
Inductive picoquic_call_back_event : Set :=
| picoquic_callback_ready | picoquic_callback_stream_data | picoquic_callback_stream_fin
| picoquic_callback_stream_reset | picoquic_callback_stop_sending | picoquic_callback_stateless_reset
| picoquic_callback_close | picoquic_callback_application_close | picoquic_callback_request_alpn_list
| picoquic_callback_path_available | picoquic_callback_path_suspended | picoquic_callback_path_deleted
| picoquic_callback_other.

#[export] Instance picoquic_call_back_event_eq_dec : EqDecision picoquic_call_back_event.
Proof. solve_decision. Defined.

(** The arguments of one call of [picoquic_callback]. *)
Record callback_args := CallbackArgs {
  ca_cnx : id;
  ca_stream_id : Z;
  ca_bytes : list Z;
  ca_event : picoquic_call_back_event;
  ca_callback_ctx : option quic_ctx;
  ca_stream_ctx : option id }.

(** What one call of [picoquic_prepare_next_packet] stores. *)
Record packet := Packet {
  pk_rc : Z; pk_length : Z; pk_to : sockaddr; pk_from : sockaddr; pk_if_index : Z; pk_last_cnx : option id }.

(** What [sendmsg] is told of a packet: the length of the destination, the
    level of the control message, its source address and interface. *)
Record pktinfo := Pktinfo {
  pi_namelen : nat; pi_ipv6 : bool; pi_source : option bytes; pi_ifindex : Z }.

(** The calls that tell picoquic, or the socket under it, something. *)
Inductive picoquic_call : Type :=
| PqCreateCnx (ctx cnx : id) (remote : sockaddr) (alpn : cptr string)
| PqSetCallback (cnx : id) (connection_group : id)
| PqSetAppStreamCtx (cnx : id) (stream_id : Z) (connection : id)
| PqAddToStream (cnx : id) (stream_id : Z) (data : list Z) (set_fin : bool) (connection : id)
| PqStartClient (cnx : id)
| PqResetStream (cnx : id) (stream_id : Z)
| PqClose (cnx : id)
| PqCloseImmediate (cnx : id)
| PqSetPriority (cnx : id) (stream_id : Z) (priority : Z)
| PqProbePath (cnx : id) (remote local : sockaddr)
| PqIncoming (ctx : id) (data : list Z) (from to : sockaddr)
| PqPrepare (ctx : id)
| PqUnreachable (cnx : option id) (to from : sockaddr) (if_index error : Z)
| PqFree (ctx : id)
| SendMsg (to : sockaddr) (info : pktinfo).

(** The objects of quic.c; [q_contexts] are the live picoquic contexts.
    [q_callbacks] are the calls of [picoquic_callback] that picoquic will make
    during its next calls that may call back, [q_packets] what it prepares for
    sending in the next runs of the timer's callback (nothing when they are
    exhausted), [q_log] the calls made so far. *)
Record quic := Quic {
  q_sockets : gmap id ct_quic_socket_state;
  q_streams : gmap id ct_quic_stream_state;
  q_groups : gmap id ct_quic_connection_group_state;
  q_contexts : gset id;
  q_callbacks : list (list callback_args);
  q_packets : list (list packet);
  q_log : list picoquic_call }.

Definition quic_empty : quic := Quic ∅ ∅ ∅ ∅ [] [] [].

(** ** The world *)

(** [w_uv] are the return codes of the next fallible calls of libuv, the
    sockets interface and picoquic (0 when it is exhausted), [w_names] what
    the next calls of [getsockname] and [getpeername] store, [w_entropy] what
    [getrandom] returns. *)
Record world := World {
  w_heap : heap;
  w_next : id;
  w_connections : gmap id ct_connection;
  w_groups : gmap id ct_connection_group;
  w_managers : gmap id ct_socket_manager;
  w_listeners : gmap id ct_listener;
  w_handles : gmap id uv_handle;
  w_requests : gmap id request;
  w_uv : list Z;
  w_names : list sockaddr;
  w_entropy : list (list Z);
  w_uuid_counter : Z;
  w_time : Z;
  w_calls : list call;
  w_quic : quic }.

Definition eta_w (w : world) :=
  World (w_heap w) (w_next w) (w_connections w) (w_groups w) (w_managers w) (w_listeners w) (w_handles w)
    (w_requests w) (w_uv w) (w_names w) (w_entropy w) (w_uuid_counter w) (w_time w) (w_calls w) (w_quic w).
Definition set_w_heap v w : world := ltac:(set_field eta_w w_heap v w).
Definition set_w_next v w : world := ltac:(set_field eta_w w_next v w).
Definition set_w_connections v w : world := ltac:(set_field eta_w w_connections v w).
Definition set_w_groups v w : world := ltac:(set_field eta_w w_groups v w).
Definition set_w_managers v w : world := ltac:(set_field eta_w w_managers v w).
Definition set_w_listeners v w : world := ltac:(set_field eta_w w_listeners v w).
Definition set_w_handles v w : world := ltac:(set_field eta_w w_handles v w).
Definition set_w_requests v w : world := ltac:(set_field eta_w w_requests v w).
Definition set_w_uv v w : world := ltac:(set_field eta_w w_uv v w).
Definition set_w_names v w : world := ltac:(set_field eta_w w_names v w).
Definition set_w_entropy v w : world := ltac:(set_field eta_w w_entropy v w).
Definition set_w_uuid_counter v w : world := ltac:(set_field eta_w w_uuid_counter v w).
Definition set_w_calls v w : world := ltac:(set_field eta_w w_calls v w).
Definition set_w_quic v w : world := ltac:(set_field eta_w w_quic v w).

Definition eta_cn (c : ct_connection) :=
  Connection (cn_uuid c) (cn_connection_group c) (cn_security_parameters c) (cn_active_local_endpoint c)
    (cn_all_local_endpoints c) (cn_active_remote_endpoint c) (cn_all_remote_endpoints c) (cn_state c)
    (cn_priority c) (cn_can_receive c) (cn_can_send c) (cn_internal_connection_state c) (cn_framer_impl c)
    (cn_role c) (cn_callbacks c) (cn_socket_manager c) (cn_received_callbacks c) (cn_received_messages c)
    (cn_sent_early_data c).
Definition set_cn_connection_group v c : ct_connection := ltac:(set_field eta_cn cn_connection_group v c).
Definition set_cn_security_parameters v c : ct_connection := ltac:(set_field eta_cn cn_security_parameters v c).
Definition set_cn_active_local_endpoint v c : ct_connection := ltac:(set_field eta_cn cn_active_local_endpoint v c).
Definition set_cn_all_local_endpoints v c : ct_connection := ltac:(set_field eta_cn cn_all_local_endpoints v c).
Definition set_cn_active_remote_endpoint v c : ct_connection := ltac:(set_field eta_cn cn_active_remote_endpoint v c).
Definition set_cn_all_remote_endpoints v c : ct_connection := ltac:(set_field eta_cn cn_all_remote_endpoints v c).
Definition set_cn_state v c : ct_connection := ltac:(set_field eta_cn cn_state v c).
Definition set_cn_priority v c : ct_connection := ltac:(set_field eta_cn cn_priority v c).
Definition set_cn_can_receive v c : ct_connection := ltac:(set_field eta_cn cn_can_receive v c).
Definition set_cn_can_send v c : ct_connection := ltac:(set_field eta_cn cn_can_send v c).
Definition set_cn_internal_connection_state v c : ct_connection :=
  ltac:(set_field eta_cn cn_internal_connection_state v c).
Definition set_cn_framer_impl v c : ct_connection := ltac:(set_field eta_cn cn_framer_impl v c).
Definition set_cn_role v c : ct_connection := ltac:(set_field eta_cn cn_role v c).
Definition set_cn_callbacks v c : ct_connection := ltac:(set_field eta_cn cn_callbacks v c).
Definition set_cn_socket_manager v c : ct_connection := ltac:(set_field eta_cn cn_socket_manager v c).
Definition set_cn_received_callbacks v c : ct_connection := ltac:(set_field eta_cn cn_received_callbacks v c).
Definition set_cn_received_messages v c : ct_connection := ltac:(set_field eta_cn cn_received_messages v c).
Definition set_cn_sent_early_data v c : ct_connection := ltac:(set_field eta_cn cn_sent_early_data v c).

Definition eta_gr (g : ct_connection_group) :=
  ConnectionGroup (gr_connection_group_id g) (gr_connections g) (gr_ref_count g) (gr_transport_properties g)
    (gr_connection_group_state g).
Definition set_gr_connections v g : ct_connection_group := ltac:(set_field eta_gr gr_connections v g).
Definition set_gr_ref_count v g : ct_connection_group := ltac:(set_field eta_gr gr_ref_count v g).
Definition set_gr_connection_group_state v g : ct_connection_group := ltac:(set_field eta_gr gr_connection_group_state v g).

Definition eta_qk (s : ct_quic_socket_state) :=
  QuicSocket (qk_poll_handle s) (qk_picoquic_ctx s) (qk_timer_handle s) (qk_socket_manager s) (qk_cert_file_name s)
    (qk_key_file_name s) (qk_ticket_store_path s) (qk_initial_message s) (qk_initial_message_context s).
Definition set_qk_poll_handle v s : ct_quic_socket_state := ltac:(set_field eta_qk qk_poll_handle v s).
Definition set_qk_picoquic_ctx v s : ct_quic_socket_state := ltac:(set_field eta_qk qk_picoquic_ctx v s).
Definition set_qk_timer_handle v s : ct_quic_socket_state := ltac:(set_field eta_qk qk_timer_handle v s).
Definition set_qk_cert_file_name v s : ct_quic_socket_state := ltac:(set_field eta_qk qk_cert_file_name v s).
Definition set_qk_key_file_name v s : ct_quic_socket_state := ltac:(set_field eta_qk qk_key_file_name v s).
Definition set_qk_ticket_store_path v s : ct_quic_socket_state := ltac:(set_field eta_qk qk_ticket_store_path v s).
Definition set_qk_initial_message v s : ct_quic_socket_state := ltac:(set_field eta_qk qk_initial_message v s).
Definition set_qk_initial_message_context v s : ct_quic_socket_state :=
  ltac:(set_field eta_qk qk_initial_message_context v s).

Definition eta_q (q : quic) :=
  Quic (q_sockets q) (q_streams q) (q_groups q) (q_contexts q) (q_callbacks q) (q_packets q) (q_log q).
Definition set_q_sockets v q : quic := ltac:(set_field eta_q q_sockets v q).
Definition set_q_streams v q : quic := ltac:(set_field eta_q q_streams v q).
Definition set_q_groups v q : quic := ltac:(set_field eta_q q_groups v q).
Definition set_q_contexts v q : quic := ltac:(set_field eta_q q_contexts v q).
Definition set_q_callbacks v q : quic := ltac:(set_field eta_q q_callbacks v q).
Definition set_q_packets v q : quic := ltac:(set_field eta_q q_packets v q).
Definition set_q_log v q : quic := ltac:(set_field eta_q q_log v q).

Definition eta_sm (m : ct_socket_manager) :=
  SocketManager (sm_internal_socket_manager_state m) (sm_ref_count m) (sm_all_connections m) (sm_demux_table m)
    (sm_protocol_impl m) (sm_listener m) (sm_close_reason m).
Definition set_sm_internal_socket_manager_state v m : ct_socket_manager :=
  ltac:(set_field eta_sm sm_internal_socket_manager_state v m).
Definition set_sm_ref_count v m : ct_socket_manager := ltac:(set_field eta_sm sm_ref_count v m).
Definition set_sm_all_connections v m : ct_socket_manager := ltac:(set_field eta_sm sm_all_connections v m).
Definition set_sm_demux_table v m : ct_socket_manager := ltac:(set_field eta_sm sm_demux_table v m).
Definition set_sm_listener v m : ct_socket_manager := ltac:(set_field eta_sm sm_listener v m).
Definition set_sm_close_reason v m : ct_socket_manager := ltac:(set_field eta_sm sm_close_reason v m).

Definition eta_li (l : ct_listener) :=
  Listener (li_transport_properties l) (li_local_endpoint l) (li_num_local_endpoints l) (li_listener_callbacks l)
    (li_connection_callbacks l) (li_state l) (li_security_parameters l) (li_socket_manager l).
Definition set_li_state v l : ct_listener := ltac:(set_field eta_li li_state v l).
Definition set_li_socket_manager v l : ct_listener := ltac:(set_field eta_li li_socket_manager v l).

(** ** Access *)

(** A computation on the heap. *)
Definition on_heap {A} (m : M heap A) : M world A := zoom w_heap set_w_heap m.

Definition fresh_id : M world id :=
  w ← get; put (set_w_next (Pos.succ (w_next w)) w) ;; mret (w_next w).

Definition connection_at (c : id) : M world ct_connection :=
  w ← get; deref (w_connections w !! c) "connection used after free".
Definition update_connection (c : id) (f : ct_connection -> ct_connection) : M world unit :=
  conn ← connection_at c; modify (fun w => set_w_connections (<[c := f conn]> (w_connections w)) w).

Definition group_at (g : id) : M world ct_connection_group :=
  w ← get; deref (w_groups w !! g) "connection group used after free".
Definition update_group (g : id) (f : ct_connection_group -> ct_connection_group) : M world unit :=
  gr ← group_at g; modify (fun w => set_w_groups (<[g := f gr]> (w_groups w)) w).

Definition manager_at (m : id) : M world ct_socket_manager :=
  w ← get; deref (w_managers w !! m) "socket manager used after free".
Definition update_manager (m : id) (f : ct_socket_manager -> ct_socket_manager) : M world unit :=
  sm ← manager_at m; modify (fun w => set_w_managers (<[m := f sm]> (w_managers w)) w).

Definition listener_at (l : id) : M world ct_listener :=
  w ← get; deref (w_listeners w !! l) "listener used after free".
Definition update_listener (l : id) (f : ct_listener -> ct_listener) : M world unit :=
  li ← listener_at l; modify (fun w => set_w_listeners (<[l := f li]> (w_listeners w)) w).

(** Calls of a callback that may be NULL. *)
Definition record_call (c : call) : M world unit := modify (fun w => set_w_calls (w_calls w ++ [c]) w).

Definition call_connection (fn : option callback_fn) (event : connection_event) (connection : option id) :
    M world unit :=
  match fn with Some fn => record_call (CallConnection fn event connection) | None => mret tt end.
Definition call_listener (fn : option callback_fn) (event : listener_event) (listener : option id) :
    M world unit :=
  match fn with Some fn => record_call (CallListener fn event listener) | None => mret tt end.

(** ** libuv calls *)

(** The return code of a call that may fail. *)
Definition uv_rc : M world Z :=
  w ← get;
  match w_uv w with
  | [] => mret 0
  | rc :: l => put (set_w_uv l w) ;; mret rc
  end.

(** [uv_udp_getsockname], [uv_tcp_getsockname], [uv_tcp_getpeername] *)
Definition uv_getname : M world (Z * sockaddr) :=
  rc ← uv_rc;
  if rc <? 0 then mret (rc, sockaddr_zero) else
  w ← get;
  match w_names w with
  | [] => mret (rc, sockaddr_zero)
  | a :: l => put (set_w_names l w) ;; mret (rc, a)
  end.

Definition handle_at (h : id) : M world uv_handle :=
  w ← get; deref (w_handles w !! h) "handle used after free".
Definition update_handle (h : id) (f : uv_handle -> uv_handle) : M world unit :=
  x ← handle_at h; modify (fun w => set_w_handles (<[h := f x]> (w_handles w)) w).

Definition set_data (manager : id) (h : uv_handle) : uv_handle :=
  Handle (Some manager) (uh_read h) (uh_listening h) (uh_phase h) (uh_bound h).
Definition set_read (cb : option read_cb) (h : uv_handle) : uv_handle :=
  Handle (uh_data h) cb (uh_listening h) (uh_phase h) (uh_bound h).
Definition set_listening (h : uv_handle) : uv_handle := Handle (uh_data h) (uh_read h) true (uh_phase h) (uh_bound h).
Definition set_phase (p : handle_phase) (h : uv_handle) : uv_handle :=
  Handle (uh_data h) (uh_read h) (uh_listening h) p (uh_bound h).
Definition set_bound (a : sockaddr) (h : uv_handle) : uv_handle :=
  Handle (uh_data h) (uh_read h) (uh_listening h) (uh_phase h) (Some a).

Definition is_open (h : uv_handle) : bool := bool_decide (uh_phase h = HandleOpen).

(** A handle that [malloc] returned and [uv_udp_init] or [uv_tcp_init]
    initialised: its [data] is not set. *)
Definition new_handle : M world id :=
  h ← fresh_id;
  modify (fun w => set_w_handles (<[h := Handle None None false HandleOpen None]> (w_handles w)) w) ;;
  mret h.

(** libuv asserts that a handle is closed once. *)
Definition uv_close (h : id) (cb : option close_cb) : M world unit :=
  x ← handle_at h;
  assert_ (is_open x) "uv_close on a closing handle" ;;
  update_handle h (set_phase (HandleClosing cb)).

(** [uv_tcp_close_reset] closes the handle as [uv_close] does. *)
Definition uv_tcp_close_reset (h : id) (cb : option close_cb) : M world unit := uv_close h cb.

Definition uv_is_closing (h : id) : M world bool := x ← handle_at h; mret (negb (is_open x)).

(** [free] of a handle: the loop must have finished closing it. *)
Definition free_handle (h : id) : M world unit :=
  x ← handle_at h;
  assert_ (bool_decide (uh_phase x = HandleClosed)) "handle freed while the loop uses it" ;;
  modify (fun w => set_w_handles (delete h (w_handles w)) w) ;;
  on_heap free_block.

Definition new_request (r : request) : M world id :=
  i ← fresh_id;
  modify (fun w => set_w_requests (<[i := r]> (w_requests w)) w) ;;
  mret i.
Definition request_at (i : id) : M world request :=
  w ← get; deref (w_requests w !! i) "request used after free".
Definition set_request (i : id) (r : request) : M world unit :=
  modify (fun w => set_w_requests (<[i := r]> (w_requests w)) w).
Definition drop_request (i : id) : M world unit :=
  modify (fun w => set_w_requests (delete i (w_requests w)) w).

(** ** GLib hash tables

    Iteration visits the entries in an unspecified order. *)
Class HashOrder := {
  hash_order {A} : list A -> list A;
  hash_order_perm {A} (l : list A) : hash_order l ≡ₚ l }.

(** [g_hash_table_lookup] in a table as a list of entries, and
    [g_hash_table_remove]. *)
Definition table_lookup {K} `{EqDecision K} (k : K) (t : list (K * id)) : option id :=
  match list_find (fun e => e.1 = k) t with Some (_, e) => Some e.2 | None => None end.
Definition table_remove {K} `{EqDecision K} (k : K) (t : list (K * id)) : list (K * id) :=
  filter (fun e => e.1 <> k) t.
