(* ===== verification/SocketManagers.v ===== *)
(** Socket managers, connection groups and the states of connections.

    Models src/src/connection/socket_manager/socket_manager.c,
    src/src/connection/connection_group.c, the state functions of
    src/src/connection/connection.c and the state functions of
    src/src/connection/listener.c.

    A socket manager owns a socket for the connections (and the listener)
    that use it.  The protocols' operations are interfaces: [SocketImpl]
    holds the entries of [ct_protocol_impl_t] that the socket manager's own
    functions call. *)

From S2P Require Export World.
Open Scope Z_scope.

(** ** States of a connection (connection.c) *)

(** [if (!connection) return b] *)
Definition with_connection {A} (connection : option id) (dflt : A) (f : ct_connection -> A) : M world A :=
  match connection with None => mret dflt | Some c => conn ← connection_at c; mret (f conn) end.
Definition set_connection (connection : option id) (f : ct_connection -> ct_connection) : M world unit :=
  match connection with None => mret tt | Some c => update_connection c f end.

Definition ct_connection_set_can_receive (connection : option id) (can_receive : bool) : M world unit :=
  set_connection connection (set_cn_can_receive can_receive).
Definition ct_connection_set_can_send (connection : option id) (can_send : bool) : M world unit :=
  set_connection connection (set_cn_can_send can_send).
Definition ct_connection_mark_as_established (connection : option id) : M world unit :=
  match connection with
  | None => mret tt
  | Some c =>
      update_connection c (set_cn_state CT_CONN_STATE_ESTABLISHED) ;;
      ct_connection_set_can_send (Some c) true ;;
      ct_connection_set_can_receive (Some c) true
  end.
Definition ct_connection_mark_as_closing (connection : option id) : M world unit :=
  set_connection connection (set_cn_state CT_CONN_STATE_CLOSING).
Definition ct_connection_mark_as_closed (connection : option id) : M world unit :=
  set_connection connection (set_cn_state CT_CONN_STATE_CLOSED).

Definition in_state (s : ct_connection_state) (c : ct_connection) : bool := bool_decide (cn_state c = s).

Definition ct_connection_is_closing (connection : option id) : M world bool :=
  with_connection connection false (in_state CT_CONN_STATE_CLOSING).
Definition ct_connection_is_closed (connection : option id) : M world bool :=
  with_connection connection false (in_state CT_CONN_STATE_CLOSED).
Definition ct_connection_is_established (connection : option id) : M world bool :=
  with_connection connection false (in_state CT_CONN_STATE_ESTABLISHED).
Definition ct_connection_is_establishing (connection : option id) : M world bool :=
  with_connection connection false (in_state CT_CONN_STATE_ESTABLISHING).
Definition ct_connection_is_closed_or_closing (connection : option id) : M world bool :=
  match connection with
  | None => mret false
  | Some c =>
      b ← ct_connection_is_closed (Some c);
      if b : bool then mret true else ct_connection_is_closing (Some c)
  end.
(** [None] is [CT_CONN_STATE_INVALID]. *)
Definition ct_connection_get_state (connection : option id) : M world (option ct_connection_state) :=
  with_connection connection None (fun c => Some (cn_state c)).
Definition ct_connection_is_client (connection : option id) : M world bool :=
  with_connection connection false (fun c => bool_decide (cn_role c = CT_CONNECTION_ROLE_CLIENT)).
Definition ct_connection_is_server (connection : option id) : M world bool :=
  with_connection connection false (fun c => bool_decide (cn_role c = CT_CONNECTION_ROLE_SERVER)).
Definition ct_connection_can_send (connection : option id) : M world bool :=
  with_connection connection false cn_can_send.
Definition ct_connection_can_receive (connection : option id) : M world bool :=
  with_connection connection false cn_can_receive.

(** ** States of a listener (listener.c) *)

Definition ct_listener_is_closed (listener : option id) : M world bool :=
  match listener with
  | None => mret true
  | Some l => li ← listener_at l; mret (bool_decide (li_state li = CT_LISTENER_STATE_CLOSED))
  end.
Definition ct_listener_mark_as_closed (listener : option id) : M world unit :=
  match listener with
  | None => mret tt
  | Some l => update_listener l (set_li_state CT_LISTENER_STATE_CLOSED)
  end.
Definition ct_listener_get_callback_context (listener : option id) : M world (option user_ptr) :=
  match listener with
  | None => mret None
  | Some l => li ← listener_at l; mret (lcb_per_listener_context (li_listener_callbacks li))
  end.
Definition ct_listener_get_local_endpoint (listener : id) : M world (option ct_local_endpoint) :=
  li ← listener_at listener; mret (li_local_endpoint li).

(** ** The socket manager's demultiplexing table *)

(** The key: the prefix of the address that its family determines. *)
Definition demux_key (addr : sockaddr) : option bytes :=
  if ss_family addr =? AF_INET then Some (take SOCKADDR_IN_SIZE addr)
  else if ss_family addr =? AF_INET6 then Some (take SOCKADDR_IN6_SIZE addr)
  else None.

(** GLib warns about a NULL table and finds nothing in it. *)
Definition socket_manager_get_from_demux_table (socket_manager : id) (remote_addr : sockaddr) : M world (option id) :=
  match demux_key remote_addr with
  | None => mret None
  | Some addr_bytes =>
      sm ← manager_at socket_manager;
      mret (sm_demux_table sm ≫= table_lookup addr_bytes)
  end.

Definition socket_manager_insert_demuxed_connection (socket_manager : id) (remote : ct_remote_endpoint)
    (connection : id) : M world Z :=
  connection_at connection ;;
  match demux_key (re_resolved_address remote) with
  | None => mret (- EINVAL)
  | Some addr_bytes =>
      sm ← manager_at socket_manager;
      t ← deref (sm_demux_table sm) "insertion in a NULL demux table";
      if is_Some_b (table_lookup addr_bytes t) then mret (- EEXIST)
      else
        update_manager socket_manager (set_sm_demux_table (Some (t ++ [(addr_bytes, connection)]))) ;;
        mret 0
  end.

(** ** References and dependents *)

Definition ct_socket_manager_ref (socket_manager : option id) : M world (option id) :=
  match socket_manager with
  | None => mret None
  | Some m => update_manager m (fun sm => set_sm_ref_count (sm_ref_count sm + 1) sm) ;; mret (Some m)
  end.

(** [g_slist_prepend] *)
Definition prepend_connection (connection : id) (sm : ct_socket_manager) : ct_socket_manager :=
  set_sm_all_connections (connection :: sm_all_connections sm) sm.

Definition ct_socket_manager_add_connection (socket_manager connection : id) : M world unit :=
  update_manager socket_manager (prepend_connection connection) ;;
  m ← ct_socket_manager_ref (Some socket_manager);
  update_connection connection (set_cn_socket_manager m).

Fixpoint count_open (l : list id) : M world Z :=
  match l with
  | [] => mret 0
  | c :: l =>
      closed ← ct_connection_is_closed (Some c);
      n ← count_open l;
      mret (if closed : bool then n else n + 1)
  end.

Definition ct_socket_manager_get_num_open_dependents (socket_manager : id) : M world Z :=
  sm ← manager_at socket_manager;
  counter ← match sm_listener sm with
            | None => mret 0
            | Some l => li ← listener_at l;
                        mret (if bool_decide (li_state li = CT_LISTENER_STATE_CLOSED) then 0 else 1)
            end;
  n ← count_open (sm_all_connections sm);
  mret (counter + n).

Fixpoint first_open (l : list id) : M world (option id) :=
  match l with
  | [] => mret None
  | c :: l =>
      closed ← ct_connection_is_closed (Some c);
      if closed : bool then first_open l else mret (Some c)
  end.

Definition ct_socket_manager_get_last_open_connection (socket_manager : id) : M world (option id) :=
  sm ← manager_at socket_manager; first_open (sm_all_connections sm).

(** ** Notifications that call no protocol *)

Definition ct_socket_manager_notify_of_listener_close (socket_manager : id) (listener : option id) : M world unit :=
  match listener with
  | None => mret tt
  | Some l =>
      sm ← manager_at socket_manager;
      li ← listener_at l;
      match sm_close_reason sm with
      | CT_CLOSE_TYPE_ESTABLISHMENT_ERROR =>
          call_listener (lcb_establishment_error (li_listener_callbacks li)) (ListenerError (-1)) (Some l)
      | _ => call_listener (lcb_listener_closed (li_listener_callbacks li)) ListenerClosed (Some l)
      end
  end.

Definition ct_socket_manager_listener_ready_cb (listener : id) : M world unit :=
  li ← listener_at listener;
  call_listener (lcb_listener_ready (li_listener_callbacks li)) ListenerReady (Some listener).

Definition ct_socket_manager_notify_of_connection_close (socket_manager connection : id) : M world unit :=
  sm ← manager_at socket_manager;
  conn ← connection_at connection;
  let cbs := cn_callbacks conn in
  match sm_close_reason sm with
  | CT_CLOSE_TYPE_GRACEFUL => call_connection (cb_closed cbs) Closed (Some connection)
  | CT_CLOSE_TYPE_CONNECTION_ERROR => call_connection (cb_connection_error cbs) ConnectionError (Some connection)
  | CT_CLOSE_TYPE_ESTABLISHMENT_ERROR =>
      call_connection (cb_establishment_error cbs) EstablishmentError (Some connection)
  end.

Definition ct_socket_manager_closed_socket_cb (socket_manager : id) : M world unit :=
  conn ← ct_socket_manager_get_last_open_connection socket_manager;
  match conn with
  | Some c =>
      ct_connection_mark_as_closed (Some c) ;;
      ct_socket_manager_notify_of_connection_close socket_manager c
  | None =>
      sm ← manager_at socket_manager;
      ct_listener_mark_as_closed (sm_listener sm) ;;
      ct_socket_manager_notify_of_listener_close socket_manager (sm_listener sm)
  end.

Definition ct_socket_manager_connection_ready_cb (connection : id) : M world unit :=
  ct_connection_mark_as_established (Some connection) ;;
  conn ← connection_at connection;
  call_connection (cb_ready (cn_callbacks conn)) Ready (Some connection).

Definition ct_socket_manager_message_sent_cb (connection : id) (message_context : option ct_message_context) :
    M world unit :=
  conn ← connection_at connection;
  call_connection (cb_sent (cn_callbacks conn)) Sent (Some connection) ;;
  on_heap (ct_message_context_free message_context).

Definition ct_socket_manager_message_send_error_cb (connection : id) (message_context : option ct_message_context)
    (reason : Z) : M world unit :=
  conn ← connection_at connection;
  call_connection (cb_send_error (cn_callbacks conn)) (SendError reason) (Some connection) ;;
  on_heap (ct_message_context_free message_context).

Definition ct_socket_manager_connection_received_cb (listener connection : id) : M world unit :=
  ct_connection_mark_as_established (Some connection) ;;
  li ← listener_at listener;
  call_listener (lcb_connection_received (li_listener_callbacks li)) (ConnectionReceived connection) (Some listener).

(** ** The protocols' part *)

(** The entries of [ct_protocol_impl_t] that release the socket and the
    protocol's data, by protocol; [None] is a NULL entry. *)
Class SocketImpl := {
  impl_close_socket : ct_protocol_enum -> id -> M world unit;
  impl_free_socket_state : ct_protocol_enum -> option (id -> M world unit);
  impl_free_connection_state : ct_protocol_enum -> option (id -> M world unit);
  impl_free_connection_group_state : ct_protocol_enum -> option (id -> M world unit) }.

Definition sm_protocol (sm : ct_socket_manager) : ct_protocol_enum := pi_enum (sm_protocol_impl sm).

(** A call through an entry that may be NULL, guarded in the source. *)
Definition call_impl (f : option (id -> M world unit)) (x : id) : M world unit :=
  match f with Some f => f x | None => mret tt end.

Section sockets.
Context `{!SocketImpl}.

Definition ct_socket_manager_free (socket_manager : option id) : M world unit :=
  match socket_manager with
  | None => mret tt
  | Some m =>
      sm ← manager_at m;
      call_impl (impl_free_socket_state (sm_protocol sm)) m ;;
      modify (fun w => set_w_managers (delete m (w_managers w)) w) ;;
      on_heap free_block
  end.

Definition ct_socket_manager_unref (socket_manager : option id) : M world unit :=
  match socket_manager with
  | None => mret tt
  | Some m =>
      update_manager m (fun sm => set_sm_ref_count (sm_ref_count sm - 1) sm) ;;
      sm ← manager_at m;
      when (sm_ref_count sm =? 0) (ct_socket_manager_free (Some m))
  end.

Definition ct_socket_manager_close (socket_manager : option id) : M world unit :=
  match socket_manager with
  | None => mret tt
  | Some m => sm ← manager_at m; impl_close_socket (sm_protocol sm) m
  end.

Definition set_close_reason (m : id) (r : ct_close_reason) : M world unit :=
  update_manager m (set_sm_close_reason r).

(** [connection->socket_manager], dereferenced. *)
Definition manager_of (connection : id) : M world id :=
  conn ← connection_at connection; deref (cn_socket_manager conn) "NULL socket manager".

Definition ct_socket_manager_closed_connection_cb (connection : id) : M world unit :=
  m ← manager_of connection;
  num_open ← ct_socket_manager_get_num_open_dependents m;
  if num_open =? 1 then
    set_close_reason m CT_CLOSE_TYPE_GRACEFUL ;;
    ct_socket_manager_close (Some m)
  else
    ct_connection_mark_as_closed (Some connection) ;;
    conn ← connection_at connection;
    call_connection (cb_closed (cn_callbacks conn)) Closed (Some connection).

Definition ct_socket_manager_establishment_error_cb (connection : id) : M world unit :=
  m ← manager_of connection;
  num_open ← ct_socket_manager_get_num_open_dependents m;
  if num_open =? 1 then
    set_close_reason m CT_CLOSE_TYPE_ESTABLISHMENT_ERROR ;;
    ct_socket_manager_close (Some m)
  else
    ct_connection_mark_as_closed (Some connection) ;;
    conn ← connection_at connection;
    call_connection (cb_establishment_error (cn_callbacks conn)) EstablishmentError (Some connection).

Definition ct_socket_manager_aborted_connection_cb (connection : id) : M world unit :=
  m ← manager_of connection;
  incoming_state ← ct_connection_get_state (Some connection);
  num_open ← ct_socket_manager_get_num_open_dependents m;
  let establishing := bool_decide (incoming_state = Some CT_CONN_STATE_ESTABLISHING) in
  if num_open =? 1 then
    set_close_reason m CT_CLOSE_TYPE_CONNECTION_ERROR ;;
    when establishing (set_close_reason m CT_CLOSE_TYPE_ESTABLISHMENT_ERROR) ;;
    ct_socket_manager_close (Some m)
  else
    ct_connection_mark_as_closed (Some connection) ;;
    conn ← connection_at connection;
    if establishing then
      call_connection (cb_establishment_error (cn_callbacks conn)) EstablishmentError (Some connection)
    else call_connection (cb_connection_error (cn_callbacks conn)) ConnectionError (Some connection).

Definition ct_socket_manager_listener_closed_cb (socket_manager : id) : M world unit :=
  sm ← manager_at socket_manager;
  num_open ← ct_socket_manager_get_num_open_dependents socket_manager;
  if num_open =? 1 then
    set_close_reason socket_manager CT_CLOSE_TYPE_GRACEFUL ;;
    ct_socket_manager_close (Some socket_manager)
  else
    ct_listener_mark_as_closed (sm_listener sm) ;;
    ct_socket_manager_notify_of_listener_close socket_manager (sm_listener sm).

(** GLib's tables are never NULL. *)
Definition ct_socket_manager_new (protocol_impl : ct_protocol_impl) (listener : option id) : M world (option id) :=
  ok ← on_heap malloc;
  if negb ok then mret None else
  m ← fresh_id;
  let demux_table := if bool_decide (pi_enum protocol_impl = CT_PROTOCOL_UDP) then Some [] else None in
  modify (fun w => set_w_managers
    (<[m := SocketManager None 0 [] demux_table protocol_impl listener CT_CLOSE_TYPE_GRACEFUL]> (w_managers w)) w) ;;
  mret (Some m).

Definition ct_socket_manager_free_connection_state (connection : id) : M world unit :=
  m ← manager_of connection;
  sm ← manager_at m;
  call_impl (impl_free_connection_state (sm_protocol sm)) connection.

(** ** Connection groups (connection_group.c) *)

Definition uuid_eq_dec : EqDecision (list Ascii.ascii) := _.

(** [g_hash_table_insert] replaces the value of an existing key, and then
    returns FALSE. *)
Definition ct_connection_group_add_connection (group connection : id) : M world Z :=
  conn ← connection_at connection;
  if is_Some_b (cn_connection_group conn) then mret (- EEXIST) else
  gr ← group_at group;
  t ← deref (gr_connections gr) "insertion in a NULL table";
  if is_Some_b (table_lookup (cn_uuid conn) t) then
    update_group group (set_gr_connections
      (Some ((fun e => if bool_decide (e.1 = cn_uuid conn) then (e.1, connection) else e) <$> t))) ;;
    mret (- EEXIST)
  else
    update_group group (set_gr_connections (Some (t ++ [(cn_uuid conn, connection)]))) ;;
    update_group group (fun gr => set_gr_ref_count (u64 (gr_ref_count gr + 1)) gr) ;;
    update_connection connection (set_cn_connection_group (Some group)) ;;
    mret 0.

Definition ct_connection_group_remove_connection (group connection : id) : M world Z :=
  conn ← connection_at connection;
  gr ← group_at group;
  t ← deref (gr_connections gr) "removal from a NULL table";
  if negb (is_Some_b (table_lookup (cn_uuid conn) t)) then mret (- ENOENT) else
  update_group group (set_gr_connections (Some (table_remove (cn_uuid conn) t))) ;;
  mret 0.

(** The members, in the order in which a GLib iterator visits them. *)
Definition group_members `{!HashOrder} (group : id) : M world (list id) :=
  gr ← group_at group;
  t ← deref (gr_connections gr) "iteration over a NULL table";
  mret ((fun e => e.2) <$> hash_order t).

Definition ct_connection_group_get_first `{!HashOrder} (group : option id) : M world (option id) :=
  match group with
  | None => mret None
  | Some g =>
      gr ← group_at g;
      match gr_connections gr with
      | None => mret None
      | Some t => mret (head ((fun e => e.2) <$> hash_order t))
      end
  end.

Definition ct_connection_group_get_num_active_connections `{!HashOrder} (group : id) : M world Z :=
  l ← group_members group; n ← count_open l; mret (u64 n).

Definition ct_connection_group_is_empty (group : option id) : M world bool :=
  match group with
  | None => mret true
  | Some g =>
      gr ← group_at g;
      mret (match gr_connections gr with None => true | Some t => bool_decide (length t = 0%nat) end)
  end.

Definition ct_connection_group_free (group : option id) : M world unit :=
  match group with
  | None => mret tt
  | Some g =>
      gr ← group_at g;
      on_heap (ct_transport_properties_free (gr_transport_properties gr)) ;;
      modify (fun w => set_w_groups (delete g (w_groups w)) w) ;;
      on_heap free_block
  end.

Definition ct_connection_group_ref (group : option id) : M world (option id) :=
  match group with
  | None => mret None
  | Some g => update_group g (fun gr => set_gr_ref_count (u64 (gr_ref_count gr + 1)) gr) ;; mret (Some g)
  end.

Definition ct_connection_group_unref (connection : option id) : M world unit :=
  match connection with
  | None => mret tt
  | Some c =>
      conn ← connection_at c;
      g ← deref (cn_connection_group conn) "NULL connection group";
      gr ← group_at g;
      match gr_connections gr with
      | Some t => update_group g (set_gr_connections (Some (table_remove (cn_uuid conn) t)))
      | None => mret tt
      end ;;
      update_group g (fun gr => set_gr_ref_count (u64 (gr_ref_count gr - 1)) gr) ;;
      gr ← group_at g;
      when (gr_ref_count gr =? 0)
        (m ← manager_of c;
         sm ← manager_at m;
         call_impl (impl_free_connection_group_state (sm_protocol sm)) g ;;
         ct_connection_group_free (Some g))
  end.
End sockets.

(** [generate_uuid_string], with the next entropy. *)
Definition generate_uuid : M world (list Ascii.ascii) :=
  w ← get;
  match w_entropy w with
  | [] => zoom w_uuid_counter set_w_uuid_counter (generate_uuid_string None (w_time w))
  | r :: l =>
      put (set_w_entropy l w) ;;
      zoom w_uuid_counter set_w_uuid_counter (generate_uuid_string (Some r) (w_time w))
  end.

Definition ct_connection_group_new (transport_properties : option ct_transport_properties) : M world (option id) :=
  ok ← on_heap malloc;
  if negb ok then mret None else
  uuid ← generate_uuid;
  props ← on_heap (match transport_properties with
                   | Some _ => ct_transport_properties_deep_copy transport_properties
                   | None => ct_transport_properties_new
                   end);
  match props with
  | None => on_heap free_block ;; mret None
  | Some _ =>
      g ← fresh_id;
      modify (fun w => set_w_groups (<[g := ConnectionGroup uuid (Some []) 0 props None]> (w_groups w)) w) ;;
      mret (Some g)
  end.

Definition ct_connection_group_get_transport_properties (group : option id) :
    M world (option ct_transport_properties) :=
  match group with None => mret None | Some g => gr ← group_at g; mret (gr_transport_properties gr) end.

Definition ct_connection_group_notify_of_path_change `{!HashOrder} (connection_group : id) : M world unit :=
  connections ← group_members connection_group;
  for_each connections (fun c =>
    conn ← connection_at c;
    call_connection (cb_path_change (cn_callbacks conn)) PathChange (Some c)).
