(* ===== verification/Connections.v ===== *)
(** Connections.

    Models src/src/connection/connection.c (the state functions are in
    SocketManagers), the group operations of
    src/src/connection/connection_group.c that go through a protocol, and
    [ct_socket_manager_close_connection], [_close_group], [_listener_close],
    [_listen] and the priority notification of
    src/src/connection/socket_manager/socket_manager.c.

    The remaining entries of [ct_protocol_impl_t] are the classes
    [CloseImpl] and [ProtocolOps]; message framers, which applications
    provide, are the class [Framers]. *)

From S2P Require Export SocketManagers.
Open Scope Z_scope.

(** The entry that closes one connection; the others. *)
Class CloseImpl := { impl_close_connection : ct_protocol_enum -> id -> M world Z }.

Class ProtocolOps := {
  impl_init : ct_protocol_enum -> id -> M world Z;
  impl_init_with_send : ct_protocol_enum -> id -> option ct_message -> option ct_message_context -> M world Z;
  impl_send : ct_protocol_enum -> id -> option ct_message -> option ct_message_context -> M world Z;
  impl_listen : ct_protocol_enum -> id -> M world Z;
  impl_close_listener : ct_protocol_enum -> id -> M world unit;
  impl_abort : ct_protocol_enum -> id -> M world unit;
  impl_clone_connection : ct_protocol_enum -> id -> id -> M world Z;
  impl_close_connection_group : ct_protocol_enum -> id -> M world unit;
  impl_set_connection_priority : ct_protocol_enum -> option (id -> Z -> M world Z) }.

(** An application's framer, by the identity of its two functions (0 is
    NULL): it receives the function to pass its result on to. *)
Class Framers := {
  framer_encode : Z -> id -> option ct_message -> option ct_message_context ->
    (id -> option ct_message -> option ct_message_context -> M world Z) -> M world Z;
  framer_decode : Z -> id -> option ct_message -> option ct_message_context ->
    (id -> option ct_message -> option ct_message_context -> M world unit) -> M world unit }.

(** The protocol of a connection's socket manager. *)
Definition protocol_of (connection : id) : M world ct_protocol_enum :=
  m ← manager_of connection; sm ← manager_at m; mret (sm_protocol sm).

(** ** Construction and destruction *)

Definition ct_connection_create_empty_with_uuid : M world (option id) :=
  ok ← on_heap malloc;
  if negb ok then mret None else
  c ← fresh_id;
  uuid ← generate_uuid;
  modify (fun w => set_w_connections (<[c :=
    Connection uuid None None 0 None 0 None CT_CONN_STATE_ESTABLISHING CT_CONNECTION_DEFAULT_PRIORITY false false
      None None CT_CONNECTION_ROLE_CLIENT no_connection_callbacks None (Some []) (Some []) false]>
    (w_connections w)) w) ;;
  mret (Some c).

(** [g_slist_remove]: the first occurrence. *)
Fixpoint g_slist_remove (c : id) (l : list id) : list id :=
  match l with
  | [] => []
  | x :: l => if bool_decide (x = c) then l else x :: g_slist_remove c l
  end.

Definition local_list (c : ct_connection) : list ct_local_endpoint := default [] (cn_all_local_endpoints c).
Definition remote_list (c : ct_connection) : list ct_remote_endpoint := default [] (cn_all_remote_endpoints c).

Section connections.
Context `{!SocketImpl}.

Definition ct_connection_free_content (connection : option id) : M world unit :=
  match connection with
  | None => mret tt
  | Some c =>
      conn ← connection_at c;
      on_heap (for_each (default [] (cn_received_callbacks conn)) (fun _ => free_block)) ;;
      update_connection c (set_cn_received_callbacks None) ;;
      on_heap (for_each (default [] (cn_received_messages conn)) ct_queued_message_free_all) ;;
      update_connection c (set_cn_received_messages None) ;;
      on_heap (when (is_Some_b (cn_all_local_endpoints conn)) (ct_local_endpoints_free false (local_list conn))) ;;
      update_connection c (set_cn_all_local_endpoints None) ;;
      on_heap (when (is_Some_b (cn_all_remote_endpoints conn)) (ct_remote_endpoints_free false (remote_list conn))) ;;
      update_connection c (set_cn_all_remote_endpoints None) ;;
      on_heap (ct_security_parameters_free (cn_security_parameters conn)) ;;
      update_connection c (set_cn_security_parameters None) ;;
      when (is_Some_b (cn_connection_group conn))
        (ct_connection_group_unref (Some c) ;;
         update_connection c (set_cn_connection_group None)) ;;
      match cn_socket_manager conn with
      | None => mret tt
      | Some m =>
          ct_socket_manager_free_connection_state c ;;
          update_manager m (fun sm => set_sm_all_connections (g_slist_remove c (sm_all_connections sm)) sm) ;;
          ct_socket_manager_unref (Some m) ;;
          update_connection c (set_cn_socket_manager None)
      end ;;
      on_heap (ct_framer_impl_free (cn_framer_impl conn))
  end.

Definition ct_connection_free (connection : option id) : M world unit :=
  ct_connection_free_content connection ;;
  match connection with
  | None => mret tt
  | Some c => modify (fun w => set_w_connections (delete c (w_connections w)) w) ;; on_heap free_block
  end.

(** The security parameters of a new connection; a failed copy is not
    noticed. *)
Definition copy_security (c : id) (security_parameters : option ct_security_parameters) : M world unit :=
  sec ← on_heap (ct_security_parameters_deep_copy security_parameters);
  update_connection c (set_cn_security_parameters sec).

(** The framer of a new connection. *)
Definition copy_framer (c : id) (framer_impl : option ct_framer_impl) : M world bool :=
  match framer_impl with
  | None => mret true
  | Some _ =>
      f ← on_heap (ct_framer_impl_deep_copy framer_impl);
      update_connection c (set_cn_framer_impl f) ;;
      mret (is_Some_b f)
  end.

Definition set_callbacks (c : id) (connection_callbacks : option ct_connection_callbacks) : M world unit :=
  match connection_callbacks with None => mret tt | Some cbs => update_connection c (set_cn_callbacks cbs) end.

Definition ct_connection_create_server_connection (socket_manager : id) (remote_endpoint : ct_remote_endpoint)
    (local_endpoint : option ct_local_endpoint) (transport_properties : option ct_transport_properties)
    (security_parameters : option ct_security_parameters) (connection_callbacks : option ct_connection_callbacks)
    (framer_impl : option ct_framer_impl) : M world (option id) :=
  connection ← ct_connection_create_empty_with_uuid;
  match connection with
  | None => mret None
  | Some c =>
      group ← ct_connection_group_new transport_properties;
      match group with
      | None => ct_connection_free (Some c) ;; mret None
      | Some g =>
          ct_connection_group_add_connection g c ;;
          remotes ← on_heap (ct_remote_endpoints_deep_copy [remote_endpoint]);
          update_connection c (set_cn_all_remote_endpoints remotes) ;;
          if negb (is_Some_b remotes) then
            ct_connection_free (Some c) ;; ct_connection_group_free (Some g) ;; mret None
          else
          update_connection c (set_cn_active_remote_endpoint 0%nat) ;;
          local ← on_heap (ct_local_endpoint_deep_copy local_endpoint);
          update_connection c (set_cn_all_local_endpoints ((fun e => [e]) <$> local)) ;;
          if negb (is_Some_b local) then
            ct_connection_free (Some c) ;; ct_connection_group_free (Some g) ;; mret None
          else
          update_connection c (set_cn_active_local_endpoint 0%nat) ;;
          update_connection c (set_cn_role CT_CONNECTION_ROLE_SERVER) ;;
          copy_security c security_parameters ;;
          ok ← copy_framer c framer_impl;
          if negb ok then
            ct_connection_free (Some c) ;; ct_connection_group_free (Some g) ;; mret None
          else
          set_callbacks c connection_callbacks ;;
          ct_socket_manager_add_connection socket_manager c ;;
          mret (Some c)
      end
  end.

(** The arrays of endpoints become the connection's. *)
Definition ct_connection_create_client (protocol_impl : ct_protocol_impl)
    (local_endpoints : option (list ct_local_endpoint)) (local_endpoint_index : nat)
    (remote_endpoints : option (list ct_remote_endpoint)) (remote_endpoint_index : nat)
    (transport_properties : option ct_transport_properties) (security_parameters : option ct_security_parameters)
    (connection_callbacks : option ct_connection_callbacks) (framer_impl : option ct_framer_impl) :
    M world (option id) :=
  connection ← ct_connection_create_empty_with_uuid;
  match connection with
  | None => mret None
  | Some c =>
      update_connection c (fun conn =>
        set_cn_active_remote_endpoint remote_endpoint_index (set_cn_all_remote_endpoints remote_endpoints
          (set_cn_active_local_endpoint local_endpoint_index (set_cn_all_local_endpoints local_endpoints conn)))) ;;
      active_remote_endpoint ← deref (default [] remote_endpoints !! remote_endpoint_index) "no active remote endpoint";
      if negb (is_inet (re_resolved_address active_remote_endpoint)) then ct_connection_free (Some c) ;; mret None
      else
      socket_manager ← ct_socket_manager_new protocol_impl None;
      group ← ct_connection_group_new transport_properties;
      match group with
      | None => ct_connection_free (Some c) ;; ct_socket_manager_free socket_manager ;; mret None
      | Some g =>
          rc ← ct_connection_group_add_connection g c;
          if rc <? 0 then
            ct_connection_group_free (Some g) ;; ct_connection_free (Some c) ;;
            ct_socket_manager_free socket_manager ;; mret None
          else
          m ← deref socket_manager "NULL socket manager";
          update_manager m (prepend_connection c) ;;
          r ← ct_socket_manager_ref (Some m);
          update_connection c (set_cn_socket_manager r) ;;
          sm ← manager_at m;
          rc ← (if bool_decide (sm_protocol sm = CT_PROTOCOL_UDP)
                then socket_manager_insert_demuxed_connection m active_remote_endpoint c
                else mret rc);
          if rc <? 0 then ct_connection_free (Some c) ;; mret None
          else
          copy_security c security_parameters ;;
          set_callbacks c connection_callbacks ;;
          ok ← copy_framer c framer_impl;
          if negb ok then ct_connection_free (Some c) ;; mret None
          else mret (Some c)
      end
  end.

Definition ct_connection_create_clone (source_connection : id) (socket_manager : option id)
    (framer_impl : option ct_framer_impl) (internal_connection_state : option id) : M world (option id) :=
  clone ← ct_connection_create_empty_with_uuid;
  match clone with
  | None => mret None
  | Some c =>
      source ← connection_at source_connection;
      update_connection c (set_cn_state CT_CONN_STATE_ESTABLISHING) ;;
      copy_security c (cn_security_parameters source) ;;
      remotes ← on_heap (ct_remote_endpoints_deep_copy (remote_list source));
      update_connection c (set_cn_all_remote_endpoints remotes) ;;
      update_connection c (set_cn_active_remote_endpoint (cn_active_remote_endpoint source)) ;;
      locals ← on_heap (ct_local_endpoints_deep_copy (local_list source));
      update_connection c (set_cn_all_local_endpoints locals) ;;
      update_connection c (set_cn_active_local_endpoint (cn_active_local_endpoint source)) ;;
      match socket_manager with
      | Some m => ct_socket_manager_add_connection m c
      | None => mret tt
      end ;;
      update_connection c (set_cn_role (cn_role source)) ;;
      ok ← copy_framer c (if is_Some_b framer_impl then framer_impl else cn_framer_impl source);
      if negb ok then ct_connection_free (Some c) ;; mret None
      else
      update_connection c (set_cn_callbacks (cn_callbacks source)) ;;
      update_connection c (set_cn_internal_connection_state internal_connection_state) ;;
      g ← deref (cn_connection_group source) "NULL connection group";
      ct_connection_group_add_connection g c ;;
      mret (Some c)
  end.
End connections.

(** ** Endpoints *)

Definition ct_connection_set_active_remote_endpoint_index (connection : id) (i : nat) : M world unit :=
  conn ← connection_at connection;
  assert_ (bool_decide (i < length (remote_list conn))%nat) "remote_endpoint_index < num_remote_endpoints" ;;
  update_connection connection (set_cn_active_remote_endpoint i).
Definition ct_connection_set_active_local_endpoint_index (connection : id) (i : nat) : M world unit :=
  conn ← connection_at connection;
  assert_ (bool_decide (i < length (local_list conn))%nat) "local_endpoint_index < num_local_endpoints" ;;
  update_connection connection (set_cn_active_local_endpoint i).

(** The result is the return code and what is stored in [changed], if
    anything is.  A failed copy leaves the array one element larger than the
    number of endpoints, which nothing observes. *)
Definition ct_connection_set_active_remote_endpoint (connection : id) (remote_endpoint : ct_remote_endpoint) :
    M world (Z * option bool) :=
  assert_ (is_inet (re_resolved_address remote_endpoint)) "address family" ;;
  conn ← connection_at connection;
  match find_index (fun e => ct_remote_endpoint_resolved_equals (Some remote_endpoint) (Some e)) (remote_list conn) with
  | Some i =>
      update_connection connection (set_cn_active_remote_endpoint i) ;;
      mret (0, Some (negb (bool_decide (i = cn_active_remote_endpoint conn))))
  | None =>
      ok ← on_heap (realloc (negb (is_Some_b (cn_all_remote_endpoints conn))));
      if negb ok then mret (- ENOMEM, None) else
      '(rc, e) ← on_heap (ct_remote_endpoint_copy_content remote_endpoint);
      if negb (rc =? 0) then
        update_connection connection (set_cn_all_remote_endpoints (Some (remote_list conn))) ;; mret (rc, None)
      else
      update_connection connection (set_cn_all_remote_endpoints (Some (remote_list conn ++ [e]))) ;;
      ct_connection_set_active_remote_endpoint_index connection (length (remote_list conn)) ;;
      mret (0, Some true)
  end.

Definition ct_connection_set_active_local_endpoint (connection : id) (local_endpoint : ct_local_endpoint) :
    M world (Z * option bool) :=
  assert_ (is_inet (le_resolved_address local_endpoint)) "address family" ;;
  conn ← connection_at connection;
  match find_index (fun e => ct_local_endpoint_resolved_equals (Some local_endpoint) (Some e)) (local_list conn) with
  | Some i =>
      update_connection connection (set_cn_active_local_endpoint i) ;;
      mret (0, Some (negb (bool_decide (i = cn_active_local_endpoint conn))))
  | None =>
      ok ← on_heap (realloc (negb (is_Some_b (cn_all_local_endpoints conn))));
      if negb ok then mret (- ENOMEM, None) else
      '(rc, e) ← on_heap (ct_local_endpoint_copy_content local_endpoint);
      if negb (rc =? 0) then
        update_connection connection (set_cn_all_local_endpoints (Some (local_list conn))) ;; mret (rc, None)
      else
      update_connection connection (set_cn_all_local_endpoints (Some (local_list conn ++ [e]))) ;;
      ct_connection_set_active_local_endpoint_index connection (length (local_list conn)) ;;
      mret (0, Some true)
  end.

Definition ct_connection_set_all_local_port (connection : id) (port : Z) : M world unit :=
  update_connection connection (fun conn =>
    set_cn_all_local_endpoints
      (fmap (M := list) (fun e => set_le_resolved_address (set_port_if_inet port (le_resolved_address e)) e) <$>
         cn_all_local_endpoints conn) conn).

(** The group's version applies the setter to every member; each call that
    stores in [changed] overwrites the previous one. *)
Section group_endpoints.
Context `{!HashOrder}.

Fixpoint set_active_endpoints {E} (setter : id -> E -> M world (Z * option bool)) (endpoint : E) (l : list id)
    (failure : Z) (changed : option bool) : M world (Z * option bool) :=
  match l with
  | [] => mret (failure, changed)
  | c :: l =>
      '(rc, ch) ← setter c endpoint;
      set_active_endpoints setter endpoint l (if rc =? 0 then failure else rc) (if is_Some_b ch then ch else changed)
  end.

Definition ct_connection_group_set_active_endpoint {E} (group : id) (endpoint : E)
    (setter : id -> E -> M world (Z * option bool)) : M world (Z * option bool) :=
  l ← group_members group; set_active_endpoints setter endpoint l 0 None.

Definition ct_connection_group_set_active_remote_endpoint (group : id) (remote_endpoint : ct_remote_endpoint) :
    M world (Z * option bool) :=
  ct_connection_group_set_active_endpoint group remote_endpoint ct_connection_set_active_remote_endpoint.
Definition ct_connection_group_set_active_local_endpoint (group : id) (local_endpoint : ct_local_endpoint) :
    M world (Z * option bool) :=
  ct_connection_group_set_active_endpoint group local_endpoint ct_connection_set_active_local_endpoint.
End group_endpoints.

(** ** Reading a connection *)

Section getters.
Context `{!HashOrder}.

Definition ct_connection_get_callback_context (connection : option id) : M world (option user_ptr) :=
  with_connection connection None (fun c => cb_per_connection_context (cn_callbacks c)).
Definition ct_connection_get_uuid (connection : id) : M world (list Ascii.ascii) :=
  conn ← connection_at connection; mret (cn_uuid conn).

(** The connections of the group's table, if there is one. *)
Definition grouped_connections (connection : option id) : M world (option (list id)) :=
  match connection with
  | None => mret None
  | Some c =>
      conn ← connection_at c;
      match cn_connection_group conn with
      | None => mret None
      | Some g => gr ← group_at g; mret ((fun t => (fun e => e.2) <$> hash_order t) <$> gr_connections gr)
      end
  end.

Definition ct_connection_get_total_num_grouped_connections (connection : option id) : M world Z :=
  l ← grouped_connections connection; mret (Z.of_nat (length (default [] l))).
Definition ct_connection_get_num_open_grouped_connections (connection : option id) : M world Z :=
  l ← grouped_connections connection; count_open (default [] l).

Definition ct_connection_get_protocol_name (connection : option id) : M world (option string) :=
  match connection with
  | None => mret None
  | Some c => m ← manager_of c; sm ← manager_at m; mret (Some (pi_name (sm_protocol_impl sm)))
  end.

(** [CT_PROTOCOL_ERROR] is [None]. *)
Definition ct_connection_get_transport_protocol (connection : option id) : M world (option ct_protocol_enum) :=
  match connection with None => mret None | Some c => p ← protocol_of c; mret (Some p) end.

(** Pointers into the arrays: owner and index. *)
Definition ct_connection_get_active_remote_endpoint (connection : option id) : M world (option endpoint_ptr) :=
  match connection with
  | None => mret None
  | Some c => conn ← connection_at c; mret (Some (c, cn_active_remote_endpoint conn))
  end.
Definition ct_connection_get_active_local_endpoint (connection : option id) : M world (option endpoint_ptr) :=
  match connection with
  | None => mret None
  | Some c => conn ← connection_at c; mret (Some (c, cn_active_local_endpoint conn))
  end.
(** ... and what they point to. *)
Definition remote_endpoint_at (p : endpoint_ptr) : M world ct_remote_endpoint :=
  conn ← connection_at p.1; deref (remote_list conn !! p.2) "no such remote endpoint".
Definition local_endpoint_at (p : endpoint_ptr) : M world ct_local_endpoint :=
  conn ← connection_at p.1; deref (local_list conn !! p.2) "no such local endpoint".
Definition active_remote_endpoint (connection : id) : M world ct_remote_endpoint :=
  p ← ct_connection_get_active_remote_endpoint (Some connection);
  p ← deref p "NULL remote endpoint"; remote_endpoint_at p.
Definition active_local_endpoint (connection : id) : M world ct_local_endpoint :=
  p ← ct_connection_get_active_local_endpoint (Some connection);
  p ← deref p "NULL local endpoint"; local_endpoint_at p.

Definition ct_connection_get_connection_group (connection : option id) : M world (option id) :=
  with_connection connection None cn_connection_group.
Definition ct_connection_sent_early_data (connection : option id) : M world bool :=
  with_connection connection false cn_sent_early_data.
Definition ct_connection_set_sent_early_data (connection : option id) (used_0rtt : bool) : M world unit :=
  set_connection connection (set_cn_sent_early_data used_0rtt).

Definition ct_connection_set_socket_state (connection : option id) (socket_state : option socket_state) : M world unit :=
  match connection with
  | None => mret tt
  | Some c =>
      conn ← connection_at c;
      match cn_socket_manager conn with
      | None => mret tt
      | Some m => update_manager m (set_sm_internal_socket_manager_state socket_state)
      end
  end.
Definition ct_connection_get_socket_state (connection : option id) : M world (option socket_state) :=
  match connection with
  | None => mret None
  | Some c =>
      conn ← connection_at c;
      match cn_socket_manager conn with
      | None => mret None
      | Some m => sm ← manager_at m; mret (sm_internal_socket_manager_state sm)
      end
  end.

Definition ct_connection_get_transport_properties (connection : option id) : M world (option ct_transport_properties) :=
  match connection with
  | None => mret None
  | Some c =>
      conn ← connection_at c;
      match cn_connection_group conn with
      | None => mret None
      | Some g => gr ← group_at g; mret (gr_transport_properties gr)
      end
  end.

(** [UINT8_MAX] for a NULL connection. *)
Definition ct_connection_get_priority (connection : option id) : M world Z :=
  with_connection connection 255 cn_priority.
Definition ct_connection_get_num_remote_endpoints (connection : option id) : M world nat :=
  with_connection connection 0%nat (fun c => length (remote_list c)).
Definition ct_connection_get_num_local_endpoints (connection : option id) : M world nat :=
  with_connection connection 0%nat (fun c => length (local_list c)).
Definition ct_connection_get_remote_endpoints_list (connection : option id) : M world (option (list ct_remote_endpoint)) :=
  with_connection connection None cn_all_remote_endpoints.
Definition ct_connection_get_local_endpoints_list (connection : option id) : M world (option (list ct_local_endpoint)) :=
  with_connection connection None cn_all_local_endpoints.
End getters.

(** ** Receiving *)

(** [ct_message_context_new_from_connection] (message_context.c) *)
Definition context_from_connection (connection : id) : M world (option ct_message_context) :=
  l ← ct_connection_get_active_local_endpoint (Some connection);
  r ← ct_connection_get_active_remote_endpoint (Some connection);
  on_heap (ct_message_context_new_from_connection l r).

Definition set_receive_context (u : option user_ptr) (ctx : ct_message_context) : ct_message_context :=
  MessageContext (mc_properties ctx) (mc_local_endpoint ctx) (mc_remote_endpoint ctx) u.

(** The application's receive callback runs, after which the library frees
    the message and its context. *)
Definition ct_receive_message (connection : option id) (receive_callbacks : option ct_receive_callbacks) : M world Z :=
  match connection, receive_callbacks with
  | Some c, Some callbacks =>
      conn ← connection_at c;
      match cn_received_messages conn, cn_received_callbacks conn with
      | Some (queued :: messages), Some _ =>
          update_connection c (set_cn_received_messages (Some messages)) ;;
          q ← deref queued "NULL queued message";
          ctx ← deref (qm_context q) "NULL context of a queued message";
          match rcb_receive_callback callbacks with
          | Some fn =>
              record_call (CallReceive fn c (qm_message q)
                (set_receive_context (rcb_per_receive_context callbacks) ctx))
          | None => mret tt
          end ;;
          on_heap (ct_queued_message_free_all (Some q)) ;;
          mret 0
      | Some [], Some waiting =>
          ok ← on_heap malloc;
          if negb ok then mret (- ENOMEM) else
          update_connection c (set_cn_received_callbacks (Some (waiting ++ [callbacks]))) ;;
          mret 0
      | _, _ => mret (- EIO)
      end
  | _, _ => mret (- EINVAL)
  end.

Definition ct_connection_deliver_to_app (connection : id) (message : option ct_message)
    (context : option ct_message_context) : M world unit :=
  conn ← connection_at connection;
  waiting ← deref (cn_received_callbacks conn) "NULL queue of callbacks";
  match waiting with
  | [] =>
      queued_message ← on_heap (ct_queued_message_new message context);
      messages ← deref (cn_received_messages conn) "NULL queue of messages";
      update_connection connection (set_cn_received_messages (Some (messages ++ [queued_message])))
  | receive_callback :: waiting =>
      update_connection connection (set_cn_received_callbacks (Some waiting)) ;;
      context ← (match context with
                 | Some _ => mret context
                 | None => context_from_connection connection
                 end);
      match context with
      | None => on_heap free_block
      | Some ctx =>
          fn ← deref (rcb_receive_callback receive_callback) "call of a NULL receive callback";
          m ← deref message "NULL message delivered";
          record_call (CallReceive fn connection m
            (set_receive_context (rcb_per_receive_context receive_callback) ctx)) ;;
          on_heap free_block ;;
          on_heap (ct_message_context_free (Some ctx)) ;;
          on_heap (ct_message_free message)
      end
  end.

Definition ct_connection_on_protocol_receive `{!Framers} (connection : id) (data : list Z) : M world unit :=
  received_message ← on_heap (ct_message_new_with_content data);
  match received_message with
  | None => mret tt
  | Some _ =>
      context ← context_from_connection connection;
      match context with
      | None => on_heap (ct_message_free received_message)
      | Some _ =>
          conn ← connection_at connection;
          match cn_framer_impl conn with
          | Some f =>
              if negb (decode_data f =? 0) then
                framer_decode (decode_data f) connection received_message context ct_connection_deliver_to_app
              else ct_connection_deliver_to_app connection received_message context
          | None => ct_connection_deliver_to_app connection received_message context
          end
      end
  end.

(** ** Through the protocol *)

Definition ct_socket_manager_close_connection `{!CloseImpl} (connection : id) : M world Z :=
  p ← protocol_of connection; impl_close_connection p connection.

Definition ct_connection_close `{!CloseImpl} (connection : id) : M world unit :=
  b ← ct_connection_is_closed_or_closing (Some connection);
  if b : bool then mret tt else
  ct_connection_mark_as_closing (Some connection) ;;
  ct_socket_manager_close_connection connection ;;
  mret tt.

Section protocols.
Context `{!SocketImpl, !CloseImpl, !ProtocolOps, !Framers, !HashOrder}.

Definition ct_connection_send_to_protocol (connection : id) (message : option ct_message)
    (context : option ct_message_context) : M world Z :=
  p ← protocol_of connection; impl_send p connection message context.

(** [ct_send_message] passes a NULL context. *)
Definition ct_send_message_full (connection : id) (message : option ct_message)
    (message_context : option ct_message_context) : M world Z :=
  can_send ← ct_connection_can_send (Some connection);
  if negb can_send then mret (- EPIPE) else
  when (match message_context with
        | Some _ => negb (ct_message_context_get FINAL message_context =? 0)
        | None => false
        end) (ct_connection_set_can_send (Some connection) false) ;;
  message_context_copy ← (match message_context with
                          | Some _ => on_heap (ct_message_context_deep_copy message_context)
                          | None => context_from_connection connection
                          end);
  if negb (is_Some_b message_context_copy) then mret (- ENOMEM) else
  message_copy ← on_heap (ct_message_deep_copy message);
  if negb (is_Some_b message_copy) then on_heap (ct_message_context_free message_context_copy) ;; mret (- ENOMEM) else
  conn ← connection_at connection;
  rc ← (match cn_framer_impl conn with
        | Some f =>
            if negb (encode_message f =? 0) then
              framer_encode (encode_message f) connection message_copy message_context_copy ct_connection_send_to_protocol
            else ct_connection_send_to_protocol connection message_copy message_context_copy
        | None => ct_connection_send_to_protocol connection message_copy message_context_copy
        end);
  when (rc <? 0) (on_heap (ct_message_free message_copy) ;; on_heap (ct_message_context_free message_context_copy)) ;;
  mret rc.

Definition ct_send_message (connection : id) (message : option ct_message) : M world Z :=
  ct_send_message_full connection message None.

Definition ct_connection_abort (connection : id) : M world unit :=
  p ← protocol_of connection; impl_abort p connection.

Definition ct_connection_clone_full (source_connection : id) (framer : option ct_framer_impl) : M world Z :=
  source ← connection_at source_connection;
  new_connection ← ct_connection_create_clone source_connection (cn_socket_manager source) framer None;
  p ← protocol_of source_connection;
  c ← deref new_connection "NULL clone";
  rc ← impl_clone_connection p source_connection c;
  if rc <? 0 then ct_connection_free new_connection ;; mret rc else mret 0.

Definition ct_connection_clone (source_connection : id) : M world Z := ct_connection_clone_full source_connection None.

(** *** Groups *)

Definition ct_connection_group_abort_all (connection_group : id) : M world unit :=
  l ← group_members connection_group;
  for_each l (fun c =>
    closed ← ct_connection_is_closed (Some c);
    when (negb closed) (ct_connection_abort c)).

Definition ct_socket_manager_close_group (socket_manager group : id) : M world unit :=
  sm ← manager_at socket_manager; impl_close_connection_group (sm_protocol sm) group.

Definition ct_connection_close_group (connection : option id) : M world unit :=
  match connection with
  | None => mret tt
  | Some c =>
      conn ← connection_at c;
      match cn_connection_group conn with
      | None => mret tt
      | Some group => m ← manager_of c; ct_socket_manager_close_group m group
      end
  end.

Definition ct_connection_abort_group (connection : option id) : M world unit :=
  match connection with
  | None => mret tt
  | Some c =>
      conn ← connection_at c;
      match cn_connection_group conn with
      | None => mret tt
      | Some group => ct_connection_group_abort_all group
      end
  end.

(** *** Listeners and priorities *)

Definition ct_socket_manager_listener_close (socket_manager : id) : M world unit :=
  sm ← manager_at socket_manager; impl_close_listener (sm_protocol sm) socket_manager.

Definition ct_socket_manager_listen (listener : option id) : M world unit :=
  match listener with
  | None => mret tt
  | Some l =>
      li ← listener_at l;
      m ← deref (li_socket_manager li) "NULL socket manager";
      sm ← manager_at m;
      rc ← impl_listen (sm_protocol sm) m;
      li ← listener_at l;
      if negb (rc =? 0) then
        call_listener (lcb_establishment_error (li_listener_callbacks li)) (ListenerError rc) (Some l)
      else call_listener (lcb_listener_ready (li_listener_callbacks li)) ListenerReady (Some l)
  end.

Definition ct_socket_manager_notify_protocol_of_priority_change (connection : id) (priority : Z) : M world Z :=
  p ← protocol_of connection;
  match impl_set_connection_priority p with
  | Some f => f connection priority
  | None => mret (- ENOTSUP)
  end.

Definition ct_connection_set_priority (connection : option id) (priority : Z) : M world Z :=
  match connection with
  | None => mret (- EINVAL)
  | Some c =>
      rc ← ct_socket_manager_notify_protocol_of_priority_change c priority;
      if rc =? - ENOTSUP then update_connection c (set_cn_priority priority) ;; mret 0
      else if rc <? 0 then mret rc
      else update_connection c (set_cn_priority priority) ;; mret 0
  end.
End protocols.
