(* ===== verification/Udp.v ===== *)
(** UDP.

    Models src/src/protocol/udp/udp.c (its selection table is in Protocols)
    and the functions of src/src/protocol/common/socket_utils.c that create
    UDP handles and read local addresses. *)

From S2P Require Export Connections.
Open Scope Z_scope.

(** ** Sockets (socket_utils.c) *)

(** 0.0.0.0 and port 0, in a block of the size of any address. *)
Definition ephemeral_addr : sockaddr := set_family AF_INET sockaddr_zero.

(** The address that [create_udp_listening_on_local] binds. *)
Definition udp_bind_address (local_endpoint : option ct_local_endpoint) : sockaddr :=
  if ct_local_endpoint_get_resolved_port local_endpoint =? 0 then ephemeral_addr
  else default ephemeral_addr (ct_local_endpoint_get_resolved_address local_endpoint).

(** [uv_udp_bind] and [uv_udp_recv_start] *)
Definition create_udp_listening_on_local (local_endpoint : option ct_local_endpoint) (on_read_cb : read_cb) :
    M world (option id) :=
  let is_ephemeral := ct_local_endpoint_get_resolved_port local_endpoint =? 0 in
  let family := ct_local_endpoint_get_address_family local_endpoint in
  if negb is_ephemeral && negb ((family =? AF_INET) || (family =? AF_INET6)) then mret None else
  ok ← on_heap malloc;
  if negb ok then mret None else
  rc ← uv_rc;
  if rc <? 0 then on_heap free_block ;; mret None else
  h ← new_handle;
  rc ← uv_rc;
  if rc <? 0 then free_handle h ;; mret None else
  update_handle h (set_bound (udp_bind_address local_endpoint)) ;;
  rc ← uv_rc;
  if rc <? 0 then free_handle h ;; mret None else
  update_handle h (set_read (Some on_read_cb)) ;;
  mret (Some h).

Definition create_udp_listening_on_ephemeral (on_read_cb : read_cb) : M world (option id) :=
  create_udp_listening_on_local None on_read_cb.

Definition get_sockaddr_from_handle (handle : id) : M world (Z * sockaddr) :=
  handle_at handle ;;
  '(rc, addr) ← uv_getname;
  mret (if rc <? 0 then rc else 0, addr).

Definition resolve_local_endpoint_from_handle (handle connection : id) : M world Z :=
  '(rc, addr) ← get_sockaddr_from_handle handle;
  if negb (rc =? 0) then mret rc else
  let '(rc, local_endpoint) := ct_local_endpoint_from_sockaddr ct_local_endpoint_build (Some addr) in
  if negb (rc =? 0) then mret rc else
  rc ← (if negb (ct_address_is_unspecified addr)
        then r ← ct_connection_set_active_local_endpoint connection local_endpoint; mret r.1
        else mret 0);
  if negb (rc =? 0) then mret rc else
  ct_connection_set_all_local_port connection (ct_local_endpoint_get_resolved_port (Some local_endpoint)) ;;
  mret 0.

(** ** State *)

Definition ct_udp_socket_state_new (udp_handle : option id) : M world (option socket_state) :=
  ok ← on_heap malloc;
  mret (if ok : bool then Some (UdpSocketState udp_handle) else None).

(** [socket_manager->internal_socket_manager_state->udp_handle] *)
Definition udp_handle_of (socket_state : option socket_state) : M world (option id) :=
  s ← deref socket_state "NULL socket state";
  match s with UdpSocketState h => mret h | _ => ub "not a UDP socket state" end.

Definition udp_free_state (connection : id) : M world unit :=
  conn ← connection_at connection;
  on_heap (when (is_Some_b (cn_internal_connection_state conn)) free_block).

Definition udp_free_connection_group_state (connection_group : id) : M world unit := mret tt.

Definition udp_free_socket_state (socket_manager : id) : M world unit :=
  sm ← manager_at socket_manager;
  h ← udp_handle_of (sm_internal_socket_manager_state sm);
  match h with Some h => free_handle h | None => mret tt end ;;
  on_heap free_block.

(** [uv_udp_recv_stop] fails on no UDP handle. *)
Definition udp_close_socket (socket_manager : id) : M world unit :=
  sm ← manager_at socket_manager;
  h ← udp_handle_of (sm_internal_socket_manager_state sm);
  h ← deref h "NULL UDP handle";
  update_handle h (set_read None) ;;
  uv_close h (Some socket_closed_success_ptr).

(** ** Sending *)

Definition udp_send_data_new (connection : id) (message : option ct_message)
    (message_context : option ct_message_context) : M world (option send_data) :=
  ok ← on_heap malloc;
  mret (if ok : bool then Some (SendData connection message message_context) else None).

Definition udp_send (connection : id) (message : option ct_message) (message_context : option ct_message_context) :
    M world Z :=
  deref message "NULL message" ;;
  ok ← on_heap malloc;
  if negb ok then mret (- ENOMEM) else
  data ← udp_send_data_new connection message message_context;
  socket_state ← ct_connection_get_socket_state (Some connection);
  h ← udp_handle_of socket_state;
  h ← deref h "NULL UDP handle";
  handle_at h ;;
  active_remote_endpoint connection ;;
  rc ← uv_rc;
  if rc <? 0 then
    on_heap (when (is_Some_b data) free_block) ;;
    on_heap free_block ;;
    mret rc
  else new_request (UdpSendRequest data) ;; mret rc.

(** The completion of a send; [req] and [send_data] are freed. *)
Definition on_send (req : id) (status : Z) : M world unit :=
  r ← request_at req;
  match r with
  | UdpSendRequest data =>
      sd ← deref data "NULL send data";
      manager_of (sd_connection sd) ;;
      on_heap (ct_message_free (sd_message sd)) ;;
      on_heap free_block ;;
      drop_request req ;;
      on_heap free_block ;;
      if negb (status =? 0) then
        ct_socket_manager_message_send_error_cb (sd_connection sd) (sd_message_context sd) status
      else ct_socket_manager_message_sent_cb (sd_connection sd) (sd_message_context sd)
  | _ => ub "not a UDP send request"
  end.

Section udp.
Context `{!SocketImpl, !Framers, !HashOrder}.

(** ** Connections *)

Definition udp_init_with_send (connection : id) (initial_message : option ct_message)
    (initial_message_context : option ct_message_context) : M world Z :=
  m ← manager_of connection;
  local ← active_local_endpoint connection;
  new_udp_handle ← create_udp_listening_on_local (Some local) on_read_ptr;
  match new_udp_handle with
  | None => mret (- EIO)
  | Some h =>
      rc ← resolve_local_endpoint_from_handle h connection;
      if rc <? 0 then uv_close h (Some closed_handle_cb_ptr) ;; mret rc else
      socket_state ← ct_udp_socket_state_new (Some h);
      ct_connection_set_socket_state (Some connection) socket_state ;;
      update_handle h (set_data m) ;;
      match initial_message with
      | Some _ => udp_send connection initial_message initial_message_context ;; mret tt
      | None => mret tt
      end ;;
      ct_socket_manager_connection_ready_cb connection ;;
      mret 0
  end.

Definition udp_init (connection : id) : M world Z := udp_init_with_send connection None None.

Definition udp_close (connection : id) : M world Z :=
  manager_of connection ;; ct_socket_manager_closed_connection_cb connection ;; mret 0.

Definition udp_abort (connection : id) : M world unit :=
  manager_of connection ;; ct_socket_manager_aborted_connection_cb connection.

Definition udp_clone_connection (source_connection target_connection : id) : M world Z :=
  new_udp_handle ← create_udp_listening_on_ephemeral on_read_ptr;
  socket_state ← ct_udp_socket_state_new new_udp_handle;
  target ← connection_at target_connection;
  match cn_socket_manager target with
  | None => mret tt
  | Some m =>
      ct_socket_manager_unref (Some m) ;;
      update_manager m (fun sm => set_sm_all_connections (g_slist_remove target_connection (sm_all_connections sm)) sm)
  end ;;
  source_manager ← manager_of source_connection;
  sm ← manager_at source_manager;
  clone_socket_manager ← ct_socket_manager_new (sm_protocol_impl sm) None;
  cm ← deref clone_socket_manager "NULL socket manager";
  ct_socket_manager_add_connection cm target_connection ;;
  remote ← active_remote_endpoint target_connection;
  socket_manager_insert_demuxed_connection cm remote target_connection ;;
  ct_connection_set_socket_state (Some target_connection) socket_state ;;
  h ← deref new_udp_handle "NULL UDP handle";
  update_handle h (set_data cm) ;;
  rc ← resolve_local_endpoint_from_handle h target_connection;
  if rc <? 0 then uv_close h (Some closed_handle_cb_ptr) ;; mret rc else
  ct_socket_manager_connection_ready_cb target_connection ;;
  mret 0.

(** The members are collected before the loop. *)
Definition udp_close_connection_group (connection_group : id) : M world unit :=
  connections ← group_members connection_group;
  for_each connections (fun c => udp_close c ;; mret tt).

(** ** Listeners *)

Definition udp_listen (socket_manager : id) : M world Z :=
  sm ← manager_at socket_manager;
  l ← deref (sm_listener sm) "NULL listener";
  local_endpoint ← ct_listener_get_local_endpoint l;
  udp_handle ← create_udp_listening_on_local local_endpoint socket_listen_callback_ptr;
  match udp_handle with
  | None => mret (- EIO)
  | Some h =>
      update_handle h (set_data socket_manager) ;;
      socket_state ← ct_udp_socket_state_new (Some h);
      update_manager socket_manager (set_sm_internal_socket_manager_state socket_state) ;;
      mret 0
  end.

Definition udp_close_listener (socket_manager : id) : M world unit :=
  sm ← manager_at socket_manager;
  udp_handle_of (sm_internal_socket_manager_state sm) ;;
  ct_socket_manager_listener_closed_cb socket_manager.

Definition udp_multiplex_received_message (socket_manager : id) (data : list Z) (remote_addr : sockaddr) :
    M world unit :=
  connection ← socket_manager_get_from_demux_table socket_manager remote_addr;
  match connection with
  | Some c => ct_connection_on_protocol_receive c data
  | None =>
      sm ← manager_at socket_manager;
      closed ← ct_listener_is_closed (sm_listener sm);
      match sm_listener sm, closed with
      | Some l, false =>
          remote_endpoint ← on_heap ct_remote_endpoint_new;
          e ← deref remote_endpoint "NULL remote endpoint";
          let '(_, e) := ct_remote_endpoint_from_sockaddr e remote_addr in
          li ← listener_at l;
          connection ← ct_connection_create_server_connection socket_manager e (li_local_endpoint li)
                         (li_transport_properties li) (li_security_parameters li)
                         (Some (li_connection_callbacks li)) None;
          on_heap (ct_remote_endpoint_free (Some e)) ;;
          match connection with
          | None => mret tt
          | Some c =>
              ct_connection_set_can_send (Some c) true ;;
              ct_connection_set_can_receive (Some c) true ;;
              remote ← active_remote_endpoint c;
              socket_manager_insert_demuxed_connection socket_manager remote c ;;
              sm ← manager_at socket_manager;
              udp_handle_of (sm_internal_socket_manager_state sm) ;;
              ct_socket_manager_connection_received_cb l c ;;
              ct_connection_on_protocol_receive c data
          end
      | _, _ => mret tt
      end
  end.

(** ** Events *)

(** The outcome of a read: an error, nothing more to read, or a datagram. *)
Inductive udp_read : Type :=
| UdpReadError (nread : Z)
| UdpReadNothing
| UdpDatagram (data : list Z) (addr : sockaddr).

(** [buf] says whether [buf->base] is a block. *)
Definition on_read (h : id) (r : udp_read) (buf : bool) : M world unit :=
  match r with
  | UdpReadError _ => uv_close h None ;; on_heap (when buf free_block)
  | UdpReadNothing => on_heap (when buf free_block)
  | UdpDatagram data addr =>
      x ← handle_at h;
      m ← deref (uh_data x) "handle without data";
      connection ← socket_manager_get_from_demux_table m addr;
      match connection with
      | None => mret tt
      | Some c => ct_connection_on_protocol_receive c data
      end ;;
      on_heap (when buf free_block)
  end.

Definition socket_listen_callback (h : id) (r : udp_read) (buf : bool) : M world unit :=
  match r with
  | UdpReadNothing | UdpReadError _ => on_heap (when buf free_block)
  | UdpDatagram data addr =>
      x ← handle_at h;
      m ← deref (uh_data x) "handle without data";
      udp_multiplex_received_message m data addr ;;
      on_heap (when buf free_block)
  end.

(** [alloc_buffer], then the read callback; without a buffer libuv reports
    [UV_ENOBUFS]. *)
Definition alloc_buffer : M world bool := on_heap malloc.
Definition UV_ENOBUFS : Z := -105.

Definition udp_readable (h : id) (r : udp_read) : M world unit :=
  x ← handle_at h;
  buf ← alloc_buffer;
  let r := if buf : bool then r else UdpReadError UV_ENOBUFS in
  match uh_read x with
  | Some on_read_ptr => on_read h r buf
  | Some socket_listen_callback_ptr => socket_listen_callback h r buf
  | _ => ub "not a reading UDP handle"
  end.

(** The close callbacks. *)
Definition closed_handle_cb (handle : id) : M world unit :=
  x ← handle_at handle;
  m ← deref (uh_data x) "handle without data";
  sm ← manager_at m;
  t ← deref (sm_demux_table sm) "iteration over a NULL table";
  for_each ((fun e => e.2) <$> hash_order t) (fun c =>
    closed ← ct_connection_is_closed (Some c);
    when (negb closed)
      (ct_connection_mark_as_closed (Some c) ;;
       conn ← connection_at c;
       call_connection (cb_closed (cn_callbacks conn)) Closed (Some c))).

Definition socket_closed_success (handle : id) : M world unit :=
  x ← handle_at handle;
  m ← deref (uh_data x) "handle without data";
  ct_socket_manager_closed_socket_cb m.
End udp.
