(* ===== verification/Tcp.v ===== *)
(** TCP.

    Models src/src/protocol/tcp/tcp.c (its selection table is in Protocols). *)

From S2P Require Export Udp.
Open Scope Z_scope.

(** ** State *)

Definition ct_tcp_send_data_new (connection : id) (message : option ct_message)
    (message_context : option ct_message_context) : M world (option send_data) :=
  ok ← on_heap malloc;
  mret (if ok : bool then Some (SendData connection message message_context) else None).

Definition ct_tcp_socket_state_new (connection listener : option id) (initial_message : option ct_message)
    (initial_message_context : option ct_message_context) (connect_req : option id) (tcp_handle : id) :
    M world (option socket_state) :=
  ok ← on_heap malloc;
  mret (if ok : bool
        then Some (TcpSocketState connection listener initial_message initial_message_context connect_req tcp_handle)
        else None).

(** A connect request: [malloc], [free]. *)
Definition malloc_connect_req (handle : id) (clone : bool) : M world (option id) :=
  ok ← on_heap malloc;
  if negb ok then mret None else r ← new_request (TcpConnectRequest handle clone false); mret (Some r).
Definition free_connect_req (req : option id) : M world unit :=
  match req with
  | None => mret tt
  | Some i =>
      r ← request_at i;
      match r with
      | TcpConnectRequest _ _ false => drop_request i ;; on_heap free_block
      | TcpConnectRequest _ _ true => ub "connect request freed while the loop uses it"
      | _ => ub "not a connect request"
      end
  end.

Definition ct_tcp_socket_state_free (s : socket_state) : M world unit :=
  match s with
  | TcpSocketState _ _ _ ctx req h =>
      free_connect_req req ;;
      on_heap (ct_message_context_free ctx) ;;
      free_handle h ;;
      on_heap free_block
  | _ => ub "not a TCP socket state"
  end.

(** [socket_manager->internal_socket_manager_state], dereferenced. *)
Definition tcp_state_of (socket_manager : id) : M world socket_state :=
  sm ← manager_at socket_manager; deref (sm_internal_socket_manager_state sm) "NULL socket state".
Definition tcp_handle_of (s : socket_state) : M world id :=
  match s with TcpSocketState _ _ _ _ _ h => mret h | _ => ub "not a TCP socket state" end.
Definition tcp_connection_of (s : socket_state) : M world id :=
  match s with
  | TcpSocketState c _ _ _ _ _ => deref c "NULL connection"
  | _ => ub "not a TCP socket state"
  end.
(** A libuv callback's [handle->data]. *)
Definition data_of (handle : id) : M world id :=
  x ← handle_at handle; deref (uh_data x) "handle without data".
Definition connection_of (handle : id) : M world id :=
  m ← data_of handle; s ← tcp_state_of m; tcp_connection_of s.

Definition tcp_free_state (connection : id) : M world unit := mret tt.
Definition tcp_free_connection_group_state (connection_group : id) : M world unit := mret tt.

Definition tcp_close_socket (socket_manager : id) : M world unit := ct_socket_manager_closed_socket_cb socket_manager.

Definition tcp_free_socket_state (socket_manager : id) : M world unit :=
  sm ← manager_at socket_manager;
  match sm_internal_socket_manager_state sm with
  | None => mret tt
  | Some s => ct_tcp_socket_state_free s
  end ;;
  update_manager socket_manager (set_sm_internal_socket_manager_state None).

(** ** Closing *)

Definition tcp_close (connection : id) : M world Z :=
  m ← manager_of connection;
  s ← tcp_state_of m;
  h ← tcp_handle_of s;
  uv_close h (Some on_libuv_close_ptr) ;;
  mret 0.

Definition tcp_abort (connection : id) : M world unit :=
  m ← manager_of connection;
  s ← tcp_state_of m;
  h ← tcp_handle_of s;
  uv_tcp_close_reset h (Some on_abort_ptr).

Definition tcp_close_listener (socket_manager : id) : M world unit :=
  sm ← manager_at socket_manager;
  match sm_internal_socket_manager_state sm with
  | None => mret tt
  | Some s => h ← tcp_handle_of s; uv_close h (Some on_stop_listen_ptr)
  end.

Definition tcp_close_connection_group `{!HashOrder} (connection_group : id) : M world unit :=
  connections ← group_members connection_group;
  for_each connections (fun c =>
    b ← ct_connection_is_closed_or_closing (Some c);
    when (negb b) (tcp_close c ;; mret tt)).

(** ** Sending *)

(** [errno] of a failed [malloc] is [ENOMEM]; the send data is not freed when
    [uv_write] fails. *)
Definition tcp_send (connection : id) (message : option ct_message) (ctx : option ct_message_context) : M world Z :=
  deref message "NULL message" ;;
  ok ← on_heap malloc;
  if negb ok then mret (- ENOMEM) else
  data ← ct_tcp_send_data_new connection message ctx;
  if negb (is_Some_b data) then on_heap free_block ;; mret (- ENOMEM) else
  m ← manager_of connection;
  s ← tcp_state_of m;
  h ← tcp_handle_of s;
  handle_at h ;;
  rc ← uv_rc;
  if negb (rc =? 0) then on_heap free_block ;; mret rc
  else new_request (TcpWriteRequest h data) ;; mret 0.

Definition on_write (req : id) (status : Z) : M world unit :=
  r ← request_at req;
  match r with
  | TcpWriteRequest h data =>
      c ← connection_of h;
      sd ← deref data "NULL send data";
      (if status <? 0 then ct_socket_manager_message_send_error_cb c (sd_message_context sd) status
       else ct_socket_manager_message_sent_cb c (sd_message_context sd)) ;;
      on_heap (ct_message_free (sd_message sd)) ;;
      on_heap free_block ;;
      drop_request req ;;
      on_heap free_block
  | _ => ub "not a write request"
  end.

(** ** Establishment *)

(** The keepalive option of the connection's properties; failures are logged. *)
Definition set_keepalive (connection : id) : M world unit :=
  props ← ct_connection_get_transport_properties (Some connection);
  if negb (ct_transport_properties_get_conn KEEP_ALIVE_TIMEOUT props =? CT_CONN_TIMEOUT_DISABLED)
  then uv_rc ;; mret tt else mret tt.

(** [uv_tcp_connect] *)
Definition uv_tcp_connect (req : option id) (handle : id) (clone : bool) : M world Z :=
  i ← deref req "NULL connect request";
  rc ← uv_rc;
  if rc <? 0 then mret rc else set_request i (TcpConnectRequest handle clone true) ;; mret rc.

Section tcp.
Context `{!SocketImpl, !CloseImpl, !Framers, !HashOrder}.

(** The end of an initialisation that failed after the handle was created. *)
Definition fail_establishment (connection : id) (rc : Z) : M world Z :=
  ct_connection_close connection ;;
  conn ← connection_at connection;
  call_connection (cb_establishment_error (cn_callbacks conn)) EstablishmentError (Some connection) ;;
  mret rc.

(** From [uv_tcp_connect] to the end of [tcp_init] and
    [tcp_init_with_send]. *)
Definition tcp_start_connect (connection : id) (connect_req : option id) (handle : id) : M world Z :=
  set_keepalive connection ;;
  active_remote_endpoint connection ;;
  rc ← uv_tcp_connect connect_req handle false;
  if rc <? 0 then free_connect_req connect_req ;; fail_establishment connection rc else
  rc ← resolve_local_endpoint_from_handle handle connection;
  if rc <? 0 then fail_establishment connection rc else mret 0.

Definition tcp_init_with_send (connection : id) (initial_message : option ct_message)
    (initial_message_context : option ct_message_context) : M world Z :=
  ok ← on_heap malloc;
  if negb ok then mret (- ENOMEM) else
  rc ← uv_rc;
  if rc <? 0 then on_heap free_block ;; mret rc else
  h ← new_handle;
  connect_req ← malloc_connect_req h false;
  m ← manager_of connection;
  state ← ct_tcp_socket_state_new (Some connection) None initial_message initial_message_context connect_req h;
  update_manager m (set_sm_internal_socket_manager_state state) ;;
  if negb (is_Some_b state) then uv_close h (Some on_libuv_close_ptr) ;; mret (- ENOMEM) else
  update_handle h (set_data m) ;;
  tcp_start_connect connection connect_req h.

Definition tcp_init (connection : id) : M world Z :=
  ok ← on_heap malloc;
  if negb ok then mret (- ENOMEM) else
  rc ← uv_rc;
  if rc <? 0 then on_heap free_block ;; mret rc else
  h ← new_handle;
  connect_req ← malloc_connect_req h false;
  m ← manager_of connection;
  update_handle h (set_data m) ;;
  state ← ct_tcp_socket_state_new (Some connection) None None None connect_req h;
  update_manager m (set_sm_internal_socket_manager_state state) ;;
  if negb (is_Some_b state) then
    free_connect_req connect_req ;; uv_close h (Some on_libuv_close_ptr) ;; mret (- ENOMEM)
  else tcp_start_connect connection connect_req h.

(** The completion of a connect request. *)
Definition on_connect (handle : id) (status : Z) : M world unit :=
  m ← data_of handle;
  s ← tcp_state_of m;
  c ← tcp_connection_of s;
  h ← tcp_handle_of s;
  if status <? 0 then
    closing ← uv_is_closing h;
    when (negb closing) (uv_close h (Some on_libuv_close_after_error_ptr))
  else
    uv_rc ;;
    update_handle h (set_read (Some tcp_on_read_ptr)) ;;
    match s with
    | TcpSocketState _ _ (Some msg) ctx _ _ => tcp_send c (Some msg) ctx ;; mret tt
    | _ => mret tt
    end ;;
    ct_socket_manager_connection_ready_cb c.

Definition on_clone_connect (handle : id) (status : Z) : M world unit :=
  m ← data_of handle;
  s ← tcp_state_of m;
  c ← tcp_connection_of s;
  h ← tcp_handle_of s;
  if status <? 0 then
    ct_connection_close c ;;
    conn ← connection_at c;
    call_connection (cb_establishment_error (cn_callbacks conn)) EstablishmentError (Some c)
  else
    rc ← uv_rc;
    if rc <? 0 then ct_connection_close c
    else
      update_handle h (set_read (Some tcp_on_read_ptr)) ;;
      ct_socket_manager_connection_ready_cb c.

Definition tcp_connected (req : id) (status : Z) : M world unit :=
  r ← request_at req;
  match r with
  | TcpConnectRequest h clone true =>
      set_request req (TcpConnectRequest h clone false) ;;
      if clone : bool then on_clone_connect h status else on_connect h status
  | _ => ub "not a pending connect request"
  end.

Definition tcp_clone_connection (source_connection target_connection : id) : M world Z :=
  ok ← on_heap malloc;
  if negb ok then mret (- ENOMEM) else
  rc ← uv_rc;
  if rc <? 0 then on_heap free_block ;; mret rc else
  h ← new_handle;
  socket_manager ← ct_socket_manager_new tcp_protocol_interface None;
  target ← connection_at target_connection;
  match cn_socket_manager target with
  | None => mret tt
  | Some m =>
      update_manager m (fun sm => set_sm_all_connections (g_slist_remove target_connection (sm_all_connections sm)) sm) ;;
      ct_socket_manager_unref (Some m) ;;
      update_connection target_connection (set_cn_socket_manager None)
  end ;;
  m ← deref socket_manager "NULL socket manager";
  ct_socket_manager_add_connection m target_connection ;;
  connect_req ← malloc_connect_req h true;
  deref connect_req "memset of NULL" ;;
  state ← ct_tcp_socket_state_new (Some target_connection) None None None connect_req h;
  update_manager m (set_sm_internal_socket_manager_state state) ;;
  update_handle h (set_data m) ;;
  set_keepalive target_connection ;;
  active_remote_endpoint target_connection ;;
  rc ← uv_tcp_connect connect_req h true;
  if rc <? 0 then free_connect_req connect_req ;; uv_close h (Some on_libuv_close_ptr) ;; mret rc
  else mret 0.

(** ** Reading *)

Inductive tcp_read : Type :=
| TcpReadEof
| TcpReadReset
| TcpReadError (nread : Z)
| TcpReadNothing
| TcpReadData (data : list Z).

(** [buf] says whether [buf->base] is a block; nothing is freed when nothing
    was read. *)
Definition tcp_on_read (handle : id) (r : tcp_read) (buf : bool) : M world unit :=
  m ← data_of handle;
  s ← tcp_state_of m;
  c ← tcp_connection_of s;
  h ← tcp_handle_of s;
  match r with
  | TcpReadEof =>
      on_heap (when buf free_block) ;;
      closing ← uv_is_closing h;
      when (negb closing) (uv_close h (Some on_libuv_close_ptr))
  | TcpReadReset =>
      on_heap (when buf free_block) ;;
      uv_tcp_close_reset h (Some on_abort_ptr)
  | TcpReadError _ =>
      closing ← uv_is_closing h;
      when (negb closing) (uv_close h (Some on_abort_ptr)) ;;
      on_heap (when buf free_block)
  | TcpReadNothing => mret tt
  | TcpReadData data =>
      ct_connection_on_protocol_receive c data ;;
      on_heap (when buf free_block)
  end.

Definition alloc_cb : M world bool := on_heap malloc.

Definition tcp_readable (h : id) (r : tcp_read) : M world unit :=
  x ← handle_at h;
  buf ← alloc_cb;
  let r := if buf : bool then r else TcpReadError UV_ENOBUFS in
  match uh_read x with
  | Some tcp_on_read_ptr => tcp_on_read h r buf
  | _ => ub "not a reading TCP handle"
  end.

(** ** Listening *)

Definition tcp_listen (socket_manager : id) : M world Z :=
  ok ← on_heap malloc;
  if negb ok then mret (- ENOMEM) else
  sm ← manager_at socket_manager;
  rc ← uv_rc;
  if rc <? 0 then on_heap free_block ;; mret rc else
  h ← new_handle;
  l ← deref (sm_listener sm) "NULL listener";
  local_endpoint ← ct_listener_get_local_endpoint l;
  addr ← deref (ct_local_endpoint_get_resolved_address local_endpoint) "bind to NULL";
  rc ← uv_rc;
  if rc <? 0 then free_handle h ;; mret rc else
  update_handle h (set_bound addr) ;;
  rc ← uv_rc;
  if rc <? 0 then free_handle h ;; mret rc else
  update_handle h set_listening ;;
  state ← ct_tcp_socket_state_new None (Some l) None None None h;
  update_manager socket_manager (set_sm_internal_socket_manager_state state) ;;
  update_handle h (set_data socket_manager) ;;
  mret 0.

Definition new_stream_connection_cb (server : id) (status : Z) : M world unit :=
  if status <? 0 then mret tt else
  ok ← on_heap malloc;
  if negb ok then mret tt else
  rc ← uv_rc;
  if rc <? 0 then on_heap free_block else
  h ← new_handle;
  lm ← data_of server;
  sm ← manager_at lm;
  rc ← uv_rc;
  if rc <? 0 then uv_close h (Some on_libuv_close_ptr) else
  server_conn_socket_manager ← ct_socket_manager_new tcp_protocol_interface None;
  '(_, addr) ← uv_getname;
  remote_endpoint ← on_heap ct_remote_endpoint_new;
  e ← deref remote_endpoint "NULL remote endpoint";
  let '(_, e) := ct_remote_endpoint_from_sockaddr e addr in
  l ← deref (sm_listener sm) "NULL listener";
  li ← listener_at l;
  m ← deref server_conn_socket_manager "NULL socket manager";
  server_conn ← ct_connection_create_server_connection m e (li_local_endpoint li) (li_transport_properties li)
                  (li_security_parameters li) (Some (li_connection_callbacks li)) None;
  on_heap (ct_remote_endpoint_free (Some e)) ;;
  match server_conn with
  | None => uv_close h (Some on_libuv_close_ptr)
  | Some c =>
      state ← ct_tcp_socket_state_new (Some c) (Some l) None None None h;
      update_manager m (set_sm_internal_socket_manager_state state) ;;
      update_handle h (set_data m) ;;
      rc ← uv_rc;
      if rc <? 0 then
        uv_close h (Some on_libuv_close_ptr) ;;
        ct_connection_close c ;;
        modify (fun w => set_w_connections (delete c (w_connections w)) w) ;;
        on_heap free_block
      else
      update_handle h (set_read (Some tcp_on_read_ptr)) ;;
      resolve_local_endpoint_from_handle h c ;;
      ct_socket_manager_connection_received_cb l c
  end.

(** ** Close callbacks *)

Definition on_abort (handle : id) : M world unit :=
  c ← connection_of handle; ct_socket_manager_aborted_connection_cb c.
Definition on_stop_listen (handle : id) : M world unit :=
  m ← data_of handle; ct_socket_manager_listener_closed_cb m.
Definition on_libuv_close (handle : id) : M world unit :=
  c ← connection_of handle; ct_socket_manager_closed_connection_cb c.
Definition on_libuv_close_after_error (handle : id) : M world unit :=
  c ← connection_of handle; ct_socket_manager_establishment_error_cb c.
End tcp.
