(* ===== verification/QuicSockets.v ===== *)
(** QUIC sockets.

    Models the part of src/src/protocol/quic/quic.c that owns a socket (the
    socket state with its picoquic context, timer and poll handle, their
    creation and release, the sending of packets), and the poll handles of
    src/src/protocol/common/socket_utils.c.

    picoquic is a library the sources call.  What it answers is the class
    [Picoquic], whose functions may depend on everything that happened; its
    return codes are taken from [w_uv]; what it is told is logged in [q_log]. *)

From S2P Require Export Tcp.
Open Scope Z_scope.

Class Picoquic := {
  (** whether picoquic still holds the connection *)
  picoquic_has_cnx : world -> id -> bool;
  picoquic_is_client : world -> id -> bool;
  picoquic_tls_is_psk_handshake : world -> id -> bool;
  picoquic_get_cnx_state : world -> id -> Z;
  picoquic_state_ready : Z;
  picoquic_get_remote_error : world -> id -> Z;
  picoquic_get_next_local_stream_id : world -> id -> bool -> Z;
  picoquic_get_callback_context : world -> id -> option quic_ctx;
  picoquic_get_quic_ctx : world -> id -> id;
  picoquic_get_default_callback_context : world -> id -> option quic_ctx }.

(** ** Access *)

Definition modify_quic (f : quic -> quic) : M world unit := modify (fun w => set_w_quic (f (w_quic w)) w).
Definition log_picoquic (c : picoquic_call) : M world unit := modify_quic (fun q => set_q_log (q_log q ++ [c]) q).

Definition socket_state_at (s : id) : M world ct_quic_socket_state :=
  w ← get; deref (q_sockets (w_quic w) !! s) "QUIC socket state used after free".
Definition put_socket_state (s : id) (st : ct_quic_socket_state) : M world unit :=
  modify_quic (fun q => set_q_sockets (<[s := st]> (q_sockets q)) q).
Definition update_socket_state (s : id) (f : ct_quic_socket_state -> ct_quic_socket_state) : M world unit :=
  st ← socket_state_at s; put_socket_state s (f st).

Definition stream_state_at (s : id) : M world ct_quic_stream_state :=
  w ← get; deref (q_streams (w_quic w) !! s) "QUIC stream state used after free".
Definition put_stream_state (s : id) (st : ct_quic_stream_state) : M world unit :=
  modify_quic (fun q => set_q_streams (<[s := st]> (q_streams q)) q).

Definition group_state_at (g : id) : M world ct_quic_connection_group_state :=
  w ← get; deref (q_groups (w_quic w) !! g) "QUIC group state used after free".
Definition put_group_state (g : id) (st : ct_quic_connection_group_state) : M world unit :=
  modify_quic (fun q => set_q_groups (<[g := st]> (q_groups q)) q).
Definition update_group_state (g : id) (f : ct_quic_connection_group_state -> ct_quic_connection_group_state) :
    M world unit :=
  st ← group_state_at g; put_group_state g (f st).

(** A picoquic context, and a picoquic connection, that picoquic has not
    deleted. *)
Definition context_at (ctx : option id) : M world id :=
  c ← deref ctx "NULL picoquic context";
  w ← get;
  assert_ (bool_decide (c ∈ q_contexts (w_quic w))) "picoquic context used after free" ;;
  mret c.
Definition cnx_at `{!Picoquic} (cnx : option id) : M world id :=
  c ← deref cnx "NULL picoquic connection";
  w ← get;
  assert_ (picoquic_has_cnx w c) "picoquic connection used after picoquic deleted it" ;;
  mret c.

(** ** Poll handles (socket_utils.c) *)

(** The address that [create_udp_poll_on_local] binds. *)
Definition poll_bind_address (local_endpoint : ct_local_endpoint) : sockaddr :=
  set_family (ct_local_endpoint_get_address_family (Some local_endpoint)) (le_resolved_address local_endpoint).

(** [socket], [bind], [setsockopt], [uv_poll_init] and [uv_poll_start] may
    fail.  The handle is the first member of the block. *)
Definition create_udp_poll_on_local (local_endpoint : ct_local_endpoint) : M world (option id) :=
  ok ← on_heap malloc;
  if negb ok then mret None else
  fd ← uv_rc;
  if fd <? 0 then on_heap free_block ;; mret None else
  rc ← uv_rc;
  if rc <? 0 then on_heap free_block ;; mret None else
  rc ← uv_rc;
  if rc <? 0 then on_heap free_block ;; mret None else
  rc ← uv_rc;
  if rc <? 0 then on_heap free_block ;; mret None else
  wrapper ← new_handle;
  rc ← uv_rc;
  if rc <? 0 then free_handle wrapper ;; mret None else
  update_handle wrapper (set_bound (poll_bind_address local_endpoint)) ;;
  update_handle wrapper (set_read (Some poll_recv_cb_ptr)) ;;
  mret (Some wrapper).

Definition resolve_local_endpoint_from_poll (handle : option id) (connection : id) : M world Z :=
  h ← deref handle "NULL poll handle";
  handle_at h ;;
  '(rc, addr) ← uv_getname;
  if rc <? 0 then mret rc else
  when (negb (ct_address_is_unspecified addr))
    (conn ← connection_at connection;
     locals ← deref (cn_all_local_endpoints conn) "NULL local endpoints";
     e ← deref (locals !! cn_active_local_endpoint conn) "no active local endpoint";
     update_connection connection (set_cn_all_local_endpoints
       (Some (<[cn_active_local_endpoint conn := ct_local_endpoint_set_resolved_address e addr]> locals)))) ;;
  ct_connection_set_all_local_port connection (port_of addr) ;;
  mret 0.

(** The control messages of [recvmsg] and the destination they give: the last
    one counts.  [port] are the two bytes of the bound port. *)
Inductive cmsg : Type := IpPktinfo (ipi_addr : bytes) | Ipv6Pktinfo (ipi6_addr : bytes) | OtherCmsg.

Definition store_cmsg (port : bytes) (addr_to : sockaddr) (cm : cmsg) : sockaddr :=
  match cm with
  | IpPktinfo a => write 2 port (set_sin_addr a (set_family AF_INET addr_to))
  | Ipv6Pktinfo a => write 2 port (set_sin6_addr a (set_family AF_INET6 addr_to))
  | OtherCmsg => addr_to
  end.
Definition destination (port : bytes) (cms : list cmsg) : sockaddr := foldl (store_cmsg port) sockaddr_zero cms.

(** What [recvmsg] returns: an error, or a datagram. *)
Inductive poll_read : Type :=
| PollError
| PollData (data : list Z) (from : sockaddr) (cms : list cmsg).

(** ** State of a group and of a stream *)

Definition ct_create_quic_group_state : M world (option id) :=
  ok ← on_heap malloc;
  if negb ok then mret None else
  g ← fresh_id; put_group_state g (QuicGroup None false) ;; mret (Some g).
Definition free_group_state (g : option id) : M world unit :=
  match g with
  | None => mret tt
  | Some g => group_state_at g ;; modify_quic (fun q => set_q_groups (delete g (q_groups q)) q) ;; on_heap free_block
  end.

Definition ct_quic_stream_state_new : M world (option id) :=
  ok ← on_heap malloc;
  if negb ok then mret None else
  s ← fresh_id; put_stream_state s (QuicStream 0 false) ;; mret (Some s).
Definition free_stream_state (s : id) : M world unit :=
  stream_state_at s ;; modify_quic (fun q => set_q_streams (delete s (q_streams q)) q) ;; on_heap free_block.

Definition quic_free_state (connection : id) : M world unit :=
  conn ← connection_at connection;
  match cn_internal_connection_state conn with None => mret tt | Some s => free_stream_state s end.

Definition ct_free_quic_connection_group_state (connection_group : id) : M world unit :=
  gr ← group_at connection_group; free_group_state (gr_connection_group_state gr).

(** ** Creation of a socket state *)

(** [free(socket_state)], and the [free]s of its strings that precede it. *)
Definition free_socket_state (s : id) : M world unit :=
  socket_state_at s ;; modify_quic (fun q => set_q_sockets (delete s (q_sockets q)) q) ;; on_heap free_block.
Definition free_strings (s : id) : M world unit :=
  st ← socket_state_at s;
  on_heap (free_ptr (qk_ticket_store_path st)) ;;
  on_heap (free_ptr (qk_key_file_name st)) ;;
  on_heap (free_ptr (qk_cert_file_name st)).
(** Strings that were freed and are still pointed to. *)
Definition dangle {A} (p : cptr A) : cptr A := match p with Null => Null | _ => Bad end.
Definition dangling_strings (st : ct_quic_socket_state) : ct_quic_socket_state :=
  set_qk_ticket_store_path (dangle (qk_ticket_store_path st))
    (set_qk_key_file_name (dangle (qk_key_file_name st))
      (set_qk_cert_file_name (dangle (qk_cert_file_name st)) st)).

(** [picoquic_create]; it reads its string arguments. *)
Definition picoquic_create (cert key alpn : cptr string) : M world (option id) :=
  load cert ;; load key ;; load alpn ;;
  rc ← uv_rc;
  if rc <? 0 then mret None else
  ctx ← fresh_id;
  modify_quic (fun q => set_q_contexts ({[ctx]} ∪ q_contexts q) q) ;;
  mret (Some ctx).
Definition picoquic_free (ctx : option id) : M world unit :=
  match ctx with
  | None => mret tt
  | Some _ =>
      c ← context_at ctx;
      modify_quic (fun q => set_q_contexts (q_contexts q ∖ {[c]}) q) ;;
      log_picoquic (PqFree c)
  end.

(** From the context to the timer. *)
Definition create_picoquic_ctx (s : id) (alpn : cptr string) : M world (option id) :=
  st ← socket_state_at s;
  ctx ← picoquic_create (qk_cert_file_name st) (qk_key_file_name st) alpn;
  match ctx with
  | None => free_strings s ;; free_socket_state s ;; mret None
  | Some _ =>
      update_socket_state s (set_qk_picoquic_ctx ctx) ;;
      ok ← on_heap malloc;
      if negb ok then picoquic_free ctx ;; free_strings s ;; free_socket_state s ;; mret None else
      rc ← uv_rc;
      if rc <? 0 then
        on_heap free_block ;; picoquic_free ctx ;; free_strings s ;; free_socket_state s ;; mret None
      else
      t ← new_handle;
      update_socket_state s (set_qk_timer_handle (Some t)) ;;
      update_handle t (set_data s) ;;
      mret (Some s)
  end.

(** The manager gets the pointer before anything after the file names can
    fail; without an ALPN the strings are freed and the state is not. *)
Definition ct_quic_socket_state_new (cert_file key_file : cptr string) (socket_manager : id)
    (security_parameters : option ct_security_parameters) (initial_message : option ct_message) :
    M world (option id) :=
  if is_null cert_file || is_null key_file || negb (is_Some_b security_parameters) then mret None else
  ticket_store_path ← on_heap (ct_security_parameters_get_ticket_store_path security_parameters);
  ok ← on_heap malloc;
  if negb ok then mret None else
  s ← fresh_id;
  put_socket_state s (QuicSocket None None None socket_manager Null Null Null initial_message None) ;;
  cert ← on_heap (strdup_ptr cert_file);
  update_socket_state s (set_qk_cert_file_name cert) ;;
  if is_null cert then free_socket_state s ;; mret None else
  key ← on_heap (strdup_ptr key_file);
  update_socket_state s (set_qk_key_file_name key) ;;
  if is_null key then on_heap (free_ptr cert) ;; free_socket_state s ;; mret None else
  update_manager socket_manager (set_sm_internal_socket_manager_state (Some (QuicSocketState s))) ;;
  ticket ← (if is_null ticket_store_path then mret Null else on_heap (strdup_ptr ticket_store_path));
  update_socket_state s (set_qk_ticket_store_path ticket) ;;
  if negb (is_null ticket_store_path) && is_null ticket then
    on_heap (free_ptr key) ;; on_heap (free_ptr cert) ;; free_socket_state s ;; mret None
  else
  '(alpn_strings, out_num_alpns) ← on_heap (ct_security_parameters_get_alpns security_parameters);
  if is_null alpn_strings || bool_decide (default 0%nat out_num_alpns = 0%nat) then
    free_strings s ;; update_socket_state s dangling_strings ;; mret None
  else
  on_heap (ct_security_parameters_get_session_ticket_encryption_key security_parameters) ;;
  alpns ← load alpn_strings;
  alpn ← index alpns 0;
  create_picoquic_ctx s alpn.

(** ** Release of a socket state *)

Definition uv_timer_stop (t : id) : M world unit := update_handle t (set_read None).
(** [UV_EINVAL], ignored, on a closing handle. *)
Definition uv_timer_start (t : id) : M world unit :=
  x ← handle_at t; when (is_open x) (update_handle t (set_read (Some on_socket_timer_ptr))).

Definition reset_quic_timer (quic_context : option id) : M world unit :=
  match quic_context with
  | None => mret tt
  | Some s =>
      st ← socket_state_at s;
      match qk_picoquic_ctx st, qk_timer_handle st with
      | Some _, Some t => context_at (qk_picoquic_ctx st) ;; uv_timer_start t
      | _, _ => mret tt
      end
  end.

Definition ct_close_quic_context (socket_state : option id) : M world unit :=
  match socket_state with
  | None => mret tt
  | Some s =>
      st ← socket_state_at s;
      match qk_timer_handle st with
      | None => mret tt
      | Some t => uv_timer_stop t ;; uv_close t (Some socket_timer_close_cb_ptr)
      end
  end.

(** [socket_manager->internal_socket_manager_state], cast. *)
Definition quic_state_of (socket_manager : id) : M world (option id) :=
  sm ← manager_at socket_manager;
  match sm_internal_socket_manager_state sm with
  | None => mret None
  | Some (QuicSocketState s) => mret (Some s)
  | Some _ => ub "not a QUIC socket state"
  end.

Definition quic_close_socket (socket_manager : id) : M world unit :=
  s ← quic_state_of socket_manager; ct_close_quic_context s.

Definition quic_closed_poll_handle_cb (handle : id) : M world unit :=
  m ← data_of handle; ct_socket_manager_closed_socket_cb m.

(** The session tickets are saved while the context is open. *)
Definition socket_timer_close_cb (handle : id) : M world unit :=
  x ← handle_at handle;
  match uh_data x with
  | None => mret tt
  | Some s =>
      st ← socket_state_at s;
      when (negb (is_null (qk_ticket_store_path st)))
        (context_at (qk_picoquic_ctx st) ;; load (qk_ticket_store_path st) ;; uv_rc ;; mret tt) ;;
      match qk_poll_handle st with
      | Some p => update_handle p (set_read None) ;; uv_close p (Some quic_closed_poll_handle_cb_ptr)
      | None => ct_socket_manager_closed_socket_cb (qk_socket_manager st)
      end
  end.

(** [free] of a handle pointer that may be NULL. *)
Definition free_handle_ptr (h : option id) : M world unit :=
  match h with None => mret tt | Some h => free_handle h end.

Definition quic_free_socket_state (socket_manager : id) : M world unit :=
  s ← quic_state_of socket_manager;
  match s with
  | None => mret tt
  | Some s =>
      st ← socket_state_at s;
      picoquic_free (qk_picoquic_ctx st) ;;
      free_handle_ptr (qk_poll_handle st) ;;
      free_handle_ptr (qk_timer_handle st) ;;
      on_heap (free_ptr (qk_cert_file_name st)) ;;
      on_heap (free_ptr (qk_ticket_store_path st)) ;;
      on_heap (free_ptr (qk_key_file_name st)) ;;
      free_socket_state s
  end.

(** ** Sending packets *)

(** The [msghdr] of a packet. *)
Definition packet_info (p : packet) : pktinfo :=
  if ss_family (pk_to p) =? AF_INET6 then
    Pktinfo SOCKADDR_IN6_SIZE true
      (if ss_family (pk_from p) =? AF_INET6 then Some (sin6_addr (pk_from p)) else None) (pk_if_index p)
  else
    Pktinfo SOCKADDR_IN_SIZE false
      (if ss_family (pk_from p) =? AF_INET then Some (sin_addr (pk_from p)) else None) (pk_if_index p).

Definition ct_quic_send_packet_with_pktinfo (poll_handle : option id) (p : packet) : M world Z :=
  h ← deref poll_handle "NULL poll handle";
  handle_at h ;;
  log_picoquic (SendMsg (pk_to p) (packet_info p)) ;;
  sent ← uv_rc;
  mret (if sent <? 0 then sent else 0).
