(* ===== verification/Quic.v ===== *)
(** QUIC connections.

    Models the rest of src/src/protocol/quic/quic.c: connections as streams of
    a picoquic connection that their group shares, the callback through which
    picoquic reports events, the reading of packets, the timer, and the
    operations of the protocol interface.

    picoquic calls [picoquic_callback] from inside some of its own functions:
    [run_callbacks] runs the calls that [q_callbacks] holds for the next such
    function. *)

From S2P Require Export QuicSockets.
Open Scope Z_scope.

Section quic.
Context `{!Picoquic}.

(** ** Access to the states *)

Definition ct_connection_get_quic_group_state (connection : option id) : M world (option id) :=
  match connection with
  | None => mret None
  | Some c =>
      conn ← connection_at c;
      match cn_connection_group conn with
      | None => mret None
      | Some g => gr ← group_at g; mret (gr_connection_group_state gr)
      end
  end.

Definition ct_connection_get_stream_state (connection : option id) : M world (option id) :=
  with_connection connection None cn_internal_connection_state.

Definition ct_connection_get_quic_socket_state (connection : option id) : M world (option id) :=
  match connection with
  | None => mret None
  | Some c =>
      conn ← connection_at c;
      match cn_socket_manager conn with None => mret None | Some m => quic_state_of m end
  end.

(** [group_state->picoquic_connection] *)
Definition picoquic_connection_of (group_state : option id) : M world (option id) :=
  g ← deref group_state "NULL QUIC group state"; st ← group_state_at g; mret (qg_picoquic_connection st).

Definition ct_connection_get_picoquic_connection (connection : option id) : M world (option id) :=
  group_state ← ct_connection_get_quic_group_state connection;
  assert_ (is_Some_b group_state) "group_state" ;;
  picoquic_connection_of group_state.

Definition ct_quic_connection_group_get_picoquic_cnx (group : id) : M world (option id) :=
  gr ← group_at group;
  match gr_connection_group_state gr with
  | None => mret None
  | Some g => picoquic_connection_of (Some g)
  end.

Definition ct_connection_get_picoquic_instance (connection : option id) : M world (option id) :=
  s ← ct_connection_get_quic_socket_state connection;
  match s with None => mret None | Some s => st ← socket_state_at s; mret (qk_picoquic_ctx st) end.

(** ** Streams *)

Definition ct_connection_stream_is_initialized (connection : option id) : M world bool :=
  s ← ct_connection_get_stream_state connection;
  match s with None => mret false | Some s => st ← stream_state_at s; mret (qs_stream_initialized st) end.

Definition ct_connection_get_stream_id (connection : option id) : M world Z :=
  s ← ct_connection_get_stream_state connection;
  match s with None => mret 0 | Some s => st ← stream_state_at s; mret (qs_stream_id st) end.

Definition ct_quic_set_connection_stream (connection : id) (stream_id : Z) : M world unit :=
  s ← ct_connection_get_stream_state (Some connection);
  match s with None => mret tt | Some s => stream_state_at s ;; put_stream_state s (QuicStream stream_id true) end.

Definition picoquic_set_app_stream_ctx (cnx : option id) (stream_id : Z) (connection : id) : M world Z :=
  x ← cnx_at cnx; log_picoquic (PqSetAppStreamCtx x stream_id connection) ;; uv_rc.

Definition ct_connection_assign_next_free_stream (connection : id) (is_unidirectional : bool) : M world unit :=
  conn ← connection_at connection;
  g ← deref (cn_connection_group conn) "NULL connection group";
  gr ← group_at g;
  cnx ← picoquic_connection_of (gr_connection_group_state gr);
  x ← cnx_at cnx;
  next_stream_id ← gets (fun w => picoquic_get_next_local_stream_id w x is_unidirectional);
  ct_quic_set_connection_stream connection next_stream_id ;;
  picoquic_set_app_stream_ctx cnx next_stream_id connection ;;
  mret tt.

Definition picoquic_add_to_stream_with_ctx (cnx : option id) (stream_id : Z) (data : list Z) (set_fin : bool)
    (connection : id) : M world Z :=
  x ← cnx_at cnx; log_picoquic (PqAddToStream x stream_id data set_fin connection) ;; uv_rc.

(** The two low bits of a stream's number, and what they allow. *)
Definition server_initiated (stream_id : Z) : bool := negb (Z.land stream_id 1 =? 0).
Definition unidirectional (stream_id : Z) : bool := negb (Z.land stream_id 2 =? 0).
Definition stream_capabilities (is_client : bool) (stream_id : Z) : bool * bool :=
  let server := server_initiated stream_id in
  let uni := unidirectional stream_id in
  if is_client then (negb server || negb uni, server || negb uni)
  else (server || negb uni, negb server || negb uni).

(** ** ALPN selection *)

(** [base] points into the handshake message: what can be read from there;
    [strcmp] reads up to the first zero. *)
Record picoquic_iovec := Iovec { iov_base : list Z; iov_len : nat }.

Fixpoint c_string (mem : list Z) : option (list Z) :=
  match mem with
  | [] => None
  | x :: mem => if x =? 0 then Some [] else cons x <$> c_string mem
  end.
Definition string_bytes (s : string) : list Z := (fun a => Z.of_N (Ascii.N_of_ascii a)) <$> String.list_ascii_of_string s.

Definition strcmp_eq {S} (base : list Z) (s : cptr string) : M S bool :=
  a ← deref (c_string base) "strcmp reads past the end";
  s ← load s;
  mret (bool_decide (a = string_bytes s)).

Fixpoint alpn_matches {S} (base : list Z) (alpns : list (cptr string)) : M S bool :=
  match alpns with
  | [] => mret false
  | s :: alpns => b ← strcmp_eq base s; if b : bool then mret true else alpn_matches base alpns
  end.
(** The index of the first offered name that matches, or [count]. *)
Fixpoint select_alpn {S} (l : list picoquic_iovec) (alpns : list (cptr string)) (i : nat) : M S nat :=
  match l with
  | [] => mret i
  | x :: l => b ← alpn_matches (iov_base x) alpns; if b : bool then mret i else select_alpn l alpns (1 + i)
  end.

Definition quic_alpn_select_cb (quic_context : option id) (l : list picoquic_iovec) : M world nat :=
  match quic_context with
  | None => mret (length l)
  | Some s =>
      st ← socket_state_at s;
      sm ← manager_at (qk_socket_manager st);
      match sm_listener sm with
      | None => mret (length l)
      | Some listener =>
          li ← listener_at listener;
          '(alpns, num_alpns) ← on_heap (ct_security_parameters_get_alpns (li_security_parameters li));
          n ← deref num_alpns "num_alpns not written";
          if bool_decide (n = 0%nat) then mret (length l) else
          a ← load alpns;
          select_alpn l a 0
      end
  end.
End quic.

(** ** Events of picoquic *)

Section events.
Context `{!Picoquic, !SocketImpl, !Framers, !HashOrder}.

(** The members that are not closed, and the last member's manager. *)
Fixpoint connections_to_notify (l : list id) (socket_manager : option id) : M world (option id * list id) :=
  match l with
  | [] => mret (socket_manager, [])
  | c :: l =>
      conn ← connection_at c;
      closed ← ct_connection_is_closed (Some c);
      '(m, rest) ← connections_to_notify l (cn_socket_manager conn);
      mret (m, if closed : bool then rest else c :: rest)
  end.

Definition handle_closed_picoquic_connection (connection_group : id) : M world Z :=
  l ← group_members connection_group;
  '(socket_manager, connections) ← connections_to_notify l None;
  for_each connections (fun c =>
    m ← deref socket_manager "NULL socket manager";
    manager_at m ;;
    ct_socket_manager_closed_connection_cb c) ;;
  mret 0.

Definition handle_aborted_picoquic_connection_group (connection_group : id) : M world Z :=
  l ← group_members connection_group;
  '(socket_manager, connections) ← connections_to_notify l None;
  for_each connections (fun c =>
    match socket_manager with
    | Some m => manager_at m ;; ct_socket_manager_aborted_connection_cb c
    | None => mret tt
    end) ;;
  mret 0.

Definition handle_stream_data (connection : id) (data : list Z) : M world Z :=
  if bool_decide (length data = 0%nat) then mret 0 else
  can_receive ← ct_connection_can_receive (Some connection);
  if negb can_receive then mret (- EPIPE) else
  ct_connection_on_protocol_receive connection data ;;
  mret 0.

(** The members that can send or receive. *)
Fixpoint count_active (l : list id) : M world Z :=
  match l with
  | [] => mret 0
  | c :: l =>
      can_send ← ct_connection_can_send (Some c);
      can_receive ← ct_connection_can_receive (Some c);
      n ← count_active l;
      mret (if can_send || can_receive then 1 + n else n)
  end.
(** ... of a connection's group. *)
Definition group_of (connection : id) : M world id :=
  conn ← connection_at connection; deref (cn_connection_group conn) "NULL connection group".

Definition picoquic_close (cnx : option id) : M world Z :=
  x ← cnx_at cnx; log_picoquic (PqClose x) ;; uv_rc.

Definition handle_stream_fin (connection : option id) : M world unit :=
  match connection with
  | None => mret tt
  | Some c =>
      ct_connection_set_can_receive (Some c) false ;;
      can_send ← ct_connection_can_send (Some c);
      g ← group_of c;
      l ← group_members g;
      num_active ← count_active l;
      if num_active =? 0 then
        group_state ← ct_connection_get_quic_group_state (Some c);
        cnx ← picoquic_connection_of group_state;
        picoquic_close cnx ;;
        mret tt
      else if negb can_send then
        conn ← connection_at c;
        match cn_socket_manager conn with
        | Some m => manager_at m ;; ct_socket_manager_closed_connection_cb c
        | None => mret tt
        end
      else mret tt
  end.

(** The context must be a connection group when it is used as one. *)
Definition the_group (ctx : quic_ctx) : M world id :=
  match ctx with GroupCtx g => mret g | SocketCtx _ => ub "socket state used as a connection group" end.

(** The connection of a stream: its context, or for a new stream the group's
    first connection if it has no stream yet, and otherwise a clone of it. *)
Definition resolve_or_create_stream_connection (cnx : id) (connection_group : quic_ctx)
    (v_stream_ctx : option id) (stream_id : Z) : M world (Z * option id * bool) :=
  match v_stream_ctx with
  | Some c => mret (0, Some c, false)
  | None =>
      g ← the_group connection_group;
      first ← ct_connection_group_get_first (Some g);
      first ← deref first "connection";
      initialized ← ct_connection_stream_is_initialized (Some first);
      connection ← (if initialized : bool then
                      conn ← connection_at first;
                      s ← ct_quic_stream_state_new;
                      ct_connection_create_clone first (cn_socket_manager conn) (cn_framer_impl conn) s
                    else mret (Some first));
      match connection with
      | None => mret (- ENOMEM, None, initialized)
      | Some c =>
          cnx_at (Some cnx) ;;
          is_client ← gets (fun w => picoquic_is_client w cnx);
          let '(can_send, can_receive) := stream_capabilities is_client stream_id in
          ct_connection_set_can_send (Some c) can_send ;;
          ct_connection_set_can_receive (Some c) can_receive ;;
          ct_quic_set_connection_stream c stream_id ;;
          rc ← picoquic_set_app_stream_ctx (Some cnx) stream_id c;
          if rc <? 0 then mret (rc, None, initialized) else mret (0, Some c, initialized)
      end
  end.

(** The local endpoints other than the active one, with the remote family. *)
Fixpoint probe_locals (connection : id) (cnx : option id) (l : list ct_local_endpoint) (j : nat) : M world unit :=
  match l with
  | [] => mret tt
  | e :: l =>
      conn ← connection_at connection;
      when (negb (bool_decide (j = cn_active_local_endpoint conn)))
        (remote ← active_remote_endpoint connection;
         when (ss_family (le_resolved_address e) =? ss_family (re_resolved_address remote))
           (ctx ← ct_connection_get_picoquic_instance (Some connection);
            context_at ctx ;;
            x ← cnx_at cnx;
            log_picoquic (PqProbePath x (re_resolved_address remote) (le_resolved_address e)) ;;
            uv_rc ;;
            mret tt)) ;;
      probe_locals connection cnx l (1 + j)
  end.

(** [at_least_one_success] is never set. *)
Definition probe_all_paths (group : id) : M world Z :=
  connection ← ct_connection_group_get_first (Some group);
  cnx ← ct_quic_connection_group_get_picoquic_cnx group;
  match connection with
  | None => mret tt
  | Some c => conn ← connection_at c; probe_locals c cnx (local_list conn) 0
  end ;;
  mret (- EIO).

(** [picoquic_callback_ready] *)
Definition free_initial_message (s : id) : M world unit :=
  st ← socket_state_at s;
  match qk_initial_message st with
  | Some msg => on_heap (ct_message_free (Some msg)) ;; update_socket_state s (set_qk_initial_message None)
  | None => mret tt
  end ;;
  match qk_initial_message_context st with
  | Some ctx =>
      on_heap (ct_message_context_free (Some ctx)) ;; update_socket_state s (set_qk_initial_message_context None)
  | None => mret tt
  end.

Definition picoquic_ready (cnx connection_group : id) : M world unit :=
  connection ← ct_connection_group_get_first (Some connection_group);
  c ← deref connection "connection";
  m ← manager_of c;
  socket_state ← quic_state_of m;
  s ← deref socket_state "NULL socket state";
  free_initial_message s ;;
  server ← ct_connection_is_server (Some c);
  if server : bool then
    st ← socket_state_at s;
    resolve_local_endpoint_from_poll (qk_poll_handle st) c ;;
    sm ← manager_at m;
    l ← deref (sm_listener sm) "NULL listener";
    ct_socket_manager_connection_received_cb l c
  else
    cnx_at (Some cnx) ;;
    psk ← gets (fun w => picoquic_tls_is_psk_handshake w cnx);
    when psk
      (group_state ← ct_connection_get_quic_group_state (Some c);
       g ← deref group_state "NULL QUIC group state";
       st ← group_state_at g;
       when (qg_attempted_early_data st) (ct_connection_set_sent_early_data (Some c) true)) ;;
    ct_socket_manager_connection_ready_cb c.

(** [picoquic_callback_stream_data], [picoquic_callback_stream_fin] *)
Definition connection_ready_if (is_new_connection : bool) (connection : id) : M world unit :=
  when is_new_connection
    (m ← manager_of connection; manager_at m ;; ct_socket_manager_connection_ready_cb connection).

Definition stream_data (cnx : id) (connection_group : quic_ctx) (v_stream_ctx : option id) (stream_id : Z)
    (data : list Z) : M world Z :=
  '(rc, connection, is_new_connection) ←
    resolve_or_create_stream_connection cnx connection_group v_stream_ctx stream_id;
  if rc <? 0 then mret rc else
  c ← deref connection "NULL connection";
  rc ← handle_stream_data c data;
  if rc <? 0 then mret rc else connection_ready_if is_new_connection c ;; mret 0.

Definition stream_fin (cnx : id) (connection_group : quic_ctx) (v_stream_ctx : option id) (stream_id : Z)
    (data : list Z) : M world Z :=
  '(rc, connection, is_new_connection) ←
    resolve_or_create_stream_connection cnx connection_group v_stream_ctx stream_id;
  if rc <? 0 then mret rc else
  c ← deref connection "NULL connection";
  rc ← (if (0 <? length data)%nat then handle_stream_data c data else mret 0);
  if negb (rc =? 0) then mret rc else
  handle_stream_fin (Some c) ;;
  connection_ready_if is_new_connection c ;;
  mret 0.

(** [picoquic_callback_path_available]; the number of the path is passed as a
    stream's. *)
Definition path_available (cnx connection_group : id) : M world Z :=
  cnx_at (Some cnx) ;;
  '(rc, to_address) ← uv_getname;
  if rc <? 0 then mret rc else
  '(rc, from_address) ← uv_getname;
  if rc <? 0 then mret rc else
  let '(_, remote_endpoint) := ct_remote_endpoint_from_sockaddr ct_remote_endpoint_build to_address in
  '(rc, changed_remote) ← ct_connection_group_set_active_remote_endpoint connection_group remote_endpoint;
  if negb (rc =? 0) then mret rc else
  let '(_, local_endpoint) := ct_local_endpoint_from_sockaddr ct_local_endpoint_build (Some from_address) in
  '(rc, changed_local) ← ct_connection_group_set_active_local_endpoint connection_group local_endpoint;
  if negb (rc =? 0) then mret rc else
  when (default false changed_local || default false changed_remote)
    (ct_connection_group_notify_of_path_change connection_group) ;;
  mret 0.

Definition picoquic_callback (a : callback_args) : M world Z :=
  ctx ← deref (ca_callback_ctx a) "connection_group";
  match ca_event a with
  | picoquic_callback_ready => g ← the_group ctx; picoquic_ready (ca_cnx a) g ;; mret 0
  | picoquic_callback_stream_data => stream_data (ca_cnx a) ctx (ca_stream_ctx a) (ca_stream_id a) (ca_bytes a)
  | picoquic_callback_stream_fin => stream_fin (ca_cnx a) ctx (ca_stream_ctx a) (ca_stream_id a) (ca_bytes a)
  | picoquic_callback_stream_reset =>
      match ca_stream_ctx a with
      | Some c => m ← manager_of c; manager_at m ;; ct_socket_manager_aborted_connection_cb c ;; mret 0
      | None => mret 0
      end
  | picoquic_callback_stop_sending =>
      match ca_stream_ctx a with
      | Some c => ct_connection_set_can_send (Some c) false ;; mret 0
      | None => mret 0
      end
  | picoquic_callback_stateless_reset => g ← the_group ctx; handle_aborted_picoquic_connection_group g
  | picoquic_callback_close =>
      cnx_at (Some (ca_cnx a)) ;;
      error ← gets (fun w => picoquic_get_remote_error w (ca_cnx a));
      g ← the_group ctx;
      if negb (error =? 0) then handle_aborted_picoquic_connection_group g
      else handle_closed_picoquic_connection g
  | picoquic_callback_request_alpn_list => mret (- EINVAL)
  | picoquic_callback_path_available => g ← the_group ctx; path_available (ca_cnx a) g
  | picoquic_callback_path_suspended =>
      g ← the_group ctx;
      props ← ct_connection_group_get_transport_properties (Some g);
      when (ct_transport_properties_multipath_is_active props) (probe_all_paths g ;; mret tt) ;;
      mret 0
  | picoquic_callback_application_close | picoquic_callback_path_deleted | picoquic_callback_other => mret 0
  end.

(** A picoquic function that may call back; picoquic handles the results. *)
Definition run_callbacks : M world unit :=
  w ← get;
  match q_callbacks (w_quic w) with
  | [] => mret tt
  | l :: rest =>
      modify_quic (set_q_callbacks rest) ;;
      for_each l (fun a => picoquic_callback a ;; mret tt)
  end.
End events.

(** ** The timer and the poll handle *)

Section quic_socket.
Context `{!Picoquic, !SocketImpl, !Framers, !HashOrder}.

(** [picoquic_prepare_next_packet]: the next packet, or nothing to send. *)
Definition no_packet : packet := Packet 0 0 sockaddr_zero sockaddr_zero 0 None.
Definition picoquic_prepare_next_packet (ctx : id) (next : option packet) : M world packet :=
  context_at (Some ctx) ;;
  log_picoquic (PqPrepare ctx) ;;
  run_callbacks ;;
  mret (default no_packet next).

(** The loop that sends what picoquic prepares. *)
Definition send_packet (s : id) (p : packet) : M world unit :=
  st ← socket_state_at s;
  rc ← ct_quic_send_packet_with_pktinfo (qk_poll_handle st) p;
  on_heap free_block ;;
  when (rc <? 0)
    (log_picoquic (PqUnreachable (pk_last_cnx p) (pk_to p) (pk_from p) (pk_if_index p) (- rc))).

Fixpoint send_packets (s ctx : id) (l : list packet) : M world unit :=
  ok ← on_heap malloc;
  if negb ok then mret tt else
  p ← picoquic_prepare_next_packet ctx (head l);
  if negb (pk_rc p =? 0) || negb (0 <? pk_length p) then on_heap free_block else
  match l with
  | [] => on_heap free_block
  | _ :: l => send_packet s p ;; send_packets s ctx l
  end.

(** The packets that picoquic has for this run. *)
Definition take_packets : M world (list packet) :=
  w ← get;
  match q_packets (w_quic w) with
  | [] => mret []
  | l :: rest => modify_quic (set_q_packets rest) ;; mret l
  end.

(** The loop has stopped a timer whose callback it runs. *)
Definition on_socket_timer (timer_handle : id) : M world unit :=
  x ← handle_at timer_handle;
  match uh_data x with
  | None => mret tt
  | Some s =>
      st ← socket_state_at s;
      match qk_picoquic_ctx st with
      | None => mret tt
      | Some ctx =>
          packets ← take_packets;
          send_packets s ctx packets ;;
          reset_quic_timer (Some s)
      end
  end.

Definition timer_fired (timer_handle : id) : M world unit :=
  update_handle timer_handle (set_read None) ;; on_socket_timer timer_handle.

(** A connection that has picoquic's default callback context is new. *)
Definition is_new_cnx (cnx : option id) : M world bool :=
  match cnx with
  | None => mret false
  | Some x =>
      cnx_at (Some x) ;;
      gets (fun w => bool_decide (picoquic_get_callback_context w x =
                                  picoquic_get_default_callback_context w (picoquic_get_quic_ctx w x)))
  end.

(** The connection, in a group of its own, of a new picoquic connection; the
    result says whether everything was allocated. *)
Definition accept_connection (listener : id) (remote_endpoint : ct_remote_endpoint) (cnx : id) : M world bool :=
  li ← listener_at listener;
  m ← deref (li_socket_manager li) "NULL socket manager";
  connection ← ct_connection_create_server_connection m remote_endpoint (li_local_endpoint li)
                 (li_transport_properties li) (li_security_parameters li) (Some (li_connection_callbacks li)) None;
  match connection with
  | None => mret false
  | Some c =>
      on_heap (ct_remote_endpoint_free (Some remote_endpoint)) ;;
      g ← group_of c;
      log_picoquic (PqSetCallback cnx g) ;;
      group_state ← ct_create_quic_group_state;
      match group_state with
      | None => ct_connection_free (Some c) ;; mret false
      | Some gs =>
          put_group_state gs (QuicGroup (Some cnx) false) ;;
          s ← quic_state_of m;
          s ← deref s "NULL socket state";
          st ← socket_state_at s;
          rc ← resolve_local_endpoint_from_poll (qk_poll_handle st) c;
          if rc <? 0 then free_group_state group_state ;; ct_connection_free (Some c) ;; mret false else
          update_group g (set_gr_connection_group_state group_state) ;;
          stream_state ← ct_quic_stream_state_new;
          match stream_state with
          | None => free_group_state group_state ;; ct_connection_free (Some c) ;; mret false
          | Some _ => update_connection c (set_cn_internal_connection_state stream_state) ;; mret true
          end
      end
  end.

(** The result says whether the timer is set again. *)
Definition accept_if_new (socket_manager s : id) (from : sockaddr) (cnx : option id) : M world bool :=
  new ← is_new_cnx cnx;
  if negb new then mret true else
  sm ← manager_at socket_manager;
  closed ← ct_listener_is_closed (sm_listener sm);
  if closed : bool then mret false else
  st ← socket_state_at s;
  sm ← manager_at (qk_socket_manager st);
  closed ← ct_listener_is_closed (sm_listener sm);
  if closed : bool then mret false else
  l ← deref (sm_listener sm) "NULL listener";
  remote_endpoint ← on_heap ct_remote_endpoint_new;
  match remote_endpoint with
  | None => mret false
  | Some e =>
      let '(rc, e) := ct_remote_endpoint_from_sockaddr e from in
      if rc <? 0 then on_heap free_block ;; mret false else
      x ← deref cnx "NULL picoquic connection";
      accept_connection l e x
  end.

(** [picoquic_incoming_packet_ex] may call back, and stores the connection of
    the packet, [cnx]; its return code is only logged. *)
Definition on_quic_poll_read (socket_manager : id) (data : list Z) (from to : sockaddr) (cnx : option id) :
    M world unit :=
  if bool_decide (length data = 0%nat) then mret tt else
  socket_state ← quic_state_of socket_manager;
  match socket_state with
  | None => mret tt
  | Some s =>
      st ← socket_state_at s;
      match qk_picoquic_ctx st with
      | None => mret tt
      | Some ctx =>
          context_at (Some ctx) ;;
          log_picoquic (PqIncoming ctx data from to) ;;
          run_callbacks ;;
          reset ← accept_if_new socket_manager s from cnx;
          when reset (reset_quic_timer (Some s))
      end
  end.

(** [poll_recv_cb]; a [getsockname] that fails leaves a zero address. *)
Definition poll_recv_cb (handle : id) (status : Z) (readable : bool) (r : poll_read) (cnx : option id) : M world unit :=
  if (status <? 0) || negb readable then mret tt else
  x ← handle_at handle;
  match r with
  | PollError => mret tt
  | PollData data from cms =>
      '(_, bound) ← uv_getname;
      m ← deref (uh_data x) "handle without data";
      on_quic_poll_read m data from (destination (port_bytes bound) cms) cnx
  end.
End quic_socket.

(** ** The operations of the protocol interface *)

Section quic_ops.
Context `{!Picoquic, !SocketImpl, !Framers, !HashOrder}.

(** The connection is aborted, and the caller is told [rc]. *)
Definition abort_opening (connection : id) (rc : Z) : M world Z :=
  m ← manager_of connection; manager_at m ;; ct_socket_manager_aborted_connection_cb connection ;; mret rc.

Definition picoquic_create_cnx (ctx : option id) (remote : sockaddr) (alpn : cptr string) : M world (option id) :=
  c ← context_at ctx;
  load alpn ;;
  rc ← uv_rc;
  if rc <? 0 then mret None else
  cnx ← fresh_id; log_picoquic (PqCreateCnx c cnx remote alpn) ;; mret (Some cnx).

Definition picoquic_set_callback (cnx : option id) (connection_group : id) : M world unit :=
  x ← cnx_at cnx; log_picoquic (PqSetCallback x connection_group).

Definition picoquic_start_client_cnx (cnx : option id) : M world Z :=
  x ← cnx_at cnx; log_picoquic (PqStartClient x) ;; uv_rc.

(** The group state's connection to the active remote endpoint. *)
Definition connect_group (connection s gs : id) (alpn_strings : cptr (list (cptr string))) : M world unit :=
  conn ← connection_at connection;
  st ← socket_state_at s;
  remote ← active_remote_endpoint connection;
  on_heap (ct_security_parameters_get_server_name_identification (cn_security_parameters conn)) ;;
  alpns ← load alpn_strings;
  alpn ← index alpns 0;
  cnx ← picoquic_create_cnx (qk_picoquic_ctx st) (re_resolved_address remote) alpn;
  update_group_state gs (fun st => QuicGroup cnx (qg_attempted_early_data st)) ;;
  g ← group_of connection;
  picoquic_set_callback cnx g.

(** The poll handle, the group's and the stream's state, and the picoquic
    connection; then [k] with the socket and group states. *)
Definition open_on_socket (connection s : id) (early : bool) (k : id -> id -> M world Z) : M world Z :=
  m ← manager_of connection;
  st ← socket_state_at s;
  context_at (qk_picoquic_ctx st) ;;
  local ← active_local_endpoint connection;
  poll_handle ← create_udp_poll_on_local local;
  match poll_handle with
  | None => abort_opening connection 0
  | Some p =>
      update_handle p (set_data m) ;;
      update_socket_state s (set_qk_poll_handle (Some p)) ;;
      g ← group_of connection;
      group_state ← ct_create_quic_group_state;
      update_group g (set_gr_connection_group_state group_state) ;;
      match group_state with
      | None => abort_opening connection 0
      | Some gs =>
          stream_state ← ct_quic_stream_state_new;
          if negb (is_Some_b stream_state) then abort_opening connection (if early then - ENOMEM else 0) else
          update_connection connection (set_cn_internal_connection_state stream_state) ;;
          rc ← resolve_local_endpoint_from_poll (Some p) connection;
          if rc <? 0 then abort_opening connection 0 else
          conn ← connection_at connection;
          '(alpn_strings, alpn_count) ← on_heap (ct_security_parameters_get_alpns (cn_security_parameters conn));
          if bool_decide (default 0%nat alpn_count = 0%nat) then
            when (negb early)
              (free_group_state group_state ;;
               match stream_state with Some s => free_stream_state s | None => mret tt end) ;;
            abort_opening connection 0
          else
          connect_group connection s gs alpn_strings ;;
          k s gs
      end
  end.

(** The certificate and the socket state. *)
Definition quic_open (connection : id) (early : bool) (initial_message : option ct_message)
    (k : id -> id -> M world Z) : M world Z :=
  conn ← connection_at connection;
  let sec := cn_security_parameters conn in
  if negb (is_Some_b sec) then mret (- EINVAL) else
  bundle_count ← on_heap (ct_security_parameters_get_client_certificate_count sec);
  if bool_decide (bundle_count = 0%nat) then mret (- EINVAL) else
  cert_file ← on_heap (ct_security_parameters_get_client_certificate_file sec 0);
  key_file ← on_heap (ct_security_parameters_get_client_certificate_key_file sec 0);
  if is_null cert_file || is_null key_file then mret (- EINVAL) else
  m ← deref (cn_socket_manager conn) "NULL socket manager";
  g ← group_of connection;
  group_at g ;;
  quic_context ← ct_quic_socket_state_new cert_file key_file m sec initial_message;
  match quic_context with
  | None => mret (- EIO)
  | Some s => open_on_socket connection s early k
  end.

(** The end of both: the handshake. *)
Definition start_client (connection s gs : id) : M world Z :=
  cnx ← picoquic_connection_of (Some gs);
  rc ← picoquic_start_client_cnx cnx;
  if negb (rc =? 0) then abort_opening connection 0 else
  reset_quic_timer (Some s) ;;
  mret 0.

Definition quic_init (connection : id) : M world Z := quic_open connection false None (start_client connection).

Definition is_final_message (ctx : option ct_message_context) : bool :=
  is_Some_b ctx && negb (ct_message_context_get FINAL ctx =? 0).

(** Early data goes to the first stream before the handshake starts. *)
Definition send_early_data (connection : id) (initial_message : option ct_message)
    (initial_message_context : option ct_message_context) (s gs : id) : M world Z :=
  ct_connection_assign_next_free_stream connection false ;;
  cnx ← picoquic_connection_of (Some gs);
  stream_id ← ct_connection_get_stream_id (Some connection);
  msg ← deref initial_message "NULL initial message";
  data ← deref (content_bytes msg) "message content shorter than its length";
  rc ← picoquic_add_to_stream_with_ctx cnx stream_id data (is_final_message initial_message_context) connection;
  if rc <? 0 then abort_opening connection 0 else
  stream_id ← ct_connection_get_stream_id (Some connection);
  rc ← picoquic_set_app_stream_ctx cnx stream_id connection;
  if rc <? 0 then abort_opening connection 0 else
  update_group_state gs (fun st => QuicGroup (qg_picoquic_connection st) true) ;;
  start_client connection s gs.

Definition quic_init_with_send (connection : id) (initial_message : option ct_message)
    (initial_message_context : option ct_message_context) : M world Z :=
  quic_open connection true initial_message (send_early_data connection initial_message initial_message_context).

(** The socket state of a connection's manager, with its timer. *)
Definition run_socket_timer (connection : id) : M world unit :=
  m ← manager_of connection;
  socket_state ← quic_state_of m;
  s ← deref socket_state "NULL socket state";
  st ← socket_state_at s;
  t ← deref (qk_timer_handle st) "NULL timer";
  on_socket_timer t.

(** A FIN on the connection's stream, if it has one. *)
Definition send_fin (connection : id) (group_state : option id) : M world Z :=
  initialized ← ct_connection_stream_is_initialized (Some connection);
  if negb initialized then mret 0 else
  stream_id ← ct_connection_get_stream_id (Some connection);
  cnx ← picoquic_connection_of group_state;
  rc ← picoquic_add_to_stream_with_ctx cnx stream_id [] true connection;
  run_socket_timer connection ;;
  mret rc.

Definition quic_close_connection (connection : id) : M world Z :=
  socket_state ← ct_connection_get_quic_socket_state (Some connection);
  group_state ← ct_connection_get_quic_group_state (Some connection);
  g ← group_of connection;
  ct_connection_set_can_send (Some connection) false ;;
  l ← group_members g;
  num_active ← count_active l;
  rc ← (if 0 <? num_active then send_fin connection group_state
        else cnx ← picoquic_connection_of group_state; picoquic_close cnx);
  reset_quic_timer socket_state ;;
  mret (if negb (rc =? 0) then - EIO else 0).

(** [picoquic_reset_stream]; [picoquic_close_immediate] may call back. *)
Definition picoquic_reset_stream (cnx : option id) (stream_id : Z) : M world Z :=
  x ← cnx_at cnx; log_picoquic (PqResetStream x stream_id) ;; uv_rc.
Definition picoquic_close_immediate (cnx : option id) : M world unit :=
  x ← cnx_at cnx; log_picoquic (PqCloseImmediate x) ;; run_callbacks.

Definition reset_timer_of (connection : id) : M world unit :=
  m ← manager_of connection; s ← quic_state_of m; reset_quic_timer s.

Definition quic_abort (connection : id) : M world unit :=
  group_state ← ct_connection_get_quic_group_state (Some connection);
  stream_id ← ct_connection_get_stream_id (Some connection);
  g ← group_of connection;
  num_active_connections ← ct_connection_group_get_num_active_connections g;
  if 1 <? num_active_connections then
    initialized ← ct_connection_stream_is_initialized (Some connection);
    if negb initialized then mret tt else
    cnx ← picoquic_connection_of group_state;
    rc ← picoquic_reset_stream cnx stream_id;
    if negb (rc =? 0) then mret tt else
    ct_connection_mark_as_closed (Some connection) ;;
    reset_timer_of connection
  else
    cnx ← picoquic_connection_of group_state;
    picoquic_close_immediate cnx ;;
    reset_timer_of connection.

Definition quic_clone_connection (source_connection target_connection : id) : M world Z :=
  state ← ct_quic_stream_state_new;
  update_connection target_connection (set_cn_internal_connection_state state) ;;
  if negb (is_Some_b state) then mret (- ENOMEM) else
  m ← manager_of source_connection;
  manager_at m ;;
  ct_socket_manager_connection_ready_cb target_connection ;;
  mret 0.

Definition quic_send (connection : id) (message : option ct_message) (message_context : option ct_message_context) :
    M world Z :=
  m ← manager_of connection;
  cnx ← ct_connection_get_picoquic_connection (Some connection);
  if negb (is_Some_b cnx) then mret (- ENOTCONN) else
  x ← cnx_at cnx;
  not_ready ← gets (fun w => picoquic_get_cnx_state w x <? picoquic_state_ready);
  if not_ready : bool then mret (- EAGAIN) else
  initialized ← ct_connection_stream_is_initialized (Some connection);
  when (negb initialized) (ct_connection_assign_next_free_stream connection false) ;;
  stream_id ← ct_connection_get_stream_id (Some connection);
  msg ← deref message "NULL message";
  data ← deref (content_bytes msg) "message content shorter than its length";
  rc ← picoquic_add_to_stream_with_ctx cnx stream_id data (is_final_message message_context) connection;
  if negb (rc =? 0) then mret (- EIO) else
  on_heap (ct_message_free message) ;;
  quic_context ← ct_connection_get_quic_socket_state (Some connection);
  reset_quic_timer quic_context ;;
  manager_at m ;;
  ct_socket_manager_message_sent_cb connection message_context ;;
  mret 0.

(** The manager is the listener's own. *)
Definition quic_listen (socket_manager : id) : M world Z :=
  sm ← manager_at socket_manager;
  l ← deref (sm_listener sm) "NULL listener";
  li ← listener_at l;
  let sec := li_security_parameters li in
  if negb (is_Some_b sec) then mret (- EINVAL) else
  bundle_count ← on_heap (ct_security_parameters_get_server_certificate_count sec);
  if bool_decide (bundle_count = 0%nat) then mret (- EINVAL) else
  cert_file ← on_heap (ct_security_parameters_get_server_certificate_file sec 0);
  key_file ← on_heap (ct_security_parameters_get_server_certificate_key_file sec 0);
  if is_null cert_file || is_null key_file then mret (- EINVAL) else
  m ← deref (li_socket_manager li) "NULL socket manager";
  socket_state ← ct_quic_socket_state_new cert_file key_file m sec None;
  match socket_state with
  | None => mret (- EIO)
  | Some s =>
      st ← socket_state_at s;
      context_at (qk_picoquic_ctx st) ;;
      local ← deref (li_local_endpoint li) "NULL local endpoint";
      poll_handle ← create_udp_poll_on_local local;
      match poll_handle with
      | None => ct_close_quic_context (Some s) ;; mret (- EIO)
      | Some p =>
          update_handle p (set_data socket_manager) ;;
          update_socket_state s (set_qk_poll_handle (Some p)) ;;
          update_manager socket_manager (set_sm_internal_socket_manager_state (Some (QuicSocketState s))) ;;
          reset_quic_timer (Some s) ;;
          mret 0
      end
  end.

Definition quic_close_listener (socket_manager : id) : M world unit :=
  manager_at socket_manager ;; ct_socket_manager_listener_closed_cb socket_manager.

(** A refusal of picoquic fails an assertion. *)
Definition quic_close_connection_group (connection_group : id) : M world unit :=
  gr ← group_at connection_group;
  cnx ← picoquic_connection_of (gr_connection_group_state gr);
  rc ← picoquic_close cnx;
  assert_ (rc =? 0) "picoquic_close".

Definition ct_quic_set_connection_priority (connection : id) (priority : Z) : M world Z :=
  conn ← connection_at connection;
  s ← deref (cn_internal_connection_state conn) "connection->internal_connection_state";
  cnx ← ct_connection_get_picoquic_connection (Some connection);
  st ← stream_state_at s;
  if negb (qs_stream_initialized st) then mret (- EINVAL) else
  x ← cnx_at cnx;
  log_picoquic (PqSetPriority x (qs_stream_id st) priority) ;;
  rc ← uv_rc;
  mret (if negb (rc =? 0) then - EIO else 0).
End quic_ops.
