(* ===== verification/Loop.v ===== *)
(** Protocols and the event loop.

    The dispatch through [ct_protocol_impl_t] that ties the parts together:
    the operations of UDP, TCP and QUIC are those of Udp, Tcp and Quic.
    [loop_event] is what the libuv loop may do next: complete a request,
    report something readable, fire a timer, finish closing a handle. *)

From S2P Require Export Quic.
Open Scope Z_scope.

(** ** The dispatch *)

#[export] Instance ctaps_sockets : SocketImpl := {
  impl_close_socket p :=
    match p with
    | CT_PROTOCOL_UDP => udp_close_socket
    | CT_PROTOCOL_TCP => tcp_close_socket
    | CT_PROTOCOL_QUIC => quic_close_socket
    end;
  impl_free_socket_state p := Some
    match p with
    | CT_PROTOCOL_UDP => udp_free_socket_state
    | CT_PROTOCOL_TCP => tcp_free_socket_state
    | CT_PROTOCOL_QUIC => quic_free_socket_state
    end;
  impl_free_connection_state p := Some
    match p with
    | CT_PROTOCOL_UDP => udp_free_state
    | CT_PROTOCOL_TCP => tcp_free_state
    | CT_PROTOCOL_QUIC => quic_free_state
    end;
  impl_free_connection_group_state p := Some
    match p with
    | CT_PROTOCOL_UDP => udp_free_connection_group_state
    | CT_PROTOCOL_TCP => tcp_free_connection_group_state
    | CT_PROTOCOL_QUIC => ct_free_quic_connection_group_state
    end }.

#[export] Instance ctaps_close `{!Picoquic, !SocketImpl, !Framers, !HashOrder} : CloseImpl := {
  impl_close_connection p :=
    match p with
    | CT_PROTOCOL_UDP => udp_close
    | CT_PROTOCOL_TCP => tcp_close
    | CT_PROTOCOL_QUIC => quic_close_connection
    end }.

#[export] Instance ctaps_protocols `{!Picoquic, !SocketImpl, !CloseImpl, !Framers, !HashOrder} : ProtocolOps := {
  impl_init p :=
    match p with
    | CT_PROTOCOL_UDP => udp_init | CT_PROTOCOL_TCP => tcp_init | CT_PROTOCOL_QUIC => quic_init
    end;
  impl_init_with_send p :=
    match p with
    | CT_PROTOCOL_UDP => udp_init_with_send
    | CT_PROTOCOL_TCP => tcp_init_with_send
    | CT_PROTOCOL_QUIC => quic_init_with_send
    end;
  impl_send p :=
    match p with
    | CT_PROTOCOL_UDP => udp_send | CT_PROTOCOL_TCP => tcp_send | CT_PROTOCOL_QUIC => quic_send
    end;
  impl_listen p :=
    match p with
    | CT_PROTOCOL_UDP => udp_listen | CT_PROTOCOL_TCP => tcp_listen | CT_PROTOCOL_QUIC => quic_listen
    end;
  impl_close_listener p :=
    match p with
    | CT_PROTOCOL_UDP => udp_close_listener
    | CT_PROTOCOL_TCP => tcp_close_listener
    | CT_PROTOCOL_QUIC => quic_close_listener
    end;
  impl_abort p :=
    match p with
    | CT_PROTOCOL_UDP => udp_abort | CT_PROTOCOL_TCP => tcp_abort | CT_PROTOCOL_QUIC => quic_abort
    end;
  impl_clone_connection p :=
    match p with
    | CT_PROTOCOL_UDP => udp_clone_connection
    | CT_PROTOCOL_TCP => tcp_clone_connection
    | CT_PROTOCOL_QUIC => quic_clone_connection
    end;
  impl_close_connection_group p :=
    match p with
    | CT_PROTOCOL_UDP => udp_close_connection_group
    | CT_PROTOCOL_TCP => tcp_close_connection_group
    | CT_PROTOCOL_QUIC => quic_close_connection_group
    end;
  impl_set_connection_priority p :=
    match p with
    | CT_PROTOCOL_UDP | CT_PROTOCOL_TCP => None
    | CT_PROTOCOL_QUIC => Some ct_quic_set_connection_priority
    end }.

(** ** The loop *)

Inductive loop_event : Type :=
| UdpSent (req : id) (status : Z)
| TcpConnected (req : id) (status : Z)
| TcpWritten (req : id) (status : Z)
| UdpReadable (handle : id) (r : udp_read)
| TcpReadable (handle : id) (r : tcp_read)
| NewStream (server : id) (status : Z)
| PollReadable (handle : id) (status : Z) (readable : bool) (r : poll_read) (cnx : option id)
| TimerFired (handle : id)
| CloseFinished (handle : id).

(** A stream handle is closed after its requests have completed. *)
Definition request_on (h : id) (r : request) : bool :=
  match r with
  | UdpSendRequest _ => false
  | TcpConnectRequest h' _ pending => pending && bool_decide (h' = h)
  | TcpWriteRequest h' _ => bool_decide (h' = h)
  end.
Definition no_requests_on (h : id) (w : world) : bool :=
  forallb (fun e : id * request => negb (request_on h e.2)) (map_to_list (w_requests w)).

Definition UV_ECANCELED : Z := -125.

(** What libuv may do: it completes requests it holds, with
    [UV_ECANCELED] when the handle is closing; it reads from open handles
    that read; it runs the close callback of a closing handle. *)
Definition phase_of (h : id) (w : world) : option handle_phase := uh_phase <$> w_handles w !! h.
Definition is_open_in (h : id) (w : world) : bool := bool_decide (phase_of h w = Some HandleOpen).

Definition reads_with (cb : read_cb) (h : id) (w : world) : bool :=
  bool_decide ((uh_read <$> w_handles w !! h) = Some (Some cb)).

Definition possible (e : loop_event) (w : world) : bool :=
  match e with
  | UdpSent req _ => match w_requests w !! req with Some (UdpSendRequest _) => true | _ => false end
  | TcpConnected req status =>
      match w_requests w !! req with
      | Some (TcpConnectRequest h _ true) => is_open_in h w || bool_decide (status = UV_ECANCELED)
      | _ => false
      end
  | TcpWritten req status =>
      match w_requests w !! req with
      | Some (TcpWriteRequest h _) => is_open_in h w || bool_decide (status = UV_ECANCELED)
      | _ => false
      end
  | UdpReadable h _ =>
      is_open_in h w && match w_handles w !! h with
                        | Some x => match uh_read x with Some on_read_ptr | Some socket_listen_callback_ptr => true | _ => false end
                        | None => false
                        end
  | TcpReadable h _ =>
      is_open_in h w && match w_handles w !! h with
                        | Some x => match uh_read x with Some tcp_on_read_ptr => true | _ => false end
                        | None => false
                        end
  | NewStream h _ =>
      is_open_in h w && match w_handles w !! h with Some x => uh_listening x | None => false end
  | PollReadable h _ _ _ _ => is_open_in h w && reads_with poll_recv_cb_ptr h w
  | TimerFired h => is_open_in h w && reads_with on_socket_timer_ptr h w
  | CloseFinished h =>
      match phase_of h w with Some (HandleClosing _) => no_requests_on h w | _ => false end
  end.

Section loop.
Context `{!Picoquic, !SocketImpl, !CloseImpl, !Framers, !HashOrder}.

Definition run_close_cb (cb : close_cb) (h : id) : M world unit :=
  match cb with
  | closed_handle_cb_ptr => closed_handle_cb h
  | socket_closed_success_ptr => socket_closed_success h
  | on_abort_ptr => on_abort h
  | on_stop_listen_ptr => on_stop_listen h
  | on_libuv_close_ptr => on_libuv_close h
  | on_libuv_close_after_error_ptr => on_libuv_close_after_error h
  | socket_timer_close_cb_ptr => socket_timer_close_cb h
  | quic_closed_poll_handle_cb_ptr => quic_closed_poll_handle_cb h
  end.

(** The loop no longer refers to the handle when it runs the callback. *)
Definition handle_closed (h : id) : M world unit :=
  x ← handle_at h;
  match uh_phase x with
  | HandleClosing cb =>
      update_handle h (set_phase HandleClosed) ;;
      match cb with Some cb => run_close_cb cb h | None => mret tt end
  | _ => ub "the handle is not closing"
  end.

Definition run_event (e : loop_event) : M world unit :=
  match e with
  | UdpSent req status => on_send req status
  | TcpConnected req status => tcp_connected req status
  | TcpWritten req status => on_write req status
  | UdpReadable h r => udp_readable h r
  | TcpReadable h r => tcp_readable h r
  | NewStream h status => new_stream_connection_cb h status
  | PollReadable h status readable r cnx => poll_recv_cb h status readable r cnx
  | TimerFired h => timer_fired h
  | CloseFinished h => handle_closed h
  end.
End loop.
