(* ===== verification/ConnectionFacts.v ===== *)
(** Connections: correctness.

    Symbolic execution rules for the objects of World, then the properties of
    src/src/connection/connection.c: messages and receive callbacks meet in
    order, endpoints are set without duplicates, sending copies what it is
    given and respects the end of the stream, and a connection that is created
    and freed leaves nothing behind. *)

From S2P Require Export Connections.
Open Scope Z_scope.

(** ** Symbolic execution *)

Lemma wp_connection_at c conn (Q : ct_connection -> world -> Prop) w :
  w_connections w !! c = Some conn -> Q conn w -> wp (connection_at c) Q w.
Proof. intros Hc HQ. unfold connection_at. by wp_steps. Qed.

Lemma wp_update_connection c f conn (Q : unit -> world -> Prop) w :
  w_connections w !! c = Some conn -> Q tt (set_w_connections (<[c := f conn]> (w_connections w)) w) ->
  wp (update_connection c f) Q w.
Proof. intros Hc HQ. unfold update_connection. wp_steps. eapply wp_connection_at; [exact Hc|]. by wp_steps. Qed.

Lemma wp_manager_at m sm (Q : ct_socket_manager -> world -> Prop) w :
  w_managers w !! m = Some sm -> Q sm w -> wp (manager_at m) Q w.
Proof. intros Hm HQ. unfold manager_at. by wp_steps. Qed.

Lemma wp_update_manager m f sm (Q : unit -> world -> Prop) w :
  w_managers w !! m = Some sm -> Q tt (set_w_managers (<[m := f sm]> (w_managers w)) w) ->
  wp (update_manager m f) Q w.
Proof. intros Hm HQ. unfold update_manager. wp_steps. eapply wp_manager_at; [exact Hm|]. by wp_steps. Qed.

Lemma wp_group_at g gr (Q : ct_connection_group -> world -> Prop) w :
  w_groups w !! g = Some gr -> Q gr w -> wp (group_at g) Q w.
Proof. intros Hg HQ. unfold group_at. by wp_steps. Qed.

Lemma wp_update_group g f gr (Q : unit -> world -> Prop) w :
  w_groups w !! g = Some gr -> Q tt (set_w_groups (<[g := f gr]> (w_groups w)) w) -> wp (update_group g f) Q w.
Proof. intros Hg HQ. unfold update_group. wp_steps. eapply wp_group_at; [exact Hg|]. by wp_steps. Qed.

Lemma wp_on_heap {A} (m : M heap A) (Q : A -> world -> Prop) w :
  wp m (fun a h => Q a (set_w_heap h w)) (w_heap w) -> wp (on_heap m) Q w.
Proof. intros H. by apply wp_zoom. Qed.

(** The fields of a world after some have been set. *)
Ltac world_simpl :=
  cbn [w_heap w_next w_connections w_groups w_managers w_listeners w_handles w_requests w_uv w_names w_entropy
    w_uuid_counter w_time w_calls w_quic set_w_quic set_w_heap set_w_next set_w_connections set_w_groups set_w_managers set_w_listeners
    set_w_handles set_w_requests set_w_uv set_w_names set_w_entropy set_w_uuid_counter set_w_calls].

(** A computation that frees, or that allocates when memory suffices. *)
Lemma wp_heap_frees (m : M heap unit) n (Q : unit -> world -> Prop) w :
  frees m n ->
  Q tt (set_w_heap (Heap (h_oracle (w_heap w)) (h_live (w_heap w) - n)) w) ->
  wp (on_heap m) Q w.
Proof. intros Hm HQ. apply wp_on_heap. by eapply wp_frees. Qed.

Lemma wp_heap_allocs {A} (m : M heap A) P n (Q : A -> world -> Prop) w :
  oracle_ok (w_heap w) -> allocs m P n ->
  (forall a h', P a -> oracle_ok h' -> h_live h' = h_live (w_heap w) + n a -> Q a (set_w_heap h' w)) ->
  wp (on_heap m) Q w.
Proof.
  intros Ho Hm HQ. apply wp_on_heap. eapply wp_mono; [by apply Hm|]. intros a h' (HP & Ho' & Hl). by apply HQ.
Qed.

(** ** Messages and receive callbacks *)

(** The application asks for messages; the protocol delivers them. *)
Inductive exchange : Type :=
| Receive (callbacks : ct_receive_callbacks)
| Deliver (message : ct_message) (context : ct_message_context).

Definition run_exchange (c : id) (e : exchange) : M world unit :=
  match e with
  | Receive cbs => ct_receive_message (Some c) (Some cbs) ;; mret tt
  | Deliver m ctx => ct_connection_deliver_to_app c (Some m) (Some ctx)
  end.

Definition receives (es : list exchange) : list ct_receive_callbacks :=
  omap (fun e => match e with Receive cbs => Some cbs | _ => None end) es.
Definition deliveries (es : list exchange) : list (ct_message * ct_message_context) :=
  omap (fun e => match e with Deliver m ctx => Some (m, ctx) | _ => None end) es.

(** The call of a receive callback with a message. *)
Definition handed_over (c : id) (cbs : ct_receive_callbacks) (m : ct_message * ct_message_context) : call :=
  CallReceive (default (user_fn 0) (rcb_receive_callback cbs)) c m.1
    (set_receive_context (rcb_per_receive_context cbs) m.2).

(** The blocks of a message with its context. *)
Definition delivered_blocks (m : ct_message * ct_message_context) : Z := msg_blocks m.1 + 1.

Definition set_queues (rs : list ct_receive_callbacks) (ms : list (ct_message * ct_message_context))
    (conn : ct_connection) : ct_connection :=
  set_cn_received_callbacks (Some rs)
    (set_cn_received_messages (Some ((fun m => Some (QueuedMessage m.1 (Some m.2))) <$> ms)) conn).

(** The state when [rs] and [ms] have been given: the pairs that have met, in
    order, and what waits. *)
Definition exchanged (c : id) (conn : ct_connection) (w : world) (rs : list ct_receive_callbacks)
    (ms : list (ct_message * ct_message_context)) (w' : world) : Prop :=
  exists h', oracle_ok h' /\
    h_live h' = h_live (w_heap w) + Z.of_nat (length (drop (length ms) rs)) + Z.of_nat (length (drop (length rs) ms))
                - zsum (delivered_blocks <$> take (length rs) ms) /\
    w' = set_w_heap h' (set_w_calls (w_calls w ++ zip_with (handed_over c) rs ms)
           (set_w_connections (<[c := set_queues (drop (length ms) rs) (drop (length rs) ms) conn]> (w_connections w)) w)).

(** One more on one side of a pairing. *)
Lemma zip_snoc_l {A B C} (f : A -> B -> C) l a k :
  zip_with f (l ++ [a]) k = zip_with f l k ++ match k !! length l with Some b => [f a b] | None => [] end.
Proof.
  revert k. induction l as [|x l IH]; intros [|b k]; cbn; [done|by destruct k|done|]. by rewrite IH.
Qed.

Lemma zip_snoc_r {A B C} (f : A -> B -> C) l b k :
  zip_with f l (k ++ [b]) = zip_with f l k ++ match l !! length k with Some a => [f a b] | None => [] end.
Proof.
  revert k. induction l as [|x l IH]; intros [|y k]; cbn; [done..|by destruct l|]. by rewrite IH.
Qed.

Lemma drop_cons {A} n (l : list A) x : l !! n = Some x -> drop n l = x :: drop (S n) l.
Proof. intros H. by rewrite (drop_S _ _ _ H). Qed.


Lemma allocs_queued m ctx :
  allocs (ct_queued_message_new (Some m) ctx) (eq (Some (QueuedMessage m ctx))) (fun _ => 1).
Proof.
  eapply allocs_bind; [apply allocs_malloc|]. intros ? <-. apply allocs_ret; [done|]. lia.
Qed.

Lemma wp_receive c conn w rs ms cbs w1 :
  w_connections w !! c = Some conn -> is_Some (rcb_receive_callback cbs) -> exchanged c conn w rs ms w1 ->
  wp (run_exchange c (Receive cbs)) (fun _ w2 => exchanged c conn w (rs ++ [cbs]) ms w2) w1.
Proof.
  intros Hc [fn Hfn] (h1 & Ho & Hl & ->). cbn [run_exchange ct_receive_message]. wp_steps.
  eapply wp_connection_at; [by apply lookup_insert_eq|]. cbn [set_queues cn_received_messages cn_received_callbacks
    set_cn_received_messages set_cn_received_callbacks].
  unfold exchanged. rewrite zip_snoc_l, length_app. cbn [length].
  destruct (ms !! length rs) as [m|] eqn:Hm.
  - (* a message is waiting *)
    assert (Hlt : (length rs < length ms)%nat) by (by eapply lookup_lt_Some).
    assert (H2 : drop (length ms) (rs ++ [cbs]) = []) by (apply drop_ge; rewrite length_app; cbn; lia).
    rewrite (drop_ge rs) in * by lia. rewrite (drop_cons _ _ _ Hm) in *. rewrite H2, Nat.add_1_r.
    cbn [fmap list_fmap]. wp_steps.
    eapply wp_update_connection; [by apply lookup_insert_eq|]. world_simpl. rewrite insert_insert_eq. wp_steps. cbn [qm_context qm_message].
    wp_steps. rewrite Hfn. unfold record_call. wp_steps.
    eapply wp_heap_frees; [apply frees_queued|]. wp_steps. eexists (Heap _ _).
    split; [exact Ho|split; [|unfold handed_over; by rewrite Hfn, app_assoc]].
    rewrite (take_S_r _ _ _ Hm), fmap_app, zsum_app. cbn in *. rewrite Hl. unfold delivered_blocks, queued_blocks. cbn. lia.
  - (* none is waiting *)
    apply lookup_ge_None in Hm. rewrite (drop_ge ms (length rs)) by done. rewrite (drop_ge ms (length rs)) in Hl by done.
    cbn [fmap list_fmap]. wp_steps. eapply wp_heap_allocs; [exact Ho|apply allocs_malloc|]. intros ? h2 <- Ho2 Hl2. cbn [negb]. wp_steps.
    eapply wp_update_connection; [by apply lookup_insert_eq|]. world_simpl. rewrite insert_insert_eq. wp_steps. exists h2. split_and!; [exact Ho2| |].
    + rewrite Hl2. cbn. rewrite Hl, drop_app_le, (drop_ge ms), length_app, !firstn_all2 by (cbn; lia). cbn. lia.
    + by rewrite drop_app_le, (drop_ge ms), app_nil_r by (cbn; lia).
Qed.

Lemma wp_deliver_to_app c conn w rs ms m ctx w1 :
  w_connections w !! c = Some conn -> Forall (fun cbs => is_Some (rcb_receive_callback cbs)) rs ->
  exchanged c conn w rs ms w1 ->
  wp (run_exchange c (Deliver m ctx)) (fun _ w2 => exchanged c conn w rs (ms ++ [(m, ctx)]) w2) w1.
Proof.
  intros Hc Hrs (h1 & Ho & Hl & ->). cbn [run_exchange]. unfold ct_connection_deliver_to_app. wp_steps.
  eapply wp_connection_at; [by apply lookup_insert_eq|]. cbn [set_queues cn_received_messages cn_received_callbacks
    set_cn_received_messages set_cn_received_callbacks]. wp_steps.
  unfold exchanged. rewrite zip_snoc_r, length_app. cbn [length].
  destruct (rs !! length ms) as [cbs|] eqn:Hr.
  - (* a callback is waiting *)
    assert (Hlt : (length ms < length rs)%nat) by (by eapply lookup_lt_Some).
    destruct (proj1 (Forall_lookup _ _) Hrs _ _ Hr) as [fn Hfn].
    assert (H2 : drop (length rs) (ms ++ [(m, ctx)]) = []) by (apply drop_ge; rewrite length_app; cbn; lia).
    rewrite (drop_ge ms) in * by lia. rewrite (drop_cons _ _ _ Hr) in *. rewrite H2, Nat.add_1_r. wp_steps.
    eapply wp_update_connection; [by apply lookup_insert_eq|]. world_simpl. rewrite insert_insert_eq. wp_steps.
    unfold record_call. wp_steps.
    eapply wp_heap_frees; [apply frees_block|]. wp_steps. eapply wp_heap_frees; [apply frees_context|]. wp_steps.
    eapply wp_heap_frees; [apply frees_message_opt|]. eexists (Heap _ _).
    split; [exact Ho|split; [|unfold handed_over; by rewrite Hfn, app_assoc]].
    rewrite !firstn_all2 in * by (rewrite ?length_app; cbn; lia). rewrite fmap_app, zsum_app. cbn in *. rewrite Hl.
    unfold delivered_blocks. cbn. lia.
  - (* none is waiting *)
    apply lookup_ge_None in Hr. rewrite (drop_ge rs (length ms)) by done. rewrite (drop_ge rs (length ms)) in Hl by done.
    wp_steps. eapply wp_heap_allocs; [exact Ho|apply allocs_queued|]. intros ? h2 <- Ho2 Hl2. wp_steps.
    eapply wp_update_connection; [by apply lookup_insert_eq|]. world_simpl. rewrite insert_insert_eq. exists h2.
    split_and!; [exact Ho2| |].
    + rewrite Hl2. cbn. rewrite Hl, drop_app_le, (drop_ge rs), length_app, take_app_le by lia. cbn. lia.
    + unfold set_queues. rewrite drop_app_le, (drop_ge rs), app_nil_r, fmap_app by lia. done.
Qed.

(** C25: messages and receive callbacks meet in order.  However the calls of
    [ct_receive_message] and the deliveries by the protocol are interleaved,
    the first callback gets the first message, the second the second, and so
    on, each as soon as both are there and exactly once; what has no partner
    waits in its queue; and of the memory, the messages and contexts that were
    handed over have been freed, and one block is kept for everything that
    waits. *)
Theorem messages_match_receives c conn w es :
  oracle_ok (w_heap w) -> w_connections w !! c = Some conn ->
  cn_received_callbacks conn = Some [] -> cn_received_messages conn = Some [] ->
  Forall (fun cbs => is_Some (rcb_receive_callback cbs)) (receives es) ->
  wp (for_each es (run_exchange c)) (fun _ w' =>
    let rs := receives es in
    let ms := deliveries es in
    w_calls w' = w_calls w ++ zip_with (handed_over c) rs ms /\
    w_connections w' = <[c := set_queues (drop (length ms) rs) (drop (length rs) ms) conn]> (w_connections w) /\
    h_live (w_heap w') = h_live (w_heap w) + Z.of_nat (length rs - length ms) + Z.of_nat (length ms - length rs)
      - zsum (delivered_blocks <$> take (length rs) ms)) w.
Proof.
  intros Ho Hc Hrs Hms Hfns.
  assert (Hall : wp (for_each es (run_exchange c))
            (fun _ w' => exchanged c conn w (receives es) (deliveries es) w') w).
  { apply (wp_for_each (run_exchange c) (fun seen _ w' => exchanged c conn w (receives seen) (deliveries seen) w')).
    - exists (w_heap w). split; [done|]. split; [cbn; lia|]. cbn. rewrite app_nil_r, insert_id; [by destruct w|].
      rewrite Hc. f_equal. destruct conn. cbn in *. by subst.
    - intros seen e todo s -> Hs. unfold receives, deliveries in *. rewrite !omap_app in *.
      apply Forall_app in Hfns as [Hseen Htodo]. destruct e as [cbs|m ctx]; cbn in Htodo |- *; rewrite ?app_nil_r.
      + apply Forall_cons_1 in Htodo as [Hcb _]. by apply wp_receive.
      + by apply wp_deliver_to_app. }
  eapply wp_mono; [exact Hall|]. intros [] w' (h' & _ & Hl & ->). cbn. split_and!; [done..|].
  by rewrite Hl, !length_drop.
Qed.

Lemma messages_match_receives_witness :
  let conn := Connection [] None None 0 None 0 None CT_CONN_STATE_ESTABLISHED 100 true true None None
                CT_CONNECTION_ROLE_CLIENT no_connection_callbacks None (Some []) (Some []) false in
  let w := World (Heap [] 0) 2%positive {[1%positive := conn]} ∅ ∅ ∅ ∅ ∅ [] [] [] 0 0 [] quic_empty in
  let m n := Message (Some [n]) 1 in
  let ctx := MessageContext DEFAULT_MESSAGE_PROPERTIES None None None in
  let cb n := ReceiveCallbacks (Some (user_fn n)) (Some n) in
  let es := [Deliver (m 7) ctx; Receive (cb 1); Receive (cb 2); Deliver (m 8) ctx; Deliver (m 9) ctx] in
  wp (for_each es (run_exchange 1%positive)) (fun _ w' =>
    let rs := receives es in
    let ms := deliveries es in
    w_calls w' = w_calls w ++ zip_with (handed_over 1%positive) rs ms /\
    w_connections w' = <[1%positive := set_queues (drop (length ms) rs) (drop (length rs) ms) conn]> (w_connections w) /\
    h_live (w_heap w') = h_live (w_heap w) + Z.of_nat (length rs - length ms) + Z.of_nat (length ms - length rs)
      - zsum (delivered_blocks <$> take (length rs) ms)) w.
Proof.
  intros conn w m ctx cb es.
  apply messages_match_receives; [by constructor|done..|]. repeat constructor; by eexists.
Defined.

(** ** The active remote endpoint *)

Definition same_address (x y : ct_remote_endpoint) : bool := ct_remote_endpoint_resolved_equals (Some x) (Some y).

(** No two endpoints have the same address. *)
Definition distinct_addresses (l : list ct_remote_endpoint) : Prop :=
  forall i j x y, l !! i = Some x -> l !! j = Some y -> (i < j)%nat -> same_address x y = false.

(** The connection, with other remote endpoints. *)
Definition with_remotes (l : option (list ct_remote_endpoint)) (active : nat) (conn : ct_connection) : ct_connection :=
  set_cn_active_remote_endpoint active (set_cn_all_remote_endpoints l conn).

Lemma same_address_refl e : is_inet (re_resolved_address e) = true -> same_address e e = true.
Proof. apply ct_sockaddr_equal_refl. Qed.

Lemma same_address_sym x y : same_address x y = same_address y x.
Proof. apply ct_sockaddr_equal_sym. Qed.

(** What one call does: the endpoint is found, or added, or memory is
    exhausted. *)
Lemma wp_set_active_remote c conn e w :
  w_connections w !! c = Some conn -> is_inet (re_resolved_address e) = true ->
  wp (ct_connection_set_active_remote_endpoint c e) (fun r w' =>
    exists h' conn', w' = set_w_heap h' (set_w_connections (<[c := conn']> (w_connections w)) w) /\
      ((exists i, find_index (same_address e) (remote_list conn) = Some i /\ h' = w_heap w /\
          r = (0, Some (negb (bool_decide (i = cn_active_remote_endpoint conn)))) /\
          conn' = with_remotes (cn_all_remote_endpoints conn) i conn) \/
       (find_index (same_address e) (remote_list conn) = None /\ r = (0, Some true) /\
          conn' = with_remotes (Some (remote_list conn ++ [e])) (length (remote_list conn)) conn) \/
       (find_index (same_address e) (remote_list conn) = None /\ r.1 <> 0 /\ ~ oracle_ok (w_heap w) /\
          remote_list conn' = remote_list conn /\
          conn' = with_remotes (cn_all_remote_endpoints conn') (cn_active_remote_endpoint conn) conn))) w.
Proof.
  intros Hc He. unfold ct_connection_set_active_remote_endpoint. wp_steps; [done|]. wp_steps.
  eapply wp_connection_at; [exact Hc|]. fold (same_address e).
  change (fun e0 => ct_remote_endpoint_resolved_equals (Some e) (Some e0)) with (same_address e).
  destruct (find_index _ _) as [i|] eqn:Hi; wp_steps.
  - eapply wp_update_connection; [exact Hc|]. wp_steps. exists (w_heap w). eexists. split; [by destruct w|]. left. exists i.
    split_and!; [done..|]. by destruct conn.
  - apply wp_on_heap, wp_realloc. intros b o Ho. destruct b; cbn [negb].
    2: { wp_steps. eexists _, conn. split; [by rewrite insert_id by exact Hc; destruct w|]. right; right. split_and!; [done|cbn; unfold ENOMEM; lia| |done|by destruct conn].
         intros Hh. by destruct (Ho Hh). }
    wp_steps. apply wp_on_heap. eapply wp_mono; [apply copies_remote|]. world_simpl.
    intros [rc e'] h' [(-> & -> & _)|(Hrc & _ & Hno)].
    + wp_steps. cbn [Z.eqb negb]. wp_steps. eapply wp_update_connection; [exact Hc|]. world_simpl. unfold ct_connection_set_active_remote_endpoint_index. wp_steps.
      eapply wp_connection_at; [apply lookup_insert_eq|]. wp_steps.
      { apply bool_decide_eq_true. unfold remote_list at 2. cbn. rewrite length_app. cbn. lia. }
      eapply wp_update_connection; [apply lookup_insert_eq|]. wp_steps. world_simpl. rewrite insert_insert_eq.
      exists h'. eexists. split; [done|]. right; left. by destruct conn.
    + wp_steps. rewrite (proj2 (Z.eqb_neq _ _) Hrc). cbn [negb]. wp_steps. eapply wp_update_connection; [exact Hc|]. wp_steps.
      exists h'. eexists. split; [done|]. right; right. cbn. split_and!; [done..| |done|by destruct conn].
      intros Hh. apply Hno. by apply Ho.
Qed.

(** Setting the active remote endpoint.  When the call succeeds, the
    connection's endpoints are what they were, possibly with the new one at
    the end; still no two have the same address; the active one exists and
    has the given address; [changed] says whether the address of the active
    endpoint was another one before; nothing else of the connection changes,
    and setting the same endpoint again changes nothing.  When memory is
    exhausted the endpoints and the active one are what they were. *)
Theorem set_active_remote_endpoint_spec c conn e y w :
  w_connections w !! c = Some conn -> is_inet (re_resolved_address e) = true ->
  distinct_addresses (remote_list conn) -> remote_list conn !! cn_active_remote_endpoint conn = Some y ->
  wp (ct_connection_set_active_remote_endpoint c e) (fun r w' => exists conn',
    w_connections w' = <[c := conn']> (w_connections w) /\
    conn' = with_remotes (cn_all_remote_endpoints conn') (cn_active_remote_endpoint conn') conn /\
    (r.1 = 0 /\ r.2 = Some (negb (same_address e y)) /\
       remote_list conn `prefix_of` remote_list conn' /\ distinct_addresses (remote_list conn') /\
       (exists x, remote_list conn' !! cn_active_remote_endpoint conn' = Some x /\ same_address e x = true) /\
       wp (ct_connection_set_active_remote_endpoint c e)
         (fun r' w'' => r' = (0, Some false) /\ w_connections w'' = w_connections w') w' \/
     r.1 <> 0 /\ ~ oracle_ok (w_heap w) /\ remote_list conn' = remote_list conn /\
       cn_active_remote_endpoint conn' = cn_active_remote_endpoint conn)) w.
Proof.
  intros Hc He Hd Hy. eapply wp_mono; [by apply wp_set_active_remote|].
  intros r w' (h' & conn' & -> & Hcases). exists conn'. split; [done|].
  assert (Hagain : forall j, find_index (same_address e) (remote_list conn') = Some j -> cn_active_remote_endpoint conn' = j ->
    wp (ct_connection_set_active_remote_endpoint c e)
      (fun r' w'' => r' = (0, Some false) /\ w_connections w'' = <[c := conn']> (w_connections w))
      (set_w_heap h' (set_w_connections (<[c := conn']> (w_connections w)) w))).
  { intros j Hj <-. eapply wp_mono; [apply wp_set_active_remote; [apply lookup_insert_eq|done]|].
    intros r' w'' (h'' & conn'' & -> & [(k & Hk & _ & -> & ->)|[(Hno & _)|(Hno & _)]]); [|congruence..].
    replace k with (cn_active_remote_endpoint conn') by congruence. rewrite bool_decide_true by done. split; [done|].
    world_simpl. rewrite insert_insert_eq. by destruct conn'. }
  destruct Hcases as [(i & Hi & _ & -> & ->)|[(Hno & -> & ->)|(Hno & Hr & Ho & Hl & Hconn)]].
  - split; [by destruct conn|]. left. pose proof (find_index_Some _ _ _ Hi) as (x & Hx & Hex & _).
    assert (Hb : bool_decide (i = cn_active_remote_endpoint conn) = same_address e y).
    { destruct (same_address e y) eqn:Hey.
      - apply bool_decide_eq_true. assert (Hxy : same_address x y = true).
        { rewrite same_address_sym in Hex. unfold same_address, ct_remote_endpoint_resolved_equals in *.
          by eapply ct_sockaddr_equal_trans. }
        destruct (lt_eq_lt_dec i (cn_active_remote_endpoint conn)) as [[Hlt|]|Hlt]; [|done|].
        + by rewrite (Hd _ _ _ _ Hx Hy Hlt) in Hxy.
        + rewrite same_address_sym in Hxy. by rewrite (Hd _ _ _ _ Hy Hx Hlt) in Hxy.
      - apply bool_decide_eq_false. intros ->. congruence. }
    rewrite Hb. split_and!; [done|done|done|exact Hd|by exists x|by eapply Hagain].
  - split; [by destruct conn|]. left. pose proof (proj1 (find_index_None _ _) Hno) as Hnone.
    assert (Hlast : (remote_list conn ++ [e]) !! length (remote_list conn) = Some e) by (by rewrite list_lookup_middle).
    split_and!; [done| |by apply prefix_app_r| | |].
    + by rewrite (Hnone y) by (by eapply list_elem_of_lookup_2).
    + intros i j a b Ha Hb Hij. cbn in Ha, Hb. unfold remote_list in Ha, Hb. cbn in Ha, Hb.
      change (default [] (cn_all_remote_endpoints conn)) with (remote_list conn) in Ha, Hb.
      apply lookup_snoc_Some in Ha as [[Hi Ha]|[Hi <-]], Hb as [[Hj Hb]|[Hj <-]]; [by eapply Hd| |lia..].
      rewrite same_address_sym. apply Hnone. by eapply list_elem_of_lookup_2.
    + exists e. split; [exact Hlast|by apply same_address_refl].
    + eapply Hagain; [|done]. apply find_index_first with e; [exact Hlast|by apply same_address_refl|].
      intros j a Hj Ha. unfold remote_list in Ha; cbn in Ha, Hj.
      change (default [] (cn_all_remote_endpoints conn)) with (remote_list conn) in Ha.
      rewrite lookup_app_l in Ha by done. apply Hnone. by eapply list_elem_of_lookup_2.
  - split; [by rewrite Hconn; cbn; destruct conn|]. right. rewrite Hl. split_and!; [done..|by rewrite Hconn].
Qed.

Lemma set_active_remote_endpoint_spec_witness :
  let e p := RemoteEndpoint p None None (set_port p loopback_v4) in
  let conn := Connection [] None None 0 None 1 (Some [e 80; e 81]) CT_CONN_STATE_ESTABLISHED 100 true true None None
                CT_CONNECTION_ROLE_CLIENT no_connection_callbacks None (Some []) (Some []) false in
  let w := World (Heap [] 0) 2%positive {[1%positive := conn]} ∅ ∅ ∅ ∅ ∅ [] [] [] 0 0 [] quic_empty in
  wp (ct_connection_set_active_remote_endpoint 1%positive (e 443)) (fun r w' => exists conn',
    w_connections w' = <[1%positive := conn']> (w_connections w) /\
    conn' = with_remotes (cn_all_remote_endpoints conn') (cn_active_remote_endpoint conn') conn /\
    (r.1 = 0 /\ r.2 = Some (negb (same_address (e 443) (e 81))) /\
       remote_list conn `prefix_of` remote_list conn' /\ distinct_addresses (remote_list conn') /\
       (exists x, remote_list conn' !! cn_active_remote_endpoint conn' = Some x /\ same_address (e 443) x = true) /\
       wp (ct_connection_set_active_remote_endpoint 1%positive (e 443))
         (fun r' w'' => r' = (0, Some false) /\ w_connections w'' = w_connections w') w' \/
     r.1 <> 0 /\ ~ oracle_ok (w_heap w) /\ remote_list conn' = remote_list conn /\
       cn_active_remote_endpoint conn' = cn_active_remote_endpoint conn)) w.
Proof.
  intros e conn w. apply set_active_remote_endpoint_spec; [done|done| |done].
  intros [|[|i]] [|[|j]] x y Hx Hy Hij; cbn in *; try lia; try done.
  injection Hx as <-. injection Hy as <-. by vm_compute.
Defined.
