(* ===== verification/Opening.v ===== *)
(** Opening a connection.

    Rules that execute [ct_connection_create_client], the socket layer's
    address resolution and [udp_init] symbolically, in worlds where memory
    suffices: what each operation leaves in the tables, how many blocks it
    allocates and which callback it calls. *)

From S2P Require Export ConnectionFacts Gathering Loop.
Open Scope Z_scope.

(** ** Creation *)

Lemma wp_generate_uuid (Q : list Ascii.ascii -> world -> Prop) w :
  (forall u en k, Q u (set_w_uuid_counter k (set_w_entropy en w))) -> wp generate_uuid Q w.
Proof.
  intros HQ. unfold generate_uuid, generate_uuid_string. wp_steps.
  destruct (w_entropy w) as [|r l] eqn:He; wp_steps.
  - specialize (HQ (format_uuid (set_version_variant (le64_bytes (w_time w) ++ le64_bytes (w_uuid_counter w))))
      [] (u64 (w_uuid_counter w + 1))). rewrite <- He in HQ. by destruct w.
  - specialize (HQ (format_uuid (set_version_variant r)) l (w_uuid_counter w)). by destruct w.
Qed.

Definition empty_connection (u : list Ascii.ascii) : ct_connection :=
  Connection u None None 0 None 0 None CT_CONN_STATE_ESTABLISHING CT_CONNECTION_DEFAULT_PRIORITY false false
    None None CT_CONNECTION_ROLE_CLIENT no_connection_callbacks None (Some []) (Some []) false.

Lemma wp_create_empty (Q : option id -> world -> Prop) w :
  oracle_ok (w_heap w) ->
  (forall h u en k, oracle_ok h -> h_live h = h_live (w_heap w) + 1 ->
     Q (Some (w_next w)) (World h (Pos.succ (w_next w)) (<[w_next w := empty_connection u]> (w_connections w)) (w_groups w)
       (w_managers w) (w_listeners w) (w_handles w) (w_requests w) (w_uv w) (w_names w) en k (w_time w) (w_calls w) (w_quic w))) ->
  wp ct_connection_create_empty_with_uuid Q w.
Proof.
  intros Ho HQ. unfold ct_connection_create_empty_with_uuid, fresh_id. wp_steps.
  eapply wp_heap_allocs; [exact Ho|apply allocs_malloc|]. intros ? h <- Hoh Hl. cbn [negb]. wp_steps. world_simpl.
  apply wp_generate_uuid. intros u en k. wp_steps. world_simpl. by apply HQ.
Qed.

(** Properties and security parameters that can be copied. *)
Definition props_ok (t : ct_transport_properties) : Prop :=
  wf_selection (selection_properties t) /\ sets_ok (selection_properties t).
Definition sec_ok (s : option ct_security_parameters) : Prop := match s with Some s => wf_sec s | None => True end.
Definition opt_sec_blocks (s : option ct_security_parameters) : Z := match s with Some s => sec_blocks s | None => 0 end.

Lemma wp_group_new props (Q : option id -> world -> Prop) w :
  oracle_ok (w_heap w) -> props_ok props ->
  (forall h u tp en k, oracle_ok h -> wf_selection (selection_properties tp) ->
     h_live h = h_live (w_heap w) + 1 + tp_blocks tp ->
     Q (Some (w_next w)) (World h (Pos.succ (w_next w)) (w_connections w)
       (<[w_next w := ConnectionGroup u (Some []) 0 (Some tp) None]> (w_groups w))
       (w_managers w) (w_listeners w) (w_handles w) (w_requests w) (w_uv w) (w_names w) en k (w_time w) (w_calls w) (w_quic w))) ->
  wp (ct_connection_group_new (Some props)) Q w.
Proof.
  intros Ho [Hwf Hs] HQ. unfold ct_connection_group_new, fresh_id. wp_steps.
  eapply wp_heap_allocs; [exact Ho|apply allocs_malloc|]. intros ? h <- Hoh Hl. cbn [negb]. wp_steps.
  apply wp_generate_uuid. intros u en k. wp_steps.
  eapply wp_heap_allocs; [exact Hoh|by apply allocs_transport_deep_copy|].
  intros r h2 (tp & -> & Htp & _ & _) Hoh2 Hl2. world_simpl. wp_steps. world_simpl. apply HQ; [done|done|].
  change (h_live h2 = h_live h + tp_blocks tp) in Hl2. cbv beta in Hl. world_simpl. lia.
Qed.

(** A copy has the settings of the user. *)
Definition sec_copied (s c : option ct_security_parameters) : Prop :=
  match s, c with
  | Some s, Some c => wf_sec c /\ same_user_settings c s
  | None, None => True
  | _, _ => False
  end.
Lemma sec_copied_ok s c : sec_copied s c -> sec_ok c.
Proof. destruct s, c; cbn; tauto. Qed.

Lemma allocs_security_opt sec : sec_ok sec -> allocs (ct_security_parameters_deep_copy sec) (sec_copied sec) opt_sec_blocks.
Proof.
  destruct sec as [sec|]; intros H; [|by apply allocs_ret].
  eapply allocs_mono; [apply allocs_security_deep_copy, H|]. by intros r (c & -> & Hc & Hs).
Qed.

Lemma frees_security_opt sec : sec_ok sec -> frees (ct_security_parameters_free sec) (opt_sec_blocks sec).
Proof. destruct sec; [apply frees_security_parameters|intros _; apply frees_ret]. Qed.

Lemma allocs_framer f : allocs (ct_framer_impl_deep_copy f) (eq f) (fun f => if is_Some_b f then 1 else 0).
Proof.
  destruct f; [|by apply allocs_ret]. eapply allocs_bind; [apply allocs_malloc|]. intros ? <-. by apply allocs_ret.
Qed.

(** The objects of a new client connection. *)
Definition client_connection u (g m : id) sec locals i remotes j fr cbs : ct_connection :=
  Connection u (Some g) sec i (Some locals) j (Some remotes) CT_CONN_STATE_ESTABLISHING CT_CONNECTION_DEFAULT_PRIORITY
    false false None fr CT_CONNECTION_ROLE_CLIENT cbs (Some m) (Some []) (Some []) false.
Definition client_group gu u (c : id) tp : ct_connection_group := ConnectionGroup gu (Some [(u, c)]) 1 (Some tp) None.
Definition client_manager (impl : ct_protocol_impl) (c : id) (addr : sockaddr) : ct_socket_manager :=
  SocketManager None 1 [c]
    (if bool_decide (pi_enum impl = CT_PROTOCOL_UDP) then Some (match demux_key addr with Some k => [(k, c)] | None => [] end)
     else None) impl None CT_CLOSE_TYPE_GRACEFUL.

(** Adding the first member of a new group. *)
Lemma wp_add_to_group g c gr conn gu tp (Q : Z -> world -> Prop) w :
  w_connections w !! c = Some conn -> cn_connection_group conn = None ->
  w_groups w !! g = Some gr -> gr = ConnectionGroup gu (Some []) 0 (Some tp) None ->
  Q 0 (set_w_connections (<[c := set_cn_connection_group (Some g) conn]> (w_connections w))
        (set_w_groups (<[g := client_group gu (cn_uuid conn) c tp]> (w_groups w)) w)) ->
  wp (ct_connection_group_add_connection g c) Q w.
Proof.
  intros Hc Hg Hgr -> HQ. unfold ct_connection_group_add_connection. wp_steps.
  eapply wp_connection_at; [exact Hc|]. rewrite Hg. cbn [is_Some_b]. wp_steps. eapply wp_group_at; [exact Hgr|].
  cbn [gr_connections]. wp_steps. cbn [table_lookup list_find is_Some_b fmap option_fmap]. wp_steps.
  eapply wp_update_group; [exact Hgr|]. wp_steps. eapply wp_update_group; [apply lookup_insert_eq|]. world_simpl.
  rewrite insert_insert_eq. wp_steps. eapply wp_update_connection; [exact Hc|]. by wp_steps.
Qed.

Section lifecycle.
Context `{!Picoquic, !Framers, !HashOrder}.

Lemma inet_demux_key a : is_inet a = true -> exists k, demux_key a = Some k.
Proof.
  intros Hi%is_inet_spec. unfold demux_key. destruct Hi as [-> | ->]; cbn; by eexists.
Qed.

Lemma wp_insert_demuxed m c conn remote sm (Q : Z -> world -> Prop) w :
  w_connections w !! c = Some conn -> w_managers w !! m = Some sm -> sm_demux_table sm = Some [] ->
  is_inet (re_resolved_address remote) = true ->
  (forall k, demux_key (re_resolved_address remote) = Some k ->
     Q 0 (set_w_managers (<[m := set_sm_demux_table (Some [(k, c)]) sm]> (w_managers w)) w)) ->
  wp (socket_manager_insert_demuxed_connection m remote c) Q w.
Proof.
  intros Hc Hm Ht Hi HQ. unfold socket_manager_insert_demuxed_connection. wp_steps.
  eapply wp_connection_at; [exact Hc|]. destruct (inet_demux_key _ Hi) as [k Hk]. rewrite Hk. wp_steps.
  eapply wp_manager_at; [exact Hm|]. wp_steps. cbn. wp_steps. eapply wp_update_manager; [exact Hm|]. wp_steps. by apply HQ.
Qed.

Lemma wp_create_client impl locals i remotes j r props sec cbs fr (Q : option id -> world -> Prop) w :
  oracle_ok (w_heap w) -> remotes !! j = Some r -> is_inet (re_resolved_address r) = true ->
  props_ok props -> sec_ok sec ->
  let c := w_next w in
  let m := Pos.succ c in
  let g := Pos.succ m in
  (forall h u gu tp sec' en k,
     oracle_ok h -> wf_selection (selection_properties tp) -> sec_copied sec sec' ->
     h_live h = h_live (w_heap w) + 3 + tp_blocks tp + opt_sec_blocks sec' + (if is_Some_b fr then 1 else 0) ->
     Q (Some c) (World h (Pos.succ g) (<[c := client_connection u g m sec' locals i remotes j fr cbs]> (w_connections w))
       (<[g := client_group gu u c tp]> (w_groups w)) (<[m := client_manager impl c (re_resolved_address r)]> (w_managers w))
       (w_listeners w) (w_handles w) (w_requests w) (w_uv w) (w_names w) en k (w_time w) (w_calls w) (w_quic w))) ->
  wp (ct_connection_create_client impl (Some locals) i (Some remotes) j (Some props) sec (Some cbs) fr) Q w.
Proof.
  intros Ho Hr Hinet Hprops Hsec c m g HQ. unfold ct_connection_create_client. wp_steps.
  apply wp_create_empty; [exact Ho|]. intros h1 u en1 k1 Ho1 Hl1. fold c. wp_steps.
  eapply wp_update_connection; [apply lookup_insert_eq|]. world_simpl. rewrite insert_insert_eq. wp_steps.
  rewrite Hinet. cbn [negb]. unfold ct_socket_manager_new, fresh_id. wp_steps.
  eapply wp_heap_allocs; [exact Ho1|apply allocs_malloc|]. intros ? h2 <- Ho2 Hl2. cbn [negb]. wp_steps. world_simpl. wp_steps.
  world_simpl. fold m. apply wp_group_new; [exact Ho2|exact Hprops|]. world_simpl. fold g.
  intros h3 gu tp en3 k3 Ho3 Htp Hl3. wp_steps.
  eapply (wp_add_to_group g c); [apply lookup_insert_eq|done|apply lookup_insert_eq|done|]. world_simpl.
  rewrite !insert_insert_eq. cbn [Z.ltb Z.compare]. wp_steps.
  eapply wp_update_manager; [apply lookup_insert_eq|]. world_simpl. rewrite insert_insert_eq. wp_steps.
  unfold ct_socket_manager_ref. wp_steps. eapply wp_update_manager; [apply lookup_insert_eq|]. world_simpl.
  rewrite insert_insert_eq. wp_steps. eapply wp_update_connection; [apply lookup_insert_eq|]. world_simpl.
  rewrite insert_insert_eq. wp_steps. eapply wp_manager_at; [apply lookup_insert_eq|]. wp_steps.
  assert (Hrest : forall sm en k h, sm = client_manager impl c (re_resolved_address r) -> oracle_ok h -> h_live h = h_live h3 ->
    wp (copy_security c sec ;; set_callbacks c (Some cbs) ;; ok ← copy_framer c fr;
        if negb ok then ct_connection_free (Some c) ;; mret None else mret (Some c)) Q
      (World h (Pos.succ g) (<[c := client_connection u g m None locals i remotes j None no_connection_callbacks]> (w_connections w))
       (<[g := client_group gu u c tp]> (w_groups w)) (<[m := sm]> (w_managers w))
       (w_listeners w) (w_handles w) (w_requests w) (w_uv w) (w_names w) en k (w_time w) (w_calls w) (w_quic w))).
  { intros sm en k h -> Hoh Hlh. unfold copy_security. wp_steps.
    eapply wp_heap_allocs; [exact Hoh|by apply allocs_security_opt|]. intros sec' h4 Hsec' Ho4 Hl4. wp_steps.
    eapply wp_update_connection; [apply lookup_insert_eq|]. world_simpl. rewrite insert_insert_eq. cbn [set_callbacks]. wp_steps.
    eapply wp_update_connection; [apply lookup_insert_eq|]. world_simpl. rewrite insert_insert_eq. unfold copy_framer.
    destruct fr as [fr|]; wp_steps.
    - eapply wp_heap_allocs; [exact Ho4|apply allocs_framer|]. intros ? h5 <- Ho5 Hl5. wp_steps.
      eapply wp_update_connection; [apply lookup_insert_eq|]. world_simpl. rewrite insert_insert_eq. wp_steps. cbn [is_Some_b negb].
      wp_steps. apply HQ; [done|done|done|]. cbn in *. lia.
    - cbn [negb]. wp_steps. apply HQ; [done|done|done|]. cbn in *. lia. }
  unfold client_manager in Hrest. unfold sm_protocol. cbn [sm_protocol_impl set_sm_ref_count prepend_connection set_sm_all_connections].
  destruct (bool_decide (pi_enum impl = CT_PROTOCOL_UDP)).
  - eapply wp_insert_demuxed; [apply lookup_insert_eq|apply lookup_insert_eq|done|exact Hinet|]. intros k Hk. rewrite Hk in Hrest.
    world_simpl. rewrite insert_insert_eq. cbn [Z.ltb Z.compare]. by apply Hrest.
  - wp_steps. cbn [Z.ltb Z.compare]. by apply Hrest.
Qed.

(** ** Initialisation over UDP *)

Definition with_locals (l : list ct_local_endpoint) (active : nat) (conn : ct_connection) : ct_connection :=
  set_cn_active_local_endpoint active (set_cn_all_local_endpoints (Some l) conn).

Definition locals_blocks (l : list ct_local_endpoint) : Z := zsum (local_blocks <$> l).

Lemma wp_set_active_local c conn locals e (Q : Z * option bool -> world -> Prop) w :
  oracle_ok (w_heap w) -> w_connections w !! c = Some conn -> cn_all_local_endpoints conn = Some locals ->
  is_inet (le_resolved_address e) = true -> local_blocks e = 0 ->
  (forall ch h locals' i', oracle_ok h -> h_live h = h_live (w_heap w) -> locals_blocks locals' = locals_blocks locals ->
     is_Some (locals' !! i') ->
     Q (0, ch) (set_w_heap h (set_w_connections (<[c := with_locals locals' i' conn]> (w_connections w)) w))) ->
  wp (ct_connection_set_active_local_endpoint c e) Q w.
Proof.
  intros Ho Hc Hl Hi He HQ. unfold ct_connection_set_active_local_endpoint. wp_steps; [done|]. wp_steps.
  eapply wp_connection_at; [exact Hc|]. unfold local_list. rewrite Hl. cbn [default from_option is_Some_b negb].
  destruct (find_index _ _) as [k|] eqn:Hk; wp_steps.
  - eapply wp_update_connection; [exact Hc|]. wp_steps. apply find_index_lt in Hk.
    specialize (HQ (Some (negb (bool_decide (k = cn_active_local_endpoint conn)))) (w_heap w) locals k Ho eq_refl eq_refl).
    replace (set_cn_active_local_endpoint k conn) with (with_locals locals k conn) by (destruct conn; cbn in *; by subst).
    apply lookup_lt_is_Some in Hk. apply HQ in Hk. by destruct w.
  - eapply wp_heap_allocs; [exact Ho|apply allocs_realloc|]. intros ? h <- Hoh Hlh. cbn [negb]. wp_steps.
    eapply wp_heap_allocs; [exact Hoh|apply allocs_copies, copies_local|]. intros ? h2 <- Hoh2 Hlh2. cbn [Z.eqb negb]. wp_steps.
    eapply wp_update_connection; [exact Hc|]. world_simpl. unfold ct_connection_set_active_local_endpoint_index. wp_steps.
    eapply wp_connection_at; [apply lookup_insert_eq|]. wp_steps.
    { apply bool_decide_eq_true. unfold local_list. cbn. rewrite length_app. cbn. lia. }
    eapply wp_update_connection; [apply lookup_insert_eq|]. wp_steps. world_simpl. rewrite insert_insert_eq.
    apply (HQ _ h2 (locals ++ [e]) (length locals)); [done| | |].
    + cbn in Hlh, Hlh2. rewrite Hlh2, Hlh, He. lia.
    + unfold locals_blocks. rewrite fmap_app, zsum_app. cbn. lia.
    + rewrite list_lookup_middle by done. by eexists.
Qed.

(** libuv calls that succeed. *)
Definition uv_ok (w : world) : Prop := Forall (fun rc => 0 <= rc) (w_uv w).

Lemma wp_uv_rc (Q : Z -> world -> Prop) w :
  uv_ok w -> (forall rc uv, 0 <= rc -> Forall (fun rc => 0 <= rc) uv -> Q rc (set_w_uv uv w)) -> wp uv_rc Q w.
Proof.
  intros Huv HQ. unfold uv_rc. wp_steps. unfold uv_ok in Huv. destruct (w_uv w) as [|rc l] eqn:He; wp_steps.
  - specialize (HQ 0 [] ltac:(lia) ltac:(done)). rewrite <- He in HQ. by destruct w.
  - apply Forall_cons_1 in Huv as [Hrc Hl]. by apply HQ.
Qed.

Lemma wp_handle_at h x (Q : uv_handle -> world -> Prop) w :
  w_handles w !! h = Some x -> Q x w -> wp (handle_at h) Q w.
Proof. intros Hh HQ. unfold handle_at. by wp_steps. Qed.

Lemma wp_update_handle h f x (Q : unit -> world -> Prop) w :
  w_handles w !! h = Some x -> Q tt (set_w_handles (<[h := f x]> (w_handles w)) w) -> wp (update_handle h f) Q w.
Proof. intros Hh HQ. unfold update_handle. wp_steps. eapply wp_handle_at; [exact Hh|]. by wp_steps. Qed.

Lemma wp_create_udp l cb (Q : option id -> world -> Prop) w :
  oracle_ok (w_heap w) -> uv_ok w -> is_inet (le_resolved_address l) = true ->
  (forall heap uv, oracle_ok heap -> h_live heap = h_live (w_heap w) + 1 -> Forall (fun rc => 0 <= rc) uv ->
     let h := w_next w in
     Q (Some h) (set_w_heap heap (set_w_next (Pos.succ h) (set_w_uv uv
       (set_w_handles (<[h := Handle None (Some cb) false HandleOpen (Some (udp_bind_address (Some l)))]> (w_handles w)) w))))) ->
  wp (create_udp_listening_on_local (Some l) cb) Q w.
Proof.
  intros Ho Huv Hi HQ. unfold create_udp_listening_on_local.
  replace (negb (ct_local_endpoint_get_resolved_port (Some l) =? 0) && _) with false.
  2: { apply is_inet_spec in Hi. cbn [ct_local_endpoint_get_address_family]. symmetry. apply andb_false_iff. right.
       destruct Hi as [-> | ->]; done. }
  wp_steps. eapply wp_heap_allocs; [exact Ho|apply allocs_malloc|]. intros ? h1 <- Ho1 Hl1. cbn [negb]. wp_steps.
  apply wp_uv_rc; [exact Huv|]. intros rc1 uv1 Hrc1 Huv1. rewrite (proj2 (Z.ltb_ge _ _) Hrc1). unfold new_handle, fresh_id. wp_steps.
  apply wp_uv_rc; [exact Huv1|]. intros rc2 uv2 Hrc2 Huv2. rewrite (proj2 (Z.ltb_ge _ _) Hrc2). wp_steps. world_simpl.
  eapply wp_update_handle; [apply lookup_insert_eq|]. wp_steps. world_simpl. rewrite insert_insert_eq.
  apply wp_uv_rc; [exact Huv2|]. intros rc3 uv3 Hrc3 Huv3. rewrite (proj2 (Z.ltb_ge _ _) Hrc3). wp_steps. world_simpl.
  eapply wp_update_handle; [apply lookup_insert_eq|]. wp_steps. world_simpl. rewrite insert_insert_eq. by apply (HQ h1 uv3).
Qed.

(** The local endpoint of an address. *)
Lemma local_of_sockaddr a :
  wf_sockaddr a -> is_inet a = true ->
  exists e, ct_local_endpoint_from_sockaddr ct_local_endpoint_build (Some a) = (0, e) /\
    is_inet (le_resolved_address e) = true /\ local_blocks e = 0.
Proof.
  intros Hwf Hi. unfold ct_local_endpoint_from_sockaddr. cbn [ct_local_endpoint_build le_service is_Some_b].
  apply is_inet_spec in Hi as Hf. destruct Hf as [Hf|Hf]; rewrite Hf; cbn [Z.eqb]; eexists; (split; [reflexivity|]).
  - split; [|done]. change (is_inet (memcpy SOCKADDR_IN_SIZE a sockaddr_zero) = true). apply is_inet_spec.
    rewrite memcpy_family by (done || apply wf_sockaddr_zero || (vm_compute; lia)). by left.
  - split; [|done]. change (is_inet (memcpy SOCKADDR_IN6_SIZE a sockaddr_zero) = true). apply is_inet_spec.
    rewrite memcpy_family by (done || apply wf_sockaddr_zero || (vm_compute; lia)). by right.
Qed.

Lemma set_port_blocks p l :
  locals_blocks ((fun e => set_le_resolved_address (set_port_if_inet p (le_resolved_address e)) e) <$> l) = locals_blocks l.
Proof. unfold locals_blocks. rewrite <- list_fmap_compose. by f_equal. Qed.

Definition names_ok (w : world) : Prop :=
  match w_names w with a :: _ => wf_sockaddr a /\ is_inet a = true | [] => False end.

Lemma wp_resolve_local h x c conn locals (Q : Z -> world -> Prop) w :
  oracle_ok (w_heap w) -> uv_ok w -> names_ok w -> w_handles w !! h = Some x ->
  w_connections w !! c = Some conn -> cn_all_local_endpoints conn = Some locals ->
  is_Some (locals !! cn_active_local_endpoint conn) ->
  (forall heap uv names locals' i', oracle_ok heap -> h_live heap = h_live (w_heap w) ->
     Forall (fun rc => 0 <= rc) uv -> locals_blocks locals' = locals_blocks locals -> is_Some (locals' !! i') ->
     Q 0 (set_w_heap heap (set_w_uv uv (set_w_names names
       (set_w_connections (<[c := with_locals locals' i' conn]> (w_connections w)) w))))) ->
  wp (resolve_local_endpoint_from_handle h c) Q w.
Proof.
  intros Ho Huv Hn Hh Hc Hl Hact HQ. unfold resolve_local_endpoint_from_handle, get_sockaddr_from_handle, uv_getname. wp_steps.
  eapply wp_handle_at; [exact Hh|]. wp_steps. apply wp_uv_rc; [exact Huv|]. intros rc uv Hrc Huv1.
  rewrite (proj2 (Z.ltb_ge _ _) Hrc). wp_steps. world_simpl. unfold names_ok in Hn.
  destruct (w_names w) as [|a names] eqn:Hnames; [done|]. destruct Hn as [Hwf Hi]. wp_steps.
  rewrite (proj2 (Z.ltb_ge _ _) Hrc). cbn [Z.eqb negb].
  destruct (local_of_sockaddr a Hwf Hi) as (e & -> & Hie & He). cbn [Z.eqb negb]. wp_steps.
  set (w1 := set_w_names names (set_w_uv uv w)).
  assert (Hport : forall heap locals' i', oracle_ok heap -> h_live heap = h_live (w_heap w) ->
    locals_blocks locals' = locals_blocks locals -> is_Some (locals' !! i') ->
    wp (ct_connection_set_all_local_port c (ct_local_endpoint_get_resolved_port (Some e)) ;; mret 0) Q
      (set_w_heap heap (set_w_connections (<[c := with_locals locals' i' conn]> (w_connections w)) w1))).
  { intros heap locals' i' Hoh Hlh Hb Hi'. unfold ct_connection_set_all_local_port. wp_steps.
    eapply wp_update_connection; [apply lookup_insert_eq|]. wp_steps. world_simpl. rewrite insert_insert_eq.
    eapply (HQ heap uv names (_ <$> locals') i'); [done|done|done|by rewrite set_port_blocks|by rewrite list_lookup_fmap, fmap_is_Some]. }
  destruct (ct_address_is_unspecified a); cbn [negb]; wp_steps; cbn [Z.eqb negb].
  - specialize (Hport (w_heap w) locals (cn_active_local_endpoint conn) Ho eq_refl eq_refl Hact).
    replace (with_locals locals (cn_active_local_endpoint conn) conn) with conn in Hport by (destruct conn; cbn in *; by subst).
    rewrite insert_id in Hport by done. by destruct w.
  - eapply wp_set_active_local; [exact Ho|exact Hc|exact Hl|exact Hie|exact He|].
    intros ch heap locals' i' Hoh Hlh Hb Hi'. wp_steps. cbn [fst Z.eqb negb]. by apply (Hport heap locals' i').
Qed.

(** The calls of a callback that may be NULL. *)
Definition called (fn : option callback_fn) (ev : connection_event) (c : id) : list call :=
  match fn with Some fn => [CallConnection fn ev (Some c)] | None => [] end.

Lemma wp_call_connection fn ev c (Q : unit -> world -> Prop) w :
  Q tt (set_w_calls (w_calls w ++ called fn ev c) w) -> wp (call_connection fn ev (Some c)) Q w.
Proof.
  intros HQ. destruct fn as [fn|]; cbn [call_connection called] in *; unfold record_call; wp_steps; [done|].
  rewrite app_nil_r in HQ. by destruct w.
Qed.

Definition established (conn : ct_connection) : ct_connection :=
  set_cn_can_receive true (set_cn_can_send true (set_cn_state CT_CONN_STATE_ESTABLISHED conn)).

Lemma wp_connection_ready c conn (Q : unit -> world -> Prop) w :
  w_connections w !! c = Some conn ->
  Q tt (set_w_calls (w_calls w ++ called (cb_ready (cn_callbacks conn)) Ready c)
         (set_w_connections (<[c := established conn]> (w_connections w)) w)) ->
  wp (ct_socket_manager_connection_ready_cb c) Q w.
Proof.
  intros Hc HQ. unfold ct_socket_manager_connection_ready_cb. cbn [ct_connection_mark_as_established].
  unfold ct_connection_set_can_send, ct_connection_set_can_receive, set_connection. wp_steps.
  eapply wp_update_connection; [exact Hc|]. wp_steps. world_simpl.
  eapply wp_update_connection; [apply lookup_insert_eq|]. world_simpl. rewrite insert_insert_eq. wp_steps.
  eapply wp_update_connection; [apply lookup_insert_eq|]. world_simpl. rewrite insert_insert_eq. wp_steps.
  eapply wp_connection_at; [apply lookup_insert_eq|]. by apply wp_call_connection.
Qed.

Definition udp_state (h : id) : option socket_state := Some (UdpSocketState (Some h)).
Definition udp_handle (m : id) (ph : handle_phase) (a : sockaddr) : uv_handle := Handle (Some m) (Some on_read_ptr) false ph (Some a).

Lemma wp_udp_init c m conn sm locals l (Q : Z -> world -> Prop) w :
  oracle_ok (w_heap w) -> uv_ok w -> names_ok w ->
  w_connections w !! c = Some conn -> cn_socket_manager conn = Some m -> w_managers w !! m = Some sm ->
  cn_all_local_endpoints conn = Some locals -> locals !! cn_active_local_endpoint conn = Some l ->
  is_inet (le_resolved_address l) = true ->
  (forall heap uv names locals' i', oracle_ok heap -> h_live heap = h_live (w_heap w) + 2 ->
     Forall (fun rc => 0 <= rc) uv -> locals_blocks locals' = locals_blocks locals ->
     let h := w_next w in
     Q 0 (World heap (Pos.succ h) (<[c := established (with_locals locals' i' conn)]> (w_connections w)) (w_groups w)
       (<[m := set_sm_internal_socket_manager_state (udp_state h) sm]> (w_managers w)) (w_listeners w)
       (<[h := udp_handle m HandleOpen (udp_bind_address (Some l))]> (w_handles w)) (w_requests w) uv names (w_entropy w) (w_uuid_counter w) (w_time w)
       (w_calls w ++ called (cb_ready (cn_callbacks conn)) Ready c) (w_quic w))) ->
  wp (udp_init c) Q w.
Proof.
  intros Ho Huv Hn Hc Hcm Hm Hlocals Hl Hi HQ. unfold udp_init, udp_init_with_send, manager_of. wp_steps.
  eapply wp_connection_at; [exact Hc|]. rewrite Hcm. wp_steps.
  unfold active_local_endpoint, ct_connection_get_active_local_endpoint, local_endpoint_at. wp_steps.
  eapply wp_connection_at; [exact Hc|]. wp_steps. cbn [fst snd]. eapply wp_connection_at; [exact Hc|].
  unfold local_list. rewrite Hlocals. cbn [default from_option snd]. wp_steps.
  apply wp_create_udp; [exact Ho|exact Huv|exact Hi|]. intros h1 uv1 Ho1 Hl1 Huv1 h. wp_steps.
  eapply (wp_resolve_local h _ c conn locals); [exact Ho1|exact Huv1|exact Hn|apply lookup_insert_eq|exact Hc|exact Hlocals|by eexists|].
  world_simpl. intros h2 uv2 names locals' i' Ho2 Hl2 Huv2 Hb Hi'. cbn [Z.ltb Z.compare]. wp_steps.
  unfold ct_udp_socket_state_new, ct_connection_set_socket_state. wp_steps.
  eapply wp_heap_allocs; [exact Ho2|apply allocs_malloc|]. intros ? h3 <- Ho3 Hl3. wp_steps. world_simpl.
  eapply wp_connection_at; [apply lookup_insert_eq|]. 
  change (cn_socket_manager (with_locals locals' i' conn)) with (cn_socket_manager conn). rewrite Hcm.
  wp_steps. eapply wp_update_manager; [exact Hm|]. world_simpl. wp_steps. eapply wp_update_handle; [apply lookup_insert_eq|]. world_simpl.
  rewrite insert_insert_eq. wp_steps. eapply wp_connection_ready; [apply lookup_insert_eq|]. world_simpl.
  rewrite insert_insert_eq. wp_steps. apply (HQ h3 uv2 names locals' i'); [exact Ho3| |exact Huv2|exact Hb].
  cbn in Hl3. lia.
Qed.

End lifecycle.
