(* ===== verification/Lifecycle.v ===== *)
(** The life of a connection over UDP.

    From [ct_connection_create_client] through [udp_init],
    [ct_connection_close] and the loop's close callback to
    [ct_connection_free]: what the application is told, and that nothing is
    left behind. *)

From S2P Require Export Opening.
Open Scope Z_scope.

(** Symbolic execution that also resolves the branches that are decided. *)
Ltac wp_go := repeat (cbn beta iota; wp_step); cbn beta iota.

Section lifecycle.
Context `{!Picoquic, !Framers, !HashOrder}.

(** ** Questions about a connection *)

Lemma wp_is_closed c conn (Q : bool -> world -> Prop) w :
  w_connections w !! c = Some conn -> Q (bool_decide (cn_state conn = CT_CONN_STATE_CLOSED)) w ->
  wp (ct_connection_is_closed (Some c)) Q w.
Proof. intros Hc HQ. unfold ct_connection_is_closed, with_connection. wp_go. eapply wp_connection_at; [exact Hc|]. by wp_go. Qed.

Lemma wp_is_closed_or_closing c conn (Q : bool -> world -> Prop) w :
  w_connections w !! c = Some conn ->
  Q (bool_decide (cn_state conn = CT_CONN_STATE_CLOSED \/ cn_state conn = CT_CONN_STATE_CLOSING)) w ->
  wp (ct_connection_is_closed_or_closing (Some c)) Q w.
Proof.
  intros Hc HQ. unfold ct_connection_is_closed_or_closing. wp_go. eapply wp_is_closed; [exact Hc|].
  destruct (bool_decide (cn_state conn = CT_CONN_STATE_CLOSED)) eqn:Hb; wp_go.
  - apply bool_decide_eq_true in Hb. by rewrite bool_decide_true in HQ by by left.
  - unfold ct_connection_is_closing, with_connection. wp_go. eapply wp_connection_at; [exact Hc|]. wp_go.
    apply bool_decide_eq_false in Hb. unfold in_state. erewrite bool_decide_ext; [exact HQ|]. naive_solver.
Qed.

Lemma wp_manager_of c conn m (Q : id -> world -> Prop) w :
  w_connections w !! c = Some conn -> cn_socket_manager conn = Some m -> Q m w -> wp (manager_of c) Q w.
Proof. intros Hc Hm HQ. unfold manager_of. wp_go. eapply wp_connection_at; [exact Hc|]. by wp_go. Qed.

Lemma wp_protocol_of c conn m sm (Q : ct_protocol_enum -> world -> Prop) w :
  w_connections w !! c = Some conn -> cn_socket_manager conn = Some m -> w_managers w !! m = Some sm ->
  Q (sm_protocol sm) w -> wp (protocol_of c) Q w.
Proof.
  intros Hc Hm Hsm HQ. unfold protocol_of. wp_go. eapply wp_manager_of; [exact Hc|exact Hm|].
  wp_go. eapply wp_manager_at; [exact Hsm|]. by wp_go.
Qed.

(** ** Sending *)

Definition is_final (ctx : option ct_message_context) : bool :=
  match ctx with Some _ => negb (ct_message_context_get FINAL ctx =? 0) | None => false end.

(** The context of a message: a copy of the application's, or one for the connection's endpoints. *)
Lemma wp_send_context c conn ctx (Q : option ct_message_context -> world -> Prop) w :
  oracle_ok (w_heap w) -> w_connections w !! c = Some conn ->
  (forall ctx' heap, is_final (Some ctx') = is_final ctx -> oracle_ok heap -> h_live heap = h_live (w_heap w) + 1 ->
     Q (Some ctx') (set_w_heap heap w)) ->
  wp (match ctx with
      | Some _ => on_heap (ct_message_context_deep_copy ctx)
      | None => context_from_connection c
      end) Q w.
Proof.
  intros Ho Hc HQ. set (P := fun o => exists ctx', o = Some ctx' /\ is_final (Some ctx') = is_final ctx).
  assert (forall o heap, P o -> oracle_ok heap -> h_live heap = h_live (w_heap w) + 1 -> Q o (set_w_heap heap w)) as HP.
  { intros ? heap (ctx' & -> & Hf). by apply HQ. }
  destruct ctx as [ctx|].
  - eapply (wp_heap_allocs _ P (fun _ => 1)); [exact Ho| |exact HP].
    eapply allocs_bind; [apply allocs_malloc|]. intros ? <-. apply allocs_ret; [|done]. by eexists.
  - unfold context_from_connection, ct_connection_get_active_local_endpoint, ct_connection_get_active_remote_endpoint. wp_go.
    eapply wp_connection_at; [exact Hc|]. wp_go. eapply wp_connection_at; [exact Hc|]. wp_go.
    eapply (wp_heap_allocs _ P (fun _ => 1)); [exact Ho| |exact HP].
    unfold ct_message_context_new_from_connection, ct_message_context_new.
    eapply (allocs_bind _ _ (eq (Some (MessageContext DEFAULT_MESSAGE_PROPERTIES None None None))) (fun _ => 1)).
    + eapply allocs_bind; [apply allocs_malloc|]. intros ? <-. by apply allocs_ret.
    + intros ? <-. apply allocs_ret; [|done]. by eexists.
Qed.

(** The outcome of the next libuv call. *)
Definition next_rc (w : world) : Z := default 0 (head (w_uv w)).

Lemma wp_next_rc (Q : Z -> world -> Prop) w : Q (next_rc w) (set_w_uv (tail (w_uv w)) w) -> wp uv_rc Q w.
Proof.
  unfold next_rc. intros HQ. unfold uv_rc. wp_go. destruct (w_uv w) as [|rc l] eqn:He; wp_go; [|exact HQ].
  cbn in HQ. rewrite <- He in HQ. by destruct w.
Qed.

Lemma wp_udp_send c m h conn sm x r msg ctx (Q : Z -> world -> Prop) w :
  oracle_ok (w_heap w) -> w_connections w !! c = Some conn -> cn_socket_manager conn = Some m -> w_managers w !! m = Some sm ->
  sm_internal_socket_manager_state sm = udp_state h -> w_handles w !! h = Some x ->
  remote_list conn !! cn_active_remote_endpoint conn = Some r ->
  (forall heap, next_rc w < 0 -> oracle_ok heap -> h_live heap = h_live (w_heap w) ->
     Q (next_rc w) (set_w_uv (tail (w_uv w)) (set_w_heap heap w))) ->
  (forall heap, 0 <= next_rc w -> oracle_ok heap -> h_live heap = h_live (w_heap w) + 2 ->
     Q (next_rc w) (set_w_requests (<[w_next w := UdpSendRequest (Some (SendData c (Some msg) ctx))]> (w_requests w))
       (set_w_next (Pos.succ (w_next w)) (set_w_uv (tail (w_uv w)) (set_w_heap heap w))))) ->
  wp (udp_send c (Some msg) ctx) Q w.
Proof.
  intros Ho Hc Hcm Hm Hs Hh Hr Herr HQ. unfold udp_send. wp_go.
  eapply wp_heap_allocs; [exact Ho|apply allocs_malloc|]. intros ? h1 <- Ho1 Hl1. wp_go. cbn [negb]. unfold udp_send_data_new. wp_go.
  eapply wp_heap_allocs; [exact Ho1|apply allocs_malloc|]. intros ? h2 <- Ho2 Hl2. wp_go. unfold ct_connection_get_socket_state. wp_go.
  eapply wp_connection_at; [exact Hc|]. rewrite Hcm. wp_go. eapply wp_manager_at; [exact Hm|]. wp_go.
  rewrite Hs. unfold udp_handle_of, udp_state. wp_go. eapply wp_handle_at; [exact Hh|]. wp_go.
  unfold active_remote_endpoint, ct_connection_get_active_remote_endpoint. wp_go. eapply wp_connection_at; [exact Hc|]. wp_go.
  unfold remote_endpoint_at. wp_go. eapply wp_connection_at; [exact Hc|]. wp_go.
  apply wp_next_rc. change (next_rc (set_w_heap h2 (set_w_heap h1 w))) with (next_rc w). world_simpl. cbv beta in *. world_simpl.
  cbn [w_heap set_w_heap] in Hl2. destruct (Z.ltb_spec (next_rc w) 0) as [Hrc|Hrc]; wp_go.
  - eapply wp_heap_frees; [apply frees_block|]. wp_go. eapply wp_heap_frees; [apply frees_block|]. wp_go.
    apply Herr; [done|done|]. world_simpl. cbn [h_live]. lia.
  - unfold new_request, fresh_id. wp_go. apply HQ; [done|done|]. lia.
Qed.

(** How the application hears of a completed send. *)
Definition send_outcome (cbs : ct_connection_callbacks) (status : Z) (c : id) : list call :=
  if status =? 0 then called (cb_sent cbs) Sent c else called (cb_send_error cbs) (SendError status) c.

Lemma wp_on_send c conn m req msg ctx status (Q : unit -> world -> Prop) w :
  w_connections w !! c = Some conn -> cn_socket_manager conn = Some m ->
  w_requests w !! req = Some (UdpSendRequest (Some (SendData c (Some msg) (Some ctx)))) ->
  (forall o, Q tt (set_w_heap (Heap o (h_live (w_heap w) - msg_blocks msg - 3))
     (set_w_calls (w_calls w ++ send_outcome (cn_callbacks conn) status c) (set_w_requests (delete req (w_requests w)) w)))) ->
  wp (on_send req status) Q w.
Proof.
  intros Hc Hcm Hreq HQ. unfold on_send, request_at. wp_go. cbn [sd_connection sd_message sd_message_context].
  eapply wp_manager_of; [exact Hc|exact Hcm|]. wp_go. eapply wp_heap_frees; [apply frees_message|]. wp_go.
  eapply wp_heap_frees; [apply frees_block|]. wp_go. unfold drop_request. wp_go. world_simpl.
  eapply wp_heap_frees; [apply frees_block|]. world_simpl. wp_go. cbn [h_oracle h_live].
  unfold send_outcome in HQ. destruct (status =? 0); cbn [negb].
  all: unfold ct_socket_manager_message_sent_cb, ct_socket_manager_message_send_error_cb; wp_go.
  all: eapply wp_connection_at; [exact Hc|]; wp_go; apply wp_call_connection; wp_go.
  all: eapply wp_heap_frees; [apply frees_context|]; world_simpl; cbn [h_oracle h_live].
  all: replace (h_live (w_heap w) - msg_blocks msg - 1 - 1 - 1) with (h_live (w_heap w) - msg_blocks msg - 3) by lia.
  all: apply HQ.
Qed.

Lemma wp_can_send c conn (Q : bool -> world -> Prop) w :
  w_connections w !! c = Some conn -> Q (cn_can_send conn) w -> wp (ct_connection_can_send (Some c)) Q w.
Proof. intros Hc HQ. unfold ct_connection_can_send, with_connection. wp_go. by eapply wp_connection_at. Qed.

(** Sending on a connection without a framer: the protocol gets copies, which
    are freed when it refuses them. *)
Definition sending (ctx : option ct_message_context) (conn : ct_connection) : ct_connection :=
  if is_final ctx then set_cn_can_send false conn else conn.

Lemma wp_send_message c conn msg data ctx (Q : Z -> world -> Prop) w :
  oracle_ok (w_heap w) -> w_connections w !! c = Some conn -> cn_can_send conn = true -> cn_framer_impl conn = None ->
  content_bytes msg = Some data ->
  (forall copy ctx' h, content_bytes copy = Some data -> msg_blocks copy = 2 -> is_final (Some ctx') = is_final ctx ->
     oracle_ok h -> h_live h = h_live (w_heap w) + 3 ->
     wp (ct_connection_send_to_protocol c (Some copy) (Some ctx')) (fun rc w1 =>
       Q rc (if rc <? 0 then set_w_heap (Heap (h_oracle (w_heap w1)) (h_live (w_heap w1) - 3)) w1 else w1))
       (set_w_heap h (set_w_connections (<[c := sending ctx conn]> (w_connections w)) w))) ->
  wp (ct_send_message_full c (Some msg) ctx) Q w.
Proof.
  intros Ho Hc Hcan Hfr Hdata HQ. unfold ct_send_message_full. wp_go. eapply wp_can_send; [exact Hc|]. rewrite Hcan. cbn [negb].
  assert (Hwhen : forall (Q : unit -> world -> Prop), Q tt (set_w_connections (<[c := sending ctx conn]> (w_connections w)) w) ->
    wp (when (is_final ctx) (ct_connection_set_can_send (Some c) false)) Q w).
  { intros R HR. unfold sending in HR. destruct (is_final ctx); cbn [when].
    - unfold ct_connection_set_can_send, set_connection. wp_go. by eapply wp_update_connection.
    - wp_go. rewrite insert_id in HR by done. by destruct w. }
  wp_go. apply Hwhen. wp_go. set (w1 := set_w_connections _ w) in *.
  assert (w_connections w1 !! c = Some (sending ctx conn)) as Hc' by apply lookup_insert_eq.
  eapply wp_send_context; [exact Ho|exact Hc'|]. intros ctx' h1 Hfin Ho1 Hl1. cbn [is_Some_b negb]. wp_go.
  apply wp_on_heap. eapply wp_message_deep_copy; [by eexists| |].
  2: { intros h' _ Hno. by destruct (Hno Ho1). }
  intros content h2 Hcontent [Hl2 Ho2]. rewrite Hdata in Hcontent. injection Hcontent as <-. cbn [is_Some_b negb]. wp_go.
  eapply wp_connection_at; [exact Hc'|].
  assert (cn_framer_impl (sending ctx conn) = None) as -> by (unfold sending; by destruct (is_final ctx)). cbn [w_heap set_w_heap] in *. wp_go.
  eapply wp_mono; [apply (HQ (Message (Some data) (msg_length msg)) ctx' h2);
    [by apply content_bytes_copy|done|exact Hfin|by apply Ho2|change (w_heap w1) with (w_heap w) in *; lia]|].
  intros rc w2 HQ2. cbv beta in HQ2. wp_go. destruct (rc <? 0); cbn [when]; wp_go; [|exact HQ2].
  eapply wp_heap_frees; [apply frees_message|]. wp_go. eapply wp_heap_frees; [apply frees_context|]. wp_go.
  change (msg_blocks _) with 2. world_simpl. cbn [h_live h_oracle]. by replace (h_live (w_heap w2) - 2 - 1) with (h_live (w_heap w2) - 3) by lia.
Qed.

(** After a final message nothing more is sent. *)
Lemma wp_send_after_final c conn ctx msg' ctx' w :
  is_final ctx = true -> w_connections w !! c = Some (sending ctx conn) ->
  wp (ct_send_message_full c msg' ctx') (fun rc w2 => rc = - EPIPE /\ w2 = w) w.
Proof.
  intros Hf Hc. unfold ct_send_message_full. wp_go. eapply wp_can_send; [exact Hc|]. unfold sending. rewrite Hf. by wp_go.
Qed.

(** C22: a message sent over UDP is reported exactly once and leaks
    nothing.  On an established connection without a framer,
    [ct_send_message_full] returns libuv's verdict: a negative one leaves no
    request and frees the copies; otherwise the one new request holds a copy
    of the application's bytes, and whatever status [on_send] is completed
    with, the application hears [Sent] (status 0) or [SendError] once, the
    request is gone and every block is freed.  After a message marked
    [FINAL], sending fails with [-EPIPE] and changes nothing. *)
Theorem udp_message_exactly_once c m h conn sm x r msg bytes ctx w :
  oracle_ok (w_heap w) -> w_connections w !! c = Some conn -> cn_can_send conn = true -> cn_framer_impl conn = None ->
  cn_socket_manager conn = Some m -> w_managers w !! m = Some sm -> sm_protocol sm = CT_PROTOCOL_UDP ->
  sm_internal_socket_manager_state sm = udp_state h -> w_handles w !! h = Some x ->
  remote_list conn !! cn_active_remote_endpoint conn = Some r -> content_bytes msg = Some bytes ->
  w_requests w !! w_next w = None ->
  let conn' := if is_final ctx then set_cn_can_send false conn else conn in
  wp (ct_send_message_full c (Some msg) ctx) (fun rc w1 =>
    rc = next_rc w /\ w_connections w1 = <[c := conn']> (w_connections w) /\ w_calls w1 = w_calls w /\
    (rc < 0 -> w_requests w1 = w_requests w /\ h_live (w_heap w1) = h_live (w_heap w)) /\
    (0 <= rc -> exists req copy ctx',
       w_requests w1 = <[req := UdpSendRequest (Some (SendData c (Some copy) (Some ctx')))]> (w_requests w) /\
       content_bytes copy = Some bytes /\
       forall status, wp (on_send req status) (fun _ w2 =>
         w_requests w2 = w_requests w /\ h_live (w_heap w2) = h_live (w_heap w) /\
         w_connections w2 = w_connections w1 /\ w_calls w2 = w_calls w ++ send_outcome (cn_callbacks conn) status c) w1) /\
    (is_final ctx = true -> forall msg' ctx', wp (ct_send_message_full c msg' ctx') (fun rc w2 => rc = - EPIPE /\ w2 = w1) w1)) w.
Proof.
  intros Ho Hc Hcan Hfr Hcm Hm Hp Hs Hh Hr Hbytes Hreq conn'. change conn' with (sending ctx conn). clear conn'.
  assert (cn_socket_manager (sending ctx conn) = Some m /\ remote_list (sending ctx conn) = remote_list conn
    /\ cn_active_remote_endpoint (sending ctx conn) = cn_active_remote_endpoint conn
    /\ cn_callbacks (sending ctx conn) = cn_callbacks conn) as (Hcm' & Hrl' & Hra' & Hcb).
  { unfold sending. by destruct (is_final ctx). }
  eapply wp_send_message; [exact Ho|exact Hc|exact Hcan|exact Hfr|exact Hbytes|]. intros copy ctx' h1 Hcopy Hblocks _ Ho1 Hl1.
  assert (Hagain : forall w1, w_connections w1 = <[c := sending ctx conn]> (w_connections w) -> is_final ctx = true ->
    forall msg' ctx', wp (ct_send_message_full c msg' ctx') (fun rc w2 => rc = - EPIPE /\ w2 = w1) w1).
  { intros w1 Hw1 Hf msg' ctx2. eapply wp_send_after_final; [exact Hf|]. rewrite Hw1. apply lookup_insert_eq. }
  unfold ct_connection_send_to_protocol. wp_go. eapply wp_protocol_of; [apply lookup_insert_eq|exact Hcm'|exact Hm|].
  rewrite Hp. cbn [impl_send ctaps_protocols]. eapply (wp_udp_send c m h);
    [exact Ho1|apply lookup_insert_eq|exact Hcm'|exact Hm|exact Hs|exact Hh|by rewrite Hrl', Hra'| |].
  - intros h3 Hrc Ho3 Hl3. world_simpl. change (next_rc _) with (next_rc w) in *. rewrite (proj2 (Z.ltb_lt _ _) Hrc). wp_go.
    split_and!; [done|done|done| |by intros ?%Z.le_ngt|by apply Hagain]. intros _. split; [done|]. world_simpl. cbn in *. lia.
  - intros h3 Hrc Ho3 Hl3. world_simpl. change (next_rc _) with (next_rc w) in *. rewrite (proj2 (Z.ltb_ge _ _) Hrc). wp_go.
    split_and!; [done|done|done|by intros ?%Z.lt_nge| |by apply Hagain]. intros _. exists (w_next w), copy, ctx'. split_and!; [done|done|].
    intros status. eapply (wp_on_send c (sending ctx conn) m); [apply lookup_insert_eq|exact Hcm'|apply lookup_insert_eq|]. intros o. world_simpl.
    rewrite delete_insert_id by done. rewrite Hcb. split_and!; [done| |done|done]. cbn in *. lia.
Qed.

(** ** Closing *)

(** libuv closes an open handle. *)
Lemma wp_uv_close h x cb (Q : unit -> world -> Prop) w :
  w_handles w !! h = Some x -> uh_phase x = HandleOpen ->
  Q tt (set_w_handles (<[h := set_phase (HandleClosing cb) x]> (w_handles w)) w) -> wp (uv_close h cb) Q w.
Proof.
  intros Hh Hp HQ. unfold uv_close. wp_go. eapply wp_handle_at; [exact Hh|]. wp_go.
  { unfold is_open. by rewrite Hp. }
  eapply wp_update_handle; [exact Hh|]. done.
Qed.

Lemma wp_udp_close_socket m sm h x (Q : unit -> world -> Prop) w :
  w_managers w !! m = Some sm -> sm_internal_socket_manager_state sm = udp_state h ->
  w_handles w !! h = Some x -> uh_phase x = HandleOpen ->
  Q tt (set_w_handles (<[h := set_phase (HandleClosing (Some socket_closed_success_ptr)) (set_read None x)]> (w_handles w)) w) ->
  wp (udp_close_socket m) Q w.
Proof.
  intros Hm Hs Hh Hp HQ. unfold udp_close_socket, udp_handle_of. wp_go. eapply wp_manager_at; [exact Hm|]. rewrite Hs.
  unfold udp_state. wp_go. eapply wp_update_handle; [exact Hh|]. wp_go.
  eapply wp_uv_close; [apply lookup_insert_eq|done|]. world_simpl. by rewrite insert_insert_eq.
Qed.

(** The only connection of its socket manager is closed. *)
Lemma wp_udp_connection_close c m h conn sm impl cbs dm x (Q : unit -> world -> Prop) w :
  w_connections w !! c = Some conn -> cn_socket_manager conn = Some m -> cn_state conn = CT_CONN_STATE_ESTABLISHED ->
  w_managers w !! m = Some sm -> sm = SocketManager (udp_state h) 1 [c] dm impl None cbs ->
  pi_enum impl = CT_PROTOCOL_UDP -> w_handles w !! h = Some x -> uh_phase x = HandleOpen ->
  Q tt (set_w_handles (<[h := set_phase (HandleClosing (Some socket_closed_success_ptr)) (set_read None x)]> (w_handles w))
         (set_w_managers (<[m := SocketManager (udp_state h) 1 [c] dm impl None CT_CLOSE_TYPE_GRACEFUL]> (w_managers w))
           (set_w_connections (<[c := set_cn_state CT_CONN_STATE_CLOSING conn]> (w_connections w)) w))) ->
  wp (ct_connection_close c) Q w.
Proof.
  intros Hc Hcm Hst Hm -> Himpl Hh Hph HQ. unfold ct_connection_close. wp_go.
  eapply wp_is_closed_or_closing; [exact Hc|]. rewrite Hst, bool_decide_false by (by intros []). wp_go.
  eapply wp_update_connection; [exact Hc|]. unfold ct_socket_manager_close_connection. wp_go.
  eapply wp_protocol_of; [apply lookup_insert_eq|exact Hcm|exact Hm|]. unfold sm_protocol. cbn [sm_protocol_impl]. rewrite Himpl.
  cbn [impl_close_connection ctaps_close]. unfold udp_close. wp_go.
  eapply wp_manager_of; [apply lookup_insert_eq|exact Hcm|]. unfold ct_socket_manager_closed_connection_cb. wp_go.
  eapply wp_manager_of; [apply lookup_insert_eq|exact Hcm|]. unfold ct_socket_manager_get_num_open_dependents. wp_go.
  eapply wp_manager_at; [exact Hm|]. cbn [sm_listener sm_all_connections count_open]. wp_go.
  eapply wp_is_closed; [apply lookup_insert_eq|]. wp_go. rewrite bool_decide_false by done. wp_go. change (0 + (0 + 1) =? 1) with true.
  unfold set_close_reason. wp_go.
  eapply wp_update_manager; [exact Hm|]. world_simpl. unfold ct_socket_manager_close. wp_go.
  eapply wp_manager_at; [apply lookup_insert_eq|]. unfold sm_protocol. cbn [sm_protocol_impl set_sm_close_reason]. rewrite Himpl.
  cbn [impl_close_socket ctaps_sockets].
  eapply wp_udp_close_socket; [apply lookup_insert_eq|done|exact Hh|exact Hph|]. wp_go. exact HQ.
Qed.

(** The loop has closed the socket: the application hears that its connection is closed. *)
Lemma wp_socket_closed c m h conn sm x dm impl (Q : unit -> world -> Prop) w :
  w_connections w !! c = Some conn -> cn_state conn = CT_CONN_STATE_CLOSING ->
  w_managers w !! m = Some sm -> sm = SocketManager (udp_state h) 1 [c] dm impl None CT_CLOSE_TYPE_GRACEFUL ->
  w_handles w !! h = Some x -> uh_data x = Some m -> uh_phase x = HandleClosing (Some socket_closed_success_ptr) ->
  Q tt (set_w_calls (w_calls w ++ called (cb_closed (cn_callbacks conn)) Closed c)
         (set_w_connections (<[c := set_cn_state CT_CONN_STATE_CLOSED conn]> (w_connections w))
           (set_w_handles (<[h := set_phase HandleClosed x]> (w_handles w)) w))) ->
  wp (handle_closed h) Q w.
Proof.
  intros Hc Hst Hm -> Hh Hd Hph HQ. unfold handle_closed. wp_go. eapply wp_handle_at; [exact Hh|]. rewrite Hph. wp_go.
  eapply wp_update_handle; [exact Hh|]. cbn [run_close_cb]. unfold socket_closed_success. wp_go.
  eapply wp_handle_at; [apply lookup_insert_eq|]. change (uh_data (set_phase HandleClosed x)) with (uh_data x). rewrite Hd. wp_go.
  unfold ct_socket_manager_closed_socket_cb, ct_socket_manager_get_last_open_connection. wp_go.
  eapply wp_manager_at; [exact Hm|]. cbn [sm_all_connections first_open]. wp_go.
  eapply wp_is_closed; [exact Hc|]. rewrite Hst, bool_decide_false by done. wp_go.
  eapply wp_update_connection; [exact Hc|]. unfold ct_socket_manager_notify_of_connection_close. wp_go.
  eapply wp_manager_at; [exact Hm|]. wp_go. eapply wp_connection_at; [apply lookup_insert_eq|]. cbn [sm_close_reason].
  by apply wp_call_connection.
Qed.

(** ** Freeing *)

Lemma wp_group_unref c m g conn sm gu t tp (Q : unit -> world -> Prop) w :
  w_connections w !! c = Some conn -> cn_connection_group conn = Some g -> cn_socket_manager conn = Some m ->
  w_groups w !! g = Some (ConnectionGroup gu (Some t) 1 (Some tp) None) -> wf_selection (selection_properties tp) ->
  w_managers w !! m = Some sm -> sm_protocol sm <> CT_PROTOCOL_QUIC ->
  Q tt (set_w_heap (Heap (h_oracle (w_heap w)) (h_live (w_heap w) - tp_blocks tp - 1))
         (set_w_groups (delete g (w_groups w)) w)) ->
  wp (ct_connection_group_unref (Some c)) Q w.
Proof.
  intros Hc Hg Hcm Hgr Htp Hm Hp HQ. unfold ct_connection_group_unref. wp_go. eapply wp_connection_at; [exact Hc|]. rewrite Hg. wp_go.
  eapply wp_group_at; [exact Hgr|]. cbn [gr_connections]. wp_go. eapply wp_update_group; [exact Hgr|]. wp_go.
  eapply wp_update_group; [apply lookup_insert_eq|]. world_simpl. rewrite insert_insert_eq. wp_go.
  eapply wp_group_at; [apply lookup_insert_eq|]. cbn [when]. change (gr_ref_count _ =? 0) with true. cbn [when]. wp_go.
  eapply wp_manager_of; [exact Hc|exact Hcm|]. wp_go. eapply wp_manager_at; [exact Hm|].
  wp_go. eapply (wp_mono _ (fun _ w' => w' = _)).
  { cbn [impl_free_connection_group_state ctaps_sockets]. destruct (sm_protocol sm); [| |done].
    all: cbn [call_impl]; unfold udp_free_connection_group_state, tcp_free_connection_group_state; by wp_go. }
  intros [] ? ->. unfold ct_connection_group_free. wp_go. eapply wp_group_at; [apply lookup_insert_eq|].
  cbn [gr_transport_properties set_gr_ref_count set_gr_connections]. wp_go.
  eapply wp_heap_frees; [by apply frees_transport_properties|]. world_simpl. wp_go.
  eapply wp_heap_frees; [apply frees_block|]. world_simpl. by rewrite delete_insert_eq.
Qed.

(** The blocks a connection holds besides itself, its group and its manager. *)
Definition opt_blocks {A} (f : A -> Z) (o : option A) : Z := match o with Some a => f a | None => 0 end.
Definition content_blocks (conn : ct_connection) : Z :=
  Z.of_nat (length (default [] (cn_received_callbacks conn)))
  + zsum (opt_blocks queued_blocks <$> default [] (cn_received_messages conn))
  + opt_blocks (fun l => 1 + zsum (local_blocks <$> l)) (cn_all_local_endpoints conn)
  + opt_blocks (fun l => 1 + zsum (remote_blocks <$> l)) (cn_all_remote_endpoints conn)
  + opt_sec_blocks (cn_security_parameters conn)
  + (if is_Some_b (cn_framer_impl conn) then 1 else 0).

Lemma frees_queue (l : list (option ct_queued_message)) :
  frees (for_each l ct_queued_message_free_all) (zsum (opt_blocks queued_blocks <$> l)).
Proof. apply frees_for_each. intros [q|] _; [apply frees_queued|apply frees_ret]. Qed.

Lemma frees_callbacks {A} (l : list A) : frees (for_each l (fun _ => free_block)) (Z.of_nat (length l)).
Proof.
  eapply frees_eq; [apply (frees_for_each l _ (fun _ => 1)); intros; apply frees_block|].
  induction l as [|x l IH]; [done|]. cbn [fmap list_fmap length]. rewrite zsum_cons, IH. lia.
Qed.

Lemma frees_locals_opt o :
  frees (when (is_Some_b o) (ct_local_endpoints_free false (default [] o))) (opt_blocks (fun l => 1 + zsum (local_blocks <$> l)) o).
Proof. destruct o as [l|]; [apply frees_array, frees_local|apply frees_ret]. Qed.

Lemma frees_remotes_opt o :
  frees (when (is_Some_b o) (ct_remote_endpoints_free false (default [] o))) (opt_blocks (fun l => 1 + zsum (remote_blocks <$> l)) o).
Proof. destruct o as [l|]; [apply frees_array, frees_remote|apply frees_ret]. Qed.

(** Neither UDP nor TCP keeps anything per connection. *)
Lemma wp_free_state p c conn (Q : unit -> world -> Prop) w :
  p <> CT_PROTOCOL_QUIC -> w_connections w !! c = Some conn -> cn_internal_connection_state conn = None ->
  Q tt w -> wp (call_impl (impl_free_connection_state p) c) Q w.
Proof.
  intros Hp Hc Hi HQ. cbn [impl_free_connection_state ctaps_sockets].
  destruct p; [| |done]; cbn [call_impl]; unfold tcp_free_state, udp_free_state; wp_go; try exact HQ.
  eapply wp_connection_at; [exact Hc|]. rewrite Hi. cbn [is_Some_b when]. apply wp_on_heap. wp_go. by destruct w.
Qed.

(** What becomes of the socket manager [m] when a connection gives up its
    reference: [n] blocks are freed, and these managers, handles and requests
    are left. *)
Definition frees_manager (m : id) (sm : ct_socket_manager) (n : Z)
    (left : gmap id ct_socket_manager -> gmap id ct_socket_manager) (handles : gmap id uv_handle) (requests : gmap id request)
    (w : world) : Prop :=
  forall (Q : unit -> world -> Prop) w', w_managers w' !! m = Some sm -> w_handles w' = w_handles w -> w_requests w' = w_requests w ->
    Q tt (set_w_heap (Heap (h_oracle (w_heap w')) (h_live (w_heap w') - n)) (set_w_requests requests (set_w_handles handles
           (set_w_managers (left (w_managers w')) w')))) ->
    wp (ct_socket_manager_unref (Some m)) Q w'.

(** A connection whose queues, endpoints and security parameters are freed,
    and their blocks. *)
Definition stripped (conn : ct_connection) : ct_connection :=
  set_cn_security_parameters None (set_cn_all_remote_endpoints None (set_cn_all_local_endpoints None
    (set_cn_received_messages None (set_cn_received_callbacks None conn)))).
Definition framer_blocks (conn : ct_connection) : Z := if is_Some_b (cn_framer_impl conn) then 1 else 0.

(** The steps of [ct_connection_free] that go through the protocol. *)
Definition release_group (c : id) : M world unit := ct_connection_group_unref (Some c).
Definition release_manager (c m : id) : M world unit :=
  ct_socket_manager_free_connection_state c ;;
  update_manager m (fun sm => set_sm_all_connections (g_slist_remove c (sm_all_connections sm)) sm) ;;
  ct_socket_manager_unref (Some m).

Lemma wp_connection_free_steps c m g conn (Q : unit -> world -> Prop) w :
  w_connections w !! c = Some conn -> sec_ok (cn_security_parameters conn) ->
  cn_connection_group conn = Some g -> cn_socket_manager conn = Some m ->
  wp (release_group c) (fun _ w2 =>
    w_connections w2 !! c = Some (stripped conn) /\
    wp (release_manager c m) (fun _ w3 =>
      is_Some (w_connections w3 !! c) /\
      Q tt (set_w_heap (Heap (h_oracle (w_heap w3)) (h_live (w_heap w3) - framer_blocks conn - 1))
             (set_w_connections (delete c (w_connections w3)) w3)))
      (set_w_connections (<[c := set_cn_connection_group None (stripped conn)]> (w_connections w2)) w2))
    (set_w_heap (Heap (h_oracle (w_heap w)) (h_live (w_heap w) - (content_blocks conn - framer_blocks conn)))
      (set_w_connections (<[c := stripped conn]> (w_connections w)) w)) ->
  wp (ct_connection_free (Some c)) Q w.
Proof.
  intros Hc Hsec Hg Hcm HQ. unfold ct_connection_free, ct_connection_free_content. wp_go.
  eapply wp_connection_at; [exact Hc|]. wp_go.
  eapply wp_heap_frees; [apply frees_callbacks|]. wp_go.
  eapply wp_update_connection; [exact Hc|]. wp_go. eapply wp_heap_frees; [apply frees_queue|]. world_simpl. wp_go.
  eapply wp_update_connection; [apply lookup_insert_eq|]. world_simpl. rewrite insert_insert_eq. wp_go.
  eapply wp_heap_frees; [apply frees_locals_opt|]. world_simpl. wp_go.
  eapply wp_update_connection; [apply lookup_insert_eq|]. world_simpl. rewrite insert_insert_eq. wp_go.
  eapply wp_heap_frees; [apply frees_remotes_opt|]. world_simpl. wp_go.
  eapply wp_update_connection; [apply lookup_insert_eq|]. world_simpl. rewrite insert_insert_eq. wp_go.
  eapply wp_heap_frees; [by apply frees_security_opt|]. world_simpl. wp_go.
  eapply wp_update_connection; [apply lookup_insert_eq|]. world_simpl. rewrite insert_insert_eq. rewrite Hg, Hcm. cbn [is_Some_b when].
  wp_go. cbn [h_oracle h_live]. match goal with |- context [Heap _ ?n] =>
    replace n with (h_live (w_heap w) - (content_blocks conn - framer_blocks conn)) by (unfold content_blocks, framer_blocks; lia) end.
  eapply wp_mono; [exact HQ|]. intros [] w2 [Hc2 HQ2]. eapply wp_update_connection; [exact Hc2|]. unfold release_manager in HQ2. wp_go.
  apply wp_bind_inv in HQ2. eapply wp_mono; [exact HQ2|]. intros [] w3 HQ3. apply wp_bind_inv in HQ3. wp_go.
  eapply wp_mono; [exact HQ3|]. intros [] w4 HQ4. wp_go. eapply wp_mono; [exact HQ4|]. intros [] w5 [[conn5 Hc5] HQ5]. wp_go.
  eapply wp_update_connection; [exact Hc5|]. world_simpl. wp_go.
  eapply (wp_heap_frees _ (framer_blocks conn)); [apply frees_when; intros _; apply frees_block|].
  world_simpl. wp_go. eapply wp_heap_frees; [apply frees_block|]. world_simpl. rewrite delete_insert_eq. exact HQ5.
Qed.

(** A connection is freed, with its group and its reference to the socket manager. *)
Lemma wp_connection_free c m g conn sm gu t tp n left handles requests (Q : unit -> world -> Prop) w :
  w_connections w !! c = Some conn -> cn_internal_connection_state conn = None ->
  sec_ok (cn_security_parameters conn) -> cn_connection_group conn = Some g -> cn_socket_manager conn = Some m ->
  w_groups w !! g = Some (ConnectionGroup gu (Some t) 1 (Some tp) None) -> wf_selection (selection_properties tp) ->
  w_managers w !! m = Some sm -> sm_protocol sm <> CT_PROTOCOL_QUIC ->
  frees_manager m (set_sm_all_connections (g_slist_remove c (sm_all_connections sm)) sm) n left handles requests w ->
  (forall x, left (<[m := x]> (w_managers w)) = left (w_managers w)) ->
  (forall live, live = h_live (w_heap w) - content_blocks conn - tp_blocks tp - n - 2 ->
     Q tt (set_w_heap (Heap (h_oracle (w_heap w)) live) (set_w_requests requests (set_w_handles handles (set_w_managers (left (w_managers w))
            (set_w_groups (delete g (w_groups w)) (set_w_connections (delete c (w_connections w)) w))))))) ->
  wp (ct_connection_free (Some c)) Q w.
Proof.
  intros Hc Hi Hsec Hg Hcm Hgr Htp Hm Hp Hfree Hleft HQ. eapply wp_connection_free_steps; [exact Hc|exact Hsec|exact Hg|exact Hcm|].
  eapply (wp_group_unref c m g); [apply lookup_insert_eq|exact Hg|exact Hcm|exact Hgr|exact Htp|exact Hm|exact Hp|].
  split; [apply lookup_insert_eq|]. world_simpl. rewrite insert_insert_eq. unfold release_manager, ct_socket_manager_free_connection_state. wp_go.
  eapply wp_manager_of; [apply lookup_insert_eq|exact Hcm|]. wp_go. eapply wp_manager_at; [exact Hm|].
  wp_go. eapply wp_free_state; [exact Hp|apply lookup_insert_eq|exact Hi|]. wp_go. eapply wp_update_manager; [exact Hm|]. wp_go.
  apply Hfree; [world_simpl; by rewrite lookup_insert_eq|done..|].
  world_simpl. split; [rewrite lookup_insert_eq; by eexists|]. rewrite !delete_insert_eq, Hleft. cbn [h_oracle h_live]. apply HQ. lia.
Qed.

(** A UDP socket manager whose socket is closed. *)
Lemma udp_frees_manager m h sm x w :
  sm = SocketManager (sm_internal_socket_manager_state sm) 1 [] (sm_demux_table sm) (sm_protocol_impl sm) (sm_listener sm) (sm_close_reason sm) ->
  sm_internal_socket_manager_state sm = udp_state h -> sm_protocol sm = CT_PROTOCOL_UDP ->
  w_handles w !! h = Some x -> uh_phase x = HandleClosed ->
  frees_manager m sm 3 (delete m) (delete h (w_handles w)) (w_requests w) w.
Proof.
  intros Hsm Hs Hp Hh Hph Q w' Hm Hhs Hrs HQ. unfold ct_socket_manager_unref. wp_go. eapply wp_update_manager; [exact Hm|]. wp_go.
  eapply wp_manager_at; [apply lookup_insert_eq|]. rewrite Hsm at 1. change (sm_ref_count _ =? 0) with true. cbn [when].
  unfold ct_socket_manager_free. wp_go.
  eapply wp_manager_at; [apply lookup_insert_eq|]. change (sm_protocol (set_sm_ref_count _ sm)) with (sm_protocol sm). rewrite Hp. wp_go.
  cbn [call_impl impl_free_socket_state ctaps_sockets]. unfold udp_free_socket_state, udp_handle_of. wp_go.
  eapply wp_manager_at; [apply lookup_insert_eq|].
  change (sm_internal_socket_manager_state (set_sm_ref_count _ sm)) with (sm_internal_socket_manager_state sm). rewrite Hs. unfold udp_state. wp_go.
  unfold free_handle. wp_go. eapply wp_handle_at; [by world_simpl; rewrite Hhs|]. wp_go. { by rewrite Hph. }
  world_simpl. wp_go. eapply wp_heap_frees; [apply frees_block|]. world_simpl.
  eapply wp_heap_frees; [apply frees_block|]. world_simpl. wp_go. world_simpl. eapply wp_heap_frees; [apply frees_block|]. world_simpl.
  rewrite delete_insert_eq. cbn [h_oracle h_live] in *. rewrite Hhs. rewrite <- Hrs in HQ.
  replace (h_live (w_heap w') - 1 - 1 - 1) with (h_live (w_heap w') - 3) by lia. by destruct w'.
Qed.

(** ** From creation to release *)

(** The socket of a UDP connection. *)
Definition udp_socket_of (c : id) : M world id :=
  m ← manager_of c; sm ← manager_at m; h ← udp_handle_of (sm_internal_socket_manager_state sm); deref h "NULL UDP handle".

(** A client opens a connection, closes it, lets the loop close the socket and frees the connection. *)
Definition udp_life impl locals i remotes j props sec cbs fr : M world (option id) :=
  c ← ct_connection_create_client impl (Some locals) i (Some remotes) j (Some props) sec (Some cbs) fr;
  match c with
  | None => mret None
  | Some c =>
      rc ← udp_init c;
      if negb (rc =? 0) then mret None else
      ct_connection_close c ;;
      h ← udp_socket_of c;
      handle_closed h ;;
      ct_connection_free (Some c) ;;
      mret (Some c)
  end.

(** No object has an identity that is still to be given. *)
Definition fresh_world (w : world) : Prop :=
  forall k, (w_next w <= k)%positive ->
    w_connections w !! k = None /\ w_groups w !! k = None /\ w_managers w !! k = None /\ w_handles w !! k = None
    /\ w_requests w !! k = None.

Definition same_tables (w w' : world) : Prop :=
  w_connections w' = w_connections w /\ w_groups w' = w_groups w /\ w_managers w' = w_managers w
  /\ w_listeners w' = w_listeners w /\ w_handles w' = w_handles w /\ w_requests w' = w_requests w.

Definition endpoint_blocks (locals : list ct_local_endpoint) (remotes : list ct_remote_endpoint) : Z :=
  1 + zsum (local_blocks <$> locals) + (1 + zsum (remote_blocks <$> remotes)).

(** C13: a client connection over UDP leaves nothing behind.  When
    allocations and libuv calls succeed, [ct_connection_create_client],
    [udp_init], [ct_connection_close], the loop's close callback and
    [ct_connection_free] together tell the application exactly [Ready] and
    then [Closed], restore every table (connections, groups, socket managers,
    listeners, handles, requests) and free every block allocated on the way,
    and the two arrays of endpoints the connection took over. *)
Theorem udp_connection_lifecycle impl locals i l remotes j r props sec cbs fr w :
  oracle_ok (w_heap w) -> uv_ok w -> names_ok w -> fresh_world w -> pi_enum impl = CT_PROTOCOL_UDP ->
  locals !! i = Some l -> is_inet (le_resolved_address l) = true ->
  remotes !! j = Some r -> is_inet (re_resolved_address r) = true -> props_ok props -> sec_ok sec ->
  let c := w_next w in
  wp (udp_life impl locals i remotes j props sec cbs fr) (fun a w' =>
    a = Some c /\ same_tables w w'
    /\ w_calls w' = w_calls w ++ called (cb_ready cbs) Ready c ++ called (cb_closed cbs) Closed c
    /\ h_live (w_heap w') = h_live (w_heap w) - endpoint_blocks locals remotes) w.
Proof.
  intros Ho Huv Hn Hfresh Hp Hl Hli Hr Hri Hprops Hsec c. unfold udp_life. wp_go.
  eapply wp_create_client; [done..|]. intros h1 u gu tp sec' en k Ho1 Htp Hsec'%sec_copied_ok Hl1. wp_go. fold c in Hl1 |- *.
  set (m := Pos.succ c). set (g := Pos.succ m).
  eapply (wp_udp_init c m); [exact Ho1|exact Huv|exact Hn|apply lookup_insert_eq|done|apply lookup_insert_eq|done|exact Hl|exact Hli|].
  world_simpl. set (h := Pos.succ g). intros h2 uv2 names locals' i' Ho2 Hl2 Huv2 Hb. change (negb (0 =? 0)) with false. wp_go.
  rewrite !insert_insert_eq.
  eapply (wp_udp_connection_close c m h); [apply lookup_insert_eq|done|done|apply lookup_insert_eq|done|exact Hp|apply lookup_insert_eq|done|].
  world_simpl. rewrite !insert_insert_eq. wp_go. unfold udp_socket_of. wp_go.
  eapply wp_manager_of; [apply lookup_insert_eq|done|]. wp_go. eapply wp_manager_at; [apply lookup_insert_eq|].
  unfold udp_handle_of, udp_state. cbn [sm_internal_socket_manager_state]. wp_go.
  eapply (wp_socket_closed c m h); [apply lookup_insert_eq|done|apply lookup_insert_eq|done|apply lookup_insert_eq|done|done|].
  world_simpl. rewrite !insert_insert_eq. wp_go.
  eapply (wp_connection_free c m g);
    [apply lookup_insert_eq|done|exact Hsec'|done|done|apply lookup_insert_eq|exact Htp|apply lookup_insert_eq
    |change (pi_enum impl <> CT_PROTOCOL_QUIC); by rewrite Hp| |intros; apply delete_insert_eq|].
  { cbn [sm_all_connections g_slist_remove]. rewrite bool_decide_true by done. eapply udp_frees_manager; [done|done|exact Hp|apply lookup_insert_eq|done]. }
  intros live ->. wp_go. split; [done|]. world_simpl. unfold same_tables. world_simpl.
  assert (Hfr : forall k, (c <= k)%positive -> w_connections w !! k = None /\ w_groups w !! k = None /\
    w_managers w !! k = None /\ w_handles w !! k = None /\ w_requests w !! k = None) by apply Hfresh.
  rewrite !delete_insert_id by (apply Hfr; lia). split; [done|]. split; [by rewrite <- app_assoc|].
  unfold content_blocks, endpoint_blocks, locals_blocks in *. cbn in *. lia.
Qed.

End lifecycle.

(** ** A concrete application *)

Module Idle.

(** A picoquic that keeps its connections, all of them clients that are
    ready and use bidirectional stream 0. *)
#[export] Instance plain_picoquic : Picoquic := {
  picoquic_has_cnx _ _ := true; picoquic_is_client _ _ := true; picoquic_tls_is_psk_handshake _ _ := false;
  picoquic_get_cnx_state _ _ := 1; picoquic_state_ready := 1; picoquic_get_remote_error _ _ := 0;
  picoquic_get_next_local_stream_id _ _ _ := 0; picoquic_get_callback_context _ _ := None;
  picoquic_get_quic_ctx _ x := x; picoquic_get_default_callback_context _ s := Some (SocketCtx s) }.

(** Framers that change nothing. *)
#[export] Instance plain_framers : Framers := {
  framer_encode _ c message ctx send := send c message ctx;
  framer_decode _ c message ctx deliver := deliver c message ctx }.

#[export] Instance insertion_order : HashOrder := { hash_order A l := l; hash_order_perm A l := Permutation_refl l }.

Definition some_properties : ct_transport_properties :=
  TransportProperties DEFAULT_SELECTION_PROPERTIES DEFAULT_CONNECTION_PROPERTIES.
Definition some_local : ct_local_endpoint := LocalEndpoint 0 None None loopback_v4.
Definition some_remote (port : Z) : ct_remote_endpoint := RemoteEndpoint port None None (set_port port loopback_v4).
Definition some_callbacks : ct_connection_callbacks :=
  ConnectionCallbacks (Some (user_fn 1)) (Some (user_fn 2)) (Some (user_fn 3)) (Some (user_fn 4)) (Some (user_fn 5))
    (Some (user_fn 6)) (Some (user_fn 7)) None.
Definition empty_world : world := World (Heap [] 0) 1%positive ∅ ∅ ∅ ∅ ∅ ∅ [] [set_port 40000 loopback_v4] [] 0 0 [] quic_empty.

Lemma empty_world_fresh : fresh_world empty_world.
Proof. done. Qed.

Lemma udp_connection_lifecycle_witness :
  let remotes := [some_remote 80; some_remote 443] in
  wp (udp_life udp_protocol_interface [some_local] 0 remotes 1 some_properties None some_callbacks None) (fun a w' =>
    a = Some 1%positive /\ same_tables empty_world w'
    /\ w_calls w' = [] ++ [CallConnection (user_fn 4) Ready (Some 1%positive)]
         ++ [CallConnection (user_fn 5) Closed (Some 1%positive)]
    /\ h_live (w_heap w') = 0 - endpoint_blocks [some_local] remotes) empty_world.
Proof.
  intros remotes. apply (udp_connection_lifecycle udp_protocol_interface [some_local] 0 some_local remotes 1 (some_remote 443)
    some_properties None some_callbacks None empty_world); try done; try (by constructor).
  - split; [apply wf_set_port, loopback_v4_wf|by vm_compute].
  - split; [apply wf_default_selection|apply sets_ok_default].
Defined.

(** An established connection over UDP with its objects. *)
Definition udp_connection : ct_connection :=
  Connection [] (Some 3%positive) None 0 (Some [some_local]) 1 (Some [some_remote 80; some_remote 443]) CT_CONN_STATE_ESTABLISHED
    100 true true None None CT_CONNECTION_ROLE_CLIENT some_callbacks (Some 2%positive) (Some []) (Some []) false.
Definition udp_world (uv : list Z) : world :=
  World (Heap [] 20) 5%positive {[1%positive := udp_connection]} ∅
    {[2%positive := SocketManager (udp_state 4%positive) 1 [1%positive] (Some []) udp_protocol_interface None CT_CLOSE_TYPE_GRACEFUL]}
    ∅ {[4%positive := udp_handle 2%positive HandleOpen ephemeral_addr]} ∅ uv [] [] 0 0 [] quic_empty.

Lemma udp_message_exactly_once_witness :
  let msg := Message (Some [1; 2; 3]) 2 in
  let ctx := Some (MessageContext DEFAULT_MESSAGE_PROPERTIES None None None) in
  let w := udp_world [0; -4] in
  content_bytes msg = Some [1; 2] /\
  wp (ct_send_message_full 1%positive (Some msg) ctx) (fun rc w1 =>
    rc = next_rc w /\ w_connections w1 = <[1%positive := udp_connection]> (w_connections w) /\ w_calls w1 = w_calls w /\
    (rc < 0 -> w_requests w1 = w_requests w /\ h_live (w_heap w1) = h_live (w_heap w)) /\
    (0 <= rc -> exists req copy ctx',
       w_requests w1 = <[req := UdpSendRequest (Some (SendData 1%positive (Some copy) (Some ctx')))]> (w_requests w) /\
       content_bytes copy = Some [1; 2] /\
       forall status, wp (on_send req status) (fun _ w2 =>
         w_requests w2 = w_requests w /\ h_live (w_heap w2) = h_live (w_heap w) /\
         w_connections w2 = w_connections w1 /\
         w_calls w2 = w_calls w ++ send_outcome (cn_callbacks udp_connection) status 1%positive) w1) /\
    (is_final ctx = true -> forall msg' ctx',
       wp (ct_send_message_full 1%positive msg' ctx') (fun rc w2 => rc = - EPIPE /\ w2 = w1) w1)) w.
Proof.
  intros msg ctx w. split; [done|].
  apply (udp_message_exactly_once 1%positive 2%positive 4%positive udp_connection
    (SocketManager (udp_state 4%positive) 1 [1%positive] (Some []) udp_protocol_interface None CT_CLOSE_TYPE_GRACEFUL)
    (udp_handle 2%positive HandleOpen ephemeral_addr) (some_remote 443) msg [1; 2] ctx w); try done. by constructor.
Defined.
End Idle.
