(* ===== verification/TcpLifecycle.v ===== *)
(** The life of a connection over TCP.

    From [ct_connection_create_client] through [tcp_init], the completion of
    the connect request, [ct_connection_close] and the loop's close callback
    to [ct_connection_free], for a connect that succeeds and for one that
    fails. *)

From S2P Require Export Lifecycle.
Open Scope Z_scope.

Section tcp_lifecycle.
Context `{!Picoquic, !Framers, !HashOrder}.

(** ** Connecting *)

Definition tcp_state (c req h : id) : option socket_state := Some (TcpSocketState (Some c) None None None (Some req) h).
Definition tcp_handle (m : id) (read : option read_cb) (ph : handle_phase) : uv_handle := Handle (Some m) read false ph None.

Lemma wp_keepalive c conn g gr (Q : unit -> world -> Prop) w :
  uv_ok w -> w_connections w !! c = Some conn -> cn_connection_group conn = Some g -> w_groups w !! g = Some gr ->
  (forall uv, Forall (fun rc => 0 <= rc) uv -> Q tt (set_w_uv uv w)) -> wp (set_keepalive c) Q w.
Proof.
  intros Huv Hc Hg Hgr HQ. unfold set_keepalive, ct_connection_get_transport_properties. wp_go.
  eapply wp_connection_at; [exact Hc|]. rewrite Hg. wp_go. eapply wp_group_at; [exact Hgr|]. wp_go.
  destruct (negb _); wp_go; [apply wp_uv_rc; [exact Huv|]; intros _ uv _ Huv'; wp_go; by apply HQ|].
  specialize (HQ (w_uv w) Huv). by destruct w.
Qed.

Lemma wp_active_remote c conn r (Q : ct_remote_endpoint -> world -> Prop) w :
  w_connections w !! c = Some conn -> remote_list conn !! cn_active_remote_endpoint conn = Some r -> Q r w ->
  wp (active_remote_endpoint c) Q w.
Proof.
  intros Hc Hr HQ. unfold active_remote_endpoint, ct_connection_get_active_remote_endpoint, remote_endpoint_at. wp_go.
  eapply wp_connection_at; [exact Hc|]. wp_go. eapply wp_connection_at; [exact Hc|]. by wp_go.
Qed.

(** The connect request is handed to libuv, and the socket is given its local address. *)
Lemma wp_tcp_start_connect c g conn gr locals r req h x (Q : Z -> world -> Prop) w :
  oracle_ok (w_heap w) -> uv_ok w -> names_ok w ->
  w_connections w !! c = Some conn -> cn_connection_group conn = Some g -> w_groups w !! g = Some gr ->
  cn_all_local_endpoints conn = Some locals -> is_Some (locals !! cn_active_local_endpoint conn) ->
  remote_list conn !! cn_active_remote_endpoint conn = Some r -> w_handles w !! h = Some x ->
  (forall heap uv names locals' i', oracle_ok heap -> h_live heap = h_live (w_heap w) ->
     Forall (fun rc => 0 <= rc) uv -> locals_blocks locals' = locals_blocks locals ->
     Q 0 (World heap (w_next w) (<[c := with_locals locals' i' conn]> (w_connections w)) (w_groups w) (w_managers w)
       (w_listeners w) (w_handles w) (<[req := TcpConnectRequest h false true]> (w_requests w)) uv names (w_entropy w)
       (w_uuid_counter w) (w_time w) (w_calls w) (w_quic w))) ->
  wp (tcp_start_connect c (Some req) h) Q w.
Proof.
  intros Ho Huv Hn Hc Hg Hgr Hlocals Hact Hr Hh HQ. unfold tcp_start_connect. wp_go.
  eapply wp_keepalive; [exact Huv|exact Hc|exact Hg|exact Hgr|]. intros uv2 Huv2. wp_go.
  eapply wp_active_remote; [exact Hc|exact Hr|]. wp_go. unfold uv_tcp_connect. wp_go.
  apply wp_uv_rc; [exact Huv2|]. intros rc3 uv3 Hrc3 Huv3. rewrite (proj2 (Z.ltb_ge _ _) Hrc3). unfold set_request. wp_go.
  rewrite (proj2 (Z.ltb_ge _ _) Hrc3). wp_go.
  eapply (wp_resolve_local h _ c conn locals); [exact Ho|exact Huv3|exact Hn|exact Hh|exact Hc|exact Hlocals|exact Hact|].
  intros h4 uv4 names locals' i' Ho4 Hl4 Huv4 Hb Hi'. cbn [Z.ltb Z.compare]. wp_go.
  by apply (HQ h4 uv4 names locals' i').
Qed.

(** A TCP handle and a connect request. *)
Lemma wp_tcp_handle (k : id -> option id -> M world Z) (Q : Z -> world -> Prop) w :
  oracle_ok (w_heap w) -> uv_ok w ->
  (forall heap uv, oracle_ok heap -> h_live heap = h_live (w_heap w) + 2 -> Forall (fun rc => 0 <= rc) uv ->
     let h := w_next w in
     let req := Pos.succ h in
     wp (k h (Some req)) Q (World heap (Pos.succ req) (w_connections w) (w_groups w) (w_managers w) (w_listeners w)
       (<[h := Handle None None false HandleOpen None]> (w_handles w)) (<[req := TcpConnectRequest h false false]> (w_requests w))
       uv (w_names w) (w_entropy w) (w_uuid_counter w) (w_time w) (w_calls w) (w_quic w))) ->
  wp (ok ← on_heap malloc;
      if negb ok then mret (- ENOMEM) else
      rc ← uv_rc;
      if rc <? 0 then on_heap free_block ;; mret rc else
      h ← new_handle;
      connect_req ← malloc_connect_req h false;
      k h connect_req) Q w.
Proof.
  intros Ho Huv HQ. wp_go.
  eapply wp_heap_allocs; [exact Ho|apply allocs_malloc|]. intros ? h1 <- Ho1 Hl1. cbn [negb]. wp_go.
  apply wp_uv_rc; [exact Huv|]. intros rc1 uv1 Hrc1 Huv1. rewrite (proj2 (Z.ltb_ge _ _) Hrc1). unfold new_handle, fresh_id. wp_go.
  unfold malloc_connect_req, new_request, fresh_id. wp_go.
  eapply wp_heap_allocs; [exact Ho1|apply allocs_malloc|]. intros ? h2 <- Ho2 Hl2. cbn [negb]. wp_go.
  apply HQ; [done| |done]. cbn in *. lia.
Qed.

Lemma wp_tcp_init c m g conn sm gr locals r (Q : Z -> world -> Prop) w :
  oracle_ok (w_heap w) -> uv_ok w -> names_ok w ->
  w_connections w !! c = Some conn -> cn_socket_manager conn = Some m -> w_managers w !! m = Some sm ->
  cn_connection_group conn = Some g -> w_groups w !! g = Some gr ->
  cn_all_local_endpoints conn = Some locals -> is_Some (locals !! cn_active_local_endpoint conn) ->
  remote_list conn !! cn_active_remote_endpoint conn = Some r ->
  (forall heap uv names locals' i', oracle_ok heap -> h_live heap = h_live (w_heap w) + 3 ->
     Forall (fun rc => 0 <= rc) uv -> locals_blocks locals' = locals_blocks locals ->
     let h := w_next w in
     let req := Pos.succ h in
     Q 0 (World heap (Pos.succ req) (<[c := with_locals locals' i' conn]> (w_connections w)) (w_groups w)
       (<[m := set_sm_internal_socket_manager_state (tcp_state c req h) sm]> (w_managers w)) (w_listeners w)
       (<[h := tcp_handle m None HandleOpen]> (w_handles w)) (<[req := TcpConnectRequest h false true]> (w_requests w))
       uv names (w_entropy w) (w_uuid_counter w) (w_time w) (w_calls w) (w_quic w))) ->
  wp (tcp_init c) Q w.
Proof.
  intros Ho Huv Hn Hc Hcm Hm Hg Hgr Hlocals Hact Hr HQ. apply wp_tcp_handle; [exact Ho|exact Huv|].
  intros h2 uv1 Ho2 Hl2 Huv1. set (h := w_next w) in *. cbn zeta. wp_go.
  eapply wp_manager_of; [exact Hc|exact Hcm|]. wp_go. eapply wp_update_handle; [apply lookup_insert_eq|]. wp_go.
  unfold ct_tcp_socket_state_new. wp_go.
  eapply wp_heap_allocs; [exact Ho2|apply allocs_malloc|]. intros ? h3 <- Ho3 Hl3. wp_go. world_simpl. rewrite insert_insert_eq.
  eapply wp_update_manager; [exact Hm|]. cbn [is_Some_b negb]. world_simpl.
  eapply (wp_tcp_start_connect c g conn gr locals r);
    [exact Ho3|exact Huv1|exact Hn|exact Hc|exact Hg|exact Hgr|exact Hlocals|exact Hact|exact Hr|apply lookup_insert_eq|].
  intros h4 uv4 names locals' i' Ho4 Hl4 Huv4 Hb. world_simpl. rewrite insert_insert_eq.
  apply HQ; [exact Ho4| |exact Huv4|exact Hb]. cbn in *. lia.
Qed.
(** ** The connect request completes *)

Section connected.
Context (c m h req : id) (conn : ct_connection) (sm : ct_socket_manager).
Context (Hcm : cn_socket_manager conn = Some m) (Hs : sm_internal_socket_manager_state sm = tcp_state c req h).

Lemma wp_state_of (Q : socket_state -> world -> Prop) w :
  w_managers w !! m = Some sm -> Q (TcpSocketState (Some c) None None None (Some req) h) w -> wp (tcp_state_of m) Q w.
Proof. intros Hm HQ. unfold tcp_state_of. wp_go. eapply wp_manager_at; [exact Hm|]. rewrite Hs. unfold tcp_state. by wp_go. Qed.

Lemma wp_data_of x (Q : id -> world -> Prop) w :
  w_handles w !! h = Some x -> uh_data x = Some m -> Q m w -> wp (data_of h) Q w.
Proof. intros Hh Hd HQ. unfold data_of. wp_go. eapply wp_handle_at; [exact Hh|]. rewrite Hd. by wp_go. Qed.

Lemma wp_tcp_connected_ok x status (Q : unit -> world -> Prop) w :
  uv_ok w -> w_connections w !! c = Some conn -> w_managers w !! m = Some sm ->
  w_handles w !! h = Some x -> uh_data x = Some m -> w_requests w !! req = Some (TcpConnectRequest h false true) -> 0 <= status ->
  (forall uv, Forall (fun rc => 0 <= rc) uv ->
     Q tt (World (w_heap w) (w_next w) (<[c := established conn]> (w_connections w)) (w_groups w) (w_managers w) (w_listeners w)
       (<[h := set_read (Some tcp_on_read_ptr) x]> (w_handles w)) (<[req := TcpConnectRequest h false false]> (w_requests w)) uv
       (w_names w) (w_entropy w) (w_uuid_counter w) (w_time w) (w_calls w ++ called (cb_ready (cn_callbacks conn)) Ready c) (w_quic w))) ->
  wp (tcp_connected req status) Q w.
Proof.
  intros Huv Hc Hm Hh Hd Hreq Hst HQ. unfold tcp_connected, request_at. wp_go. unfold set_request. wp_go. unfold on_connect. wp_go.
  eapply wp_data_of; [exact Hh|exact Hd|]. wp_go. eapply wp_state_of; [exact Hm|]. unfold tcp_connection_of, tcp_handle_of. wp_go.
  rewrite (proj2 (Z.ltb_ge _ _) Hst). wp_go. apply wp_uv_rc; [exact Huv|]. intros rc uv Hrc Huv'. wp_go.
  eapply wp_update_handle; [exact Hh|]. wp_go. eapply wp_connection_ready; [exact Hc|]. world_simpl. by apply HQ.
Qed.

Lemma wp_tcp_connected_error x status (Q : unit -> world -> Prop) w :
  w_managers w !! m = Some sm -> w_handles w !! h = Some x -> uh_data x = Some m -> uh_phase x = HandleOpen ->
  w_requests w !! req = Some (TcpConnectRequest h false true) -> status < 0 ->
  Q tt (set_w_handles (<[h := set_phase (HandleClosing (Some on_libuv_close_after_error_ptr)) x]> (w_handles w))
         (set_w_requests (<[req := TcpConnectRequest h false false]> (w_requests w)) w)) ->
  wp (tcp_connected req status) Q w.
Proof.
  intros Hm Hh Hd Hph Hreq Hst HQ. unfold tcp_connected, request_at. wp_go. unfold set_request. wp_go. unfold on_connect. wp_go.
  eapply wp_data_of; [exact Hh|exact Hd|]. wp_go. eapply wp_state_of; [exact Hm|]. unfold tcp_connection_of, tcp_handle_of. wp_go.
  rewrite (proj2 (Z.ltb_lt _ _) Hst). unfold uv_is_closing. wp_go. eapply wp_handle_at; [exact Hh|]. wp_go.
  unfold is_open. rewrite Hph. cbn [negb when]. eapply wp_uv_close; [exact Hh|exact Hph|exact HQ].
Qed.

(** ** Closing *)

Lemma wp_tcp_connection_close x (Q : unit -> world -> Prop) w :
  w_connections w !! c = Some conn -> cn_state conn = CT_CONN_STATE_ESTABLISHED -> w_managers w !! m = Some sm ->
  sm_protocol sm = CT_PROTOCOL_TCP -> w_handles w !! h = Some x -> uh_phase x = HandleOpen ->
  Q tt (set_w_handles (<[h := set_phase (HandleClosing (Some on_libuv_close_ptr)) x]> (w_handles w))
         (set_w_connections (<[c := set_cn_state CT_CONN_STATE_CLOSING conn]> (w_connections w)) w)) ->
  wp (ct_connection_close c) Q w.
Proof.
  intros Hc Hst Hm Hp Hh Hph HQ. unfold ct_connection_close. wp_go.
  eapply wp_is_closed_or_closing; [exact Hc|]. rewrite Hst, bool_decide_false by (by intros []). wp_go.
  eapply wp_update_connection; [exact Hc|]. unfold ct_socket_manager_close_connection. wp_go.
  eapply wp_protocol_of; [apply lookup_insert_eq|exact Hcm|exact Hm|]. rewrite Hp.
  cbn [impl_close_connection ctaps_close]. unfold tcp_close. wp_go.
  eapply wp_manager_of; [apply lookup_insert_eq|exact Hcm|]. wp_go. eapply wp_state_of; [exact Hm|]. unfold tcp_handle_of. wp_go.
  eapply wp_uv_close; [exact Hh|exact Hph|]. by wp_go.
Qed.

(** The call that tells why a connection ended. *)
Definition ended (r : ct_close_reason) (cbs : ct_connection_callbacks) : list call :=
  match r with
  | CT_CLOSE_TYPE_GRACEFUL => called (cb_closed cbs) Closed c
  | CT_CLOSE_TYPE_CONNECTION_ERROR => called (cb_connection_error cbs) ConnectionError c
  | CT_CLOSE_TYPE_ESTABLISHMENT_ERROR => called (cb_establishment_error cbs) EstablishmentError c
  end.

(** The manager of one connection closes the TCP socket for the reason [r]. *)
Lemma wp_close_sole r (Q : unit -> world -> Prop) w :
  w_connections w !! c = Some conn -> cn_state conn <> CT_CONN_STATE_CLOSED -> w_managers w !! m = Some sm ->
  sm_all_connections sm = [c] -> sm_protocol sm = CT_PROTOCOL_TCP ->
  Q tt (set_w_calls (w_calls w ++ ended r (cn_callbacks conn))
         (set_w_connections (<[c := set_cn_state CT_CONN_STATE_CLOSED conn]> (w_connections w))
           (set_w_managers (<[m := set_sm_close_reason r sm]> (w_managers w)) w))) ->
  wp (set_close_reason m r ;; ct_socket_manager_close (Some m)) Q w.
Proof.
  intros Hc Hst Hm Hall Hp HQ. unfold set_close_reason. wp_go. eapply wp_update_manager; [exact Hm|]. unfold ct_socket_manager_close. wp_go.
  eapply wp_manager_at; [apply lookup_insert_eq|]. change (sm_protocol (set_sm_close_reason r sm)) with (sm_protocol sm). rewrite Hp.
  cbn [impl_close_socket ctaps_sockets]. unfold tcp_close_socket, ct_socket_manager_closed_socket_cb, ct_socket_manager_get_last_open_connection. wp_go.
  eapply wp_manager_at; [apply lookup_insert_eq|]. change (sm_all_connections (set_sm_close_reason r sm)) with (sm_all_connections sm).
  rewrite Hall. cbn [first_open]. wp_go. eapply wp_is_closed; [exact Hc|]. rewrite bool_decide_false by done. wp_go.
  eapply wp_update_connection; [exact Hc|]. unfold ct_socket_manager_notify_of_connection_close. wp_go.
  eapply wp_manager_at; [apply lookup_insert_eq|]. wp_go. eapply wp_connection_at; [apply lookup_insert_eq|].
  cbn [sm_close_reason set_sm_close_reason]. destruct r; apply wp_call_connection; exact HQ.
Qed.

Lemma wp_sole_dependent (Q : Z -> world -> Prop) w :
  w_connections w !! c = Some conn -> cn_state conn <> CT_CONN_STATE_CLOSED -> w_managers w !! m = Some sm ->
  sm_all_connections sm = [c] -> sm_listener sm = None -> Q 1 w -> wp (ct_socket_manager_get_num_open_dependents m) Q w.
Proof.
  intros Hc Hst Hm Hall Hl HQ. unfold ct_socket_manager_get_num_open_dependents. wp_go. eapply wp_manager_at; [exact Hm|].
  rewrite Hl, Hall. cbn [count_open]. wp_go. eapply wp_is_closed; [exact Hc|]. rewrite bool_decide_false by done. by wp_go.
Qed.

(** The loop has closed the handle, after [ct_connection_close] or after the connect request failed. *)
Lemma wp_tcp_handle_closed x failed (Q : unit -> world -> Prop) w :
  w_connections w !! c = Some conn -> cn_state conn <> CT_CONN_STATE_CLOSED -> w_managers w !! m = Some sm ->
  sm_all_connections sm = [c] -> sm_listener sm = None -> sm_protocol sm = CT_PROTOCOL_TCP ->
  w_handles w !! h = Some x -> uh_data x = Some m ->
  uh_phase x = HandleClosing (Some (if failed : bool then on_libuv_close_after_error_ptr else on_libuv_close_ptr)) ->
  (let r := if failed then CT_CLOSE_TYPE_ESTABLISHMENT_ERROR else CT_CLOSE_TYPE_GRACEFUL in
   Q tt (World (w_heap w) (w_next w) (<[c := set_cn_state CT_CONN_STATE_CLOSED conn]> (w_connections w)) (w_groups w)
     (<[m := set_sm_close_reason r sm]> (w_managers w)) (w_listeners w) (<[h := set_phase HandleClosed x]> (w_handles w))
     (w_requests w) (w_uv w) (w_names w) (w_entropy w) (w_uuid_counter w) (w_time w) (w_calls w ++ ended r (cn_callbacks conn)) (w_quic w))) ->
  wp (handle_closed h) Q w.
Proof.
  intros Hc Hst Hm Hall Hl Hp Hh Hd Hph HQ. unfold handle_closed. wp_go. eapply wp_handle_at; [exact Hh|]. rewrite Hph. wp_go.
  eapply wp_update_handle; [exact Hh|]. destruct failed; cbn [run_close_cb].
  all: unfold on_libuv_close_after_error, on_libuv_close, connection_of; wp_go.
  all: eapply wp_data_of; [apply lookup_insert_eq|exact Hd|]; wp_go; eapply wp_state_of; [exact Hm|]; unfold tcp_connection_of; wp_go.
  all: unfold ct_socket_manager_establishment_error_cb, ct_socket_manager_closed_connection_cb; wp_go.
  all: eapply wp_manager_of; [exact Hc|exact Hcm|]; wp_go.
  all: eapply wp_sole_dependent; [exact Hc|exact Hst|exact Hm|exact Hall|exact Hl|]; change (1 =? 1) with true; cbn iota.
  all: eapply wp_close_sole; [exact Hc|exact Hst|exact Hm|exact Hall|exact Hp|exact HQ].
Qed.

(** ** Freeing *)

Lemma tcp_frees_manager x w :
  sm_ref_count sm = 1 -> sm_protocol sm = CT_PROTOCOL_TCP ->
  w_handles w !! h = Some x -> uh_phase x = HandleClosed -> w_requests w !! req = Some (TcpConnectRequest h false false) ->
  frees_manager m sm 4 (delete m) (delete h (w_handles w)) (delete req (w_requests w)) w.
Proof.
  intros Href Hp Hh Hph Hreq Q w' Hm Hhs Hrs HQ. rewrite <- Hhs in Hh, HQ. rewrite <- Hrs in Hreq, HQ. unfold ct_socket_manager_unref. wp_go. eapply wp_update_manager; [exact Hm|]. wp_go.
  eapply wp_manager_at; [apply lookup_insert_eq|]. cbn [sm_ref_count set_sm_ref_count]. rewrite Href. change (1 - 1 =? 0) with true. cbn [when].
  unfold ct_socket_manager_free. wp_go.
  eapply wp_manager_at; [apply lookup_insert_eq|]. change (sm_protocol (set_sm_ref_count _ sm)) with (sm_protocol sm). rewrite Hp. wp_go.
  cbn [call_impl impl_free_socket_state ctaps_sockets]. unfold tcp_free_socket_state. wp_go.
  eapply wp_manager_at; [apply lookup_insert_eq|].
  change (sm_internal_socket_manager_state (set_sm_ref_count _ sm)) with (sm_internal_socket_manager_state sm). rewrite Hs. unfold tcp_state.
  unfold ct_tcp_socket_state_free, free_connect_req, request_at, drop_request, free_handle. wp_go.
  eapply wp_heap_frees; [apply frees_block|]. wp_go. eapply (wp_heap_frees _ 0); [apply frees_ret|]. wp_go.
  eapply wp_handle_at; [exact Hh|]. wp_go. { by rewrite Hph. }
  eapply wp_heap_frees; [apply frees_block|]. wp_go. eapply wp_heap_frees; [apply frees_block|]. wp_go.
  eapply wp_update_manager; [apply lookup_insert_eq|]. world_simpl. wp_go. eapply wp_heap_frees; [apply frees_block|]. world_simpl.
  rewrite insert_insert_eq, delete_insert_eq. cbn [h_oracle h_live] in *.
  replace (h_live (w_heap w') - 1 - 0 - 1 - 1 - 1) with (h_live (w_heap w') - 4) by lia. exact HQ.
Qed.
End connected.

(** ** From creation to release *)

(** The socket and the connect request of a TCP connection. *)
Definition tcp_socket_of (c : id) : M world (id * id) :=
  m ← manager_of c;
  s ← tcp_state_of m;
  match s with
  | TcpSocketState _ _ _ _ (Some req) h => mret (h, req)
  | _ => ub "no connect request"
  end.

(** A client connects, which completes with [status]; it closes an
    established connection, lets the loop close the socket and frees the
    connection. *)
Definition tcp_life impl locals i remotes j props sec cbs fr (status : Z) : M world (option id) :=
  c ← ct_connection_create_client impl (Some locals) i (Some remotes) j (Some props) sec (Some cbs) fr;
  match c with
  | None => mret None
  | Some c =>
      rc ← tcp_init c;
      if negb (rc =? 0) then mret None else
      '(h, req) ← tcp_socket_of c;
      tcp_connected req status ;;
      when (negb (status <? 0)) (ct_connection_close c) ;;
      handle_closed h ;;
      ct_connection_free (Some c) ;;
      mret (Some c)
  end.

(** What the application hears. *)
Definition tcp_calls (cbs : ct_connection_callbacks) (status : Z) (c : id) : list call :=
  if status <? 0 then called (cb_establishment_error cbs) EstablishmentError c
  else called (cb_ready cbs) Ready c ++ called (cb_closed cbs) Closed c.

(** The end of a TCP connection, after its connect request has completed. *)
Lemma wp_tcp_end c m g h req conn sm gu t tp (failed : bool) x (Q : option id -> world -> Prop) w :
  w_connections w !! c = Some conn -> cn_state conn <> CT_CONN_STATE_CLOSED -> cn_internal_connection_state conn = None ->
  sec_ok (cn_security_parameters conn) -> cn_connection_group conn = Some g -> cn_socket_manager conn = Some m ->
  w_groups w !! g = Some (ConnectionGroup gu (Some t) 1 (Some tp) None) -> wf_selection (selection_properties tp) ->
  w_managers w !! m = Some sm -> sm_internal_socket_manager_state sm = tcp_state c req h -> sm_ref_count sm = 1 ->
  sm_all_connections sm = [c] -> sm_listener sm = None -> sm_protocol sm = CT_PROTOCOL_TCP ->
  w_handles w !! h = Some x -> uh_data x = Some m ->
  uh_phase x = HandleClosing (Some (if failed then on_libuv_close_after_error_ptr else on_libuv_close_ptr)) ->
  w_requests w !! req = Some (TcpConnectRequest h false false) ->
  (forall o live, live = h_live (w_heap w) - content_blocks conn - tp_blocks tp - 6 ->
     Q (Some c) (World (Heap o live) (w_next w) (delete c (w_connections w)) (delete g (w_groups w)) (delete m (w_managers w))
       (w_listeners w) (delete h (w_handles w)) (delete req (w_requests w)) (w_uv w) (w_names w) (w_entropy w)
       (w_uuid_counter w) (w_time w)
       (w_calls w ++ ended c (if failed then CT_CLOSE_TYPE_ESTABLISHMENT_ERROR else CT_CLOSE_TYPE_GRACEFUL) (cn_callbacks conn)) (w_quic w))) ->
  wp (handle_closed h) (fun _ => wp (ct_connection_free (Some c) ;; mret (Some c)) Q) w.
Proof.
  intros Hc Hst Hi Hsec Hg Hcm Hgr Htp Hm Hs Href Hall Hl Hp Hh Hd Hph Hreq HQ. wp_go.
  eapply (wp_tcp_handle_closed c m h req conn sm Hcm Hs x failed); [done..|]. cbn zeta. wp_go.
  eapply (wp_connection_free c m g _ _ gu t tp 4 (delete m) (delete h (w_handles w)) (delete req (w_requests w)));
    [apply lookup_insert_eq|exact Hi|exact Hsec|exact Hg|exact Hcm|exact Hgr|exact Htp|apply lookup_insert_eq| | |intros; apply delete_insert_eq|].
  { change (sm_protocol sm <> CT_PROTOCOL_QUIC). by rewrite Hp. }
  { set (w1 := World _ _ _ _ _ _ _ _ _ _ _ _ _ _ _).
    rewrite <- (delete_insert_eq (w_handles w) h (set_phase HandleClosed x)).
    change (<[h := set_phase HandleClosed x]> (w_handles w)) with (w_handles w1). change (w_requests w) with (w_requests w1).
    cbn [sm_all_connections set_sm_close_reason]; rewrite Hall; cbn [g_slist_remove]; rewrite bool_decide_true by done;
    match goal with |- frees_manager _ ?s _ _ _ _ _ => eapply (tcp_frees_manager c m h req s Hs) end; [exact Href|exact Hp|apply lookup_insert_eq|done|exact Hreq]. }
  intros live ->. wp_go. world_simpl. rewrite !delete_insert_eq. apply HQ.
  change (content_blocks (set_cn_state CT_CONN_STATE_CLOSED conn)) with (content_blocks conn). lia.
Qed.

(** C14: a client connection over TCP, whatever comes of its connect
    request, leaves nothing behind.  When allocations and libuv calls
    succeed, [ct_connection_create_client], [tcp_init], the completion of the
    connect request with any status, [ct_connection_close] if it succeeded,
    the loop's close callback and [ct_connection_free] tell the application
    exactly [Ready] and then [Closed], or exactly [EstablishmentError] for a
    negative status; they restore every table and free every block allocated
    on the way, and the two arrays of endpoints the connection took over. *)
Theorem tcp_connection_lifecycle impl locals i l remotes j r props sec cbs fr status w :
  oracle_ok (w_heap w) -> uv_ok w -> names_ok w -> fresh_world w -> pi_enum impl = CT_PROTOCOL_TCP -> locals !! i = Some l ->
  remotes !! j = Some r -> is_inet (re_resolved_address r) = true -> props_ok props -> sec_ok sec ->
  let c := w_next w in
  wp (tcp_life impl locals i remotes j props sec cbs fr status) (fun a w' =>
    a = Some c /\ same_tables w w' /\ w_calls w' = w_calls w ++ tcp_calls cbs status c
    /\ h_live (w_heap w') = h_live (w_heap w) - endpoint_blocks locals remotes) w.
Proof.
  intros Ho Huv Hn Hfresh Hp Hl Hr Hri Hprops Hsec c. unfold tcp_life. wp_go.
  eapply wp_create_client; [done..|]. intros h1 u gu tp sec' en k Ho1 Htp Hsec'%sec_copied_ok Hl1. wp_go. fold c in Hl1 |- *.
  set (m := Pos.succ c) in *. set (g := Pos.succ m) in *.
  eapply (wp_tcp_init c m g); [exact Ho1|exact Huv|exact Hn|apply lookup_insert_eq|done|apply lookup_insert_eq|done|apply lookup_insert_eq|done|by eexists|exact Hr|].
  world_simpl. set (h := Pos.succ g) in *. set (req := Pos.succ h) in *. intros h2 uv2 names locals' i' Ho2 Hl2 Huv2 Hb.
  change (negb (0 =? 0)) with false. rewrite !insert_insert_eq. wp_go. unfold tcp_socket_of. wp_go.
  eapply wp_manager_of; [apply lookup_insert_eq|done|]. wp_go. eapply (wp_state_of c m h req); [|apply lookup_insert_eq|]; [done|]. wp_go.
  assert (Hfr : forall k, (c <= k)%positive -> w_connections w !! k = None /\ w_groups w !! k = None /\
    w_managers w !! k = None /\ w_handles w !! k = None /\ w_requests w !! k = None) by apply Hfresh.
  unfold tcp_calls. destruct (Z.ltb_spec status 0) as [Hst|Hst]; cbn [negb when].
  - eapply (wp_tcp_connected_error c m h req); [|apply lookup_insert_eq|apply lookup_insert_eq|..|apply lookup_insert_eq|exact Hst|]; [done..|].
    world_simpl. rewrite !insert_insert_eq. wp_go. unfold when. wp_go.
    eapply (wp_tcp_end c m g h req _ _ gu _ tp true);
      [apply lookup_insert_eq|done|done|exact Hsec'|done|done|apply lookup_insert_eq|exact Htp|apply lookup_insert_eq|done|done|done|done|exact Hp
      |apply lookup_insert_eq|done|done|apply lookup_insert_eq|].
    intros o live ->. split; [done|]. world_simpl. unfold same_tables. world_simpl.
    rewrite !delete_insert_id by (apply Hfr; lia). split; [done|]. split; [done|].
    unfold content_blocks, endpoint_blocks, locals_blocks in *. cbn in *. lia.
  - eapply (wp_tcp_connected_ok c m h req); [|exact Huv2|apply lookup_insert_eq|apply lookup_insert_eq|apply lookup_insert_eq|..|apply lookup_insert_eq|exact Hst|]; [done..|].
    world_simpl. rewrite !insert_insert_eq. intros uv3 Huv3. wp_go.
    eapply (wp_tcp_connection_close c m h req); [| |apply lookup_insert_eq|done|apply lookup_insert_eq|exact Hp|apply lookup_insert_eq|done|];
      [done..|]. world_simpl. rewrite !insert_insert_eq. wp_go.
    eapply (wp_tcp_end c m g h req _ _ gu _ tp false);
      [apply lookup_insert_eq|done|done|exact Hsec'|done|done|apply lookup_insert_eq|exact Htp|apply lookup_insert_eq|done|done|done|done|exact Hp
      |apply lookup_insert_eq|done|done|apply lookup_insert_eq|].
    intros o live ->. split; [done|]. world_simpl. unfold same_tables. world_simpl.
    rewrite !delete_insert_id by (apply Hfr; lia). split; [done|]. split; [by rewrite <- app_assoc|].
    unfold content_blocks, endpoint_blocks, locals_blocks in *. cbn in *. lia.
Qed.

End tcp_lifecycle.

Import Lifecycle.Idle.

Lemma tcp_connection_lifecycle_witness :
  let remotes := [some_remote 80; some_remote 443] in
  let life status := tcp_life tcp_protocol_interface [some_local] 0 remotes 1 some_properties None some_callbacks None status in
  let outcome status := fun a w' =>
    a = Some 1%positive /\ same_tables empty_world w' /\ w_calls w' = [] ++ tcp_calls some_callbacks status 1%positive
    /\ h_live (w_heap w') = 0 - endpoint_blocks [some_local] remotes in
  wp (life 0) (outcome 0) empty_world /\ wp (life (-111)) (outcome (-111)) empty_world.
Proof.
  intros remotes life outcome. subst life outcome. cbv beta.
  assert (names_ok empty_world) as Hn by (split; [apply wf_set_port, loopback_v4_wf|by vm_compute]).
  assert (props_ok some_properties) as Hp by (split; [apply wf_default_selection|apply sets_ok_default]).
  split.
  - apply (tcp_connection_lifecycle tcp_protocol_interface [some_local] 0 some_local remotes 1 (some_remote 443)
      some_properties None some_callbacks None 0 empty_world); [by constructor|by constructor|exact Hn|done..|exact Hp|done].
  - apply (tcp_connection_lifecycle tcp_protocol_interface [some_local] 0 some_local remotes 1 (some_remote 443)
      some_properties None some_callbacks None (-111) empty_world); [by constructor|by constructor|exact Hn|done..|exact Hp|done].
Defined.
