(* ===== verification/TcpMessages.v ===== *)
(** Messages over TCP.

    What [ct_send_message_full] and [tcp_send] hand to libuv and what the
    application hears when the write completes; and the stream of bytes that
    [tcp_on_read] receives, which meets the application's receive callbacks in
    order, up to the end of the stream. *)

From S2P Require Export TcpLifecycle.
Open Scope Z_scope.

Section messages.
Context `{!Picoquic, !Framers, !HashOrder}.

(** A connection over TCP, client or accepted, with its socket. *)
Record on_socket (c m h : id) (conn : ct_connection) (sm : ct_socket_manager) (x : uv_handle) (w : world) : Prop := {
  os_connection : w_connections w !! c = Some conn;
  os_to_manager : cn_socket_manager conn = Some m;
  os_manager : w_managers w !! m = Some sm;
  os_protocol : sm_protocol sm = CT_PROTOCOL_TCP;
  os_state : exists listener msg ctx req, sm_internal_socket_manager_state sm = Some (TcpSocketState (Some c) listener msg ctx req h);
  os_handle : w_handles w !! h = Some x;
  os_data : uh_data x = Some m }.

(** How the application hears of a completed write. *)
Definition write_outcome (cbs : ct_connection_callbacks) (status : Z) (c : id) : list call :=
  if status <? 0 then called (cb_send_error cbs) (SendError status) c else called (cb_sent cbs) Sent c.

Section socket.
Context {c m h : id} {conn : ct_connection} {sm : ct_socket_manager} {x : uv_handle}.

(** The connection changes, but not its socket manager. *)
Lemma on_socket_connection conn' w w' :
  on_socket c m h conn sm x w -> cn_socket_manager conn' = Some m ->
  w_connections w' !! c = Some conn' -> w_managers w' = w_managers w -> w_handles w' = w_handles w ->
  on_socket c m h conn' sm x w'.
Proof. intros [] Hcm Hc Hm Hh. split; [done|done|by rewrite Hm|done|done|by rewrite Hh|done]. Qed.

Lemma wp_tcp_state_of (Q : socket_state -> world -> Prop) w :
  on_socket c m h conn sm x w -> (forall s, tcp_connection_of s = mret c -> tcp_handle_of s = mret h -> Q s w) ->
  wp (tcp_state_of m) Q w.
Proof.
  intros [] HQ. destruct os_state0 as (l & msg & ctx & req & Hs). unfold tcp_state_of. wp_go.
  eapply wp_manager_at; [done|]. rewrite Hs. wp_go. by apply HQ.
Qed.

Lemma wp_socket_data (Q : id -> world -> Prop) w : on_socket c m h conn sm x w -> Q m w -> wp (data_of h) Q w.
Proof. intros [] HQ. unfold data_of. wp_go. eapply wp_handle_at; [done|]. rewrite os_data0. by wp_go. Qed.

Lemma wp_connection_of (Q : id -> world -> Prop) w : on_socket c m h conn sm x w -> Q c w -> wp (connection_of h) Q w.
Proof.
  intros Hon HQ. unfold connection_of. wp_go. eapply wp_socket_data; [exact Hon|]. wp_go.
  eapply wp_tcp_state_of; [exact Hon|]. intros s -> _. by wp_go.
Qed.

(** ** Sending *)

Lemma wp_socket_send msg ctx (Q : Z -> world -> Prop) w :
  oracle_ok (w_heap w) -> on_socket c m h conn sm x w ->
  (forall heap, next_rc w <> 0 -> oracle_ok heap -> h_live heap = h_live (w_heap w) + 1 ->
     Q (next_rc w) (set_w_uv (tail (w_uv w)) (set_w_heap heap w))) ->
  (forall heap, next_rc w = 0 -> oracle_ok heap -> h_live heap = h_live (w_heap w) + 2 ->
     Q 0 (set_w_requests (<[w_next w := TcpWriteRequest h (Some (SendData c (Some msg) ctx))]> (w_requests w))
       (set_w_next (Pos.succ (w_next w)) (set_w_uv (tail (w_uv w)) (set_w_heap heap w))))) ->
  wp (tcp_send c (Some msg) ctx) Q w.
Proof.
  intros Ho Hon Herr HQ. unfold tcp_send. wp_go.
  eapply wp_heap_allocs; [exact Ho|apply allocs_malloc|]. intros ? h1 <- Ho1 Hl1. wp_go. cbn [negb]. unfold ct_tcp_send_data_new. wp_go.
  eapply wp_heap_allocs; [exact Ho1|apply allocs_malloc|]. intros ? h2 <- Ho2 Hl2. wp_go. cbn [is_Some_b negb]. wp_go.
  assert (Hon2 : on_socket c m h conn sm x (set_w_heap h2 (set_w_heap h1 w))) by (by destruct Hon).
  eapply wp_manager_of; [apply Hon2|apply Hon2|]. wp_go. eapply wp_tcp_state_of; [exact Hon2|]. intros s _ ->. wp_go.
  eapply wp_handle_at; [apply Hon2|]. wp_go. apply wp_next_rc. change (next_rc (set_w_heap h2 (set_w_heap h1 w))) with (next_rc w).
  world_simpl. cbv beta in *. world_simpl. cbn [w_heap set_w_heap] in Hl2.
  destruct (Z.eqb_spec (next_rc w) 0) as [Hrc|Hrc]; cbn [negb]; wp_go.
  - unfold new_request, fresh_id. wp_go. apply HQ; [done|done|]. lia.
  - eapply wp_heap_frees; [apply frees_block|]. wp_go. apply Herr; [done|done|]. world_simpl. cbn [h_live]. lia.
Qed.

Lemma wp_on_write req msg ctx status (Q : unit -> world -> Prop) w :
  on_socket c m h conn sm x w -> w_requests w !! req = Some (TcpWriteRequest h (Some (SendData c (Some msg) (Some ctx)))) ->
  (forall o, Q tt (set_w_heap (Heap o (h_live (w_heap w) - msg_blocks msg - 3))
     (set_w_calls (w_calls w ++ write_outcome (cn_callbacks conn) status c) (set_w_requests (delete req (w_requests w)) w)))) ->
  wp (on_write req status) Q w.
Proof.
  intros Hon Hreq HQ. unfold on_write, request_at. wp_go. eapply wp_connection_of; [exact Hon|]. wp_go.
  cbn [sd_message sd_message_context]. unfold write_outcome in HQ.
  destruct (status <? 0); unfold ct_socket_manager_message_sent_cb, ct_socket_manager_message_send_error_cb; wp_go.
  all: eapply wp_connection_at; [apply Hon|]; wp_go; apply wp_call_connection; wp_go.
  all: eapply wp_heap_frees; [apply frees_context|]; wp_go.
  all: eapply wp_heap_frees; [apply frees_message|]; wp_go; eapply wp_heap_frees; [apply frees_block|]; wp_go.
  all: unfold drop_request; wp_go; eapply wp_heap_frees; [apply frees_block|]; world_simpl; cbn [h_oracle h_live].
  all: replace (h_live (w_heap w) - 1 - msg_blocks msg - 1 - 1) with (h_live (w_heap w) - msg_blocks msg - 3) by lia.
  all: apply HQ.
Qed.
End socket.

(** C23: a message sent over TCP is reported exactly once.  On an established
    connection without a framer, [ct_send_message_full] returns what [uv_write]
    returns.  If it fails there is no request, and everything is freed except the
    block of the send data, which leaks; if it succeeds the one new request holds
    a copy of the application's bytes, and whatever status [on_write] is called
    with, the application hears [Sent] or [SendError] once, the request is gone
    and every block is freed.  After a message marked [FINAL], sending fails with
    [-EPIPE] and changes nothing. *)
Theorem tcp_message_exactly_once c m h conn sm x msg bytes ctx w :
  oracle_ok (w_heap w) -> on_socket c m h conn sm x w -> cn_can_send conn = true -> cn_framer_impl conn = None ->
  content_bytes msg = Some bytes -> next_rc w <= 0 -> w_requests w !! w_next w = None ->
  let conn' := if is_final ctx then set_cn_can_send false conn else conn in
  wp (ct_send_message_full c (Some msg) ctx) (fun rc w1 =>
    rc = next_rc w /\ w_connections w1 = <[c := conn']> (w_connections w) /\ w_calls w1 = w_calls w /\
    (rc < 0 -> w_requests w1 = w_requests w /\ h_live (w_heap w1) = h_live (w_heap w) + 1) /\
    (rc = 0 -> exists req copy ctx',
       w_requests w1 = <[req := TcpWriteRequest h (Some (SendData c (Some copy) (Some ctx')))]> (w_requests w) /\
       content_bytes copy = Some bytes /\
       forall status, wp (on_write req status) (fun _ w2 =>
         w_requests w2 = w_requests w /\ h_live (w_heap w2) = h_live (w_heap w) /\
         w_connections w2 = w_connections w1 /\ w_calls w2 = w_calls w ++ write_outcome (cn_callbacks conn) status c) w1) /\
    (is_final ctx = true -> forall msg' ctx', wp (ct_send_message_full c msg' ctx') (fun rc w2 => rc = - EPIPE /\ w2 = w1) w1)) w.
Proof.
  intros Ho Hon Hcan Hfr Hbytes Hrc0 Hreq conn'. change conn' with (sending ctx conn). clear conn'.
  assert (Hsame : cn_socket_manager (sending ctx conn) = Some m /\ cn_callbacks (sending ctx conn) = cn_callbacks conn).
  { pose proof (os_to_manager _ _ _ _ _ _ _ Hon). unfold sending. by destruct (is_final ctx). }
  destruct Hsame as [Hcm' Hcb].
  eapply wp_send_message; [exact Ho|apply Hon|exact Hcan|exact Hfr|exact Hbytes|]. intros copy ctx' h1 Hcopy Hblocks _ Ho1 Hl1.
  assert (Hagain : forall w1, w_connections w1 = <[c := sending ctx conn]> (w_connections w) -> is_final ctx = true ->
    forall msg' ctx', wp (ct_send_message_full c msg' ctx') (fun rc w2 => rc = - EPIPE /\ w2 = w1) w1).
  { intros w1 Hw1 Hf msg' ctx2. eapply wp_send_after_final; [exact Hf|]. rewrite Hw1. apply lookup_insert_eq. }
  assert (Hon1 : forall w1, w_connections w1 = <[c := sending ctx conn]> (w_connections w) -> w_managers w1 = w_managers w ->
    w_handles w1 = w_handles w -> on_socket c m h (sending ctx conn) sm x w1).
  { intros w1 Hw1 ? ?. eapply on_socket_connection; [exact Hon|exact Hcm'|by rewrite Hw1, lookup_insert_eq|done|done]. }
  unfold ct_connection_send_to_protocol. wp_go. eapply wp_protocol_of; [apply lookup_insert_eq|exact Hcm'|apply Hon|].
  rewrite (os_protocol _ _ _ _ _ _ _ Hon). cbn [impl_send ctaps_protocols].
  eapply wp_socket_send; [exact Ho1|by apply Hon1| |].
  - intros h3 Hrc Ho3 Hl3. world_simpl. change (next_rc _) with (next_rc w) in *.
    assert (Hneg : next_rc w < 0) by lia. rewrite (proj2 (Z.ltb_lt _ _) Hneg). wp_go.
    split_and!; [done|done|done| |by intros|by apply Hagain]. intros _. split; [done|]. world_simpl. cbn in *. lia.
  - intros h3 Hrc Ho3 Hl3. world_simpl. change (next_rc _) with (next_rc w) in *. cbn [Z.ltb Z.compare]. wp_go.
    split_and!; [done|done|done|done| |by apply Hagain]. intros _. exists (w_next w), copy, ctx'. split_and!; [done|done|].
    intros status. eapply wp_on_write; [by apply Hon1|apply lookup_insert_eq|]. intros o. world_simpl.
    rewrite delete_insert_id by done. rewrite Hcb. split_and!; [done| |done|done]. cbn in *. lia.
Qed.
(** ** Receiving *)

(** The application asks for messages; bytes arrive on the socket. *)
Inductive stream_event : Type :=
| StreamReceive (callbacks : ct_receive_callbacks)
| StreamData (data : list Z).

Definition run_stream (c h : id) (e : stream_event) : M world unit :=
  match e with
  | StreamReceive cbs => run_exchange c (Receive cbs)
  | StreamData data => tcp_readable h (TcpReadData data)
  end.

(** What arrives becomes a message for the connection's active endpoints. *)
Definition arrival_context (c : id) (conn : ct_connection) : ct_message_context :=
  MessageContext DEFAULT_MESSAGE_PROPERTIES (Some (c, cn_active_local_endpoint conn)) (Some (c, cn_active_remote_endpoint conn)) None.
Definition arrival (c : id) (conn : ct_connection) (data : list Z) : ct_message * ct_message_context :=
  (Message (Some data) (length data), arrival_context c conn).

Definition asked (es : list stream_event) : list ct_receive_callbacks :=
  omap (fun e => match e with StreamReceive cbs => Some cbs | _ => None end) es.
Definition arrived (es : list stream_event) : list (list Z) :=
  omap (fun e => match e with StreamData d => Some d | _ => None end) es.

(** Blocks come and go besides the queues. *)
Lemma exchanged_blocks c conn w rs ms w1 h k :
  exchanged c conn w rs ms w1 -> oracle_ok h -> h_live h = h_live (w_heap w1) + k ->
  exchanged c conn (set_w_heap (Heap [] (h_live (w_heap w) + k)) w) rs ms (set_w_heap h w1).
Proof.
  intros (h1 & Ho & Hl & ->) Hh Hk. exists h. split; [done|]. split; [|done]. cbn in *. lia.
Qed.

Lemma wp_on_protocol_receive c conn w rs ms data w1 :
  w_connections w !! c = Some conn -> cn_framer_impl conn = None -> Forall (fun cbs => is_Some (rcb_receive_callback cbs)) rs ->
  exchanged c conn w rs ms w1 ->
  wp (ct_connection_on_protocol_receive c data)
    (fun _ w2 => exchanged c conn (set_w_heap (Heap [] (h_live (w_heap w) + 3)) w) rs (ms ++ [arrival c conn data]) w2) w1.
Proof.
  intros Hc Hfr Hrs Hx. pose proof Hx as (h1 & Ho1 & _ & Hw1).
  assert (Ho : oracle_ok (w_heap w1)) by (by subst w1).
  assert (Hc1 : w_connections w1 !! c = Some (set_queues (drop (length ms) rs) (drop (length rs) ms) conn)).
  { subst w1. apply lookup_insert_eq. }
  unfold ct_connection_on_protocol_receive. wp_go.
  eapply (wp_heap_allocs _ (eq (Some (Message (Some data) (length data)))) (fun _ => 2)); [exact Ho| |].
  { unfold ct_message_new_with_content, ct_message_new. eapply (allocs_bind _ _ (eq (Some (Message None 0))) (fun _ => 1)).
    - eapply allocs_bind; [apply allocs_malloc|]. intros ? <-. by apply allocs_ret.
    - intros ? <-. eapply allocs_bind; [apply allocs_malloc|]. intros ? <-. by apply allocs_ret. }
  intros ? h2 <- Ho2 Hl2. wp_go. unfold context_from_connection, ct_connection_get_active_local_endpoint, ct_connection_get_active_remote_endpoint. wp_go.
  eapply wp_connection_at; [exact Hc1|]. wp_go. eapply wp_connection_at; [exact Hc1|]. wp_go.
  eapply (wp_heap_allocs _ (eq (Some (arrival_context c conn))) (fun _ => 1)); [exact Ho2| |].
  { unfold ct_message_context_new_from_connection, ct_message_context_new.
    eapply (allocs_bind _ _ (eq (Some (MessageContext DEFAULT_MESSAGE_PROPERTIES None None None))) (fun _ => 1)).
    - eapply allocs_bind; [apply allocs_malloc|]. intros ? <-. by apply allocs_ret.
    - intros ? <-. by apply allocs_ret. }
  intros ? h3 <- Ho3 Hl3. wp_go. eapply wp_connection_at; [exact Hc1|]. cbn [cn_framer_impl set_queues set_cn_received_callbacks set_cn_received_messages].
  rewrite Hfr. wp_go.
  change (ct_connection_deliver_to_app c (Some (Message (Some data) (length data))) (Some (arrival_context c conn)))
    with (run_exchange c (Deliver (arrival c conn data).1 (arrival c conn data).2)).
  eapply wp_deliver_to_app; [exact Hc|exact Hrs|]. change (set_w_heap h3 (set_w_heap h2 w1)) with (set_w_heap h3 w1).
  eapply exchanged_blocks; [exact Hx|exact Ho3|]. cbn in *. lia.
Qed.
(** The world after a read is the one before it, but for its heap, its calls
    and the connection. *)
Lemma exchanged_on_socket c m h conn sm x w rs ms w1 :
  on_socket c m h conn sm x w -> exchanged c conn w rs ms w1 ->
  on_socket c m h (set_queues (drop (length ms) rs) (drop (length rs) ms) conn) sm x w1.
Proof. intros Hon (h1 & _ & _ & ->). eapply on_socket_connection; [exact Hon|apply Hon|apply lookup_insert_eq|done|done]. Qed.

Lemma wp_data_arrives c m h conn sm x w rs ms data w1 :
  on_socket c m h conn sm x w -> uh_read x = Some tcp_on_read_ptr -> cn_framer_impl conn = None ->
  Forall (fun cbs => is_Some (rcb_receive_callback cbs)) rs -> exchanged c conn w rs ms w1 ->
  wp (run_stream c h (StreamData data))
    (fun _ w2 => exchanged c conn (set_w_heap (Heap [] (h_live (w_heap w) + 3)) w) rs (ms ++ [arrival c conn data]) w2) w1.
Proof.
  intros Hon Hread Hfr Hrs Hx. pose proof (exchanged_on_socket _ _ _ _ _ _ _ _ _ _ Hon Hx) as Hon1.
  assert (Ho : oracle_ok (w_heap w1)) by (by destruct Hx as (? & ? & _ & ->)).
  cbn [run_stream]. unfold tcp_readable. wp_go. eapply wp_handle_at; [apply Hon1|]. unfold alloc_cb. wp_go.
  eapply wp_heap_allocs; [exact Ho|apply allocs_malloc|]. intros ? h2 <- Ho2 Hl2. rewrite Hread. unfold tcp_on_read. wp_go.
  set (w2 := set_w_heap h2 w1) in *. assert (Hon2 : on_socket c m h (set_queues (drop (length ms) rs) (drop (length rs) ms) conn) sm x w2) by (by destruct Hon1).
  eapply wp_socket_data; [exact Hon2|]. wp_go. eapply wp_tcp_state_of; [exact Hon2|]. intros s -> ->. wp_go.
  pose proof (exchanged_blocks _ _ _ _ _ _ h2 1 Hx Ho2 Hl2) as Hx2.
  eapply wp_mono; [eapply wp_on_protocol_receive; [|exact Hfr|exact Hrs|exact Hx2]; exact (os_connection _ _ _ _ _ _ _ Hon)|].
  intros ? w3 Hx3. wp_go. eapply wp_heap_frees; [apply frees_block|].
  assert (Ho3 : oracle_ok (w_heap w3)) by (by destruct Hx3 as (? & ? & _ & ->)).
  eapply (exchanged_blocks _ _ _ _ _ _ (Heap (h_oracle (w_heap w3)) (h_live (w_heap w3) - 1)) (-1)) in Hx3; [|exact Ho3|cbn; lia].
  cbn in Hx3. change (set_w_heap _ (set_w_heap _ (set_w_heap _ w))) with (set_w_heap (Heap [] (h_live (w_heap w) + 1 + 3 + -1)) w) in Hx3.
  replace (h_live (w_heap w) + 1 + 3 + -1) with (h_live (w_heap w) + 3) in Hx3 by lia. exact Hx3.
Qed.

(** The peer ends the stream, and the loop closes the socket. *)
Lemma wp_stream_ends c m h conn sm x w :
  oracle_ok (w_heap w) -> on_socket c m h conn sm x w -> uh_read x = Some tcp_on_read_ptr -> uh_phase x = HandleOpen ->
  cn_state conn <> CT_CONN_STATE_CLOSED -> sm_all_connections sm = [c] -> sm_listener sm = None ->
  wp (tcp_readable h TcpReadEof ;; handle_closed h) (fun _ w' =>
    w_calls w' = w_calls w ++ called (cb_closed (cn_callbacks conn)) Closed c /\
    w_connections w' = <[c := set_cn_state CT_CONN_STATE_CLOSED conn]> (w_connections w) /\
    w_handles w' = <[h := set_phase HandleClosed x]> (w_handles w) /\ h_live (w_heap w') = h_live (w_heap w)) w.
Proof.
  intros Ho Hon Hread Hph Hst Hall Hl. unfold tcp_readable. wp_go. eapply wp_handle_at; [apply Hon|]. unfold alloc_cb. wp_go.
  eapply wp_heap_allocs; [exact Ho|apply allocs_malloc|]. intros ? h2 <- Ho2 Hl2. rewrite Hread. unfold tcp_on_read. wp_go.
  set (w2 := set_w_heap h2 w) in *. assert (Hon2 : on_socket c m h conn sm x w2) by (by destruct Hon).
  eapply wp_socket_data; [exact Hon2|]. wp_go. eapply wp_tcp_state_of; [exact Hon2|]. intros s -> ->. wp_go.
  eapply wp_heap_frees; [apply frees_block|]. wp_go. unfold uv_is_closing. wp_go. eapply wp_handle_at; [apply Hon2|]. wp_go.
  unfold is_open. rewrite Hph. cbn [negb when]. eapply wp_uv_close; [apply Hon2|exact Hph|]. wp_go.
  unfold handle_closed. wp_go. eapply wp_handle_at; [apply lookup_insert_eq|]. cbn [uh_phase set_phase]. wp_go.
  eapply wp_update_handle; [apply lookup_insert_eq|]. world_simpl. rewrite insert_insert_eq. cbn [run_close_cb].
  unfold on_libuv_close. wp_go. set (x' := set_phase HandleClosed (set_phase _ x)).
  match goal with |- wp _ _ ?w3 => assert (Hon3 : on_socket c m h conn sm x' w3) end.
  { destruct Hon. split; [done..|apply lookup_insert_eq|done]. }
  eapply wp_connection_of; [exact Hon3|]. unfold ct_socket_manager_closed_connection_cb. wp_go.
  eapply wp_manager_of; [apply Hon3|apply Hon|]. wp_go.
  eapply (wp_sole_dependent c m conn sm); [apply Hon3|exact Hst|apply Hon3|exact Hall|exact Hl|]. change (1 =? 1) with true. cbn iota.
  eapply (wp_close_sole c m conn sm); [apply Hon3|exact Hst|apply Hon3|exact Hall|apply Hon|]. world_simpl.
  split_and!; [done|done|done|]. cbn in *. lia.
Qed.
Lemma wp_stream c m h conn sm x w es :
  oracle_ok (w_heap w) -> on_socket c m h conn sm x w -> uh_read x = Some tcp_on_read_ptr -> cn_framer_impl conn = None ->
  cn_received_callbacks conn = Some [] -> cn_received_messages conn = Some [] ->
  Forall (fun cbs => is_Some (rcb_receive_callback cbs)) (asked es) ->
  wp (for_each es (run_stream c h)) (fun _ w' =>
    exchanged c conn (set_w_heap (Heap [] (h_live (w_heap w) + 3 * Z.of_nat (length (arrived es)))) w) (asked es)
      (arrival c conn <$> arrived es) w') w.
Proof.
  intros Ho Hon Hread Hfr Hrs Hms Hfns.
  set (base n := set_w_heap (Heap [] (h_live (w_heap w) + 3 * Z.of_nat n)) w).
  assert (Hb : forall n, on_socket c m h conn sm x (base n)) by (intros n; by destruct Hon).
  apply (wp_for_each (run_stream c h) (fun seen _ w' => exchanged c conn (base (length (arrived seen))) (asked seen) (arrival c conn <$> arrived seen) w')).
  - exists (w_heap w). split; [done|]. split; [cbn; lia|]. cbn. rewrite app_nil_r, insert_id; [by destruct w|].
    rewrite (os_connection _ _ _ _ _ _ _ Hon). f_equal. destruct conn. cbn in *. by subst.
  - intros seen e todo s' -> Hs. unfold asked, arrived in *. rewrite !omap_app in *.
    apply Forall_app in Hfns as [Hseen Htodo]. destruct e as [cbs|data]; cbn [omap list_omap] in Htodo |- *; rewrite ?app_nil_r, ?length_app.
    + apply Forall_cons_1 in Htodo as [Hcb _]. apply wp_receive; [exact (os_connection _ _ _ _ _ _ _ (Hb _))|exact Hcb|exact Hs].
    + rewrite fmap_app. eapply wp_mono; [eapply wp_data_arrives; [apply Hb|exact Hread|exact Hfr|exact Hseen|exact Hs]|].
      intros ? w2 Hw2. unfold base. cbn [length].
      replace (h_live (w_heap w) + 3 * Z.of_nat (_ + 1)) with
        (h_live (w_heap w) + 3 * Z.of_nat (length (omap (fun e => match e with StreamData d => Some d | _ => None end) seen)) + 3) by lia.
      exact Hw2.
Qed.

Lemma arrival_blocks c conn l : zsum (delivered_blocks <$> (arrival c conn <$> l)) = 3 * Z.of_nat (length l).
Proof. induction l as [|d l IH]; [done|]. rewrite !fmap_cons, zsum_cons, IH. cbn [length]. change (delivered_blocks _) with 3. lia. Qed.

(** C24: the stream of bytes that arrives over TCP reaches the application in
    order.  On a connection without a framer, however the application's calls of
    [ct_receive_message] and the reads of the loop are interleaved, the bytes of
    the n-th read are the message of the n-th receive callback, each as soon as
    both are there and exactly once; what has no partner waits in its queue, and
    of the memory only that is kept (the message, its context and its entry in
    the queue, or the entry of the callback).  When the peer ends the stream, the
    loop closes the socket and the application hears [Closed] exactly once; what
    waits is still there, and nothing is leaked. *)
Theorem tcp_stream_received c m h conn sm x w es :
  oracle_ok (w_heap w) -> on_socket c m h conn sm x w -> uh_read x = Some tcp_on_read_ptr -> cn_framer_impl conn = None ->
  cn_received_callbacks conn = Some [] -> cn_received_messages conn = Some [] ->
  Forall (fun cbs => is_Some (rcb_receive_callback cbs)) (asked es) ->
  wp (for_each es (run_stream c h)) (fun _ w' =>
    let rs := asked es in
    let ms := arrival c conn <$> arrived es in
    let conn' := set_queues (drop (length ms) rs) (drop (length rs) ms) conn in
    w_calls w' = w_calls w ++ zip_with (ConnectionFacts.handed_over c) rs ms /\
    w_connections w' = <[c := conn']> (w_connections w) /\
    h_live (w_heap w') = h_live (w_heap w) + Z.of_nat (length rs - length ms) + 4 * Z.of_nat (length ms - length rs) /\
    (uh_phase x = HandleOpen -> cn_state conn <> CT_CONN_STATE_CLOSED -> sm_all_connections sm = [c] -> sm_listener sm = None ->
     wp (tcp_readable h TcpReadEof ;; handle_closed h) (fun _ w2 =>
       w_calls w2 = w_calls w' ++ called (cb_closed (cn_callbacks conn)) Closed c /\
       w_connections w2 = <[c := set_cn_state CT_CONN_STATE_CLOSED conn']> (w_connections w') /\
       w_handles w2 = <[h := set_phase HandleClosed x]> (w_handles w') /\ h_live (w_heap w2) = h_live (w_heap w')) w')) w.
Proof.
  intros Ho Hon Hread Hfr Hrs Hms Hfns. eapply wp_mono; [by eapply wp_stream|]. intros [] w' Hx. cbn zeta.
  assert (Hon' : on_socket c m h (set_queues (drop (length (arrival c conn <$> arrived es)) (asked es))
    (drop (length (asked es)) (arrival c conn <$> arrived es)) conn) sm x w').
  { eapply exchanged_on_socket; [|exact Hx]. by destruct Hon. }
  assert (Ho' : oracle_ok (w_heap w')) by (by destruct Hx as (? & ? & _ & ->)). split_and!.
  - by destruct Hx as (h' & _ & _ & ->).
  - by destruct Hx as (h' & _ & _ & ->).
  - destruct Hx as (h' & _ & Hl & ->). cbn in *. rewrite Hl, <- fmap_take, arrival_blocks, !length_drop, length_take, !length_fmap. lia.
  - intros Hph Hst Hall Hl. exact (wp_stream_ends c m h _ sm x w' Ho' Hon' Hread Hph Hst Hall Hl).
Qed.
End messages.

(** ** A concrete connection *)

Module Stream.
Import Idle.
Open Scope positive_scope.

(** An established connection over TCP with its objects. *)
Definition connection : ct_connection :=
  Connection [] (Some 3) None 0 (Some [some_local]) 0 (Some [some_remote 80]) CT_CONN_STATE_ESTABLISHED
    100 true true None None CT_CONNECTION_ROLE_CLIENT some_callbacks (Some 2) (Some []) (Some []) false.
Definition manager : ct_socket_manager :=
  SocketManager (tcp_state 1 5 4) 1 [1] None tcp_protocol_interface None CT_CLOSE_TYPE_GRACEFUL.
Definition handle : uv_handle := tcp_handle 2 (Some tcp_on_read_ptr) HandleOpen.
Definition tcp_world (uv : list Z) : world :=
  World (Heap [] 20%Z) 6 {[1 := connection]} ∅ {[2 := manager]} ∅ {[4 := handle]} {[5 := TcpConnectRequest 4 false false]}
    uv [] [] 0%Z 0%Z [] quic_empty.

Lemma connection_on_socket uv : on_socket 1 2 4 connection manager handle (tcp_world uv).
Proof. split; try done. by eexists None, None, None, (Some 5). Defined.

Definition ask (n : Z) : ct_receive_callbacks := ReceiveCallbacks (Some (user_fn n)) (Some n).
Definition events : list stream_event := [StreamData [104; 101]%Z; StreamReceive (ask 8); StreamData [108]%Z].

(** The bytes of the first read are handed over, those of the second wait. *)
Example stream_run :
  match for_each events (run_stream 1 4) (tcp_world []) with
  | Ok (_, w) => Some (w_calls w, h_live (w_heap w), (fun conn => length (default [] (cn_received_messages conn))) <$> w_connections w !! 1)
  | UB _ => None
  end = Some ([CallReceive (user_fn 8) 1 (Message (Some [104; 101]%Z) 2) (set_receive_context (Some 8%Z) (arrival_context 1 connection))],
              24%Z, Some 1%nat).
Proof. vm_compute. reflexivity. Qed.

Lemma tcp_stream_received_witness :
  let w := tcp_world [] in
  wp (for_each events (run_stream 1 4)) (fun _ w' =>
    let rs := asked events in
    let ms := arrival 1 connection <$> arrived events in
    let conn' := set_queues (drop (length ms) rs) (drop (length rs) ms) connection in
    w_calls w' = (w_calls w ++ zip_with (ConnectionFacts.handed_over 1) rs ms)%list /\
    w_connections w' = <[1 := conn']> (w_connections w) /\
    h_live (w_heap w') = (h_live (w_heap w) + Z.of_nat (length rs - length ms) + 4 * Z.of_nat (length ms - length rs))%Z /\
    (uh_phase handle = HandleOpen -> cn_state connection <> CT_CONN_STATE_CLOSED -> sm_all_connections manager = [1] ->
     sm_listener manager = None ->
     wp (tcp_readable 4 TcpReadEof ;; handle_closed 4) (fun _ w2 =>
       w_calls w2 = (w_calls w' ++ called (cb_closed (cn_callbacks connection)) Closed 1)%list /\
       w_connections w2 = <[1 := set_cn_state CT_CONN_STATE_CLOSED conn']> (w_connections w') /\
       w_handles w2 = <[4 := set_phase HandleClosed handle]> (w_handles w') /\ h_live (w_heap w2) = h_live (w_heap w')) w')) w.
Proof.
  intros w. apply (tcp_stream_received 1 2 4 connection manager handle w events); try done.
  - constructor.
  - apply connection_on_socket.
  - repeat constructor. by eexists.
Defined.

Lemma tcp_message_exactly_once_witness :
  let msg := Message (Some [1; 2; 3]%Z) 2 in
  let ctx := Some (MessageContext DEFAULT_MESSAGE_PROPERTIES None None None) in
  let w := tcp_world [(-32)%Z] in
  content_bytes msg = Some [1; 2]%Z /\
  wp (ct_send_message_full 1 (Some msg) ctx) (fun rc w1 =>
    rc = next_rc w /\ w_connections w1 = <[1 := connection]> (w_connections w) /\ w_calls w1 = w_calls w /\
    ((rc < 0)%Z -> w_requests w1 = w_requests w /\ h_live (w_heap w1) = (h_live (w_heap w) + 1)%Z) /\
    (rc = 0%Z -> exists req copy ctx',
       w_requests w1 = <[req := TcpWriteRequest 4 (Some (SendData 1 (Some copy) (Some ctx')))]> (w_requests w) /\
       content_bytes copy = Some [1; 2]%Z /\
       forall status, wp (on_write req status) (fun _ w2 =>
         w_requests w2 = w_requests w /\ h_live (w_heap w2) = h_live (w_heap w) /\
         w_connections w2 = w_connections w1 /\ w_calls w2 = (w_calls w ++ write_outcome (cn_callbacks connection) status 1)%list) w1) /\
    (is_final ctx = true -> forall msg' ctx', wp (ct_send_message_full 1 msg' ctx') (fun rc w2 => rc = (- EPIPE)%Z /\ w2 = w1) w1)) w.
Proof.
  intros msg ctx w. split; [done|].
  apply (tcp_message_exactly_once 1 2 4 connection manager handle msg [1; 2]%Z ctx w); try done; [by constructor|apply connection_on_socket].
Defined.
End Stream.
