(* ===== verification/QuicFacts.v ===== *)
(** QUIC: the socket's timer, messages, and the closing of streams.

    Rules for the objects of QuicSockets and Quic; the timer's callback sends
    what picoquic prepares; a message is handed to picoquic and reported;
    the two directions of a stream and when they end the QUIC connection. *)

From S2P Require Export Lifecycle.
Open Scope Z_scope.

(** ** Access *)

Ltac quic_simpl :=
  cbn [q_sockets q_streams q_groups q_contexts q_callbacks q_packets q_log
    set_q_sockets set_q_streams set_q_groups set_q_contexts set_q_callbacks set_q_packets set_q_log].

Section access.
Context `{!Picoquic}.

Lemma wp_socket_state_at s st (Q : ct_quic_socket_state -> world -> Prop) w :
  q_sockets (w_quic w) !! s = Some st -> Q st w -> wp (socket_state_at s) Q w.
Proof. intros Hs HQ. unfold socket_state_at. by wp_go. Qed.

Lemma wp_update_socket_state s f st (Q : unit -> world -> Prop) w :
  q_sockets (w_quic w) !! s = Some st ->
  Q tt (set_w_quic (set_q_sockets (<[s := f st]> (q_sockets (w_quic w))) (w_quic w)) w) -> wp (update_socket_state s f) Q w.
Proof. intros Hs HQ. unfold update_socket_state. wp_go. eapply wp_socket_state_at; [exact Hs|]. by wp_go. Qed.

Lemma wp_stream_state_at s st (Q : ct_quic_stream_state -> world -> Prop) w :
  q_streams (w_quic w) !! s = Some st -> Q st w -> wp (stream_state_at s) Q w.
Proof. intros Hs HQ. unfold stream_state_at. by wp_go. Qed.

Lemma wp_group_state_at g st (Q : ct_quic_connection_group_state -> world -> Prop) w :
  q_groups (w_quic w) !! g = Some st -> Q st w -> wp (group_state_at g) Q w.
Proof. intros Hs HQ. unfold group_state_at. by wp_go. Qed.

Lemma wp_context_at x (Q : id -> world -> Prop) w : x ∈ q_contexts (w_quic w) -> Q x w -> wp (context_at (Some x)) Q w.
Proof. intros Hx HQ. unfold context_at. wp_go; [by apply bool_decide_eq_true|done]. Qed.

Lemma wp_cnx_at x (Q : id -> world -> Prop) w : picoquic_has_cnx w x = true -> Q x w -> wp (cnx_at (Some x)) Q w.
Proof. intros Hx HQ. unfold cnx_at. by wp_go. Qed.

(** The world after picoquic was told [cs]. *)
Definition told (cs : list picoquic_call) (w : world) : world :=
  set_w_quic (set_q_log (q_log (w_quic w) ++ cs) (w_quic w)) w.

Lemma wp_log_picoquic c (Q : unit -> world -> Prop) w : Q tt (told [c] w) -> wp (log_picoquic c) Q w.
Proof. done. Qed.

Lemma wp_quic_state_of m sm s (Q : option id -> world -> Prop) w :
  w_managers w !! m = Some sm -> sm_internal_socket_manager_state sm = Some (QuicSocketState s) -> Q (Some s) w ->
  wp (quic_state_of m) Q w.
Proof. intros Hm Hs HQ. unfold quic_state_of. wp_go. eapply wp_manager_at; [exact Hm|]. rewrite Hs. by wp_go. Qed.

(** The next call that may call back does not. *)
Lemma wp_no_callbacks `{!SocketImpl, !Framers, !HashOrder} (Q : unit -> world -> Prop) w :
  q_callbacks (w_quic w) = [] -> Q tt w -> wp run_callbacks Q w.
Proof. intros Hc HQ. unfold run_callbacks. wp_go. rewrite Hc. by wp_go. Qed.

(** The timer of an open socket is set. *)
Definition armed (t : id) (w : world) : gmap id uv_handle :=
  match w_handles w !! t with
  | Some x => if is_open x then <[t := set_read (Some on_socket_timer_ptr) x]> (w_handles w) else w_handles w
  | None => w_handles w
  end.

Lemma wp_reset_quic_timer s st x t th (Q : unit -> world -> Prop) w :
  q_sockets (w_quic w) !! s = Some st -> qk_picoquic_ctx st = Some x -> x ∈ q_contexts (w_quic w) ->
  qk_timer_handle st = Some t -> w_handles w !! t = Some th ->
  Q tt (set_w_handles (armed t w) w) -> wp (reset_quic_timer (Some s)) Q w.
Proof.
  intros Hs Hx Hin Ht Hh HQ. unfold reset_quic_timer. wp_go. eapply wp_socket_state_at; [exact Hs|]. rewrite Hx, Ht. wp_go.
  eapply wp_context_at; [done|]. unfold uv_timer_start. wp_go. eapply wp_handle_at; [exact Hh|].
  unfold armed in HQ. rewrite Hh in HQ. destruct (is_open th); cbn [when].
  - eapply wp_update_handle; [exact Hh|exact HQ].
  - wp_go. by destruct w.
Qed.
End access.

(** ** The timer *)

Section timer.
Context `{!Picoquic, !SocketImpl, !Framers, !HashOrder}.

(** picoquic has a packet to send. *)
Definition sendable (p : packet) : Prop := pk_rc p = 0 /\ 0 < pk_length p.

(** The calls of one run of the timer's callback: every packet is sent, and
    picoquic hears of each that could not be; the last call finds nothing.
    [uv] are the outcomes of [sendmsg]. *)
Fixpoint transmit (ctx : id) (l : list packet) (uv : list Z) : list picoquic_call :=
  match l with
  | [] => [PqPrepare ctx]
  | p :: l =>
      let rc := default 0 (head uv) in
      PqPrepare ctx :: SendMsg (pk_to p) (packet_info p)
      :: (if rc <? 0 then [PqUnreachable (pk_last_cnx p) (pk_to p) (pk_from p) (pk_if_index p) (- rc)] else [])
      ++ transmit ctx l (tail uv)
  end.

Definition after_sending (ctx : id) (l : list packet) (h : heap) (w : world) : world :=
  told (transmit ctx l (w_uv w)) (set_w_uv (drop (length l) (w_uv w)) (set_w_heap h w)).

Lemma wp_send_packet s p poll x (Q : unit -> world -> Prop) w :
  (exists st, q_sockets (w_quic w) !! s = Some st /\ qk_poll_handle st = Some poll) -> w_handles w !! poll = Some x ->
  Q tt (told (SendMsg (pk_to p) (packet_info p)
                :: if next_rc w <? 0 then [PqUnreachable (pk_last_cnx p) (pk_to p) (pk_from p) (pk_if_index p) (- next_rc w)] else [])
         (set_w_uv (tail (w_uv w)) (set_w_heap (Heap (h_oracle (w_heap w)) (h_live (w_heap w) - 1)) w))) ->
  wp (send_packet s p) Q w.
Proof.
  intros (st & Hs & Hp) Hh HQ. unfold send_packet, ct_quic_send_packet_with_pktinfo. wp_go.
  eapply wp_socket_state_at; [exact Hs|]. rewrite Hp. wp_go. eapply wp_handle_at; [exact Hh|]. wp_go. apply wp_log_picoquic. wp_go.
  apply wp_next_rc. wp_go. eapply wp_heap_frees; [apply frees_block|]. change (next_rc (told _ w)) with (next_rc w) in *.
  destruct (Z.ltb_spec (next_rc w) 0) as [Hrc|Hrc].
  - rewrite (proj2 (Z.ltb_lt _ _) Hrc). cbn [when]. apply wp_log_picoquic. unfold told in *. world_simpl. quic_simpl. rewrite <- app_assoc. exact HQ.
  - change (0 <? 0) with false. cbn [when]. wp_go. exact HQ.
Qed.

(** The socket that sends: its poll handle and its context. *)
Record can_transmit (s ctx : id) (w : world) : Prop := {
  ct_memory : oracle_ok (w_heap w);
  ct_quiet : q_callbacks (w_quic w) = [];
  ct_context : ctx ∈ q_contexts (w_quic w);
  ct_socket : exists st poll, q_sockets (w_quic w) !! s = Some st /\ qk_poll_handle st = Some poll /\ is_Some (w_handles w !! poll) }.

Lemma can_transmit_heap s ctx h w : oracle_ok h -> can_transmit s ctx w -> can_transmit s ctx (set_w_heap h w).
Proof. intros Ho []. by split. Qed.

Lemma can_transmit_told s ctx cs uv w : can_transmit s ctx w -> can_transmit s ctx (told cs (set_w_uv uv w)).
Proof. intros []. by split. Qed.

Lemma wp_prepare s ctx next (Q : packet -> world -> Prop) w :
  can_transmit s ctx w -> Q (default no_packet next) (told [PqPrepare ctx] w) ->
  wp (picoquic_prepare_next_packet ctx next) Q w.
Proof.
  intros [] HQ. unfold picoquic_prepare_next_packet. wp_go. eapply wp_context_at; [done|]. wp_go.
  apply wp_log_picoquic. wp_go. apply wp_no_callbacks; [done|]. by wp_go.
Qed.

Lemma told_told cs ds uv h w : told ds (set_w_uv uv (set_w_heap h (told cs w))) = told (cs ++ ds) (set_w_uv uv (set_w_heap h w)).
Proof. unfold told. world_simpl. quic_simpl. by rewrite <- app_assoc. Qed.

Lemma after_sending_cons ctx p l h1 h2 w :
  after_sending ctx l h2 (told (PqPrepare ctx :: SendMsg (pk_to p) (packet_info p)
      :: if next_rc w <? 0 then [PqUnreachable (pk_last_cnx p) (pk_to p) (pk_from p) (pk_if_index p) (- next_rc w)] else [])
    (set_w_uv (tail (w_uv w)) (set_w_heap h1 w))) = after_sending ctx (p :: l) h2 w.
Proof.
  unfold after_sending, told, next_rc. world_simpl. quic_simpl. cbn [transmit length]. rewrite <- app_assoc, <- !app_comm_cons.
  replace (drop (length l) (tail (w_uv w))) with (drop (S (length l)) (w_uv w)); [done|].
  destruct (w_uv w); cbn; by rewrite ?drop_nil.
Qed.

Lemma wp_send_packets s ctx l : Forall sendable l -> forall (Q : unit -> world -> Prop) w,
  can_transmit s ctx w ->
  (forall h, oracle_ok h -> h_live h = h_live (w_heap w) -> Q tt (after_sending ctx l h w)) ->
  wp (send_packets s ctx l) Q w.
Proof.
  induction 1 as [|p l [Hrc Hlen] _ IH]; intros Q w Hw HQ; cbn [send_packets]; wp_go.
  all: eapply wp_heap_allocs; [apply Hw|apply allocs_malloc|]; intros ? h1 <- Ho1 Hl1; cbn [negb head]; wp_go.
  all: eapply wp_prepare; [by apply can_transmit_heap|]; idtac.
  - change (negb (pk_rc (default no_packet None) =? 0) || negb (0 <? pk_length (default no_packet None))) with true. cbn iota. eapply wp_heap_frees; [apply frees_block|].
    change (Q tt (after_sending ctx [] (Heap (h_oracle h1) (h_live h1 - 1)) w)). apply HQ; [done|]. cbn. lia.
  - change (default no_packet (Some p)) with p. rewrite Hrc. change (negb (0 =? 0)) with false. rewrite (proj2 (Z.ltb_lt _ _) Hlen). cbn [negb orb]. wp_go.
    destruct (ct_socket _ _ _ Hw) as (st & poll & Hs & Hp & [x Hx]).
    eapply wp_send_packet; [by exists st|exact Hx|]. world_simpl. cbn [w_heap told set_w_quic].
    set (h2 := Heap (h_oracle _) _). rewrite told_told. wp_go. change (next_rc (told _ (set_w_heap h1 w))) with (next_rc w).
    change (set_w_heap h2 (set_w_heap h1 w)) with (set_w_heap h2 w). rewrite <- app_comm_cons, app_nil_l.
    apply IH.
    + apply can_transmit_told, can_transmit_heap; [done|exact Hw].
    + intros h3 Ho3 Hl3. specialize (HQ h3 Ho3). rewrite <- (after_sending_cons ctx p l h2 h3 w) in HQ. apply HQ.
      rewrite Hl3. cbn in *. lia.
Qed.
(** The packets of the next run, and the world without them. *)
Definition next_packets (w : world) : list packet := default [] (head (q_packets (w_quic w))).
Definition packets_taken (w : world) : world :=
  set_w_quic (set_q_packets (tail (q_packets (w_quic w))) (w_quic w)) w.

Lemma wp_take_packets (Q : list packet -> world -> Prop) w : Q (next_packets w) (packets_taken w) -> wp take_packets Q w.
Proof.
  unfold next_packets, packets_taken, take_packets. intros HQ. wp_go. destruct (q_packets (w_quic w)) as [|l rest] eqn:He; wp_go.
  - cbn in HQ. rewrite <- He in HQ. by destruct w as [? ? ? ? ? ? ? ? ? ? ? ? ? ? []].
  - exact HQ.
Qed.

(** The timer's socket, with its context and its timer [t]. *)
Record timer_of (s x t : id) (th : uv_handle) (w : world) : Prop := {
  to_transmit : can_transmit s x w;
  to_socket : exists st, q_sockets (w_quic w) !! s = Some st /\ qk_picoquic_ctx st = Some x /\ qk_timer_handle st = Some t;
  to_handle : w_handles w !! t = Some th;
  to_data : uh_data th = Some s }.

Lemma wp_on_socket_timer s x t th (Q : unit -> world -> Prop) w :
  timer_of s x t th w -> Forall sendable (next_packets w) ->
  (forall h, oracle_ok h -> h_live h = h_live (w_heap w) ->
     Q tt (set_w_handles (armed t w) (after_sending x (next_packets w) h (packets_taken w)))) ->
  wp (on_socket_timer t) Q w.
Proof.
  intros [Hw (st & Hs & Hx & Ht) Hh Hd] Hl HQ. unfold on_socket_timer. wp_go. eapply wp_handle_at; [exact Hh|]. rewrite Hd. wp_go.
  eapply wp_socket_state_at; [exact Hs|]. rewrite Hx. wp_go. apply wp_take_packets. wp_go.
  apply (wp_send_packets s x); [exact Hl|by destruct Hw|]. intros h Ho Hlive.
  eapply wp_reset_quic_timer; [exact Hs|exact Hx|apply Hw|exact Ht|exact Hh|]. by apply HQ.
Qed.

(** C17: the callback of the socket's timer sends everything.  When
    allocations succeed and picoquic reports no event, a timer that fires
    sends every packet picoquic has prepared, in order and with its control
    information, until there is none left; each packet that [sendmsg] refuses
    is reported to picoquic with its addresses and the error.  The loop ends,
    frees all its buffers and sets the timer again. *)
Theorem timer_sends_all_packets s x t th w :
  timer_of s x t th w -> Forall sendable (next_packets w) -> uh_phase th = HandleOpen ->
  wp (timer_fired t) (fun _ w' =>
    q_log (w_quic w') = q_log (w_quic w) ++ transmit x (next_packets w) (w_uv w) /\
    w_uv w' = drop (length (next_packets w)) (w_uv w) /\
    h_live (w_heap w') = h_live (w_heap w) /\
    w_handles w' = <[t := set_read (Some on_socket_timer_ptr) th]> (w_handles w) /\
    w_connections w' = w_connections w /\ w_calls w' = w_calls w) w.
Proof.
  intros [[Ho Hq Hx (st' & poll & Hs' & Hp & Hh')] (st & Hs & Hcx & Ht) Hh Hd] Hl Hph. unfold timer_fired. wp_go.
  eapply wp_update_handle; [exact Hh|]. wp_go. set (w1 := set_w_handles _ w).
  apply (wp_on_socket_timer s x t (set_read None th)); [|exact Hl|].
  - split; [|by exists st|apply lookup_insert_eq|exact Hd]. split; [exact Ho|exact Hq|exact Hx|]. exists st', poll.
    split_and!; [done..|]. subst w1. world_simpl. destruct (decide (t = poll)) as [<-|Hne].
    + rewrite lookup_insert_eq. by eexists.
    + by rewrite lookup_insert_ne.
  - intros h Ho' Hlive. split_and!; [done|done|exact Hlive| |done|done]. unfold armed. subst w1. world_simpl.
    rewrite lookup_insert_eq. unfold is_open. cbn [uh_phase set_read]. rewrite Hph. rewrite bool_decide_true by done.
    by rewrite insert_insert_eq.
Qed.
End timer.

(** ** A connection that is a stream *)

Section connection.
Context `{!Picoquic, !Framers, !HashOrder}.

(** The objects behind a connection [c]: its manager, group and group state,
    stream state, socket state, picoquic context, timer, and the picoquic
    connection, which picoquic keeps. *)
Context (c m g gs ss s x t cnx : id).

Definition picoquic_keeps : Prop := forall w, picoquic_has_cnx w cnx = true.

(** What the application never changes about it. *)
Record quic_refs (w : world) : Prop := {
  qr_manager : exists sm, w_managers w !! m = Some sm /\
    sm_internal_socket_manager_state sm = Some (QuicSocketState s) /\ sm_protocol sm = CT_PROTOCOL_QUIC;
  qr_group : exists gr, w_groups w !! g = Some gr /\ gr_connection_group_state gr = Some gs;
  qr_group_state : exists early, q_groups (w_quic w) !! gs = Some (QuicGroup (Some cnx) early);
  qr_socket : exists st, q_sockets (w_quic w) !! s = Some st /\ qk_picoquic_ctx st = Some x /\ qk_timer_handle st = Some t;
  qr_context : x ∈ q_contexts (w_quic w);
  qr_timer : exists th, w_handles w !! t = Some th /\ uh_data th = Some s }.

Record quic_pointers (conn : ct_connection) : Prop := {
  qp_manager : cn_socket_manager conn = Some m;
  qp_group : cn_connection_group conn = Some g;
  qp_stream : cn_internal_connection_state conn = Some ss }.

Lemma quic_refs_ext w w' :
  w_managers w' = w_managers w -> w_groups w' = w_groups w -> w_handles w' = w_handles w ->
  q_groups (w_quic w') = q_groups (w_quic w) -> q_sockets (w_quic w') = q_sockets (w_quic w) ->
  q_contexts (w_quic w') = q_contexts (w_quic w) -> quic_refs w -> quic_refs w'.
Proof. intros E1 E2 E3 E4 E5 E6 []. by split; rewrite ?E1, ?E2, ?E3, ?E4, ?E5, ?E6. Qed.

Ltac refs := eapply quic_refs_ext; [..|eassumption]; reflexivity.

Lemma wp_group_state conn (Q : option id -> world -> Prop) w :
  w_connections w !! c = Some conn -> quic_pointers conn -> quic_refs w -> Q (Some gs) w ->
  wp (ct_connection_get_quic_group_state (Some c)) Q w.
Proof.
  intros Hc [_ Hg _] [_ (gr & Hgr & Hgs) _ _ _ _] HQ. cbn [ct_connection_get_quic_group_state]. wp_go.
  eapply wp_connection_at; [exact Hc|]. rewrite Hg. wp_go. eapply wp_group_at; [exact Hgr|]. rewrite Hgs. by wp_go.
Qed.

Lemma wp_picoquic_connection_of (Q : option id -> world -> Prop) w :
  quic_refs w -> Q (Some cnx) w -> wp (picoquic_connection_of (Some gs)) Q w.
Proof.
  intros [_ _ [early He] _ _ _] HQ. unfold picoquic_connection_of. wp_go. eapply wp_group_state_at; [exact He|]. by wp_go.
Qed.

Lemma wp_stream_state conn (Q : option id -> world -> Prop) w :
  w_connections w !! c = Some conn -> quic_pointers conn -> Q (Some ss) w -> wp (ct_connection_get_stream_state (Some c)) Q w.
Proof.
  intros Hc [_ _ Hs] HQ. unfold ct_connection_get_stream_state, with_connection. wp_go. eapply wp_connection_at; [exact Hc|].
  rewrite Hs. by wp_go.
Qed.

Lemma wp_initialized conn st (Q : bool -> world -> Prop) w :
  w_connections w !! c = Some conn -> quic_pointers conn -> q_streams (w_quic w) !! ss = Some st ->
  Q (qs_stream_initialized st) w -> wp (ct_connection_stream_is_initialized (Some c)) Q w.
Proof.
  intros Hc Hp Hs HQ. unfold ct_connection_stream_is_initialized. wp_go. eapply wp_stream_state; [exact Hc|exact Hp|].
  wp_go. eapply wp_stream_state_at; [exact Hs|]. by wp_go.
Qed.

Lemma wp_stream_id conn st (Q : Z -> world -> Prop) w :
  w_connections w !! c = Some conn -> quic_pointers conn -> q_streams (w_quic w) !! ss = Some st ->
  Q (qs_stream_id st) w -> wp (ct_connection_get_stream_id (Some c)) Q w.
Proof.
  intros Hc Hp Hs HQ. unfold ct_connection_get_stream_id. wp_go. eapply wp_stream_state; [exact Hc|exact Hp|].
  wp_go. eapply wp_stream_state_at; [exact Hs|]. by wp_go.
Qed.

Lemma wp_socket_state conn (Q : option id -> world -> Prop) w :
  w_connections w !! c = Some conn -> quic_pointers conn -> quic_refs w -> Q (Some s) w ->
  wp (ct_connection_get_quic_socket_state (Some c)) Q w.
Proof.
  intros Hc [Hm _ _] [(sm & Hsm & Hs & _) _ _ _ _ _] HQ. cbn [ct_connection_get_quic_socket_state]. wp_go.
  eapply wp_connection_at; [exact Hc|]. rewrite Hm. by eapply wp_quic_state_of.
Qed.

Lemma wp_reset_timer (Q : unit -> world -> Prop) w :
  quic_refs w -> Q tt (set_w_handles (armed t w) w) -> wp (reset_quic_timer (Some s)) Q w.
Proof. intros [_ _ _ (st & Hs & Hx & Ht) Hin (th & Hh & _)] HQ. by eapply wp_reset_quic_timer. Qed.

Lemma wp_group_of conn (Q : id -> world -> Prop) w :
  w_connections w !! c = Some conn -> quic_pointers conn -> Q g w -> wp (group_of c) Q w.
Proof. intros Hc [_ Hg _] HQ. unfold group_of. wp_go. eapply wp_connection_at; [exact Hc|]. rewrite Hg. by wp_go. Qed.

(** ** Sending *)

(** picoquic was told only of streams between the two worlds. *)
Definition told_of_streams (w w' : world) : Prop :=
  exists calls : list picoquic_call, q_log (w_quic w') = q_log (w_quic w) ++ calls /\
    Forall (fun call => match call with PqSetAppStreamCtx _ _ _ | PqAddToStream _ _ _ _ _ => True | _ => False end) calls.

Lemma told_nothing w w' : q_log (w_quic w') = q_log (w_quic w) -> told_of_streams w w'.
Proof. intros E. exists []. by rewrite E, app_nil_r. Qed.

(** The answers of picoquic while a message is sent: it keeps the connection,
    and whether this is ready for data is fixed until picoquic is told more. *)
Record picoquic_sends (ready : bool) (w : world) : Prop := {
  ps_keeps w' : told_of_streams w w' -> picoquic_has_cnx w' cnx = true;
  ps_ready w' : w_quic w' = w_quic w -> (picoquic_get_cnx_state w' cnx <? picoquic_state_ready) = negb ready }.

(** The number of picoquic's next bidirectional stream, when picoquic has been
    told what it has been told in [w]. *)
Definition next_stream (w : world) (nid : Z) : Prop :=
  exists w', w_quic w' = w_quic w /\ nid = picoquic_get_next_local_stream_id w' cnx false.

(** The stream of the connection when a message is sent, and what picoquic is
    told when there was none. *)
Definition with_stream (st : ct_quic_stream_state) (nid : Z) : ct_quic_stream_state :=
  if qs_stream_initialized st then st else QuicStream nid true.
Definition assigned (st : ct_quic_stream_state) (nid : Z) : list picoquic_call :=
  if qs_stream_initialized st then [] else [PqSetAppStreamCtx cnx nid c].
Definition assign_rcs (st : ct_quic_stream_state) : nat := if qs_stream_initialized st then 0%nat else 1%nat.

Definition stream_assigned (st : ct_quic_stream_state) (nid : Z) (w : world) : world :=
  told (assigned st nid)
    (set_w_quic (set_q_streams (<[ss := with_stream st nid]> (q_streams (w_quic w))) (w_quic w))
      (set_w_uv (drop (assign_rcs st) (w_uv w)) w)).

Lemma next_stream_now w : next_stream w (picoquic_get_next_local_stream_id w cnx false).
Proof. by exists w. Qed.

Lemma told_of_assigned st nid w : told_of_streams w (stream_assigned st nid w).
Proof. exists (assigned st nid). split; [done|]. unfold assigned. destruct (qs_stream_initialized st); by repeat constructor. Qed.

Lemma wp_assign_stream conn st (Q : unit -> world -> Prop) w :
  (forall w', told_of_streams w w' -> picoquic_has_cnx w' cnx = true) ->
  w_connections w !! c = Some conn -> quic_pointers conn -> quic_refs w -> q_streams (w_quic w) !! ss = Some st ->
  (forall nid, next_stream w nid -> Q tt (stream_assigned st nid w)) ->
  wp (when (negb (qs_stream_initialized st)) (ct_connection_assign_next_free_stream c false)) Q w.
Proof.
  intros Hk Hc Hp Hr Hs HQ. unfold stream_assigned, with_stream, assigned, assign_rcs in HQ. destruct (qs_stream_initialized st); cbn [negb when].
  - wp_go. specialize (HQ _ (next_stream_now w)). unfold told in HQ. cbn [w_quic set_w_quic w_uv set_w_uv q_log set_q_streams] in HQ.
    rewrite insert_id, app_nil_r in HQ by done. by destruct w as [? ? ? ? ? ? ? ? ? ? ? ? ? ? []].
  - unfold ct_connection_assign_next_free_stream. wp_go. eapply wp_connection_at; [exact Hc|]. rewrite (qp_group _ Hp). wp_go.
    destruct (qr_group _ Hr) as (gr & Hgr & Hgs). eapply wp_group_at; [exact Hgr|]. rewrite Hgs. wp_go.
    apply wp_picoquic_connection_of; [done|]. wp_go. apply wp_cnx_at; [by apply Hk, told_nothing|]. wp_go. unfold ct_quic_set_connection_stream. wp_go.
    eapply wp_stream_state; [exact Hc|exact Hp|]. wp_go. eapply wp_stream_state_at; [exact Hs|]. unfold put_stream_state, modify_quic. wp_go.
    unfold picoquic_set_app_stream_ctx. wp_go. apply wp_cnx_at; [by apply Hk, told_nothing|]. wp_go. apply wp_log_picoquic. wp_go. apply wp_next_rc. wp_go.
    replace (drop 1 (w_uv w)) with (tail (w_uv w)) in HQ by (by destruct (w_uv w)). apply (HQ _ (next_stream_now w)).
Qed.
(** The return code of [picoquic_add_to_stream_with_ctx]. *)
Definition send_rc (st : ct_quic_stream_state) (w : world) : Z := default 0 (w_uv w !! assign_rcs st).
Definition added (st : ct_quic_stream_state) (nid : Z) (data : list Z) (fin : bool) : list picoquic_call :=
  assigned st nid ++ [PqAddToStream cnx (qs_stream_id (with_stream st nid)) data fin c].

(** The world after a message was handed to picoquic: before the message is
    freed. *)
Definition handed_over (st : ct_quic_stream_state) (nid : Z) (data : list Z) (fin : bool) (w : world) : world :=
  told [PqAddToStream cnx (qs_stream_id (with_stream st nid)) data fin c]
    (set_w_uv (tail (w_uv (stream_assigned st nid w))) (stream_assigned st nid w)).

Lemma is_final_message_spec ctx : is_final_message ctx = is_final ctx.
Proof. by destruct ctx. Qed.

Lemma stream_assigned_stream st nid w : q_streams (w_quic (stream_assigned st nid w)) !! ss = Some (with_stream st nid).
Proof. apply lookup_insert_eq. Qed.

Lemma wp_quic_send conn st msg data ctx ready (Q : Z -> world -> Prop) w :
  picoquic_sends ready w -> w_connections w !! c = Some conn -> quic_pointers conn -> quic_refs w -> q_streams (w_quic w) !! ss = Some st ->
  content_bytes msg = Some data ->
  (ready = false -> Q (- EAGAIN) w) ->
  (ready = true -> forall nid, next_stream w nid -> send_rc st w <> 0 -> Q (- EIO) (handed_over st nid data (is_final ctx) w)) ->
  (ready = true -> forall nid, next_stream w nid -> send_rc st w = 0 ->
     let w1 := handed_over st nid data (is_final ctx) w in
     Q 0 (set_w_heap (Heap (h_oracle (w_heap w)) (h_live (w_heap w) - msg_blocks msg - (if is_Some_b ctx then 1 else 0)))
       (set_w_calls (w_calls w ++ called (cb_sent (cn_callbacks conn)) Sent c) (set_w_handles (armed t w) w1)))) ->
  wp (quic_send c (Some msg) ctx) Q w.
Proof.
  intros [Hk Hready] Hc Hp Hr Hs Hdata Hagain Herr HQ. unfold quic_send. wp_go. eapply wp_manager_of; [exact Hc|apply Hp|].
  unfold ct_connection_get_picoquic_connection. wp_go. eapply wp_group_state; [exact Hc|exact Hp|exact Hr|]. wp_go; [done|].
  apply wp_picoquic_connection_of; [done|]. cbn [is_Some_b negb]. wp_go. apply wp_cnx_at; [by apply Hk, told_nothing|]. wp_go. rewrite Hready by done.
  destruct ready; cbn [negb]; [|wp_go; by apply Hagain]. wp_go. eapply wp_initialized; [exact Hc|exact Hp|exact Hs|]. wp_go.
  eapply wp_assign_stream; [exact Hk|exact Hc|exact Hp|exact Hr|exact Hs|]. intros nid Hnid. wp_go.
  eapply wp_stream_id; [exact Hc|exact Hp|apply stream_assigned_stream|]. wp_go. unfold picoquic_add_to_stream_with_ctx. wp_go.
  apply wp_cnx_at; [apply Hk, told_of_assigned|]. wp_go. apply wp_log_picoquic. wp_go. apply wp_next_rc. rewrite is_final_message_spec.
  set (w1 := set_w_uv _ _). assert (w1 = handed_over st nid data (is_final ctx) w) as Hw1 by done. clearbody w1. subst w1.
  assert (next_rc (told [PqAddToStream cnx (qs_stream_id (with_stream st nid)) data (is_final ctx) c] (stream_assigned st nid w)) = send_rc st w) as ->.
  { unfold next_rc, send_rc. change (w_uv (told _ _)) with (drop (assign_rcs st) (w_uv w)).
    by rewrite head_lookup, lookup_drop, Nat.add_0_r. }
  destruct (Z.eqb_spec (send_rc st w) 0) as [Hrc|Hrc]; cbn [negb]; [|wp_go; by apply Herr].
  specialize (HQ eq_refl nid Hnid Hrc). cbv zeta in HQ. wp_go. eapply wp_heap_frees; [apply frees_message|]. wp_go.
  eapply wp_socket_state; [exact Hc|exact Hp|refs|]. wp_go. eapply wp_reset_timer; [refs|].
  wp_go. destruct (qr_manager _ Hr) as (sm & Hsm & _). eapply wp_manager_at; [exact Hsm|]. unfold ct_socket_manager_message_sent_cb. wp_go.
  eapply wp_connection_at; [exact Hc|]. wp_go. apply wp_call_connection. wp_go. eapply wp_heap_frees; [apply (frees_when _ _ 1); intros; apply frees_block|]. wp_go. exact HQ.
Qed.
(** C18: a message sent over QUIC reaches picoquic once and leaks nothing.
    On a connection without a framer that can send, whose picoquic connection
    stays as it is and in being while picoquic is told only of streams, when
    allocations succeed: while picoquic is not ready for data
    [ct_send_message_full] returns [-EAGAIN] and tells picoquic nothing.
    Otherwise it gives the stream the number that picoquic gives for its next
    bidirectional stream, if it has none, and picoquic exactly the application's
    bytes for it, once, with FIN exactly for a message marked [FINAL]; a
    refusal gives [-EIO], acceptance 0 and one [Sent].  Every copy is freed in each case.  A message marked [FINAL] ends
    the sending also when it was not sent: a second attempt, after [-EAGAIN]
    too, fails with [-EPIPE]. *)
Theorem quic_message_exactly_once conn st msg data ctx ready w :
  picoquic_sends ready w -> oracle_ok (w_heap w) -> w_connections w !! c = Some conn -> quic_pointers conn -> quic_refs w ->
  q_streams (w_quic w) !! ss = Some st -> cn_can_send conn = true -> cn_framer_impl conn = None -> content_bytes msg = Some data ->
  wp (ct_send_message_full c (Some msg) ctx) (fun rc w' =>
    h_live (w_heap w') = h_live (w_heap w) /\
    w_connections w' = <[c := sending ctx conn]> (w_connections w) /\
    (if ready then exists nid, next_stream w nid /\
       q_streams (w_quic w') !! ss = Some (with_stream st nid) /\
       q_log (w_quic w') = q_log (w_quic w) ++ added st nid data (is_final ctx) /\
       if send_rc st w =? 0 then rc = 0 /\ w_calls w' = w_calls w ++ called (cb_sent (cn_callbacks conn)) Sent c
       else rc = - EIO /\ w_calls w' = w_calls w
     else rc = - EAGAIN /\ w_quic w' = w_quic w /\ w_calls w' = w_calls w) /\
    (is_final ctx = true -> forall msg' ctx', wp (ct_send_message_full c msg' ctx') (fun rc w2 => rc = - EPIPE /\ w2 = w') w')) w.
Proof.
  intros [Hk Hready] Ho Hc Hp Hr Hs Hcan Hfr Hdata.
  eapply wp_send_message; [exact Ho|exact Hc|exact Hcan|exact Hfr|exact Hdata|]. intros copy ctx' h Hcopy Hblocks Hfin Ho' Hl.
  assert (Hagain : forall w1, w_connections w1 = <[c := sending ctx conn]> (w_connections w) -> is_final ctx = true ->
    forall msg' ctx', wp (ct_send_message_full c msg' ctx') (fun rc w2 => rc = - EPIPE /\ w2 = w1) w1).
  { intros w1 Hw1 Hf msg' ctx2. eapply wp_send_after_final; [exact Hf|]. rewrite Hw1. apply lookup_insert_eq. }
  assert (quic_pointers (sending ctx conn) /\ cn_callbacks (sending ctx conn) = cn_callbacks conn) as [Hp' Hcb].
  { unfold sending. destruct Hp. by destruct (is_final ctx). }
  set (w1 := set_w_heap h _). assert (quic_refs w1) as Hr' by refs. assert (w_connections w1 !! c = Some (sending ctx conn)) as Hc' by apply lookup_insert_eq.
  unfold ct_connection_send_to_protocol. wp_go. destruct (qr_manager _ Hr') as (sm & Hsm & _ & Hq).
  eapply wp_protocol_of; [exact Hc'|apply Hp'|exact Hsm|]. rewrite Hq. cbn [impl_send ctaps_protocols].
  eapply (wp_quic_send _ st copy data (Some ctx') ready); [by split|exact Hc'|exact Hp'|exact Hr'|exact Hs|exact Hcopy|..].
  - intros ->. change (- EAGAIN <? 0) with true. cbn iota. split_and!; [world_simpl; cbn; lia|done|done|done|done|by apply Hagain].
  - intros -> nid Hnid Hrc. rewrite Hfin. change (send_rc st w1) with (send_rc st w) in Hrc. change (- EIO <? 0) with true. cbn iota.
    split_and!; [world_simpl; cbn; lia|done| |by apply Hagain]. exists nid. rewrite (proj2 (Z.eqb_neq _ _) Hrc).
    split_and!; [exact Hnid|apply stream_assigned_stream|unfold added; by rewrite app_assoc|done|done].
  - intros -> nid Hnid Hrc w2. subst w2. rewrite Hfin. change (send_rc st w1) with (send_rc st w) in Hrc. rewrite Hblocks. change (0 <? 0) with false. cbn iota.
    split_and!; [world_simpl; cbn; lia|done| |by apply Hagain]. exists nid. rewrite (proj2 (Z.eqb_eq _ _) Hrc).
    split_and!; [exact Hnid|apply stream_assigned_stream|unfold added; by rewrite app_assoc|done|by rewrite <- Hcb].
Qed.
End connection.

(** The objects of a connection in a world that differs elsewhere. *)
Ltac refs := eapply quic_refs_ext; [..|eassumption]; reflexivity.

(** ** A concrete connection *)

Module Stream.
Import Lifecycle.Idle.

Definition quic_connection : ct_connection :=
  Connection [] (Some 3%positive) None 0 (Some [some_local]) 0 (Some [some_remote 443]) CT_CONN_STATE_ESTABLISHED
    100 true true (Some 5%positive) None CT_CONNECTION_ROLE_CLIENT some_callbacks (Some 2%positive) (Some []) (Some []) false.
Definition quic_manager : ct_socket_manager :=
  SocketManager (Some (QuicSocketState 6%positive)) 1 [1%positive] None quic_protocol_interface None CT_CLOSE_TYPE_GRACEFUL.
Definition quic_group : ct_connection_group :=
  ConnectionGroup [] (Some [([], 1%positive)]) 1 (Some some_properties) (Some 4%positive).
Definition quic_socket : ct_quic_socket_state :=
  QuicSocket (Some 9%positive) (Some 7%positive) (Some 8%positive) 2%positive (Ptr "cert.pem"%string) (Ptr "key.pem"%string) Null None None.
Definition timer : uv_handle := Handle (Some 6%positive) None false HandleOpen None.
Definition poll : uv_handle := Handle (Some 2%positive) (Some poll_recv_cb_ptr) false HandleOpen None.

(** A packet to a peer, and a world with an established connection. *)
Definition some_packet (len : Z) : packet := Packet 0 len (set_port 443 loopback_v4) loopback_v4 0 (Some 10%positive).
Definition quic_world (stream : ct_quic_stream_state) (packets : list packet) (uv : list Z) : world :=
  World (Heap [] 30) 11%positive {[1%positive := quic_connection]} {[3%positive := quic_group]} {[2%positive := quic_manager]} ∅
    {[8%positive := timer; 9%positive := poll]} ∅ uv [] [] 0 0 []
    (Quic {[6%positive := quic_socket]} {[5%positive := stream]} {[4%positive := QuicGroup (Some 10%positive) false]}
       {[7%positive]} [] [packets] []).

Lemma quic_world_context stream packets uv : 7%positive ∈ q_contexts (w_quic (quic_world stream packets uv)).
Proof. change (7%positive ∈ ({[7%positive]} : gset id)). by rewrite elem_of_singleton. Qed.

Lemma quic_world_refs stream packets uv :
  quic_refs 2%positive 3%positive 4%positive 6%positive 7%positive 8%positive 10%positive (quic_world stream packets uv).
Proof. split; [by eexists|by eexists|by eexists|by eexists|apply quic_world_context|by eexists]. Qed.

Lemma quic_world_pointers : quic_pointers 2%positive 3%positive 5%positive quic_connection.
Proof. done. Qed.

Lemma timer_sends_all_packets_witness :
  let l := [some_packet 1200; some_packet 30] in
  let w := quic_world (QuicStream 0 true) l [0; -111] in
  wp (timer_fired 8%positive) (fun _ w' =>
    q_log (w_quic w') = [] ++ transmit 7%positive l [0; -111] /\ w_uv w' = drop 2 [0; -111] /\
    h_live (w_heap w') = 30 /\
    w_handles w' = <[8%positive := set_read (Some on_socket_timer_ptr) timer]> (w_handles w) /\
    w_connections w' = w_connections w /\ w_calls w' = []) w.
Proof.
  intros l w. apply (timer_sends_all_packets 6%positive 7%positive 8%positive timer w); [|by repeat constructor|done].
  split; [split|..]; [by constructor|done|apply quic_world_context| |by eexists|done|done].
  exists quic_socket, 9%positive. split_and!; [done|done|by eexists].
Defined.

Lemma quic_message_exactly_once_witness :
  let w := quic_world (QuicStream 0 false) [] [0; 0] in
  let msg := Message (Some [1; 2; 3]) 2 in
  send_rc (QuicStream 0 false) w = 0 /\
  wp (ct_send_message_full 1%positive (Some msg) None) (fun rc w' =>
    h_live (w_heap w') = 30 /\
    w_connections w' = <[1%positive := sending None quic_connection]> (w_connections w) /\
    (exists nid, next_stream 10%positive w nid /\
       q_streams (w_quic w') !! 5%positive = Some (with_stream (QuicStream 0 false) nid) /\
       q_log (w_quic w') = [] ++ added 1%positive 10%positive (QuicStream 0 false) nid [1; 2] false /\
       rc = 0 /\ w_calls w' = [] ++ [CallConnection (user_fn 7) Sent (Some 1%positive)]) /\
    (false = true -> forall msg' ctx', wp (ct_send_message_full 1%positive msg' ctx') (fun rc w2 => rc = - EPIPE /\ w2 = w') w')) w.
Proof.
  intros w msg. split; [done|].
  apply (quic_message_exactly_once 1%positive 2%positive 3%positive 4%positive 5%positive 6%positive 7%positive 8%positive 10%positive quic_connection (QuicStream 0 false) msg [1; 2] None true w);
    [by split|by constructor|done|apply quic_world_pointers|apply quic_world_refs|done|done|done|done].
Defined.
End Stream.
