(* ===== verification/QuicClosing.v ===== *)
(** Closing a QUIC connection.

    A connection over QUIC is a stream of a QUIC connection that its group
    shares.  Closing it ends one direction of the stream, the peer's FIN ends
    the other; the QUIC connection is closed with the last direction of the
    last stream, picoquic reports that it is closed, and the socket's timer
    and poll handle are closed one after the other. *)

From S2P Require Export QuicFacts TcpLifecycle.
Open Scope Z_scope.

Section activity.
Context `{!Picoquic, !Framers, !HashOrder}.

(** A direction of the stream is open. *)
Definition active (conn : ct_connection) : bool := cn_can_send conn || cn_can_receive conn.
Definition active_in (w : world) (c : id) : bool := match w_connections w !! c with Some conn => active conn | None => false end.

Lemma wp_can_receive c conn (Q : bool -> world -> Prop) w :
  w_connections w !! c = Some conn -> Q (cn_can_receive conn) w -> wp (ct_connection_can_receive (Some c)) Q w.
Proof. intros Hc HQ. unfold ct_connection_can_receive, with_connection. wp_go. by eapply wp_connection_at. Qed.

Lemma wp_count_active l (Q : Z -> world -> Prop) w :
  (forall c, c ∈ l -> is_Some (w_connections w !! c)) -> Q (Z.of_nat (length (filter (active_in w) l))) w -> wp (count_active l) Q w.
Proof.
  revert Q. induction l as [|c l IH]; intros Q Hl HQ; cbn [count_active]; wp_go; [exact HQ|].
  destruct (Hl c) as [conn Hc]; [by constructor|]. eapply wp_can_send; [exact Hc|]. wp_go. eapply wp_can_receive; [exact Hc|]. wp_go.
  apply IH; [intros; apply Hl; by constructor|]. wp_go.
  assert (active_in w c = cn_can_send conn || cn_can_receive conn) as Ha by (unfold active_in; by rewrite Hc).
  rewrite filter_cons in HQ. destruct (decide (active_in w c)) as [Hd|Hd]; rewrite Ha in Hd.
  - apply Is_true_true_1 in Hd. rewrite Hd. cbn [length] in HQ. by rewrite Nat2Z.inj_succ, <- Z.add_1_l in HQ.
  - apply Is_true_false_1 in Hd. by rewrite Hd.
Qed.

Lemma wp_group_members g gr t (Q : list id -> world -> Prop) w :
  w_groups w !! g = Some gr -> gr_connections gr = Some t -> Q ((fun e => e.2) <$> hash_order t) w -> wp (group_members g) Q w.
Proof. intros Hg Ht HQ. unfold group_members. wp_go. eapply wp_group_at; [exact Hg|]. rewrite Ht. by wp_go. Qed.

Lemma hash_order_one {A} (a : A) : hash_order [a] = [a].
Proof. by apply Permutation_singleton_r, hash_order_perm. Qed.
End activity.

(** ** One connection on its socket *)

Section closing.
Context `{!Picoquic, !Framers, !HashOrder}.
Context (c m g gs ss s x t p cnx : id).
Context (conn : ct_connection) (sm : ct_socket_manager) (st : ct_quic_socket_state) (th ph : uv_handle).
Context (u gu : list Ascii.ascii) (tp : ct_transport_properties) (sid : Z) (early : bool).

(** An established client connection, the only user of its socket, with its
    stream; picoquic reports nothing on its own account. *)
Record sole (w : world) : Prop := {
  so_memory : oracle_ok (w_heap w);
  so_quiet : q_callbacks (w_quic w) = [];
  so_packets : Forall sendable (next_packets w);
  so_connection : w_connections w !! c = Some conn;
  so_pointers : quic_pointers m g ss conn;
  so_state : cn_state conn = CT_CONN_STATE_ESTABLISHED;
  so_directions : cn_can_send conn = true /\ cn_can_receive conn = true;
  so_security : sec_ok (cn_security_parameters conn);
  so_group : w_groups w !! g = Some (ConnectionGroup gu (Some [(u, c)]) 1 (Some tp) (Some gs));
  so_properties : wf_selection (selection_properties tp);
  so_manager : w_managers w !! m = Some sm;
  so_manager_state : sm_internal_socket_manager_state sm = Some (QuicSocketState s);
  so_protocol : sm_protocol sm = CT_PROTOCOL_QUIC;
  so_refs : sm_ref_count sm = 1 /\ sm_all_connections sm = [c] /\ sm_listener sm = None;
  so_group_state : q_groups (w_quic w) !! gs = Some (QuicGroup (Some cnx) early);
  so_stream : q_streams (w_quic w) !! ss = Some (QuicStream sid true);
  so_socket : q_sockets (w_quic w) !! s = Some st;
  so_socket_state : qk_picoquic_ctx st = Some x /\ qk_timer_handle st = Some t /\ qk_poll_handle st = Some p;
  so_strings : is_ptr (qk_cert_file_name st) /\ is_ptr (qk_key_file_name st) /\ qk_ticket_store_path st <> Bad;
  so_context : x ∈ q_contexts (w_quic w);
  so_timer : w_handles w !! t = Some th /\ uh_data th = Some s /\ uh_phase th = HandleOpen;
  so_poll : w_handles w !! p = Some ph /\ uh_data ph = Some m /\ uh_phase ph = HandleOpen;
  so_handles : t <> p }.

(** A world on the way: what has become of the connection, the manager and
    the two handles, what picoquic and the application were told. *)
Record shutting (w0 : world) (conn' : ct_connection) (sm' : ct_socket_manager) (th' ph' : uv_handle)
    (log : list picoquic_call) (calls : list call) (w : world) : Prop := {
  sh_connections : w_connections w = <[c := conn']> (w_connections w0);
  sh_groups : w_groups w = w_groups w0;
  sh_managers : w_managers w = <[m := sm']> (w_managers w0);
  sh_listeners : w_listeners w = w_listeners w0;
  sh_handles : w_handles w = <[t := th']> (<[p := ph']> (w_handles w0));
  sh_requests : w_requests w = w_requests w0;
  sh_calls : w_calls w = w_calls w0 ++ calls;
  sh_sockets : q_sockets (w_quic w) = q_sockets (w_quic w0);
  sh_streams : q_streams (w_quic w) = q_streams (w_quic w0);
  sh_group_states : q_groups (w_quic w) = q_groups (w_quic w0);
  sh_contexts : q_contexts (w_quic w) = q_contexts (w_quic w0);
  sh_quiet : q_callbacks (w_quic w) = q_callbacks (w_quic w0);
  sh_log : q_log (w_quic w) = q_log (w_quic w0) ++ log;
  sh_memory : oracle_ok (w_heap w);
  sh_live : h_live (w_heap w) = h_live (w_heap w0) }.

Context (w0 : world) (Hsole : sole w0) (Hkeeps : picoquic_keeps cnx).

Lemma shutting_start : shutting w0 conn sm th ph [] [] w0.
Proof.
  destruct Hsole, so_timer0 as (Ht & _), so_poll0 as (Hp & _).
  split; rewrite ?app_nil_r, ?(insert_id _ p ph), ?insert_id by done; done.
Qed.

Section stage.
Context {conn' : ct_connection} {sm' : ct_socket_manager} {th' ph' : uv_handle} {log : list picoquic_call} {calls : list call} {w : world}.
Context (Hw : shutting w0 conn' sm' th' ph' log calls w).

Lemma sh_connection : w_connections w !! c = Some conn'.
Proof. rewrite (sh_connections _ _ _ _ _ _ _ _ Hw). apply lookup_insert_eq. Qed.

Lemma sh_manager : w_managers w !! m = Some sm'.
Proof. rewrite (sh_managers _ _ _ _ _ _ _ _ Hw). apply lookup_insert_eq. Qed.

Lemma sh_timer : w_handles w !! t = Some th'.
Proof. rewrite (sh_handles _ _ _ _ _ _ _ _ Hw). apply lookup_insert_eq. Qed.

Lemma sh_poll : w_handles w !! p = Some ph'.
Proof. rewrite (sh_handles _ _ _ _ _ _ _ _ Hw). rewrite lookup_insert_ne by apply Hsole. apply lookup_insert_eq. Qed.

Lemma sh_socket : q_sockets (w_quic w) !! s = Some st.
Proof. rewrite (sh_sockets _ _ _ _ _ _ _ _ Hw). apply Hsole. Qed.

Lemma sh_group : w_groups w !! g = Some (ConnectionGroup gu (Some [(u, c)]) 1 (Some tp) (Some gs)).
Proof. rewrite (sh_groups _ _ _ _ _ _ _ _ Hw). apply Hsole. Qed.

Lemma sh_refs : sm_internal_socket_manager_state sm' = Some (QuicSocketState s) -> sm_protocol sm' = CT_PROTOCOL_QUIC ->
  uh_data th' = Some s -> quic_refs m g gs s x t cnx w.
Proof.
  intros Hsm Hq Hd. destruct (so_socket_state _ Hsole) as (Hx & Ht & _). split.
  - exists sm'. by rewrite sh_manager.
  - by rewrite sh_group; eexists.
  - exists early. rewrite (sh_group_states _ _ _ _ _ _ _ _ Hw). apply Hsole.
  - exists st. by rewrite sh_socket.
  - rewrite (sh_contexts _ _ _ _ _ _ _ _ Hw). apply Hsole.
  - exists th'. by rewrite sh_timer.
Qed.

(** The only member of the group. *)
Lemma wp_sole_members (Q : list id -> world -> Prop) : Q [c] w -> wp (group_members g) Q w.
Proof. intros HQ. eapply wp_group_members; [apply sh_group|done|]. rewrite hash_order_one. exact HQ. Qed.

Lemma wp_sole_active (Q : Z -> world -> Prop) : Q (if active conn' then 1 else 0) w -> wp (count_active [c]) Q w.
Proof.
  intros HQ. apply wp_count_active.
  - intros ? ->%list_elem_of_singleton. rewrite sh_connection. by eexists.
  - rewrite filter_cons, filter_nil. assert (active_in w c = active conn') as Ha by (unfold active_in; by rewrite sh_connection).
    destruct (decide (active_in w c)) as [Hd|Hd]; rewrite Ha in Hd; destruct (active conn'); try done.
Qed.
End stage.

(** Steps keep what they do not change. *)
Ltac shut := unfold told; split; world_simpl; quic_simpl; try done.

Lemma shutting_connection conn1 conn2 sm' th' ph' log calls w :
  shutting w0 conn1 sm' th' ph' log calls w ->
  shutting w0 conn2 sm' th' ph' log calls (set_w_connections (<[c := conn2]> (w_connections w)) w).
Proof. intros []. shut. by rewrite sh_connections0, insert_insert_eq. Qed.

Lemma shutting_told conn' sm' th' ph' log cs calls uv w :
  shutting w0 conn' sm' th' ph' log calls w -> shutting w0 conn' sm' th' ph' (log ++ cs) calls (set_w_uv uv (told cs w)).
Proof. intros []. shut. by rewrite sh_log0, app_assoc. Qed.

Lemma shutting_timer conn' sm' th1 th2 ph' log calls w :
  shutting w0 conn' sm' th1 ph' log calls w ->
  shutting w0 conn' sm' th2 ph' log calls (set_w_handles (<[t := th2]> (w_handles w)) w).
Proof. intros []. shut. by rewrite sh_handles0, insert_insert_eq. Qed.

Lemma shutting_poll conn' sm' th' ph1 ph2 log calls w :
  shutting w0 conn' sm' th' ph1 log calls w ->
  shutting w0 conn' sm' th' ph2 log calls (set_w_handles (<[p := ph2]> (w_handles w)) w).
Proof.
  intros []. shut. rewrite sh_handles0, insert_insert_ne by apply not_eq_sym, Hsole. by rewrite insert_insert_eq.
Qed.

Lemma shutting_manager conn' sm1 sm2 th' ph' log calls w :
  shutting w0 conn' sm1 th' ph' log calls w ->
  shutting w0 conn' sm2 th' ph' log calls (set_w_managers (<[m := sm2]> (w_managers w)) w).
Proof. intros []. shut. by rewrite sh_managers0, insert_insert_eq. Qed.

Lemma shutting_call conn' sm' th' ph' log calls cs w :
  shutting w0 conn' sm' th' ph' log calls w ->
  shutting w0 conn' sm' th' ph' log (calls ++ cs) (set_w_calls (w_calls w ++ cs) w).
Proof. intros []. shut. by rewrite sh_calls0, app_assoc. Qed.

Lemma shutting_heap conn' sm' th' ph' log calls h w :
  oracle_ok h -> h_live h = h_live (w_heap w) ->
  shutting w0 conn' sm' th' ph' log calls w -> shutting w0 conn' sm' th' ph' log calls (set_w_heap h w).
Proof. intros Ho Hl []. shut. by rewrite Hl. Qed.

Lemma shutting_packets conn' sm' th' ph' log calls w :
  shutting w0 conn' sm' th' ph' log calls w -> shutting w0 conn' sm' th' ph' log calls (packets_taken w).
Proof. intros []. by split. Qed.

(** *** Our direction *)

Definition timer_set : uv_handle := set_read (Some on_socket_timer_ptr) th.
Definition after_close (conn' : ct_connection) : ct_connection := set_cn_can_send false (set_cn_state CT_CONN_STATE_CLOSING conn').

Lemma armed_open th' w : w_handles w !! t = Some th' -> uh_phase th' = HandleOpen ->
  armed t w = <[t := set_read (Some on_socket_timer_ptr) th']> (w_handles w).
Proof. intros Hh Hp. unfold armed, is_open. by rewrite Hh, Hp, bool_decide_true. Qed.

Lemma wp_rearm conn' th' log calls (Q : unit -> world -> Prop) w :
  shutting w0 conn' sm th' ph log calls w -> th' = th \/ th' = timer_set ->
  (forall w', shutting w0 conn' sm timer_set ph log calls w' -> Q tt w') -> wp (reset_quic_timer (Some s)) Q w.
Proof.
  intros Hw Hth HQ. destruct (so_timer _ Hsole) as (_ & Hd & Ho).
  eapply wp_reset_timer; [eapply (sh_refs Hw); [apply Hsole|apply Hsole|by destruct Hth as [-> | ->]]|].
  rewrite (armed_open th') by (apply (sh_timer Hw) || by destruct Hth as [-> | ->]).
  apply HQ. destruct Hth as [-> | ->]; by eapply shutting_timer.
Qed.

(** [ct_connection_close] up to the count of open directions. *)
Lemma wp_close_start conn' th' log calls (Q : unit -> world -> Prop) w :
  shutting w0 conn' sm th' ph log calls w -> cn_state conn' = CT_CONN_STATE_ESTABLISHED -> quic_pointers m g ss conn' -> uh_data th' = Some s ->
  (forall w', shutting w0 (after_close conn') sm th' ph log calls w' -> w_uv w' = w_uv w -> next_packets w' = next_packets w ->
     wp (rc ← (if 0 <? (if cn_can_receive conn' then 1 else 0) then send_fin c (Some gs)
               else cnx ← picoquic_connection_of (Some gs); picoquic_close cnx);
         reset_quic_timer (Some s) ;;
         mret (if negb (rc =? 0) then - EIO else 0)) (fun _ => Q tt) w') ->
  wp (ct_connection_close c) Q w.
Proof.
  intros Hw Hst Hp Hd HQ. unfold ct_connection_close. wp_go. eapply wp_is_closed_or_closing; [apply (sh_connection Hw)|].
  rewrite Hst, bool_decide_false by (by intros []). wp_go. eapply wp_update_connection; [apply (sh_connection Hw)|].
  pose proof (shutting_connection _ (set_cn_state CT_CONN_STATE_CLOSING conn') _ _ _ _ _ _ Hw) as Hw1. set (w1 := set_w_connections _ w) in *.
  assert (quic_pointers m g ss (set_cn_state CT_CONN_STATE_CLOSING conn')) as Hp1 by (by destruct Hp).
  assert (quic_refs m g gs s x t cnx w1) as Hr1 by (eapply (sh_refs Hw1); [apply Hsole|apply Hsole|done]).
  unfold ct_socket_manager_close_connection. wp_go.
  eapply wp_protocol_of; [apply (sh_connection Hw1)|apply Hp1|apply (sh_manager Hw1)|]. rewrite (so_protocol _ Hsole).
  cbn [impl_close_connection ctaps_close]. unfold quic_close_connection. wp_go.
  eapply wp_socket_state; [apply (sh_connection Hw1)|exact Hp1|exact Hr1|]. wp_go.
  eapply wp_group_state; [apply (sh_connection Hw1)|exact Hp1|exact Hr1|]. wp_go.
  eapply wp_group_of; [apply (sh_connection Hw1)|exact Hp1|]. unfold ct_connection_set_can_send, set_connection. wp_go.
  eapply wp_update_connection; [apply (sh_connection Hw1)|].
  pose proof (shutting_connection _ (after_close conn') _ _ _ _ _ _ Hw1) as Hw2. wp_go. apply (wp_sole_members Hw2). wp_go.
  apply (wp_sole_active Hw2). change (active (after_close conn')) with (cn_can_receive conn').
  eapply wp_mono; [by apply (HQ _ Hw2)|]. intros rc w3 HQ3. wp_go. exact HQ3.
Qed.

Lemma sh_stream conn' sm' th' ph' log calls w :
  shutting w0 conn' sm' th' ph' log calls w -> q_streams (w_quic w) !! ss = Some (QuicStream sid true).
Proof. intros []. rewrite sh_streams0. apply Hsole. Qed.

Lemma sh_timer_of conn' log calls w :
  shutting w0 conn' sm th ph log calls w -> timer_of s x t th w.
Proof.
  intros Hw. destruct (so_socket_state _ Hsole) as (Hx & Ht & Hp), (so_timer _ Hsole) as (_ & Hd & _).
  split; [split| |apply (sh_timer Hw)|exact Hd].
  - apply Hw.
  - rewrite (sh_quiet _ _ _ _ _ _ _ _ Hw). apply Hsole.
  - rewrite (sh_contexts _ _ _ _ _ _ _ _ Hw). apply Hsole.
  - exists st, p. rewrite (sh_socket Hw), (sh_poll Hw). by split_and!.
  - exists st. by rewrite (sh_socket Hw).
Qed.

(** The FIN, and what the timer's callback then sends. *)
Definition fin_calls : list picoquic_call :=
  PqAddToStream cnx sid [] true c :: transmit x (next_packets w0) (tail (w_uv w0)).

Lemma shutting_sent conn' th' log h w :
  oracle_ok h -> h_live h = h_live (w_heap w) -> shutting w0 conn' sm th' ph log [] w ->
  shutting w0 conn' sm th' ph (log ++ transmit x (next_packets w) (w_uv w)) [] (after_sending x (next_packets w) h (packets_taken w)).
Proof.
  intros Ho Hl Hw. apply (shutting_packets _ _ _ _ _ _ w), (shutting_heap _ _ _ _ _ _ h) in Hw; [|done..].
  by apply (shutting_told _ _ _ _ _ (transmit x (next_packets w) (w_uv w)) _ (drop (length (next_packets w)) (w_uv w))) in Hw.
Qed.

Lemma wp_send_fin conn' (Q : Z -> world -> Prop) w :
  shutting w0 conn' sm th ph [] [] w -> quic_pointers m g ss conn' -> w_uv w = w_uv w0 -> next_packets w = next_packets w0 ->
  (forall rc w', shutting w0 conn' sm timer_set ph fin_calls [] w' -> Q rc w') -> wp (send_fin c (Some gs)) Q w.
Proof.
  intros Hw Hp Huv Hn HQ. pose proof (sh_refs Hw (so_manager_state _ Hsole) (so_protocol _ Hsole) (proj1 (proj2 (so_timer _ Hsole)))) as Hr.
  unfold send_fin. wp_go. eapply wp_initialized; [apply (sh_connection Hw)|exact Hp|by eapply sh_stream|]. cbn [qs_stream_initialized negb]. wp_go.
  eapply wp_stream_id; [apply (sh_connection Hw)|exact Hp|by eapply sh_stream|]. wp_go.
  eapply wp_picoquic_connection_of; [exact Hr|]. unfold picoquic_add_to_stream_with_ctx. wp_go. apply wp_cnx_at; [apply Hkeeps|]. wp_go.
  apply wp_log_picoquic. wp_go. apply wp_next_rc. cbn [qs_stream_id].
  apply (shutting_told _ _ _ _ _ [PqAddToStream cnx sid [] true c] _ (tail (w_uv w0))) in Hw.
  change (w_uv (told _ w)) with (w_uv w). rewrite Huv. set (w1 := set_w_uv _ _) in *. wp_go.
  unfold run_socket_timer. wp_go. eapply wp_manager_of; [apply (sh_connection Hw)|apply Hp|]. wp_go.
  eapply wp_quic_state_of; [apply (sh_manager Hw)|apply Hsole|]. wp_go. eapply wp_socket_state_at; [apply (sh_socket Hw)|].
  destruct (so_socket_state _ Hsole) as (_ & Ht & _). rewrite Ht. wp_go.
  eapply wp_on_socket_timer; [by eapply sh_timer_of| |].
  - change (next_packets w1) with (next_packets w). rewrite Hn. apply Hsole.
  - intros h Ho Hl. wp_go. apply HQ. rewrite (armed_open th) by (apply (sh_timer Hw) || apply Hsole).
    pose proof (shutting_sent _ _ _ _ _ Ho Hl Hw) as Hsent.
    apply (shutting_timer _ _ _ timer_set) in Hsent. unfold fin_calls. rewrite <- Hn. exact Hsent.
Qed.

(** The last direction. *)
Lemma wp_picoquic_close conn' th' log calls (Q : Z -> world -> Prop) w :
  shutting w0 conn' sm th' ph log calls w ->
  (forall rc w', shutting w0 conn' sm th' ph (log ++ [PqClose cnx]) calls w' -> Q rc w') ->
  wp (picoquic_close (Some cnx)) Q w.
Proof.
  intros Hw HQ. unfold picoquic_close. wp_go. apply wp_cnx_at; [apply Hkeeps|]. wp_go. apply wp_log_picoquic. wp_go.
  apply wp_next_rc, HQ. by eapply shutting_told.
Qed.

(** [ct_connection_close] sends a FIN, or, after the peer's, closes the QUIC
    connection. *)
Lemma wp_close_ours conn' log w :
  shutting w0 conn' sm th ph log [] w -> cn_state conn' = CT_CONN_STATE_ESTABLISHED -> quic_pointers m g ss conn' ->
  (cn_can_receive conn' = true -> w = w0 /\ log = []) ->
  wp (ct_connection_close c) (fun _ => shutting w0 (after_close conn') sm timer_set ph
    (log ++ if cn_can_receive conn' then fin_calls else [PqClose cnx]) []) w.
Proof.
  intros Hw Hst Hp Hfirst. eapply wp_close_start; [exact Hw|exact Hst|exact Hp|apply Hsole|]. intros w1 Hw1 Huv Hn.
  assert (quic_pointers m g ss (after_close conn')) as Hp1 by (by destruct Hp). wp_go. destruct (cn_can_receive conn').
  - destruct Hfirst as [-> ->]; [done|]. change (0 <? 1) with true. cbn iota. apply (wp_send_fin _ _ _ Hw1 Hp1 Huv Hn).
    intros rc w2 Hw2. wp_go. eapply wp_rearm; [exact Hw2|by right|]. intros w3 Hw3. by wp_go.
  - change (0 <? 0) with false. wp_go.
    eapply wp_picoquic_connection_of; [eapply (sh_refs Hw1); [apply Hsole|apply Hsole|apply Hsole]|].
    eapply wp_picoquic_close; [exact Hw1|].
    intros rc w2 Hw2. wp_go. eapply wp_rearm; [exact Hw2|by left|]. intros w3 Hw3. by wp_go.
Qed.

(** *** The peer's direction *)

Definition fin_event : callback_args := CallbackArgs cnx sid [] picoquic_callback_stream_fin (Some (GroupCtx g)) (Some c).

Lemma wp_peer_fin conn' th' log w :
  shutting w0 conn' sm th' ph log [] w -> uh_data th' = Some s -> quic_pointers m g ss conn' ->
  wp (picoquic_callback fin_event) (fun _ => shutting w0 (set_cn_can_receive false conn') sm th' ph
    (log ++ if cn_can_send conn' then [] else [PqClose cnx]) []) w.
Proof.
  intros Hw Hd Hp. unfold picoquic_callback, stream_fin. wp_go. cbn [fin_event ca_callback_ctx ca_event ca_cnx ca_stream_ctx ca_stream_id ca_bytes].
  cbn [resolve_or_create_stream_connection]. wp_go. change (0 <? 0) with false. wp_go. change (0 <? length [])%nat with false. wp_go.
  change (negb (0 =? 0)) with false. wp_go. unfold handle_stream_fin, ct_connection_set_can_receive, set_connection. wp_go.
  eapply wp_update_connection; [apply (sh_connection Hw)|].
  pose proof (shutting_connection _ (set_cn_can_receive false conn') _ _ _ _ _ _ Hw) as Hw1. set (w1 := set_w_connections _ w) in *. wp_go.
  assert (quic_pointers m g ss (set_cn_can_receive false conn')) as Hp1 by (by destruct Hp).
  eapply wp_can_send; [apply (sh_connection Hw1)|]. change (cn_can_send (set_cn_can_receive false conn')) with (cn_can_send conn'). wp_go.
  eapply wp_group_of; [apply (sh_connection Hw1)|exact Hp1|]. wp_go. apply (wp_sole_members Hw1). wp_go. apply (wp_sole_active Hw1).
  unfold active. cbn [cn_can_receive set_cn_can_receive]. rewrite orb_false_r.
  change (cn_can_send (set_cn_can_receive false conn')) with (cn_can_send conn'). destruct (cn_can_send conn'); cbn [negb].
  - change (1 =? 0) with false. wp_go. unfold connection_ready_if. cbn [when]. wp_go. by rewrite app_nil_r.
  - change (0 =? 0) with true. wp_go.
    eapply wp_group_state; [apply (sh_connection Hw1)|exact Hp1|eapply (sh_refs Hw1); [apply Hsole|apply Hsole|done]|].
    wp_go. eapply wp_picoquic_connection_of; [eapply (sh_refs Hw1); [apply Hsole|apply Hsole|done]|]. wp_go.
    eapply wp_picoquic_close; [exact Hw1|]. intros rc w2 Hw2. wp_go. unfold connection_ready_if. cbn [when]. by wp_go.
Qed.

(** *** The end of the QUIC connection *)

Definition closed_event : callback_args := CallbackArgs cnx 0 [] picoquic_callback_close (Some (GroupCtx g)) None.
Definition closing_manager : ct_socket_manager := set_sm_close_reason CT_CLOSE_TYPE_GRACEFUL sm.
Definition closing_timer (th' : uv_handle) : uv_handle :=
  set_phase (HandleClosing (Some socket_timer_close_cb_ptr)) (set_read None th').

Lemma wp_closed_event conn' th' log w :
  (forall w, picoquic_get_remote_error w cnx = 0) -> shutting w0 conn' sm th' ph log [] w -> uh_phase th' = HandleOpen ->
  cn_socket_manager conn' = Some m -> cn_state conn' <> CT_CONN_STATE_CLOSED ->
  wp (picoquic_callback closed_event) (fun _ => shutting w0 conn' closing_manager (closing_timer th') ph log []) w.
Proof.
  intros Herr Hw Ho Hcm Hst. unfold picoquic_callback. wp_go. cbn [closed_event ca_callback_ctx ca_event ca_cnx]. wp_go.
  apply wp_cnx_at; [apply Hkeeps|]. wp_go. rewrite Herr. cbn [the_group]. wp_go. change (negb (0 =? 0)) with false. cbn iota.
  unfold handle_closed_picoquic_connection. wp_go. apply (wp_sole_members Hw). wp_go. cbn [connections_to_notify]. wp_go.
  eapply wp_connection_at; [apply (sh_connection Hw)|]. wp_go. eapply wp_is_closed; [apply (sh_connection Hw)|].
  rewrite bool_decide_false by done. wp_go. cbn [for_each]. rewrite Hcm. wp_go. eapply wp_manager_at; [apply (sh_manager Hw)|].
  unfold ct_socket_manager_closed_connection_cb. wp_go. eapply wp_manager_of; [apply (sh_connection Hw)|exact Hcm|]. wp_go.
  destruct (so_refs _ Hsole) as (_ & Hall & Hl).
  eapply wp_sole_dependent; [apply (sh_connection Hw)|exact Hst|apply (sh_manager Hw)|exact Hall|exact Hl|].
  change (1 =? 1) with true. cbn iota. unfold set_close_reason. wp_go. eapply wp_update_manager; [apply (sh_manager Hw)|].
  apply (shutting_manager _ _ closing_manager) in Hw. set (w1 := set_w_managers _ w) in *. wp_go. unfold ct_socket_manager_close. wp_go.
  eapply wp_manager_at; [apply (sh_manager Hw)|]. change (sm_protocol closing_manager) with (sm_protocol sm).
  rewrite (so_protocol _ Hsole). cbn [impl_close_socket ctaps_sockets]. unfold quic_close_socket. wp_go.
  eapply wp_quic_state_of; [apply (sh_manager Hw)|apply Hsole|]. cbn [ct_close_quic_context]. wp_go.
  eapply wp_socket_state_at; [apply (sh_socket Hw)|]. destruct (so_socket_state _ Hsole) as (_ & Ht & _). rewrite Ht. unfold uv_timer_stop. wp_go.
  eapply wp_update_handle; [apply (sh_timer Hw)|]. apply (shutting_timer _ _ _ (set_read None th')) in Hw. set (w2 := set_w_handles _ w1) in *.
  wp_go. eapply wp_uv_close; [apply (sh_timer Hw)|exact Ho|]. wp_go. by eapply shutting_timer.
Qed.

(** *** The loop closes the timer, then the poll handle *)

Definition closed_timer (th' : uv_handle) : uv_handle := set_phase HandleClosed (closing_timer th').
Definition closing_poll : uv_handle := set_phase (HandleClosing (Some quic_closed_poll_handle_cb_ptr)) (set_read None ph).

Lemma wp_timer_closed conn' th' log w :
  shutting w0 conn' closing_manager (closing_timer th') ph log [] w -> uh_data th' = Some s ->
  wp (handle_closed t) (fun _ => shutting w0 conn' closing_manager (closed_timer th') closing_poll log []) w.
Proof.
  intros Hw Hd. unfold handle_closed. wp_go. eapply wp_handle_at; [apply (sh_timer Hw)|]. cbn [closing_timer set_phase uh_phase]. wp_go.
  eapply wp_update_handle; [apply (sh_timer Hw)|]. apply (shutting_timer _ _ _ (closed_timer th')) in Hw. set (w1 := set_w_handles _ w) in *.
  cbn [run_close_cb]. unfold socket_timer_close_cb. wp_go. eapply wp_handle_at; [apply (sh_timer Hw)|].
  change (uh_data (closed_timer th')) with (uh_data th'). rewrite Hd. wp_go. eapply wp_socket_state_at; [apply (sh_socket Hw)|]. wp_go.
  destruct (so_socket_state _ Hsole) as (Hx & _ & Hp). rewrite Hp.
  assert (forall uv, shutting w0 conn' closing_manager (closed_timer th') ph log [] (set_w_uv uv w1)) as Hw1 by (intros; by destruct Hw).
  apply (wp_mono _ (fun _ w2 => shutting w0 conn' closing_manager (closed_timer th') ph log [] w2)).
  - destruct (qk_ticket_store_path st) as [|path|] eqn:Hpath; cbn [is_null negb when]; [by wp_go| |by destruct (so_strings _ Hsole) as (_ & _ & [])].
    wp_go. rewrite Hx. apply wp_context_at; [rewrite (sh_contexts _ _ _ _ _ _ _ _ Hw); apply Hsole|]. wp_go. cbn [load]. wp_go. apply wp_next_rc. by wp_go.
  - intros _ w2 Hw2. wp_go. eapply wp_update_handle; [apply (sh_poll Hw2)|]. apply (shutting_poll _ _ _ _ (set_read None ph)) in Hw2.
    set (w3 := set_w_handles _ w2) in *. wp_go. eapply wp_uv_close; [apply (sh_poll Hw2)|apply Hsole|]. by eapply shutting_poll.
Qed.

Definition closed_poll : uv_handle := set_phase HandleClosed closing_poll.

Lemma wp_poll_closed conn' th' log w :
  shutting w0 conn' closing_manager th' closing_poll log [] w -> cn_state conn' <> CT_CONN_STATE_CLOSED ->
  wp (handle_closed p) (fun _ => shutting w0 (set_cn_state CT_CONN_STATE_CLOSED conn') closing_manager th' closed_poll log
    (called (cb_closed (cn_callbacks conn')) Closed c)) w.
Proof.
  intros Hw Hst. unfold handle_closed. wp_go. eapply wp_handle_at; [apply (sh_poll Hw)|]. cbn [closing_poll set_phase uh_phase]. wp_go.
  eapply wp_update_handle; [apply (sh_poll Hw)|]. apply (shutting_poll _ _ _ _ closed_poll) in Hw. set (w1 := set_w_handles _ w) in *.
  cbn [run_close_cb]. unfold quic_closed_poll_handle_cb, data_of. wp_go. eapply wp_handle_at; [apply (sh_poll Hw)|].
  destruct (so_poll _ Hsole) as (_ & Hd & _), (so_refs _ Hsole) as (_ & Hall & _). change (uh_data closed_poll) with (uh_data ph). rewrite Hd. wp_go.
  unfold ct_socket_manager_closed_socket_cb, ct_socket_manager_get_last_open_connection. wp_go.
  eapply wp_manager_at; [apply (sh_manager Hw)|]. change (sm_all_connections closing_manager) with (sm_all_connections sm). rewrite Hall.
  cbn [first_open]. wp_go. eapply wp_is_closed; [apply (sh_connection Hw)|]. rewrite bool_decide_false by done. wp_go.
  eapply wp_update_connection; [apply (sh_connection Hw)|]. apply (shutting_connection _ (set_cn_state CT_CONN_STATE_CLOSED conn')) in Hw.
  set (w2 := set_w_connections _ w1) in *. unfold ct_socket_manager_notify_of_connection_close. wp_go.
  eapply wp_manager_at; [apply (sh_manager Hw)|]. wp_go. eapply wp_connection_at; [apply (sh_connection Hw)|].
  cbn [closing_manager sm_close_reason set_sm_close_reason]. apply wp_call_connection. by apply (shutting_call _ _ _ _ _ [] _ w2).
Qed.

(** *** Freeing *)

Lemma wp_quic_group_unref conn' (Q : unit -> world -> Prop) w :
  w_connections w !! c = Some conn' -> cn_connection_group conn' = Some g -> cn_socket_manager conn' = Some m ->
  w_groups w !! g = Some (ConnectionGroup gu (Some [(u, c)]) 1 (Some tp) (Some gs)) ->
  w_managers w !! m = Some closing_manager -> is_Some (q_groups (w_quic w) !! gs) ->
  Q tt (set_w_heap (Heap (h_oracle (w_heap w)) (h_live (w_heap w) - tp_blocks tp - 2))
         (set_w_quic (set_q_groups (delete gs (q_groups (w_quic w))) (w_quic w)) (set_w_groups (delete g (w_groups w)) w))) ->
  wp (release_group c) Q w.
Proof.
  intros Hc Hg Hcm Hgr Hm [gst Hgst] HQ. unfold release_group, ct_connection_group_unref. wp_go. eapply wp_connection_at; [exact Hc|]. rewrite Hg. wp_go.
  eapply wp_group_at; [exact Hgr|]. cbn [gr_connections]. wp_go. eapply wp_update_group; [exact Hgr|]. wp_go.
  eapply wp_update_group; [apply lookup_insert_eq|]. world_simpl. rewrite insert_insert_eq. wp_go.
  eapply wp_group_at; [apply lookup_insert_eq|]. change (gr_ref_count _ =? 0) with true. cbn [when]. wp_go.
  eapply wp_manager_of; [exact Hc|exact Hcm|]. wp_go. eapply wp_manager_at; [exact Hm|].
  change (sm_protocol closing_manager) with (sm_protocol sm). rewrite (so_protocol _ Hsole). wp_go.
  cbn [impl_free_connection_group_state ctaps_sockets call_impl]. unfold ct_free_quic_connection_group_state. wp_go.
  eapply wp_group_at; [apply lookup_insert_eq|]. change (gr_connection_group_state _) with (Some gs). cbn [free_group_state]. wp_go.
  eapply wp_group_state_at; [exact Hgst|]. unfold modify_quic. wp_go. eapply wp_heap_frees; [apply frees_block|]. wp_go.
  unfold ct_connection_group_free. wp_go. eapply wp_group_at; [apply lookup_insert_eq|].
  cbn [gr_transport_properties set_gr_ref_count set_gr_connections]. wp_go.
  eapply wp_heap_frees; [apply frees_transport_properties, Hsole|]. world_simpl. wp_go.
  eapply wp_heap_frees; [apply frees_block|]. world_simpl. rewrite delete_insert_eq. cbn [h_live h_oracle].
  by replace (h_live (w_heap w) - 1 - tp_blocks tp - 1) with (h_live (w_heap w) - tp_blocks tp - 2) by lia.
Qed.

Definition ptr_blocks {A} (q : cptr A) : Z := if is_null q then 0 else 1.
Definition string_blocks : Z :=
  ptr_blocks (qk_cert_file_name st) + ptr_blocks (qk_ticket_store_path st) + ptr_blocks (qk_key_file_name st).

(** The quic.c part of a world whose socket [s] is freed. *)
Definition socket_freed (q : quic) : quic :=
  set_q_sockets (delete s (q_sockets q)) (set_q_log (q_log q ++ [PqFree x]) (set_q_contexts (q_contexts q ∖ {[x]}) q)).

Lemma wp_free_quic_socket sm' th' ph' (Q : unit -> world -> Prop) w :
  w_managers w !! m = Some sm' -> sm_internal_socket_manager_state sm' = Some (QuicSocketState s) ->
  q_sockets (w_quic w) !! s = Some st -> x ∈ q_contexts (w_quic w) ->
  w_handles w !! t = Some th' -> uh_phase th' = HandleClosed -> w_handles w !! p = Some ph' -> uh_phase ph' = HandleClosed ->
  Q tt (set_w_heap (Heap (h_oracle (w_heap w)) (h_live (w_heap w) - string_blocks - 3))
         (set_w_quic (socket_freed (w_quic w)) (set_w_handles (delete t (delete p (w_handles w))) w))) ->
  wp (quic_free_socket_state m) Q w.
Proof.
  intros Hm Hs Hst Hx Ht Htc Hp Hpc HQ. destruct (so_socket_state _ Hsole) as (Ex & Et & Ep), (so_strings _ Hsole) as (Hcert & Hkey & Htick).
  unfold quic_free_socket_state. wp_go. eapply wp_quic_state_of; [exact Hm|exact Hs|]. wp_go. eapply wp_socket_state_at; [exact Hst|].
  rewrite Ex, Et, Ep. unfold picoquic_free, modify_quic. wp_go. apply wp_context_at; [exact Hx|]. wp_go. apply wp_log_picoquic.
  cbn [free_handle_ptr]. unfold free_handle. wp_go. eapply wp_handle_at; [exact Hp|]. wp_go; [by rewrite Hpc|].
  eapply wp_heap_frees; [apply frees_block|]. wp_go. eapply wp_handle_at; [world_simpl; by rewrite lookup_delete_ne by apply not_eq_sym, Hsole|].
  wp_go; [by rewrite Htc|]. eapply wp_heap_frees; [apply frees_block|]. wp_go.
  eapply wp_heap_frees; [apply frees_ptr; by destruct (qk_cert_file_name st)|]. wp_go.
  eapply wp_heap_frees; [by apply frees_ptr|]. wp_go.
  eapply wp_heap_frees; [apply frees_ptr; by destruct (qk_key_file_name st)|]. wp_go.
  unfold free_socket_state, modify_quic. wp_go. eapply wp_socket_state_at; [exact Hst|]. wp_go. eapply wp_heap_frees; [apply frees_block|].
  unfold told. world_simpl. quic_simpl. cbn [h_live h_oracle]. unfold string_blocks, ptr_blocks in HQ.
  match goal with |- context [Heap _ ?n] => match type of HQ with context [Heap _ ?n'] => replace n with n' by lia end end. exact HQ.
Qed.

Lemma wp_quic_manager_unref th' ph' (Q : unit -> world -> Prop) w :
  w_managers w !! m = Some (set_sm_all_connections [] closing_manager) -> q_sockets (w_quic w) !! s = Some st ->
  x ∈ q_contexts (w_quic w) ->
  w_handles w !! t = Some th' -> uh_phase th' = HandleClosed -> w_handles w !! p = Some ph' -> uh_phase ph' = HandleClosed ->
  Q tt (set_w_heap (Heap (h_oracle (w_heap w)) (h_live (w_heap w) - string_blocks - 4)) (set_w_managers (delete m (w_managers w))
         (set_w_quic (socket_freed (w_quic w)) (set_w_handles (delete t (delete p (w_handles w))) w)))) ->
  wp (ct_socket_manager_unref (Some m)) Q w.
Proof.
  intros Hm Hst Hx Ht Htc Hp Hpc HQ. unfold ct_socket_manager_unref. wp_go. eapply wp_update_manager; [exact Hm|]. wp_go.
  eapply wp_manager_at; [apply lookup_insert_eq|]. cbn [sm_ref_count set_sm_ref_count set_sm_all_connections closing_manager set_sm_close_reason].
  rewrite (proj1 (so_refs _ Hsole)). change (1 - 1 =? 0) with true. cbn [when]. unfold ct_socket_manager_free. wp_go.
  eapply wp_manager_at; [apply lookup_insert_eq|]. change (sm_protocol _) with (sm_protocol sm). rewrite (so_protocol _ Hsole). wp_go.
  cbn [call_impl impl_free_socket_state ctaps_sockets].
  eapply wp_free_quic_socket; [apply lookup_insert_eq|apply Hsole|exact Hst|exact Hx|exact Ht|exact Htc|exact Hp|exact Hpc|].
  world_simpl. wp_go. eapply wp_heap_frees; [apply frees_block|]. world_simpl. rewrite delete_insert_eq. cbn [h_live h_oracle].
  by replace (h_live (w_heap w) - string_blocks - 3 - 1) with (h_live (w_heap w) - string_blocks - 4) by lia.
Qed.

Lemma wp_quic_release_manager conn' th' ph' (Q : unit -> world -> Prop) w :
  w_connections w !! c = Some conn' -> cn_socket_manager conn' = Some m -> cn_internal_connection_state conn' = Some ss ->
  w_managers w !! m = Some closing_manager -> is_Some (q_streams (w_quic w) !! ss) ->
  q_sockets (w_quic w) !! s = Some st -> x ∈ q_contexts (w_quic w) ->
  w_handles w !! t = Some th' -> uh_phase th' = HandleClosed -> w_handles w !! p = Some ph' -> uh_phase ph' = HandleClosed ->
  Q tt (set_w_heap (Heap (h_oracle (w_heap w)) (h_live (w_heap w) - string_blocks - 5)) (set_w_managers (delete m (w_managers w))
         (set_w_quic (socket_freed (set_q_streams (delete ss (q_streams (w_quic w))) (w_quic w)))
           (set_w_handles (delete t (delete p (w_handles w))) w)))) ->
  wp (release_manager c m) Q w.
Proof.
  intros Hc Hcm Hi Hm [sst Hss] Hst Hx Ht Htc Hp Hpc HQ. unfold release_manager, ct_socket_manager_free_connection_state. wp_go.
  eapply wp_manager_of; [exact Hc|exact Hcm|]. wp_go. eapply wp_manager_at; [exact Hm|].
  change (sm_protocol closing_manager) with (sm_protocol sm). rewrite (so_protocol _ Hsole).
  cbn [call_impl impl_free_connection_state ctaps_sockets]. unfold quic_free_state. wp_go. eapply wp_connection_at; [exact Hc|]. rewrite Hi.
  unfold free_stream_state, modify_quic. wp_go. eapply wp_stream_state_at; [exact Hss|]. wp_go. eapply wp_heap_frees; [apply frees_block|]. wp_go.
  eapply wp_update_manager; [exact Hm|]. destruct (so_refs _ Hsole) as (_ & Hall & _).
  change (sm_all_connections closing_manager) with (sm_all_connections sm). rewrite Hall. cbn [g_slist_remove]. rewrite bool_decide_true by done. wp_go.
  eapply wp_quic_manager_unref; [apply lookup_insert_eq|exact Hst|exact Hx|exact Ht|exact Htc|exact Hp|exact Hpc|].
  world_simpl. rewrite delete_insert_eq. cbn [h_live h_oracle].
  by replace (h_live (w_heap w) - 1 - string_blocks - 4) with (h_live (w_heap w) - string_blocks - 5) by lia.
Qed.

(** Nothing is left of the connection and its socket. *)
Record gone (log : list picoquic_call) (calls : list call) (w : world) : Prop := {
  go_connections : w_connections w = delete c (w_connections w0);
  go_groups : w_groups w = delete g (w_groups w0);
  go_managers : w_managers w = delete m (w_managers w0);
  go_listeners : w_listeners w = w_listeners w0;
  go_handles : w_handles w = delete t (delete p (w_handles w0));
  go_requests : w_requests w = w_requests w0;
  go_calls : w_calls w = w_calls w0 ++ calls;
  go_sockets : q_sockets (w_quic w) = delete s (q_sockets (w_quic w0));
  go_streams : q_streams (w_quic w) = delete ss (q_streams (w_quic w0));
  go_group_states : q_groups (w_quic w) = delete gs (q_groups (w_quic w0));
  go_contexts : q_contexts (w_quic w) = q_contexts (w_quic w0) ∖ {[x]};
  go_log : q_log (w_quic w) = q_log (w_quic w0) ++ log ++ [PqFree x];
  go_live : h_live (w_heap w) = h_live (w_heap w0) - content_blocks conn - tp_blocks tp - string_blocks - 8 }.

Lemma wp_free_shut conn' th' ph' log calls w :
  shutting w0 conn' closing_manager th' ph' log calls w -> uh_phase th' = HandleClosed -> uh_phase ph' = HandleClosed ->
  quic_pointers m g ss conn' -> sec_ok (cn_security_parameters conn') -> content_blocks conn' = content_blocks conn ->
  wp (ct_connection_free (Some c)) (fun _ => gone log calls) w.
Proof.
  intros Hw Htc Hpc [Hcm Hg Hi] Hsec Hblocks. eapply wp_connection_free_steps; [apply (sh_connection Hw)|exact Hsec|exact Hg|exact Hcm|].
  eapply wp_quic_group_unref; [apply lookup_insert_eq|exact Hg|exact Hcm|apply (sh_group Hw)|apply (sh_manager Hw)| |].
  { world_simpl. rewrite (sh_group_states _ _ _ _ _ _ _ _ Hw). eexists. apply Hsole. }
  split; [apply lookup_insert_eq|]. world_simpl. rewrite insert_insert_eq.
  eapply wp_quic_release_manager; [apply lookup_insert_eq|exact Hcm|exact Hi|apply (sh_manager Hw)| |apply (sh_socket Hw)| |
    apply (sh_timer Hw)|exact Htc|apply (sh_poll Hw)|exact Hpc|].
  { world_simpl. quic_simpl. rewrite (sh_stream _ _ _ _ _ _ _ Hw). by eexists. }
  { world_simpl. quic_simpl. rewrite (sh_contexts _ _ _ _ _ _ _ _ Hw). apply Hsole. }
  world_simpl. split; [rewrite lookup_insert_eq; by eexists|]. rewrite delete_insert_eq. destruct Hw as [Hw1 Hw2 Hw3 Hw4 Hw5 Hw6 Hw7 Hw8 Hw9 Hw10 Hw11 Hw12 Hw13 Hw14 Hw15].
  assert (t <> p) as Hne by apply Hsole.
  split; unfold socket_freed; world_simpl; quic_simpl; rewrite ?Hw1, ?Hw2, ?Hw3, ?Hw4, ?Hw5, ?Hw6, ?Hw7, ?Hw8, ?Hw9, ?Hw10, ?Hw11, ?Hw13;
    rewrite ?delete_insert_eq; try done.
  - by rewrite (delete_insert_ne _ p t) by done; rewrite !delete_insert_eq.
  - by rewrite <- app_assoc.
  - cbn [h_live]. rewrite Hw15, Hblocks. lia.
Qed.

(** *** In either order *)

Inductive closing_order : Set := WeCloseFirst | PeerClosesFirst.

Definition end_stream (o : closing_order) : M world unit :=
  match o with
  | WeCloseFirst => ct_connection_close c ;; picoquic_callback fin_event ;; mret tt
  | PeerClosesFirst => picoquic_callback fin_event ;; ct_connection_close c
  end.

(** picoquic reports that the QUIC connection is closed, the loop closes the
    two handles and the application frees the connection. *)
Definition quic_release : M world unit :=
  picoquic_callback closed_event ;;
  handle_closed t ;;
  handle_closed p ;;
  ct_connection_free (Some c).
Definition quic_shutdown (o : closing_order) : M world unit := end_stream o ;; quic_release.

Definition shutdown_calls (o : closing_order) : list picoquic_call :=
  match o with WeCloseFirst => fin_calls | PeerClosesFirst => [] end ++ [PqClose cnx].

Definition shut_connection : ct_connection := after_close (set_cn_can_receive false conn).

Lemma wp_end_stream o :
  wp (end_stream o) (fun _ => shutting w0 shut_connection sm timer_set ph (shutdown_calls o) []) w0.
Proof.
  destruct (so_directions _ Hsole) as [Hs Hr], (so_timer _ Hsole) as (_ & Hd & _). pose proof (so_pointers _ Hsole) as Hp.
  destruct o; cbn [end_stream]; wp_go.
  - eapply wp_mono; [apply (wp_close_ours conn [] w0 shutting_start); [apply Hsole|exact Hp|done]|]. intros ? w Hw. rewrite Hr in Hw. wp_go.
    eapply wp_mono; [apply (wp_peer_fin _ _ _ _ Hw); [exact Hd|by destruct Hp]|]. intros ? w' Hw'. by wp_go.
  - eapply wp_mono; [apply (wp_peer_fin _ _ _ _ shutting_start); [exact Hd|exact Hp]|]. rewrite Hs. intros ? w Hw.
    apply (wp_close_ours (set_cn_can_receive false conn) [] w Hw); [apply Hsole|by destruct Hp|done].
Qed.

Lemma wp_quic_release o w :
  (forall w, picoquic_get_remote_error w cnx = 0) -> shutting w0 shut_connection sm timer_set ph (shutdown_calls o) [] w ->
  wp quic_release (fun _ => gone (shutdown_calls o) (called (cb_closed (cn_callbacks conn)) Closed c)) w.
Proof.
  intros Herr Hw. pose proof (so_pointers _ Hsole) as Hp. unfold quic_release. wp_go.
  eapply wp_mono; [apply (wp_closed_event _ _ _ _ Herr Hw); [apply Hsole|apply Hp|done]|]. intros ? w2 Hw2. wp_go.
  eapply wp_mono; [apply (wp_timer_closed _ _ _ _ Hw2); apply Hsole|]. intros ? w3 Hw3. wp_go.
  eapply wp_mono; [by apply (wp_poll_closed _ _ _ _ Hw3)|]. intros ? w4 Hw4.
  apply (wp_free_shut _ _ _ _ _ _ Hw4); [done|done|by destruct Hp|apply Hsole|done].
Qed.

(** C16: closing a QUIC connection that is alone on its socket.  Whether the
    application closes it first or the peer's FIN comes first, picoquic is
    told to close the QUIC connection exactly once, when both directions have
    ended, and is given our FIN only if the peer's had not come.  When it
    reports the end, the timer and then the poll handle are closed, the
    application hears exactly [Closed], and [ct_connection_free] leaves
    nothing: every object of the connection, its group, its manager and its
    socket (the picoquic context with them) is released exactly once, and the
    heap loses exactly their blocks. *)
Theorem quic_connection_shutdown o :
  (forall w, picoquic_get_remote_error w cnx = 0) ->
  wp (quic_shutdown o) (fun _ => gone (shutdown_calls o) (called (cb_closed (cn_callbacks conn)) Closed c)) w0.
Proof.
  intros Herr. unfold quic_shutdown. wp_go. eapply wp_mono; [apply wp_end_stream|]. intros ? w Hw. by apply wp_quic_release.
Qed.
End closing.

(** ** Closing a connection that has no stream yet *)

Section no_stream.
Context `{!Picoquic, !Framers, !HashOrder}.
Context (c m g gs ss s x t cnx : id).

(** C40: closing a connection over QUIC on which nothing was sent or received
    has no effect that anyone could notice.  It has no stream to carry a FIN,
    and it counts itself among the connections that can still receive, so
    that [ct_connection_close] tells picoquic nothing and calls no callback;
    the connection is [CLOSING] from then on, for which any further
    [ct_connection_close] does nothing.  The connection, its socket and the
    peer's QUIC connection stay open, and [Closed] is never called, until
    picoquic itself gives the connection up. *)
Theorem close_without_stream_never_closes conn gr tbl key sid w :
  w_connections w !! c = Some conn -> quic_pointers m g ss conn -> quic_refs m g gs s x t cnx w ->
  cn_state conn = CT_CONN_STATE_ESTABLISHED -> cn_can_receive conn = true ->
  q_streams (w_quic w) !! ss = Some (QuicStream sid false) ->
  w_groups w !! g = Some gr -> gr_connections gr = Some tbl -> (key, c) ∈ tbl ->
  (forall e, e ∈ tbl -> is_Some (w_connections w !! e.2)) ->
  wp (ct_connection_close c) (fun _ w' =>
    w_quic w' = w_quic w /\ w_calls w' = w_calls w /\ w_handles w' = armed t w /\
    w_connections w' = <[c := after_close conn]> (w_connections w) /\
    wp (ct_connection_close c) (fun _ w2 => w2 = w') w') w.
Proof.
  intros Hc Hp Hr Hst Hrecv Hss Hg Ht Hin Hall. unfold ct_connection_close at 1. wp_go. eapply wp_is_closed_or_closing; [exact Hc|].
  rewrite Hst, bool_decide_false by (by intros []). wp_go. eapply wp_update_connection; [exact Hc|]. set (w1 := set_w_connections _ w).
  assert (w_connections w1 !! c = Some (set_cn_state CT_CONN_STATE_CLOSING conn)) as Hc1 by apply lookup_insert_eq.
  assert (quic_pointers m g ss (set_cn_state CT_CONN_STATE_CLOSING conn)) as Hp1 by (by destruct Hp).
  assert (quic_refs m g gs s x t cnx w1) as Hr1 by refs. destruct (qr_manager _ _ _ _ _ _ _ _ Hr) as (sm & Hm & Hsm & Hq).
  unfold ct_socket_manager_close_connection. wp_go. eapply wp_protocol_of; [exact Hc1|apply Hp1|exact Hm|]. rewrite Hq.
  cbn [impl_close_connection ctaps_close]. unfold quic_close_connection. wp_go.
  eapply wp_socket_state; [exact Hc1|exact Hp1|exact Hr1|]. wp_go. eapply wp_group_state; [exact Hc1|exact Hp1|exact Hr1|]. wp_go.
  eapply wp_group_of; [exact Hc1|exact Hp1|]. unfold ct_connection_set_can_send, set_connection. wp_go.
  eapply wp_update_connection; [exact Hc1|]. change (set_cn_can_send false _) with (after_close conn). subst w1. world_simpl. rewrite insert_insert_eq.
  set (w2 := set_w_connections _ _). assert (w_connections w2 !! c = Some (after_close conn)) as Hc2 by apply lookup_insert_eq.
  assert (quic_pointers m g ss (after_close conn)) as Hp2 by (by destruct Hp). wp_go. eapply wp_group_members; [exact Hg|exact Ht|]. wp_go.
  apply wp_count_active.
  { intros c' (e & -> & He)%list_elem_of_fmap. rewrite (hash_order_perm tbl) in He. destruct (decide (e.2 = c)) as [->|Hne]; [by rewrite Hc2|].
    unfold w2. world_simpl. rewrite lookup_insert_ne by done. by apply Hall. }
  assert (c ∈ filter (active_in w2) ((fun e => e.2) <$> hash_order tbl)) as Hact.
  { apply list_elem_of_filter. split.
    - unfold active_in. rewrite Hc2. unfold active. cbn [cn_can_receive after_close set_cn_can_send set_cn_state]. rewrite Hrecv. by rewrite orb_true_r.
    - apply list_elem_of_fmap. exists (key, c). by rewrite (hash_order_perm tbl). }
  destruct (filter _ _) as [|y l]; [by apply not_elem_of_nil in Hact|].
  assert ((0 <? Z.of_nat (length (y :: l))) = true) as -> by (apply Z.ltb_lt; cbn [length]; lia). unfold send_fin. wp_go.
  eapply wp_initialized; [exact Hc2|exact Hp2|exact Hss|]. cbn [qs_stream_initialized negb]. wp_go.
  eapply wp_reset_timer; [refs|]. wp_go. split_and!; [done..|]. unfold ct_connection_close. wp_go.
  eapply wp_is_closed_or_closing; [exact Hc2|]. by rewrite bool_decide_true by by right.
Qed.
End no_stream.

(** ** A concrete shutdown *)

Module Shutdown.
Import Lifecycle.Idle QuicFacts.Stream.

Definition open_world : world := quic_world (QuicStream 0 true) [] [].

Lemma quic_world_sole : sole 1%positive 2%positive 3%positive 4%positive 5%positive 6%positive 7%positive 8%positive 9%positive
  10%positive quic_connection quic_manager quic_socket timer poll [] [] some_properties 0 false open_world.
Proof.
  split; try done; first [by constructor|apply wf_default_selection|apply quic_world_context].
Qed.

Lemma quic_connection_shutdown_witness :
  let run := quic_shutdown 1%positive 3%positive 8%positive 9%positive 10%positive 0 in
  let ended := gone 1%positive 2%positive 3%positive 4%positive 5%positive 6%positive 7%positive 8%positive 9%positive
    quic_connection quic_socket some_properties open_world in
  let told := shutdown_calls 1%positive 7%positive 10%positive 0 open_world in
  told WeCloseFirst = [PqAddToStream 10%positive 0 [] true 1%positive; PqPrepare 7%positive; PqClose 10%positive] /\
  told PeerClosesFirst = [PqClose 10%positive] /\
  forall o, wp (run o) (fun _ => ended (told o) [CallConnection (user_fn 5) Closed (Some 1%positive)]) open_world.
Proof.
  intros run ended told. split_and!; [done|done|]. intros o.
  exact (quic_connection_shutdown 1%positive 2%positive 3%positive 4%positive 5%positive 6%positive 7%positive 8%positive 9%positive
    10%positive quic_connection quic_manager quic_socket timer poll [] [] some_properties 0 false open_world quic_world_sole
    (fun _ => eq_refl) o (fun _ => eq_refl)).
Defined.

Definition idle_world : world := quic_world (QuicStream 0 false) [] [].

Lemma close_without_stream_never_closes_witness :
  wp (ct_connection_close 1%positive) (fun _ w' =>
    w_quic w' = w_quic idle_world /\ w_calls w' = [] /\ w_handles w' = armed 8%positive idle_world /\
    w_connections w' = <[1%positive := after_close quic_connection]> (w_connections idle_world) /\
    wp (ct_connection_close 1%positive) (fun _ w2 => w2 = w') w') idle_world.
Proof.
  apply (close_without_stream_never_closes 1%positive 2%positive 3%positive 4%positive 5%positive 6%positive 7%positive 8%positive
    10%positive quic_connection quic_group [([], 1%positive)] [] 0 idle_world);
    [done|apply quic_world_pointers|apply quic_world_refs|done..|by constructor|].
  intros e ->%list_elem_of_singleton. by eexists.
Defined.
End Shutdown.
