(* ===== verification/QuicLifecycle.v ===== *)
(** The life of a connection over QUIC.

    From [ct_connection_create_client] through [quic_init], the handshake that
    picoquic reports, a message, and the two ways to the end of its stream
    (QuicClosing) to [ct_connection_free]. *)

From S2P Require Export QuicClosing.
Open Scope Z_scope.

(** ** Credentials *)

(** Security parameters with which a socket can be opened: an ALPN, and a
    certificate with its key as the parameter [par]. *)
Record credentials (par : sec_prop) (alpn cert key : string) (l : ct_security_parameters) : Prop := {
  cc_alpn : exists rest n, sec_val (l ALPN) = array_of_strings (StringArray (Ptr (Ptr alpn :: rest)) n) /\ n <> 0%nat;
  cc_certificate : exists rest n,
    sec_val (l par) = certificate_bundles (Bundles (Ptr (Bundle (Ptr cert) (Ptr key) :: rest)) n) /\ n <> 0%nat;
  cc_set : sec_set_by_user (l ALPN) = true /\ sec_set_by_user (l par) = true }.
Definition client_credentials : string -> string -> string -> ct_security_parameters -> Prop := credentials CLIENT_CERTIFICATE.

Lemma credentials_copied par alpn cert key l c :
  same_user_settings c l -> credentials par alpn cert key l -> credentials par alpn cert key c.
Proof.
  intros Hs [Ha Hc [Hu1 Hu2]]. destruct (Hs ALPN) as (E1 & E2 & _), (Hs par) as (E3 & E4 & _).
  split; rewrite ?E1, ?E3, ?(E2 Hu1), ?(E4 Hu2); done.
Qed.

(** Reading a member of the parameters. *)
Lemma wp_heap_member {A} (f : sec_value -> option A) l p a (Q : A -> world -> Prop) w :
  f (sec_val (l p)) = Some a -> Q a w -> wp (on_heap (member f l p)) Q w.
Proof. intros Ha HQ. apply wp_on_heap. unfold member. rewrite Ha. wp_go. by destruct w. Qed.

Section credentials.
Context (par : sec_prop) (alpn cert key : string) (l : ct_security_parameters) (Hl : credentials par alpn cert key l).

Lemma wp_certificate_count (Q : nat -> world -> Prop) w :
  (forall n, n <> 0%nat -> Q n w) -> wp (on_heap (certificate_count (Some l) par)) Q w.
Proof.
  intros HQ. destruct (cc_certificate _ _ _ _ _ Hl) as (rest & n & He & Hn). apply wp_on_heap.
  unfold certificate_count, member. rewrite He. wp_go. specialize (HQ n Hn). by destruct w.
Qed.

Lemma wp_certificate_file (Q : cptr string -> world -> Prop) w :
  Q (Ptr cert) w -> wp (on_heap (ct_security_parameters_get_certificate_file (Some l) par 0)) Q w.
Proof.
  intros HQ. destruct (cc_certificate _ _ _ _ _ Hl) as (rest & n & He & Hn). apply wp_on_heap.
  unfold ct_security_parameters_get_certificate_file, member. rewrite He. wp_go.
  cbn [num_bundles Nat.ltb Nat.leb]. destruct n; [done|]. cbn. by destruct w.
Qed.
Lemma wp_certificate_key_file (Q : cptr string -> world -> Prop) w :
  Q (Ptr key) w -> wp (on_heap (ct_security_parameters_get_key_file (Some l) par 0)) Q w.
Proof.
  intros HQ. destruct (cc_certificate _ _ _ _ _ Hl) as (rest & n & He & Hn). apply wp_on_heap.
  unfold ct_security_parameters_get_key_file, member. rewrite He. wp_go.
  destruct n; [done|]. cbn. by destruct w.
Qed.
Lemma wp_alpns (Q : cptr (list (cptr string)) * option nat -> world -> Prop) w :
  (forall rest n, n <> 0%nat -> Q (Ptr (Ptr alpn :: rest), Some n) w) -> wp (on_heap (ct_security_parameters_get_alpns (Some l))) Q w.
Proof.
  intros HQ. destruct (cc_alpn _ _ _ _ _ Hl) as (rest & n & He & Hn). apply wp_on_heap.
  unfold ct_security_parameters_get_alpns, member. rewrite He. wp_go. cbn [num_strings strings]. rewrite bool_decide_eq_false_2 by done.
  specialize (HQ rest n Hn). by destruct w.
Qed.
End credentials.

(** ** The socket state *)

(** All calls of libuv, the sockets interface and picoquic succeed. *)
Definition uv_succeeds (w : world) : Prop := w_uv w = [].

Lemma wp_uv_succeeds (Q : Z -> world -> Prop) w : uv_succeeds w -> Q 0 w -> wp uv_rc Q w.
Proof. intros Hu HQ. unfold uv_rc. wp_go. by rewrite Hu. Qed.

Ltac uv_go := apply wp_uv_succeeds; [assumption|]; change (0 <? 0) with false; cbn iota; wp_go.

Definition quic_socket_state (m t x : id) (ticket : cptr string) (cert key : string) (msg : option ct_message) : ct_quic_socket_state :=
  QuicSocket None (Some x) (Some t) m (Ptr cert) (Ptr key) ticket msg None.
Definition quic_timer (s : id) (read : option read_cb) : uv_handle := Handle (Some s) read false HandleOpen None.

(** The rest of a world whose tables of quic.c are given. *)
Definition with_quic_socket s x st (q : quic) : quic :=
  set_q_sockets (<[s := st]> (q_sockets q)) (set_q_contexts ({[x]} ∪ q_contexts q) q).

Section opening.
Context `{!Picoquic, !Framers, !HashOrder}.

Lemma wp_heap_ptr (p : cptr string) (Q : cptr string -> world -> Prop) w :
  oracle_ok (w_heap w) -> p <> Bad -> 
  (forall h, oracle_ok h -> h_live h = h_live (w_heap w) + ptr_blocks p -> Q p (set_w_heap h w)) ->
  wp (if is_null p then mret Null else on_heap (strdup_ptr p)) Q w.
Proof.
  intros Ho Hp HQ. destruct p as [|a|]; [| |done]; cbn [is_null].
  - wp_go. specialize (HQ (w_heap w) Ho). cbn in HQ. destruct w. apply HQ. lia.
  - eapply wp_heap_allocs; [exact Ho|by apply allocs_strdup_ptr|]. intros ? h <- Ho' Hl. by apply HQ.
Qed.

Lemma wp_ticket_key l (Q : cptr (list Z) * option nat -> world -> Prop) w :
  wf_sec l -> (forall r, Q r w) -> wp (on_heap (ct_security_parameters_get_session_ticket_encryption_key (Some l))) Q w.
Proof.
  intros Hwf HQ. destruct (Hwf SESSION_TICKET_ENCRYPTION_KEY) as (_ & Hk & _). apply wp_on_heap.
  unfold ct_security_parameters_get_session_ticket_encryption_key, member.
  destruct (sec_val (l SESSION_TICKET_ENCRYPTION_KEY)) as [| | |b]; try done. cbn [as_bytes]. wp_go.
  specialize (HQ (ba_bytes b, Some (ba_length b))). by destruct w.
Qed.

Lemma wp_quic_socket_new par alpn cert key l m sm msg (Q : option id -> world -> Prop) w :
  credentials par alpn cert key l -> wf_sec l -> oracle_ok (w_heap w) -> uv_succeeds w -> w_managers w !! m = Some sm ->
  let s := w_next w in
  let x := Pos.succ s in
  let t := Pos.succ x in
  (forall h ticket, oracle_ok h -> ticket <> Bad -> h_live h = h_live (w_heap w) + 4 + ptr_blocks ticket ->
     Q (Some s) (World h (Pos.succ t) (w_connections w) (w_groups w)
       (<[m := set_sm_internal_socket_manager_state (Some (QuicSocketState s)) sm]> (w_managers w)) (w_listeners w)
       (<[t := quic_timer s None]> (w_handles w)) (w_requests w) (w_uv w) (w_names w) (w_entropy w) (w_uuid_counter w) (w_time w)
       (w_calls w) (with_quic_socket s x (quic_socket_state m t x ticket cert key msg) (w_quic w)))) ->
  wp (ct_quic_socket_state_new (Ptr cert) (Ptr key) m (Some l) msg) Q w.
Proof.
  intros Hl Hwf Ho Hu Hm s x t HQ. unfold ct_quic_socket_state_new. cbn [is_null is_Some_b negb orb].
  unfold ct_security_parameters_get_ticket_store_path. wp_go.
  destruct (Hwf TICKET_STORE_PATH) as (_ & Hk & Hok). destruct (sec_val (l TICKET_STORE_PATH)) as [| |ticket|] eqn:Et; try done.
  eapply (wp_heap_member as_string); [by rewrite Et|]. wp_go.
  eapply wp_heap_allocs; [exact Ho|apply allocs_malloc|]. intros ? h1 <- Ho1 Hl1. cbn [negb]. unfold fresh_id, put_socket_state, modify_quic. wp_go. world_simpl. quic_simpl.
  eapply wp_heap_allocs; [exact Ho1|by apply allocs_strdup_ptr|]. intros ? h2 <- Ho2 Hl2. wp_go. fold s.
  eapply wp_update_socket_state; [apply lookup_insert_eq|]. cbn [is_null]. wp_go. world_simpl. quic_simpl. rewrite insert_insert_eq.
  eapply wp_heap_allocs; [exact Ho2|by apply allocs_strdup_ptr|]. intros ? h3 <- Ho3 Hl3. wp_go.
  eapply wp_update_socket_state; [apply lookup_insert_eq|]. cbn [is_null]. wp_go. world_simpl. quic_simpl. rewrite insert_insert_eq.
  eapply wp_update_manager; [exact Hm|]. world_simpl. wp_go.
  apply wp_heap_ptr; [exact Ho3|exact Hok|]. intros h4 Ho4 Hl4. world_simpl. wp_go.
  eapply wp_update_socket_state; [apply lookup_insert_eq|]. world_simpl. quic_simpl. rewrite insert_insert_eq.
  assert (negb (is_null ticket) && is_null ticket = false) as -> by (by destruct ticket). wp_go.
  eapply wp_alpns; [exact Hl|]. intros rest n Hn. cbn [is_null orb default from_option]. rewrite bool_decide_eq_false_2 by done. wp_go.
  world_simpl. quic_simpl. apply wp_ticket_key; [exact Hwf|]. intros _. wp_go. unfold load, index. wp_go. cbn [lookup list_lookup]. wp_go.
  unfold create_picoquic_ctx. wp_go.
  eapply wp_socket_state_at; [apply lookup_insert_eq|]. unfold picoquic_create. cbn [qk_cert_file_name qk_key_file_name set_qk_cert_file_name set_qk_key_file_name set_qk_ticket_store_path load]. wp_go.
  uv_go. unfold fresh_id, modify_quic. wp_go. world_simpl. quic_simpl. fold x.
  eapply wp_update_socket_state; [apply lookup_insert_eq|]. world_simpl. quic_simpl. rewrite insert_insert_eq. wp_go.
  eapply wp_heap_allocs; [exact Ho4|apply allocs_malloc|]. intros ? h5 <- Ho5 Hl5. cbn [negb]. wp_go.
  uv_go. unfold new_handle, fresh_id. wp_go. world_simpl. quic_simpl. fold t.
  eapply wp_update_socket_state; [apply lookup_insert_eq|]. world_simpl. quic_simpl. rewrite insert_insert_eq. wp_go.
  eapply wp_update_handle; [apply lookup_insert_eq|]. world_simpl. rewrite insert_insert_eq. wp_go.
  apply (HQ h5 ticket); [exact Ho5|exact Hok|]. cbn [w_heap set_w_heap set_w_quic set_w_next set_w_managers] in *. lia.
Qed.

(** ** The poll handle and the local address *)

Lemma wp_create_poll e (Q : option id -> world -> Prop) w :
  oracle_ok (w_heap w) -> uv_succeeds w ->
  (forall h, oracle_ok h -> h_live h = h_live (w_heap w) + 1 ->
     Q (Some (w_next w)) (set_w_heap h (set_w_next (Pos.succ (w_next w))
       (set_w_handles (<[w_next w := Handle None (Some poll_recv_cb_ptr) false HandleOpen (Some (poll_bind_address e))]> (w_handles w)) w)))) ->
  wp (create_udp_poll_on_local e) Q w.
Proof.
  intros Ho Hu HQ. unfold create_udp_poll_on_local. wp_go. eapply wp_heap_allocs; [exact Ho|apply allocs_malloc|].
  intros ? h <- Ho1 Hl1. cbn [negb]. wp_go. uv_go. uv_go. uv_go. uv_go. unfold new_handle, fresh_id. wp_go. world_simpl. uv_go.
  eapply wp_update_handle; [apply lookup_insert_eq|]. wp_go. world_simpl. rewrite insert_insert_eq.
  eapply wp_update_handle; [apply lookup_insert_eq|]. wp_go. world_simpl. rewrite insert_insert_eq. by apply HQ.
Qed.

Lemma wp_resolve_poll p x c conn locals e (Q : Z -> world -> Prop) w :
  uv_succeeds w -> names_ok w -> w_handles w !! p = Some x -> w_connections w !! c = Some conn ->
  cn_all_local_endpoints conn = Some locals -> locals !! cn_active_local_endpoint conn = Some e ->
  (forall names locals', locals_blocks locals' = locals_blocks locals -> is_Some (locals' !! cn_active_local_endpoint conn) ->
     Q 0 (set_w_names names (set_w_connections (<[c := with_locals locals' (cn_active_local_endpoint conn) conn]> (w_connections w)) w))) ->
  wp (resolve_local_endpoint_from_poll (Some p) c) Q w.
Proof.
  intros Hu Hn Hh Hc Hlocals He HQ. unfold resolve_local_endpoint_from_poll. wp_go. eapply wp_handle_at; [exact Hh|].
  unfold uv_getname. wp_go. uv_go. unfold names_ok in Hn. destruct (w_names w) as [|a names] eqn:En; [done|]. wp_go. change (0 <? 0) with false. cbn iota. wp_go.
  assert (Hport : forall locals', locals_blocks locals' = locals_blocks locals -> is_Some (locals' !! cn_active_local_endpoint conn) ->
    wp (ct_connection_set_all_local_port c (port_of a)) (fun _ w' => wp (mret 0) Q w')
      (set_w_connections (<[c := with_locals locals' (cn_active_local_endpoint conn) conn]> (w_connections w)) (set_w_names names w))).
  { intros locals' Hb Hi. unfold ct_connection_set_all_local_port. wp_go. eapply wp_update_connection; [apply lookup_insert_eq|]. wp_go.
    world_simpl. rewrite insert_insert_eq.
    apply (HQ names (_ <$> locals')); [by rewrite set_port_blocks|by rewrite list_lookup_fmap, fmap_is_Some]. }
  destruct (ct_address_is_unspecified a); cbn [negb when].
  - wp_go. specialize (Hport locals eq_refl ltac:(by eexists)).
    replace (with_locals locals (cn_active_local_endpoint conn) conn) with conn in Hport by (destruct conn; cbn in *; by subst).
    rewrite insert_id in Hport by done. by destruct w.
  - wp_go. eapply wp_connection_at; [exact Hc|]. rewrite Hlocals. wp_go. eapply wp_update_connection; [exact Hc|]. world_simpl.
    set (locals' := <[_ := _]> locals).
    replace (set_cn_all_local_endpoints (Some locals') conn) with (with_locals locals' (cn_active_local_endpoint conn) conn) by (by destruct conn).
    wp_go. apply (Hport locals'); subst locals'.
    + unfold locals_blocks. rewrite list_fmap_insert.
      change (local_blocks (ct_local_endpoint_set_resolved_address e a)) with (local_blocks e). by rewrite list_insert_id by (by rewrite list_lookup_fmap, He).
    + rewrite list_lookup_insert_eq by (by eapply lookup_lt_Some). by eexists.
Qed.

(** ** [quic_init] *)

(** The quic.c part of the world that [quic_init] leaves. *)
Definition opened_quic (c g : id) (s x gs ss cnx : id) (st : ct_quic_socket_state) (remote : sockaddr) (alpn : string) (q : quic) : quic :=
  Quic (<[s := st]> (q_sockets q)) (<[ss := QuicStream 0 false]> (q_streams q)) (<[gs := QuicGroup (Some cnx) false]> (q_groups q))
    ({[x]} ∪ q_contexts q) (q_callbacks q) (q_packets q)
    (q_log q ++ [PqCreateCnx x cnx remote (Ptr alpn); PqSetCallback cnx g; PqStartClient cnx]).

Definition poll_of (m : id) (a : sockaddr) : uv_handle := Handle (Some m) (Some poll_recv_cb_ptr) false HandleOpen (Some a).

Lemma wp_own_group c conn g (Q : id -> world -> Prop) w :
  w_connections w !! c = Some conn -> cn_connection_group conn = Some g -> Q g w -> wp (group_of c) Q w.
Proof. intros Hc Hg HQ. unfold group_of. wp_go. eapply wp_connection_at; [exact Hc|]. rewrite Hg. by wp_go. Qed.

Lemma wp_server_name l (Q : cptr string -> world -> Prop) w :
  wf_sec l -> (forall n, Q n w) -> wp (on_heap (ct_security_parameters_get_server_name_identification (Some l))) Q w.
Proof.
  intros Hwf HQ. destruct (Hwf SERVER_NAME_IDENTIFICATION) as (_ & Hk & _). apply wp_on_heap.
  unfold ct_security_parameters_get_server_name_identification, member.
  destruct (sec_val (l SERVER_NAME_IDENTIFICATION)) as [| |n|]; try done. cbn [as_string]. wp_go. specialize (HQ n). by destruct w.
Qed.

(** The picoquic connection of a group. *)
Lemma wp_connect_group c g s gs x conn l st alpn rest r early pc (Q : unit -> world -> Prop) w :
  uv_succeeds w -> (forall w x, picoquic_has_cnx w x = true) -> wf_sec l ->
  w_connections w !! c = Some conn -> cn_security_parameters conn = Some l -> cn_connection_group conn = Some g ->
  remote_list conn !! cn_active_remote_endpoint conn = Some r ->
  q_sockets (w_quic w) !! s = Some st -> qk_picoquic_ctx st = Some x -> x ∈ q_contexts (w_quic w) ->
  q_groups (w_quic w) !! gs = Some (QuicGroup pc early) ->
  (let cnx := w_next w in
   Q tt (set_w_next (Pos.succ cnx) (set_w_quic
     (set_q_groups (<[gs := QuicGroup (Some cnx) early]> (q_groups (w_quic w)))
       (set_q_log (q_log (w_quic w) ++ [PqCreateCnx x cnx (re_resolved_address r) (Ptr alpn); PqSetCallback cnx g]) (w_quic w))) w))) ->
  wp (connect_group c s gs (Ptr (Ptr alpn :: rest))) Q w.
Proof.
  intros Hu Hk Hwf Hc Hsec Hcg Hr Hs Hx Hin Hgs HQ. unfold connect_group. wp_go. eapply wp_connection_at; [exact Hc|]. wp_go.
  eapply wp_socket_state_at; [exact Hs|]. wp_go. eapply wp_active_remote; [exact Hc|exact Hr|]. wp_go. rewrite Hsec.
  apply wp_server_name; [exact Hwf|]. intros _. wp_go. unfold load, index. wp_go. cbn [lookup list_lookup]. wp_go.
  unfold picoquic_create_cnx. wp_go. rewrite Hx. apply wp_context_at; [exact Hin|]. unfold load. wp_go. uv_go. unfold fresh_id. wp_go.
  apply wp_log_picoquic. wp_go. unfold told. world_simpl. quic_simpl. unfold update_group_state. wp_go.
  eapply wp_group_state_at; [exact Hgs|]. unfold put_group_state, modify_quic. wp_go. world_simpl. quic_simpl.
  eapply wp_own_group; [exact Hc|exact Hcg|]. unfold picoquic_set_callback. wp_go. apply wp_cnx_at; [apply Hk|]. wp_go. apply wp_log_picoquic.
  unfold told. world_simpl. quic_simpl. by rewrite <- app_assoc.
Qed.

Lemma wp_quic_init alpn cert key l c m g conn sm gr locals e r (Q : Z -> world -> Prop) w :
  client_credentials alpn cert key l -> wf_sec l -> (forall w x, picoquic_has_cnx w x = true) ->
  oracle_ok (w_heap w) -> uv_succeeds w -> names_ok w ->
  w_connections w !! c = Some conn -> cn_socket_manager conn = Some m -> w_managers w !! m = Some sm ->
  cn_connection_group conn = Some g -> w_groups w !! g = Some gr -> cn_security_parameters conn = Some l ->
  cn_all_local_endpoints conn = Some locals -> locals !! cn_active_local_endpoint conn = Some e ->
  remote_list conn !! cn_active_remote_endpoint conn = Some r ->
  let s := w_next w in let x := Pos.succ s in let t := Pos.succ x in
  let p := Pos.succ t in let gs := Pos.succ p in let ss := Pos.succ gs in let cnx := Pos.succ ss in
  (forall h ticket names locals', oracle_ok h -> ticket <> Bad -> h_live h = h_live (w_heap w) + 7 + ptr_blocks ticket ->
     locals_blocks locals' = locals_blocks locals ->
     Q 0 (World h (Pos.succ cnx)
       (<[c := with_locals locals' (cn_active_local_endpoint conn) (set_cn_internal_connection_state (Some ss) conn)]> (w_connections w))
       (<[g := set_gr_connection_group_state (Some gs) gr]> (w_groups w))
       (<[m := set_sm_internal_socket_manager_state (Some (QuicSocketState s)) sm]> (w_managers w)) (w_listeners w)
       (<[t := quic_timer s (Some on_socket_timer_ptr)]> (<[p := poll_of m (poll_bind_address e)]> (w_handles w))) (w_requests w) (w_uv w) names
       (w_entropy w) (w_uuid_counter w) (w_time w) (w_calls w)
       (opened_quic c g s x gs ss cnx (set_qk_poll_handle (Some p) (quic_socket_state m t x ticket cert key None))
          (re_resolved_address r) alpn (w_quic w)))) ->
  wp (quic_init c) Q w.
Proof.
  intros Hl Hwf Hk Ho Hu Hn Hc Hcm Hm Hcg Hg Hsec Hlocals He Hr s x t p gs ss cnx HQ. unfold quic_init, quic_open. wp_go.
  eapply wp_connection_at; [exact Hc|]. rewrite Hsec. cbn [is_Some_b negb]. wp_go.
  eapply wp_certificate_count; [exact Hl|]. intros n Hn0. rewrite bool_decide_eq_false_2 by done. wp_go.
  eapply wp_certificate_file; [exact Hl|]. wp_go. eapply wp_certificate_key_file; [exact Hl|]. cbn [is_null orb]. rewrite Hcm. wp_go.
  eapply wp_own_group; [exact Hc|exact Hcg|]. wp_go. eapply wp_group_at; [exact Hg|]. wp_go.
  eapply wp_quic_socket_new; [exact Hl|exact Hwf|exact Ho|exact Hu|exact Hm|]. fold s x t. intros h1 ticket Ho1 Hticket Hl1. wp_go.
  unfold open_on_socket. wp_go. eapply wp_manager_of; [exact Hc|exact Hcm|]. wp_go. eapply wp_socket_state_at; [apply lookup_insert_eq|].
  cbn [qk_picoquic_ctx quic_socket_state]. wp_go. apply wp_context_at; [apply elem_of_union_l, elem_of_singleton; done|]. wp_go.
  unfold active_local_endpoint, ct_connection_get_active_local_endpoint, local_endpoint_at. wp_go. eapply wp_connection_at; [exact Hc|]. wp_go.
  cbn [fst snd]. eapply wp_connection_at; [exact Hc|]. unfold local_list. rewrite Hlocals. cbn [default from_option snd]. wp_go.
  apply wp_create_poll; [exact Ho1|exact Hu|]. intros h2 Ho2 Hl2. world_simpl. fold p. wp_go.
  eapply wp_update_handle; [apply lookup_insert_eq|]. wp_go. eapply wp_update_socket_state; [apply lookup_insert_eq|]. wp_go.
  world_simpl. unfold with_quic_socket. quic_simpl. rewrite !insert_insert_eq.
  eapply wp_own_group; [exact Hc|exact Hcg|]. wp_go. unfold ct_create_quic_group_state. wp_go.
  eapply wp_heap_allocs; [exact Ho2|apply allocs_malloc|]. intros ? h3 <- Ho3 Hl3. cbn [negb]. unfold fresh_id, put_group_state, modify_quic. wp_go.
  world_simpl. quic_simpl. fold gs. eapply wp_update_group; [exact Hg|]. wp_go. unfold ct_quic_stream_state_new. wp_go.
  eapply wp_heap_allocs; [exact Ho3|apply allocs_malloc|]. intros ? h4 <- Ho4 Hl4. cbn [negb]. unfold fresh_id, put_stream_state, modify_quic. wp_go.
  world_simpl. quic_simpl. fold ss. cbn [is_Some_b negb]. wp_go. eapply wp_update_connection; [exact Hc|]. wp_go. world_simpl.
  eapply (wp_resolve_poll p _ c _ locals e); [exact Hu|exact Hn|apply lookup_insert_eq|apply lookup_insert_eq|exact Hlocals|exact He|].
  intros names locals' Hb Hi. change (0 <? 0) with false. cbn iota. world_simpl. rewrite !insert_insert_eq. wp_go.
  eapply wp_connection_at; [apply lookup_insert_eq|]. unfold with_locals at 1.
  cbn [cn_security_parameters set_cn_active_local_endpoint set_cn_all_local_endpoints set_cn_internal_connection_state]. rewrite Hsec. wp_go.
  eapply wp_alpns; [exact Hl|]. intros rest n1 Hn1. cbn [default from_option]. rewrite bool_decide_eq_false_2 by done. wp_go.
  eapply (wp_connect_group c g s gs x _ l _ alpn rest r);
    [exact Hu|exact Hk|exact Hwf|apply lookup_insert_eq|exact Hsec|exact Hcg|exact Hr|apply lookup_insert_eq|done
    |apply elem_of_union_l, elem_of_singleton; done|apply lookup_insert_eq|]. world_simpl. quic_simpl. rewrite !insert_insert_eq. fold cnx.
  cbn zeta. unfold start_client. wp_go. unfold picoquic_connection_of. wp_go. eapply wp_group_state_at; [apply lookup_insert_eq|]. wp_go.
  unfold picoquic_start_client_cnx. wp_go. apply wp_cnx_at; [apply Hk|]. wp_go. apply wp_log_picoquic. wp_go.
  apply wp_uv_succeeds; [exact Hu|]. change (negb (0 =? 0)) with false. cbn iota. wp_go. unfold told. world_simpl. quic_simpl.
  eapply wp_reset_quic_timer; [apply lookup_insert_eq|done|apply elem_of_union_l, elem_of_singleton; done|done|world_simpl; rewrite lookup_insert_ne by lia; apply lookup_insert_eq|].
  assert (p <> t) as Hpt by lia. unfold armed. world_simpl. rewrite (lookup_insert_ne _ p t) by done. rewrite lookup_insert_eq.
  change (is_open (quic_timer s None)) with true. cbn iota. wp_go.
  rewrite (insert_insert_ne _ p t) by done. rewrite insert_insert_eq, <- (insert_insert_ne _ p t) by done. rewrite (insert_insert_ne _ p t) by done.
  rewrite <- app_assoc. apply (HQ h4 ticket names locals'); [exact Ho4|exact Hticket| |exact Hb].
  cbn [w_heap set_w_heap set_w_quic set_w_next set_w_managers set_w_handles set_w_groups] in *. lia.
Qed.

(** ** The handshake is complete *)

Definition ready_event (cnx g : id) : callback_args := CallbackArgs cnx 0 [] picoquic_callback_ready (Some (GroupCtx g)) None.

Lemma wp_client_ready c m g s gs cnx conn sm gr st u (Q : Z -> world -> Prop) w :
  (forall w x, picoquic_has_cnx w x = true) ->
  w_connections w !! c = Some conn -> cn_socket_manager conn = Some m -> cn_connection_group conn = Some g -> cn_role conn = CT_CONNECTION_ROLE_CLIENT ->
  w_managers w !! m = Some sm -> sm_internal_socket_manager_state sm = Some (QuicSocketState s) ->
  w_groups w !! g = Some gr -> gr_connections gr = Some [(u, c)] -> gr_connection_group_state gr = Some gs ->
  q_groups (w_quic w) !! gs = Some (QuicGroup (Some cnx) false) ->
  q_sockets (w_quic w) !! s = Some st -> qk_initial_message st = None -> qk_initial_message_context st = None ->
  Q 0 (set_w_calls (w_calls w ++ called (cb_ready (cn_callbacks conn)) Ready c)
         (set_w_connections (<[c := established conn]> (w_connections w)) w)) ->
  wp (picoquic_callback (ready_event cnx g)) Q w.
Proof.
  intros Hk Hc Hcm Hcg Hrole Hm Hsm Hg Ht Hgs Hq Hs Him Hic HQ. unfold picoquic_callback. wp_go. cbn [ca_event ca_cnx ready_event the_group].
  wp_go. unfold picoquic_ready, ct_connection_group_get_first. wp_go. eapply wp_group_at; [exact Hg|]. rewrite Ht, hash_order_one. wp_go.
  cbn [fmap list_fmap head snd]. wp_go. eapply wp_manager_of; [exact Hc|exact Hcm|]. wp_go. eapply wp_quic_state_of; [exact Hm|exact Hsm|]. wp_go.
  unfold free_initial_message. wp_go. eapply wp_socket_state_at; [exact Hs|]. rewrite Him, Hic. wp_go.
  unfold ct_connection_is_server, with_connection. wp_go. eapply wp_connection_at; [exact Hc|]. rewrite Hrole. rewrite bool_decide_eq_false_2 by done. wp_go.
  apply wp_cnx_at; [apply Hk|]. wp_go.
  assert (Hready : wp (ct_socket_manager_connection_ready_cb c) (fun _ w' => wp (mret 0) Q w') w) by (by eapply wp_connection_ready).
  destruct (picoquic_tls_is_psk_handshake w cnx); cbn [when]; [|wp_go; exact Hready]. wp_go.
  cbn [ct_connection_get_quic_group_state]. wp_go. eapply wp_connection_at; [exact Hc|]. rewrite Hcg. wp_go. eapply wp_group_at; [exact Hg|].
  rewrite Hgs. wp_go. eapply wp_group_state_at; [exact Hq|]. cbn [qg_attempted_early_data when]. wp_go. exact Hready.
Qed.

(** ** A message on a new stream *)

(** The world after the message: the connection's stream has the number
    [nid], and the timer is set. *)
Definition after_message (c ss t cnx : id) (nid : Z) (data : list Z) (conn : ct_connection) (h : heap) (w : world) : world :=
  World h (w_next w) (w_connections w) (w_groups w) (w_managers w) (w_listeners w) (armed t w) (w_requests w) (w_uv w) (w_names w)
    (w_entropy w) (w_uuid_counter w) (w_time w) (w_calls w ++ called (cb_sent (cn_callbacks conn)) Sent c)
    (set_q_streams (<[ss := QuicStream nid true]> (q_streams (w_quic w)))
      (set_q_log (q_log (w_quic w) ++ [PqSetAppStreamCtx cnx nid c; PqAddToStream cnx nid data false c]) (w_quic w))).

Lemma wp_quic_message c m g gs ss s x t cnx conn msg data ctx (Q : Z -> world -> Prop) w :
  picoquic_keeps cnx -> (forall w, (picoquic_get_cnx_state w cnx <? picoquic_state_ready) = false) ->
  oracle_ok (w_heap w) -> uv_succeeds w -> w_connections w !! c = Some conn -> quic_pointers m g ss conn -> quic_refs m g gs s x t cnx w ->
  q_streams (w_quic w) !! ss = Some (QuicStream 0 false) -> cn_can_send conn = true -> cn_framer_impl conn = None ->
  content_bytes msg = Some data -> is_final ctx = false ->
  (forall h nid, next_stream cnx w nid -> oracle_ok h -> h_live h = h_live (w_heap w) -> Q 0 (after_message c ss t cnx nid data conn h w)) ->
  wp (ct_send_message_full c (Some msg) ctx) Q w.
Proof.
  intros Hk Hready Ho Hu Hc Hp Hr Hs Hcan Hfr Hdata Hfin HQ.
  eapply wp_send_message; [exact Ho|exact Hc|exact Hcan|exact Hfr|exact Hdata|]. intros copy ctx' h Hcopy Hblocks Hfin' Ho' Hl.
  unfold sending. rewrite Hfin in Hfin' |- *. rewrite insert_id by exact Hc.
  set (w1 := set_w_heap h _). assert (quic_refs m g gs s x t cnx w1) as Hr' by refs.
  unfold ct_connection_send_to_protocol. wp_go. destruct (qr_manager _ _ _ _ _ _ _ _ Hr') as (sm & Hsm & _ & Hq).
  eapply wp_protocol_of; [exact Hc|apply Hp|exact Hsm|]. rewrite Hq. cbn [impl_send ctaps_protocols].
  eapply (wp_quic_send _ m g gs ss s x t cnx _ (QuicStream 0 false) copy data (Some ctx') true); [by split|exact Hc|exact Hp|exact Hr'|exact Hs|exact Hcopy|done|..].
  - intros _ nid _ Hrc. exfalso. apply Hrc. unfold send_rc. cbn. unfold uv_succeeds in Hu. by rewrite Hu.
  - intros _ nid Hnid _ w2. subst w2. rewrite Hfin', Hblocks. change (0 <? 0) with false. cbn iota.
    specialize (HQ (Heap (h_oracle h) (h_live h - 2 - 1)) nid). cbn [h_live is_Some_b] in HQ |- *. 
    assert (Hw : forall h', after_message c ss t cnx nid data conn h' w =
      set_w_heap h' (set_w_calls (w_calls w ++ called (cb_sent (cn_callbacks conn)) Sent c) (set_w_handles (armed t w)
        (QuicFacts.handed_over c ss cnx (QuicStream 0 false) nid data false w)))).
    { intros h'. unfold after_message, QuicFacts.handed_over, stream_assigned, told, assigned, with_stream, assign_rcs. cbn [qs_stream_initialized].
      unfold uv_succeeds in Hu. world_simpl. quic_simpl. rewrite Hu, <- app_assoc. by destruct w as [? ? ? ? ? ? ? ? ? ? ? ? ? ? []]. }
    rewrite Hw in HQ. apply HQ; [exact Hnid|exact Ho'|cbn [h_live]; lia].
Qed.

(** ** From creation to release *)

(** The group, the timer, the poll handle and the picoquic connection of a
    connection. *)
Definition quic_objects_of (c : id) : M world (id * id * id * id) :=
  g ← group_of c;
  m ← manager_of c;
  s ← quic_state_of m;
  s ← deref s "no socket state";
  st ← socket_state_at s;
  t ← deref (qk_timer_handle st) "no timer";
  p ← deref (qk_poll_handle st) "no poll handle";
  gs ← ct_connection_get_quic_group_state (Some c);
  cnx ← picoquic_connection_of gs;
  cnx ← deref cnx "no picoquic connection";
  mret (g, t, p, cnx).

(** picoquic reports that an opened connection is ready, the client sends a
    message, and the connection ends in one of the two orders. *)
Definition quic_use (c : id) (msg : ct_message) (ctx : option ct_message_context) (o : closing_order) : M world (option id) :=
  '(g, t, p, cnx) ← quic_objects_of c;
  picoquic_callback (ready_event cnx g) ;;
  rc ← ct_send_message_full c (Some msg) ctx;
  if negb (rc =? 0) then mret None else
  sid ← ct_connection_get_stream_id (Some c);
  quic_shutdown c g t p cnx sid o ;;
  mret (Some c).

Definition quic_life impl locals i remotes j props sec cbs msg ctx (o : closing_order) : M world (option id) :=
  c ← ct_connection_create_client impl (Some locals) i (Some remotes) j (Some props) sec (Some cbs) None;
  match c with
  | None => mret None
  | Some c =>
      rc ← quic_init c;
      if negb (rc =? 0) then mret None else quic_use c msg ctx o
  end.

(** What picoquic hears: the opening, the message, the end. *)
Definition quic_life_calls (c g x cnx : id) (nid : Z) (remote : sockaddr) (alpn : string) (data : list Z) (packets : list packet)
    (o : closing_order) : list picoquic_call :=
  [PqCreateCnx x cnx remote (Ptr alpn); PqSetCallback cnx g; PqStartClient cnx]
  ++ [PqSetAppStreamCtx cnx nid c; PqAddToStream cnx nid data false c]
  ++ match o with
     | WeCloseFirst => PqAddToStream cnx nid [] true c :: transmit x packets []
     | PeerClosesFirst => []
     end ++ [PqClose cnx; PqFree x].

Definition fresh_quic (w : world) : Prop :=
  forall k, (w_next w <= k)%positive ->
    q_sockets (w_quic w) !! k = None /\ q_streams (w_quic w) !! k = None /\ q_groups (w_quic w) !! k = None /\ k ∉ q_contexts (w_quic w).
Definition same_quic (w w' : world) : Prop :=
  q_sockets (w_quic w') = q_sockets (w_quic w) /\ q_streams (w_quic w') = q_streams (w_quic w)
  /\ q_groups (w_quic w') = q_groups (w_quic w) /\ q_contexts (w_quic w') = q_contexts (w_quic w).

(** picoquic keeps the connections it creates, lets them send, and no peer
    reports an error. *)
Record well_behaved : Prop := {
  wb_keeps w x : picoquic_has_cnx w x = true;
  wb_ready w x : (picoquic_get_cnx_state w x <? picoquic_state_ready) = false;
  wb_error w x : picoquic_get_remote_error w x = 0 }.

Lemma wp_quic_objects c m g gs ss s x t p cnx conn st (Q : id * id * id * id -> world -> Prop) w :
  w_connections w !! c = Some conn -> quic_pointers m g ss conn -> quic_refs m g gs s x t cnx w ->
  q_sockets (w_quic w) !! s = Some st -> qk_timer_handle st = Some t -> qk_poll_handle st = Some p ->
  Q (g, t, p, cnx) w -> wp (quic_objects_of c) Q w.
Proof.
  intros Hc Hp Hr Hs Ht Hpoll HQ. unfold quic_objects_of. wp_go. eapply wp_group_of; [exact Hc|exact Hp|]. wp_go.
  eapply wp_manager_of; [exact Hc|apply Hp|]. wp_go. destruct (qr_manager _ _ _ _ _ _ _ _ Hr) as (sm & Hsm & Hst & _).
  eapply wp_quic_state_of; [exact Hsm|exact Hst|]. wp_go. eapply wp_socket_state_at; [exact Hs|]. rewrite Ht, Hpoll. wp_go.
  eapply wp_group_state; [exact Hc|exact Hp|exact Hr|]. wp_go. eapply wp_picoquic_connection_of; [exact Hr|]. by wp_go.
Qed.

(** An opened client connection, before picoquic has reported anything. *)
Record opened (c m g gs ss s x t p cnx : id) (conn : ct_connection) (sm : ct_socket_manager) (st : ct_quic_socket_state)
    (u gu : list Ascii.ascii) (tp : ct_transport_properties) (bound : sockaddr) (w : world) : Prop := {
  op_memory : oracle_ok (w_heap w);
  op_uv : uv_succeeds w;
  op_quiet : q_callbacks (w_quic w) = [];
  op_packets : Forall sendable (next_packets w);
  op_connection : w_connections w !! c = Some conn;
  op_pointers : quic_pointers m g ss conn;
  op_client : cn_role conn = CT_CONNECTION_ROLE_CLIENT /\ cn_framer_impl conn = None;
  op_security : sec_ok (cn_security_parameters conn);
  op_group : w_groups w !! g = Some (ConnectionGroup gu (Some [(u, c)]) 1 (Some tp) (Some gs));
  op_properties : wf_selection (selection_properties tp);
  op_manager : w_managers w !! m = Some sm;
  op_manager_state : sm_internal_socket_manager_state sm = Some (QuicSocketState s) /\ sm_protocol sm = CT_PROTOCOL_QUIC;
  op_refs : sm_ref_count sm = 1 /\ sm_all_connections sm = [c] /\ sm_listener sm = None;
  op_group_state : q_groups (w_quic w) !! gs = Some (QuicGroup (Some cnx) false);
  op_stream : q_streams (w_quic w) !! ss = Some (QuicStream 0 false);
  op_socket : q_sockets (w_quic w) !! s = Some st;
  op_socket_state : qk_picoquic_ctx st = Some x /\ qk_timer_handle st = Some t /\ qk_poll_handle st = Some p;
  op_no_message : qk_initial_message st = None /\ qk_initial_message_context st = None;
  op_strings : is_ptr (qk_cert_file_name st) /\ is_ptr (qk_key_file_name st) /\ qk_ticket_store_path st <> Bad;
  op_context : x ∈ q_contexts (w_quic w);
  op_timer : w_handles w !! t = Some (quic_timer s (Some on_socket_timer_ptr));
  op_poll : w_handles w !! p = Some (poll_of m bound);
  op_handles : t <> p }.

(** The world when it is ready. *)
Definition made_ready (c : id) (conn : ct_connection) (w : world) : world :=
  set_w_calls (w_calls w ++ called (cb_ready (cn_callbacks conn)) Ready c)
    (set_w_connections (<[c := established conn]> (w_connections w)) w).

Section use.
Context (c m g gs ss s x t p cnx : id) (conn : ct_connection) (sm : ct_socket_manager) (st : ct_quic_socket_state).
Context (u gu : list Ascii.ascii) (tp : ct_transport_properties) (bound : sockaddr) (w : world).
Context (Hop : opened c m g gs ss s x t p cnx conn sm st u gu tp bound w).

Lemma opened_refs w' :
  w_managers w' = w_managers w -> w_groups w' = w_groups w -> w_handles w' = w_handles w -> w_quic w' = w_quic w ->
  quic_refs m g gs s x t cnx w'.
Proof.
  intros E1 E2 E3 E4. destruct Hop. destruct op_manager_state0, op_socket_state0 as (? & ? & _).
  split; rewrite ?E1, ?E2, ?E3, ?E4; [by eexists| |by eexists|by eexists|done|].
  - eexists. by split.
  - eexists. by split.
Qed.

(** A set timer stays as it is. *)
Lemma opened_armed w' : w_handles w' = w_handles w -> armed t w' = w_handles w.
Proof.
  intros E. unfold armed. rewrite E, (op_timer _ _ _ _ _ _ _ _ _ _ _ _ _ _ _ _ _ _ Hop). cbn [is_open]. 
  apply insert_id, Hop.
Qed.

Lemma after_message_sole h nid data :
  oracle_ok h ->
  sole c m g gs ss s x t p cnx (established conn) sm st (quic_timer s (Some on_socket_timer_ptr)) (poll_of m bound) u gu tp nid false
    (after_message c ss t cnx nid data (established conn) h (made_ready c conn w)).
Proof.
  intros Hh. destruct Hop. destruct op_manager_state0. split; try done; first [apply lookup_insert_eq|by destruct op_pointers0|idtac].
  - assert (w_handles (after_message c ss t cnx nid data (established conn) h (made_ready c conn w)) = w_handles w) as -> by by apply opened_armed.
    by split_and!.
  - assert (w_handles (after_message c ss t cnx nid data (established conn) h (made_ready c conn w)) = w_handles w) as -> by by apply opened_armed.
    by split_and!.
Qed.

Lemma wp_quic_use msg data ctx o (Q : option id -> world -> Prop) :
  well_behaved -> content_bytes msg = Some data -> is_final ctx = false ->
  (forall h nid w', next_stream cnx (made_ready c conn w) nid -> h_live h = h_live (w_heap w) ->
     let w4 := after_message c ss t cnx nid data (established conn) h (made_ready c conn w) in
     gone c m g gs ss s x t p (established conn) st tp w4 (shutdown_calls c x cnx nid w4 o) (called (cb_closed (cn_callbacks conn)) Closed c) w' ->
     Q (Some c) w') ->
  wp (quic_use c msg ctx o) Q w.
Proof.
  intros [Hk Hready Herr] Hdata Hfin HQ. pose proof Hop as [].
  destruct op_manager_state0 as [Hms Hmp], op_socket_state0 as (Hx & Ht & Hp), op_client0, op_no_message0.
  assert (quic_refs m g gs s x t cnx w) as Hr by by apply opened_refs.
  unfold quic_use. wp_go. eapply (wp_quic_objects c m g gs ss s x t p cnx conn st); [done..|]. wp_go.
  eapply (wp_client_ready c m g s gs cnx conn sm _ st u); [exact Hk|done|by destruct op_pointers0..|done|done|done|exact op_group0|done|done|done|done|done|done|]. wp_go.
  fold (made_ready c conn w). assert (quic_pointers m g ss (established conn)) as Hptr by by destruct op_pointers0.
  eapply (wp_quic_message c m g gs ss s x t cnx (established conn) msg data ctx);
    [by intros ?; apply Hk|by intros ?; apply Hready|done|done|apply lookup_insert_eq|done|by apply opened_refs|done|done|done|exact Hdata|exact Hfin|].
  intros h nid Hnid Ho Hlive. change (negb (0 =? 0)) with false. cbn iota. wp_go.
  eapply (wp_stream_id c m g ss (established conn)); [apply lookup_insert_eq|done|apply lookup_insert_eq|]. cbn [qs_stream_id]. wp_go.
  pose proof (after_message_sole h nid data Ho) as Hsole. unfold quic_shutdown. wp_go.
  eapply wp_mono; [apply (wp_end_stream _ _ _ _ _ _ _ _ _ _ _ _ _ _ _ _ _ _ _ _ _ Hsole (fun _ => Hk _ _))|]. intros ? w1 Hw1. wp_go.
  eapply wp_mono; [apply (wp_quic_release _ _ _ _ _ _ _ _ _ _ _ _ _ _ _ _ _ _ _ _ _ Hsole (fun _ => Hk _ _) _ _ (fun _ => Herr _ _) Hw1)|].
  intros [] w' Hw'. wp_go. exact (HQ h nid w' Hnid Hlive Hw').
Qed.
End use.

(** C15: a client connection over QUIC, from its creation to its release, leaves
    nothing behind. With credentials and no framer, when allocations and the
    system's calls succeed and picoquic keeps the connection, lets it send and
    reports no error of the peer, [ct_connection_create_client] and [quic_init]
    start a picoquic connection to the active remote endpoint with the first
    ALPN. When picoquic reports it ready, a message that is not marked [FINAL]
    is sent, and both directions have ended, in either order, the application
    has heard exactly [Ready], [Sent] and [Closed], and picoquic, in this order
    and nothing else, of the connection and its callback context, the start, the
    stream (picoquic's next bidirectional one) and the message's bytes on it,
    our FIN if we close first, one close, and the release of the context. Every
    table of the library and of quic.c is restored, and the endpoints that the
    connection took over are freed, and every block it allocated. *)
Theorem quic_connection_lifecycle impl locals i e remotes j r props alpn cert key l cbs msg data ctx o w :
  well_behaved -> client_credentials alpn cert key l -> wf_sec l ->
  oracle_ok (w_heap w) -> uv_succeeds w -> names_ok w -> fresh_world w -> fresh_quic w ->
  q_callbacks (w_quic w) = [] -> Forall sendable (next_packets w) ->
  pi_enum impl = CT_PROTOCOL_QUIC -> locals !! i = Some e ->
  remotes !! j = Some r -> is_inet (re_resolved_address r) = true -> props_ok props ->
  content_bytes msg = Some data -> is_final ctx = false ->
  let c := w_next w in
  wp (quic_life impl locals i remotes j props (Some l) cbs msg ctx o) (fun a w' =>
    a = Some c /\ same_tables w w' /\ same_quic w w'
    /\ w_calls w' = w_calls w ++ called (cb_ready cbs) Ready c ++ called (cb_sent cbs) Sent c ++ called (cb_closed cbs) Closed c
    /\ (exists g x cnx nid, (exists w1, nid = picoquic_get_next_local_stream_id w1 cnx false)
         /\ q_log (w_quic w') = q_log (w_quic w) ++ quic_life_calls c g x cnx nid (re_resolved_address r) alpn data (next_packets w) o)
    /\ h_live (w_heap w') = h_live (w_heap w) - endpoint_blocks locals remotes) w.
Proof.
  intros [Hk Hready Herr] Hl Hwf Ho Hu Hn Hfresh Hfq Hq Hpk Hp He Hr Hri Hprops Hdata Hfin c. unfold quic_life. wp_go.
  eapply wp_create_client; [done..|]. intros h1 u gu tp sec en k Ho1 Htp Hsec Hl1. wp_go. fold c in Hl1 |- *.
  destruct sec as [l'|]; [|done]. destruct Hsec as [Hwf' Hsame]. pose proof (credentials_copied _ _ _ _ _ _ Hsame Hl) as Hl'.
  set (m := Pos.succ c) in *. set (g := Pos.succ m) in *.
  eapply (wp_quic_init alpn cert key l' c m g); [exact Hl'|exact Hwf'|exact Hk|exact Ho1|exact Hu|exact Hn|apply lookup_insert_eq|done|
    apply lookup_insert_eq|done|apply lookup_insert_eq|done|done|exact He|exact Hr|].
  world_simpl. intros h2 ticket names locals' Ho2 Hticket Hl2 Hb. rewrite !insert_insert_eq. change (negb (0 =? 0)) with false. cbn iota. wp_go.
  set (s := Pos.succ g) in *. set (x := Pos.succ s) in *. set (t := Pos.succ x) in *. set (p := Pos.succ t) in *.
  set (gs := Pos.succ p) in *. set (ss := Pos.succ gs) in *. set (cnx := Pos.succ ss) in *.
  set (conn := with_locals _ _ _). set (st := set_qk_poll_handle _ _). set (gr := set_gr_connection_group_state _ _). set (sm := set_sm_internal_socket_manager_state _ _).
  set (w2 := World _ _ _ _ _ _ _ _ _ _ _ _ _ _ _).
  assert (opened c m g gs ss s x t p cnx conn sm st u gu tp (poll_bind_address e) w2) as Hop.
  { split; try done; first [apply lookup_insert_eq|by apply elem_of_union_l, elem_of_singleton|idtac].
    - subst w2. world_simpl. rewrite lookup_insert_ne by lia. apply lookup_insert_eq.
    - lia. }
  eapply (wp_quic_use c m g gs ss s x t p cnx conn sm st u gu tp _ w2 Hop); [by split|exact Hdata|exact Hfin|].
  intros h4 nid w5 Hnid Hl4 w4 [].
  assert (w_handles w4 = w_handles w2) as Hh4 by by apply (opened_armed _ _ _ _ _ _ _ _ _ _ _ _ _ _ _ _ _ _ Hop).
  assert (Hfr : forall k, (c <= k)%positive -> w_connections w !! k = None /\ w_groups w !! k = None /\
    w_managers w !! k = None /\ w_handles w !! k = None /\ w_requests w !! k = None) by apply Hfresh.
  assert (Hfr' : forall k, (c <= k)%positive -> q_sockets (w_quic w) !! k = None /\ q_streams (w_quic w) !! k = None /\
    q_groups (w_quic w) !! k = None /\ k ∉ q_contexts (w_quic w)) by apply Hfq.
  split; [done|]. split_and!.
  - unfold same_tables. rewrite go_connections, go_groups, go_managers, go_listeners, go_handles, go_requests. 
    rewrite Hh4. change (w_connections w4) with (<[c:=established conn]> (w_connections w2)). change (w_groups w4) with (w_groups w2).
    change (w_managers w4) with (w_managers w2). change (w_listeners w4) with (w_listeners w). change (w_requests w4) with (w_requests w).
    subst w2. world_simpl.
    rewrite !delete_insert_eq. rewrite (delete_insert_ne _ p t) by lia. rewrite !delete_insert_eq. 
    rewrite (delete_id (w_handles w) p) by (apply Hfr; lia). rewrite !delete_id by (apply Hfr; lia). by split_and!.
  - unfold same_quic. rewrite go_sockets, go_streams, go_group_states, go_contexts. cbn -[m g s x t p gs ss cnx].
    rewrite !delete_insert_eq. rewrite !delete_id by (apply Hfr'; lia). split_and!; try done.
    assert (x ∉ q_contexts (w_quic w)) by (apply Hfr'; lia). set_solver.
  - rewrite go_calls. cbn. by rewrite <- !app_assoc.
  - exists g, x, cnx, nid. split; [destruct Hnid as (w1 & _ & Hnid); by exists w1|]. rewrite go_log. cbn. rewrite <- !app_assoc. unfold quic_life_calls, shutdown_calls, fin_calls. 
    destruct o; cbn; rewrite ?Hu; by rewrite <- ?app_assoc.
  - rewrite go_live. change (h_live (w_heap w4)) with (h_live h4). change (w_heap w2) with h2 in Hl4.
    unfold string_blocks, content_blocks, endpoint_blocks, locals_blocks in *. cbn in *. lia.
Qed.
End opening.

(** ** A concrete connection *)

Module QuicLife.
Import Lifecycle.Idle QuicFacts.Stream.

(** An HTTP/3 client with a certificate. *)
Definition client_parameters : ct_security_parameters :=
  sec_upd (sec_upd DEFAULT_SECURITY_PARAMETERS ALPN true (array_of_strings (StringArray (Ptr [Ptr "h3"; Ptr "hq"]) 2)))
    CLIENT_CERTIFICATE true (certificate_bundles (Bundles (Ptr [Bundle (Ptr "cert.pem") (Ptr "key.pem")]) 1)).

Lemma client_parameters_wf : wf_sec client_parameters.
Proof. intros []; cbn; split_and!; try done; repeat constructor. Qed.
Lemma client_parameters_credentials : client_credentials "h3" "cert.pem" "key.pem" client_parameters.
Proof. split; cbn; [by eexists _, _..|done]. Qed.

(** After a message marked [FINAL] the stream is ended twice when we close
    first, and the connection is closed twice when the peer does:
    [quic_close_connection] does not ask whether it has done so before. *)
Definition final_context : option ct_message_context :=
  match (ctx ← ct_message_context_new; mret (ct_message_context_set FINAL ctx 1)) (Heap [] 0) with Ok (ctx, _) => ctx | UB _ => None end.
Definition told_after_start (o : closing_order) : option (list picoquic_call) :=
  match quic_life quic_protocol_interface [some_local] 0 [some_remote 443] 0 some_properties (Some client_parameters) some_callbacks
          (Message (Some [1; 2; 3]) 2) final_context o empty_world with
  | Ok (_, w) => Some (drop 4 (q_log (w_quic w)))
  | UB _ => None
  end.
Example final_message_ends_twice :
  told_after_start WeCloseFirst = Some [PqAddToStream 10%positive 0 [1; 2] true 1%positive; PqAddToStream 10%positive 0 [] true 1%positive;
    PqPrepare 5%positive; PqClose 10%positive; PqFree 5%positive] /\
  told_after_start PeerClosesFirst = Some [PqAddToStream 10%positive 0 [1; 2] true 1%positive; PqClose 10%positive; PqClose 10%positive;
    PqFree 5%positive].
Proof. by vm_compute. Qed.

Lemma plain_well_behaved : well_behaved.
Proof. by split. Qed.

Lemma quic_connection_lifecycle_witness :
  let locals := [some_local] in
  let remotes := [some_remote 80; some_remote 443] in
  let msg := Message (Some [1; 2; 3]) 2 in
  content_bytes msg = Some [1; 2] /\
  forall o, wp (quic_life quic_protocol_interface locals 0 remotes 1 some_properties (Some client_parameters) some_callbacks msg None o)
    (fun a w' =>
       a = Some 1%positive /\ same_tables empty_world w' /\ same_quic empty_world w'
       /\ w_calls w' = [CallConnection (user_fn 4) Ready (Some 1%positive)] ++ called (cb_sent some_callbacks) Sent 1%positive
            ++ [CallConnection (user_fn 5) Closed (Some 1%positive)]
       /\ (exists g x cnx nid, (exists w1, nid = picoquic_get_next_local_stream_id w1 cnx false) /\ q_log (w_quic w') =
            quic_life_calls 1%positive g x cnx nid (set_port 443 loopback_v4) "h3" [1; 2] [] o)
       /\ h_live (w_heap w') = - endpoint_blocks locals remotes) empty_world.
Proof.
  intros locals remotes msg. split; [done|]. intros o.
  apply (quic_connection_lifecycle quic_protocol_interface locals 0 some_local remotes 1 (some_remote 443) some_properties
    "h3" "cert.pem" "key.pem" client_parameters some_callbacks msg [1; 2] None o empty_world);
    try done; first [exact plain_well_behaved|exact client_parameters_credentials|exact client_parameters_wf|by constructor|idtac].
  - split; [apply wf_set_port, loopback_v4_wf|by vm_compute].
  - split; [apply wf_default_selection|apply sets_ok_default].
Defined.
End QuicLife.
