(* ===== verification/Dependents.v ===== *)
(** The dependents of a socket manager.

    A socket manager closes its socket when the last connection or listener
    that uses it closes.  The theorem is about UDP, whose connections to a
    listener share one socket. *)

From S2P Require Export Lifecycle.
Open Scope Z_scope.

Section dependents.
Context `{!Picoquic, !Framers, !HashOrder}.

(** ** Counting *)

Definition is_open_connection (w : world) (c : id) : bool :=
  match w_connections w !! c with Some conn => bool_decide (cn_state conn <> CT_CONN_STATE_CLOSED) | None => false end.
Definition is_open_listener (w : world) (l : option id) : bool :=
  match l with
  | Some l => match w_listeners w !! l with Some li => bool_decide (li_state li <> CT_LISTENER_STATE_CLOSED) | None => false end
  | None => false
  end.
Definition known_connections (w : world) (l : list id) : Prop := Forall (fun c => is_Some (w_connections w !! c)) l.
Definition known_listener (w : world) (l : option id) : Prop := match l with Some l => is_Some (w_listeners w !! l) | None => True end.

Lemma wp_count_open l (Q : Z -> world -> Prop) w :
  known_connections w l -> Q (Z.of_nat (length (filter (fun c => is_open_connection w c = true) l))) w -> wp (count_open l) Q w.
Proof.
  revert Q. induction l as [|c l IH]; intros Q Hk HQ; cbn [count_open]; wp_go; [exact HQ|].
  apply Forall_cons_1 in Hk as [[conn Hc] Hk]. eapply wp_is_closed; [exact Hc|]. wp_go. apply IH; [exact Hk|]. wp_go.
  assert (Ho : is_open_connection w c = negb (bool_decide (cn_state conn = CT_CONN_STATE_CLOSED))).
  { unfold is_open_connection. by rewrite Hc, bool_decide_not. }
  destruct (bool_decide (cn_state conn = CT_CONN_STATE_CLOSED)); cbn in Ho.
  - by rewrite filter_cons_False in HQ by congruence.
  - rewrite filter_cons_True in HQ by done. cbn [length] in HQ. by rewrite Nat2Z.inj_succ, <- Z.add_1_r in HQ.
Qed.

Lemma wp_num_open m sm (Q : Z -> world -> Prop) w :
  w_managers w !! m = Some sm -> known_connections w (sm_all_connections sm) -> known_listener w (sm_listener sm) ->
  Q ((if is_open_listener w (sm_listener sm) then 1 else 0)
     + Z.of_nat (length (filter (fun c => is_open_connection w c = true) (sm_all_connections sm)))) w ->
  wp (ct_socket_manager_get_num_open_dependents m) Q w.
Proof.
  intros Hm Hk Hl HQ. unfold ct_socket_manager_get_num_open_dependents. wp_go. eapply wp_manager_at; [exact Hm|].
  unfold is_open_listener in HQ. destruct (sm_listener sm) as [l|]; wp_go.
  - destruct Hl as [li Hli]. rewrite Hli in HQ. unfold listener_at. wp_go. apply wp_count_open; [exact Hk|]. wp_go.
    rewrite bool_decide_not in HQ. by destruct (bool_decide _).
  - by apply wp_count_open; [|wp_go].
Qed.

(** ** Closing *)

(** Another connection, or the listener, still uses the socket. *)
Definition others_open (w : world) (c : id) (sm : ct_socket_manager) : bool :=
  is_open_listener w (sm_listener sm) || existsb (fun c' => negb (bool_decide (c' = c)) && is_open_connection w c') (sm_all_connections sm).

Lemma open_dependents w c sm :
  NoDup (sm_all_connections sm) -> c ∈ sm_all_connections sm -> is_open_connection w c = true ->
  ((if is_open_listener w (sm_listener sm) then 1 else 0)
    + Z.of_nat (length (filter (fun c => is_open_connection w c = true) (sm_all_connections sm))) =? 1) = negb (others_open w c sm).
Proof.
  intros Hnd Hin Ho. unfold others_open. generalize (is_open_listener w (sm_listener sm)) as b. intros b.
  induction (sm_all_connections sm) as [|x l IH]; [by apply not_elem_of_nil in Hin|].
  apply list.NoDup_cons in Hnd as [Hx Hnd]. cbn [existsb]. destruct (decide (x = c)) as [->|Hxc].
  - rewrite filter_cons_True by done. rewrite bool_decide_true by done. cbn [negb andb orb length]. clear IH Hin.
    assert (Hf : filter (fun c => is_open_connection w c = true) l = [] <->
      existsb (fun c' => negb (bool_decide (c' = c)) && is_open_connection w c') l = false).
    { induction l as [|y l IH]; [done|]. apply list.NoDup_cons in Hnd as [Hy Hnd]. apply not_elem_of_cons in Hx as [Hyc Hx].
      cbn [existsb]. rewrite (bool_decide_false (y = c)) by done. cbn [negb andb].
      destruct (is_open_connection w y) eqn:Hwy.
      - rewrite filter_cons_True by done. by split.
      - rewrite filter_cons_False by congruence. by apply IH. }
    destruct (existsb _ l); cbn [negb orb].
    + rewrite orb_true_r. cbn. destruct (filter _ l) eqn:Hfl; [by pose proof (proj1 Hf eq_refl)|]. cbn [length]. apply Z.eqb_neq. destruct b; lia.
    + rewrite (proj2 Hf) by done. by destruct b.
  - apply elem_of_cons in Hin as [->|Hin]; [done|]. specialize (IH Hnd Hin).
    rewrite (bool_decide_false (x = c)) by done. cbn [negb andb]. destruct (is_open_connection w x) eqn:Hwx.
    + rewrite filter_cons_True by done. cbn [length orb]. rewrite orb_true_r. cbn [negb].
      assert (c ∈ filter (fun c => is_open_connection w c = true) l) as Hc by (by apply list_elem_of_filter).
      destruct (filter _ l); [by apply not_elem_of_nil in Hc|]. cbn [length]. apply Z.eqb_neq. destruct b; lia.
    + rewrite filter_cons_False by congruence. exact IH.
Qed.

Lemma others_open_update w c conn sm :
  others_open (set_w_connections (<[c := conn]> (w_connections w)) w) c sm = others_open w c sm.
Proof.
  unfold others_open. f_equal. induction (sm_all_connections sm) as [|x l IH]; [done|]. cbn [existsb]. rewrite IH. f_equal.
  destruct (decide (x = c)) as [->|Hx]; [by rewrite bool_decide_true|]. unfold is_open_connection. world_simpl.
  by rewrite lookup_insert_ne.
Qed.

(** The manager closes a UDP socket on behalf of the open connection [c]. *)
Definition after_close (c m h : id) (conn : ct_connection) (sm : ct_socket_manager) (x : uv_handle) (w : world) : world :=
  if others_open w c sm then
    set_w_calls (w_calls w ++ called (cb_closed (cn_callbacks conn)) Closed c)
      (set_w_connections (<[c := set_cn_state CT_CONN_STATE_CLOSED conn]> (w_connections w)) w)
  else
    set_w_handles (<[h := set_phase (HandleClosing (Some socket_closed_success_ptr)) (set_read None x)]> (w_handles w))
      (set_w_managers (<[m := set_sm_close_reason CT_CLOSE_TYPE_GRACEFUL sm]> (w_managers w))
        (set_w_connections (<[c := set_cn_state CT_CONN_STATE_CLOSING conn]> (w_connections w)) w)).

(** A socket manager that runs a UDP socket. *)
Record udp_socket (m h : id) (sm : ct_socket_manager) (x : uv_handle) (w : world) : Prop := {
  us_manager : w_managers w !! m = Some sm;
  us_protocol : sm_protocol sm = CT_PROTOCOL_UDP;
  us_state : sm_internal_socket_manager_state sm = udp_state h;
  us_handle : w_handles w !! h = Some x;
  us_open : uh_phase x = HandleOpen;
  us_data : uh_data x = Some m;
  us_nodup : NoDup (sm_all_connections sm);
  us_connections : Forall (fun c => exists conn, w_connections w !! c = Some conn /\ cn_socket_manager conn = Some m) (sm_all_connections sm);
  us_listener : known_listener w (sm_listener sm) }.

Lemma wp_close_dependent c m h conn sm x (Q : unit -> world -> Prop) w :
  udp_socket m h sm x w -> c ∈ sm_all_connections sm -> w_connections w !! c = Some conn ->
  cn_state conn <> CT_CONN_STATE_CLOSED -> cn_state conn <> CT_CONN_STATE_CLOSING ->
  Q tt (after_close c m h conn sm x w) -> wp (ct_connection_close c) Q w.
Proof.
  intros [Hm Hp Hs Hh Hph Hd Hnd Hall Hl] Hin Hc Hst1 Hst2 HQ. unfold ct_connection_close. wp_go.
  assert (cn_socket_manager conn = Some m) as Hcm.
  { rewrite list.Forall_forall in Hall. destruct (Hall c Hin) as (? & ? & ?). congruence. }
  eapply wp_is_closed_or_closing; [exact Hc|]. rewrite bool_decide_false by (by intros []). wp_go.
  eapply wp_update_connection; [exact Hc|]. unfold ct_socket_manager_close_connection. wp_go.
  eapply wp_protocol_of; [apply lookup_insert_eq|exact Hcm|exact Hm|]. rewrite Hp.
  cbn [impl_close_connection ctaps_close]. unfold udp_close. wp_go.
  eapply wp_manager_of; [apply lookup_insert_eq|exact Hcm|]. unfold ct_socket_manager_closed_connection_cb. wp_go.
  eapply wp_manager_of; [apply lookup_insert_eq|exact Hcm|]. wp_go.
  eapply wp_num_open; [exact Hm| |exact Hl|].
  { eapply list.Forall_impl; [exact Hall|]. intros c' (conn' & Hc' & _). world_simpl. destruct (decide (c' = c)) as [->|Hne].
    - by rewrite lookup_insert_eq.
    - rewrite lookup_insert_ne by done. by eexists. }
  rewrite (open_dependents _ c) by (first [done|unfold is_open_connection; world_simpl; by rewrite lookup_insert_eq]).
  rewrite others_open_update. unfold after_close in HQ. destruct (others_open w c sm); cbn [negb].
  - wp_go. eapply wp_update_connection; [apply lookup_insert_eq|]. wp_go. eapply wp_connection_at; [apply lookup_insert_eq|].
    apply wp_call_connection. wp_go. world_simpl. rewrite insert_insert_eq. exact HQ.
  - unfold set_close_reason. wp_go. eapply wp_update_manager; [exact Hm|]. unfold ct_socket_manager_close. wp_go.
    eapply wp_manager_at; [apply lookup_insert_eq|]. change (sm_protocol (set_sm_close_reason _ sm)) with (sm_protocol sm). rewrite Hp.
    cbn [impl_close_socket ctaps_sockets].
    eapply wp_udp_close_socket; [apply lookup_insert_eq|exact Hs|exact Hh|exact Hph|]. wp_go. exact HQ.
Qed.

(** C21: a UDP socket is closed with the last connection or listener that
    uses it.  [ct_connection_close] does nothing to a connection that is
    closing or closed.  On any other connection it closes the socket when no
    other connection of the socket manager and no listener is open: the
    connection is then closing and the application hears nothing yet.  When
    there is another user of the socket, the connection is closed at once,
    the application hears [Closed], and the socket stays open. *)
Theorem socket_closes_with_last_dependent c m h conn sm x w :
  udp_socket m h sm x w -> c ∈ sm_all_connections sm -> w_connections w !! c = Some conn ->
  wp (ct_connection_close c) (fun _ w' =>
    w' = if bool_decide (cn_state conn = CT_CONN_STATE_CLOSED \/ cn_state conn = CT_CONN_STATE_CLOSING) then w
         else after_close c m h conn sm x w) w.
Proof.
  intros Hsock Hin Hc. case_bool_decide as Hst.
  - unfold ct_connection_close. wp_go. eapply wp_is_closed_or_closing; [exact Hc|]. rewrite bool_decide_true by done. by wp_go.
  - by eapply wp_close_dependent; [..|by intros ?; apply Hst; left|by intros ?; apply Hst; right|].
Qed.

(** ** Closing every connection *)

Definition closed_call (w : world) (c : id) : list call :=
  match w_connections w !! c with Some conn => called (cb_closed (cn_callbacks conn)) Closed c | None => [] end.
Definition state_of (w : world) (c : id) : option ct_connection_state := cn_state <$> w_connections w !! c.

Lemma wp_first_open c l (Q : option id -> world -> Prop) w :
  known_connections w l -> c ∈ l -> (forall c', c' ∈ l -> is_open_connection w c' = bool_decide (c' = c)) -> Q (Some c) w ->
  wp (first_open l) Q w.
Proof.
  intros Hk Hin Hopen HQ. induction l as [|x l IH]; [by apply not_elem_of_nil in Hin|]. cbn [first_open]. wp_go.
  apply Forall_cons_1 in Hk as [[conn Hx] Hk]. eapply wp_is_closed; [exact Hx|]. wp_go.
  assert (is_open_connection w x = bool_decide (x = c)) as Ho by (apply Hopen; by constructor).
  unfold is_open_connection in Ho. rewrite Hx, bool_decide_not in Ho. destruct (decide (x = c)) as [->|Hxc].
  - rewrite (bool_decide_true (c = c)) in Ho by done. apply negb_true_iff in Ho. rewrite Ho. by wp_go.
  - rewrite (bool_decide_false (x = c)) in Ho by done. apply negb_false_iff in Ho. rewrite Ho.
    apply IH; [done| |]; [|intros c' Hc'; apply Hopen; by constructor].
    apply elem_of_cons in Hin as [->|Hin]; [done|exact Hin].
Qed.

(** The loop has closed the socket of a manager whose only open connection is [c]. *)
Lemma wp_last_closed c m h conn sm x (Q : unit -> world -> Prop) w :
  w_connections w !! c = Some conn -> cn_state conn <> CT_CONN_STATE_CLOSED -> known_connections w (sm_all_connections sm) ->
  c ∈ sm_all_connections sm ->
  (forall c', c' ∈ sm_all_connections sm -> is_open_connection w c' = bool_decide (c' = c)) ->
  w_managers w !! m = Some sm -> sm_close_reason sm = CT_CLOSE_TYPE_GRACEFUL ->
  w_handles w !! h = Some x -> uh_data x = Some m -> uh_phase x = HandleClosing (Some socket_closed_success_ptr) ->
  Q tt (set_w_calls (w_calls w ++ called (cb_closed (cn_callbacks conn)) Closed c)
         (set_w_connections (<[c := set_cn_state CT_CONN_STATE_CLOSED conn]> (w_connections w))
           (set_w_handles (<[h := set_phase HandleClosed x]> (w_handles w)) w))) ->
  wp (handle_closed h) Q w.
Proof.
  intros Hc Hst Hk Hin Hopen Hm Hr Hh Hd Hph HQ. unfold handle_closed. wp_go. eapply wp_handle_at; [exact Hh|]. rewrite Hph. wp_go.
  eapply wp_update_handle; [exact Hh|]. cbn [run_close_cb]. unfold socket_closed_success. wp_go.
  eapply wp_handle_at; [apply lookup_insert_eq|]. change (uh_data (set_phase HandleClosed x)) with (uh_data x). rewrite Hd. wp_go.
  unfold ct_socket_manager_closed_socket_cb, ct_socket_manager_get_last_open_connection. wp_go.
  eapply wp_manager_at; [exact Hm|]. eapply (wp_first_open c); [exact Hk|exact Hin|exact Hopen|]. wp_go.
  eapply wp_update_connection; [exact Hc|]. unfold ct_socket_manager_notify_of_connection_close. wp_go.
  eapply wp_manager_at; [exact Hm|]. wp_go. eapply wp_connection_at; [apply lookup_insert_eq|]. rewrite Hr.
  by apply wp_call_connection.
Qed.

(** What still has to be closed: exactly the connections of [l] are open, and none is closing. *)
Definition to_close (m h : id) (sm : ct_socket_manager) (x : uv_handle) (l : list id) (w : world) : Prop :=
  udp_socket m h sm x w /\ NoDup l /\ (forall c, c ∈ l -> c ∈ sm_all_connections sm) /\
  (forall c, c ∈ sm_all_connections sm -> is_open_connection w c = bool_decide (c ∈ l)) /\
  (forall c, c ∈ l -> state_of w c <> Some CT_CONN_STATE_CLOSING) /\ is_open_listener w (sm_listener sm) = false.

Lemma others_open_spec w c sm :
  others_open w c sm = true <->
  is_open_listener w (sm_listener sm) = true \/ exists c', c' ∈ sm_all_connections sm /\ c' <> c /\ is_open_connection w c' = true.
Proof.
  unfold others_open. rewrite orb_true_iff, existsb_exists. apply or_iff_compat_l. split.
  - intros (c' & Hin & [Hc Ho]%andb_true_iff). exists c'. rewrite list_elem_of_In. apply negb_true_iff, bool_decide_eq_false in Hc. done.
  - intros (c' & Hin & Hc & Ho). exists c'. rewrite <- list_elem_of_In. split; [done|]. by rewrite bool_decide_false.
Qed.

(** One step: a connection that is not the last is closed at once. *)
Lemma to_close_step m h sm x c l conn w :
  to_close m h sm x (c :: l) w -> l <> [] -> w_connections w !! c = Some conn ->
  let w' := after_close c m h conn sm x w in
  to_close m h sm x l w' /\ state_of w' c = Some CT_CONN_STATE_CLOSED /\ w_calls w' = w_calls w ++ closed_call w c /\
  w_heap w' = w_heap w /\ (forall c', c' <> c -> w_connections w' !! c' = w_connections w !! c').
Proof.
  intros (Hsock & Hnd & Hsub & Hopen & Hst & Hl) Hne Hc w'. apply list.NoDup_cons in Hnd as [Hcl Hnd].
  assert (Hothers : others_open w c sm = true).
  { apply others_open_spec. right. destruct l as [|c' l]; [done|]. exists c'. split_and!.
    - apply Hsub. right. by left.
    - intros ->. apply Hcl. by left.
    - rewrite Hopen by (apply Hsub; right; by left). apply bool_decide_true. right. by left. }
  unfold w', after_close. rewrite Hothers. unfold closed_call, state_of. world_simpl. rewrite Hc, lookup_insert_eq. split_and!; [|done..|].
  2: { intros c' Hc'. by rewrite lookup_insert_ne. }
  split_and!; [|exact Hnd|intros c' Hc'; apply Hsub; by right| | |exact Hl].
  - destruct Hsock as [Hm Hp Hs Hh Hph Hd Hndall Hall Hlis]. split; try done. eapply list.Forall_impl; [exact Hall|].
    intros c' (conn' & Hc' & Hcm'). world_simpl. destruct (decide (c' = c)) as [->|Hcc].
    + rewrite lookup_insert_eq. simplify_eq. by eexists.
    + rewrite lookup_insert_ne by done. by eexists.
  - intros c' Hc'. unfold is_open_connection. world_simpl. destruct (decide (c' = c)) as [->|Hcc].
    + rewrite lookup_insert_eq. cbn [cn_state set_cn_state]. rewrite bool_decide_false by (intros Hn; by apply Hn). by rewrite bool_decide_false.
    + rewrite lookup_insert_ne by done. fold (is_open_connection w c'). rewrite Hopen by done. apply bool_decide_ext.
      rewrite elem_of_cons. naive_solver.
  - intros c' Hc'. unfold state_of. world_simpl. rewrite lookup_insert_ne by (by intros ->). apply Hst. by right.
Qed.

Lemma open_connection_state w c :
  is_open_connection w c = true -> exists conn, w_connections w !! c = Some conn /\ cn_state conn <> CT_CONN_STATE_CLOSED.
Proof.
  unfold is_open_connection. destruct (w_connections w !! c) as [conn|]; [|done]. intros Ho%bool_decide_eq_true. by exists conn.
Qed.

(** The last one: the socket is closed, and the loop's callback closes the connection. *)
Lemma to_close_last m h sm x c conn (Q : unit -> world -> Prop) w :
  to_close m h sm x [c] w -> w_connections w !! c = Some conn -> cn_state conn <> CT_CONN_STATE_CLOSED ->
  (forall w', w_calls w' = w_calls w ++ closed_call w c -> state_of w' c = Some CT_CONN_STATE_CLOSED ->
     phase_of h w' = Some HandleClosed -> w_heap w' = w_heap w ->
     (forall c', c' <> c -> w_connections w' !! c' = w_connections w !! c') -> Q tt w') ->
  wp (handle_closed h) Q (after_close c m h conn sm x w).
Proof.
  intros (Hsock & _ & Hsub & Hopen & _ & Hl) Hc Hst HQ. assert (Hin : c ∈ sm_all_connections sm) by (apply Hsub; by left).
  assert (Hothers : others_open w c sm = false).
  { apply not_true_iff_false. rewrite others_open_spec, Hl. intros [?|(c' & Hc' & Hne & Ho)]; [done|].
    rewrite Hopen in Ho by done. apply bool_decide_eq_true in Ho. by apply list_elem_of_singleton in Ho. }
  unfold after_close. rewrite Hothers. destruct Hsock as [Hm Hp Hs Hh Hph Hd Hndall Hall Hlis].
  eapply (wp_last_closed c m h _ (set_sm_close_reason CT_CLOSE_TYPE_GRACEFUL sm));
    [apply lookup_insert_eq|done| |exact Hin| |apply lookup_insert_eq|done|apply lookup_insert_eq|exact Hd|done|].
  - eapply list.Forall_impl; [exact Hall|]. intros c' (conn' & Hc' & _). world_simpl. destruct (decide (c' = c)) as [->|Hne].
    + by rewrite lookup_insert_eq.
    + rewrite lookup_insert_ne by done. by eexists.
  - intros c' Hc'. unfold is_open_connection. world_simpl. destruct (decide (c' = c)) as [->|Hne].
    + rewrite lookup_insert_eq. by rewrite !bool_decide_true.
    + rewrite lookup_insert_ne by done. fold (is_open_connection w c'). rewrite Hopen by done. apply bool_decide_ext. apply list_elem_of_singleton.
  - world_simpl. apply HQ; world_simpl.
    + unfold closed_call. by rewrite Hc.
    + unfold state_of. world_simpl. by rewrite lookup_insert_eq.
    + unfold phase_of. world_simpl. by rewrite lookup_insert_eq.
    + done.
    + intros c' Hc'. by rewrite !lookup_insert_ne.
Qed.

Lemma wp_close_all m h sm x l c w :
  to_close m h sm x (c :: l) w ->
  wp (for_each (c :: l) ct_connection_close) (fun _ => wp (handle_closed h) (fun _ w' =>
    w_calls w' = w_calls w ++ concat (closed_call w <$> c :: l) /\
    (forall c', c' ∈ sm_all_connections sm -> state_of w' c' = Some CT_CONN_STATE_CLOSED) /\
    phase_of h w' = Some HandleClosed /\ w_heap w' = w_heap w)) w.
Proof.
  revert c w. induction l as [|c2 l IH]; intros c w Hto.
  all: assert (Hto' := Hto); destruct Hto' as (Hsock & Hnd & Hsub & Hopen & Hst & Hl).
  all: assert (Hin : c ∈ sm_all_connections sm) by (apply Hsub; by left).
  all: destruct (open_connection_state w c) as (conn & Hc & Hcst); [rewrite Hopen by done; by apply bool_decide_true; left|].
  all: assert (Hcl : cn_state conn <> CT_CONN_STATE_CLOSING) by (intros Hcl; apply (Hst c); [by left|]; unfold state_of; rewrite Hc; cbn; by rewrite Hcl).
  all: cbn [for_each]; wp_go; eapply wp_close_dependent; [exact Hsock|exact Hin|exact Hc|exact Hcst|exact Hcl|].
  - wp_go. eapply to_close_last; [exact Hto|exact Hc|exact Hcst|]. intros w' Hcalls Hstate Hphase Hheap Hframe.
    split_and!; [by cbn; rewrite app_nil_r| |done|done]. intros c' Hc'. destruct (decide (c' = c)) as [->|Hne]; [done|].
    pose proof (us_connections _ _ _ _ _ Hsock) as Hall. rewrite list.Forall_forall in Hall. destruct (Hall c' Hc') as (conn' & Hconn' & _).
    specialize (Hopen c' Hc'). unfold is_open_connection in Hopen. rewrite Hconn' in Hopen.
    unfold state_of. rewrite (Hframe c' Hne), Hconn'. cbn. f_equal.
    rewrite (bool_decide_false (c' ∈ [c])) in Hopen by (by intros ?%list_elem_of_singleton). apply bool_decide_eq_false in Hopen.
    destruct (decide (cn_state conn' = CT_CONN_STATE_CLOSED)); done.
  - destruct (to_close_step m h sm x c (c2 :: l) conn w Hto) as (Hto2 & Hstate & Hcalls & Hheap & Hframe); [done|exact Hc|].
    eapply wp_mono; [apply IH, Hto2|]. intros [] w1 Hw1. eapply wp_mono; [exact Hw1|]. intros [] w2 (Hcalls2 & Hall & Hphase & Hheap2).
    split_and!; [|done|done|congruence]. rewrite Hcalls2, Hcalls, <- app_assoc. cbn [fmap list_fmap concat]. do 2 f_equal.
    apply list.NoDup_cons in Hnd as [Hnotin _]. unfold closed_call at 1. rewrite Hframe by (intros ->; apply Hnotin; by left).
    f_equal. f_equal. apply list_fmap_ext. intros i c' Hc'. unfold closed_call. rewrite Hframe; [done|].
    intros ->. apply Hnotin. right. by eapply list_elem_of_lookup_2.
Qed.
(** C20: closing the connections of a UDP socket, in any order, tells each
    of them [Closed] exactly once, in that order, and closes the socket.
    When [ct_connection_close] is called on every open connection of a socket
    manager without an open listener, none of them closing yet, then all but
    the last are closed at once and the last one when the loop has closed the
    socket: every connection of the manager ends closed, nothing is allocated
    or freed, and the handle can be freed. *)
Theorem closing_all_connections m h sm x l w :
  udp_socket m h sm x w -> l <> [] -> NoDup l ->
  (forall c, c ∈ l <-> c ∈ sm_all_connections sm /\ is_open_connection w c = true) ->
  (forall c, c ∈ l -> state_of w c <> Some CT_CONN_STATE_CLOSING) -> is_open_listener w (sm_listener sm) = false ->
  wp (for_each l ct_connection_close ;; handle_closed h) (fun _ w' =>
    w_calls w' = w_calls w ++ concat (closed_call w <$> l) /\
    (forall c, c ∈ sm_all_connections sm -> state_of w' c = Some CT_CONN_STATE_CLOSED) /\
    phase_of h w' = Some HandleClosed /\ w_heap w' = w_heap w) w.
Proof.
  intros Hsock Hne Hnd Hl Hst Hlis. destruct l as [|c l]; [done|]. apply wp_bind.
  apply (wp_close_all m h sm x l c w). split_and!; [exact Hsock|exact Hnd|intros c' Hc'; by apply Hl| |exact Hst|exact Hlis].
  intros c' Hc'. case_bool_decide as Hin; [by apply Hl|]. apply not_true_iff_false. intros Ho. by apply Hin, Hl.
Qed.

End dependents.

(** ** A manager of three connections *)

Module Three.
Import Lifecycle.Idle.

Definition udp_in_state (s : ct_connection_state) : ct_connection := set_cn_state s udp_connection.
Definition manager : ct_socket_manager :=
  SocketManager (udp_state 4%positive) 3 [1; 5; 6]%positive (Some []) udp_protocol_interface None CT_CLOSE_TYPE_GRACEFUL.
Definition three : world :=
  World (Heap [] 30) 7%positive
    {[1%positive := udp_in_state CT_CONN_STATE_ESTABLISHED; 5%positive := udp_in_state CT_CONN_STATE_CLOSED;
      6%positive := udp_in_state CT_CONN_STATE_ESTABLISHED]} ∅ {[2%positive := manager]} ∅
    {[4%positive := udp_handle 2%positive HandleOpen ephemeral_addr]} ∅ [] [] [] 0 0 [] quic_empty.

Lemma three_socket : udp_socket 2%positive 4%positive manager (udp_handle 2%positive HandleOpen ephemeral_addr) three.
Proof.
  split; try done.
  - by apply (bool_decide_unpack _).
  - repeat constructor; by eexists.
Qed.

Lemma socket_closes_with_last_dependent_witness :
  wp (ct_connection_close 6%positive) (fun _ w' =>
    w' = if bool_decide (cn_state (udp_in_state CT_CONN_STATE_ESTABLISHED) = CT_CONN_STATE_CLOSED
                         \/ cn_state (udp_in_state CT_CONN_STATE_ESTABLISHED) = CT_CONN_STATE_CLOSING) then three
         else after_close 6%positive 2%positive 4%positive (udp_in_state CT_CONN_STATE_ESTABLISHED) manager
                (udp_handle 2%positive HandleOpen ephemeral_addr) three) three.
Proof.
  apply socket_closes_with_last_dependent; [apply three_socket|by right; right; left|done].
Defined.

Lemma closing_all_connections_witness :
  let l := [6; 1]%positive in
  wp (for_each l ct_connection_close ;; handle_closed 4%positive) (fun _ w' =>
    w_calls w' = w_calls three ++ concat (closed_call three <$> l) /\
    (forall c, c ∈ sm_all_connections manager -> state_of w' c = Some CT_CONN_STATE_CLOSED) /\
    phase_of 4%positive w' = Some HandleClosed /\ w_heap w' = w_heap three) three.
Proof.
  intros l. apply (closing_all_connections 2%positive 4%positive manager (udp_handle 2%positive HandleOpen ephemeral_addr) l three); [apply three_socket|done| | | |done].
  - by apply (bool_decide_unpack _).
  - intros c. unfold l, manager. cbn [sm_all_connections]. rewrite !elem_of_cons. split.
    + intros [->|[->|Hn]]; [split; [naive_solver|done]..|]. by apply not_elem_of_nil in Hn.
    + intros [[->|[->|[->|Hn]]] Ho]; [naive_solver|by vm_compute in Ho|naive_solver|]. by apply not_elem_of_nil in Hn.
  - intros c. unfold l. rewrite !elem_of_cons. intros [->|[->|Hn]]; [by vm_compute..|]. by apply not_elem_of_nil in Hn.
Defined.
End Three.
