(* ===== verification/Listening.v ===== *)
(** UDP listeners.

    A listener's socket receives the datagrams of every peer.  The socket
    manager's demultiplexing table sends each datagram to the connection of
    its peer, which the first datagram creates.  The theorem relates the
    handler, run on a sequence of datagrams, to the grouping of the datagrams
    by the address they come from. *)

From S2P Require Export Lifecycle.
Open Scope Z_scope.

(** ** The endpoint of a peer *)

Lemma demux_key_memcpy n a :
  wf_sockaddr a -> (ss_family a = AF_INET /\ n = SOCKADDR_IN_SIZE) \/ (ss_family a = AF_INET6 /\ n = SOCKADDR_IN6_SIZE) ->
  demux_key (memcpy n a sockaddr_zero) = demux_key a.
Proof.
  intros Hwf Hn. unfold demux_key.
  rewrite memcpy_family; [|done|apply wf_sockaddr_zero|by destruct Hn as [[_ ->]|[_ ->]]; vm_compute; lia].
  assert (Htake : take n (memcpy n a sockaddr_zero) = take n a).
  { destruct Hwf as [Hl _]. unfold memcpy, write. rewrite take_0. cbn [app]. rewrite take_app_le.
    - by rewrite take_take, Nat.min_id.
    - rewrite length_take, Hl. by destruct Hn as [[_ ->]|[_ ->]]; vm_compute; lia. }
  destruct Hn as [[-> ->]|[-> ->]]; cbn [Z.eqb]; by rewrite Htake.
Qed.

(** [ct_remote_endpoint_from_sockaddr] on a new endpoint. *)
Lemma remote_of_sockaddr a :
  wf_sockaddr a -> is_inet a = true ->
  exists e, ct_remote_endpoint_from_sockaddr ct_remote_endpoint_build a = (0, e) /\
    demux_key (re_resolved_address e) = demux_key a /\ remote_blocks e = 0.
Proof.
  intros Hwf Hi. unfold ct_remote_endpoint_from_sockaddr. cbn [ct_remote_endpoint_build re_hostname is_Some_b].
  apply is_inet_spec in Hi as [Hf|Hf]; rewrite Hf; cbn [Z.eqb]; eexists; (split; [reflexivity|]); (split; [|done]).
  - apply (demux_key_memcpy SOCKADDR_IN_SIZE a Hwf). by left.
  - apply (demux_key_memcpy SOCKADDR_IN6_SIZE a Hwf). by right.
Qed.

Lemma allocs_remotes_singleton e :
  allocs (ct_remote_endpoints_deep_copy [e]) (eq (Some [e])) (fun _ => 1 + remote_blocks e).
Proof.
  eapply allocs_bind; [apply allocs_malloc|]. intros ? <-. cbn [negb copy_loop].
  eapply allocs_bind; [apply allocs_copies, copies_remote|]. intros ? <-. cbn [Z.eqb negb app]. apply allocs_ret; [done|]. lia.
Qed.

(** ** The connection of a peer *)

Definition server_connection u (g m : id) sec (local : ct_local_endpoint) (remote : ct_remote_endpoint) cbs : ct_connection :=
  Connection u (Some g) sec 0 (Some [local]) 0 (Some [remote]) CT_CONN_STATE_ESTABLISHING CT_CONNECTION_DEFAULT_PRIORITY
    false false None None CT_CONNECTION_ROLE_SERVER cbs (Some m) (Some []) (Some []) false.

Section listening.
Context `{!Picoquic, !Framers, !HashOrder}.

(** The endpoints of a server connection ... *)
Lemma wp_server_endpoints c g e local conn (k : M world (option id)) (Q : option id -> world -> Prop) w :
  oracle_ok (w_heap w) -> w_connections w !! c = Some conn ->
  (forall h, oracle_ok h ->
     wp k Q (World h (w_next w)
       (<[c := set_cn_role CT_CONNECTION_ROLE_SERVER (set_cn_active_local_endpoint 0 (set_cn_all_local_endpoints (Some [local])
                 (set_cn_active_remote_endpoint 0 (set_cn_all_remote_endpoints (Some [e]) conn))))]> (w_connections w))
       (w_groups w) (w_managers w) (w_listeners w) (w_handles w) (w_requests w) (w_uv w) (w_names w) (w_entropy w)
       (w_uuid_counter w) (w_time w) (w_calls w) (w_quic w))) ->
  wp (remotes ← on_heap (ct_remote_endpoints_deep_copy [e]);
      update_connection c (set_cn_all_remote_endpoints remotes) ;;
      if negb (is_Some_b remotes) then
        ct_connection_free (Some c) ;; ct_connection_group_free (Some g) ;; mret None
      else
      update_connection c (set_cn_active_remote_endpoint 0%nat) ;;
      local ← on_heap (ct_local_endpoint_deep_copy (Some local));
      update_connection c (set_cn_all_local_endpoints ((fun e => [e]) <$> local)) ;;
      if negb (is_Some_b local) then
        ct_connection_free (Some c) ;; ct_connection_group_free (Some g) ;; mret None
      else
      update_connection c (set_cn_active_local_endpoint 0%nat) ;;
      update_connection c (set_cn_role CT_CONNECTION_ROLE_SERVER) ;; k) Q w.
Proof.
  intros Ho Hc HQ. wp_go.
  eapply wp_heap_allocs; [exact Ho|apply allocs_remotes_singleton|]. intros ? h4 <- Ho4 _. wp_go.
  eapply wp_update_connection; [exact Hc|]. world_simpl. cbn [is_Some_b negb]. wp_go.
  eapply wp_update_connection; [apply lookup_insert_eq|]. world_simpl. rewrite insert_insert_eq. wp_go.
  eapply wp_heap_allocs; [exact Ho4|apply allocs_local_copy|]. intros ? h5 <- Ho5 _. world_simpl. wp_go. cbn [fmap option_fmap option_map].
  eapply wp_update_connection; [apply lookup_insert_eq|]. world_simpl. rewrite insert_insert_eq. cbn [is_Some_b negb]. wp_go.
  eapply wp_update_connection; [apply lookup_insert_eq|]. world_simpl. rewrite insert_insert_eq. wp_go.
  eapply wp_update_connection; [apply lookup_insert_eq|]. world_simpl. rewrite insert_insert_eq. by apply HQ.
Qed.

(** ... and the rest of it. *)
Lemma wp_server_rest c m g sec cbs conn sm (Q : option id -> world -> Prop) w :
  oracle_ok (w_heap w) -> w_connections w !! c = Some conn -> cn_framer_impl conn = None -> sec_ok sec -> w_managers w !! m = Some sm ->
  (forall h sec', oracle_ok h ->
     Q (Some c) (World h (w_next w)
       (<[c := set_cn_socket_manager (Some m) (set_cn_callbacks cbs (set_cn_security_parameters sec' conn))]> (w_connections w))
       (w_groups w) (<[m := set_sm_ref_count (sm_ref_count sm + 1) (prepend_connection c sm)]> (w_managers w))
       (w_listeners w) (w_handles w) (w_requests w) (w_uv w) (w_names w) (w_entropy w)
       (w_uuid_counter w) (w_time w) (w_calls w) (w_quic w))) ->
  wp (copy_security c sec ;;
      ok ← copy_framer c None;
      if negb ok then ct_connection_free (Some c) ;; ct_connection_group_free (Some g) ;; mret None
      else
      set_callbacks c (Some cbs) ;;
      ct_socket_manager_add_connection m c ;;
      mret (Some c)) Q w.
Proof.
  intros Ho Hc Hf Hsec Hm HQ. wp_go. unfold copy_security. wp_go.
  eapply wp_heap_allocs; [exact Ho|by apply allocs_security_opt|]. intros sec' h6 _ Ho6 _. wp_go.
  eapply wp_update_connection; [exact Hc|]. world_simpl. unfold copy_framer, set_callbacks. wp_go. cbn [negb]. wp_go.
  eapply wp_update_connection; [apply lookup_insert_eq|]. world_simpl. rewrite insert_insert_eq.
  unfold ct_socket_manager_add_connection. wp_go. eapply wp_update_manager; [exact Hm|]. wp_go. unfold ct_socket_manager_ref. wp_go.
  eapply wp_update_manager; [apply lookup_insert_eq|]. world_simpl. rewrite insert_insert_eq. wp_go.
  eapply wp_update_connection; [apply lookup_insert_eq|]. world_simpl. rewrite insert_insert_eq. wp_go. by apply HQ.
Qed.

Lemma wp_create_server m sm e local props sec cbs (Q : option id -> world -> Prop) w :
  oracle_ok (w_heap w) -> w_managers w !! m = Some sm -> props_ok props -> sec_ok sec ->
  let c := w_next w in
  let g := Pos.succ c in
  (forall h u gu tp sec' en k, oracle_ok h ->
     Q (Some c) (World h (Pos.succ g) (<[c := server_connection u g m sec' local e cbs]> (w_connections w))
       (<[g := client_group gu u c tp]> (w_groups w))
       (<[m := set_sm_ref_count (sm_ref_count sm + 1) (prepend_connection c sm)]> (w_managers w))
       (w_listeners w) (w_handles w) (w_requests w) (w_uv w) (w_names w) en k (w_time w) (w_calls w) (w_quic w))) ->
  wp (ct_connection_create_server_connection m e (Some local) (Some props) sec (Some cbs) None) Q w.
Proof.
  intros Ho Hm Hprops Hsec c g HQ. unfold ct_connection_create_server_connection. wp_go.
  apply wp_create_empty; [exact Ho|]. intros h1 u en1 k1 Ho1 _. fold c. wp_go.
  apply wp_group_new; [exact Ho1|exact Hprops|]. world_simpl. fold g. intros h3 gu tp en3 k3 Ho3 _ _. wp_step.
  eapply (wp_add_to_group g c); [apply lookup_insert_eq|done|apply lookup_insert_eq|done|]. world_simpl. rewrite !insert_insert_eq.
  eapply (wp_server_endpoints c g e local); [exact Ho3|apply lookup_insert_eq|]. intros h5 Ho5. world_simpl. rewrite insert_insert_eq.
  eapply (wp_server_rest c m g sec cbs); [exact Ho5|apply lookup_insert_eq|done|exact Hsec|exact Hm|]. intros h6 sec' Ho6. world_simpl.
  rewrite insert_insert_eq. by apply (HQ h6 u gu tp sec' en3 k3).
Qed.

(** ** Delivery to a connection without waiting callbacks *)

(** The bytes of the messages that wait. *)
Definition received (conn : ct_connection) : list (list Z) :=
  omap (fun q => q ≫= fun q => content_bytes (qm_message q)) (default [] (cn_received_messages conn)).

(** The connection of a peer, ready to queue what comes. *)
Definition queueing (m : id) (conn : ct_connection) : Prop :=
  cn_socket_manager conn = Some m /\ cn_framer_impl conn = None /\ cn_received_callbacks conn = Some [] /\
  is_Some (cn_received_messages conn) /\ cn_state conn = CT_CONN_STATE_ESTABLISHED /\ cn_role conn = CT_CONNECTION_ROLE_SERVER.

Lemma content_bytes_new data : content_bytes (Message (Some data) (length data)) = Some data.
Proof. unfold content_bytes. cbn [msg_content msg_length]. by rewrite Nat.leb_refl, take_ge. Qed.

Lemma wp_on_receive c m data conn (Q : unit -> world -> Prop) w :
  oracle_ok (w_heap w) -> w_connections w !! c = Some conn -> queueing m conn ->
  (forall heap conn', oracle_ok heap -> queueing m conn' -> received conn' = received conn ++ [data] ->
     Q tt (set_w_heap heap (set_w_connections (<[c := conn']> (w_connections w)) w))) ->
  wp (ct_connection_on_protocol_receive c data) Q w.
Proof.
  intros Ho Hc Hq HQ. unfold ct_connection_on_protocol_receive. wp_go.
  eapply (wp_heap_allocs _ (eq (Some (Message (Some data) (length data)))) (fun _ => 2)); [exact Ho| |].
  { unfold ct_message_new_with_content, ct_message_new.
    eapply (allocs_bind _ _ is_Some (fun _ => 1)); [|intros ? [? ->]; eapply allocs_bind; [apply allocs_malloc|intros ? <-; by apply allocs_ret]].
    eapply allocs_bind; [apply allocs_malloc|]. intros ? <-. by apply allocs_ret. }
  intros ? h1 <- Ho1 _. wp_go.
  eapply (wp_send_context c conn None); [exact Ho1|exact Hc|]. intros ctx h2 _ Ho2 _. wp_go.
  eapply wp_connection_at; [exact Hc|]. destruct Hq as (Hqm & Hqf & Hqc & [ms Hms] & Hqs & Hqr). rewrite Hqf.
  unfold ct_connection_deliver_to_app. wp_go. eapply wp_connection_at; [exact Hc|]. rewrite Hqc. wp_go.
  eapply wp_heap_allocs; [exact Ho2|apply allocs_queued|]. intros ? h3 <- Ho3 _. wp_go. eapply wp_update_connection; [exact Hc|].
  eapply (HQ h3); [exact Ho3| |].
  - by split_and!; try done; eexists.
  - unfold received. cbn [cn_received_messages set_cn_received_messages]. rewrite Hms. cbn [default from_option].
    cbn [Datatypes.id]. rewrite omap_app. f_equal. cbn [omap list_omap mbind option_bind qm_message]. by rewrite content_bytes_new.
Qed.

(** ** The handler, one datagram at a time *)

Lemma wp_insert_new_peer m c conn remote sm t k (Q : Z -> world -> Prop) w :
  w_connections w !! c = Some conn -> w_managers w !! m = Some sm -> sm_demux_table sm = Some t ->
  demux_key (re_resolved_address remote) = Some k -> table_lookup k t = None ->
  Q 0 (set_w_managers (<[m := set_sm_demux_table (Some (t ++ [(k, c)])) sm]> (w_managers w)) w) ->
  wp (socket_manager_insert_demuxed_connection m remote c) Q w.
Proof.
  intros Hc Hm Ht Hk Hnew HQ. unfold socket_manager_insert_demuxed_connection. wp_go.
  eapply wp_connection_at; [exact Hc|]. rewrite Hk. wp_go. eapply wp_manager_at; [exact Hm|]. wp_go.
  rewrite Hnew. cbn [is_Some_b]. wp_go. by eapply wp_update_manager.
Qed.

End listening.

(** ** The specification: grouping by peer *)

Definition datagram : Type := list Z * sockaddr.
Definition peer (d : datagram) : bytes := default [] (demux_key d.2).
Definition valid (d : datagram) : Prop := wf_sockaddr d.2 /\ is_inet d.2 = true.

(** The peers in the order of their first datagrams. *)
Definition add_peer (ks : list bytes) (d : datagram) : list bytes := if bool_decide (peer d ∈ ks) then ks else ks ++ [peer d].
Definition peers (ds : list datagram) : list bytes := foldl add_peer [] ds.

(** What a peer has sent. *)
Definition sent_by (k : bytes) (ds : list datagram) : list (list Z) := fst <$> filter (fun d => peer d = k) ds.

Lemma peers_snoc ds d : peers (ds ++ [d]) = add_peer (peers ds) d.
Proof. unfold peers. by rewrite foldl_app. Qed.

Lemma peers_nodup ds : NoDup (peers ds).
Proof.
  induction ds as [|d ds IH] using rev_ind; [constructor|]. rewrite peers_snoc. unfold add_peer. case_bool_decide as Hin; [done|].
  apply list.NoDup_app. split_and!; [done| |apply list.NoDup_singleton]. intros k Hk ->%list_elem_of_singleton. done.
Qed.

Lemma peers_elem ds k : k ∈ peers ds <-> exists d, d ∈ ds /\ peer d = k.
Proof.
  induction ds as [|d ds IH] using rev_ind.
  { split; [by intros ?%not_elem_of_nil|intros (d & Hd & _); by apply not_elem_of_nil in Hd]. }
  assert (Hadd : k ∈ add_peer (peers ds) d <-> k ∈ peers ds \/ k = peer d).
  { unfold add_peer. case_bool_decide; [naive_solver|]. by rewrite elem_of_app, list_elem_of_singleton. }
  rewrite peers_snoc, Hadd, IH. setoid_rewrite elem_of_app. setoid_rewrite list_elem_of_singleton. naive_solver.
Qed.

Lemma sent_by_snoc k ds d : sent_by k (ds ++ [d]) = sent_by k ds ++ (if bool_decide (peer d = k) then [d.1] else []).
Proof.
  unfold sent_by. rewrite list.filter_app, fmap_app. f_equal. case_bool_decide; [by rewrite filter_cons_True|by rewrite filter_cons_False].
Qed.

Lemma sent_by_unknown k ds : k ∉ peers ds -> sent_by k ds = [].
Proof.
  intros Hk. unfold sent_by. rewrite peers_elem in Hk. induction ds as [|d ds IH]; [done|].
  rewrite filter_cons_False by (intros He; apply Hk; exists d; split; [by left|done]). apply IH. intros (d' & Hd' & He).
  apply Hk. exists d'. split; [by right|done].
Qed.

(** ** The table *)

Lemma table_lookup_zip (ks : list bytes) (cs : list id) i k c :
  NoDup ks -> ks !! i = Some k -> cs !! i = Some c -> table_lookup k (zip ks cs) = Some c.
Proof.
  intros Hnd Hk Hc. unfold table_lookup. rewrite (proj2 (list_find_Some _ _ i (k, c))); [done|].
  rewrite lookup_zip_with, Hk, Hc. split_and!; [done|done|]. intros j [k' c'] Hj Hlt He. cbn in He. subst k'.
  rewrite lookup_zip_with in Hj. destruct (ks !! j) as [kj|] eqn:Hkj; [|done]. destruct (cs !! j); [|done]. cbn in Hj.
  injection Hj as -> ->. assert (j = i) by (by eapply NoDup_lookup). lia.
Qed.

Lemma table_lookup_none (ks : list bytes) (cs : list id) k : k ∉ ks -> table_lookup k (zip ks cs) = None.
Proof.
  intros Hk. unfold table_lookup. rewrite (proj2 (list_find_None _ _)); [done|]. apply list.Forall_forall.
  intros [k' c] Hin He. cbn in He. subst. apply elem_of_zip_l in Hin. done.
Qed.

(** ** The handler and the specification *)

Section demultiplexing.
Context `{!Picoquic, !Framers, !HashOrder}.
Context (m h l : id) (li : ct_listener) (local : ct_local_endpoint) (props : ct_transport_properties).
Context (Hlocal : li_local_endpoint li = Some local) (Hprops : li_transport_properties li = Some props).
Context (Hpok : props_ok props) (Hsok : sec_ok (li_security_parameters li)).
Context (Hopen : li_state li <> CT_LISTENER_STATE_CLOSED).

Definition announced (c : id) : list call :=
  match lcb_connection_received (li_listener_callbacks li) with
  | Some fn => [CallListener fn (ConnectionReceived c) (Some l)]
  | None => []
  end.

(** The socket manager, its socket and its listener, with this table. *)
Record listener_of (t : list (bytes * id)) (w : world) : Prop := {
  lo_heap : oracle_ok (w_heap w);
  lo_manager : exists sm, w_managers w !! m = Some sm /\ sm_demux_table sm = Some t /\ sm_listener sm = Some l /\
    sm_internal_socket_manager_state sm = udp_state h;
  lo_listener : w_listeners w !! l = Some li;
  lo_handle : exists a, w_handles w !! h = Some (Handle (Some m) (Some socket_listen_callback_ptr) false HandleOpen a) }.

(** The peers' connections [cs] hold what the peers have sent. *)
Record serving (ds : list datagram) (cs : list id) (calls0 : list call) (w : world) : Prop := {
  sv_listener : listener_of (zip (peers ds) cs) w;
  sv_fresh : Forall (fun c => (c < w_next w)%positive) cs;
  sv_nodup : NoDup cs;
  sv_length : length cs = length (peers ds);
  sv_peers : forall i k c, peers ds !! i = Some k -> cs !! i = Some c ->
    exists conn, w_connections w !! c = Some conn /\ queueing m conn /\ received conn = sent_by k ds;
  sv_calls : w_calls w = calls0 ++ concat (announced <$> cs) }.

Lemma valid_key d : valid d -> demux_key d.2 = Some (peer d).
Proof. intros [_ Hi]. unfold peer. by destruct (inet_demux_key _ Hi) as [k ->]. Qed.

Lemma wp_lookup_peer t d (Q : option id -> world -> Prop) w :
  listener_of t w -> valid d -> Q (table_lookup (peer d) t) w -> wp (socket_manager_get_from_demux_table m d.2) Q w.
Proof.
  intros [_ (sm & Hm & Ht & _) _ _] Hd HQ. unfold socket_manager_get_from_demux_table. rewrite (valid_key d Hd). wp_go.
  eapply wp_manager_at; [exact Hm|]. wp_go. by rewrite Ht.
Qed.

(** A datagram of a known peer. *)
Lemma wp_known_peer t d c conn (Q : unit -> world -> Prop) w :
  listener_of t w -> valid d -> table_lookup (peer d) t = Some c -> w_connections w !! c = Some conn -> queueing m conn ->
  (forall heap conn', oracle_ok heap -> queueing m conn' -> received conn' = received conn ++ [d.1] ->
     Q tt (set_w_heap heap (set_w_connections (<[c := conn']> (w_connections w)) w))) ->
  wp (udp_multiplex_received_message m d.1 d.2) Q w.
Proof.
  intros Hlo Hd Hlookup Hc Hq HQ. unfold udp_multiplex_received_message. wp_go. eapply wp_lookup_peer; [exact Hlo|exact Hd|].
  rewrite Hlookup. eapply wp_on_receive; [by destruct Hlo|exact Hc|exact Hq|exact HQ].
Qed.

(** The announcement of a new connection. *)
Lemma wp_announce c conn (Q : unit -> world -> Prop) w :
  w_connections w !! c = Some conn -> w_listeners w !! l = Some li ->
  Q tt (set_w_calls (w_calls w ++ announced c) (set_w_connections (<[c := established conn]> (w_connections w)) w)) ->
  wp (ct_socket_manager_connection_received_cb l c) Q w.
Proof.
  intros Hc Hl HQ. unfold ct_socket_manager_connection_received_cb. wp_go. cbn [ct_connection_mark_as_established].
  unfold ct_connection_set_can_send, ct_connection_set_can_receive, set_connection. wp_go.
  eapply wp_update_connection; [exact Hc|]. wp_go.
  eapply wp_update_connection; [apply lookup_insert_eq|]. world_simpl. rewrite insert_insert_eq. wp_go.
  eapply wp_update_connection; [apply lookup_insert_eq|]. world_simpl. rewrite insert_insert_eq.
  unfold listener_at. wp_go. unfold announced in HQ. unfold call_listener. destruct (lcb_connection_received _); unfold record_call; wp_go; [exact HQ|].
  rewrite app_nil_r in HQ. by destruct w.
Qed.

(** From the registration of a new connection on. *)
Lemma wp_register_peer t d c conn e (Q : unit -> world -> Prop) w :
  listener_of t w -> table_lookup (peer d) t = None -> demux_key (re_resolved_address e) = Some (peer d) ->
  w_connections w !! c = Some conn -> queueing m (established conn) -> received conn = [] ->
  remote_list conn = [e] -> cn_active_remote_endpoint conn = 0%nat ->
  (forall w' conn', listener_of (t ++ [(peer d, c)]) w' -> w_next w' = w_next w ->
     w_connections w' = <[c := conn']> (w_connections w) -> queueing m conn' -> received conn' = [d.1] ->
     w_calls w' = w_calls w ++ announced c -> Q tt w') ->
  wp (ct_connection_set_can_send (Some c) true ;;
      ct_connection_set_can_receive (Some c) true ;;
      remote ← active_remote_endpoint c;
      socket_manager_insert_demuxed_connection m remote c ;;
      sm ← manager_at m;
      udp_handle_of (sm_internal_socket_manager_state sm) ;;
      ct_socket_manager_connection_received_cb l c ;;
      ct_connection_on_protocol_receive c d.1) Q w.
Proof.
  intros [Ho (sm & Hm & Ht & Hsl & Hs) Hl Hh] Hnew He Hc Hq Hr Hrl Hra HQ.
  unfold ct_connection_set_can_send, ct_connection_set_can_receive, set_connection. wp_go.
  eapply wp_update_connection; [exact Hc|]. wp_go. eapply wp_update_connection; [apply lookup_insert_eq|]. world_simpl.
  rewrite insert_insert_eq. wp_go. unfold active_remote_endpoint, ct_connection_get_active_remote_endpoint, remote_endpoint_at. wp_go.
  eapply wp_connection_at; [apply lookup_insert_eq|]. wp_go. eapply wp_connection_at; [apply lookup_insert_eq|]. cbn [fst snd].
  change (remote_list (set_cn_can_receive true (set_cn_can_send true conn))) with (remote_list conn).
  change (cn_active_remote_endpoint (set_cn_can_receive true (set_cn_can_send true conn))) with (cn_active_remote_endpoint conn).
  rewrite Hrl, Hra. cbn [lookup list_lookup]. wp_go.
  eapply wp_insert_new_peer; [apply lookup_insert_eq|exact Hm|exact Ht|exact He|exact Hnew|]. wp_go.
  eapply wp_manager_at; [apply lookup_insert_eq|].
  change (sm_internal_socket_manager_state (set_sm_demux_table _ sm)) with (sm_internal_socket_manager_state sm).
  rewrite Hs. unfold udp_handle_of, udp_state. wp_go.
  eapply wp_announce; [apply lookup_insert_eq|exact Hl|]. world_simpl. rewrite insert_insert_eq. wp_go.
  eapply wp_on_receive; [exact Ho|apply lookup_insert_eq|exact Hq|]. intros heap conn' Hoh Hq' Hr'. world_simpl. rewrite insert_insert_eq.
  apply (HQ _ conn'); world_simpl; [|done..|exact Hq'| |done].
  - split; world_simpl; [exact Hoh| |exact Hl|exact Hh]. eexists. split; [apply lookup_insert_eq|]. done.
  - rewrite Hr'. change (received (established _)) with (received conn). by rewrite Hr.
Qed.

(** The first datagram of a peer. *)
Lemma wp_new_peer t d (Q : unit -> world -> Prop) w :
  listener_of t w -> valid d -> table_lookup (peer d) t = None ->
  (forall w' conn', let c := w_next w in
     listener_of (t ++ [(peer d, c)]) w' -> (c < w_next w')%positive ->
     w_connections w' = <[c := conn']> (w_connections w) -> queueing m conn' -> received conn' = [d.1] ->
     w_calls w' = w_calls w ++ announced c -> Q tt w') ->
  wp (udp_multiplex_received_message m d.1 d.2) Q w.
Proof.
  intros Hlo Hd Hnew HQ. unfold udp_multiplex_received_message. wp_go. eapply wp_lookup_peer; [exact Hlo|exact Hd|]. rewrite Hnew.
  assert (Hlo' := Hlo). destruct Hlo' as [Ho (sm & Hm & Ht & Hsl & Hs) Hl Hh]. wp_go. eapply wp_manager_at; [exact Hm|].
  rewrite Hsl. unfold ct_listener_is_closed, listener_at. wp_go. rewrite bool_decide_false by done. wp_go.
  eapply (wp_heap_allocs _ (eq (Some ct_remote_endpoint_build)) (fun _ => 1)); [exact Ho| |].
  { eapply allocs_bind; [apply allocs_malloc|]. intros ? <-. by apply allocs_ret. }
  intros ? h1 <- Ho1 _. wp_go. destruct Hd as [Hwf Hi]. destruct (remote_of_sockaddr d.2 Hwf Hi) as (e & -> & Hkey & _). wp_go.
  rewrite Hlocal, Hprops. eapply wp_create_server; [exact Ho1|exact Hm|exact Hpok|exact Hsok|]. world_simpl.
  intros h2 u gu tp sec' en k Ho2. wp_go.
  eapply (wp_heap_frees _ (remote_blocks e + 1)); [apply frees_remote_opt|]. world_simpl. cbn beta iota.
  eapply (wp_register_peer t d _ _ e); [|exact Hnew| |apply lookup_insert_eq|done|done|done|done|].
  - split; world_simpl; [exact Ho2| |exact Hl|exact Hh]. eexists. split; [apply lookup_insert_eq|]. done.
  - rewrite Hkey. by apply valid_key.
  - world_simpl. intros w' conn' Hlo' Hnext Hconns Hq Hr Hcalls. apply (HQ w' conn'); [exact Hlo'| | |exact Hq|exact Hr|exact Hcalls].
    + rewrite Hnext. lia.
    + rewrite Hconns. by rewrite insert_insert_eq.
Qed.

(** The socket's read callback gives the datagram to the manager; its buffer is freed. *)
Lemma wp_readable t d (Q : unit -> world -> Prop) w :
  listener_of t w ->
  (forall heap, oracle_ok heap -> wp (udp_multiplex_received_message m d.1 d.2)
     (fun _ w' => forall live, Q tt (set_w_heap (Heap (h_oracle (w_heap w')) live) w')) (set_w_heap heap w)) ->
  wp (udp_readable h (UdpDatagram d.1 d.2)) Q w.
Proof.
  intros [Ho _ _ [a Hh]] HQ. unfold udp_readable, alloc_buffer. wp_go. eapply wp_handle_at; [exact Hh|]. wp_go.
  eapply wp_heap_allocs; [exact Ho|apply allocs_malloc|]. intros ? h1 <- Ho1 _. cbn [uh_read]. unfold socket_listen_callback. wp_go.
  eapply wp_handle_at; [exact Hh|]. wp_go. eapply wp_mono; [apply HQ, Ho1|]. intros [] w' Hw'. cbn [when].
  eapply wp_heap_frees; [apply frees_block|]. apply Hw'.
Qed.

Lemma listener_of_heap t heap w : oracle_ok heap -> listener_of t w -> listener_of t (set_w_heap heap w).
Proof. intros Ho [_ Hm Hl Hh]. by split. Qed.

(** One datagram. *)
Lemma serving_step ds cs calls0 d w :
  serving ds cs calls0 w -> valid d ->
  wp (udp_readable h (UdpDatagram d.1 d.2)) (fun _ w' => exists cs', serving (ds ++ [d]) cs' calls0 w' /\ cs `prefix_of` cs') w.
Proof.
  intros [Hlo Hfresh Hnd Hlen Hpeers Hcalls] Hd. eapply wp_readable; [exact Hlo|]. intros h1 Ho1.
  apply (listener_of_heap _ h1) in Hlo; [|exact Ho1]. destruct (decide (peer d ∈ peers ds)) as [Hin|Hnot].
  - assert (Hin' := Hin). apply list_elem_of_lookup in Hin' as [i Hi].
    destruct (lookup_lt_is_Some_2 cs i) as [c Hc]; [rewrite Hlen; by eapply lookup_lt_Some|].
    destruct (Hpeers i (peer d) c Hi Hc) as (conn & Hconn & Hq & Hr).
    eapply (wp_known_peer _ d c conn); [exact Hlo|exact Hd|by eapply table_lookup_zip; [apply peers_nodup|..]|exact Hconn|exact Hq|].
    intros h2 conn' Ho2 Hq' Hr' live. exists cs. split; [|done].
    assert (peers (ds ++ [d]) = peers ds) as Hpds by (rewrite peers_snoc; unfold add_peer; by rewrite bool_decide_true).
    split; world_simpl; [|exact Hfresh|exact Hnd|by rewrite Hpds| |exact Hcalls].
    + rewrite Hpds. destruct Hlo as [_ Hm Hl Hh]. by split.
    + rewrite Hpds. intros j k c' Hk Hc'. rewrite sent_by_snoc. destruct (decide (j = i)) as [->|Hji].
      * simplify_eq. exists conn'. rewrite lookup_insert_eq, bool_decide_true by done. by rewrite Hr', Hr.
      * destruct (Hpeers j k c' Hk Hc') as (conn2 & Hconn2 & Hq2 & Hr2). exists conn2.
        rewrite lookup_insert_ne by (intros ->; apply Hji; by eapply NoDup_lookup).
        rewrite bool_decide_false; [by rewrite app_nil_r|]. intros <-. apply Hji. eapply NoDup_lookup; [apply (peers_nodup ds)|exact Hk|exact Hi].
  - eapply (wp_new_peer _ d); [exact Hlo|exact Hd|by apply table_lookup_none|]. world_simpl.
    intros w' conn' Hlo' Hnext Hconns Hq Hr Hcalls' live. set (c := w_next w) in *. exists (cs ++ [c]). split; [|by apply prefix_app_r].
    assert (peers (ds ++ [d]) = peers ds ++ [peer d]) as Hpds by (rewrite peers_snoc; unfold add_peer; by rewrite bool_decide_false).
    assert (Hcs : c ∉ cs). { intros Hc. rewrite list.Forall_forall in Hfresh. specialize (Hfresh c Hc). cbn in Hfresh. lia. }
    split; world_simpl.
    + rewrite Hpds, zip_with_app by done. destruct Hlo' as [Ho' Hm' Hl' Hh']. by split.
    + apply Forall_app. split; [|by repeat constructor]. eapply list.Forall_impl; [exact Hfresh|]. cbn. intros x Hx. lia.
    + apply list.NoDup_app. split_and!; [done| |apply list.NoDup_singleton]. by intros x Hx ->%list_elem_of_singleton.
    + rewrite Hpds, !length_app. cbn. lia.
    + rewrite Hpds. intros j k c' Hk Hc'. rewrite sent_by_snoc, Hconns.
      apply lookup_snoc_Some in Hk as [[Hj Hk]|[Hj <-]]; apply lookup_snoc_Some in Hc' as [[Hj' Hc']|[Hj' <-]]; try lia.
      * destruct (Hpeers j k c' Hk Hc') as (conn2 & Hconn2 & Hq2 & Hr2). exists conn2.
        rewrite lookup_insert_ne by (intros ->; apply Hcs; by eapply list_elem_of_lookup_2).
        rewrite bool_decide_false; [by rewrite app_nil_r|]. intros <-. apply Hnot. by eapply list_elem_of_lookup_2.
      * exists conn'. rewrite lookup_insert_eq, bool_decide_true by done. by rewrite Hr, sent_by_unknown.
    + by rewrite Hcalls', Hcalls, fmap_app, concat_app, app_assoc; cbn; rewrite app_nil_r.
Qed.

(** C19: a UDP listener demultiplexes its datagrams by peer.  Run on any
    sequence of datagrams, the read callback of a listening socket announces
    one connection for every peer (every address up to the bytes the
    demultiplexing key keeps), in the order of their first datagrams; the
    connection of a peer is established, has the role of a server, and its
    queue of messages holds exactly the datagrams of that peer, in order. *)
Theorem listener_demultiplexes ds w :
  listener_of [] w -> Forall valid ds ->
  wp (for_each ds (fun d => udp_readable h (UdpDatagram d.1 d.2))) (fun _ w' => exists cs,
    NoDup cs /\ length cs = length (peers ds) /\
    w_calls w' = w_calls w ++ concat (announced <$> cs) /\
    (forall i k c, peers ds !! i = Some k -> cs !! i = Some c ->
       exists conn, w_connections w' !! c = Some conn /\ queueing m conn /\ received conn = sent_by k ds)) w.
Proof.
  intros Hlo Hds.
  assert (Hgen : forall ds0 cs w0, serving ds0 cs (w_calls w) w0 ->
    wp (for_each ds (fun d => udp_readable h (UdpDatagram d.1 d.2)))
      (fun _ w' => exists cs', serving (ds0 ++ ds) cs' (w_calls w) w') w0).
  { clear Hlo. induction ds as [|d ds IH]; intros ds0 cs w0 Hs; cbn [for_each].
    - wp_go. exists cs. by rewrite app_nil_r.
    - apply Forall_cons_1 in Hds as [Hd Hds]. wp_go. eapply wp_mono; [by apply serving_step|]. intros [] w1 (cs' & Hs' & _).
      eapply wp_mono; [by eapply (IH Hds)|]. intros [] w2 (cs2 & Hs2). exists cs2. by rewrite <- (app_assoc ds0 [d] ds) in Hs2. }
  eapply wp_mono; [apply (Hgen [] [] w)|].
  - split; [done|constructor|constructor|done|done|by cbn; rewrite app_nil_r].
  - intros [] w' (cs & [_ _ Hnd Hlen Hpeers Hcalls]). by exists cs.
Qed.
End demultiplexing.

(** ** Two peers *)

Module Peers.
Import Lifecycle.Idle.

Definition listener : ct_listener :=
  Listener (Some some_properties) (Some some_local) 1 (ListenerCallbacks None (Some (user_fn 9)) None None None)
    some_callbacks CT_LISTENER_STATE_LISTENING None (Some 2%positive).
Definition manager : ct_socket_manager :=
  SocketManager (udp_state 4%positive) 1 [] (Some []) udp_protocol_interface (Some 3%positive) CT_CLOSE_TYPE_GRACEFUL.
Definition listening : world :=
  World (Heap [] 8) 5%positive ∅ ∅ {[2%positive := manager]} {[3%positive := listener]}
    {[4%positive := Handle (Some 2%positive) (Some socket_listen_callback_ptr) false HandleOpen (Some ephemeral_addr)]} ∅ [] [] [] 0 0 [] quic_empty.
Definition from (port : Z) (data : list Z) : datagram := (data, set_port port loopback_v4).
Definition traffic : list datagram := [from 5000 [1]; from 6000 [2; 2]; from 5000 [3]].

Example two_peers : (fun k => sent_by k traffic) <$> peers traffic = [[[1]; [3]]; [[2; 2]]].
Proof. by vm_compute. Qed.

Lemma listener_demultiplexes_witness :
  wp (for_each traffic (fun d => udp_readable 4%positive (UdpDatagram d.1 d.2))) (fun _ w' => exists cs,
    NoDup cs /\ length cs = length (peers traffic) /\
    w_calls w' = w_calls listening ++ concat (announced 3%positive listener <$> cs) /\
    (forall i k c, peers traffic !! i = Some k -> cs !! i = Some c ->
       exists conn, w_connections w' !! c = Some conn /\ queueing 2%positive conn /\ received conn = sent_by k traffic)) listening.
Proof.
  apply (listener_demultiplexes 2%positive 4%positive 3%positive listener some_local some_properties);
    [done|done|split; [apply wf_default_selection|apply sets_ok_default]|done|done| |].
  - split; [by constructor|by eexists|done|by eexists].
  - assert (Hv : forall port data, is_inet (set_port port loopback_v4) = true -> valid (from port data)).
    { intros port data Hi. split; [apply wf_set_port, loopback_v4_wf|exact Hi]. }
    apply list.Forall_cons; split; [by apply Hv|]. apply list.Forall_cons; split; [by apply Hv|].
    apply list.Forall_cons; split; [by apply Hv|constructor].
Defined.
End Peers.
