(* ===== verification/Hazards.v ===== *)
(** Sequences of calls that the library does not survive.

    Each theorem exhibits a defect of the code: under its hypotheses, which a
    correct application can bring about, the code reaches a use after free or
    a failed assertion of libuv. *)

From S2P Require Export Dependents.
Open Scope Z_scope.

Section hazards.
Context `{!Picoquic, !Framers, !HashOrder}.

(** ** The sequences *)

(** An application closes and frees a connection, and a datagram arrives on the socket. *)
Definition close_free_receive (c h : id) (data : list Z) (a : sockaddr) : M world unit :=
  ct_connection_close c ;; ct_connection_free (Some c) ;; udp_readable h (UdpDatagram data a).

(** An application closes a connection and then its group. *)
Definition close_then_close_group (c : id) : M world unit :=
  ct_connection_close c ;; ct_connection_close_group (Some c).

(** ** A datagram for a connection that was freed *)

(** A connection gives up one of several references. *)
Lemma shared_frees_manager m sm w :
  sm_ref_count sm <> 1 ->
  frees_manager m sm 0 (<[m := set_sm_ref_count (sm_ref_count sm - 1) sm]>) (w_handles w) (w_requests w) w.
Proof.
  intros Href Q w' Hm Hhs Hrs HQ. unfold ct_socket_manager_unref. wp_go. eapply wp_update_manager; [exact Hm|]. wp_go.
  eapply wp_manager_at; [apply lookup_insert_eq|]. cbn [sm_ref_count set_sm_ref_count].
  rewrite (proj2 (Z.eqb_neq _ _)) by lia. cbn [when]. wp_go. rewrite <- Hhs, <- Hrs, Z.sub_0_r in HQ. destruct w' as [[] ]. exact HQ.
Qed.

Lemma aborts_stale_datagram m h sm x k c data a t w :
  w_managers w !! m = Some sm -> sm_demux_table sm = Some t -> w_handles w !! h = Some x -> uh_data x = Some m ->
  uh_read x = Some on_read_ptr \/ uh_read x = Some socket_listen_callback_ptr ->
  demux_key a = Some k -> table_lookup k t = Some c -> w_connections w !! c = None -> oracle_ok (w_heap w) ->
  aborts (udp_readable h (UdpDatagram data a)) w.
Proof.
  intros Hm Ht Hh Hd Hr Hk Hl Hc Ho. unfold udp_readable, alloc_buffer. apply aborts_bind. eapply wp_handle_at; [exact Hh|].
  apply aborts_bind. eapply wp_heap_allocs; [exact Ho|apply allocs_malloc|]. intros ? h1 <- Ho1 _.
  assert (Hrecv : forall w', w_connections w' !! c = None -> oracle_ok (w_heap w') -> aborts (ct_connection_on_protocol_receive c data) w').
  { intros w' Hc' Ho'. unfold ct_connection_on_protocol_receive. apply aborts_bind.
    eapply (wp_heap_allocs _ is_Some (fun _ => 2)); [exact Ho'| |].
    { unfold ct_message_new_with_content, ct_message_new.
      eapply (allocs_bind _ _ is_Some (fun _ => 1)); [|intros ? [? ->]; eapply allocs_bind; [apply allocs_malloc|intros ? <-; by apply allocs_ret]].
      eapply allocs_bind; [apply allocs_malloc|]. intros ? <-. by apply allocs_ret. }
    intros ? h2 [msg ->] Ho2 _. cbn beta iota. apply aborts_first. unfold context_from_connection. apply aborts_first.
    unfold ct_connection_get_active_local_endpoint. apply aborts_first. eexists. unfold connection_at, mbind, M_bind, get, deref. world_simpl.
    by rewrite Hc'. }
  assert (Hlookup : forall Q : option id -> world -> Prop, Q (Some c) (set_w_heap h1 w) ->
    wp (socket_manager_get_from_demux_table m a) Q (set_w_heap h1 w)).
  { intros Q HQ. unfold socket_manager_get_from_demux_table. rewrite Hk. wp_go. eapply wp_manager_at; [exact Hm|]. wp_go.
    rewrite Ht. cbn. by rewrite Hl. }
  destruct Hr as [-> | ->]; cbn beta iota; unfold on_read, socket_listen_callback, udp_multiplex_received_message.
  all: apply aborts_bind; eapply wp_handle_at; [exact Hh|]; rewrite Hd; apply aborts_bind; wp_go.
  - apply aborts_bind, Hlookup. apply aborts_first. by apply Hrecv.
  - apply aborts_first, aborts_bind, Hlookup. by apply Hrecv.
Qed.

(** C38: freeing a closed connection of a shared UDP socket leaves a
    dangling entry in the demultiplexing table.  When a connection of a
    socket that other connections or the listener still use is closed with
    [ct_connection_close], which reports [Closed] at once, and then freed with
    [ct_connection_free], the next datagram from its peer makes the read
    callback use the freed connection. *)
Theorem datagram_after_free_faults c m g h conn sm gu members tp t x k a data w :
  udp_socket m h sm x w -> uh_read x = Some on_read_ptr \/ uh_read x = Some socket_listen_callback_ptr ->
  c ∈ sm_all_connections sm -> others_open w c sm = true -> sm_ref_count sm <> 1 ->
  sm_demux_table sm = Some t -> table_lookup k t = Some c -> demux_key a = Some k ->
  w_connections w !! c = Some conn -> cn_state conn = CT_CONN_STATE_ESTABLISHED -> cn_internal_connection_state conn = None ->
  sec_ok (cn_security_parameters conn) -> cn_connection_group conn = Some g -> cn_socket_manager conn = Some m ->
  w_groups w !! g = Some (ConnectionGroup gu (Some members) 1 (Some tp) None) -> wf_selection (selection_properties tp) ->
  oracle_ok (w_heap w) ->
  aborts (close_free_receive c h data a) w.
Proof.
  intros Hsock Hread Hin Hothers Href Ht Hlookup Hk Hc Hst Hi Hsec Hg Hcm Hgr Htp Ho.
  apply aborts_bind. eapply wp_close_dependent; [exact Hsock|exact Hin|exact Hc|by rewrite Hst..|].
  unfold after_close. rewrite Hothers. destruct Hsock as [Hm Hp Hs Hh Hph Hd _ _ _]. apply aborts_bind.
  eapply (wp_connection_free c m g); [apply lookup_insert_eq|exact Hi|exact Hsec|exact Hg|exact Hcm|exact Hgr|exact Htp|exact Hm| | | |].
  - by rewrite Hp.
  - apply shared_frees_manager. exact Href.
  - intros y. apply insert_insert_eq.
  - intros live _. eapply (aborts_stale_datagram m h); [apply lookup_insert_eq|exact Ht|exact Hh|exact Hd|exact Hread|exact Hk|exact Hlookup| |exact Ho].
    world_simpl. apply lookup_delete_eq.
Qed.

(** ** Closing the group of a connection that is closing *)

Lemma wp_singleton_members g gr u c (Q : list id -> world -> Prop) w :
  w_groups w !! g = Some gr -> gr_connections gr = Some [(u, c)] -> Q [c] w -> wp (group_members g) Q w.
Proof.
  intros Hg Hgr HQ. unfold group_members. wp_go. eapply wp_group_at; [exact Hg|]. rewrite Hgr. wp_go.
  by rewrite (proj1 (Permutation_singleton_r _ _) (hash_order_perm [(u, c)])).
Qed.

(** The sole dependent of a socket that is already closing closes it again. *)
Lemma aborts_udp_close_again c m h conn sm x cb w :
  w_connections w !! c = Some conn -> cn_socket_manager conn = Some m -> cn_state conn <> CT_CONN_STATE_CLOSED ->
  w_managers w !! m = Some sm -> sm_protocol sm = CT_PROTOCOL_UDP -> sm_internal_socket_manager_state sm = udp_state h ->
  NoDup (sm_all_connections sm) -> c ∈ sm_all_connections sm -> known_connections w (sm_all_connections sm) ->
  known_listener w (sm_listener sm) -> others_open w c sm = false ->
  w_handles w !! h = Some x -> uh_phase x = HandleClosing cb -> aborts (udp_close c) w.
Proof.
  intros Hc Hcm Hst Hm Hp Hs Hnd Hin Hk Hl Hothers Hh Hph. unfold udp_close. apply aborts_bind.
  eapply wp_manager_of; [exact Hc|exact Hcm|]. apply aborts_first. unfold ct_socket_manager_closed_connection_cb. apply aborts_bind.
  eapply wp_manager_of; [exact Hc|exact Hcm|]. apply aborts_bind. eapply wp_num_open; [exact Hm|exact Hk|exact Hl|].
  rewrite (open_dependents _ c), Hothers; [|done|done|unfold is_open_connection; rewrite Hc; by apply bool_decide_true]. cbn [negb].
  apply aborts_bind. unfold set_close_reason. eapply wp_update_manager; [exact Hm|]. unfold ct_socket_manager_close. apply aborts_bind.
  eapply wp_manager_at; [apply lookup_insert_eq|]. change (sm_protocol (set_sm_close_reason _ sm)) with (sm_protocol sm). rewrite Hp.
  cbn [impl_close_socket ctaps_sockets]. unfold udp_close_socket, udp_handle_of. apply aborts_bind.
  eapply wp_manager_at; [apply lookup_insert_eq|]. cbn [sm_internal_socket_manager_state set_sm_close_reason].
  change (sm_internal_socket_manager_state (set_sm_close_reason _ sm)) with (sm_internal_socket_manager_state sm). rewrite Hs. apply aborts_bind.
  unfold udp_state. wp_go. apply aborts_bind. wp_go. apply aborts_bind. eapply wp_update_handle; [exact Hh|]. unfold uv_close. apply aborts_bind.
  eapply wp_handle_at; [apply lookup_insert_eq|]. apply aborts_first. unfold is_open. cbn [uh_phase set_read]. 
  change (uh_phase (set_read None x)) with (uh_phase x). rewrite Hph. by eexists.
Qed.

(** [ct_connection_close_group] is not safe after
    [ct_connection_close].  When the last user of a UDP socket is closed and
    the application then closes the connection's group, before the loop has
    run, [udp_close_connection_group], which does not skip connections that
    are closing as TCP does, closes the libuv handle a second time; libuv
    asserts. *)
Theorem close_then_close_group_faults c m g h conn sm x gu u refs tp w :
  udp_socket m h sm x w -> c ∈ sm_all_connections sm -> others_open w c sm = false ->
  w_connections w !! c = Some conn -> cn_state conn = CT_CONN_STATE_ESTABLISHED ->
  cn_connection_group conn = Some g -> w_groups w !! g = Some (ConnectionGroup gu (Some [(u, c)]) refs tp None) ->
  aborts (close_then_close_group c) w.
Proof.
  intros Hsock Hin Hothers Hc Hst Hg Hgr. apply aborts_bind.
  eapply wp_close_dependent; [exact Hsock|exact Hin|exact Hc|by rewrite Hst..|]. unfold after_close. rewrite Hothers.
  destruct Hsock as [Hm Hp Hs Hh Hph Hd Hnd Hall Hl].
  assert (cn_socket_manager conn = Some m) as Hcm.
  { rewrite list.Forall_forall in Hall. destruct (Hall c Hin) as (? & ? & ?). congruence. }
  unfold ct_connection_close_group. apply aborts_bind. eapply wp_connection_at; [apply lookup_insert_eq|].
  change (cn_connection_group (set_cn_state _ conn)) with (cn_connection_group conn). rewrite Hg. apply aborts_bind.
  eapply wp_manager_of; [apply lookup_insert_eq|exact Hcm|]. unfold ct_socket_manager_close_group. apply aborts_bind.
  eapply wp_manager_at; [apply lookup_insert_eq|]. change (sm_protocol (set_sm_close_reason _ sm)) with (sm_protocol sm). rewrite Hp.
  cbn [impl_close_connection_group ctaps_protocols]. unfold udp_close_connection_group. apply aborts_bind.
  eapply wp_singleton_members; [exact Hgr|done|]. cbn [for_each]. apply aborts_first, aborts_first.
  eapply (aborts_udp_close_again c m h); [apply lookup_insert_eq|exact Hcm|done|apply lookup_insert_eq|exact Hp|exact Hs|exact Hnd|exact Hin| |exact Hl| |apply lookup_insert_eq|done].
  - eapply list.Forall_impl; [exact Hall|]. intros c' (conn' & Hc' & _). world_simpl. destruct (decide (c' = c)) as [->|Hne].
    + by rewrite lookup_insert_eq.
    + rewrite lookup_insert_ne by done. by eexists.
  - etransitivity; [exact (others_open_update w c (set_cn_state CT_CONN_STATE_CLOSING conn) sm)|exact Hothers].
Qed.
End hazards.

(** ** Concrete sockets *)

Module Shared.
Import Lifecycle.Idle Dependents.Three.

Definition peer_address : sockaddr := set_port 7000 loopback_v4.
Definition peer_key : bytes := take SOCKADDR_IN_SIZE peer_address.

(** Two connections on one socket; the second one's peer is known. *)
Definition shared_manager : ct_socket_manager :=
  SocketManager (udp_state 4%positive) 2 [6; 1]%positive (Some [(peer_key, 6%positive)]) udp_protocol_interface None
    CT_CLOSE_TYPE_GRACEFUL.
Definition group (c : id) : ct_connection_group := ConnectionGroup [] (Some [([], c)]) 1 (Some some_properties) None.
Definition shared (sm : ct_socket_manager) : world :=
  World (Heap [] 60) 7%positive
    {[1%positive := udp_in_state CT_CONN_STATE_ESTABLISHED; 6%positive := udp_in_state CT_CONN_STATE_ESTABLISHED]}
    {[3%positive := group 6%positive]} {[2%positive := sm]} ∅ {[4%positive := udp_handle 2%positive HandleOpen ephemeral_addr]} ∅ [] [] [] 0 0 [] quic_empty.

Lemma datagram_after_free_faults_witness :
  aborts (close_free_receive 6%positive 4%positive [1; 2; 3] peer_address) (shared shared_manager).
Proof.
  apply (datagram_after_free_faults 6%positive 2%positive 3%positive 4%positive (udp_in_state CT_CONN_STATE_ESTABLISHED)
    shared_manager [] [([], 6%positive)] some_properties [(peer_key, 6%positive)] (udp_handle 2%positive HandleOpen ephemeral_addr) peer_key);
    try done; try (by left); try (by constructor).
  - split; try done.
    + by apply (bool_decide_unpack _).
    + repeat constructor; by eexists.
  - apply wf_default_selection.
Defined.

(** One connection on a socket. *)
Definition sole_manager : ct_socket_manager :=
  SocketManager (udp_state 4%positive) 1 [6]%positive (Some []) udp_protocol_interface None CT_CLOSE_TYPE_GRACEFUL.

Lemma close_then_close_group_faults_witness :
  aborts (close_then_close_group 6%positive) (shared sole_manager).
Proof.
  apply (close_then_close_group_faults 6%positive 2%positive 3%positive 4%positive (udp_in_state CT_CONN_STATE_ESTABLISHED)
    sole_manager (udp_handle 2%positive HandleOpen ephemeral_addr) [] [] 1 (Some some_properties)); try done; try (by left).
  split; try done.
  - by apply (bool_decide_unpack _).
  - repeat constructor; by eexists.
Defined.
End Shared.
