(* ===== verification/Racing.v ===== *)
(** Candidate racing.

    Models src/src/candidate_gathering/candidate_racing.c: staggered
    connection attempts over the ordered candidates, of which the first that
    succeeds becomes the application's connection.

    The operations on connections are the interface [RaceOps]; the instance
    [ctaps_race_ops] at the end of the file is the program's.  What racing
    relies on is the interface [RaceContract] (RacingFacts). *)

From S2P Require Export Gathering Loop.
Open Scope Z_scope.

(** ** The interface to connections *)

(** Operations over a state [W] in which callback calls are recorded. *)
Class RaceOps (W : Type) := {
  (** the heap *)
  rop_heap {A} : M heap A -> M W A;
  rop_create_client : ct_protocol_impl -> list ct_local_endpoint -> nat -> list ct_remote_endpoint -> nat ->
    ct_transport_properties -> option ct_security_parameters -> ct_connection_callbacks ->
    option ct_framer_impl -> M W (option id);
  (** [ct_security_parameters_clear_alpn] and [_add_alpn] on the connection's
      own parameters *)
  rop_clear_alpn : id -> M W unit;
  rop_add_alpn : id -> string -> M W unit;
  (** [connection->socket_manager->protocol_impl->init], [_with_send] *)
  rop_init : id -> M W Z;
  rop_init_with_send : id -> option ct_message -> option ct_message_context -> M W Z;
  rop_close_group : id -> M W unit;
  rop_free : id -> M W unit;
  rop_send_message_full : id -> option ct_message -> option ct_message_context -> M W Z;
  (** the socket manager's callbacks *)
  rop_message_send_error : id -> option ct_message_context -> Z -> M W unit;
  rop_message_sent : id -> option ct_message_context -> M W unit;
  rop_sent_early_data : id -> M W bool;
  (** [connection->connection_callbacks] *)
  rop_callbacks : id -> M W ct_connection_callbacks;
  rop_set_callbacks : id -> ct_connection_callbacks -> M W unit;
  (** the calls recorded since the last time *)
  rop_take_calls : M W (list call);
  (** one event of the loop *)
  rop_event : Type;
  rop_run_event : rop_event -> M W unit }.

(** ** Data (candidate_racing.h) *)

Inductive ct_attempt_state : Set :=
| ATTEMPT_STATE_PENDING | ATTEMPT_STATE_CONNECTING | ATTEMPT_STATE_CLOSING
| ATTEMPT_STATE_SUCCEEDED | ATTEMPT_STATE_FAILED | ATTEMPT_STATE_CANCELED.

#[export] Instance ct_attempt_state_eq_dec : EqDecision ct_attempt_state.
Proof. solve_decision. Defined.

Record ct_racing_attempt := RacingAttempt {
  at_connection : option id;
  at_candidate : ct_candidate_node;
  at_state : ct_attempt_state }.

(** [ct_preconnection_t], the parts that racing reads. *)
Record race_input := RaceInput {
  ri_transport_properties : ct_transport_properties;
  ri_security_parameters : option ct_security_parameters;
  ri_framer_impl : option ct_framer_impl }.

(** [ct_racing_context_t]; an attempt's index is its position, and a NULL
    array of attempts is [[]]. *)
Record ct_racing_context := RacingContext {
  rx_attempts : list ct_racing_attempt;
  rx_next_attempt_index : nat;
  rx_should_try_early_data : bool;
  rx_initial_message : option ct_message;
  rx_initial_message_context : option ct_message_context;
  rx_user_callbacks : ct_connection_callbacks;
  rx_race_complete : bool;
  rx_winning_attempt_index : Z;
  rx_completed_attempts : Z;
  rx_preconnection : race_input }.

(** The stagger timer; the block is freed by its close callback. *)
Inductive timer_phase : Set := TimerIdle | TimerArmed | TimerClosing | TimerFreed.

#[export] Instance timer_phase_eq_dec : EqDecision timer_phase.
Proof. solve_decision. Defined.

(** The state of a race: [None] is a freed context; [rs_calls] are the calls
    of application callbacks so far. *)
Record race (W : Type) := Race {
  rs_world : W;
  rs_context : option ct_racing_context;
  rs_timer : timer_phase;
  rs_calls : list call }.
Arguments Race {W}.
Arguments rs_world {W}.
Arguments rs_context {W}.
Arguments rs_timer {W}.
Arguments rs_calls {W}.

Definition eta_rx (x : ct_racing_context) :=
  RacingContext (rx_attempts x) (rx_next_attempt_index x) (rx_should_try_early_data x) (rx_initial_message x)
    (rx_initial_message_context x) (rx_user_callbacks x) (rx_race_complete x) (rx_winning_attempt_index x)
    (rx_completed_attempts x) (rx_preconnection x).
Definition set_rx_attempts v x : ct_racing_context := ltac:(set_field eta_rx rx_attempts v x).
Definition set_rx_next_attempt_index v x : ct_racing_context := ltac:(set_field eta_rx rx_next_attempt_index v x).
Definition set_rx_race_complete v x : ct_racing_context := ltac:(set_field eta_rx rx_race_complete v x).
Definition set_rx_winning_attempt_index v x : ct_racing_context := ltac:(set_field eta_rx rx_winning_attempt_index v x).
Definition set_rx_completed_attempts v x : ct_racing_context := ltac:(set_field eta_rx rx_completed_attempts v x).

Definition set_at_state s (a : ct_racing_attempt) : ct_racing_attempt :=
  RacingAttempt (at_connection a) (at_candidate a) s.
Definition set_at_connection c (a : ct_racing_attempt) : ct_racing_attempt :=
  RacingAttempt c (at_candidate a) (at_state a).

(** ** The duplicates among the candidates' endpoints *)

Section endpoints.
Context (g_int_hash : bytes -> Z) (g_str_hash : string -> Z).

(** [g_hash_table_contains] in a table with these hash and equality
    functions. *)
Definition g_hash_table_contains (keys : list sockaddr) (key : sockaddr) : bool :=
  let hash := sockaddr_storage_hash g_int_hash g_str_hash in
  existsb (fun k => (hash k =? hash key) && sockaddr_storage_equal k key) keys.

(** One of the two loops of [start_connection_attempt]. *)
Fixpoint unique_endpoints {E} (addr : E -> sockaddr) (copy : E -> M heap (Z * E)) (free_content : E -> M heap unit)
    (l : list (option E)) (keys : list sockaddr) (out : list E) : M heap (Z * list E) :=
  match l with
  | [] => mret (0, out)
  | e :: l =>
      e ← deref e "NULL endpoint of a candidate";
      if g_hash_table_contains keys (addr e) then unique_endpoints addr copy free_content l keys out else
      let null := bool_decide (out = []) in
      ok ← realloc null;
      if negb ok then for_each out free_content ;; when (negb null) free_block ;; mret (- ENOMEM, []) else
      '(rc, c) ← copy e;
      if negb (rc =? 0) then for_each out free_content ;; free_block ;; mret (rc, [])
      else unique_endpoints addr copy free_content l (keys ++ [addr e]) (out ++ [c])
  end.
End endpoints.

(** The position of the attempt's own endpoint in the array, 0 when there is
    none. *)
Definition active_index {E} (addr : E -> sockaddr) (l : list E) (own : sockaddr) : nat :=
  default 0%nat (find_index (fun e => memcmp_eq SOCKADDR_STORAGE_SIZE (addr e) own) l).

Section racing.
Context {W : Type} `{!RaceOps W}.
Context (g_int_hash : bytes -> Z) (g_str_hash : string -> Z).

Definition in_world {A} (m : M W A) : M (race W) A :=
  zoom rs_world (fun w s => Race w (rs_context s) (rs_timer s) (rs_calls s)) m.
Definition on_race_heap {A} (m : M heap A) : M (race W) A := in_world (rop_heap m).

Definition context : M (race W) ct_racing_context :=
  s ← get; deref (rs_context s) "racing context used after free".
Definition update_context (f : ct_racing_context -> ct_racing_context) : M (race W) unit :=
  x ← context; modify (fun s => Race (rs_world s) (Some (f x)) (rs_timer s) (rs_calls s)).
Definition set_timer (t : timer_phase) : M (race W) unit :=
  modify (fun s => Race (rs_world s) (rs_context s) t (rs_calls s)).

Definition attempt_at (i : nat) : M (race W) ct_racing_attempt :=
  x ← context; deref (rx_attempts x !! i) "no such attempt".
Definition update_attempt (i : nat) (f : ct_racing_attempt -> ct_racing_attempt) : M (race W) unit :=
  attempt_at i ;; update_context (fun x => set_rx_attempts (alter f i (rx_attempts x)) x).

(** A call of an application callback. *)
Definition user_call (fn : option callback_fn) (event : connection_event) (connection : option id) : M (race W) unit :=
  match fn with
  | Some fn => modify (fun s => Race (rs_world s) (rs_context s) (rs_timer s)
                                  (rs_calls s ++ [CallConnection fn event connection]))
  | None => mret tt
  end.

(** ** Conclusion of attempts *)

Definition all_attempts_failed (x : ct_racing_context) : bool :=
  forallb (fun a => negb (bool_decide (at_state a <> ATTEMPT_STATE_FAILED) &&
                          bool_decide (at_state a <> ATTEMPT_STATE_CANCELED))) (rx_attempts x).
Definition all_attempts_concluded (x : ct_racing_context) : bool :=
  forallb (fun a => negb (bool_decide (at_state a <> ATTEMPT_STATE_FAILED) &&
                          bool_decide (at_state a <> ATTEMPT_STATE_CANCELED) &&
                          bool_decide (at_state a <> ATTEMPT_STATE_SUCCEEDED))) (rx_attempts x).

(** [uv_close] of the timer: libuv asserts that it is not closing. *)
Definition close_timer : M (race W) unit :=
  s ← get;
  assert_ (bool_decide (rs_timer s = TimerIdle) || bool_decide (rs_timer s = TimerArmed))
    "uv_close on a closing timer" ;;
  set_timer TimerClosing.

(** [uv_timer_stop] on a timer that has not been closed. *)
Definition uv_timer_stop : M (race W) unit :=
  s ← get; when (bool_decide (rs_timer s = TimerArmed)) (set_timer TimerIdle).
(** [uv_timer_start] does nothing on a closing timer. *)
Definition uv_timer_start : M (race W) unit :=
  s ← get; when (bool_decide (rs_timer s = TimerIdle)) (set_timer TimerArmed).

Definition initiate_context_close : M (race W) unit := context ;; uv_timer_stop ;; close_timer.

Definition handle_all_attempts_failed : M (race W) unit :=
  update_context (set_rx_race_complete true) ;;
  x ← context;
  user_call (cb_establishment_error (rx_user_callbacks x)) EstablishmentError None ;;
  initiate_context_close.

Definition handle_concluded_attempt : M (race W) unit :=
  x ← context;
  if all_attempts_failed x then handle_all_attempts_failed
  else if all_attempts_concluded x then initiate_context_close
  else mret tt.

Definition count_completed : M (race W) unit :=
  update_context (fun x => set_rx_completed_attempts (u64 (rx_completed_attempts x + 1)) x).

Definition register_failed_attempt (i : nat) : M (race W) unit :=
  update_attempt i (set_at_state ATTEMPT_STATE_FAILED) ;; count_completed ;; handle_concluded_attempt.
Definition register_canceled_attempt (i : nat) : M (race W) unit :=
  update_attempt i (set_at_state ATTEMPT_STATE_CANCELED) ;; count_completed ;; handle_concluded_attempt.
Definition register_succesful_attempt (i : nat) : M (race W) unit :=
  update_attempt i (set_at_state ATTEMPT_STATE_SUCCEEDED) ;; count_completed ;;
  update_context (set_rx_winning_attempt_index (Z.of_nat i)) ;;
  update_context (set_rx_race_complete true) ;;
  handle_concluded_attempt.

(** ** Callbacks of the attempts' connections *)

(** The attempt that [per_connection_context] points to. *)
Definition attempt_of (connection : id) : M (race W) nat :=
  cbs ← in_world (rop_callbacks connection);
  u ← deref (cb_per_connection_context cbs) "NULL attempt";
  mret (Z.to_nat u).

Definition raced_connection_close_cb (connection : id) : M (race W) unit :=
  i ← attempt_of connection; register_canceled_attempt i.

Definition on_attempt_establishment_error (connection : id) : M (race W) unit :=
  i ← attempt_of connection;
  x ← context;
  if rx_race_complete x then mret tt else register_failed_attempt i.

(** The calls that an operation made, in order: those of the application are
    recorded, those of racing run with [ready] as the handler of
    [racing_on_attempt_ready]. *)
Definition run_call (ready : id -> M (race W) unit) (c : call) : M (race W) unit :=
  match c with
  | CallConnection fn _ (Some conn) =>
      match fn with
      | user_fn _ => modify (fun s => Race (rs_world s) (rs_context s) (rs_timer s) (rs_calls s ++ [c]))
      | World.racing_on_attempt_ready => ready conn
      | World.on_attempt_establishment_error => on_attempt_establishment_error conn
      | World.raced_connection_close_cb => raced_connection_close_cb conn
      end
  | _ => modify (fun s => Race (rs_world s) (rs_context s) (rs_timer s) (rs_calls s ++ [c]))
  end.

(** An operation with the calls it makes. *)
Definition with_calls {A} (ready : id -> M (race W) unit) (m : M W A) : M (race W) A :=
  a ← in_world m;
  calls ← in_world rop_take_calls;
  for_each calls (run_call ready) ;;
  mret a.

(** A second success does nothing: the race is complete when connections are
    closed and messages sent. *)
Definition ready_when_complete (connection : id) : M (race W) unit :=
  attempt_of connection ;;
  x ← context;
  assert_ (rx_race_complete x) "nested ready callback".

(** ** Cancellation *)

Definition cancel_attempt (winning_index i : nat) : M (race W) unit :=
  if bool_decide (i = winning_index) then mret tt else
  a ← attempt_at i;
  match at_state a with
  | ATTEMPT_STATE_CONNECTING =>
      update_attempt i (set_at_state ATTEMPT_STATE_CLOSING) ;;
      c ← deref (at_connection a) "NULL connection of an attempt";
      cbs ← in_world (rop_callbacks c);
      in_world (rop_set_callbacks c
        (ConnectionCallbacks (cb_connection_error cbs) (cb_establishment_error cbs) (cb_path_change cbs)
           (cb_ready cbs) (Some World.raced_connection_close_cb) (cb_send_error cbs) (cb_sent cbs)
           (cb_per_connection_context cbs))) ;;
      with_calls ready_when_complete (rop_close_group c)
  | ATTEMPT_STATE_PENDING => register_canceled_attempt i
  | _ => mret tt
  end.

Definition cancel_all_other_attempts (winning_index : nat) : M (race W) unit :=
  x ← context; for_each (seq 0 (length (rx_attempts x))) (cancel_attempt winning_index).

(** ** Success *)

Definition racing_on_attempt_ready (connection : id) : M (race W) unit :=
  i ← attempt_of connection;
  a ← attempt_at i;
  deref (cn_protocol_candidate (at_candidate a)) "NULL protocol candidate" ;;
  x ← context;
  if rx_race_complete x then mret tt else
  register_succesful_attempt i ;;
  cancel_all_other_attempts i ;;
  x ← context;
  in_world (rop_set_callbacks connection (rx_user_callbacks x)) ;;
  when (negb (rx_should_try_early_data x) && is_Some_b (rx_initial_message x))
    (rc ← with_calls ready_when_complete
            (rop_send_message_full connection (rx_initial_message x) (rx_initial_message_context x));
     when (negb (rc =? 0))
       (with_calls ready_when_complete (rop_message_send_error connection (rx_initial_message_context x) rc))) ;;
  early ← in_world (rop_sent_early_data connection);
  when early
    (with_calls ready_when_complete (rop_message_sent connection (rx_initial_message_context x))) ;;
  cbs ← in_world (rop_callbacks connection);
  user_call (cb_ready cbs) Ready (Some connection).

(** ** Starting attempts *)

Definition start_connection_attempt (i : nat) : M (race W) Z :=
  update_attempt i (set_at_state ATTEMPT_STATE_CONNECTING) ;;
  a ← attempt_at i;
  let candidate := at_candidate a in
  p ← deref (cn_protocol_candidate candidate) "NULL protocol candidate";
  let attempt_callbacks :=
    ConnectionCallbacks None (Some World.on_attempt_establishment_error) None (Some World.racing_on_attempt_ready)
      None None None (Some (Z.of_nat i)) in
  x ← context;
  '(rc, remote_endpoints) ← on_race_heap (unique_endpoints g_int_hash g_str_hash re_resolved_address
     ct_remote_endpoint_copy_content free_remote (cn_remote_endpoint ∘ at_candidate <$> rx_attempts x) [] []);
  if negb (rc =? 0) then mret rc else
  '(rc, local_endpoints) ← on_race_heap (unique_endpoints g_int_hash g_str_hash le_resolved_address
     ct_local_endpoint_copy_content free_local (cn_local_endpoint ∘ at_candidate <$> rx_attempts x) [] []);
  if negb (rc =? 0) then mret rc else
  own_remote ← deref (cn_remote_endpoint candidate) "NULL remote endpoint";
  own_local ← deref (cn_local_endpoint candidate) "NULL local endpoint";
  let active_remote_index := active_index re_resolved_address remote_endpoints (re_resolved_address own_remote) in
  let active_local_index := active_index le_resolved_address local_endpoints (le_resolved_address own_local) in
  deref (remote_endpoints !! active_remote_index) "no active remote endpoint" ;;
  let precon := rx_preconnection x in
  connection ← in_world (rop_create_client (pc_protocol_impl p) local_endpoints active_local_index
    remote_endpoints active_remote_index (ri_transport_properties precon) (ri_security_parameters precon)
    attempt_callbacks (ri_framer_impl precon));
  update_attempt i (set_at_connection connection) ;;
  match connection with
  | None =>
      on_race_heap (ct_local_endpoints_free false local_endpoints) ;;
      on_race_heap (ct_remote_endpoints_free false remote_endpoints) ;;
      mret (- ENOMEM)
  | Some c =>
      when (is_Some_b (ri_security_parameters precon))
        (in_world (rop_clear_alpn c) ;;
         match pc_alpn p with Some alpn => in_world (rop_add_alpn c alpn) | None => mret tt end) ;;
      if rx_should_try_early_data x then
        with_calls racing_on_attempt_ready
          (rop_init_with_send c (rx_initial_message x) (rx_initial_message_context x))
      else with_calls racing_on_attempt_ready (rop_init c)
  end.

Definition initiate_next_attempt : M (race W) unit :=
  x ← context;
  if rx_race_complete x then mret tt else
  let i := rx_next_attempt_index x in
  if (length (rx_attempts x) <=? i)%nat then mret tt else
  a ← attempt_at i;
  deref (cn_protocol_candidate (at_candidate a)) "NULL protocol candidate" ;;
  deref (cn_remote_endpoint (at_candidate a)) "NULL remote endpoint" ;;
  rc ← start_connection_attempt i;
  stop ← (if negb (rc =? 0) then
            register_failed_attempt i ;;
            x ← context;
            if all_attempts_failed x then handle_all_attempts_failed ;; mret true else mret false
          else mret false);
  if stop : bool then mret tt else
  update_context (fun x => set_rx_next_attempt_index (Datatypes.S (rx_next_attempt_index x)) x) ;;
  x ← context;
  when (rx_next_attempt_index x <? length (rx_attempts x))%nat uv_timer_start.

Definition on_stagger_timer : M (race W) unit :=
  x ← context; if rx_race_complete x then mret tt else initiate_next_attempt.

(** ** The context *)

Definition racing_context_free : M (race W) unit := context ;; close_timer.

Definition free_attempt (a : ct_racing_attempt) : M (race W) unit :=
  on_race_heap (ct_protocol_candidate_free (cn_protocol_candidate (at_candidate a))) ;;
  on_race_heap (ct_local_endpoint_free (cn_local_endpoint (at_candidate a))) ;;
  on_race_heap (ct_remote_endpoint_free (cn_remote_endpoint (at_candidate a))) ;;
  match at_connection a with
  | Some c =>
      when (bool_decide (at_state a <> ATTEMPT_STATE_SUCCEEDED))
        (with_calls ready_when_complete (rop_free c))
  | None => mret tt
  end.

(** The close callback of the timer. *)
Definition on_timer_close_free_context : M (race W) unit :=
  set_timer TimerFreed ;;
  on_race_heap free_block ;;
  x ← context;
  when (negb (rx_should_try_early_data x) && is_Some_b (rx_initial_message x))
    (on_race_heap (ct_message_free (rx_initial_message x)) ;;
     on_race_heap (ct_message_context_free (rx_initial_message_context x))) ;;
  for_each (rx_attempts x) free_attempt ;;
  on_race_heap (when (negb (bool_decide (rx_attempts x = []))) free_block) ;;
  modify (fun s => Race (rs_world s) None (rs_timer s) (rs_calls s)) ;;
  on_race_heap free_block.

Definition racing_context_create (user_callbacks : ct_connection_callbacks) (preconnection : race_input)
    (initial_message : option ct_message) (initial_message_context : option ct_message_context)
    (should_try_early_data : bool) : M (race W) bool :=
  ok ← on_race_heap malloc;
  if negb ok then mret false else
  timer ← on_race_heap malloc;
  if negb timer then on_race_heap free_block ;; mret false else
  modify (fun s => Race (rs_world s)
    (Some (RacingContext [] 0 should_try_early_data initial_message initial_message_context user_callbacks false (-1) 0
             preconnection)) TimerIdle (rs_calls s)) ;;
  mret true.

(** [calloc] may fail; the array of candidates gives its contents to the
    attempts.  The result says whether the context has its array. *)
Definition racing_context_initialize_attempt_array (candidate_nodes : list ct_candidate_node) : M (race W) bool :=
  ok ← on_race_heap malloc;
  if negb ok then racing_context_free ;; mret false
  else
    update_context (set_rx_attempts
      ((fun n => RacingAttempt None n ATTEMPT_STATE_PENDING) <$> candidate_nodes)) ;;
    mret true.

(** A failed [calloc] goes unnoticed: the first attempt is read through the
    NULL array. *)
Definition start_candidate_racing_on_nodes_ready (candidate_nodes : option (list ct_candidate_node)) :
    M (race W) unit :=
  x ← context;
  match candidate_nodes with
  | None =>
      user_call (cb_establishment_error (rx_user_callbacks x)) EstablishmentError None ;;
      racing_context_free
  | Some [] =>
      on_race_heap (free_candidate_array []) ;;
      user_call (cb_establishment_error (rx_user_callbacks x)) EstablishmentError None ;;
      racing_context_free
  | Some l =>
      ok ← racing_context_initialize_attempt_array l;
      assert_ ok "NULL array of attempts" ;;
      initiate_next_attempt
  end.

(** ** Events *)

Inductive race_event : Type :=
| TimerFired
| TimerCloseFinished
| RaceLoop (e : rop_event).

(** What the loop may do next with the timer. *)
Definition timer_possible (e : race_event) (s : race W) : bool :=
  match e with
  | TimerFired => bool_decide (rs_timer s = TimerArmed)
  | TimerCloseFinished => bool_decide (rs_timer s = TimerClosing)
  | RaceLoop _ => true
  end.

(** A timer without repetition is idle when its callback runs. *)
Definition run_race_event (e : race_event) : M (race W) unit :=
  match e with
  | TimerFired => set_timer TimerIdle ;; on_stagger_timer
  | TimerCloseFinished => on_timer_close_free_context
  | RaceLoop e => with_calls racing_on_attempt_ready (rop_run_event e)
  end.
(** ** With gathering *)

Section start.
Context (tr : traverse_order -> traverse_flags -> list gnode -> nat -> list nat)
  (sort : (ct_candidate_node -> ct_candidate_node -> Z) -> list ct_candidate_node -> list ct_candidate_node)
  (uv : Z * list (string * sockaddr)) (gai : string -> Z * list (Z * sockaddr)) (uv_getaddrinfo : string -> Z)
  (precon : gather_input).

(** A step of gathering, and the calls it makes of the callback. *)
Definition gathering_step (m : heap -> outcome (Z * gather)) : M (race W) (Z * gather) :=
  '(rc, g) ← on_race_heap (fun h => match m h with
                                    | Ok (rc, g) => Ok ((rc, g), g_heap g)
                                    | UB why => UB why
                                    end);
  for_each (g_calls g) start_candidate_racing_on_nodes_ready ;;
  mret (rc, g).

(** The result is the return code and what gathering still waits for. *)
Definition start_candidate_racing (framer_impl : option ct_framer_impl) (connection_callbacks : ct_connection_callbacks)
    (initial_message : option ct_message) (initial_message_context : option ct_message_context)
    (should_try_early_data : bool) : M (race W) (Z * option gather) :=
  ok ← racing_context_create connection_callbacks
         (RaceInput (gi_transport_properties precon) (gi_security_parameters precon) framer_impl)
         initial_message initial_message_context should_try_early_data;
  if negb ok then mret (- ENOMEM, None) else
  '(rc, g) ← gathering_step (ct_get_ordered_candidate_nodes tr sort uv gai uv_getaddrinfo precon);
  mret (rc, Some g).

(** The completion of a lookup that gathering waits for. *)
Definition race_lookup_done (ctx : nat) (status : Z) (res : list (Z * sockaddr)) (g : gather) : M (race W) gather :=
  '(_, g) ← gathering_step (fun h =>
     match on_uv_getaddrinfo_cb tr sort precon ctx status res (set_g_calls [] (set_g_heap h g)) with
     | Ok (_, g) => Ok (0, g)
     | UB why => UB why
     end);
  mret g.

Definition preconnection_race_with_early_data framer_impl connection_callbacks initial_message initial_message_context :=
  start_candidate_racing framer_impl connection_callbacks initial_message initial_message_context true.
Definition preconnection_race_with_send_after_ready framer_impl connection_callbacks initial_message
    initial_message_context :=
  start_candidate_racing framer_impl connection_callbacks initial_message initial_message_context false.
Definition preconnection_race framer_impl connection_callbacks :=
  start_candidate_racing framer_impl connection_callbacks None None false.
End start.
End racing.

(** ** The program's connections *)

Section instance.
Context `{!Picoquic, !SocketImpl, !CloseImpl, !ProtocolOps, !Framers, !HashOrder}.

(** A change of the connection's own security parameters; the return code is
    ignored. *)
Definition update_security (c : id)
    (f : option ct_security_parameters -> M heap (Z * option ct_security_parameters)) : M world unit :=
  conn ← connection_at c;
  '(_, sec) ← on_heap (f (cn_security_parameters conn));
  update_connection c (set_cn_security_parameters sec).

#[export] Instance ctaps_race_ops : RaceOps world := {
  rop_heap A m := on_heap m;
  rop_create_client p locals i remotes j props sec cbs framer :=
    ct_connection_create_client p (Some locals) i (Some remotes) j (Some props) sec (Some cbs) framer;
  rop_clear_alpn c := update_security c ct_security_parameters_clear_alpn;
  rop_add_alpn c alpn := update_security c (fun sec => ct_security_parameters_add_alpn sec (Some alpn));
  rop_init c := p ← protocol_of c; impl_init p c;
  rop_init_with_send c msg ctx := p ← protocol_of c; impl_init_with_send p c msg ctx;
  rop_close_group c := ct_connection_close_group (Some c);
  rop_free c := ct_connection_free (Some c);
  rop_send_message_full := ct_send_message_full;
  rop_message_send_error := ct_socket_manager_message_send_error_cb;
  rop_message_sent := ct_socket_manager_message_sent_cb;
  rop_sent_early_data c := ct_connection_sent_early_data (Some c);
  rop_callbacks c := conn ← connection_at c; mret (cn_callbacks conn);
  rop_set_callbacks c cbs := update_connection c (set_cn_callbacks cbs);
  rop_take_calls := w ← get; put (set_w_calls [] w) ;; mret (w_calls w);
  rop_event := loop_event;
  rop_run_event := run_event }.
End instance.
