(* ===== verification/RacingEndpoints.v ===== *)
(** The endpoints of a connection attempt.

    The deduplicated copies that [start_connection_attempt] (in
    src/src/candidate_gathering/candidate_racing.c) makes of the candidates'
    endpoints, and the index of the attempt's own among them. *)

From S2P Require Export Racing.
Open Scope Z_scope.

(** ** The endpoints of an attempt *)

Section endpoints.
Context (g_int_hash : bytes -> Z) (g_str_hash : string -> Z).

(** With a compatible hash, the table is searched by equality. *)
Lemma contains_spec keys key :
  g_hash_table_contains g_int_hash g_str_hash keys key = existsb (fun k => sockaddr_storage_equal k key) keys.
Proof.
  unfold g_hash_table_contains. induction keys as [|k keys IH]; [done|]. cbn. rewrite IH. f_equal.
  destruct (sockaddr_storage_equal k key) eqn:He; [|by rewrite andb_false_r].
  by rewrite (sockaddr_storage_hash_compat g_int_hash g_str_hash _ _ He), Z.eqb_refl.
Qed.

Section unique.
Context {E : Type} (addr : E -> sockaddr) (copy : E -> M heap (Z * E)) (free_content : E -> M heap unit)
  (blocks : E -> Z) (Hcopy : copies copy blocks).

(** The first endpoint of every address. *)
Fixpoint distinct (keys : list sockaddr) (es : list E) : list E :=
  match es with
  | [] => []
  | e :: es =>
      if existsb (fun k => sockaddr_storage_equal k (addr e)) keys then distinct keys es
      else e :: distinct (keys ++ [addr e]) es
  end.

Definition array_block (l : list E) : Z := if bool_decide (l = []) then 0 else 1.

Lemma allocs_unique es keys out :
  allocs (unique_endpoints g_int_hash g_str_hash addr copy free_content (Some <$> es) keys out)
    (eq (0, out ++ distinct keys es))
    (fun r => zsum (blocks <$> distinct keys es) + array_block r.2 - array_block out).
Proof.
  revert keys out. induction es as [|e es IH]; intros keys out; cbn [fmap list_fmap unique_endpoints distinct].
  - apply allocs_ret; [by rewrite app_nil_r|]. cbn. lia.
  - eapply allocs_bind_deref; [done|]. rewrite contains_spec. destruct (existsb _ keys); [apply IH|].
    eapply allocs_bind; [apply allocs_realloc|]. intros ? <-. cbn [negb].
    eapply allocs_bind; [by apply allocs_copies|]. intros [rc c] [= <- <-]. cbn [Z.eqb negb].
    eapply allocs_mono; [apply IH|]. intros [rc res] [= <- <-].
    rewrite <- app_assoc. split; [done|]. rewrite fmap_cons, zsum_cons. cbn [snd].
    unfold array_block. rewrite (bool_decide_false (out ++ [e] = [])) by (by destruct out). destruct (bool_decide (out = [])); lia.
Qed.
End unique.
End endpoints.

(** [distinct] keeps the first endpoint of every address: its elements are
    among those of the list in the same order, no two have equal addresses,
    and every address is there. *)
Lemma existsb_equal keys a :
  existsb (fun k => sockaddr_storage_equal k a) keys = true <-> exists k, k ∈ keys /\ sockaddr_storage_equal k a = true.
Proof.
  induction keys as [|k keys IH]; cbn.
  - split; [done|]. by intros (k & []%not_elem_of_nil & _).
  - rewrite orb_true_iff, IH. setoid_rewrite elem_of_cons. naive_solver.
Qed.

Section distinct_facts.
Context {E : Type} (addr : E -> sockaddr).

Lemma distinct_sublist keys es : distinct addr keys es `sublist_of` es.
Proof.
  revert keys. induction es as [|e es IH]; intros keys; cbn; [done|].
  destruct (existsb _ _); [by apply sublist_cons|by apply sublist_skip].
Qed.

Lemma distinct_elem keys es e : e ∈ distinct addr keys es -> e ∈ es.
Proof.
  revert keys. induction es as [|x es IH]; intros keys; cbn; [done|].
  destruct (existsb _ _); [intros He%IH|intros [->|He%IH]%elem_of_cons]; by constructor.
Qed.

Definition different (a b : sockaddr) : Prop := sockaddr_storage_equal a b = false.

Lemma distinct_fresh keys es e k :
  e ∈ distinct addr keys es -> k ∈ keys -> different k (addr e).
Proof.
  revert keys. induction es as [|x es IH]; intros keys; cbn; [by intros []%not_elem_of_nil|].
  destruct (existsb _ _) eqn:Hx; [apply IH|]. intros [->|He]%elem_of_cons Hk.
  - unfold different. destruct (sockaddr_storage_equal k (addr x)) eqn:Hkx; [|done].
    rewrite <- Hx. symmetry. apply existsb_equal. by exists k.
  - apply (IH (keys ++ [addr x])); [done|]. apply elem_of_app. by left.
Qed.

Lemma distinct_different keys es i j a b :
  distinct addr keys es !! i = Some a -> distinct addr keys es !! j = Some b -> (i < j)%nat ->
  different (addr a) (addr b).
Proof.
  revert keys i j. induction es as [|x es IH]; intros keys i j; cbn; [done|].
  destruct (existsb _ _); [apply IH|]. destruct i as [|i], j as [|j]; cbn; intros Hi Hj Hlt; [lia| |lia|].
  - injection Hi as <-. apply (distinct_fresh (keys ++ [addr x]) es); [by eapply list_elem_of_lookup_2|].
    apply elem_of_app. right. by apply list_elem_of_singleton.
  - apply (IH (keys ++ [addr x]) i j); [done..|lia].
Qed.

Lemma distinct_complete keys es e :
  e ∈ es -> (exists k, k ∈ keys /\ sockaddr_storage_equal k (addr e) = true) \/
            (exists o, o ∈ distinct addr keys es /\ sockaddr_storage_equal (addr o) (addr e) = true).
Proof.
  revert keys. induction es as [|x es IH]; intros keys; cbn; [by intros []%not_elem_of_nil|].
  intros He. destruct (existsb _ _) eqn:Hx; apply elem_of_cons in He as [->|He].
  - left. by apply existsb_equal.
  - by apply IH.
  - right. exists x. split; [constructor|]. by apply (reflexivity (R := fun a b => sockaddr_storage_equal a b = true)).
  - destruct (IH (keys ++ [addr x]) He) as [(k & [Hk|Hk]%elem_of_app & Heq)|(o & Ho & Heq)].
    + left. by exists k.
    + apply list_elem_of_singleton in Hk as ->. right. exists x. split; [constructor|done].
    + right. exists o. split; [by constructor|done].
Qed.

Lemma distinct_nonempty es : es <> [] -> distinct addr [] es <> [].
Proof.
  destruct es as [|e es]; [done|]. intros _ Hnil.
  destruct (distinct_complete [] (e :: es) e (list_elem_of_here e es)) as [(k & []%not_elem_of_nil & _)|(o & Ho & _)].
  rewrite Hnil in Ho. by apply not_elem_of_nil in Ho.
Qed.

(** The active index is within the array, and points to the attempt's own
    address when equal addresses are the same bytes. *)
Lemma active_index_valid es own :
  es <> [] -> is_Some (distinct addr [] es !! active_index addr (distinct addr [] es) own).
Proof.
  intros Hes. unfold active_index. destruct (find_index _ _) as [i|] eqn:Hi; cbn.
  - apply find_index_Some in Hi as (x & Hx & _). by eexists.
  - apply distinct_nonempty in Hes. destruct (distinct addr [] es); [done|]. by eexists.
Qed.

Lemma active_index_own es own :
  wf_sockaddr own ->
  (forall e, e ∈ es -> wf_sockaddr (addr e) /\ (sockaddr_storage_equal (addr e) own = true -> addr e = own)) ->
  own ∈ addr <$> es ->
  exists e, distinct addr [] es !! active_index addr (distinct addr [] es) own = Some e /\ addr e = own.
Proof.
  intros Hwf Hcanon (e0 & He0 & Hin)%list_elem_of_fmap.
  destruct (distinct_complete [] es e0 Hin) as [(k & []%not_elem_of_nil & _)|(o & Ho & Heq)].
  rewrite <- He0 in Heq. pose proof (distinct_elem [] es o Ho) as Hoin.
  apply Hcanon in Hoin as [_ Hoin]. specialize (Hoin Heq).
  unfold active_index. destruct (find_index _ _) as [i|] eqn:Hi; cbn.
  - apply find_index_Some in Hi as (x & Hx & Hcmp & _). exists x. split; [done|].
    apply bool_decide_eq_true in Hcmp.
    assert (Hxin : x ∈ es) by (eapply distinct_elem, list_elem_of_lookup_2, Hx).
    destruct (Hcanon x Hxin) as [Hwx _].
    unfold wf_sockaddr in *. destruct Hwf, Hwx. rewrite !firstn_all2 in Hcmp; [done|..]; lia.
  - exfalso. apply (find_index_None _ _) with (x := o) in Hi; [|done].
    apply bool_decide_eq_false in Hi. by rewrite Hoin in Hi.
Qed.
End distinct_facts.

(** What a list of candidates' endpoints must satisfy for the active index to
    be the attempt's own: equal addresses are the same bytes, as they are when
    the bytes after the address proper are always zero. *)
Definition canonical {E} (addr : E -> sockaddr) (es : list E) : Prop :=
  forall e e', e ∈ es -> e' ∈ es -> wf_sockaddr (addr e) /\
    (sockaddr_storage_equal (addr e) (addr e') = true -> addr e = addr e').

(** The arrays built from the endpoints [es], for an attempt whose own
    address is [own]: the result code, the array and the blocks added. *)
Definition endpoints_built {E} (addr : E -> sockaddr) (blocks : E -> Z) (es : list E) (own : sockaddr) (h : heap)
    (r : Z * list E) (h' : heap) : Prop :=
  r.1 = 0 /\ r.2 `sublist_of` es /\
  (forall i j a b, r.2 !! i = Some a -> r.2 !! j = Some b -> (i < j)%nat -> different (addr a) (addr b)) /\
  (forall e, e ∈ es -> exists o, o ∈ r.2 /\ sockaddr_storage_equal (addr o) (addr e) = true) /\
  (exists e, r.2 !! active_index addr r.2 own = Some e /\ addr e = own) /\
  h_live h' = h_live h + zsum (blocks <$> r.2) + 1.

Lemma wp_endpoints {E} gi gs (addr : E -> sockaddr) copy free_content blocks es own h :
  copies copy blocks -> oracle_ok h -> canonical addr es -> own ∈ addr <$> es ->
  wp (unique_endpoints gi gs addr copy free_content (Some <$> es) [] []) (endpoints_built addr blocks es own h) h.
Proof.
  intros Hcopy Ho Hcanon Hown. eapply wp_mono; [by apply (allocs_unique gi gs addr copy free_content blocks)|].
  intros [rc out] h' ([= <- <-] & Ho' & Hl). cbn [app snd] in Hl. unfold endpoints_built. cbn [fst snd app].
  destruct (proj1 (list_elem_of_fmap _ _ _) Hown) as (e0 & -> & He0).
  assert (Hne : es <> []) by (by intros ->; apply not_elem_of_nil in He0).
  split_and!; [done|apply distinct_sublist|apply distinct_different| | |].
  - intros e He. by destruct (distinct_complete addr [] es e He) as [(k & []%not_elem_of_nil & _)|].
  - apply active_index_own; [by apply (Hcanon e0 e0)| |done]. intros e He. by apply Hcanon.
  - rewrite Hl. unfold array_block. rewrite bool_decide_false by (by apply distinct_nonempty). cbn. lia.
Qed.

(** The endpoints of a connection attempt: of the candidates' remote
    (and local) endpoints the attempt's connection gets deep copies of the
    first of every address, in order, without duplicates and with none
    missing, whatever the hash function; and the active index points to the
    attempt's own endpoint, provided equal addresses are the same 128 bytes. *)
Theorem attempt_endpoints_spec gi gs (remotes : list ct_remote_endpoint) (locals : list ct_local_endpoint)
    own_remote own_local h :
  oracle_ok h ->
  canonical re_resolved_address remotes -> own_remote ∈ re_resolved_address <$> remotes ->
  canonical le_resolved_address locals -> own_local ∈ le_resolved_address <$> locals ->
  wp (unique_endpoints gi gs re_resolved_address ct_remote_endpoint_copy_content free_remote (Some <$> remotes) [] [])
    (fun r h1 =>
       endpoints_built re_resolved_address remote_blocks remotes own_remote h r h1 /\
       wp (unique_endpoints gi gs le_resolved_address ct_local_endpoint_copy_content free_local (Some <$> locals) [] [])
         (endpoints_built le_resolved_address local_blocks locals own_local h1) h1) h.
Proof.
  intros Ho Hcr Hr Hcl Hl.
  assert (Hok : wp (unique_endpoints gi gs re_resolved_address ct_remote_endpoint_copy_content free_remote
                      (Some <$> remotes) [] []) (fun _ => oracle_ok) h).
  { eapply wp_mono; [by apply (allocs_unique gi gs re_resolved_address _ _ _ copies_remote)|]. by intros r h1 (_ & ? & _). }
  pose proof (wp_endpoints gi gs _ _ free_remote _ remotes own_remote h copies_remote Ho Hcr Hr) as Hb.
  apply wp_ok in Hok as (r & h1 & Hrun & Hok). unfold wp in *. rewrite Hrun in *. split; [done|].
  by apply wp_endpoints; [apply copies_local|..].
Qed.

Lemma attempt_endpoints_spec_witness :
  let r := RemoteEndpoint 443 None (Some "example.org"%string) loopback_v4 in
  let r' := RemoteEndpoint 80 None None (set_port 80 loopback_v4) in
  let l := LocalEndpoint 0 None None loopback_v4 in
  wp (unique_endpoints be_value (fun _ => 7) re_resolved_address ct_remote_endpoint_copy_content free_remote
        (Some <$> [r; r'; r]) [] [])
    (fun res h1 =>
       endpoints_built re_resolved_address remote_blocks [r; r'; r] (set_port 80 loopback_v4) (Heap [] 0) res h1 /\
       wp (unique_endpoints be_value (fun _ => 7) le_resolved_address ct_local_endpoint_copy_content free_local
             (Some <$> [l]) [] [])
         (endpoints_built le_resolved_address local_blocks [l] loopback_v4 h1) h1) (Heap [] 0).
Proof.
  intros r r' l. apply attempt_endpoints_spec.
  - constructor.
  - assert (H : Forall (fun e => Forall (fun e' => wf_sockaddr (re_resolved_address e) /\
       (sockaddr_storage_equal (re_resolved_address e) (re_resolved_address e') = true ->
        re_resolved_address e = re_resolved_address e')) [r; r'; r]) [r; r'; r]).
    { repeat constructor; try done; intros H; vm_compute in H; discriminate H. }
    intros e e' He He'. rewrite Forall_elem in H. apply H in He. rewrite Forall_elem in He. by apply He.
  - right. left.
  - intros e e' He He'. apply list_elem_of_singleton in He, He'. subst. repeat constructor; done.
  - left.
Defined.

