(* ===== verification/RacingFacts.v ===== *)
(** Racing: correctness.

    The race of Racing, against the contract [RaceContract] of the
    connections it races: no undefined behaviour, at most one notification,
    exactly one once the race is over, a single winner, every other
    connection closed and freed, always something to wait for until then, and
    only so many events. *)

From S2P Require Export RacingEndpoints.
Open Scope Z_scope.

(** ** What racing relies on *)

(** A connection being raced owes racing an event: it will become ready or
    fail, or it is being closed. *)
Inductive stage : Set := Establishing | Shutting.

#[export] Instance stage_eq_dec : EqDecision stage.
Proof. solve_decision. Defined.

(** What racing asks of connections that has to do with the message it was
    given: an initialisation without it or with it, and, with its return code,
    sending it and reporting that it could not be sent. *)
Inductive operation : Type :=
| Initialised (c : id)
| InitialisedWith (c : id) (msg : option ct_message) (ctx : option ct_message_context)
| SentMessage (c : id) (msg : option ct_message) (ctx : option ct_message_context) (rc : Z)
| RefusedMessage (c : id) (ctx : option ct_message_context) (rc : Z).

(** What racing can know of the connections: the events they owe, their
    callbacks and their protocols, which of them are new and which have become
    ready, and the operations so far.  A connection that owes nothing and has
    not become ready is new, or it is closed. *)
Record view := View {
  v_stage : gmap id stage;
  v_cbs : gmap id ct_connection_callbacks;
  v_impl : gmap id ct_protocol_impl;
  v_new : gset id;
  v_open : gset id;
  v_log : list operation }.

Definition created (c : id) (p : ct_protocol_impl) (cbs : ct_connection_callbacks) (v : view) : view :=
  View (v_stage v) (<[c := cbs]> (v_cbs v)) (<[c := p]> (v_impl v)) ({[c]} ∪ v_new v) (v_open v) (v_log v).
Definition owing (c : id) (st : stage) (v : view) : view :=
  View (<[c := st]> (v_stage v)) (v_cbs v) (v_impl v) (v_new v) (v_open v) (v_log v).
Definition settled (c : id) (v : view) : view :=
  View (delete c (v_stage v)) (v_cbs v) (v_impl v) (v_new v ∖ {[c]}) (v_open v) (v_log v).
Definition opened (c : id) (v : view) : view :=
  View (delete c (v_stage v)) (v_cbs v) (v_impl v) (v_new v ∖ {[c]}) ({[c]} ∪ v_open v) (v_log v).
Definition with_cbs (c : id) (cbs : ct_connection_callbacks) (v : view) : view :=
  View (v_stage v) (<[c := cbs]> (v_cbs v)) (v_impl v) (v_new v) (v_open v) (v_log v).
Definition forgotten (c : id) (v : view) : view :=
  View (v_stage v) (delete c (v_cbs v)) (v_impl v) (v_new v) (v_open v) (v_log v).
Definition logged (o : operation) (v : view) : view :=
  View (v_stage v) (v_cbs v) (v_impl v) (v_new v) (v_open v) (v_log v ++ [o]).

(** Calls that are not notifications of the outcome of an establishment. *)
Definition is_user (fn : callback_fn) : bool := match fn with user_fn _ => true | _ => false end.
Definition quiet (c : call) : bool :=
  match c with
  | CallConnection fn ev _ =>
      is_user fn && match ev with Ready | EstablishmentError => false | _ => true end
  | _ => true
  end.

Definition notify (fn : option callback_fn) (ev : connection_event) (c : id) : list call :=
  match fn with Some fn => [CallConnection fn ev (Some c)] | None => [] end.

(** Callbacks of the application. *)
Definition application (cbs : ct_connection_callbacks) : Prop :=
  Forall (fun o => match o with Some fn => is_user fn = true | None => True end)
    [cb_connection_error cbs; cb_establishment_error cbs; cb_path_change cbs; cb_ready cbs; cb_closed cbs;
     cb_send_error cbs; cb_sent cbs].

(** An operation together with the calls it made. *)
Definition calls_of {W} `{!RaceOps W} {A} (m : M W A) : M W (A * list call) :=
  a ← m; l ← rop_take_calls; mret (a, l).

(** The outcome of what connection [c] owes: the calls, and the view then. *)
Definition outcome_of (c : id) (cbs : ct_connection_callbacks) (v : view) (l : list call) (v' : view) : Prop :=
  v_stage v !! c = Some Establishing /\
    (l = notify (cb_ready cbs) Ready c /\ v' = opened c v \/
     l = notify (cb_establishment_error cbs) EstablishmentError c /\ v' = settled c v) \/
  v_stage v !! c = Some Shutting /\ l = notify (cb_closed cbs) Closed c /\ v' = settled c v.

(** [rc_holds v w]: the world [w] is in order (memory suffices in it), and its
    connections look like [v].  [rc_fallible p] says that [p]'s [init] may
    fail synchronously, [rc_allows] and [rc_sends] which connections can be
    created and which messages sent, [rc_left] bounds the events until a
    connection that owes one settles it. *)
Class RaceContract (W : Type) `{!RaceOps W} := {
  rc_holds : view -> W -> Prop;
  rc_fallible : ct_protocol_impl -> bool;
  rc_allows : ct_protocol_impl -> race_input -> Prop;
  rc_sends : option ct_message -> option ct_message_context -> Prop;
  rc_sends_early : option ct_message -> option ct_message_context -> Prop;
  rc_left : id -> W -> nat;
  law_heap {A} (m : M heap A) P v w :
    rc_holds v w -> orderly m P -> wp (rop_heap m) (fun a w' => P a /\ rc_holds v w') w;
  law_create p locals i l remotes j r input cbs v w :
    rc_holds v w -> rc_allows p input -> locals !! i = Some l -> is_inet (le_resolved_address l) = true ->
    remotes !! j = Some r -> is_inet (re_resolved_address r) = true ->
    wp (rop_create_client p locals i remotes j (ri_transport_properties input) (ri_security_parameters input) cbs (ri_framer_impl input))
      (fun o w' => exists c, o = Some c /\ v_stage v !! c = None /\ v_cbs v !! c = None /\ (c ∉ v_open v) /\
         rc_holds (created c p cbs v) w') w;
  law_clear_alpn c v w :
    rc_holds v w -> is_Some (v_cbs v !! c) -> wp (rop_clear_alpn c) (fun _ => rc_holds v) w;
  law_add_alpn c alpn v w :
    rc_holds v w -> is_Some (v_cbs v !! c) -> wp (rop_add_alpn c alpn) (fun _ => rc_holds v) w;
  rc_started p c cbs v (r : Z * list call) (w : W) :=
    r = (0, []) /\ rc_holds (owing c Establishing v) w \/
    r = (0, notify (cb_ready cbs) Ready c) /\ rc_holds (opened c v) w \/
    rc_fallible p = true /\ r.1 <> 0 /\
      (r.2 = [] \/ r.2 = notify (cb_establishment_error cbs) EstablishmentError c) /\ rc_holds v w;
  law_init p c cbs v w :
    rc_holds v w -> v_stage v !! c = None -> c ∈ v_new v -> c ∉ v_open v -> v_cbs v !! c = Some cbs -> v_impl v !! c = Some p ->
    wp (calls_of (rop_init c)) (rc_started p c cbs (logged (Initialised c) v)) w;
  law_init_with_send p c cbs msg ctx v w :
    rc_holds v w -> rc_sends_early msg ctx ->
    v_stage v !! c = None -> c ∈ v_new v -> c ∉ v_open v -> v_cbs v !! c = Some cbs -> v_impl v !! c = Some p ->
    wp (calls_of (rop_init_with_send c msg ctx)) (rc_started p c cbs (logged (InitialisedWith c msg ctx) v)) w;
  law_callbacks c cbs v w :
    rc_holds v w -> v_cbs v !! c = Some cbs -> wp (rop_callbacks c) (fun r w' => r = cbs /\ rc_holds v w') w;
  law_set_callbacks c cbs v w :
    rc_holds v w -> is_Some (v_cbs v !! c) -> wp (rop_set_callbacks c cbs) (fun _ => rc_holds (with_cbs c cbs v)) w;
  law_close_group c cbs v w :
    rc_holds v w -> v_stage v !! c = Some Establishing -> v_cbs v !! c = Some cbs ->
    wp (calls_of (rop_close_group c)) (fun r w' =>
      r.2 = [] /\ rc_holds (owing c Shutting v) w' \/
      r.2 = notify (cb_closed cbs) Closed c /\ rc_holds (settled c v) w') w;
  law_free c v w :
    rc_holds v w -> v_stage v !! c = None -> (c ∉ v_open v) -> is_Some (v_cbs v !! c) ->
    (c ∈ v_new v -> exists p, v_impl v !! c = Some p /\ rc_fallible p = true) ->
    wp (calls_of (rop_free c)) (fun r w' => r.2 = [] /\ rc_holds (forgotten c v) w') w;
  law_send c msg ctx cbs v w :
    rc_holds v w -> rc_sends msg ctx -> v_cbs v !! c = Some cbs -> application cbs ->
    wp (calls_of (rop_send_message_full c msg ctx))
      (fun r w' => forallb quiet r.2 = true /\ rc_holds (logged (SentMessage c msg ctx r.1) v) w') w;
  law_send_error c ctx rc cbs v w :
    rc_holds v w -> v_cbs v !! c = Some cbs -> application cbs ->
    wp (calls_of (rop_message_send_error c ctx rc))
      (fun r w' => forallb quiet r.2 = true /\ rc_holds (logged (RefusedMessage c ctx rc) v) w') w;
  law_sent c ctx cbs v w :
    rc_holds v w -> v_cbs v !! c = Some cbs -> application cbs ->
    wp (calls_of (rop_message_sent c ctx)) (fun r w' => forallb quiet r.2 = true /\ rc_holds v w') w;
  law_early c v w :
    rc_holds v w -> is_Some (v_cbs v !! c) -> wp (rop_sent_early_data c) (fun _ => rc_holds v) w;
  law_event e v w :
    rc_holds v w ->
    wp (calls_of (rop_run_event e)) (fun r w' =>
      forallb quiet r.2 = true /\ rc_holds v w' \/
      exists c cbs, v_cbs v !! c = Some cbs /\
        (v_stage v !! c = Some Establishing /\
           (r.2 = notify (cb_ready cbs) Ready c /\ rc_holds (opened c v) w' \/
            r.2 = notify (cb_establishment_error cbs) EstablishmentError c /\ rc_holds (settled c v) w') \/
         v_stage v !! c = Some Shutting /\ r.2 = notify (cb_closed cbs) Closed c /\ rc_holds (settled c v) w')) w;
  law_owed c cbs st v w :
    rc_holds v w -> v_stage v !! c = Some st -> v_cbs v !! c = Some cbs ->
    exists e, wp (calls_of (rop_run_event e)) (fun r w' =>
      r.2 = [] /\ rc_holds v w' /\ (rc_left c w' < rc_left c w)%nat \/
      exists v', outcome_of c cbs v r.2 v' /\ rc_holds v' w') w }.

(** ** The invariant *)

Section race.
Context {W : Type} `{!RaceOps W, C : !RaceContract W}.
Context (gi : bytes -> Z) (gs : string -> Z).
(** The candidates, the application's callbacks, the connections before the
    race, and what the application raced with. *)
Context (cands : list ct_candidate_node) (ucbs : ct_connection_callbacks) (v0 : view).
Context (input : race_input) (msg : option ct_message) (ctx : option ct_message_context) (early : bool).

(** The callbacks of attempt [i]'s connection, before and after it is
    cancelled. *)
Definition attempt_cbs (i : nat) : ct_connection_callbacks :=
  ConnectionCallbacks None (Some World.on_attempt_establishment_error) None (Some World.racing_on_attempt_ready)
    None None None (Some (Z.of_nat i)).
Definition closing_cbs (i : nat) : ct_connection_callbacks :=
  ConnectionCallbacks None (Some World.on_attempt_establishment_error) None (Some World.racing_on_attempt_ready)
    (Some World.raced_connection_close_cb) None None (Some (Z.of_nat i)).

(** The connection of an attempt owes nothing. *)
Definition idle (v : view) (a : ct_racing_attempt) : Prop :=
  match at_connection a with Some c => v_stage v !! c = None /\ is_Some (v_cbs v !! c) | None => True end.
Definition owes (v : view) (a : ct_racing_attempt) (st : stage) (cbs : ct_connection_callbacks) : Prop :=
  exists c, at_connection a = Some c /\ v_stage v !! c = Some st /\ v_cbs v !! c = Some cbs /\ c ∉ v_open v.
(** It is the application's. *)
Definition live (v : view) (a : ct_racing_attempt) : Prop :=
  idle v a /\ exists c, at_connection a = Some c /\ c ∈ v_open v.
(** It can be freed: it is closed, or its initialisation has failed. *)
Definition freeable (v : view) (c : id) : Prop :=
  (c ∉ v_open v) /\ (c ∈ v_new v -> exists p, v_impl v !! c = Some p /\ rc_fallible p = true).
Definition shut (v : view) (a : ct_racing_attempt) : Prop :=
  idle v a /\ match at_connection a with Some c => freeable v c | None => True end.

Definition attempt_ok (v : view) (i : nat) (a : ct_racing_attempt) : Prop :=
  match at_state a with
  | ATTEMPT_STATE_PENDING => at_connection a = None
  | ATTEMPT_STATE_CONNECTING => owes v a Establishing (attempt_cbs i)
  | ATTEMPT_STATE_CLOSING => owes v a Shutting (closing_cbs i)
  | ATTEMPT_STATE_SUCCEEDED => live v a
  | ATTEMPT_STATE_FAILED | ATTEMPT_STATE_CANCELED => shut v a
  end.

(** All attempts, [exc] apart: their states agree with their connections,
    which are distinct, new, and the only ones that owe an event or whose
    callbacks changed. *)
Record attempts_ok (v : view) (ats : list ct_racing_attempt) (exc : option nat) : Prop := {
  ao_cands : at_candidate <$> ats = cands;
  ao_ok i a : ats !! i = Some a -> exc <> Some i -> attempt_ok v i a;
  ao_distinct i j a b c : ats !! i = Some a -> ats !! j = Some b ->
    at_connection a = Some c -> at_connection b = Some c -> i = j;
  ao_known i a c : ats !! i = Some a -> at_connection a = Some c -> is_Some (v_cbs v !! c);
  ao_owned c st : v_stage v !! c = Some st -> exists i a, ats !! i = Some a /\ at_connection a = Some c /\ exc <> Some i;
  ao_rest c : (forall i a, ats !! i = Some a -> at_connection a <> Some c) -> v_cbs v !! c = v_cbs v0 !! c;
  ao_new i a c : ats !! i = Some a -> at_connection a = Some c -> v_cbs v0 !! c = None }.

Definition states (ats : list ct_racing_attempt) : list ct_attempt_state := at_state <$> ats.
Definition concluded_state (st : ct_attempt_state) : bool :=
  match st with ATTEMPT_STATE_FAILED | ATTEMPT_STATE_CANCELED | ATTEMPT_STATE_SUCCEEDED => true | _ => false end.

(** The notifications of the outcome so far. *)
Definition notes (s : race W) : list call := filter (fun c => quiet c = false) (rs_calls s).

(** Views that agree on a connection. *)
Definition agree (c : id) (v v' : view) : Prop :=
  v_stage v' !! c = v_stage v !! c /\ v_cbs v' !! c = v_cbs v !! c /\ v_impl v' !! c = v_impl v !! c /\
  (c ∈ v_new v' <-> c ∈ v_new v) /\ (c ∈ v_open v' <-> c ∈ v_open v).

Lemma agree_refl c v : agree c v v.
Proof. done. Qed.
Lemma agree_owing c st v c' : c' <> c -> agree c' v (owing c st v).
Proof. intros Hne. unfold agree. cbn. by rewrite lookup_insert_ne by done. Qed.
Lemma agree_settled c v c' : c' <> c -> agree c' v (settled c v).
Proof. intros Hne. unfold agree. cbn. rewrite lookup_delete_ne by done. split_and!; [done..| |done]. set_solver. Qed.
Lemma agree_opened c v c' : c' <> c -> agree c' v (opened c v).
Proof. intros Hne. unfold agree. cbn. rewrite lookup_delete_ne by done. split_and!; [done..| |]; set_solver. Qed.
Lemma agree_created c p cbs v c' : c' <> c -> agree c' v (created c p cbs v).
Proof. intros Hne. unfold agree. cbn. rewrite !lookup_insert_ne by done. split_and!; [done..| |done]. set_solver. Qed.
Lemma agree_with_cbs c cbs v c' : c' <> c -> agree c' v (with_cbs c cbs v).
Proof. intros Hne. unfold agree. cbn. by rewrite lookup_insert_ne by done. Qed.
Lemma agree_trans c v1 v2 v3 : agree c v1 v2 -> agree c v2 v3 -> agree c v1 v3.
Proof. intros (? & ? & ? & ? & ?) (? & ? & ? & ? & ?). unfold agree. split_and!; [congruence..| |]; tauto. Qed.

(** One attempt changes, and with it what its connection owes and its
    connection's callbacks. *)
Lemma change_attempt v v' ats exc exc' i a a' :
  attempts_ok v ats exc -> exc = None \/ exc = Some i -> ats !! i = Some a -> at_candidate a' = at_candidate a ->
  at_connection a = None /\ (forall c, at_connection a' = Some c -> v_cbs v !! c = None) \/
    at_connection a' = at_connection a ->
  (forall j b c, j <> i -> ats !! j = Some b -> at_connection b = Some c -> at_connection a' <> Some c) ->
  (forall c, at_connection a' <> Some c -> agree c v v') ->
  (forall c, at_connection a' = Some c -> is_Some (v_cbs v' !! c)) ->
  exc' = None /\ attempt_ok v' i a' \/
    exc' = Some i /\ (forall c, at_connection a' = Some c -> v_stage v' !! c = None) ->
  attempts_ok v' (<[i := a']> ats) exc'.
Proof.
  intros H Hexc Ha Hcand Hconn Hother Hframe Hknown Hexc'.
  assert (Hlt : (i < length ats)%nat) by (by eapply lookup_lt_Some).
  assert (Hget : forall j b, <[i := a']> ats !! j = Some b -> (j = i /\ b = a') \/ (j <> i /\ ats !! j = Some b)).
  { intros j b Hb. destruct (decide (j = i)) as [->|Hne].
    - rewrite list_lookup_insert_eq in Hb by done. left. by injection Hb as ->.
    - rewrite list_lookup_insert_ne in Hb by done. by right. }
  assert (Hj : forall j b, j <> i -> ats !! j = Some b -> exc <> Some j /\ (forall c, at_connection b = Some c -> agree c v v')).
  { intros j b Hne Hb. split; [by destruct Hexc as [->| ->]; congruence|]. intros c Hc.
    apply Hframe. by eapply Hother. }
  split.
  - rewrite list_fmap_insert, Hcand. rewrite list_insert_id; [apply H|]. by rewrite list_lookup_fmap, Ha.
  - intros j b [[-> ->]|[Hne Hb]]%Hget Hnj; [by destruct Hexc' as [[-> ?]|[-> _]]|].
    destruct (Hj j b Hne Hb) as [Hnexc Hsame]. pose proof (ao_ok _ _ _ H j b Hb Hnexc) as Hok.
    unfold attempt_ok, owes, live, shut, freeable, idle in *. destruct (at_state b); try done.
    1,2: destruct Hok as (c & Hc & ? & ? & ?); exists c; destruct (Hsame c Hc) as (-> & -> & _ & _ & ->); done.
    1: destruct Hok as (Hok & c & Hc & Ho); rewrite Hc in *; destruct (Hsame c eq_refl) as (-> & -> & _ & _ & ?); naive_solver.
    all: destruct (at_connection b) as [c|]; [|done]; destruct (Hsame c eq_refl) as (-> & -> & -> & -> & ->); done.
  - intros j k b d c [[-> ->]|[Hnj Hb]]%Hget [[-> ->]|[Hnk Hd]]%Hget Hcb Hcd; [done| | |by eapply (ao_distinct _ _ _ H)].
    + by destruct (Hother k d c Hnk Hd Hcd).
    + by destruct (Hother j b c Hnj Hb Hcb).
  - intros j b c [[-> ->]|[Hne Hb]]%Hget Hc; [by apply Hknown|].
    destruct (Hj j b Hne Hb) as [_ Hsame]. destruct (Hsame c Hc) as (_ & -> & _). by eapply (ao_known _ _ _ H).
  - intros c st Hst. destruct (decide (at_connection a' = Some c)) as [Hc|Hc].
    + destruct Hexc' as [[-> _]|[_ Hnone]]; [|by rewrite Hnone in Hst]. exists i, a'. by rewrite list_lookup_insert_eq.
    + rewrite (proj1 (Hframe c Hc)) in Hst. destruct (ao_owned _ _ _ H c st Hst) as (j & b & Hb & Hbc & Hnj).
      assert (Hne : j <> i) by (intros ->; destruct Hconn as [[]|]; congruence).
      exists j, b. rewrite list_lookup_insert_ne by done. split_and!; [done..|].
      destruct Hexc' as [[-> _]|[-> _]]; congruence.
  - intros c Hc. assert (Hc' : at_connection a' <> Some c) by (apply (Hc i); by apply list_lookup_insert_eq).
    rewrite (proj1 (proj2 (Hframe c Hc'))). apply (ao_rest _ _ _ H). intros j b Hb. destruct (decide (j = i)) as [->|Hne].
    + destruct Hconn as [[]|]; congruence.
    + apply (Hc j). by rewrite list_lookup_insert_ne.
  - intros j b c [[-> ->]|[Hne Hb]]%Hget Hc; [|by eapply (ao_new _ _ _ H)].
    destruct Hconn as [[_ Hnew]|Hsame]; [|eapply (ao_new _ _ _ H); [exact Ha|congruence]].
    rewrite <- (ao_rest _ _ _ H); [by apply Hnew|]. intros k d Hd Hdc.
    destruct (ao_known _ _ _ H k d c Hd Hdc) as [? Hk]. by rewrite Hnew in Hk.
Qed.

(** Settling the event that the connection of attempt [i] owes. *)
Lemma settle_attempt v v' ats exc i a c :
  v' = settled c v \/ v' = opened c v -> exc = None \/ exc = Some i ->
  attempts_ok v ats exc -> ats !! i = Some a -> at_connection a = Some c -> attempts_ok v' ats (Some i).
Proof.
  intros Hv' Hexc H Ha Hc. rewrite <- (list_insert_id ats i a) by done.
  assert (v_stage v' = delete c (v_stage v) /\ v_cbs v' = v_cbs v) as [Es Ec] by (by destruct Hv' as [-> | ->]).
  eapply change_attempt; [done|done|done|done|by right| | | |right].
  - intros j b c' Hne Hb Hbc Hac. apply Hne. by eapply (ao_distinct _ _ _ H).
  - intros c' Hne. destruct Hv' as [-> | ->]; [apply agree_settled|apply agree_opened]; congruence.
  - intros c' Hc'. rewrite Ec. by eapply (ao_known _ _ _ H).
  - split; [done|]. intros c' Hc'. rewrite Es. replace c' with c by congruence. apply lookup_delete_eq.
Qed.

(** A new state for attempt [i], which its connection satisfies. *)
Lemma set_attempt v ats exc i a st :
  attempts_ok v ats exc -> exc = None \/ exc = Some i -> ats !! i = Some a -> attempt_ok v i (set_at_state st a) ->
  attempts_ok v (<[i := set_at_state st a]> ats) None.
Proof.
  intros H Hexc Ha Hok. eapply change_attempt; [done|done|done|done|by right| |done| |by left].
  - intros j b c Hne Hb Hbc Hac. apply Hne. by eapply (ao_distinct _ _ _ H).
  - intros c Hc. by eapply (ao_known _ _ _ H).
Qed.

(** *** What the connections were asked for *)

Definition initialisation (c : id) : operation := if early then InitialisedWith c msg ctx else Initialised c.

(** The connections of the attempts, in order. *)
Definition connections_of (ats : list ct_racing_attempt) : list id := omap at_connection ats.

(** The connections have been initialised, one after the other, and nothing
    has been sent on them. *)
Definition initialised (ats : list ct_racing_attempt) (v : view) : Prop :=
  v_log v = v_log v0 ++ (initialisation <$> connections_of ats).

(** What the winner is asked for when it is ready: a message that was not given
    to the attempts is sent, and a failure is reported. *)
Definition after_ready (c : id) (l : list operation) : Prop :=
  if negb early && is_Some_b msg
  then exists rc, l = SentMessage c msg ctx rc :: if rc =? 0 then [] else [RefusedMessage c ctx rc]
  else l = [].
Definition delivered (c : id) (ats : list ct_racing_attempt) (v : view) : Prop :=
  c ∈ connections_of ats /\
  exists l, after_ready c l /\ v_log v = v_log v0 ++ (initialisation <$> connections_of ats) ++ l.

Lemma connections_insert ats (i : nat) a b :
  ats !! i = Some a -> at_connection b = at_connection a -> connections_of (<[i := b]> ats) = connections_of ats.
Proof.
  unfold connections_of. intros Ha Hb. revert i Ha. induction ats as [|a' ats IH]; intros [|i] Ha; [done..| |].
  - injection Ha as ->. change (<[0%nat := b]> (a :: ats)) with (b :: ats). cbn. by rewrite Hb.
  - change (<[S i := b]> (a' :: ats)) with (a' :: <[i := b]> ats). cbn [omap list_omap]. by rewrite (IH i Ha).
Qed.

Lemma connections_none ats :
  (forall i a, ats !! i = Some a -> at_connection a = None) -> connections_of ats = [].
Proof.
  unfold connections_of. induction ats as [|a ats IH]; intros H; [done|]. cbn. rewrite (H 0%nat a) by done. apply IH.
  intros i. apply (H (S i)).
Qed.

(** The first attempt without a connection gets one. *)
Lemma connections_new ats (i : nat) a b c :
  ats !! i = Some a -> (forall j d, (i <= j)%nat -> ats !! j = Some d -> at_connection d = None) -> at_connection b = Some c ->
  connections_of (<[i := b]> ats) = connections_of ats ++ [c].
Proof.
  intros Ha Hnone Hb. revert i Ha Hnone. induction ats as [|a' ats IH]; intros [|i] Ha Hnone; [done..| |].
  - change (<[0%nat := b]> (a' :: ats)) with (b :: ats).
    assert (connections_of ats = []) as E by (apply connections_none; intros j d Hd; by apply (Hnone (S j) d); [lia|]).
    unfold connections_of in *. cbn. by rewrite Hb, (Hnone 0%nat a'), E by done.
  - change (<[S i := b]> (a' :: ats)) with (a' :: <[i := b]> ats). unfold connections_of in *. cbn [omap list_omap].
    rewrite (IH i Ha); [by destruct (at_connection a')|]. intros j d Hj Hd. apply (Hnone (S j) d); [lia|done].
Qed.

Lemma connections_elem ats (i : nat) a c : ats !! i = Some a -> at_connection a = Some c -> c ∈ connections_of ats.
Proof. intros Ha Hc. apply list_elem_of_omap. exists a. split; [by eapply list_elem_of_lookup_2|done]. Qed.

(** *** Symbolic execution *)

(** A race with context [x], timer [t] and notifications [ns] over
    connections that look like [v]. *)
Definition input_kept (x : ct_racing_context) : Prop :=
  rx_preconnection x = input /\ rx_initial_message x = msg /\ rx_initial_message_context x = ctx /\ rx_should_try_early_data x = early.

Record at_race (v : view) (x : ct_racing_context) (t : timer_phase) (ns : list call) (s : race W) : Prop := {
  ar_world : rc_holds v (rs_world s);
  ar_context : rs_context s = Some x;
  ar_timer : rs_timer s = t;
  ar_input : input_kept x;
  ar_notes : notes s = ns }.

Lemma wp_context v x t ns s (Q : ct_racing_context -> race W -> Prop) :
  at_race v x t ns s -> Q x s -> wp context Q s.
Proof. intros [_ Hx _ _ _] HQ. unfold context. by wp_steps. Qed.

Lemma wp_update_context f v x t ns s (Q : unit -> race W -> Prop) :
  at_race v x t ns s -> (input_kept x -> input_kept (f x)) -> (forall s', at_race v (f x) t ns s' -> Q tt s') -> wp (update_context f) Q s.
Proof.
  intros H Hf HQ. unfold update_context. wp_steps. eapply wp_context; [exact H|]. wp_steps. apply HQ. destruct H. split; auto.
Qed.

Lemma wp_attempt_at i a v x t ns s (Q : ct_racing_attempt -> race W -> Prop) :
  at_race v x t ns s -> rx_attempts x !! i = Some a -> Q a s -> wp (attempt_at i) Q s.
Proof.
  intros H Ha HQ. unfold attempt_at. wp_steps. eapply wp_context; [exact H|]. by wp_steps.
Qed.

Lemma wp_update_attempt i f a v x t ns s (Q : unit -> race W -> Prop) :
  at_race v x t ns s -> rx_attempts x !! i = Some a ->
  (forall s', at_race v (set_rx_attempts (<[i := f a]> (rx_attempts x)) x) t ns s' -> Q tt s') ->
  wp (update_attempt i f) Q s.
Proof.
  intros H Ha HQ. unfold update_attempt. wp_steps. eapply wp_attempt_at; [exact H|exact Ha|].
  eapply wp_update_context; [exact H|done|]. intros s' Hs'. apply HQ.
  replace (<[i := f a]> (rx_attempts x)) with (alter f i (rx_attempts x)); [done|].
  apply list_eq. intros j. rewrite list_lookup_alter, list_lookup_insert.
  destruct (decide (i = j)) as [->|]; [|by rewrite decide_False by naive_solver].
  rewrite Ha, decide_True by (split; [done|by eapply lookup_lt_Some]). done.
Qed.

Lemma wp_in_world {A} (m : M W A) (P : A -> view -> Prop) v x t ns s (Q : A -> race W -> Prop) :
  at_race v x t ns s ->
  (forall w, rc_holds v w -> wp m (fun a w' => exists v', P a v' /\ rc_holds v' w') w) ->
  (forall a v' s', P a v' -> at_race v' x t ns s' -> Q a s') -> wp (in_world m) Q s.
Proof.
  intros [Hw Hx Ht Hi Hn] Hm HQ. unfold in_world. apply wp_zoom. eapply wp_mono; [by apply Hm|].
  intros a w' (v' & HP & Hw'). by eapply HQ.
Qed.

(** Operations that leave the view alone. *)
Lemma wp_in_world_same {A} (m : M W A) (P : A -> Prop) v x t ns s (Q : A -> race W -> Prop) :
  at_race v x t ns s ->
  (forall w, rc_holds v w -> wp m (fun a w' => P a /\ rc_holds v w') w) ->
  (forall a s', P a -> at_race v x t ns s' -> Q a s') -> wp (in_world m) Q s.
Proof.
  intros H Hm HQ. eapply (wp_in_world m (fun a v' => P a /\ v' = v)); [exact H| |].
  - intros w Hw. eapply wp_mono; [by apply Hm|]. intros a w' [HP Hw']. by exists v.
  - intros a v' s' [HP ->]. by apply HQ.
Qed.

Lemma wp_race_orderly {A} (m : M heap A) P v x t ns s (Q : A -> race W -> Prop) :
  at_race v x t ns s -> orderly m P -> (forall a s', P a -> at_race v x t ns s' -> Q a s') -> wp (on_race_heap m) Q s.
Proof.
  intros H Hm HQ. unfold on_race_heap. eapply wp_in_world_same; [exact H| |exact HQ]. intros w Hw. by apply law_heap.
Qed.

Lemma wp_race_heap {A} (m : M heap A) P n v x t ns s (Q : A -> race W -> Prop) :
  at_race v x t ns s -> allocs m P n -> (forall a s', P a -> at_race v x t ns s' -> Q a s') -> wp (on_race_heap m) Q s.
Proof. intros H Hm. eapply wp_race_orderly; [exact H|]. by eapply allocs_orderly. Qed.

Lemma wp_race_frees (m : M heap unit) n v x t ns s (Q : unit -> race W -> Prop) :
  at_race v x t ns s -> frees m n -> (forall s', at_race v x t ns s' -> Q tt s') -> wp (on_race_heap m) Q s.
Proof. intros H Hm HQ. eapply wp_race_heap; [exact H|by apply allocs_frees|]. intros [] s' _. by apply HQ. Qed.

Lemma notes_app w x t l c : notes (Race w x t (l ++ [c])) = notes (Race w x t l) ++ (if quiet c then [] else [c]).
Proof.
  unfold notes. cbn. rewrite list.filter_app. f_equal. destruct (quiet c) eqn:Hq.
  - by rewrite filter_cons_False by (by rewrite Hq).
  - by rewrite filter_cons_True by done.
Qed.

Lemma wp_user_call fn ev c v x t ns s (Q : unit -> race W -> Prop) :
  at_race v x t ns s ->
  (forall s', at_race v x t (ns ++ filter (fun c => quiet c = false)
     (match fn with Some fn => [CallConnection fn ev c] | None => [] end)) s' -> Q tt s') ->
  wp (user_call fn ev c) Q s.
Proof.
  intros [Hw Hx Ht Hi Hn] HQ. unfold user_call. destruct fn as [fn|].
  - wp_steps. apply HQ. split; [done..|]. rewrite notes_app. f_equal; [by destruct s|].
    destruct (quiet (CallConnection fn ev c)) eqn:Hq.
    + by rewrite filter_cons_False by (by rewrite Hq).
    + by rewrite filter_cons_True by done.
  - wp_steps. apply HQ. split; [done..|]. by rewrite app_nil_r.
Qed.

Lemma wp_close_timer v x t ns s (Q : unit -> race W -> Prop) :
  at_race v x t ns s -> t = TimerIdle \/ t = TimerArmed ->
  (forall s', at_race v x TimerClosing ns s' -> Q tt s') -> wp close_timer Q s.
Proof.
  intros [Hw Hx Ht Hi Hn] Hidle HQ. unfold close_timer. wp_steps.
  - rewrite Ht. by destruct Hidle as [-> | ->].
  - wp_steps. apply HQ. by split.
Qed.

Lemma wp_initiate_context_close v x t ns s (Q : unit -> race W -> Prop) :
  at_race v x t ns s -> t = TimerIdle \/ t = TimerArmed ->
  (forall s', at_race v x TimerClosing ns s' -> Q tt s') -> wp initiate_context_close Q s.
Proof.
  intros H Hidle HQ. unfold initiate_context_close, uv_timer_stop. wp_steps. eapply wp_context; [exact H|]. wp_steps.
  apply wp_when.
  - intros _. wp_steps. eapply wp_close_timer; [|by left|exact HQ]. by destruct H.
  - intros _. eapply wp_close_timer; [exact H|done|exact HQ].
Qed.

(** The calls of an operation. *)
Lemma wp_with_calls {A} ready (m : M W A) (P : A * list call -> view -> Prop) v x t ns s (Q : A -> race W -> Prop) :
  at_race v x t ns s ->
  (forall w, rc_holds v w -> wp (calls_of m) (fun r w' => exists v', P r v' /\ rc_holds v' w') w) ->
  (forall a l v' s', P (a, l) v' -> at_race v' x t ns s' -> wp (for_each l (run_call ready)) (fun _ => Q a) s') ->
  wp (with_calls ready m) Q s.
Proof.
  intros [Hw Hx Ht Hi Hn] Hm HQ. unfold with_calls. wp_steps. specialize (Hm _ Hw).
  unfold calls_of in Hm. unfold in_world. apply wp_bind_inv in Hm. wp_steps.
  eapply wp_mono; [exact Hm|]. intros a w1 H1. cbn. apply wp_bind_inv in H1. wp_steps.
  eapply wp_mono; [exact H1|]. intros l w2 (v' & HP & Hw2). cbn. wp_steps.
  eapply wp_mono; [by eapply HQ|]. intros [] s' HQ'. by wp_steps.
Qed.

Lemma wp_quiet_calls ready l v x t ns s (Q : unit -> race W -> Prop) :
  at_race v x t ns s -> forallb quiet l = true ->
  (forall s', at_race v x t ns s' -> Q tt s') -> wp (for_each l (run_call ready)) Q s.
Proof.
  revert s. induction l as [|c l IH]; intros s H Hq HQ; cbn [for_each].
  - wp_steps. by apply HQ.
  - cbn in Hq. apply andb_true_iff in Hq as [Hc Hl]. wp_steps.
    assert (Hrec : wp (modify (fun s => Race (rs_world s) (rs_context s) (rs_timer s) (rs_calls s ++ [c])))
              (fun _ s' => at_race v x t ns s') s).
    { wp_steps. destruct H as [Hw Hx Ht Hi Hn]. split; [done..|]. rewrite notes_app, Hc. destruct s. cbn in *. by rewrite app_nil_r. }
    destruct c as [fn ev [c|]|fn c m ctx'|fn ev c]; cbn [run_call quiet] in *; try by (eapply wp_mono; [exact Hrec|]; intros [] s' Hs'; by apply IH).
    destruct fn; cbn in Hc; try done. eapply wp_mono; [exact Hrec|]. intros [] s' Hs'. by apply IH.
Qed.

Lemma wp_attempt_of i c cbs v x t ns s (Q : nat -> race W -> Prop) :
  at_race v x t ns s -> v_cbs v !! c = Some cbs -> cb_per_connection_context cbs = Some (Z.of_nat i) ->
  (forall s', at_race v x t ns s' -> Q i s') -> wp (attempt_of c) Q s.
Proof.
  intros H Hcbs Hi HQ. unfold attempt_of. wp_steps. eapply wp_in_world_same; [exact H| |].
  - intros w Hw. by apply law_callbacks.
  - intros r s' -> Hs'. rewrite Hi. wp_steps. rewrite Nat2Z.id. by apply HQ.
Qed.

(** *** After the first success *)

Lemma all_concluded_spec x :
  all_attempts_concluded x = true <->
  forall i a, rx_attempts x !! i = Some a -> concluded_state (at_state a) = true.
Proof.
  unfold all_attempts_concluded. rewrite forallb_forall. split.
  - intros H i a Ha. specialize (H a (proj1 (list_elem_of_In _ _) (list_elem_of_lookup_2 _ _ _ Ha))).
    by destruct (at_state a).
  - intros H a (i & Ha)%list_elem_of_In%list_elem_of_lookup. specialize (H i a Ha). by destruct (at_state a).
Qed.

Definition failed_state (st : ct_attempt_state) : bool :=
  match st with ATTEMPT_STATE_FAILED | ATTEMPT_STATE_CANCELED => true | _ => false end.

Lemma all_failed_spec x :
  all_attempts_failed x = true <->
  forall i a, rx_attempts x !! i = Some a -> failed_state (at_state a) = true.
Proof.
  unfold all_attempts_failed. rewrite forallb_forall. split.
  - intros H i a Ha. specialize (H a (proj1 (list_elem_of_In _ _) (list_elem_of_lookup_2 _ _ _ Ha))).
    by destruct (at_state a).
  - intros H a (i & Ha)%list_elem_of_In%list_elem_of_lookup. specialize (H i a Ha). by destruct (at_state a).
Qed.

(** The timer is being closed exactly when every attempt is concluded. *)
Definition open_timer (t : timer_phase) : Prop := t = TimerIdle \/ t = TimerArmed.
Definition timer_ok (x : ct_racing_context) (t : timer_phase) : Prop :=
  if all_attempts_concluded x then t = TimerClosing else open_timer t.

(** The fields that the end of a race leaves alone. *)
Definition input_of (x : ct_racing_context) : ct_racing_context :=
  set_rx_completed_attempts 0 (set_rx_attempts [] x).

Definition winner (w : nat) (x : ct_racing_context) : Prop :=
  exists a, rx_attempts x !! w = Some a /\ at_state a = ATTEMPT_STATE_SUCCEEDED.

Lemma winner_not_failed w x : winner w x -> all_attempts_failed x = false.
Proof.
  intros (a & Ha & Hst). apply not_true_iff_false. intros H. apply (proj1 (all_failed_spec x) H) in Ha. by rewrite Hst in Ha.
Qed.

Lemma wp_concluded_won v x t ns w s (Q : unit -> race W -> Prop) :
  at_race v x t ns s -> winner w x -> open_timer t ->
  (forall t' s', timer_ok x t' -> at_race v x t' ns s' -> Q tt s') -> wp handle_concluded_attempt Q s.
Proof.
  intros H Hw Ht HQ. unfold handle_concluded_attempt. wp_steps. eapply wp_context; [exact H|].
  rewrite (winner_not_failed w) by done. destruct (all_attempts_concluded x) eqn:Hc.
  - eapply wp_initiate_context_close; [exact H|done|]. intros s' Hs'. eapply HQ; [|exact Hs']. unfold timer_ok. by rewrite Hc.
  - wp_steps. eapply HQ; [|exact H]. unfold timer_ok. by rewrite Hc.
Qed.

Lemma wp_register_canceled v x t ns w i a s (Q : unit -> race W -> Prop) :
  at_race v x t ns s -> winner w x -> i <> w -> rx_attempts x !! i = Some a -> open_timer t ->
  (forall x' t' s', rx_attempts x' = <[i := set_at_state ATTEMPT_STATE_CANCELED a]> (rx_attempts x) ->
     input_of x' = input_of x -> timer_ok x' t' -> at_race v x' t' ns s' -> Q tt s') ->
  wp (register_canceled_attempt i) Q s.
Proof.
  intros H (aw & Haw & Hst) Hne Ha Ht HQ. unfold register_canceled_attempt, count_completed. wp_steps.
  eapply wp_update_attempt; [exact H|exact Ha|]. intros s1 H1. wp_steps.
  eapply wp_update_context; [exact H1|done|]. intros s2 H2.
  eapply (wp_concluded_won _ _ _ _ w _ _ H2); [|done|].
  - exists aw. split; [|done]. cbn. by rewrite list_lookup_insert_ne.
  - intros t' s' Ht' Hs'. eapply HQ; [| |exact Ht'|exact Hs']; done.
Qed.

(** The attempts that have been looked at are stopping or stopped; the others
    are as they were before the success. *)
Definition stopped (st : ct_attempt_state) : bool :=
  match st with ATTEMPT_STATE_CLOSING | ATTEMPT_STATE_FAILED | ATTEMPT_STATE_CANCELED => true | _ => false end.
Definition running (st : ct_attempt_state) : bool :=
  match st with ATTEMPT_STATE_PENDING | ATTEMPT_STATE_CONNECTING | ATTEMPT_STATE_FAILED => true | _ => false end.

Record won_at (w j : nat) (v : view) (x : ct_racing_context) : Prop := {
  wo_ok : attempts_ok v (rx_attempts x) None;
  wo_complete : rx_race_complete x = true;
  wo_winner : winner w x;
  wo_before i a : rx_attempts x !! i = Some a -> i <> w -> (i < j)%nat -> stopped (at_state a) = true;
  wo_after i a : rx_attempts x !! i = Some a -> i <> w -> (j <= i)%nat -> running (at_state a) = true }.

(** What the winner's connection looks like is not touched by the others. *)
Definition same_winner (w : nat) (v v' : view) (x x' : ct_racing_context) : Prop :=
  rx_attempts x' !! w = rx_attempts x !! w /\
  (forall a c, rx_attempts x !! w = Some a -> at_connection a = Some c -> v_cbs v' !! c = v_cbs v !! c) /\
  v_log v' = v_log v /\ connections_of (rx_attempts x') = connections_of (rx_attempts x).

Lemma same_winner_refl w v x : same_winner w v v x x.
Proof. done. Qed.

Lemma same_winner_trans w v1 v2 v3 x1 x2 x3 :
  same_winner w v1 v2 x1 x2 -> same_winner w v2 v3 x2 x3 -> same_winner w v1 v3 x1 x3.
Proof.
  intros (Ha & H1 & El1 & Ec1) (Hb & H2 & El2 & Ec2). split_and!; [congruence| |congruence..].
  intros a c Hac Hc. rewrite <- (H1 a c) by done. apply (H2 a c); congruence.
Qed.

Lemma open_before x t i a :
  timer_ok x t -> rx_attempts x !! i = Some a -> concluded_state (at_state a) = false -> open_timer t.
Proof.
  unfold timer_ok. intros Ht Ha Hst. destruct (all_attempts_concluded x) eqn:Hc; [|done].
  rewrite (proj1 (all_concluded_spec x) Hc i a Ha) in Hst. done.
Qed.

Lemma timer_ok_open x t i a :
  open_timer t -> rx_attempts x !! i = Some a -> concluded_state (at_state a) = false -> timer_ok x t.
Proof.
  unfold timer_ok. intros Ht Ha Hst. destruct (all_attempts_concluded x) eqn:Hc; [|done].
  rewrite (proj1 (all_concluded_spec x) Hc i a Ha) in Hst. done.
Qed.

(** The next attempt has been dealt with. *)
Lemma won_next w i v v' x x' a st :
  won_at w i v x -> i <> w -> rx_attempts x !! i = Some a -> stopped st = true ->
  rx_attempts x' = <[i := set_at_state st a]> (rx_attempts x) -> input_of x' = input_of x ->
  attempts_ok v' (rx_attempts x') None -> won_at w (S i) v' x'.
Proof.
  intros Hw Hne Ha Hst Hats Hin Hok.
  assert (Hlt : (i < length (rx_attempts x))%nat) by (by eapply lookup_lt_Some).
  assert (Hcomplete : rx_race_complete x' = rx_race_complete x) by (by apply (f_equal rx_race_complete) in Hin).
  split; [done|by rewrite Hcomplete; apply (wo_complete _ _ _ _ Hw)| | |].
  - destruct Hw as [_ _ (aw & Haw & Hstw) _ _]. exists aw. by rewrite Hats, list_lookup_insert_ne.
  - intros k b. rewrite Hats. destruct (decide (k = i)) as [->|Hk].
    + rewrite list_lookup_insert_eq by done. by intros [= <-] _ _.
    + rewrite list_lookup_insert_ne by done. intros Hb Hkw Hlt'. apply (wo_before _ _ _ _ Hw k b); [done..|lia].
  - intros k b. rewrite Hats. intros Hb Hkw Hle. rewrite list_lookup_insert_ne in Hb by lia.
    apply (wo_after _ _ _ _ Hw k b); [done..|lia].
Qed.

(** An attempt that needs nothing, or is the winner. *)
Lemma won_skip w i v x :
  won_at w i v x -> (forall a, rx_attempts x !! i = Some a -> i <> w -> stopped (at_state a) = true) -> won_at w (S i) v x.
Proof.
  intros Hw Hi. split; try apply Hw.
  - intros k b Hb Hkw Hlt. destruct (decide (k = i)) as [->|]; [by apply Hi|]. apply (wo_before _ _ _ _ Hw k b); [done..|lia].
  - intros k b Hb Hkw Hle. apply (wo_after _ _ _ _ Hw k b); [done..|lia].
Qed.


(** The closed callback of a cancelled attempt. *)
Lemma wp_raced_close v x t ns w i a c s (Q : unit -> race W -> Prop) :
  at_race v x t ns s -> winner w x -> i <> w -> rx_attempts x !! i = Some a -> at_connection a = Some c ->
  v_cbs v !! c = Some (closing_cbs i) -> v_stage v !! c = None -> freeable v c -> attempts_ok v (rx_attempts x) (Some i) -> open_timer t ->
  (forall x' t' s', rx_attempts x' = <[i := set_at_state ATTEMPT_STATE_CANCELED a]> (rx_attempts x) ->
     input_of x' = input_of x -> timer_ok x' t' -> attempts_ok v (rx_attempts x') None -> at_race v x' t' ns s' -> Q tt s') ->
  wp (raced_connection_close_cb c) Q s.
Proof.
  intros H Hw Hne Ha Hc Hcbs Hst Hopen Hok Ht HQ. unfold raced_connection_close_cb. wp_steps.
  eapply wp_attempt_of; [exact H|exact Hcbs|done|]. intros s1 H1.
  eapply wp_register_canceled; [exact H1|exact Hw|done|exact Ha|done|].
  intros x' t' s' Hats Hin Ht' Hs'. eapply HQ; [exact Hats|exact Hin|exact Ht'| |exact Hs'].
  rewrite Hats. eapply set_attempt; [exact Hok|by right|done|]. unfold attempt_ok, shut, idle. cbn. rewrite Hc. split; [|done]. by eexists.
Qed.

Lemma wp_cancel_attempt w i v x t ns s (Q : unit -> race W -> Prop) :
  at_race v x t ns s -> won_at w i v x -> timer_ok x t -> (i < length (rx_attempts x))%nat ->
  (forall v' x' t' s', won_at w (S i) v' x' -> timer_ok x' t' -> input_of x' = input_of x ->
     same_winner w v v' x x' -> at_race v' x' t' ns s' -> Q tt s') ->
  wp (cancel_attempt w i) Q s.
Proof.
  intros H Hwon Ht Hlt HQ. unfold cancel_attempt. destruct (decide (i = w)) as [->|Hne].
  { rewrite bool_decide_true by done. wp_steps. eapply HQ; [|exact Ht|done|done|exact H]. by apply won_skip. }
  rewrite bool_decide_false by done. apply lookup_lt_is_Some in Hlt as [a Ha]. wp_steps.
  eapply wp_attempt_at; [exact H|exact Ha|]. pose proof (wo_after _ _ _ _ Hwon i a Ha Hne ltac:(done)) as Hrun.
  pose proof (ao_ok _ _ _ (wo_ok _ _ _ _ Hwon) i a Ha ltac:(done)) as Hok.
  pose proof (wo_winner _ _ _ _ Hwon) as (aw & Haw & Hstw).
  unfold attempt_ok in Hok. destruct (at_state a) eqn:Hst; try done.
  - (* pending *)
    eapply wp_register_canceled; [exact H|by exists aw|done|exact Ha|by eapply open_before; [..|rewrite Hst]|].
    intros x' t' s' Hats Hin Ht' Hs'. eapply HQ; [|exact Ht'|exact Hin| |exact Hs'].
    + eapply won_next; [exact Hwon|done|exact Ha| |exact Hats|exact Hin|]; [done|]. rewrite Hats.
      eapply set_attempt; [apply Hwon|by left|done|]. unfold attempt_ok, shut, idle. cbn. by rewrite Hok.
    + split_and!; [by rewrite Hats, list_lookup_insert_ne|done|done|]. rewrite Hats. by eapply connections_insert.
  - (* connecting *)
    destruct Hok as (c & Hc & Hstage & Hcbs & Hshut). wp_steps.
    eapply wp_update_attempt; [exact H|exact Ha|]. intros s1 H1. wp_steps.
    eapply wp_in_world_same; [exact H1| |]; [intros w1 Hw1; by eapply law_callbacks|].
    intros r s2 -> H2. wp_steps. cbn [attempt_cbs cb_connection_error cb_establishment_error cb_path_change cb_ready
      cb_closed cb_send_error cb_sent cb_per_connection_context]. fold (closing_cbs i).
    eapply (wp_in_world _ (fun _ v' => v' = with_cbs c (closing_cbs i) v)); [exact H2| |].
    { intros w1 Hw1. eapply wp_mono; [eapply law_set_callbacks; [exact Hw1|by eexists]|]. intros [] w2 Hw2. by eexists. }
    intros [] v' s3 -> H3. wp_steps.
    assert (Hcb' : v_cbs (with_cbs c (closing_cbs i) v) !! c = Some (closing_cbs i)) by apply lookup_insert_eq.
    assert (Hother : forall j b c', j <> i -> rx_attempts x !! j = Some b -> at_connection b = Some c' -> Some c <> Some c').
    { intros j b c' Hj Hb Hbc [= <-]. apply Hj. by eapply (ao_distinct _ _ _ (wo_ok _ _ _ _ Hwon)). }
    eapply (wp_with_calls _ _ (fun r v' => r.2 = [] /\ v' = owing c Shutting (with_cbs c (closing_cbs i) v) \/
       r.2 = notify (Some World.raced_connection_close_cb) Closed c /\ v' = settled c (with_cbs c (closing_cbs i) v)));
      [exact H3| |].
    { intros w1 Hw1. eapply wp_mono; [by eapply (law_close_group c)|].
      intros r w2 [[Hr Hw2]|[Hr Hw2]]; eexists; (split; [|exact Hw2]); [by left|by right]. }
    intros [] l v' s4 [[Hl ->]|[Hl ->]] H4; cbn [snd] in Hl; subst l; cbn [for_each notify].
    + wp_steps. apply (fun p1 p2 p3 p4 => HQ _ _ _ _ p1 p2 p3 p4 H4); [| |done|].
      * eapply (won_next _ _ v _ x _ a ATTEMPT_STATE_CLOSING); [exact Hwon|done|exact Ha|done|done|done|].
        eapply change_attempt; [apply Hwon|by left|exact Ha|done|by right|by rewrite <- Hc in Hother| | |left; split; [done|]].
        -- intros c' Hne'. eapply agree_trans; [apply (agree_with_cbs c (closing_cbs i))|apply agree_owing]; intros ->; by apply Hne'.
        -- intros c' Hc'. cbn in Hc' |- *. replace c' with c by congruence. rewrite lookup_insert_eq. by eexists.
        -- exists c. cbn. by rewrite !lookup_insert_eq.
      * eapply (timer_ok_open _ _ i); [by eapply open_before; [..|rewrite Hst]| |]; [by apply list_lookup_insert_eq; eapply lookup_lt_Some|done].
      * split_and!; [by cbn; rewrite list_lookup_insert_ne| |done|by eapply connections_insert].
        intros b c' Hb Hc'. cbn. apply lookup_insert_ne. intros <-. by eapply (Hother w b c).
    + wp_steps. cbn [run_call].
      assert (Hsettled : attempts_ok (settled c (with_cbs c (closing_cbs i) v))
                (<[i := set_at_state ATTEMPT_STATE_CLOSING a]> (rx_attempts x)) (Some i)).
      { eapply change_attempt; [apply Hwon|by left|exact Ha|done|by right|by rewrite <- Hc in Hother| | |right; split; [done|]].
        - intros c' Hne'. eapply agree_trans; [apply (agree_with_cbs c (closing_cbs i))|apply agree_settled]; intros ->; by apply Hne'.
        - intros c' Hc'. cbn in Hc' |- *. replace c' with c by congruence. rewrite lookup_insert_eq. by eexists.
        - intros c' Hc'. cbn in Hc' |- *. replace c' with c by congruence. apply lookup_delete_eq. }
      eapply (wp_raced_close _ _ _ _ w i (set_at_state ATTEMPT_STATE_CLOSING a) c);
        [exact H4| |done| |done|exact Hcb'|apply lookup_delete_eq|split; cbn; [exact Hshut|set_solver]|exact Hsettled|by eapply open_before; [..|rewrite Hst]|].
      * exists aw. cbn. by rewrite list_lookup_insert_ne.
      * apply list_lookup_insert_eq. by eapply lookup_lt_Some.
      * intros x' t' s' Hats Hin Ht' Hok' Hs'. cbn in Hats. rewrite list_insert_insert_eq in Hats. wp_steps.
        eapply HQ; [| exact Ht'| | |exact Hs'].
        -- eapply (won_next _ _ v _ x _ a ATTEMPT_STATE_CANCELED); [exact Hwon|done|exact Ha|done|exact Hats|by rewrite Hin|done].
        -- by rewrite Hin.
        -- split_and!; [by rewrite Hats, list_lookup_insert_ne| |done|rewrite Hats; by eapply connections_insert].
           intros b c' Hb Hc'. cbn. apply lookup_insert_ne. intros <-. by eapply (Hother w b c).
  - (* failed *)
    wp_steps. eapply HQ; [|exact Ht|done|apply same_winner_refl|exact H].
    apply won_skip; [done|]. intros a' Ha' _. replace a' with a by congruence. by rewrite Hst.
Qed.



Lemma wp_cancel_all w v x t ns s (Q : unit -> race W -> Prop) :
  at_race v x t ns s -> won_at w 0 v x -> timer_ok x t ->
  (forall v' x' t' s', won_at w (length cands) v' x' -> timer_ok x' t' -> input_of x' = input_of x ->
     same_winner w v v' x x' -> at_race v' x' t' ns s' -> Q tt s') ->
  wp (cancel_all_other_attempts w) Q s.
Proof.
  intros H Hwon Ht HQ. unfold cancel_all_other_attempts. wp_steps. eapply wp_context; [exact H|].
  assert (Hlen : forall v x, won_at w 0 v x \/ (exists j, won_at w j v x) -> length (rx_attempts x) = length cands).
  { intros v9 x9 Hx9. assert (Hc : at_candidate <$> rx_attempts x9 = cands) by (destruct Hx9 as [[[] _ _ _ _]|[j [[] _ _ _ _]]]; done).
    by rewrite <- Hc, length_fmap. }
  rewrite (Hlen v x) by by left.
  assert (Hgen : forall k j v1 x1 t1 s1, (j + k = length cands)%nat -> won_at w j v1 x1 -> timer_ok x1 t1 ->
    input_of x1 = input_of x -> same_winner w v v1 x x1 -> at_race v1 x1 t1 ns s1 ->
    wp (for_each (seq j k) (cancel_attempt w)) Q s1).
  { induction k as [|k IH]; intros j v1 x1 t1 s1 Hj Hw1 Ht1 Hin1 Hs1 H1; cbn [seq for_each].
    - wp_steps. replace j with (length cands) in Hw1 by lia. by eapply HQ.
    - wp_steps. eapply wp_cancel_attempt; [exact H1|exact Hw1|exact Ht1| |].
      + rewrite (Hlen v1 x1) by (right; by eexists). lia.
      + intros v2 x2 t2 s2 Hw2 Ht2 Hin2 Hs2 H2. eapply (IH (S j)); [lia|exact Hw2|exact Ht2|congruence| |exact H2].
        by eapply same_winner_trans. }
  eapply (Hgen _ 0%nat); [done|exact Hwon|exact Ht|done|apply same_winner_refl|exact H].
Qed.

(** *** The first success *)

(** The state in which attempt [i] has just become ready: it owes nothing
    any more, and the others are as they were. *)
Record ready_at (i : nat) (c : id) (v : view) (x : ct_racing_context) : Prop := {
  re_ok : attempts_ok v (rx_attempts x) (Some i);
  re_open : rx_race_complete x = false;
  re_user : rx_user_callbacks x = ucbs;
  re_attempt : exists a, rx_attempts x !! i = Some a /\ at_connection a = Some c /\
    at_state a = ATTEMPT_STATE_CONNECTING /\ is_Some (cn_protocol_candidate (at_candidate a));
  re_cbs : v_cbs v !! c = Some (attempt_cbs i);
  re_stage : v_stage v !! c = None;
  re_live : c ∈ v_open v;
  re_others j b : rx_attempts x !! j = Some b -> running (at_state b) = true }.

(** The race is won: attempt [w]'s connection [c] is the application's. *)
Record won (w : nat) (c : id) (v : view) (x : ct_racing_context) : Prop := {
  wn_at : won_at w (length cands) v x;
  wn_connection : exists a, rx_attempts x !! w = Some a /\ at_connection a = Some c;
  wn_cbs : v_cbs v !! c = Some ucbs }.

Lemma wp_register_succesful i c v x t ns s (Q : unit -> race W -> Prop) :
  at_race v x t ns s -> ready_at i c v x -> open_timer t ->
  (forall x' t' s', won_at i 0 v x' -> timer_ok x' t' ->
     input_of x' = input_of (set_rx_race_complete true (set_rx_winning_attempt_index (Z.of_nat i) x)) ->
     (exists a, rx_attempts x' !! i = Some a /\ at_connection a = Some c) ->
     connections_of (rx_attempts x') = connections_of (rx_attempts x) -> at_race v x' t' ns s' -> Q tt s') ->
  wp (register_succesful_attempt i) Q s.
Proof.
  intros H Hr Ht HQ. destruct (re_attempt _ _ _ _ Hr) as (a & Ha & Hc & Hst & _).
  assert (Hlt : (i < length (rx_attempts x))%nat) by (by eapply lookup_lt_Some).
  unfold register_succesful_attempt, count_completed. wp_steps.
  eapply wp_update_attempt; [exact H|exact Ha|]. intros s1 H1. wp_steps.
  eapply wp_update_context; [exact H1|done|]. intros s2 H2. wp_steps.
  eapply wp_update_context; [exact H2|done|]. intros s3 H3. wp_steps.
  eapply wp_update_context; [exact H3|done|]. intros s4 H4.
  assert (Hw : winner i (set_rx_attempts (<[i := set_at_state ATTEMPT_STATE_SUCCEEDED a]> (rx_attempts x)) x)).
  { eexists. cbn. by rewrite list_lookup_insert_eq. }
  eapply (wp_concluded_won _ _ _ _ i _ _ H4); [exact Hw|exact Ht|].
  intros t' s' Ht' Hs'. apply (fun p1 p2 p3 p4 p5 => HQ _ _ _ p1 p2 p3 p4 p5 Hs'); [|exact Ht'|done| |by eapply connections_insert].
  - split; [|done|exact Hw|lia|].
    + eapply set_attempt; [apply Hr|by right|exact Ha|]. unfold attempt_ok, live, idle. cbn. rewrite Hc.
      split; [split; [apply Hr|eexists; apply Hr]|]. exists c. split; [done|apply Hr].
    + intros k b Hb Hk _. cbn in Hb. rewrite list_lookup_insert_ne in Hb by done. by eapply (re_others _ _ _ _ Hr).
  - eexists. cbn. rewrite list_lookup_insert_eq by done. split; [done|]. exact Hc.
Qed.

(** The winner's part of the state survives what does not concern it. *)
Lemma won_cbs w c v cbs x :
  won_at w (length cands) v x -> (exists a, rx_attempts x !! w = Some a /\ at_connection a = Some c) ->
  cbs = ucbs -> won w c (with_cbs c cbs v) x.
Proof.
  intros Hw (a & Ha & Hc) ->. split; [|by exists a|apply lookup_insert_eq].
  destruct (wo_winner _ _ _ _ Hw) as (aw & Haw & Hst). replace aw with a in * by congruence.
  split; try apply Hw. rewrite <- (list_insert_id (rx_attempts x) w a) by done.
  pose proof (ao_ok _ _ _ (wo_ok _ _ _ _ Hw) w a Ha ltac:(done)) as Hok.
  eapply change_attempt; [apply Hw|by left|exact Ha|done|by right| | | |left; split; [done|]].
  - intros j b c' Hj Hb Hbc Hac. apply Hj. by eapply (ao_distinct _ _ _ (wo_ok _ _ _ _ Hw)).
  - intros c' Hne. apply agree_with_cbs. congruence.
  - intros c' Hc'. cbn. replace c' with c by congruence. rewrite lookup_insert_eq. by eexists.
  - unfold attempt_ok, live, idle in *. rewrite Hst, Hc in *. destruct Hok as [[? _] Hop]. split; [|exact Hop]. split; [done|].
    cbn. rewrite lookup_insert_eq. by eexists.
Qed.

(** The application's callbacks are its own, and its message can be sent. *)
Context (Happ : application ucbs).
Context (Hsends : early = false -> is_Some msg -> rc_sends msg ctx) (Hearly : early = true -> rc_sends_early msg ctx).

Lemma application_ready c : filter (fun c => quiet c = false) (notify (cb_ready ucbs) Ready c) = notify (cb_ready ucbs) Ready c.
Proof.
  unfold notify. destruct (cb_ready ucbs) as [fn|]; [|done]. rewrite filter_cons_True; [done|].
  cbn. by rewrite andb_false_r.
Qed.

Lemma won_at_known w v x a c :
  won_at w (length cands) v x -> rx_attempts x !! w = Some a -> at_connection a = Some c -> is_Some (v_cbs v !! c).
Proof. intros Hw Ha Hc. by eapply (ao_known _ _ _ (wo_ok _ _ _ _ Hw)). Qed.

(** An operation of the winner that only makes quiet calls. *)
Lemma wp_winner_quiet {A} ready (m : M W A) (f : A -> view) c cbs v x t ns s (Q : A -> race W -> Prop) :
  at_race v x t ns s -> v_cbs v !! c = Some cbs ->
  (forall w, rc_holds v w -> v_cbs v !! c = Some cbs ->
     wp (calls_of m) (fun r w' => forallb quiet r.2 = true /\ rc_holds (f r.1) w') w) ->
  (forall a s', at_race (f a) x t ns s' -> Q a s') -> wp (with_calls ready m) Q s.
Proof.
  intros H Hc Hm HQ. eapply (wp_with_calls _ _ (fun r v' => forallb quiet r.2 = true /\ v' = f r.1)); [exact H| |].
  - intros w Hw. eapply wp_mono; [by apply Hm|]. intros r w' [Hq Hw']. by exists (f r.1).
  - intros a l v' s' [Hq ->] Hs'. eapply wp_quiet_calls; [exact Hs'|exact Hq|]. intros s''. apply HQ.
Qed.

(** What the end of the race leaves alone, seen from before it. *)
Definition completed (i : nat) (x x' : ct_racing_context) : Prop :=
  input_of x' = input_of (set_rx_race_complete true (set_rx_winning_attempt_index (Z.of_nat i) x)).

(** The record of the operations is not a part of the state of the race. *)
Lemma attempts_logged o v ats exc : attempts_ok v ats exc -> attempts_ok (logged o v) ats exc.
Proof. by intros []. Qed.

Lemma won_logged o w c v x : won w c v x -> won w c (logged o v) x.
Proof. intros [[Hok ? ? ? ?] ? ?]. split; [split; [by apply attempts_logged|done..]|done..]. Qed.

(** The end of [racing_on_attempt_ready], after the message was dealt with. *)
Lemma wp_tell_ready i c v x t ns s (Q : unit -> race W -> Prop) :
  at_race v x t ns s -> won i c v x ->
  (forall s', at_race v x t (ns ++ notify (cb_ready ucbs) Ready c) s' -> Q tt s') ->
  wp (early ← in_world (rop_sent_early_data c);
      when early (with_calls ready_when_complete (rop_message_sent c (rx_initial_message_context x))) ;;
      cbs ← in_world (rop_callbacks c); user_call (cb_ready cbs) Ready (Some c)) Q s.
Proof.
  intros H Hwon HQ. pose proof (wn_cbs _ _ _ _ Hwon) as Hcbs. wp_steps. eapply (wp_in_world_same _ (fun _ => True)); [exact H| |].
  { intros w1 Hw1. eapply wp_mono; [apply (law_early c); [exact Hw1|by eexists]|]. by intros b w' Hw'. }
  intros sent s1 _ H1. wp_steps.
  assert (Hlast : forall s2, at_race v x t ns s2 ->
    wp (cbs ← in_world (rop_callbacks c); user_call (cb_ready cbs) Ready (Some c)) Q s2).
  { intros s2 H2. wp_steps. eapply wp_in_world_same; [exact H2| |]; [intros w1 Hw1; by eapply law_callbacks|].
    intros cbs s3 -> H3. eapply wp_user_call; [exact H3|]. intros s4 H4. fold (notify (cb_ready ucbs) Ready c) in H4.
    rewrite application_ready in H4. by apply HQ. }
  apply wp_when; intros _; [|by apply Hlast].
  eapply (wp_winner_quiet _ _ (fun _ => v)); [exact H1|exact Hcbs| |].
  { intros w1 Hw1 Hcb. by eapply law_sent. }
  intros [] s2 H2. by apply Hlast.
Qed.

(** The message that was not given to the attempts is sent. *)
Lemma wp_send_when_ready i c v x t ns s (Q : unit -> race W -> Prop) :
  at_race v x t ns s -> won i c v x -> c ∈ connections_of (rx_attempts x) -> initialised (rx_attempts x) v ->
  (forall v' s', won i c v' x -> delivered c (rx_attempts x) v' -> at_race v' x t ns s' -> Q tt s') ->
  wp (when (negb (rx_should_try_early_data x) && is_Some_b (rx_initial_message x))
    (rc ← with_calls ready_when_complete
            (rop_send_message_full c (rx_initial_message x) (rx_initial_message_context x));
     when (negb (rc =? 0))
       (with_calls ready_when_complete (rop_message_send_error c (rx_initial_message_context x) rc)))) Q s.
Proof.
  intros H Hwon Hin Hlog HQ. pose proof (wn_cbs _ _ _ _ Hwon) as Hcbs. destruct (ar_input _ _ _ _ _ H) as (_ & Em & Ec & Ee).
  rewrite Em, Ec, Ee. unfold initialised in Hlog. unfold delivered, after_ready in HQ. apply wp_when; intros Hsend; rewrite Hsend in HQ.
  2: { eapply HQ; [exact Hwon| |exact H]. split; [done|]. exists []. by rewrite app_nil_r. }
  assert (Hs : rc_sends msg ctx).
  { apply andb_true_iff in Hsend as [He Hm]. apply Hsends; [by destruct early|by destruct msg]. }
  wp_steps. eapply (wp_winner_quiet _ _ (fun rc => logged (SentMessage c msg ctx rc) v)); [exact H|exact Hcbs| |].
  { intros w1 Hw1 Hcb. by eapply law_send. }
  intros rc s1 H1. pose proof (won_logged (SentMessage c msg ctx rc) _ _ _ _ Hwon) as Hwon1.
  apply wp_when; intros Hrc; [apply negb_true_iff in Hrc|apply negb_false_iff in Hrc].
  - eapply (wp_winner_quiet _ _ (fun _ => logged (RefusedMessage c ctx rc) (logged (SentMessage c msg ctx rc) v))); [exact H1|apply Hwon1| |].
    { intros w1 Hw1 Hcb. by eapply law_send_error. }
    intros [] s2 H2. eapply HQ; [by apply won_logged| |exact H2]. split; [done|]. eexists. split; [exists rc; by rewrite Hrc|].
    cbn. by rewrite Hlog, <- !app_assoc.
  - eapply HQ; [exact Hwon1| |exact H1]. split; [done|]. eexists. split; [exists rc; by rewrite Hrc|].
    cbn. by rewrite Hlog, <- app_assoc.
Qed.

Lemma wp_racing_on_attempt_ready i c v x t ns s (Q : unit -> race W -> Prop) :
  at_race v x t ns s -> ready_at i c v x -> open_timer t -> initialised (rx_attempts x) v ->
  (forall v' x' t' s', won i c v' x' -> delivered c (rx_attempts x') v' -> timer_ok x' t' -> completed i x x' ->
     at_race v' x' t' (ns ++ notify (cb_ready ucbs) Ready c) s' -> Q tt s') ->
  wp (racing_on_attempt_ready c) Q s.
Proof.
  intros H Hr Ht Hlog HQ. destruct (re_attempt _ _ _ _ Hr) as (a & Ha & Hc & Hst & (p & Hp)).
  unfold racing_on_attempt_ready. wp_steps.
  eapply wp_attempt_of; [exact H|apply Hr|done|]. intros s1 H1. wp_steps.
  eapply wp_attempt_at; [exact H1|exact Ha|]. wp_steps. eapply wp_context; [exact H1|].
  rewrite (re_open _ _ _ _ Hr). wp_steps.
  eapply wp_register_succesful; [exact H1|exact Hr|exact Ht|]. intros x2 t2 s2 Hw2 Ht2 Hin2 (a2 & Ha2 & Hc2) Hcs2 H2. wp_steps.
  eapply wp_cancel_all; [exact H2|exact Hw2|exact Ht2|]. intros v3 x3 t3 s3 Hw3 Ht3 Hin3 (Hs3 & _ & Hl3 & Hcs3) H3. wp_steps.
  eapply wp_context; [exact H3|]. wp_steps. rewrite Ha2 in Hs3.
  assert (Hu : rx_user_callbacks x3 = ucbs).
  { rewrite <- (re_user _ _ _ _ Hr). rewrite Hin2 in Hin3. by apply (f_equal rx_user_callbacks) in Hin3. }
  assert (Hwon : won i c (with_cbs c ucbs v3) x3) by (apply won_cbs; [done|by exists a2|done]).
  eapply (wp_in_world _ (fun _ v' => v' = with_cbs c (rx_user_callbacks x3) v3)); [exact H3| |].
  { intros w1 Hw1. eapply wp_mono; [apply (law_set_callbacks c (rx_user_callbacks x3)); [exact Hw1|by eapply won_at_known]|].
    intros [] w' Hw'. by eexists. }
  rewrite Hu. intros [] v4 s4 -> H4. wp_steps.
  assert (Hin : c ∈ connections_of (rx_attempts x3)) by (by eapply connections_elem).
  assert (Hlog4 : initialised (rx_attempts x3) (with_cbs c ucbs v3)).
  { unfold initialised in *. cbn [v_log with_cbs]. by rewrite Hl3, Hcs3, Hcs2. }
  eapply wp_send_when_ready; [exact H4|exact Hwon|exact Hin|exact Hlog4|]. intros v5 s5 Hwon5 Hdel5 H5. cbn beta.
  eapply wp_tell_ready; [exact H5|exact Hwon5|]. intros s6 H6.
  eapply HQ; [exact Hwon5|exact Hdel5|exact Ht3|by unfold completed; rewrite Hin3|exact H6].
Qed.

(** *** Failure *)

Definition failure_notes : list call :=
  match cb_establishment_error ucbs with Some fn => [CallConnection fn EstablishmentError None] | None => [] end.

Lemma failure_notes_loud : filter (fun c => quiet c = false) failure_notes = failure_notes.
Proof.
  unfold failure_notes. destruct (cb_establishment_error ucbs) as [fn|]; [|done]. rewrite filter_cons_True; [done|].
  cbn. by rewrite andb_false_r.
Qed.

(** Without a success, attempts are concluded when they have failed. *)
Lemma concluded_failed x :
  (forall j b, rx_attempts x !! j = Some b -> running (at_state b) = true) ->
  all_attempts_concluded x = true -> all_attempts_failed x = true.
Proof.
  intros Hrun H. apply all_failed_spec. intros j b Hb. pose proof (Hrun j b Hb).
  apply (proj1 (all_concluded_spec x) H) in Hb. by destruct (at_state b).
Qed.

Lemma running_insert x i a st :
  (forall j b, rx_attempts x !! j = Some b -> running (at_state b) = true) -> running st = true ->
  forall j b, <[i := set_at_state st a]> (rx_attempts x) !! j = Some b -> running (at_state b) = true.
Proof. intros H Hst j b [(-> & <- & _)|[_ Hb]]%list_lookup_insert_Some; [done|by eapply H]. Qed.

Lemma wp_register_failed i a v x t ns s (Q : unit -> race W -> Prop) :
  at_race v x t ns s -> rx_attempts x !! i = Some a ->
  (forall j b, rx_attempts x !! j = Some b -> running (at_state b) = true) -> open_timer t ->
  rx_user_callbacks x = ucbs ->
  (forall x' s', rx_attempts x' = <[i := set_at_state ATTEMPT_STATE_FAILED a]> (rx_attempts x) ->
     input_of x' = input_of x -> all_attempts_failed x' = false -> at_race v x' t ns s' -> Q tt s') ->
  (forall x' s', rx_attempts x' = <[i := set_at_state ATTEMPT_STATE_FAILED a]> (rx_attempts x) ->
     input_of x' = input_of (set_rx_race_complete true x) -> all_attempts_failed x' = true ->
     at_race v x' TimerClosing (ns ++ failure_notes) s' -> Q tt s') ->
  wp (register_failed_attempt i) Q s.
Proof.
  intros H Ha Hrun Ht Hu Hmore Hlost. unfold register_failed_attempt, count_completed. wp_steps.
  eapply wp_update_attempt; [exact H|exact Ha|]. intros s1 H1. wp_steps.
  eapply wp_update_context; [exact H1|done|]. intros s2 H2. unfold handle_concluded_attempt. wp_steps.
  eapply wp_context; [exact H2|]. destruct (all_attempts_failed _) eqn:Hf.
  - unfold handle_all_attempts_failed. wp_steps. eapply wp_update_context; [exact H2|done|]. intros s3 H3. wp_steps.
    eapply wp_context; [exact H3|]. wp_steps. eapply wp_user_call; [exact H3|]. intros s4 H4.
    eapply wp_initiate_context_close; [exact H4|exact Ht|]. intros s5 H5.
    eapply Hlost; [| | |replace failure_notes with (filter (fun c => quiet c = false) failure_notes)
      by apply failure_notes_loud; unfold failure_notes; rewrite <- Hu; exact H5]; [done..|exact Hf].
  - destruct (all_attempts_concluded _) eqn:Hc.
    + apply concluded_failed in Hc; [congruence|]. by apply running_insert.
    + wp_steps. by eapply Hmore; [| | |exact H2].
Qed.

(** *** Before the end *)

(** The race is on: of the attempts the first [next] have been started, and
    some attempt has not failed. *)
Record racing (next : nat) (v : view) (x : ct_racing_context) : Prop := {
  ra_ok : attempts_ok v (rx_attempts x) None;
  ra_open : rx_race_complete x = false;
  ra_user : rx_user_callbacks x = ucbs;
  ra_next : rx_next_attempt_index x = next;
  ra_started i a : rx_attempts x !! i = Some a -> (i < next)%nat ->
    at_state a = ATTEMPT_STATE_CONNECTING \/ at_state a = ATTEMPT_STATE_FAILED;
  ra_pending i a : rx_attempts x !! i = Some a -> (next <= i)%nat -> at_state a = ATTEMPT_STATE_PENDING;
  ra_log : initialised (rx_attempts x) v }.

Lemma racing_running next v x : racing next v x -> forall j b, rx_attempts x !! j = Some b -> running (at_state b) = true.
Proof.
  intros H j b Hb. destruct (decide (j < next)%nat).
  - by destruct (ra_started _ _ _ H j b Hb ltac:(done)) as [-> | ->].
  - by rewrite (ra_pending _ _ _ H j b Hb ltac:(lia)).
Qed.

Lemma attempts_length v ats exc : attempts_ok v ats exc -> length ats = length cands.
Proof. intros H. by rewrite <- (ao_cands _ _ _ H), length_fmap. Qed.

Lemma pending_not_failed next v x :
  racing next v x -> (next < length cands)%nat -> all_attempts_failed x = false.
Proof.
  intros H Hlt. apply not_true_iff_false. intros Hf. rewrite <- (attempts_length _ _ _ (ra_ok _ _ _ H)) in Hlt.
  apply lookup_lt_is_Some in Hlt as [a Ha]. apply (proj1 (all_failed_spec x) Hf) in Ha as Hst.
  by rewrite (ra_pending _ _ _ H next a Ha ltac:(done)) in Hst.
Qed.

(** The outcome of the attempt that connects [c] is settled: [c] is ready. *)
Lemma racing_ready next v v' x i a c :
  v' = opened c v -> racing next v x -> rx_attempts x !! i = Some a -> at_connection a = Some c -> at_state a = ATTEMPT_STATE_CONNECTING ->
  is_Some (cn_protocol_candidate (at_candidate a)) -> ready_at i c v' x.
Proof.
  intros Hv' H Ha Hc Hst Hp.
  subst v'. split; cbn [opened v_cbs v_stage v_open].
  - eapply settle_attempt; [by right|by left|apply H|done|done].
  - apply H.
  - apply H.
  - by exists a.
  - pose proof (ao_ok _ _ _ (ra_ok _ _ _ H) i a Ha ltac:(done)) as Hok. unfold attempt_ok in Hok. rewrite Hst in Hok.
    destruct Hok as (c' & Hc' & _ & Hcbs & _). by replace c with c' by congruence.
  - apply lookup_delete_eq.
  - set_solver.
  - by eapply racing_running.
Qed.

(** *** Starting an attempt *)

(** What gathering provides: candidates with a protocol and resolved
    endpoints. *)
Definition candidate_ok (n : ct_candidate_node) : Prop :=
  is_Some (cn_protocol_candidate n) /\
  (exists l, cn_local_endpoint n = Some l /\ is_inet (le_resolved_address l) = true) /\
  exists r, cn_remote_endpoint n = Some r /\ is_inet (re_resolved_address r) = true.
Context (Hcands : Forall candidate_ok cands).
Context (Hallowed : forall n p, n ∈ cands -> cn_protocol_candidate n = Some p -> rc_allows (pc_protocol_impl p) input).

Lemma candidate_at v ats exc i a : attempts_ok v ats exc -> ats !! i = Some a -> candidate_ok (at_candidate a).
Proof.
  intros H Ha. rewrite Forall_elem in Hcands. apply Hcands. apply (list_elem_of_lookup_2 _ i).
  by rewrite <- (ao_cands _ _ _ H), list_lookup_fmap, Ha.
Qed.

(** The endpoints of one side. *)
Lemma all_endpoints {E} (f : ct_candidate_node -> option E) (P : E -> Prop) (l : list ct_candidate_node) :
  (forall n, n ∈ l -> exists e, f n = Some e /\ P e) -> exists es : list E, f <$> l = Some <$> es /\ forall e, e ∈ es -> P e.
Proof.
  induction l as [|n l IH]; intros Hl; [exists []; split; [done|by intros ? ?%not_elem_of_nil]|].
  destruct (Hl n) as (e & He & HP); [by left|]. destruct IH as (es & Hes & Hall); [intros; apply Hl; by right|].
  exists (e :: es). cbn. rewrite He, Hes. split; [done|]. intros e' [->|?]%elem_of_cons; auto.
Qed.

Lemma all_remotes : exists remotes,
  cn_remote_endpoint <$> cands = Some <$> remotes /\ (forall r, r ∈ remotes -> is_inet (re_resolved_address r) = true).
Proof. apply all_endpoints. rewrite Forall_elem in Hcands. intros n Hn. apply (Hcands n Hn). Qed.

Lemma all_locals : exists locals,
  cn_local_endpoint <$> cands = Some <$> locals /\ (forall l, l ∈ locals -> is_inet (le_resolved_address l) = true).
Proof. apply all_endpoints. rewrite Forall_elem in Hcands. intros n Hn. apply (Hcands n Hn). Qed.

(** One array of endpoints. *)
Lemma wp_unique {E} (addr : E -> sockaddr) copy free_content blocks es v x t ns s (Q : Z * list E -> race W -> Prop) :
  at_race v x t ns s -> copies copy blocks ->
  (forall s', at_race v x t ns s' -> Q (0, distinct addr [] es) s') ->
  wp (on_race_heap (unique_endpoints gi gs addr copy free_content (Some <$> es) [] [])) Q s.
Proof.
  intros H Hcopy HQ. eapply wp_race_heap; [exact H|by apply allocs_unique|]. intros r s' <- Hs'. by apply HQ.
Qed.

(** The attempt that is being started. *)
Record starting (i : nat) (c : id) (v : view) (x : ct_racing_context) : Prop := {
  st_ok : attempts_ok v (rx_attempts x) (Some i);
  st_open : rx_race_complete x = false;
  st_user : rx_user_callbacks x = ucbs;
  st_next : rx_next_attempt_index x = i;
  st_attempt : exists a, rx_attempts x !! i = Some a /\ at_connection a = Some c /\
    (at_state a = ATTEMPT_STATE_CONNECTING \/ at_state a = ATTEMPT_STATE_FAILED);
  st_stage : v_stage v !! c = None;
  st_shut : c ∈ v_new v /\ c ∉ v_open v;
  st_cbs : v_cbs v !! c = Some (attempt_cbs i);
  st_before j a : rx_attempts x !! j = Some a -> (j < i)%nat ->
    at_state a = ATTEMPT_STATE_CONNECTING \/ at_state a = ATTEMPT_STATE_FAILED;
  st_after j a : rx_attempts x !! j = Some a -> (i < j)%nat -> at_state a = ATTEMPT_STATE_PENDING }.

Lemma starting_running i c v x : starting i c v x -> forall j b, rx_attempts x !! j = Some b -> running (at_state b) = true.
Proof.
  intros H j b Hb. destruct (lt_eq_lt_dec j i) as [[Hlt| ->]|Hlt].
  - by destruct (st_before _ _ _ _ H j b Hb Hlt) as [-> | ->].
  - destruct (st_attempt _ _ _ _ H) as (a & Ha & _ & Hst). replace b with a by congruence. by destruct Hst as [-> | ->].
  - by rewrite (st_after _ _ _ _ H j b Hb Hlt).
Qed.

Lemma starting_logged o i c v x : starting i c v x -> starting i c (logged o v) x.
Proof. intros []. split; [by apply attempts_logged|done..]. Qed.

(** The attempt gets its connection. *)
Lemma starting_created i c v x a p :
  racing i v x -> rx_attempts x !! i = Some a -> v_stage v !! c = None -> v_cbs v !! c = None -> c ∉ v_open v ->
  starting i c (created c p (attempt_cbs i) v)
    (set_rx_attempts (<[i := set_at_connection (Some c) (set_at_state ATTEMPT_STATE_CONNECTING a)]> (rx_attempts x)) x).
Proof.
  intros H Ha Hst Hnew Hop. assert (Hlt : (i < length (rx_attempts x))%nat) by (by eapply lookup_lt_Some).
  pose proof (ra_ok _ _ _ H) as Hok. split; cbn [rx_attempts set_rx_attempts].
  - eapply change_attempt; [exact Hok|by left|exact Ha|done|left; split| | | |right].
    + pose proof (ao_ok _ _ _ Hok i a Ha ltac:(done)) as Hai. unfold attempt_ok in Hai.
      by rewrite (ra_pending _ _ _ H i a Ha ltac:(done)) in Hai.
    + intros c' [= <-]. done.
    + intros j b c' Hj Hb Hbc [= <-]. destruct (ao_known _ _ _ Hok j b c Hb Hbc) as [? Hk]. by rewrite Hnew in Hk.
    + intros c' Hne. cbn in Hne. apply agree_created. congruence.
    + intros c' [= <-]. cbn. rewrite lookup_insert_eq. by eexists.
    + split; [done|]. intros c' [= <-]. done.
  - apply H.
  - apply H.
  - apply H.
  - eexists. rewrite list_lookup_insert_eq by done. split_and!; [done..|by left].
  - done.
  - cbn. split; [set_solver|done].
  - apply lookup_insert_eq.
  - intros j b. cbn. intros Hb Hj. rewrite list_lookup_insert_ne in Hb by lia. by eapply (ra_started _ _ _ H).
  - intros j b. cbn. intros Hb Hj. rewrite list_lookup_insert_ne in Hb by lia. eapply (ra_pending _ _ _ H); [done|lia].
Qed.

(** Only attempt [i] differs. *)
Definition only (i : nat) (x x' : ct_racing_context) : Prop :=
  input_of x' = input_of x /\ exists a, rx_attempts x' = <[i := a]> (rx_attempts x).

Lemma only_trans i x1 x2 x3 : only i x1 x2 -> only i x2 x3 -> only i x1 x3.
Proof.
  intros [Hi1 [a1 Ha1]] [Hi2 [a2 Ha2]]. split; [congruence|]. exists a2. by rewrite Ha2, Ha1, list_insert_insert_eq.
Qed.

Lemma only_refl i x a : rx_attempts x !! i = Some a -> only i x x.
Proof. intros Ha. split; [done|]. exists a. by rewrite list_insert_id. Qed.

(** The three outcomes of starting attempt [i]; the last leaves a candidate
    to try. *)
Definition attempt_started (i : nat) (c : id) (v : view) (x : ct_racing_context) (rc : Z) (s : race W) : Prop :=
  rc = 0 /\ at_race (owing c Establishing v) x TimerIdle [] s \/
  (exists v' x' t', rc = 0 /\ won i c v' x' /\ delivered c (rx_attempts x') v' /\ timer_ok x' t' /\ completed i x x' /\
     at_race v' x' t' (notify (cb_ready ucbs) Ready c) s) \/
  (exists x', rc <> 0 /\ (S i < length cands)%nat /\ only i x x' /\ starting i c v x' /\ freeable v c /\ at_race v x' TimerIdle [] s).

(** A protocol that may fail at once is not that of the last candidate. *)
Context (Hlast : forall i n p, cands !! i = Some n -> cn_protocol_candidate n = Some p ->
  rc_fallible (pc_protocol_impl p) = true -> (S i < length cands)%nat).

Lemma attempt_has_started o i c u v x n p (m : M W Z) s :
  v = logged o u -> at_race u x TimerIdle [] s -> starting i c v x -> initialised (rx_attempts x) v -> cands !! i = Some n -> cn_protocol_candidate n = Some p ->
  v_impl v !! c = Some (pc_protocol_impl p) ->
  (exists a, rx_attempts x !! i = Some a /\ at_connection a = Some c /\ at_state a = ATTEMPT_STATE_CONNECTING) ->
  (forall w, rc_holds u w -> wp (calls_of m) (rc_started (pc_protocol_impl p) c (attempt_cbs i) v) w) ->
  wp (with_calls racing_on_attempt_ready m) (attempt_started i c v x) s.
Proof.
  intros Hv H Hst Hlog Hn Hp Himpl (a & Ha & Hc & Hsta) Hm.
  eapply (wp_with_calls _ _ (fun r v' =>
    r = (0, []) /\ v' = owing c Establishing v \/
    r = (0, notify (cb_ready (attempt_cbs i)) Ready c) /\ v' = opened c v \/
    rc_fallible (pc_protocol_impl p) = true /\ r.1 <> 0 /\
      (r.2 = [] \/ r.2 = notify (cb_establishment_error (attempt_cbs i)) EstablishmentError c) /\ v' = v)); [exact H| |].
  { intros w Hw. eapply wp_mono; [by apply Hm|]. intros r w' [[-> Hw']|[[-> Hw']|(Hf & Hr & Hl & Hw')]]; eexists; (split; [|exact Hw']).
    - by left.
    - right. by left.
    - right. by right. }
  intros rc l v' s' [[[= -> ->] ->]|[[[= -> ->] ->]|(Hf & Hr & Hl & ->)]] H1.
  - cbn [for_each]. wp_steps. by left.
  - cbn. wp_steps. eapply wp_racing_on_attempt_ready; [exact H1| |by left|exact Hlog|].
    + split; try apply Hst; [| |cbn; by rewrite lookup_delete_eq|cbn; set_solver|by eapply starting_running].
      * eapply settle_attempt; [by right|by right|apply Hst|done|done].
      * exists a. split_and!; [done..|]. by apply (candidate_at _ _ _ _ _ (st_ok _ _ _ _ Hst) Ha).
    + intros v' x' t' s2 Hwon Hdel Ht Hcomp H2. wp_steps. right. left. by exists v', x', t'.
  - cbn [fst snd] in *. pose proof (Hlast i n p Hn Hp Hf) as Hlt.
    assert (Hfree : freeable v c) by (split; [apply Hst|by eexists]). destruct Hl as [->| ->]; cbn.
    + wp_steps. right. right. exists x. split_and!; [done..|by eapply only_refl|done|done|done].
    + unfold on_attempt_establishment_error. wp_steps. eapply wp_attempt_of; [exact H1|apply Hst|done|]. intros s2 H2. wp_steps.
      eapply wp_context; [exact H2|]. rewrite (st_open _ _ _ _ Hst).
      eapply wp_register_failed; [exact H2|exact Ha|by eapply starting_running|by left|apply Hst| |].
      * intros x' s3 Hats Hin Hnf H3. wp_steps. right. right. exists x'. split_and!; [done|done|split; [done|by eexists]| |done|exact H3].
        assert (Hilt : (i < length (rx_attempts x))%nat) by (by eapply lookup_lt_Some).
        split; try apply Hst.
        -- rewrite Hats. eapply change_attempt; [apply Hst|by right|exact Ha|done|by right| | | |right; split; [done|]].
           ++ intros j b c' Hj Hb Hbc Hac. apply Hj. by eapply (ao_distinct _ _ _ (st_ok _ _ _ _ Hst)).
           ++ done.
           ++ intros c' Hc'. by eapply (ao_known _ _ _ (st_ok _ _ _ _ Hst)).
           ++ intros c' Hc'. cbn in Hc'. replace c' with c by congruence. apply Hst.
        -- rewrite <- (st_open _ _ _ _ Hst). by apply (f_equal rx_race_complete) in Hin.
        -- rewrite <- (st_user _ _ _ _ Hst). by apply (f_equal rx_user_callbacks) in Hin.
        -- rewrite <- (st_next _ _ _ _ Hst). by apply (f_equal rx_next_attempt_index) in Hin.
        -- eexists. rewrite Hats, list_lookup_insert_eq by done. split_and!; [done|exact Hc|by right].
        -- intros j b. rewrite Hats. intros Hb Hj. rewrite list_lookup_insert_ne in Hb by lia. by eapply (st_before _ _ _ _ Hst).
        -- intros j b. rewrite Hats. intros Hb Hj. rewrite list_lookup_insert_ne in Hb by lia. by eapply (st_after _ _ _ _ Hst).
      * intros x' s3 Hats Hin Hall H3. exfalso.
        rewrite <- (attempts_length _ _ _ (st_ok _ _ _ _ Hst)) in Hlt. apply lookup_lt_is_Some in Hlt as [b Hb].
        assert (Hb' : rx_attempts x' !! S i = Some b) by (by rewrite Hats, list_lookup_insert_ne by lia).
        apply (proj1 (all_failed_spec x') Hall) in Hb'. by rewrite (st_after _ _ _ _ Hst (S i) b Hb) in Hb' by lia.
Qed.

Definition connecting (i : nat) (c : id) (x : ct_racing_context) : Prop :=
  exists a, rx_attempts x !! i = Some a /\ at_connection a = Some c /\ at_state a = ATTEMPT_STATE_CONNECTING.

Lemma wp_start_connection_attempt i v x s (Q : Z -> race W -> Prop) :
  at_race v x TimerIdle [] s -> racing i v x -> (i < length cands)%nat ->
  (forall c v1 x1 rc s', starting i c v1 x1 -> initialised (rx_attempts x1) v1 -> connecting i c x1 -> only i x x1 ->
     attempt_started i c v1 x1 rc s' -> Q rc s') ->
  wp (start_connection_attempt gi gs i) Q s.
Proof.
  intros H Hr Hlt HQ. pose proof (ra_ok _ _ _ Hr) as Hok.
  pose proof Hlt as Hlt'. rewrite <- (attempts_length _ _ _ Hok) in Hlt'.
  destruct (lookup_lt_is_Some_2 _ _ Hlt') as [a Ha].
  destruct (candidate_at _ _ _ _ _ Hok Ha) as ([p Hp] & (own_local & Hl & _) & own_remote & Hrem & Hinet).
  assert (Hn : cands !! i = Some (at_candidate a)) by (by rewrite <- (ao_cands _ _ _ Hok), list_lookup_fmap, Ha).
  destruct all_remotes as (remotes & Hremotes & Hinets). destruct all_locals as (locals & Hlocals & Hlinets).
  assert (Hats : forall {E} (f : ct_candidate_node -> option E) (l : list E), f <$> cands = Some <$> l ->
    (f ∘ at_candidate <$> <[i := set_at_state ATTEMPT_STATE_CONNECTING a]> (rx_attempts x)) = Some <$> l).
  { intros E f l <-. rewrite list_fmap_compose, list_fmap_insert. rewrite list_insert_id; [by rewrite (ao_cands _ _ _ Hok)|].
    by rewrite list_lookup_fmap, Ha. }
  unfold start_connection_attempt. wp_steps.
  eapply wp_update_attempt; [exact H|exact Ha|]. intros s1 H1. wp_steps.
  eapply wp_attempt_at; [exact H1|cbn; by apply list_lookup_insert_eq|]. cbn [at_candidate set_at_state]. wp_steps.
  eapply wp_context; [exact H1|]. wp_steps. cbn [rx_attempts set_rx_attempts rx_preconnection rx_should_try_early_data
    rx_initial_message rx_initial_message_context]. rewrite (Hats _ _ remotes Hremotes).
  eapply wp_unique; [exact H1|apply copies_remote|]. intros s2 H2. cbn [Z.eqb negb]. wp_steps.
  rewrite (Hats _ _ locals Hlocals). eapply wp_unique; [exact H2|apply copies_local|].
  intros s3 H3. cbn [Z.eqb negb]. wp_steps.
  assert (Hremote_in : own_remote ∈ remotes).
  { apply (list_elem_of_lookup_2 _ i). apply (f_equal (.!! i)) in Hremotes. rewrite !list_lookup_fmap, Hn in Hremotes.
    cbn in Hremotes. rewrite Hrem in Hremotes. destruct (remotes !! i); cbn in Hremotes; congruence. }
  assert (Hlocal_in : own_local ∈ locals).
  { apply (list_elem_of_lookup_2 _ i). apply (f_equal (.!! i)) in Hlocals. rewrite !list_lookup_fmap, Hn in Hlocals.
    cbn in Hlocals. rewrite Hl in Hlocals. destruct (locals !! i); cbn in Hlocals; congruence. }
  destruct (active_index_valid re_resolved_address remotes (re_resolved_address own_remote)) as [r Hri].
  { intros ->. by apply not_elem_of_nil in Hremote_in. }
  destruct (active_index_valid le_resolved_address locals (le_resolved_address own_local)) as [l Hli].
  { intros ->. by apply not_elem_of_nil in Hlocal_in. }
  rewrite Hri. wp_steps. destruct (ar_input _ _ _ _ _ H) as (Ep & Em & Ec & Ee). rewrite Ep, Em, Ec, Ee.
  eapply (wp_in_world _ (fun o v' => exists c, o = Some c /\ v_stage v !! c = None /\ v_cbs v !! c = None /\ (c ∉ v_open v) /\
    v' = created c (pc_protocol_impl p) (attempt_cbs i) v)); [exact H3| |].
  { intros w Hw. eapply wp_mono; [eapply law_create; [exact Hw| |exact Hli| |exact Hri|]|].
    - eapply Hallowed; [by eapply list_elem_of_lookup_2|exact Hp].
    - apply Hlinets. eapply distinct_elem, list_elem_of_lookup_2, Hli.
    - apply Hinets. eapply distinct_elem, list_elem_of_lookup_2, Hri.
    - intros o w' (c & -> & Hst & Hnew & Hop & Hw'). eexists. split; [|exact Hw']. by exists c. }
  intros o v1 s4 (c & -> & Hst & Hnew & Hop & ->) H4. wp_steps.
  eapply wp_update_attempt; [exact H4|cbn; by apply list_lookup_insert_eq|]. intros s5 H5.
  cbn [rx_attempts set_rx_attempts] in H5. rewrite list_insert_insert_eq in H5. wp_steps.
  pose proof (starting_created i c v x a (pc_protocol_impl p) Hr Ha Hst Hnew Hop) as Hstart.
  set (v1 := created c (pc_protocol_impl p) (attempt_cbs i) v) in *.
  set (x1 := set_rx_attempts (<[i := set_at_connection (Some c) (set_at_state ATTEMPT_STATE_CONNECTING a)]> (rx_attempts x)) x) in *.
  assert (Hconn : connecting i c x1).
  { eexists. cbn. by rewrite list_lookup_insert_eq. }
  assert (Hcb : v_cbs v1 !! c = Some (attempt_cbs i)) by apply Hstart.
  assert (Himpl : v_impl v1 !! c = Some (pc_protocol_impl p)) by apply lookup_insert_eq.
  assert (Hlog : initialised (rx_attempts x1) (logged (initialisation c) v1)).
  { unfold initialised, x1. cbn [rx_attempts set_rx_attempts v_log logged v1 created].
    rewrite (ra_log _ _ _ Hr), (connections_new _ i a _ c), fmap_app; [by rewrite app_assoc|done| |done].
    intros j d Hj Hd. pose proof (ao_ok _ _ _ Hok j d Hd ltac:(done)) as Hdo. unfold attempt_ok in Hdo.
    by rewrite (ra_pending _ _ _ Hr j d) in Hdo. }
  assert (Hdone : forall m,
    (forall w, rc_holds v1 w -> wp (calls_of m) (rc_started (pc_protocol_impl p) c (attempt_cbs i) (logged (initialisation c) v1)) w) ->
    forall s', at_race v1 x1 TimerIdle [] s' -> wp (with_calls racing_on_attempt_ready m) Q s').
  { intros m Hm s' Hs'. apply (starting_logged (initialisation c)) in Hstart.
    eapply wp_mono; [by eapply (attempt_has_started (initialisation c))|]. intros rc s6 H6.
    eapply HQ; [exact Hstart|exact Hlog|exact Hconn| |exact H6]. split; [done|by eexists]. }
  assert (Hinit : forall s', at_race v1 x1 TimerIdle [] s' ->
    wp (if early then with_calls racing_on_attempt_ready (rop_init_with_send c msg ctx)
        else with_calls racing_on_attempt_ready (rop_init c)) Q s').
  { destruct (st_shut _ _ _ _ Hstart) as [Hfresh Hshut].
    intros s' Hs'. unfold initialisation in Hdone. destruct early; apply Hdone; try exact Hs'; intros w Hw.
    - eapply law_init_with_send; [exact Hw|by apply Hearly|done..].
    - by eapply law_init. }
  apply wp_when; intros _; [|by apply Hinit]. wp_steps.
  eapply (wp_in_world_same _ (fun _ => True)); [exact H5| |].
  { intros w Hw. eapply wp_mono; [by apply (law_clear_alpn c v1)|]. done. }
  intros [] s6 _ H6. wp_steps. destruct (pc_alpn p) as [alpn|]; [|wp_steps; by apply Hinit].
  eapply (wp_in_world_same _ (fun _ => True)); [exact H6| |].
  { intros w Hw. eapply wp_mono; [by apply (law_add_alpn c alpn v1)|]. done. }
  intros [] s7 _ H7. by apply Hinit.
Qed.

(** *** Phases *)

(** The stagger timer runs while there are candidates to try. *)
Definition stagger (next : nat) : timer_phase := if (next <? length cands)%nat then TimerArmed else TimerIdle.

Inductive phase (v : view) (x : ct_racing_context) (t : timer_phase) : list call -> Prop :=
| phase_racing next :
    racing next v x -> (1 <= next <= length cands)%nat -> all_attempts_failed x = false -> t = stagger next ->
    phase v x t []
| phase_won w c :
    won w c v x -> delivered c (rx_attempts x) v -> timer_ok x t -> phase v x t (notify (cb_ready ucbs) Ready c)
| phase_lost :
    attempts_ok v (rx_attempts x) None -> rx_race_complete x = true -> all_attempts_failed x = true ->
    initialised (rx_attempts x) v -> t = TimerClosing -> phase v x t failure_notes.

(** A bound on what is still to happen: attempts to start, outcomes to wait
    for, connections to close, and the timer. *)
Definition weight (st : ct_attempt_state) : Z :=
  match st with ATTEMPT_STATE_PENDING => 2 | ATTEMPT_STATE_CONNECTING => 1 | _ => 0 end.
Definition shutting (st : ct_attempt_state) : Z := match st with ATTEMPT_STATE_CLOSING => 3 | _ => 0 end.
Definition total (f : ct_attempt_state -> Z) (x : ct_racing_context) : Z := zsum (f ∘ at_state <$> rx_attempts x).
Definition rank (x : ct_racing_context) : Z :=
  if rx_race_complete x then total shutting x else 3 * Z.of_nat (length cands) + 4 + total weight x.
Definition timer_weight (t : timer_phase) : Z :=
  match t with TimerIdle => 2 | TimerArmed => 3 | TimerClosing => 1 | TimerFreed => 0 end.
Definition measure (s : race W) : Z :=
  match rs_context s with Some x => rank x + timer_weight (rs_timer s) | None => 0 end.

Lemma total_change f x x' i a b :
  rx_attempts x !! i = Some a -> rx_attempts x' = <[i := b]> (rx_attempts x) ->
  total f x' = total f x - f (at_state a) + f (at_state b).
Proof.
  unfold total. intros Ha ->. revert i Ha. induction (rx_attempts x) as [|a' l IH]; intros i Ha; [done|].
  destruct i as [|i]; cbn [lookup list_lookup] in Ha.
  - injection Ha as ->. change (<[0%nat := b]> (a :: l)) with (b :: l). rewrite !fmap_cons, !zsum_cons. cbn. lia.
  - change (<[S i := b]> (a' :: l)) with (a' :: <[i := b]> l). rewrite !fmap_cons, !zsum_cons, (IH i Ha). lia.
Qed.

Lemma total_bounds f x n :
  (forall st, 0 <= f st <= n) -> 0 <= total f x <= n * Z.of_nat (length (rx_attempts x)).
Proof.
  intros Hf. unfold total. induction (rx_attempts x) as [|b l IH]; [cbn; lia|].
  rewrite fmap_cons, zsum_cons. cbn [length compose]. pose proof (Hf (at_state b)). unfold compose in *. lia.
Qed.

Lemma shutting_bounds x v exc : attempts_ok v (rx_attempts x) exc -> 0 <= total shutting x <= 3 * Z.of_nat (length cands).
Proof. intros H. rewrite <- (attempts_length _ _ _ H). apply total_bounds. by intros []; cbn. Qed.

Lemma weight_bounds x v exc : attempts_ok v (rx_attempts x) exc -> 0 <= total weight x <= 2 * Z.of_nat (length cands).
Proof. intros H. rewrite <- (attempts_length _ _ _ H). apply total_bounds. by intros []; cbn. Qed.

(** The race is decided: what is left is less than before. *)
Lemma rank_decided next v x v' x' t t' :
  racing next v x -> open_timer t -> attempts_ok v' (rx_attempts x') None -> rx_race_complete x' = true ->
  rank x' + timer_weight t' < rank x + timer_weight t.
Proof.
  intros H Ht Hok Hc. unfold rank. rewrite (ra_open _ _ _ H), Hc.
  pose proof (shutting_bounds _ _ _ Hok). pose proof (weight_bounds _ _ _ (ra_ok _ _ _ H)).
  assert (timer_weight t' <= 3) by (by destruct t'). destruct Ht as [-> | ->]; cbn; lia.
Qed.

Lemma phase_bounds v x t ns : phase v x t ns -> 0 < rank x + timer_weight t <= 5 * Z.of_nat (length cands) + 7.
Proof.
  assert (Ht : forall u, 0 <= timer_weight u <= 3) by (by intros []; cbn). specialize (Ht t).
  unfold rank. intros [next Hr _ _ _|w c Hw _ Hto|Hok Hc _ _ Htc].
  - rewrite (ra_open _ _ _ Hr). pose proof (weight_bounds _ _ _ (ra_ok _ _ _ Hr)). lia.
  - rewrite (wo_complete _ _ _ _ (wn_at _ _ _ _ Hw)). pose proof (shutting_bounds _ _ _ (wo_ok _ _ _ _ (wn_at _ _ _ _ Hw))).
    assert (0 < timer_weight t); [|lia]. unfold timer_ok in Hto. destruct (all_attempts_concluded x); [by subst|].
    by destruct Hto as [-> | ->].
  - rewrite Hc. pose proof (shutting_bounds _ _ _ Hok). subst t. cbn in *. lia.
Qed.

Lemma wp_timer_start v x t ns s (Q : unit -> race W -> Prop) :
  at_race v x t ns s ->
  (forall s', at_race v x (if bool_decide (t = TimerIdle) then TimerArmed else t) ns s' -> Q tt s') -> wp uv_timer_start Q s.
Proof.
  intros [Hw Hx Ht Hi Hn] HQ. unfold uv_timer_start. wp_steps. rewrite Ht. apply wp_when; intros Hb; wp_steps; rewrite Hb in HQ.
  - by apply HQ.
  - by apply HQ.
Qed.

(** The race goes on after attempt [i] was started. *)
Lemma racing_next i c v v' x x' :
  starting i c v x -> attempts_ok v' (rx_attempts x') None -> input_of x' = input_of x ->
  (forall j, j <> i -> rx_attempts x' !! j = rx_attempts x !! j) ->
  (exists a, rx_attempts x' !! i = Some a /\ (at_state a = ATTEMPT_STATE_CONNECTING \/ at_state a = ATTEMPT_STATE_FAILED)) ->
  initialised (rx_attempts x') v' ->
  racing (S i) v' (set_rx_next_attempt_index (S (rx_next_attempt_index x')) x').
Proof.
  intros H Hok Hin Hats (a & Ha & Hst) Hlog. split; cbn [set_rx_next_attempt_index rx_attempts rx_race_complete rx_user_callbacks rx_next_attempt_index].
  - done.
  - rewrite <- (st_open _ _ _ _ H). by apply (f_equal rx_race_complete) in Hin.
  - rewrite <- (st_user _ _ _ _ H). by apply (f_equal rx_user_callbacks) in Hin.
  - f_equal. rewrite <- (st_next _ _ _ _ H). by apply (f_equal rx_next_attempt_index) in Hin.
  - intros j b Hb Hj. cbn in Hb. destruct (decide (j = i)) as [->|Hne].
    + by replace b with a by congruence.
    + rewrite Hats in Hb by done. eapply (st_before _ _ _ _ H); [done|lia].
  - intros j b Hb Hj. cbn in Hb. rewrite Hats in Hb by lia. eapply (st_after _ _ _ _ H); [done|lia].
  - exact Hlog.
Qed.

(** The steps of [initiate_next_attempt] after the attempt was started. *)
Lemma wp_next_timer i v x' ns s (Q : unit -> race W -> Prop) :
  at_race v x' TimerIdle ns s -> rx_next_attempt_index x' = i -> length (rx_attempts x') = length cands ->
  (forall s', at_race v (set_rx_next_attempt_index (S i) x') (stagger (S i)) ns s' -> Q tt s') ->
  wp (update_context (fun x => set_rx_next_attempt_index (S (rx_next_attempt_index x)) x))
    (fun _ s' => wp (x ← context; when (rx_next_attempt_index x <? length (rx_attempts x))%nat uv_timer_start) Q s') s.
Proof.
  intros H Hi Hlen HQ. wp_steps. eapply wp_update_context; [exact H|done|]. rewrite Hi. intros s1 H1. wp_steps.
  eapply wp_context; [exact H1|]. cbn [rx_attempts set_rx_next_attempt_index rx_next_attempt_index]. rewrite Hlen.
  unfold stagger in HQ. apply wp_when; intros Hb; rewrite Hb in HQ; [|by apply HQ].
  eapply wp_timer_start; [exact H1|]. intros s2 H2. by apply HQ.
Qed.

(** A decided race does not care about the next attempt. *)
Lemma won_any_next w c v x k : won w c v x -> won w c v (set_rx_next_attempt_index k x).
Proof. intros [[] ? ?]. by split; [split|..]. Qed.

(** Starting an attempt brings the end closer. *)
Lemma rank_next i v x x' :
  racing i v x -> (i < length cands)%nat -> only i x x' ->
  (exists b, rx_attempts x' !! i = Some b /\ (at_state b = ATTEMPT_STATE_CONNECTING \/ at_state b = ATTEMPT_STATE_FAILED)) ->
  rank (set_rx_next_attempt_index (S i) x') + timer_weight (stagger (S i)) < rank x + 3.
Proof.
  intros H Hlt [Hin [b Hb]] (b' & Hb' & Hst). rewrite <- (attempts_length _ _ _ (ra_ok _ _ _ H)) in Hlt.
  destruct (lookup_lt_is_Some_2 _ _ Hlt) as [a Ha]. rewrite Hb, list_lookup_insert_eq in Hb' by done. injection Hb' as <-.
  pose proof (total_change weight _ _ i a b Ha Hb) as Ht. rewrite (ra_pending _ _ _ H i a Ha) in Ht by done.
  assert (Hw : weight (at_state b) <= 1) by (by destruct Hst as [-> | ->]).
  assert (Htw : timer_weight (stagger (S i)) <= 3) by (unfold stagger; by destruct (_ <? _)%nat).
  unfold rank, total in *. cbn [set_rx_next_attempt_index rx_race_complete rx_attempts].
  rewrite (f_equal rx_race_complete Hin : rx_race_complete x' = rx_race_complete x), (ra_open _ _ _ H). cbn [weight] in Ht. lia.
Qed.

Lemma wp_initiate_next_attempt i v x s (Q : unit -> race W -> Prop) :
  at_race v x TimerIdle [] s -> racing i v x -> (i < length cands)%nat ->
  (forall v' x' t' ns s', phase v' x' t' ns -> rank x' + timer_weight t' < rank x + 3 -> at_race v' x' t' ns s' -> Q tt s') ->
  wp (initiate_next_attempt gi gs) Q s.
Proof.
  intros H Hr Hlt HQ. pose proof (ra_ok _ _ _ Hr) as Hok.
  pose proof Hlt as Hlt'. rewrite <- (attempts_length _ _ _ Hok) in Hlt'.
  destruct (lookup_lt_is_Some_2 _ _ Hlt') as [a Ha].
  destruct (candidate_at _ _ _ _ _ Hok Ha) as ([p Hp] & _ & own_remote & Hrem & _).
  unfold initiate_next_attempt. wp_steps. eapply wp_context; [exact H|]. rewrite (ra_open _ _ _ Hr), (ra_next _ _ _ Hr).
  rewrite (proj2 (Nat.leb_gt _ _) Hlt'). wp_steps. eapply wp_attempt_at; [exact H|exact Ha|]. wp_steps.
  eapply wp_start_connection_attempt; [exact H|exact Hr|exact Hlt|].
  intros c v1 x1 rc s1 Hst1 Hlog1 Hconn Hin1 [[-> H1]|[(v2 & x2 & t2 & -> & Hwon & Hdel & Ht2 & Hcomp & H1)|(x2 & Hrc & Hmore & Hin2 & Hst2 & Hfree & H1)]].
  - (* connecting *)
    cbn [Z.eqb negb]. wp_steps. eapply wp_next_timer; [exact H1|by apply Hst1|by eapply attempts_length, Hst1|].
    intros s2 H2. destruct Hconn as (a1 & Ha1 & Hc1 & Hsta1).
    assert (Hr' : racing (S i) (owing c Establishing v1) (set_rx_next_attempt_index (S i) x1)).
    { rewrite <- (st_next _ _ _ _ Hst1) at 2. eapply racing_next; [exact Hst1| |done|done|exists a1; by auto|exact Hlog1].
      rewrite <- (list_insert_id (rx_attempts x1) i a1) by done.
      eapply change_attempt; [apply Hst1|by right|exact Ha1|done|by right| | | |left; split; [done|]].
      - intros j b c' Hj Hb Hbc Hac. apply Hj. by eapply (ao_distinct _ _ _ (st_ok _ _ _ _ Hst1)).
      - intros c' Hne. apply agree_owing. congruence.
      - intros c' Hc'. by eapply (ao_known _ _ _ (st_ok _ _ _ _ Hst1)).
      - unfold attempt_ok. rewrite Hsta1. exists c. cbn. rewrite lookup_insert_eq. split_and!; [done..|apply Hst1|apply Hst1]. }
    eapply HQ; [eapply (phase_racing _ _ _ (S i)); [exact Hr'|lia| |done]| |exact H2].
    + apply not_true_iff_false. intros Hf. apply (proj1 (all_failed_spec _) Hf) in Ha1. by rewrite Hsta1 in Ha1.
    + eapply rank_next; [exact Hr|exact Hlt|exact Hin1|]. exists a1. by auto.
  - (* won *)
    cbn [Z.eqb negb]. wp_steps. eapply wp_update_context; [exact H1|done|]. intros s2 H2. wp_steps.
    eapply wp_context; [exact H2|]. pose proof (won_any_next i c v2 x2 (S (rx_next_attempt_index x2)) Hwon) as Hwon'.
    assert (Hend : forall t' s', timer_ok x2 t' ->
      at_race v2 (set_rx_next_attempt_index (S (rx_next_attempt_index x2)) x2) t' (notify (cb_ready ucbs) Ready c) s' -> Q tt s').
    { intros t' s' Ht' Hs'. eapply HQ; [eapply (phase_won _ _ _ i c); [exact Hwon'|exact Hdel|exact Ht']| |exact Hs'].
      pose proof (rank_decided i v x v2 (set_rx_next_attempt_index (S (rx_next_attempt_index x2)) x2) TimerArmed t' Hr
        ltac:(by right) ltac:(apply Hwon') ltac:(apply Hwon')). cbn in *. lia. }
    apply wp_when; intros _; [|by eapply Hend]. eapply wp_timer_start; [exact H2|]. intros s3 H3. eapply Hend; [|exact H3].
    unfold timer_ok in *. destruct (all_attempts_concluded x2); [by subst|]. destruct Ht2 as [-> | ->]; by right.
  - (* failed at once *)
    rewrite (proj2 (Z.eqb_neq _ _) Hrc). cbn [negb]. wp_steps. destruct (st_attempt _ _ _ _ Hst2) as (a2 & Ha2 & Hc2 & Hsta2).
    eapply wp_register_failed; [exact H1|exact Ha2|by eapply starting_running|by left|apply Hst2| |].
    + intros x3 s3 Hats Hin Hnf H3. wp_steps. eapply wp_context; [exact H3|]. rewrite Hnf. wp_steps.
      assert (Hnext : rx_next_attempt_index x3 = i).
      { rewrite <- (st_next _ _ _ _ Hst2). by apply (f_equal rx_next_attempt_index) in Hin. }
      assert (Hlt2 : (i < length (rx_attempts x2))%nat) by (by eapply lookup_lt_Some).
      assert (Hok3 : attempts_ok v1 (rx_attempts x3) None).
      { rewrite Hats. eapply set_attempt; [apply Hst2|by right|exact Ha2|]. unfold attempt_ok, shut, idle. cbn. rewrite Hc2.
        split; [|exact Hfree]. split; [apply Hst2|]. eexists. apply Hst2. }
      eapply wp_next_timer; [exact H3|exact Hnext|by eapply attempts_length|]. intros s4 H4.
      assert (Hr' : racing (S i) v1 (set_rx_next_attempt_index (S i) x3)).
      { rewrite <- Hnext at 2. eapply racing_next; [exact Hst2|exact Hok3|exact Hin| | |].
        - intros j Hj. by rewrite Hats, list_lookup_insert_ne.
        - eexists. rewrite Hats, list_lookup_insert_eq by done. split; [done|by right].
        - unfold initialised in *. rewrite Hlog1, Hats. f_equal. f_equal. destruct Hconn as (a1 & Ha1 & Hc1 & _), Hin2 as [_ [b Hb]].
          rewrite Hb in Ha2 |- *. rewrite list_lookup_insert_eq in Ha2 by (by eapply lookup_lt_Some). injection Ha2 as ->.
          rewrite list_insert_insert_eq. symmetry. eapply connections_insert; [exact Ha1|]. cbn. congruence. }
      eapply HQ; [eapply (phase_racing _ _ _ (S i)); [exact Hr'|lia|by eapply pending_not_failed|done]| |exact H4].
      eapply rank_next; [exact Hr|exact Hlt| |].
      * eapply only_trans; [exact Hin1|]. eapply only_trans; [exact Hin2|]. split; [done|by eexists].
      * eexists. rewrite Hats, list_lookup_insert_eq by done. split; [done|by right].
    + intros x3 s3 Hats Hin Hall H3. exfalso.
      rewrite <- (attempts_length _ _ _ (st_ok _ _ _ _ Hst2)) in Hmore. apply lookup_lt_is_Some in Hmore as [b Hb].
      assert (Hb' : rx_attempts x3 !! S i = Some b) by (by rewrite Hats, list_lookup_insert_ne by lia).
      apply (proj1 (all_failed_spec x3) Hall) in Hb'. by rewrite (st_after _ _ _ _ Hst2 (S i) b Hb) in Hb' by lia.
Qed.

(** *** The end *)

(** The connections that the context frees. *)
Definition forget_attempt (v : view) (a : ct_racing_attempt) : view :=
  match at_connection a with
  | Some c => if bool_decide (at_state a <> ATTEMPT_STATE_SUCCEEDED) then forgotten c v else v
  | None => v
  end.

Definition freed_with (c : id) (a : ct_racing_attempt) : Prop :=
  at_connection a = Some c /\ at_state a <> ATTEMPT_STATE_SUCCEEDED.

Lemma forget_stage l v :
  v_stage (foldl forget_attempt v l) = v_stage v /\ v_impl (foldl forget_attempt v l) = v_impl v /\
  v_new (foldl forget_attempt v l) = v_new v /\ v_open (foldl forget_attempt v l) = v_open v /\
  v_log (foldl forget_attempt v l) = v_log v.
Proof.
  revert v. induction l as [|a l IH]; intros v; [done|]. cbn. destruct (IH (forget_attempt v a)) as (-> & -> & -> & -> & ->). unfold forget_attempt.
  destruct (at_connection a); [|done]. by destruct (bool_decide _).
Qed.

Lemma forget_kept l v c :
  (forall a, a ∈ l -> ~ freed_with c a) -> v_cbs (foldl forget_attempt v l) !! c = v_cbs v !! c.
Proof.
  revert v. induction l as [|a l IH]; intros v Hl; [done|]. cbn. rewrite IH by (intros b Hb; apply Hl; by constructor).
  pose proof (Hl a (list_elem_of_here _ _)) as Ha. unfold forget_attempt, freed_with in *.
  destruct (at_connection a) as [c'|]; [|done]. case_bool_decide as Hst; [|done]. cbn. apply lookup_delete_ne. naive_solver.
Qed.

Lemma forget_freed l v c a :
  a ∈ l -> freed_with c a -> v_cbs (foldl forget_attempt v l) !! c = None.
Proof.
  intros (l1 & l2 & ->)%list_elem_of_split [Hc Hst]. rewrite foldl_app. cbn.
  set (v1 := forget_attempt _ a). assert (Hv1 : v_cbs v1 !! c = None).
  { unfold v1, forget_attempt. rewrite Hc, bool_decide_true by done. apply lookup_delete_eq. }
  clearbody v1. revert v1 Hv1. induction l2 as [|b l2 IH]; intros v1 Hv1; [done|]. cbn. apply IH. unfold forget_attempt.
  destruct (at_connection b) as [c'|]; [|done]. destruct (bool_decide _); [|done]. cbn.
  by rewrite lookup_delete, Hv1; destruct (decide _).
Qed.

Lemma wp_free_attempt v x t ns s a (Q : unit -> race W -> Prop) :
  at_race v x t ns s -> idle v a -> at_state a = ATTEMPT_STATE_SUCCEEDED \/ shut v a ->
  (forall s', at_race (forget_attempt v a) x t ns s' -> Q tt s') -> wp (free_attempt a) Q s.
Proof.
  intros H Hidle Hshut HQ. unfold free_attempt. wp_steps.
  eapply wp_race_frees; [exact H|apply frees_protocol|]. intros s1 H1. wp_steps.
  eapply wp_race_frees; [exact H1|apply frees_local_opt|]. intros s2 H2. wp_steps.
  eapply wp_race_frees; [exact H2|apply frees_remote_opt|]. intros s3 H3.
  unfold forget_attempt, shut, idle in *. destruct (at_connection a) as [c|]; [|wp_steps; by apply HQ].
  destruct Hidle as [Hst Hcb]. apply wp_when; intros Hb; rewrite Hb in HQ; [|by apply HQ].
  eapply (wp_with_calls _ _ (fun r v' => r.2 = [] /\ v' = forgotten c v)); [exact H3| |].
  - intros w Hw. apply bool_decide_eq_true in Hb. destruct Hshut as [|[_ Hshut]]; [done|].
    destruct Hshut as [Hop Hnew]. eapply wp_mono; [by apply law_free|]. intros r w' [Hr Hw']. by eexists.
  - intros [] l v' s4 [Hl ->] H4. cbn in Hl. subst l. cbn. wp_steps. by apply HQ.
Qed.

(** All the attempts of a race without pending events. *)
Lemma wp_free_attempts v x t ns s :
  at_race v x t ns s -> attempts_ok v (rx_attempts x) None ->
  (forall i a, rx_attempts x !! i = Some a -> idle v a /\ (at_state a = ATTEMPT_STATE_SUCCEEDED \/ shut v a)) ->
  wp (for_each (rx_attempts x) free_attempt)
    (fun _ s' => at_race (foldl forget_attempt v (rx_attempts x)) x t ns s') s.
Proof.
  intros H Hok Hidle.
  apply (wp_for_each free_attempt (fun seen _ s' => at_race (foldl forget_attempt v seen) x t ns s')); [exact H|].
  intros seen a todo s1 Hsplit H1. destruct (forget_stage seen v) as (Es & Ei & En & Eo & _).
  assert (idle (foldl forget_attempt v seen) a) as Hid.
  { assert (Ha : rx_attempts x !! length seen = Some a) by (by rewrite Hsplit, list_lookup_middle).
    destruct (Hidle _ _ Ha) as [Hi _]. unfold idle in *. destruct (at_connection a) as [c|] eqn:Hc; [|done].
    rewrite Es, forget_kept; [done|]. intros b Hb [Hbc _]. apply list_elem_of_lookup in Hb as [j Hj].
    assert (Hj' : rx_attempts x !! j = Some b).
    { rewrite Hsplit. by apply lookup_app_l_Some. }
    pose proof (ao_distinct _ _ _ Hok _ _ _ _ _ Hj' Ha Hbc Hc) as ->. apply lookup_lt_Some in Hj. lia. }
  eapply wp_free_attempt; [exact H1|exact Hid| |intros s2 H2; by rewrite foldl_app].
  destruct (Hidle (length seen) a) as [_ [Hs|[_ Hs]]]; [by rewrite Hsplit, list_lookup_middle|by left|].
  right. split; [done|]. unfold freeable in *. by rewrite Ei, En, Eo.
Qed.

(** The operations of a race that is over: the connections were initialised,
    and the winner was asked for what [after_ready] says. *)
Definition requested (winner : option id) (v : view) : Prop :=
  exists cs l, v_log v = v_log v0 ++ (initialisation <$> cs) ++ l /\
    match winner with Some c => c ∈ cs /\ after_ready c l | None => l = [] end.

(** The race is over: the context is freed, no connection of the race owes an
    event, and of the connections and their callbacks only the winner, if
    any, is new; it is ready. *)
Record finished (winner : option id) (ns : list call) (cbs : gmap id ct_connection_callbacks) (s : race W) : Prop := {
  fi_world : exists v, rc_holds v (rs_world s) /\ v_stage v = ∅ /\ v_cbs v = cbs /\
    (forall c, winner = Some c -> c ∈ v_open v) /\ requested winner v;
  fi_context : rs_context s = None;
  fi_timer : rs_timer s = TimerFreed;
  fi_notes : notes s = ns }.

Lemma wp_on_timer_close winner v x ns s :
  at_race v x TimerClosing ns s -> attempts_ok v (rx_attempts x) None -> all_attempts_concluded x = true ->
  (forall c, winner = Some c -> c ∈ v_open v) -> requested winner v ->
  wp on_timer_close_free_context
    (fun _ s' => finished winner ns (v_cbs (foldl forget_attempt v (rx_attempts x))) s') s.
Proof.
  intros H Hok Hall Hwin Hreq. rewrite all_concluded_spec in Hall.
  assert (Hidle : forall i a, rx_attempts x !! i = Some a -> idle v a /\ (at_state a = ATTEMPT_STATE_SUCCEEDED \/ shut v a)).
  { intros i a Ha. pose proof (ao_ok _ _ _ Hok i a Ha ltac:(done)) as Hai. specialize (Hall i a Ha).
    unfold attempt_ok, shut in *. destruct (at_state a); try done; destruct Hai; auto. }
  assert (Hstage : v_stage v = ∅).
  { apply map_empty. intros c. apply eq_None_not_Some. intros [st Hst].
    destruct (ao_owned _ _ _ Hok c st Hst) as (i & a & Ha & Hc & _). destruct (Hidle i a Ha) as [Hi _].
    unfold idle in Hi. rewrite Hc in Hi. destruct Hi. congruence. }
  unfold on_timer_close_free_context, set_timer. wp_steps.
  assert (H1 : at_race v x TimerFreed ns (Race (rs_world s) (rs_context s) TimerFreed (rs_calls s))) by (by destruct H).
  eapply wp_race_frees; [exact H1|apply frees_block|]. intros s2 H2. wp_steps. eapply wp_context; [exact H2|]. wp_steps.
  assert (Hend : forall s3, at_race v x TimerFreed ns s3 ->
    wp (for_each (rx_attempts x) free_attempt ;;
        on_race_heap (when (negb (bool_decide (rx_attempts x = []))) free_block) ;;
        modify (fun s => Race (rs_world s) None (rs_timer s) (rs_calls s)) ;; on_race_heap free_block)
      (fun _ s' => finished winner ns (v_cbs (foldl forget_attempt v (rx_attempts x))) s') s3).
  { intros s3 H3. wp_steps. eapply wp_mono; [by apply wp_free_attempts|]. intros [] s4 H4. cbn beta. wp_steps.
    eapply wp_race_frees; [exact H4|apply frees_when; intros _; apply frees_block|]. intros s5 [Hw5 _ Ht5 _ Hn5]. wp_steps.
    unfold on_race_heap, in_world. wp_steps. eapply wp_mono; [eapply law_heap; [exact Hw5|by eapply allocs_orderly, allocs_frees, frees_block]|].
    intros [] w6 [_ Hw6]. split; cbn; [|done..]. eexists. split; [exact Hw6|]. destruct (forget_stage (rx_attempts x) v) as (-> & _ & _ & -> & El).
    split_and!; [done..|]. unfold requested. by rewrite El. }
  apply wp_when; intros _; [|by apply Hend]. wp_steps.
  eapply wp_race_frees; [exact H2|apply frees_message_opt|]. intros s3 H3.
  eapply wp_race_frees; [exact H3| |by apply Hend].
  instantiate (1 := match rx_initial_message_context x with Some _ => 1 | None => 0 end).
  destruct (rx_initial_message_context x); [apply frees_context|apply frees_ret].
Qed.

(** *** Events *)

(** The race is on, or over in one of two ways. *)
Inductive race_ok (s : race W) : Prop :=
| race_on v x t ns : phase v x t ns -> at_race v x t ns s -> race_ok s
| race_over_won c :
    v_cbs v0 !! c = None -> finished (Some c) (notify (cb_ready ucbs) Ready c) (<[c := ucbs]> (v_cbs v0)) s -> race_ok s
| race_over_lost : finished None failure_notes (v_cbs v0) s -> race_ok s.

(** Nothing that concerns the race happened. *)
Definition unconcerned (s s' : race W) : Prop :=
  rs_context s' = rs_context s /\ rs_timer s' = rs_timer s /\ notes s' = notes s /\
  exists v, rc_holds v (rs_world s) /\ rc_holds v (rs_world s').

(** What an event does: the race is as it should be, and nearer to its end
    unless the event did not concern it. *)
Definition event_done (e : race_event) (s s' : race W) : Prop :=
  race_ok s' /\ (measure s' < measure s \/ match e with RaceLoop _ => unconcerned s s' | _ => False end).

Lemma at_race_measure v x t ns s : at_race v x t ns s -> measure s = rank x + timer_weight t.
Proof. intros [_ Hx Ht _ _]. unfold measure. by rewrite Hx, Ht. Qed.

(** The same race over connections that look the same. *)
Definition same_race (s s' : race W) : Prop := rs_context s' = rs_context s /\ rs_timer s' = rs_timer s /\ notes s' = notes s.

Lemma at_race_same v x t ns s s' : at_race v x t ns s -> rc_holds v (rs_world s') -> same_race s s' -> at_race v x t ns s'.
Proof. intros [Hw Hx Ht Hi Hn] Hw' (Hc' & Ht' & Hn'). split; [done|congruence..|done|congruence]. Qed.

(** Calls that do not concern the race. *)
Lemma wp_unconcerned_calls ready l s (Q : unit -> race W -> Prop) :
  forallb quiet l = true ->
  (forall s', rs_world s' = rs_world s -> rs_context s' = rs_context s -> rs_timer s' = rs_timer s -> notes s' = notes s -> Q tt s') ->
  wp (for_each l (run_call ready)) Q s.
Proof.
  revert s. induction l as [|c l IH]; intros s Hq HQ; cbn [for_each].
  - wp_steps. by apply HQ.
  - cbn in Hq. apply andb_true_iff in Hq as [Hc Hl]. wp_steps.
    assert (Hrec : wp (modify (fun s => Race (rs_world s) (rs_context s) (rs_timer s) (rs_calls s ++ [c])))
              (fun _ s' => wp (for_each l (run_call ready)) Q s') s).
    { wp_steps. apply IH; [done|]. intros s' Hw Hx Ht Hn. apply HQ; [exact Hw|exact Hx|exact Ht|].
      rewrite Hn, notes_app, Hc, app_nil_r. by destruct s. }
    destruct c as [fn ev [c|]|fn c m ctx'|fn ev c]; cbn [run_call quiet] in *; try exact Hrec.
    destruct fn; cbn in Hc; done.
Qed.

(** An event of the loop, and the calls it makes. *)
Lemma wp_loop_event e s (P : unit * list call -> W -> Prop) (Q : unit -> race W -> Prop) :
  wp (calls_of (rop_run_event e)) P (rs_world s) ->
  (forall l s', P (tt, l) (rs_world s') -> same_race s s' -> wp (for_each l (run_call racing_on_attempt_ready)) Q s') ->
  wp (run_race_event gi gs (RaceLoop e)) Q s.
Proof.
  intros Hlaw HQ. cbn [run_race_event]. unfold with_calls. wp_steps. unfold calls_of in Hlaw. apply wp_bind_inv in Hlaw.
  unfold in_world. wp_steps. eapply wp_mono; [exact Hlaw|]. intros [] w1 H1. cbn. apply wp_bind_inv in H1. wp_steps.
  eapply wp_mono; [exact H1|]. intros l w2 H2. cbn. apply wp_ret in H2. wp_steps.
  eapply wp_mono; [by eapply HQ|]. intros [] s' Hs'. by wp_steps.
Qed.

Lemma wp_event e v s (Q : unit -> race W -> Prop) :
  rc_holds v (rs_world s) ->
  (forall s', rc_holds v (rs_world s') -> same_race s s' -> Q tt s') ->
  (forall c cbs l v' s', v_cbs v !! c = Some cbs ->
     outcome_of c cbs v l v' -> rc_holds v' (rs_world s') -> same_race s s' ->
     wp (for_each l (run_call (racing_on_attempt_ready))) Q s') ->
  wp (run_race_event gi gs (RaceLoop e)) Q s.
Proof.
  intros Hw Hquiet Hloud. eapply wp_loop_event; [by apply law_event|]. intros l s' H2 Hsame. cbn in H2.
  destruct H2 as [[Hq Hw2]|(c & cbs & Hcbs & Hst)].
  - apply wp_unconcerned_calls; [done|]. intros s2 Hw' Hx Ht Hn. apply Hquiet; [by rewrite Hw'|].
    destruct Hsame as (? & ? & ?). unfold same_race. split_and!; congruence.
  - unfold outcome_of in Hloud. destruct Hst as [[Hst [[Hl Hw2]|[Hl Hw2]]]|(Hst & Hl & Hw2)]; eapply Hloud; [exact Hcbs| |exact Hw2|done
      |exact Hcbs| |exact Hw2|done|exact Hcbs| |exact Hw2|done]; auto 6.
Qed.

(** While the race is on, attempt [i] becoming ready or failing. *)
Lemma wp_outcome_racing next c cbs l v v1 x s :
  racing next v x -> (1 <= next <= length cands)%nat ->
  v_cbs v !! c = Some cbs -> outcome_of c cbs v l v1 -> at_race v1 x (stagger next) [] s ->
  wp (for_each l (run_call racing_on_attempt_ready))
    (fun _ s' => race_ok s' /\ measure s' < rank x + timer_weight (stagger next)) s.
Proof.
  intros Hr Hnext Hcbs Hl H. pose proof (ra_ok _ _ _ Hr) as Hok.
  assert (Hopen : open_timer (stagger next)) by (unfold stagger; destruct (_ <? _)%nat; [by right|by left]).
  assert (Hst : exists st, v_stage v !! c = Some st) by (destruct Hl as [[-> _]|[-> _]]; by eexists).
  destruct Hst as [st Hst]. destruct (ao_owned _ _ _ Hok c st Hst) as (i & a & Ha & Hc & _).
  assert (Hsta : at_state a = ATTEMPT_STATE_CONNECTING).
  { pose proof (ao_ok _ _ _ Hok i a Ha ltac:(done)) as Hai. unfold attempt_ok in Hai.
    destruct (decide (i < next)%nat).
    - destruct (ra_started _ _ _ Hr i a Ha ltac:(done)) as [E|E]; [done|]. rewrite E in Hai. unfold shut, idle in Hai.
      rewrite Hc in Hai. destruct Hai as [[] _]. congruence.
    - rewrite (ra_pending _ _ _ Hr i a Ha) in Hai by lia. congruence. }
  assert (Hai : v_cbs v !! c = Some (attempt_cbs i) /\ c ∉ v_open v).
  { pose proof (ao_ok _ _ _ Hok i a Ha ltac:(done)) as Hai. unfold attempt_ok in Hai. rewrite Hsta in Hai.
    destruct Hai as (c' & Hc' & _ & ? & ?). by replace c with c' by congruence. }
  destruct Hai as [Hcb Hshut]. assert (cbs = attempt_cbs i) as -> by congruence.
  assert (Hok1 : attempts_ok (settled c v) (rx_attempts x) (Some i)) by (eapply settle_attempt; [by left|by left|exact Hok|done|done]).
  assert (Hok2 : attempts_ok (settled c v) (<[i := set_at_state ATTEMPT_STATE_FAILED a]> (rx_attempts x)) None).
  { eapply set_attempt; [exact Hok1|by right|done|]. unfold attempt_ok, shut, idle. cbn [at_state at_connection set_at_state].
    rewrite Hc. split; [|split; cbn; [exact Hshut|set_solver]]. split; [apply lookup_delete_eq|]. by eapply (ao_known _ _ _ Hok1). }
  assert (Hilt : (i < next)%nat).
  { destruct (decide (i < next)%nat); [done|]. rewrite (ra_pending _ _ _ Hr i a Ha) in Hsta by lia. done. }
  destruct Hl as [[_ [[-> ->]|[-> ->]]]|(Hsh & _ & _)].
  - cbn. wp_steps. pose proof (candidate_at _ _ _ _ _ Hok Ha) as [Hp _].
    assert (Hlog : initialised (rx_attempts x) (opened c v)) by exact (ra_log _ _ _ Hr).
    eapply wp_racing_on_attempt_ready; [exact H|by eapply racing_ready|exact Hopen|exact Hlog|].
    intros v' x' t' s' Hwon Hdel Ht _ H'. wp_steps. split.
    + eapply race_on; [by eapply phase_won|exact H'].
    + rewrite (at_race_measure _ _ _ _ _ H'). eapply rank_decided; [exact Hr|exact Hopen|apply Hwon|apply Hwon].
  - assert (Hlog : forall x', rx_attempts x' = <[i := set_at_state ATTEMPT_STATE_FAILED a]> (rx_attempts x) ->
              initialised (rx_attempts x') (settled c v)).
    { intros x' Hats. unfold initialised. rewrite Hats, (connections_insert _ _ a) by done. exact (ra_log _ _ _ Hr). }
    cbn. unfold on_attempt_establishment_error. wp_steps. eapply wp_attempt_of; [exact H|exact Hcb|done|].
    intros s1 H1. wp_steps. eapply wp_context; [exact H1|]. rewrite (ra_open _ _ _ Hr).
    eapply wp_register_failed; [exact H1|exact Ha|by eapply racing_running|exact Hopen|apply Hr| |].
    + intros x' s' Hats Hin Hnf H'. wp_steps.
      assert (Hr' : racing next (settled c v) x').
      { pose proof (Hlog x' Hats) as Hlog'. split; rewrite ?Hats; [done|rewrite <- (ra_open _ _ _ Hr); by apply (f_equal rx_race_complete) in Hin
          |rewrite <- (ra_user _ _ _ Hr); by apply (f_equal rx_user_callbacks) in Hin
          |rewrite <- (ra_next _ _ _ Hr); by apply (f_equal rx_next_attempt_index) in Hin| | |rewrite <- Hats; exact Hlog'].
        - intros j b [(-> & <- & _)|[_ Hb]]%list_lookup_insert_Some Hj; [by right|by eapply (ra_started _ _ _ Hr)].
        - intros j b [(-> & <- & _)|[_ Hb]]%list_lookup_insert_Some Hj; [lia|by eapply (ra_pending _ _ _ Hr)]. }
      split; [eapply race_on; [by eapply phase_racing|exact H']|]. rewrite (at_race_measure _ _ _ _ _ H').
      pose proof (total_change weight _ _ i a _ Ha Hats) as Ht. rewrite Hsta in Ht. cbn in Ht.
      unfold rank. rewrite (ra_open _ _ _ Hr), (ra_open _ _ _ Hr'), Ht. lia.
    + intros x' s' Hats Hin Hall H'. wp_steps.
      assert (Hcomplete : rx_race_complete x' = true) by (by apply (f_equal rx_race_complete) in Hin).
      rewrite <- Hats in Hok2. split; [eapply race_on; [eapply phase_lost; [exact Hok2|exact Hcomplete|exact Hall|by apply Hlog|done]|exact H']|].
      rewrite (at_race_measure _ _ _ _ _ H'). by eapply rank_decided.
  - rewrite Hsh in Hst. injection Hst as <-. pose proof (ao_ok _ _ _ Hok i a Ha ltac:(done)) as Hai.
    unfold attempt_ok in Hai. rewrite Hsta in Hai. destruct Hai as (c' & Hc' & Hs' & _). congruence.
Qed.

(** After the end is decided, the only outcomes are closed connections. *)
Lemma wp_outcome_won w cw c cbs l v v1 x t ns s :
  won w cw v x -> delivered cw (rx_attempts x) v -> timer_ok x t -> ns = notify (cb_ready ucbs) Ready cw ->
  v_cbs v !! c = Some cbs -> outcome_of c cbs v l v1 -> at_race v1 x t ns s ->
  wp (for_each l (run_call racing_on_attempt_ready)) (fun _ s' => race_ok s' /\ measure s' < rank x + timer_weight t) s.
Proof.
  intros Hw Hdel Ht -> Hcbs Hl H. pose proof (wn_at _ _ _ _ Hw) as Hat. pose proof (wo_ok _ _ _ _ Hat) as Hok.
  assert (Hst : exists st, v_stage v !! c = Some st) by (destruct Hl as [[-> _]|[-> _]]; by eexists).
  destruct Hst as [st Hst]. destruct (ao_owned _ _ _ Hok c st Hst) as (i & a & Ha & Hc & _).
  pose proof (ao_ok _ _ _ Hok i a Ha ltac:(done)) as Hai. unfold attempt_ok in Hai.
  destruct (wo_winner _ _ _ _ Hat) as (aw & Haw & Hstw).
  assert (Hne : i <> w).
  { intros ->. replace a with aw in * by congruence. rewrite Hstw in Hai. destruct Hai as [Hai _]. unfold idle in Hai.
    rewrite Hc in Hai. destruct Hai. congruence. }
  assert (Hlt : (i < length cands)%nat) by (rewrite <- (attempts_length _ _ _ Hok); by eapply lookup_lt_Some).
  pose proof (wo_before _ _ _ _ Hat i a Ha Hne Hlt) as Hstop. unfold live, shut, idle in Hai. rewrite Hc in Hai.
  destruct (at_state a) eqn:Hsta; try done; [|by destruct Hai as [[? _] _]; congruence..].
  destruct Hai as (c' & Hc' & Hshut & Hcb & Hopen). replace c' with c in * by congruence.
  replace cbs with (closing_cbs i) in * by congruence.
  destruct Hl as [[Hl _]|(_ & -> & ->)]; [congruence|]. cbn. wp_steps.
  assert (Hok1 : attempts_ok (settled c v) (rx_attempts x) (Some i)) by (eapply settle_attempt; [by left|by left|exact Hok|done|done]).
  eapply (wp_raced_close _ _ _ _ w i a c);
    [exact H|by exists aw|done|exact Ha|exact Hc|exact Hcb|apply lookup_delete_eq|split; cbn; [exact Hopen|set_solver]|exact Hok1
    |by eapply open_before; [exact Ht|exact Ha|rewrite Hsta]|].
  intros x' t' s' Hats Hin Ht' Hok' Hs'. wp_steps.
  assert (Hcomplete : rx_race_complete x' = rx_race_complete x) by (by apply (f_equal rx_race_complete) in Hin).
  destruct (wn_connection _ _ _ _ Hw) as (aw' & Haw' & Hcw). replace aw' with aw in * by congruence. split.
  - eapply race_on; [|exact Hs'].
    eapply (phase_won _ _ _ w cw); [|unfold delivered; by rewrite Hats, (connections_insert _ _ a)|exact Ht']. split.
    + split; [exact Hok'|by rewrite Hcomplete; apply Hat|exists aw; by rewrite Hats, list_lookup_insert_ne| |].
      * intros j b. rewrite Hats. intros [(-> & <- & _)|[_ Hb]]%list_lookup_insert_Some Hj _; [done|].
        eapply (wo_before _ _ _ _ Hat j b); [done..|]. rewrite <- (attempts_length _ _ _ Hok). by eapply lookup_lt_Some.
      * intros j b Hb _ Hle. apply lookup_lt_Some in Hb. rewrite (attempts_length _ _ _ Hok') in Hb. lia.
    + exists aw. by rewrite Hats, list_lookup_insert_ne.
    + apply Hw.
  - rewrite (at_race_measure _ _ _ _ _ Hs'). pose proof (total_change shutting _ _ i a _ Ha Hats) as Htot.
    rewrite Hsta in Htot. cbn in Htot. unfold rank. rewrite Hcomplete, (wo_complete _ _ _ _ Hat), Htot.
    unfold timer_ok in Ht, Ht'. destruct (all_attempts_concluded x), (all_attempts_concluded x');
      repeat match goal with H : open_timer _ |- _ => destruct H as [-> | ->] | H : _ = TimerClosing |- _ => subst end; cbn; lia.
Qed.

(** What is left of a connection that is not the winner's. *)
Lemma left_over v x c :
  attempts_ok v (rx_attempts x) None ->
  (forall i a, rx_attempts x !! i = Some a -> at_connection a = Some c -> at_state a <> ATTEMPT_STATE_SUCCEEDED) ->
  v_cbs (foldl forget_attempt v (rx_attempts x)) !! c = v_cbs v0 !! c.
Proof.
  intros Hok Hst. destruct (decide (Exists (fun a => at_connection a = Some c) (rx_attempts x))) as [Hex|Hno].
  - apply Exists_exists in Hex as (a & Hin%list_elem_of_In & Hac). destruct (proj1 (list_elem_of_lookup _ _) Hin) as [j Hj].
    rewrite (ao_new _ _ _ Hok j a c) by done. eapply forget_freed; [done|]. split; [done|by eapply Hst].
  - assert (Hno' : forall i a, rx_attempts x !! i = Some a -> at_connection a <> Some c).
    { intros i a Ha Hac. apply Hno, Exists_exists. exists a. split; [by eapply list_elem_of_In, list_elem_of_lookup_2|done]. }
    rewrite forget_kept; [by apply (ao_rest _ _ _ Hok)|]. intros a (j & Hj)%list_elem_of_lookup [Hac _]. by eapply Hno'.
Qed.

(** The winner's connection is ready. *)
Lemma won_live w c v x : won w c v x -> c ∈ v_open v.
Proof.
  intros Hw. pose proof (wn_at _ _ _ _ Hw) as Hat. destruct (wn_connection _ _ _ _ Hw) as (a & Ha & Hc).
  destruct (wo_winner _ _ _ _ Hat) as (a' & Ha' & Hst). replace a' with a in * by congruence.
  pose proof (ao_ok _ _ _ (wo_ok _ _ _ _ Hat) w a Ha ltac:(done)) as Hok. unfold attempt_ok in Hok. rewrite Hst in Hok.
  destruct Hok as (_ & c' & Hc' & Hop). by replace c with c' by congruence.
Qed.

(** What is left when the context is freed. *)
Lemma won_left w c v x :
  won w c v x -> v_cbs v0 !! c = None /\ v_cbs (foldl forget_attempt v (rx_attempts x)) = <[c := ucbs]> (v_cbs v0).
Proof.
  intros Hw. pose proof (wn_at _ _ _ _ Hw) as Hat. pose proof (wo_ok _ _ _ _ Hat) as Hok.
  destruct (wn_connection _ _ _ _ Hw) as (aw & Haw & Hc). destruct (wo_winner _ _ _ _ Hat) as (aw' & Haw' & Hst).
  replace aw' with aw in * by congruence. split; [by eapply (ao_new _ _ _ Hok)|].
  apply map_eq. intros c'. destruct (decide (c' = c)) as [->|Hne].
  - rewrite lookup_insert_eq, forget_kept; [apply Hw|]. intros a (j & Hj)%list_elem_of_lookup [Hac Hast].
    apply Hast. by rewrite (ao_distinct _ _ _ Hok _ _ _ _ _ Hj Haw Hac Hc), Haw in Hj; injection Hj as <-.
  - rewrite lookup_insert_ne by done. apply left_over; [done|]. intros j a Hj Hac Hsu.
    assert (Hjw : j <> w) by (intros ->; congruence).
    pose proof (wo_before _ _ _ _ Hat j a Hj Hjw) as Hstop. rewrite Hsu, <- (attempts_length _ _ _ Hok) in Hstop.
    by discriminate Hstop; eapply lookup_lt_Some.
Qed.

Lemma lost_left v x :
  attempts_ok v (rx_attempts x) None -> all_attempts_failed x = true ->
  v_cbs (foldl forget_attempt v (rx_attempts x)) = v_cbs v0.
Proof.
  intros Hok Hall. apply map_eq. intros c. apply left_over; [done|]. intros j a Hj _ Hsu.
  apply (proj1 (all_failed_spec x) Hall) in Hj. by rewrite Hsu in Hj.
Qed.

Lemma failed_concluded x : all_attempts_failed x = true -> all_attempts_concluded x = true.
Proof.
  rewrite all_failed_spec, all_concluded_spec. intros H i a Ha. specialize (H i a Ha). by destruct (at_state a).
Qed.

(** Whatever a connection of the race owed, the race is nearer to its end. *)
Lemma wp_outcome c cbs l v v1 x t ns s s' :
  phase v x t ns -> at_race v x t ns s -> v_cbs v !! c = Some cbs -> outcome_of c cbs v l v1 ->
  rc_holds v1 (rs_world s') -> same_race s s' ->
  wp (for_each l (run_call racing_on_attempt_ready)) (fun _ s2 => race_ok s2 /\ measure s2 < measure s) s'.
Proof.
  intros Hp H Hcbs Hl Hw' Hsame. pose proof (at_race_measure _ _ _ _ _ H) as Hm.
  assert (H' : at_race v1 x t ns s') by (destruct H, Hsame as (? & ? & ?); split; [done|congruence|congruence|done|congruence]).
  rewrite Hm. destruct Hp as [next Hr Hn Hf Hst|w cw Hw Hdel Hto|Hok Hcomp Hall Hlog Hst].
  - subst t. by eapply wp_outcome_racing.
  - by eapply wp_outcome_won.
  - exfalso. assert (Hst' : exists st, v_stage v !! c = Some st) by (destruct Hl as [[-> _]|[-> _]]; by eexists).
    destruct Hst' as [st Hst']. destruct (ao_owned _ _ _ Hok c st Hst') as (i & a & Ha & Hc & _).
    pose proof (ao_ok _ _ _ Hok i a Ha ltac:(done)) as Hai. apply (proj1 (all_failed_spec x) Hall) in Ha.
    unfold attempt_ok, shut, idle in Hai. rewrite Hc in Hai. destruct (at_state a); try done; destruct Hai as [[] _]; congruence.
Qed.

(** Any event that can happen is dealt with. *)
Lemma wp_race_event e s :
  race_ok s -> timer_possible e s = true -> wp (run_race_event gi gs e) (fun _ s' => event_done e s s') s.
Proof.
  intros Hs Hpos. destruct e as [| |e].
  - (* the timer fires *)
    cbn in Hpos. apply bool_decide_eq_true in Hpos.
    destruct Hs as [v x t ns Hp H|c _ [_ _ Ht _]|[_ _ Ht _]]; [|congruence..].
    pose proof (at_race_measure _ _ _ _ _ H) as Hm. pose proof (ar_timer _ _ _ _ _ H) as Ht. rewrite Hpos in Ht. subst t.
    cbn [run_race_event]. unfold set_timer, on_stagger_timer. wp_steps.
    assert (H1 : at_race v x TimerIdle ns (Race (rs_world s) (rs_context s) TimerIdle (rs_calls s))) by (by destruct H).
    eapply wp_context; [exact H1|]. destruct Hp as [next Hr Hn Hf Hst|w c Hw Hdel Hto|_ _ _ _ Hst]; [| |done].
    + rewrite (ra_open _ _ _ Hr). unfold stagger in Hst. destruct (next <? length cands)%nat eqn:Hlt; [|done].
      eapply wp_initiate_next_attempt; [exact H1|exact Hr|by apply Nat.ltb_lt|].
      intros v' x' t' ns' s' Hp' Hrank H'. split; [by eapply race_on|]. left.
      rewrite (at_race_measure _ _ _ _ _ H'). cbn in Hm. lia.
    + rewrite (wo_complete _ _ _ _ (wn_at _ _ _ _ Hw)). wp_steps. split.
      * eapply race_on; [eapply phase_won; [exact Hw|exact Hdel|]|exact H1]. unfold timer_ok in *.
        destruct (all_attempts_concluded x); [done|by left].
      * left. rewrite (at_race_measure _ _ _ _ _ H1). cbn in *. lia.
  - (* the timer is closed *)
    cbn in Hpos. apply bool_decide_eq_true in Hpos.
    destruct Hs as [v x t ns Hp H|c _ [_ _ Ht _]|[_ _ Ht _]]; [|congruence..].
    pose proof (at_race_measure _ _ _ _ _ H) as Hm. pose proof (ar_timer _ _ _ _ _ H) as Ht. rewrite Hpos in Ht. subst t.
    pose proof (phase_bounds _ _ _ _ Hp) as Hb.
    assert (Hend : forall w' ns' cbs s', finished w' ns' cbs s' -> measure s' < measure s).
    { intros w' ns' cbs s' [_ Hx _ _]. unfold measure at 1. rewrite Hx. lia. }
    cbn [run_race_event]. destruct Hp as [next Hr Hn Hf Hst|w c Hw Hdel Hto|Hok Hcomp Hall Hlog Hst].
    + unfold stagger in Hst. by destruct (_ <? _)%nat.
    + pose proof (won_left _ _ _ _ Hw) as [Hnew Hleft].
      eapply wp_mono; [eapply (wp_on_timer_close (Some c)); [exact H|apply Hw| | |]|].
      * unfold timer_ok in Hto. destruct (all_attempts_concluded x); [done|]. by destruct Hto.
      * intros ? [= <-]. by eapply won_live.
      * destruct Hdel as (Hin & l & Hl & El). by exists (connections_of (rx_attempts x)), l.
      * intros [] s' Hfin. rewrite Hleft in Hfin. split; [by eapply race_over_won|]. left. by eapply Hend.
    + eapply wp_mono; [eapply (wp_on_timer_close None); [exact H|exact Hok|by apply failed_concluded|done|]|].
      { exists (connections_of (rx_attempts x)), []. by rewrite app_nil_r. }
      intros [] s' Hfin. rewrite lost_left in Hfin by done. split; [by eapply race_over_lost|]. left. by eapply Hend.
  - (* another event *)
    assert (Hfin : forall w ns cbs, finished w ns cbs s ->
      (forall s', finished w ns cbs s' -> race_ok s') -> wp (run_race_event gi gs (RaceLoop e)) (fun _ s' => event_done (RaceLoop e) s s') s).
    { intros w ns cbs [(v & Hw & Hst & Hcb & Hlive & Hreq) Hx Ht Hn] Hend. eapply wp_event; [exact Hw| |].
      - intros s' Hw' (Hx' & Ht' & Hn'). split; [apply Hend|right; split_and!; [done..|by exists v]].
        split; [by exists v|congruence..].
      - intros c' cbs' l v' s' _ Hl. unfold outcome_of in Hl. rewrite Hst, lookup_empty in Hl.
        by destruct Hl as [[? _]|[? _]]. }
    destruct Hs as [v x t ns Hp H|c Hnew Hf|Hf].
    + eapply wp_event; [by apply H| |].
      { intros s' Hw' Hsame. split; [eapply race_on; [exact Hp|by eapply at_race_same]|right].
        destruct Hsame as (? & ? & ?). split_and!; [done..|]. exists v. split; [apply H|done]. }
      intros c cbs l v1 s' Hcbs Hl Hw' Hsame. eapply wp_mono; [by eapply wp_outcome|].
      intros [] s2 [Hr2 Hm2]. split; [done|by left].
    + eapply Hfin; [exact Hf|]. intros s'. by apply race_over_won.
    + eapply Hfin; [exact Hf|]. intros s'. by apply race_over_lost.
Qed.

(** *** Runs *)

(** The application starts the race; then the loop delivers events, in any
    order that is possible. *)
Definition start_race : M (race W) unit :=
  racing_context_create ucbs input msg ctx early ;;
  start_candidate_racing_on_nodes_ready gi gs (Some cands).

Definition race_step (s s' : race W) : Prop :=
  exists e, timer_possible e s = true /\ run_race_event gi gs e s = Ok (tt, s').

Lemma race_steps_ok s s' : rtc race_step s s' -> race_ok s -> race_ok s'.
Proof.
  induction 1 as [s|s s1 s2 (e & Hpos & Hrun) _ IH]; [done|]. intros Hs. apply IH.
  pose proof (wp_race_event e s Hs Hpos) as Hwp. unfold wp in Hwp. rewrite Hrun in Hwp. apply Hwp.
Qed.

Definition before_race (w : W) : race W := Race w None TimerFreed [].

Lemma nodes_ready_nonempty l :
  l <> [] -> start_candidate_racing_on_nodes_ready gi gs (Some l) =
    (context ;; ok ← racing_context_initialize_attempt_array l;
     assert_ ok "NULL array of attempts" ;; initiate_next_attempt gi gs).
Proof. by destruct l. Qed.

(** The context before there are candidates. *)
Definition fresh_context : ct_racing_context := RacingContext [] 0 early msg ctx ucbs false (-1) 0 input.

Lemma wp_context_create w :
  rc_holds v0 w ->
  wp (racing_context_create ucbs input msg ctx early) (fun ok s => ok = true /\ at_race v0 fresh_context TimerIdle [] s)
    (before_race w).
Proof.
  intros Hw. unfold racing_context_create, on_race_heap, in_world. wp_steps.
  eapply wp_mono; [eapply law_heap; [exact Hw|eapply allocs_orderly, allocs_malloc]|]. intros ? w1 [<- Hw1]. cbn [negb]. wp_steps.
  eapply wp_mono; [eapply law_heap; [exact Hw1|eapply allocs_orderly, allocs_malloc]|]. intros ? w2 [<- Hw2]. cbn [negb]. wp_steps.
  split; [done|]. by split.
Qed.

Lemma wp_nodes_ready s :
  cands <> [] -> v_stage v0 = ∅ -> at_race v0 fresh_context TimerIdle [] s ->
  wp (start_candidate_racing_on_nodes_ready gi gs (Some cands))
    (fun _ s' => race_ok s' /\ measure s' <= 5 * Z.of_nat (length cands) + 7) s.
Proof.
  intros Hne Hst H. rewrite nodes_ready_nonempty by done. wp_steps.
  eapply wp_context; [exact H|]. unfold racing_context_initialize_attempt_array. wp_steps.
  eapply wp_race_heap; [exact H|apply allocs_malloc|]. intros ? s1 <- H1. cbn [negb]. wp_steps.
  eapply wp_update_context; [exact H1|done|]. intros s2 H2. wp_steps; [done|]. wp_steps.
  eapply (wp_initiate_next_attempt 0); [exact H2| |by apply Nat.neq_0_lt_0; intros ?%nil_length_inv|].
  - split; cbn [set_rx_attempts rx_attempts rx_race_complete rx_user_callbacks rx_next_attempt_index]; try done.
    + assert (Hget : forall i a, ((fun n => RacingAttempt None n ATTEMPT_STATE_PENDING) <$> cands) !! i = Some a ->
                at_connection a = None /\ at_state a = ATTEMPT_STATE_PENDING).
      { intros i a. rewrite list_lookup_fmap. destruct (cands !! i); [|done]. by intros [= <-]. }
      split.
      * rewrite <- list_fmap_compose. apply list_fmap_id.
      * intros i a Ha _. apply Hget in Ha as [? Hs]. unfold attempt_ok. by rewrite Hs.
      * intros i j a b c Ha _ Hac. apply Hget in Ha as []. congruence.
      * intros i a c Ha Hac. apply Hget in Ha as []. congruence.
      * intros c st. by rewrite Hst, lookup_empty.
      * done.
      * intros i a c Ha Hac. apply Hget in Ha as []. congruence.
    + intros; lia.
    + intros i a. rewrite list_lookup_fmap. destruct (cands !! i); [|done]. by intros [= <-].
    + unfold initialised. rewrite connections_none; [cbn; by rewrite app_nil_r|].
      intros i a. rewrite list_lookup_fmap. destruct (cands !! i); [|done]. by intros [= <-].
  - intros v' x' t' ns s' Hp _ H'. split; [by eapply race_on|]. rewrite (at_race_measure _ _ _ _ _ H').
    apply phase_bounds in Hp. lia.
Qed.

Lemma wp_start_race w :
  cands <> [] -> rc_holds v0 w -> v_stage v0 = ∅ ->
  wp start_race
    (fun _ s => race_ok s /\ measure s <= 5 * Z.of_nat (length cands) + 7) (before_race w).
Proof.
  intros Hne Hw Hst. unfold start_race. wp_steps. eapply wp_mono; [by apply wp_context_create|]. intros ? s [-> Hs]. by apply wp_nodes_ready.
Qed.

(** However the events are ordered, the race is as it should be. *)
Lemma wp_race_runs w :
  cands <> [] -> rc_holds v0 w -> v_stage v0 = ∅ ->
  wp start_race (fun _ s0 => forall s, rtc race_step s0 s -> race_ok s) (before_race w).
Proof.
  intros Hne Hw Hst. eapply wp_mono; [by apply wp_start_race|]. intros [] s0 [Hs0 _] s Hrun. by eapply race_steps_ok.
Qed.

Lemma race_ok_notes s :
  race_ok s -> notes s = [] \/ notes s = failure_notes \/ exists c, notes s = notify (cb_ready ucbs) Ready c.
Proof.
  intros [v x t ns Hp H|c _ [_ _ _ ->]|[_ _ _ ->]]; [|right; right; by exists c|by right; left].
  rewrite (ar_notes _ _ _ _ _ H). destruct Hp as [| w' c|]; [by left|right; right; by exists c|by right; left].
Qed.

(** What the connections have been asked for so far. *)
Lemma race_ok_requested s :
  race_ok s -> exists v, rc_holds v (rs_world s) /\
    ((notes s = [] \/ notes s = failure_notes) /\ requested None v \/
     exists c, notes s = notify (cb_ready ucbs) Ready c /\ requested (Some c) v).
Proof.
  intros [v x t ns Hp H|c _ [(v & Hw & _ & _ & _ & Hreq) _ _ Hn]|[(v & Hw & _ & _ & _ & Hreq) _ _ Hn]].
  - exists v. split; [apply H|]. rewrite (ar_notes _ _ _ _ _ H).
    destruct Hp as [next Hr _ _ _|w' c _ (Hin & l & Hl & El) _|_ _ _ Hlog _].
    + left. split; [by left|]. exists (connections_of (rx_attempts x)), []. split; [|done]. rewrite app_nil_r. apply Hr.
    + right. exists c. split; [done|]. by exists (connections_of (rx_attempts x)), l.
    + left. split; [by right|]. exists (connections_of (rx_attempts x)), []. split; [|done]. by rewrite app_nil_r.
  - exists v. split; [done|]. right. by exists c.
  - exists v. split; [done|]. left. by split; [right|].
Qed.

Lemma race_ok_over s :
  race_ok s -> rs_context s = None ->
  finished None failure_notes (v_cbs v0) s \/
  exists c, v_cbs v0 !! c = None /\ finished (Some c) (notify (cb_ready ucbs) Ready c) (<[c := ucbs]> (v_cbs v0)) s.
Proof.
  intros [v x t ns Hp H|c Hnew Hf|Hf]; [|right; by exists c|by left]. intros Hx. by rewrite (ar_context _ _ _ _ _ H) in Hx.
Qed.

(** C5: racing is safe, for connections that meet the contract [RaceContract]
    (so allocations succeed), when there is a candidate, every candidate has
    resolved endpoints and a protocol of the contract, the last one's
    initialisation cannot fail synchronously (the context would be used after it
    is freed, see [last_attempt_failing_at_once_faults]), the callbacks are the
    application's own, the message, if any, can be sent, and no connection owes
    an event. From the start of the race, however the events that the contract
    covers are ordered, no step has undefined behaviour (a connection or a
    context used after it was freed, a handle closed twice); the application is
    notified at most once of the outcome; once the context is freed it has been
    notified exactly once, that one connection is ready, which has its
    callbacks, or that no candidate could be connected; and the connections that
    the contract still knows, with their callbacks, are those from before the
    race and the winner. *)
Theorem race_safe w :
  cands <> [] -> rc_holds v0 w -> v_stage v0 = ∅ ->
  wp start_race
    (fun _ s0 => forall s, rtc race_step s0 s ->
       (forall e, timer_possible e s = true -> wp (run_race_event gi gs e) (fun _ _ => True) s) /\
       (notes s = [] \/ notes s = failure_notes \/ exists c, notes s = notify (cb_ready ucbs) Ready c) /\
       (rs_context s = None ->
          finished None failure_notes (v_cbs v0) s \/
          exists c, v_cbs v0 !! c = None /\ finished (Some c) (notify (cb_ready ucbs) Ready c) (<[c := ucbs]> (v_cbs v0)) s))
    (before_race w).
Proof.
  intros Hne Hw Hst. eapply wp_mono; [by apply wp_race_runs|]. intros [] s0 Hs0 s Hrun. apply Hs0 in Hrun. split_and!.
  - intros e He. eapply wp_mono; [by apply wp_race_event|]. done.
  - by apply race_ok_notes.
  - by apply race_ok_over.
Qed.

(** C9: a race ends, under the hypotheses of [race_safe]: connections that
    meet the contract [RaceContract], candidates that it covers, the last of
    which does not fail synchronously.  Every event that concerns the race
    brings it nearer to its end: a number bounded by five for every candidate
    and seven decreases, and it is zero only when the race is over; an event
    that does not decrease it leaves the context, the timer and the
    notifications as they were, and what the contract knows of the connections
    (what they owe, their callbacks, which are open). *)
Theorem race_terminates w :
  cands <> [] -> rc_holds v0 w -> v_stage v0 = ∅ ->
  wp start_race
    (fun _ s0 => measure s0 <= 5 * Z.of_nat (length cands) + 7 /\
       forall s s', rtc race_step s0 s -> race_step s s' ->
         0 <= measure s' /\ (measure s' = 0 -> rs_context s' = None) /\ (measure s' < measure s \/ unconcerned s s'))
    (before_race w).
Proof.
  intros Hne Hw Hst. eapply wp_mono; [by apply wp_start_race|]. intros [] s0 [Hs0 Hm]. split; [done|].
  intros s s' Hrun (e & Hpos & He). apply race_steps_ok in Hrun; [|done].
  pose proof (wp_race_event e s Hrun Hpos) as Hwp. unfold wp in Hwp. rewrite He in Hwp. destruct Hwp as [Hs' Hdec].
  assert (Hdec' : measure s' < measure s \/ unconcerned s s') by (destruct Hdec; [by left|right; by destruct e]).
  assert (Hs'' : 0 <= measure s' /\ (measure s' = 0 -> rs_context s' = None)); [|by destruct Hs''].
  destruct Hs' as [v x t ns Hp H|c _ [_ Hx _ _]|[_ Hx _ _]]; [|unfold measure; by rewrite Hx..].
  rewrite (at_race_measure _ _ _ _ _ H). pose proof (phase_bounds _ _ _ _ Hp). lia.
Qed.

(** When not all attempts are in such a state, some is not. *)
Lemma some_state (f : ct_attempt_state -> bool) (ats : list ct_racing_attempt) :
  ~ (forall (i : nat) a, ats !! i = Some a -> f (at_state a) = true) -> exists (i : nat) a, ats !! i = Some a /\ f (at_state a) = false.
Proof.
  induction ats as [|b ats IH]; intros Hn; [by destruct Hn|]. destruct (f (at_state b)) eqn:Hb; [|by exists 0%nat, b].
  destruct IH as (i & a & Ha & Hfa); [|by exists (S i), a]. intros Hall. apply Hn. intros [|i] a; [by intros [= <-]|apply Hall].
Qed.

(** *** Progress *)

(** There is an order of events that ends the race. *)
Definition can_end (s : race W) : Prop := exists s', rtc race_step s s' /\ rs_context s' = None.

Lemma race_step_possible e s (P : race W -> Prop) :
  timer_possible e s = true -> wp (run_race_event gi gs e) (fun _ s' => P s') s -> exists s', race_step s s' /\ P s'.
Proof. intros Hpos ([] & s' & Hrun & HP)%wp_ok. exists s'. split; [by exists e|done]. Qed.

(** What a connection owes can happen, and then the race is nearer to its
    end. *)
Lemma owed_happens n v x t ns c st cbs s :
  (rc_left c (rs_world s) < n)%nat -> phase v x t ns -> at_race v x t ns s -> v_stage v !! c = Some st -> v_cbs v !! c = Some cbs ->
  exists s', rtc race_step s s' /\ race_ok s' /\ measure s' < measure s.
Proof.
  revert s. induction n as [|n IH]; intros s Hn Hp H Hst Hcb; [lia|].
  destruct (law_owed c cbs st v _ (ar_world _ _ _ _ _ H) Hst Hcb) as (e & He).
  destruct (race_step_possible (RaceLoop e) s (fun s1 =>
    (at_race v x t ns s1 /\ (rc_left c (rs_world s1) < rc_left c (rs_world s))%nat) \/ (race_ok s1 /\ measure s1 < measure s)))
    as (s1 & Hstep & [[H1 Hlt]|[Hok1 Hlt]]); [done| | |].
  - eapply wp_loop_event; [exact He|]. intros l s1 [(Hl & Hw1 & Hlt)|(v1 & Hl & Hw1)] Hsame; cbn in Hl.
    + subst l. cbn [for_each]. wp_steps. left. split; [by eapply at_race_same|done].
    + eapply wp_mono; [by eapply wp_outcome|]. intros [] s2 Hs2. by right.
  - destruct (IH s1) as (s2 & Hrun & Hok2 & Hlt2); [lia|done..|]. exists s2. split_and!; [by eapply rtc_l|done|].
    rewrite (at_race_measure _ _ _ _ _ H). by rewrite <- (at_race_measure _ _ _ _ _ H1).
  - exists s1. split_and!; [by apply rtc_once|done..].
Qed.

(** Until the context is freed, some events bring the race nearer to its
    end: an event of the timer, or what the connection of an attempt owes. *)
Lemma race_ok_progress s :
  race_ok s -> rs_context s = None \/ exists s', rtc race_step s s' /\ race_ok s' /\ measure s' < measure s.
Proof.
  intros Hrun. pose proof Hrun as Hrun'. destruct Hrun as [v x t ns Hp H|c _ [_ Hx _ _]|[_ Hx _ _]]; [|by left..]. right.
  pose proof (ar_timer _ _ _ _ _ H) as Ht.
  assert (Htimer : forall e, timer_possible e s = true -> match e with RaceLoop _ => False | _ => True end ->
            exists s', rtc race_step s s' /\ race_ok s' /\ measure s' < measure s).
  { intros e Hpos He. destruct (race_step_possible e s (fun s' => event_done e s s')) as (s' & Hstep & [Hs' Hdec]); [done|by apply wp_race_event|].
    exists s'. split_and!; [by apply rtc_once|done|]. destruct Hdec as [|Hf]; [done|]. by destruct e. }
  assert (Howes : forall i a, attempts_ok v (rx_attempts x) None -> rx_attempts x !! i = Some a ->
            at_state a = ATTEMPT_STATE_CONNECTING \/ at_state a = ATTEMPT_STATE_CLOSING ->
            exists s', rtc race_step s s' /\ race_ok s' /\ measure s' < measure s).
  { intros i a Hok Ha Hs. pose proof (ao_ok _ _ _ Hok i a Ha ltac:(done)) as Hai. unfold attempt_ok in Hai.
    destruct Hs as [E|E]; rewrite E in Hai; destruct Hai as (c & _ & Hs & Hcb & _);
      by apply (owed_happens _ v x t ns c _ _ s (Nat.lt_succ_diag_r _) Hp H Hs Hcb). }
  destruct Hp as [next Hr Hn Hf Hst'|w' c Hwon Hdel Hto|Hok Hcomp Hall Hlog Hst'].
  - unfold stagger in Hst'. destruct (next <? length cands)%nat eqn:Hlt.
    { apply (Htimer TimerFired); [|done]. cbn. apply bool_decide_eq_true. congruence. }
    destruct (some_state failed_state (rx_attempts x)) as (i & a & Ha & Hfs).
    { rewrite <- all_failed_spec. by rewrite Hf. }
    eapply (Howes i a); [apply Hr|done|]. left.
    destruct (ra_started _ _ _ Hr i a Ha) as [|E]; [|done|by rewrite E in Hfs].
    apply Nat.ltb_ge in Hlt. apply lookup_lt_Some in Ha. rewrite (attempts_length _ _ _ (ra_ok _ _ _ Hr)) in Ha. lia.
  - unfold timer_ok in Hto. destruct (all_attempts_concluded x) eqn:Hc.
    { apply (Htimer TimerCloseFinished); [|done]. cbn. apply bool_decide_eq_true. congruence. }
    destruct (some_state concluded_state (rx_attempts x)) as (i & a & Ha & Hcs).
    { rewrite <- all_concluded_spec. by rewrite Hc. }
    pose proof (wn_at _ _ _ _ Hwon) as Hat. pose proof (wo_ok _ _ _ _ Hat) as Hok.
    destruct (wo_winner _ _ _ _ Hat) as (aw & Haw & Hsw).
    eapply (Howes i a); [exact Hok|done|]. right. pose proof (wo_before _ _ _ _ Hat i a Ha) as Hstop.
    rewrite <- (attempts_length _ _ _ Hok) in Hstop. destruct (at_state a) eqn:Hsta; try done; discriminate Hstop;
      [intros ->; congruence|by eapply lookup_lt_Some|intros ->; congruence|by eapply lookup_lt_Some].
  - apply (Htimer TimerCloseFinished); [|done]. cbn. apply bool_decide_eq_true. congruence.
Qed.

Lemma race_ok_measure s : race_ok s -> 0 <= measure s.
Proof.
  intros [v x t ns Hp H|c _ [_ Hx _ _]|[_ Hx _ _]]; [|unfold measure; by rewrite Hx..].
  rewrite (at_race_measure _ _ _ _ _ H). pose proof (phase_bounds _ _ _ _ Hp). lia.
Qed.

Lemma race_ok_can_end s : race_ok s -> can_end s.
Proof.
  intros Hs. remember (Z.to_nat (measure s)) as n eqn:Hn. revert s Hs Hn.
  induction n as [n IH] using lt_wf_ind. intros s Hs ->. destruct (race_ok_progress s Hs) as [Hx|(s1 & Hrun & Hs1 & Hlt)]; [by exists s|].
  pose proof (race_ok_measure _ Hs1). destruct (IH (Z.to_nat (measure s1)) ltac:(lia) s1 Hs1 eq_refl) as (s2 & Hrun2 & Hx).
  exists s2. split; [by etrans|done].
Qed.

(** C10: a race never gets stuck, under the hypotheses of [race_safe]:
    connections that meet the contract [RaceContract], candidates that it
    covers, the last of which does not fail synchronously.  Whatever has
    happened since the start of the race, there is an order of events, of the
    timer when it is armed or closing and of the loop, that ends the race: after
    it the context is freed. *)
Theorem race_progress w :
  cands <> [] -> rc_holds v0 w -> v_stage v0 = ∅ ->
  wp start_race (fun _ s0 => forall s, rtc race_step s0 s -> can_end s) (before_race w).
Proof.
  intros Hne Hw Hst. eapply wp_mono; [by apply wp_start_race|]. intros [] s0 [Hs0 _] s Hrun.
  apply race_ok_can_end. by eapply race_steps_ok.
Qed.

End race.
