(* ===== verification/RacingSends.v ===== *)
(** Racing: what the connections of a race are asked for.

    A message given to [ct_preconnection_initiate_with_send] reaches the
    connections in one of two ways: with [init_with_send] of every attempt, or
    with [ct_send_message_full] on the winner.  Connections that keep a record
    of the operations they are asked for are connections in the sense of
    Racing, and meet the contract of RacingFacts when the recorded ones do, so
    the record of a race can be compared with what it should be. *)

From S2P Require Export RacingFacts.
Open Scope Z_scope.

(** ** Connections with a record *)

Record recorded (W : Type) := Recorded { rd_world : W; rd_log : list operation }.
Arguments Recorded {W}.
Arguments rd_world {W}.
Arguments rd_log {W}.

Section recorded.
Context {W : Type} `{!RaceOps W, C : !RaceContract W}.

Definition unrecorded {A} (m : M W A) : M (recorded W) A := zoom rd_world (fun w s => Recorded w (rd_log s)) m.
Definition record (o : operation) : M (recorded W) unit := modify (fun s => Recorded (rd_world s) (rd_log s ++ [o])).

(** The operations of [W]; those that concern the message are recorded. *)
#[export] Instance recorded_ops : RaceOps (recorded W) := {
  rop_heap A m := unrecorded (rop_heap m);
  rop_create_client p locals i remotes j props sec cbs framer :=
    unrecorded (rop_create_client p locals i remotes j props sec cbs framer);
  rop_clear_alpn c := unrecorded (rop_clear_alpn c);
  rop_add_alpn c alpn := unrecorded (rop_add_alpn c alpn);
  rop_init c := rc ← unrecorded (rop_init c); record (Initialised c) ;; mret rc;
  rop_init_with_send c msg ctx := rc ← unrecorded (rop_init_with_send c msg ctx); record (InitialisedWith c msg ctx) ;; mret rc;
  rop_close_group c := unrecorded (rop_close_group c);
  rop_free c := unrecorded (rop_free c);
  rop_send_message_full c msg ctx :=
    rc ← unrecorded (rop_send_message_full c msg ctx); record (SentMessage c msg ctx rc) ;; mret rc;
  rop_message_send_error c ctx rc := unrecorded (rop_message_send_error c ctx rc) ;; record (RefusedMessage c ctx rc);
  rop_message_sent c ctx := unrecorded (rop_message_sent c ctx);
  rop_sent_early_data c := unrecorded (rop_sent_early_data c);
  rop_callbacks c := unrecorded (rop_callbacks c);
  rop_set_callbacks c cbs := unrecorded (rop_set_callbacks c cbs);
  rop_take_calls := unrecorded rop_take_calls;
  rop_event := @rop_event W _;
  rop_run_event e := unrecorded (rop_run_event e) }.

Definition recorded_holds (v : view) (s : recorded W) : Prop := rc_holds v (rd_world s) /\ rd_log s = v_log v.

Lemma wp_unrecorded {A} (m : M W A) (P : A -> W -> Prop) (Q : A -> recorded W -> Prop) s :
  wp m P (rd_world s) -> (forall a w, P a w -> Q a (Recorded w (rd_log s))) -> wp (unrecorded m) Q s.
Proof. intros Hm HQ. unfold unrecorded. apply wp_zoom. eapply wp_mono; [exact Hm|]. intros a w. apply HQ. Qed.

(** An operation that is not recorded, and its calls. *)
Lemma wp_calls_unrecorded {A} (m : M W A) (P : A * list call -> W -> Prop) (Q : A * list call -> recorded W -> Prop) s :
  wp (calls_of m) P (rd_world s) -> (forall r w, P r w -> Q r (Recorded w (rd_log s))) -> wp (calls_of (unrecorded m)) Q s.
Proof.
  intros Hm HQ. unfold calls_of in *. apply wp_bind_inv in Hm. wp_steps. eapply wp_unrecorded; [exact Hm|].
  intros a w Hw. cbn beta in Hw |- *. apply wp_bind_inv in Hw. wp_steps. eapply wp_unrecorded; [exact Hw|].
  intros l w' Hw'. apply wp_ret in Hw'. wp_steps. by apply HQ.
Qed.

(** One that is, with its return code. *)
Lemma wp_calls_recorded {A B} (m : M W A) (f : A -> operation) (g : A -> B) (P : A * list call -> W -> Prop)
    (Q : B * list call -> recorded W -> Prop) s :
  wp (calls_of m) P (rd_world s) -> (forall r w, P r w -> Q (g r.1, r.2) (Recorded w (rd_log s ++ [f r.1]))) ->
  wp (calls_of (a ← unrecorded m; record (f a) ;; mret (g a))) Q s.
Proof.
  intros Hm HQ. unfold calls_of in *. apply wp_bind_inv in Hm. wp_steps. eapply wp_unrecorded; [exact Hm|].
  intros a w Hw. cbn beta in Hw |- *. apply wp_bind_inv in Hw. unfold record. wp_steps. eapply wp_unrecorded; [exact Hw|].
  intros l w' Hw'. apply wp_ret in Hw'. wp_steps. by apply (HQ (a, l)).
Qed.

(** The contract of the recorded connections. *)
#[export] Instance recorded_contract : RaceContract (recorded W).
Proof.
  refine {| rc_holds := recorded_holds; rc_fallible := rc_fallible; rc_allows := rc_allows; rc_sends := rc_sends;
            rc_sends_early := rc_sends_early; rc_left := fun c s => rc_left c (rd_world s) |}.
  - intros A m P v s [Hw Hl] Hm. eapply wp_unrecorded; [by apply law_heap|]. intros a w [HP Hw']. by split_and!.
  - intros p locals i l remotes j r input cbs v s [Hw Hl] Ha Hi Hil Hj Hjr.
    eapply wp_unrecorded; [by eapply law_create|]. intros o w (c & -> & ? & ? & ? & Hw'). exists c. by split_and!.
  - intros c v s [Hw Hl] Hc. eapply wp_unrecorded; [by apply law_clear_alpn|]. by intros [] w Hw'.
  - intros c alpn v s [Hw Hl] Hc. eapply wp_unrecorded; [by apply law_add_alpn|]. by intros [] w Hw'.
  - intros p c cbs v s [Hw Hl] H1 H2 H3 H4 H5. eapply (wp_calls_recorded _ (fun _ => Initialised c) (fun a => a)); [by eapply law_init|].
    intros [rc l] w [[Hr Hw']|[[Hr Hw']|(Hf & Hr & Hrl & Hw')]]; cbn [fst snd] in *; rewrite Hl; [left|right; left|right; right]; by split_and!.
  - intros p c cbs msg ctx v s [Hw Hl] H0 H1 H2 H3 H4 H5.
    eapply (wp_calls_recorded _ (fun _ => InitialisedWith c msg ctx) (fun a => a)); [by eapply law_init_with_send|].
    intros [rc l] w [[Hr Hw']|[[Hr Hw']|(Hf & Hr & Hrl & Hw')]]; cbn [fst snd] in *; rewrite Hl; [left|right; left|right; right]; by split_and!.
  - intros c cbs v s [Hw Hl] Hc. eapply wp_unrecorded; [by eapply law_callbacks|]. intros r w [-> Hw']. by split_and!.
  - intros c cbs v s [Hw Hl] Hc. eapply wp_unrecorded; [by eapply law_set_callbacks|]. by intros [] w Hw'.
  - intros c cbs v s [Hw Hl] Hst Hc. eapply wp_calls_unrecorded; [by eapply law_close_group|].
    intros r w [[Hr Hw']|[Hr Hw']]; [left|right]; by split_and!.
  - intros c v s [Hw Hl] Hst Hop Hc Hnew. eapply wp_calls_unrecorded; [by eapply law_free|]. intros r w [Hr Hw']. by split_and!.
  - intros c msg ctx cbs v s [Hw Hl] Hs Hc Happ.
    eapply (wp_calls_recorded _ (fun rc => SentMessage c msg ctx rc) (fun a => a)); [by eapply law_send|].
    intros [rc l] w [Hq Hw']. cbn [fst snd] in *. rewrite Hl. by split_and!.
  - intros c ctx rc cbs v s [Hw Hl] Hc Happ.
    assert (Hgo : wp (calls_of (a ← unrecorded (rop_message_send_error c ctx rc); record (RefusedMessage c ctx rc) ;; mret a))
      (fun r s' => forallb quiet r.2 = true /\ recorded_holds (logged (RefusedMessage c ctx rc) v) s') s).
    { eapply (wp_calls_recorded _ (fun _ => RefusedMessage c ctx rc) (fun a => a)); [by eapply law_send_error|].
      intros [[] l] w [Hq Hw']. cbn [fst snd] in *. rewrite Hl. by split_and!. }
    unfold calls_of in *. apply wp_bind_inv, wp_bind_inv in Hgo. apply wp_bind, wp_bind.
    eapply wp_mono; [exact Hgo|]. intros [] s1 H1. cbn beta in H1 |- *. apply wp_bind_inv in H1.
    eapply wp_mono; [exact H1|]. intros [] s2 H2. exact H2.
  - intros c ctx cbs v s [Hw Hl] Hc Happ. eapply wp_calls_unrecorded; [by eapply law_sent|]. intros r w [Hq Hw']. by split_and!.
  - intros c v s [Hw Hl] Hc. eapply wp_unrecorded; [by apply law_early|]. by intros b w Hw'.
  - intros e v s [Hw Hl]. eapply wp_calls_unrecorded; [by apply law_event|].
    intros r w [[Hq Hw']|(c & cbs & Hcb & [[Hst [[Hr Hw']|[Hr Hw']]]|(Hst & Hr & Hw')])]; [left; by split_and!|right; exists c, cbs; split; [done|]..].
    + left. split; [done|]. left. by split_and!.
    + left. split; [done|]. right. by split_and!.
    + right. by split_and!.
  - intros c cbs st v s [Hw Hl] Hst Hcb. destruct (law_owed c cbs st v _ Hw Hst Hcb) as [e He]. exists e.
    eapply wp_calls_unrecorded; [exact He|]. intros r w [(Hr & Hw' & Hlt)|(v' & Hout & Hw')]; [left; by split_and!|].
    right. exists v'. split; [done|]. split; [done|]. rewrite Hl.
    by destruct Hout as [[_ [[_ ->]|[_ ->]]]|(_ & _ & ->)].
Defined.
End recorded.
