(* ===== verification/RacingSimple.v ===== *)
(** Racing: an instance of the contract.

    Connections that only have what racing sees of them, which show that
    [RaceContract] can be met, and the races among them that witness the
    theorems of RacingFacts. *)

From S2P Require Export RacingFacts.
Open Scope Z_scope.

(** ** The contract can be met

    Connections that only have what racing sees of them.  A reliable protocol
    fails at once when it is connection oriented without multistreaming, one
    with multistreaming takes time, and an unreliable one is ready at once. *)
Module Simple.

Record simple := SimpleWorld { s_heap : heap; s_view : view; s_calls : list call; s_next : id }.

Definition set_view (v : view) (w : simple) : simple := SimpleWorld (s_heap w) v (s_calls w) (s_next w).
Definition call_out (l : list call) (w : simple) : simple := SimpleWorld (s_heap w) (s_view w) (s_calls w ++ l) (s_next w).

Definition fallible (p : ct_protocol_impl) : bool := bool_decide (pi_enum p = CT_PROTOCOL_TCP).

Definition note (o : operation) : M simple unit := modify (fun w => set_view (logged o (s_view w)) w).

Definition init (o : operation) (c : id) : M simple Z :=
  note o ;;
  w ← get;
  p ← deref (v_impl (s_view w) !! c) "no such connection";
  cbs ← deref (v_cbs (s_view w) !! c) "no such connection";
  match pi_enum p with
  | CT_PROTOCOL_TCP => put (call_out (notify (cb_establishment_error cbs) EstablishmentError c) w) ;; mret (- EIO)
  | CT_PROTOCOL_UDP => put (set_view (opened c (s_view w)) (call_out (notify (cb_ready cbs) Ready c) w)) ;; mret 0
  | _ => put (set_view (owing c Establishing (s_view w)) w) ;; mret 0
  end.

Definition event (e : id * bool) : M simple unit :=
  w ← get;
  match v_stage (s_view w) !! e.1, v_cbs (s_view w) !! e.1 with
  | Some st, Some cbs =>
      match st, e.2 with
      | Establishing, true => put (set_view (opened e.1 (s_view w)) (call_out (notify (cb_ready cbs) Ready e.1) w))
      | Establishing, false =>
          put (set_view (settled e.1 (s_view w)) (call_out (notify (cb_establishment_error cbs) EstablishmentError e.1) w))
      | Shutting, _ => put (set_view (settled e.1 (s_view w)) (call_out (notify (cb_closed cbs) Closed e.1) w))
      end
  | _, _ => mret tt
  end.

#[export] Instance simple_ops : RaceOps simple := {
  rop_heap A m := zoom s_heap (fun h w => SimpleWorld h (s_view w) (s_calls w) (s_next w)) m;
  rop_create_client p locals i remotes j props sec cbs framer :=
    w ← get;
    put (SimpleWorld (s_heap w) (created (s_next w) p cbs (s_view w)) (s_calls w) (Pos.succ (s_next w))) ;;
    mret (Some (s_next w));
  rop_clear_alpn c := mret tt;
  rop_add_alpn c alpn := mret tt;
  rop_init c := init (Initialised c) c;
  rop_init_with_send c msg ctx := init (InitialisedWith c msg ctx) c;
  rop_close_group c := modify (fun w => set_view (owing c Shutting (s_view w)) w);
  rop_free c := modify (fun w => set_view (forgotten c (s_view w)) w);
  rop_send_message_full c msg ctx := note (SentMessage c msg ctx 0) ;; mret 0;
  rop_message_send_error c ctx rc := note (RefusedMessage c ctx rc);
  rop_message_sent c ctx := mret tt;
  rop_sent_early_data c := mret false;
  rop_callbacks c := w ← get; deref (v_cbs (s_view w) !! c) "no such connection";
  rop_set_callbacks c cbs := modify (fun w => set_view (with_cbs c cbs (s_view w)) w);
  rop_take_calls := w ← get; put (SimpleWorld (s_heap w) (s_view w) [] (s_next w)) ;; mret (s_calls w);
  rop_event := id * bool;
  rop_run_event := event }.

(** New connections are new. *)
Definition fresh (v : view) (n : id) : Prop :=
  forall c, is_Some (v_stage v !! c) \/ is_Some (v_cbs v !! c) \/ c ∈ v_open v -> (c < n)%positive.

Lemma fresh_None v n : fresh v n -> v_stage v !! n = None /\ v_cbs v !! n = None /\ n ∉ v_open v.
Proof.
  intros H. split_and!; [apply eq_None_not_Some; intros Hn..|intros Hn]; assert (n < n)%positive by (apply H; auto); lia.
Qed.

(** A change of the view that only concerns a known connection. *)
Lemma fresh_change c v v' n :
  fresh v n -> is_Some (v_cbs v !! c) ->
  (forall c', c' <> c -> (is_Some (v_stage v' !! c') -> is_Some (v_stage v !! c')) /\
     (is_Some (v_cbs v' !! c') -> is_Some (v_cbs v !! c')) /\ (c' ∈ v_open v' -> c' ∈ v_open v)) -> fresh v' n.
Proof.
  intros H Hc Hother c' Hc'. destruct (decide (c' = c)) as [->|Hne]; [apply H; auto|].
  destruct (Hother c' Hne) as (? & ? & ?). apply H. tauto.
Qed.

Lemma fresh_created p cbs v n : fresh v n -> fresh (created n p cbs v) (Pos.succ n).
Proof.
  intros H c' Hc'. cbn in Hc'. destruct (decide (c' = n)) as [->|]; [lia|]. rewrite lookup_insert_ne in Hc' by done.
  specialize (H c' Hc'). lia.
Qed.

Ltac fresh_known c :=
  eapply (fresh_change c); [done|done|intros ? ?; cbn;
    rewrite ?(lookup_insert_ne _ c), ?(lookup_delete_ne _ c) by done; set_solver].

Definition simple_ok (w : simple) : Prop := oracle_ok (s_heap w) /\ s_calls w = [] /\ fresh (s_view w) (s_next w).
Definition simple_holds (v : view) (w : simple) : Prop := simple_ok w /\ s_view w = v.

Lemma init_law o p c cbs u w :
  simple_holds u w -> v_cbs u !! c = Some cbs -> v_impl u !! c = Some p ->
  let v := logged o u in
  wp (calls_of (init o c)) (fun r w' =>
    r = (0, []) /\ simple_holds (owing c Establishing v) w' \/
    r = (0, notify (cb_ready cbs) Ready c) /\ simple_holds (opened c v) w' \/
    fallible p = true /\ r.1 <> 0 /\
      (r.2 = [] \/ r.2 = notify (cb_establishment_error cbs) EstablishmentError c) /\ simple_holds v w') w.
Proof.
  destruct w as [h u' l n]. intros [(Hh & Hl & Hf) Hv] Hcb Hp v. cbn in *. subst u' l. unfold calls_of, init, note. wp_steps.
  assert (Hk : is_Some (v_cbs v !! c)) by by eexists.
  unfold fallible. destruct (pi_enum p); wp_steps; cbn.
  - right; right. split_and!; [done|done|by right|by split_and!].
  - right; left. split_and!; [done|]. split_and!; [split_and!|done]; [done..|]. fresh_known c.
  - left. split_and!; [done|]. split_and!; [split_and!|done]; [done..|]. fresh_known c.
Qed.

(** A connection settles what it owes at its event. *)
Lemma event_settles c b cbs st v w :
  simple_holds v w -> v_stage v !! c = Some st -> v_cbs v !! c = Some cbs ->
  wp (calls_of (event (c, b))) (fun r w' => exists v', outcome_of c cbs v r.2 v' /\ simple_holds v' w') w.
Proof.
  destruct w as [h u l n]. intros [(Hh & Hl & Hf) Hv] Hst Hcb. cbn in *. subst u l. unfold calls_of, event. wp_steps. cbn.
  rewrite Hst, Hcb. assert (Hk : is_Some (v_cbs v !! c)) by by eexists.
  assert (Ho : fresh (opened c v) n) by fresh_known c. assert (Hs : fresh (settled c v) n) by fresh_known c.
  unfold outcome_of. rewrite Hst. destruct st, b; wp_steps.
  - exists (opened c v). split; [left; by auto|by split_and!].
  - exists (settled c v). split; [left; by auto|by split_and!].
  - exists (settled c v). split; [by right|by split_and!].
  - exists (settled c v). split; [by right|by split_and!].
Qed.

Lemma event_law (e : id * bool) v w :
  simple_holds v w ->
  wp (calls_of (event e)) (fun r w' =>
    forallb quiet r.2 = true /\ simple_holds v w' \/
    exists c cbs, v_cbs v !! c = Some cbs /\
      (v_stage v !! c = Some Establishing /\
         (r.2 = notify (cb_ready cbs) Ready c /\ simple_holds (opened c v) w' \/
          r.2 = notify (cb_establishment_error cbs) EstablishmentError c /\ simple_holds (settled c v) w') \/
       v_stage v !! c = Some Shutting /\ r.2 = notify (cb_closed cbs) Closed c /\ simple_holds (settled c v) w')) w.
Proof.
  destruct e as [c b]. intros H. pose proof H as [(Hh & Hl & Hf) Hv].
  destruct (v_stage v !! c) as [st|] eqn:Hst, (v_cbs v !! c) as [cbs|] eqn:Hcb.
  1: { eapply wp_mono; [by eapply event_settles|]. intros r w' (v' & Hout & Hw'). right. exists c, cbs. split; [done|].
       destruct Hout as [[Hs [[Hr ->]|[Hr ->]]]|(Hs & Hr & ->)]; rewrite Hs in Hst |- *; [left; by auto|left; by auto|by right]. }
  all: destruct w as [h u l n]; cbn in *; subst u l; unfold calls_of, event; wp_steps; cbn; rewrite Hst, ?Hcb; wp_steps; by left.
Qed.

(** The remaining operations make no calls. *)
Ltac simple_law :=
  intros; repeat match goal with H : simple_holds _ ?w |- _ => destruct H as [(? & ? & ?) ?], w; cbn in *; subst end;
  unfold calls_of; wp_steps; cbn; wp_steps.

#[export] Instance simple_contract : RaceContract simple.
Proof.
  refine {| rc_holds := simple_holds; rc_fallible := fallible; rc_allows := fun _ _ => True; rc_sends := fun _ _ => True;
            rc_sends_early := fun _ _ => True; rc_left := fun _ _ => 0%nat |}.
  - (* heap *) intros A m P v [h u l n] [(Hh & Hl & Hf) Hv] Hm. cbn in *. subst. wp_steps. eapply wp_mono; [by apply Hm|].
    intros a h' [HP Hh']. by split_and!.
  - (* create *) intros. simple_law. eexists. split; [done|].
    match goal with H : fresh _ _ |- _ => pose proof (fresh_None _ _ H) as (? & ? & ?) end. split_and!; [done..|].
    split; [|done]. split_and!; [done..|by apply fresh_created].
  - intros. simple_law. done.
  - intros. simple_law. done.
  - intros p c cbs v w H _ _ _ Hcb Hp. eapply wp_mono; [by apply (init_law _ p c cbs v)|]. done.
  - intros p c cbs msg ctx v w H _ _ _ _ Hcb Hp. eapply wp_mono; [by apply (init_law _ p c cbs v)|]. done.
  - simple_law. done.
  - simple_law. split; [|done]. split_and!; [done..|]. fresh_known c.
  - simple_law. left. split; [done|]. split; [|done]. split_and!; [done..|].
    eapply (fresh_change c); [done|by eexists|]. intros ? ?; cbn. rewrite lookup_insert_ne by done. set_solver.
  - simple_law. split; [done|]. split; [|done]. split_and!; [done..|]. fresh_known c.
  - simple_law. done.
  - simple_law. done.
  - simple_law. done.
  - simple_law. done.
  - intros e v w H. by apply event_law.
  - intros c cbs st v w H Hst Hcb. exists (c, true). eapply wp_mono; [by eapply event_settles|]. intros r w' Hr. by right.
Defined.

(** *** Three candidates: one fails at once, one takes time, one is ready at
    once *)

Definition candidate (p : ct_protocol_impl) (port : Z) : ct_candidate_node :=
  CandidateNode NODE_TYPE_ENDPOINT (Some (LocalEndpoint 0 None None loopback_v4))
    (Some (RemoteEndpoint port None None (set_port port loopback_v4))) (Some (ProtocolCandidate p None)).

Definition three : list ct_candidate_node :=
  [candidate tcp_protocol_interface 1; candidate quic_protocol_interface 2; candidate udp_protocol_interface 3].

Definition application_callbacks : ct_connection_callbacks :=
  ConnectionCallbacks None (Some (user_fn 1)) None (Some (user_fn 2)) (Some (user_fn 3)) None None None.

Definition nothing : view := View ∅ ∅ ∅ ∅ ∅ [].
Definition nothing_yet : simple := SimpleWorld (Heap [] 0) nothing [] 1%positive.
Definition hash (a : sockaddr) : Z := 1.

Lemma application_callbacks_ok : application application_callbacks.
Proof. by repeat constructor. Defined.

Lemma three_ok : Forall candidate_ok three.
Proof. repeat constructor; by eexists. Defined.

Lemma three_last i n p :
  three !! i = Some n -> cn_protocol_candidate n = Some p -> rc_fallible (pc_protocol_impl p) = true ->
  (S i < length three)%nat.
Proof. destruct i as [|[|[|i]]]; cbn; try lia; try done. by intros [= <-] [= <-]. Defined.

Lemma nothing_yet_holds : rc_holds nothing nothing_yet.
Proof.
  split; [|done]. split_and!; [by constructor|done|]. intros c [Hc|[Hc|Hc]]; cbn in Hc; [rewrite lookup_empty in Hc; by destruct Hc..|set_solver].
Defined.

Definition defaults : race_input :=
  RaceInput (TransportProperties DEFAULT_SELECTION_PROPERTIES DEFAULT_CONNECTION_PROPERTIES) None None.

(** Events in turn, those that are not possible left out. *)
Fixpoint deliver (es : list (race_event (W := simple))) : M (race simple) unit :=
  match es with
  | [] => mret tt
  | e :: es => s ← get; when (timer_possible e s) (run_race_event hash (fun _ => 1) e) ;; deliver es
  end.

(** The reliable candidate fails at once, the next is being connected when
    the third is started, which is ready at once; the one being connected is
    closed, and the context is freed. *)
Example race_of_three :
  match (start_race hash (fun _ => 1) three application_callbacks defaults None None false ;;
         deliver [TimerFired; TimerFired; TimerFired; RaceLoop (2%positive, true); TimerCloseFinished])
          (before_race nothing_yet) with
  | Ok (_, s) =>
      (rs_calls s, rs_context s, rs_timer s, map_to_list (v_cbs (s_view (rs_world s)))) =
      ([CallConnection (user_fn 2) Ready (Some 3%positive)], None, TimerFreed, [(3%positive, application_callbacks)])
  | UB _ => False
  end.
Proof. vm_compute. reflexivity. Qed.

Lemma race_safe_witness :
  wp (start_race hash (fun _ => 1) three application_callbacks defaults None None false)
    (fun _ s0 => forall s, rtc (race_step hash (fun _ => 1)) s0 s ->
       (forall e, timer_possible e s = true -> wp (run_race_event hash (fun _ => 1) e) (fun _ _ => True) s) /\
       (notes s = [] \/ notes s = failure_notes application_callbacks \/
        exists c, notes s = notify (cb_ready application_callbacks) Ready c) /\
       (rs_context s = None ->
          finished nothing None None false None (failure_notes application_callbacks) (v_cbs nothing) s \/
          exists c, v_cbs nothing !! c = None /\
            finished nothing None None false (Some c) (notify (cb_ready application_callbacks) Ready c) (<[c := application_callbacks]> (v_cbs nothing)) s))
    (before_race nothing_yet).
Proof.
  apply race_safe; [apply application_callbacks_ok|done|done|apply three_ok|done|apply three_last|done|apply nothing_yet_holds|done].
Defined.

Lemma race_terminates_witness :
  wp (start_race hash (fun _ => 1) three application_callbacks defaults None None false)
    (fun _ s0 => measure three s0 <= 22 /\
       forall s s', rtc (race_step hash (fun _ => 1)) s0 s -> race_step hash (fun _ => 1) s s' ->
         0 <= measure three s' /\ (measure three s' = 0 -> rs_context s' = None) /\
         (measure three s' < measure three s \/ unconcerned s s'))
    (before_race nothing_yet).
Proof.
  apply (race_terminates hash (fun _ => 1) three application_callbacks nothing);
    [apply application_callbacks_ok|done|done|apply three_ok|done|apply three_last|done|apply nothing_yet_holds|done].
Defined.

Lemma race_progress_witness :
  wp (start_race hash (fun _ => 1) three application_callbacks defaults None None false)
    (fun _ s0 => forall s, rtc (race_step hash (fun _ => 1)) s0 s -> can_end hash (fun _ => 1) s) (before_race nothing_yet).
Proof.
  apply (race_progress hash (fun _ => 1) three application_callbacks nothing);
    [apply application_callbacks_ok|done|done|apply three_ok|done|apply three_last|done|apply nothing_yet_holds|done].
Defined.

End Simple.
