(* ===== verification/RacingHazards.v ===== *)
(** A race that fails twice.

    When the last attempt of a race fails before its initialisation returns,
    [initiate_next_attempt] handles the failure of all attempts twice, and the
    stagger timer is closed twice. *)

From S2P Require Export RacingSimple.
Open Scope Z_scope.

Section hazards.
Context {W : Type} `{!RaceOps W}.
Context (gi : bytes -> Z) (gs : string -> Z).

Lemma wp_the_context x (Q : ct_racing_context -> race W -> Prop) s : rs_context s = Some x -> Q x s -> wp context Q s.
Proof. intros Hx HQ. unfold context. by wp_steps. Qed.

Lemma wp_change_context f x (Q : unit -> race W -> Prop) s :
  rs_context s = Some x -> Q tt (Race (rs_world s) (Some (f x)) (rs_timer s) (rs_calls s)) -> wp (update_context f) Q s.
Proof. intros Hx HQ. unfold update_context. wp_steps. eapply wp_the_context; [exact Hx|]. by wp_steps. Qed.

Lemma wp_any_user_call fn ev c (Q : unit -> race W -> Prop) s :
  (forall calls, Q tt (Race (rs_world s) (rs_context s) (rs_timer s) calls)) -> wp (user_call fn ev c) Q s.
Proof. intros HQ. unfold user_call. destruct fn; wp_steps; [apply HQ|]. specialize (HQ (rs_calls s)). by destruct s. Qed.

Definition timer_open (s : race W) : Prop := rs_timer s = TimerIdle \/ rs_timer s = TimerArmed.

(** The failure of all attempts closes an open timer ... *)
Lemma wp_all_failed x (Q : unit -> race W -> Prop) s :
  rs_context s = Some x -> timer_open s ->
  (forall s' x', ~ timer_open s' -> rs_context s' = Some x' -> rx_attempts x' = rx_attempts x -> Q tt s') ->
  wp handle_all_attempts_failed Q s.
Proof.
  intros Hx Ht HQ. unfold handle_all_attempts_failed. wp_steps. eapply wp_change_context; [exact Hx|]. wp_steps.
  eapply wp_the_context; [done|]. wp_steps. apply wp_any_user_call. intros calls. unfold initiate_context_close. wp_steps.
  eapply wp_the_context; [done|]. wp_steps. unfold uv_timer_stop, close_timer, set_timer, when. wp_steps. cbn [rs_timer].
  destruct Ht as [Ht|Ht]; rewrite Ht; cbn; wp_steps.
  - rewrite bool_decide_false by done. wp_steps; [done|]. wp_steps. eapply HQ; [by intros [?|?]|done|done].
  - rewrite bool_decide_true by done. wp_steps; [done|]. wp_steps. eapply HQ; [by intros [?|?]|done|done].
Qed.

(** ... and asserts on a closed one. *)
Lemma aborts_all_failed x s : rs_context s = Some x -> ~ timer_open s -> aborts handle_all_attempts_failed s.
Proof.
  intros Hx Ht. unfold timer_open in Ht. unfold handle_all_attempts_failed. apply aborts_bind. eapply wp_change_context; [exact Hx|].
  apply aborts_bind. eapply wp_the_context; [done|]. apply aborts_bind. apply wp_any_user_call. intros calls.
  unfold initiate_context_close. apply aborts_bind.
  eapply wp_the_context; [done|]. apply aborts_bind. unfold uv_timer_stop, set_timer, when. wp_steps. cbn [rs_timer].
  rewrite bool_decide_false by tauto. wp_steps. unfold close_timer. apply aborts_bind. wp_steps. apply aborts_first. cbn [rs_timer].
  rewrite !bool_decide_false by tauto. by eexists.
Qed.

Definition given_up (a : ct_racing_attempt) : Prop :=
  at_state a = ATTEMPT_STATE_FAILED \/ at_state a = ATTEMPT_STATE_CANCELED.

Lemma given_up_all x : Forall given_up (rx_attempts x) -> all_attempts_failed x = true.
Proof.
  intros Hall. apply forallb_forall. intros b Hb. rewrite list.Forall_forall in Hall.
  destruct (Hall b) as [-> | ->]; [by apply list_elem_of_In|done|done].
Qed.

(** The state when an attempt is registered as failed. *)
Definition failed_context (i : nat) (x : ct_racing_context) : ct_racing_context :=
  set_rx_completed_attempts (u64 (rx_completed_attempts x + 1))
    (set_rx_attempts (alter (set_at_state ATTEMPT_STATE_FAILED) i (rx_attempts x)) x).

Lemma wp_update_failed i x a (Q : unit -> race W -> Prop) s :
  rs_context s = Some x -> rx_attempts x !! i = Some a ->
  Q tt (Race (rs_world s) (Some (set_rx_attempts (alter (set_at_state ATTEMPT_STATE_FAILED) i (rx_attempts x)) x))
    (rs_timer s) (rs_calls s)) ->
  wp (update_attempt i (set_at_state ATTEMPT_STATE_FAILED)) Q s.
Proof.
  intros Hx Ha HQ. unfold update_attempt, attempt_at. wp_steps. eapply wp_the_context; [exact Hx|]. wp_steps.
  by eapply wp_change_context.
Qed.

Lemma wp_count_completed x (Q : unit -> race W -> Prop) s :
  rs_context s = Some x ->
  Q tt (Race (rs_world s) (Some (set_rx_completed_attempts (u64 (rx_completed_attempts x + 1)) x)) (rs_timer s) (rs_calls s)) ->
  wp count_completed Q s.
Proof. intros Hx HQ. unfold count_completed. by eapply wp_change_context. Qed.

Lemma failed_given_up i x a :
  rx_attempts x !! i = Some a -> (forall j b, j <> i -> rx_attempts x !! j = Some b -> given_up b) ->
  Forall given_up (rx_attempts (failed_context i x)).
Proof.
  intros Ha Hothers. apply Forall_lookup. cbn. intros j b Hb. destruct (decide (j = i)) as [->|Hj].
  - rewrite list_lookup_alter_eq, Ha in Hb. injection Hb as <-. by left.
  - rewrite list_lookup_alter_ne in Hb by done. by eapply Hothers.
Qed.

(** A race whose last attempt fails before its initialisation returns
    closes its stagger timer twice.  When every other attempt has failed or
    was canceled and [start_connection_attempt] returns an error for the last
    one, [initiate_next_attempt] registers the failure, which handles the
    failure of all attempts, and then handles it again: libuv asserts. *)
Theorem last_attempt_failing_at_once_faults x a s :
  rs_context s = Some x -> rx_race_complete x = false -> rx_attempts x !! rx_next_attempt_index x = Some a ->
  is_Some (cn_protocol_candidate (at_candidate a)) -> is_Some (cn_remote_endpoint (at_candidate a)) ->
  wp (start_connection_attempt gi gs (rx_next_attempt_index x)) (fun rc s1 => rc <> 0 /\
    exists x1 a1, rs_context s1 = Some x1 /\ rx_attempts x1 !! rx_next_attempt_index x = Some a1 /\
      forall j b, j <> rx_next_attempt_index x -> rx_attempts x1 !! j = Some b -> given_up b) s ->
  aborts (initiate_next_attempt gi gs) s.
Proof.
  intros Hx Hcomplete Ha [p Hp] [r Hr] Hstart. set (i := rx_next_attempt_index x) in *. unfold initiate_next_attempt.
  apply aborts_bind. eapply wp_the_context; [exact Hx|]. rewrite Hcomplete. fold i.
  rewrite (proj2 (Nat.leb_gt _ _)) by (by eapply lookup_lt_Some). apply aborts_bind. unfold attempt_at at 1. wp_steps.
  eapply wp_the_context; [exact Hx|]. rewrite Ha. wp_steps. apply aborts_bind. rewrite Hp. wp_steps. apply aborts_bind. rewrite Hr. wp_steps.
  apply aborts_bind. eapply wp_mono; [exact Hstart|]. intros rc s1 (Hrc & x1 & a1 & Hx1 & Ha1 & Hothers).
  rewrite (proj2 (Z.eqb_neq _ _) Hrc). cbn [negb]. apply aborts_first.
  pose proof (failed_given_up i x1 a1 Ha1 Hothers) as Hall.
  set (s2 := Race (rs_world s1) (Some (failed_context i x1)) (rs_timer s1) (rs_calls s1)).
  destruct (decide (rs_timer s1 = TimerIdle)) as [Ht|Ht1]; [|destruct (decide (rs_timer s1 = TimerArmed)) as [Ht|Ht2]].
  1, 2: apply aborts_bind; unfold register_failed_attempt; wp_steps; eapply wp_update_failed; [exact Hx1|exact Ha1|]; wp_steps.
  1, 2: eapply wp_count_completed; [done|]; unfold handle_concluded_attempt; wp_steps; eapply wp_the_context; [done|].
  1, 2: rewrite given_up_all by exact Hall; eapply wp_all_failed; [done|by (left + right)|].
  1, 2: intros s3 x3 Hclosed Hx3 Hat; apply aborts_bind; eapply wp_the_context; [exact Hx3|].
  1, 2: rewrite given_up_all by (by rewrite Hat); apply aborts_first; by eapply aborts_all_failed.
  apply aborts_first. unfold register_failed_attempt. apply aborts_bind.
  eapply wp_update_failed; [exact Hx1|exact Ha1|]. apply aborts_bind. eapply wp_count_completed; [done|].
  unfold handle_concluded_attempt. apply aborts_bind. eapply wp_the_context; [done|].
  rewrite given_up_all by exact Hall. eapply aborts_all_failed; [done|]. by intros [?|?].
Qed.
End hazards.

(** ** One candidate, whose connection cannot be opened *)

Module Sole.
Import RacingSimple.Simple.

Definition attempt : ct_racing_attempt := RacingAttempt None (candidate tcp_protocol_interface 1) ATTEMPT_STATE_PENDING.
Definition context_of_one : ct_racing_context :=
  RacingContext [attempt] 0 false None None application_callbacks false (-1) 0 defaults.
Definition race_of_one : race simple := Race nothing_yet (Some context_of_one) TimerIdle [].

Lemma last_attempt_failing_at_once_faults_witness : aborts (initiate_next_attempt hash (fun _ => 1)) race_of_one.
Proof.
  apply (last_attempt_failing_at_once_faults hash (fun _ => 1) context_of_one attempt race_of_one);
    [done|done|done|by eexists|by eexists|].
  apply wp_ok. eexists _, _. split; [vm_compute; reflexivity|]. split; [done|]. eexists _, _. split; [done|]. split; [done|].
  intros [|j] b Hj Hb; [done|]. by destruct j.
Defined.
End Sole.
