(* ===== verification/RacingConnections.v ===== *)
(** Racing: the program's own connections.

    The connections of the library over TCP and UDP, with what the loop does to
    them while they are raced, meet the contract of RacingFacts: the race of
    Racing is run on [ct_connection_create_client], [tcp_init], [udp_init],
    [ct_connection_close_group], [ct_connection_free] and the callbacks of
    tcp.c and udp.c themselves.  Every connection has its own part of the world's
    tables (its group, its socket manager, its handle and its requests), and
    an operation only changes the part of its connection. *)

From S2P Require Export TcpLifecycle RacingSimple.
Open Scope Z_scope.

(** ** Tables in parts *)

Section parts.
Context {A : Type}.
Implicit Types (P : gmap id (gmap id A)) (p t : gmap id A) (n k c : id).

(** The table [t] consists of the disjoint parts [P], and has no key from
    [n] on. *)
Record parts P n t : Prop := {
  pa_lookup k a : t !! k = Some a <-> exists c p, P !! c = Some p /\ p !! k = Some a;
  pa_disjoint c1 c2 p1 p2 k : P !! c1 = Some p1 -> P !! c2 = Some p2 -> is_Some (p1 !! k) -> is_Some (p2 !! k) -> c1 = c2;
  pa_fresh k : (n <= k)%positive -> t !! k = None }.

(** The part [p] becomes [p'], and the table [t'], when the keys before [n]
    are taken and those before [n'] will be. *)
Inductive changes n n' p p' t t' : Prop :=
| changes_none : p' = p -> t' = t -> changes n n' p p' t t'
| changes_one k a : is_Some (p !! k) \/ (n <= k < n')%positive -> p' = <[k := a]> p -> t' = <[k := a]> t -> changes n n' p p' t t'.

Lemma part_lookup P n t c p k a : parts P n t -> P !! c = Some p -> p !! k = Some a -> t !! k = Some a.
Proof. intros H Hc Hk. apply (pa_lookup _ _ _ H). by exists c, p. Qed.

Lemma parts_later P n n' t : parts P n t -> (n <= n')%positive -> parts P n' t.
Proof. intros H Hn. split; [apply H|apply H|]. intros k Hk. apply (pa_fresh _ _ _ H). lia. Qed.

Lemma parts_empty P n t c : parts P n t -> P !! c = None -> parts (<[c := ∅]> P) n t.
Proof.
  intros H Hc. split.
  - intros k a. rewrite (pa_lookup _ _ _ H). split; intros (d & p & Hd & Hk); exists d, p; (split; [|done]).
    + rewrite lookup_insert_ne; [done|]. intros ->. congruence.
    + apply lookup_insert_Some in Hd as [[-> <-]|[_ Hd]]; [by rewrite lookup_empty in Hk|done].
  - intros c1 c2 p1 p2 k [[<- <-]|[_ H1]]%lookup_insert_Some [[<- <-]|[_ H2]]%lookup_insert_Some K1 K2;
      try (by rewrite lookup_empty in K1; destruct K1); try (by rewrite lookup_empty in K2; destruct K2); [].
    by eapply (pa_disjoint _ _ _ H).
  - apply H.
Qed.

Lemma parts_change P n n' t t' c p p' :
  parts P n t -> (n <= n')%positive -> P !! c = Some p -> changes n n' p p' t t' -> parts (<[c := p']> P) n' t'.
Proof.
  intros H Hn Hc [-> ->|k a Hk -> ->].
  { rewrite insert_id by done. by eapply parts_later. }
  assert (Hown : forall d q, d <> c -> P !! d = Some q -> q !! k = None).
  { intros d q Hd Hq. apply eq_None_not_Some. intros Hqk. destruct Hk as [Hk|[Hk _]].
    - apply Hd. by eapply (pa_disjoint _ _ _ H).
    - destruct Hqk as [b Hb]. pose proof (part_lookup _ _ _ _ _ _ _ H Hq Hb) as Ht. by rewrite (pa_fresh _ _ _ H) in Ht. }
  split.
  - intros k' b. destruct (decide (k' = k)) as [->|Hne].
    + rewrite lookup_insert_eq. split.
      * intros [= <-]. exists c, (<[k := a]> p). by rewrite !lookup_insert_eq.
      * intros (d & q & [[<- <-]|[Hd Hq]]%lookup_insert_Some & Hb); [by rewrite lookup_insert_eq in Hb|].
        by rewrite (Hown d q) in Hb.
    + rewrite lookup_insert_ne, (pa_lookup _ _ _ H) by done. split; intros (d & q & Hd & Hb).
      * destruct (decide (d = c)) as [->|Hdc].
        -- exists c, (<[k := a]> p). rewrite lookup_insert_eq, lookup_insert_ne by done. split; congruence.
        -- exists d, q. by rewrite lookup_insert_ne.
      * apply lookup_insert_Some in Hd as [[<- <-]|[Hd Hq]]; [|by exists d, q].
        rewrite lookup_insert_ne in Hb by done. by exists c, p.
  - assert (Hsome : forall d q k', <[c := <[k := a]> p]> P !! d = Some q -> is_Some (q !! k') ->
      d = c /\ k' = k \/ exists q', P !! d = Some q' /\ is_Some (q' !! k')).
    { intros d q k' [[<- <-]|[Hd Hq]]%lookup_insert_Some Hk'; [|right; by exists q].
      destruct (decide (k' = k)) as [->|Hne]; [by left|]. rewrite lookup_insert_ne in Hk' by done. right. by exists p. }
    intros c1 c2 p1 p2 k' H1 H2 K1 K2. destruct (decide (c1 = c2)) as [|Hne]; [done|].
    destruct (Hsome _ _ _ H1 K1) as [[E1 F1]|(q1 & Hq1 & Hk1)], (Hsome _ _ _ H2 K2) as [[E2 F2]|(q2 & Hq2 & Hk2)]; [congruence| | |].
    + subst k'. rewrite (Hown c2 q2) in Hk2 by congruence. by destruct Hk2.
    + subst k'. rewrite (Hown c1 q1) in Hk1 by congruence. by destruct Hk1.
    + by eapply (pa_disjoint _ _ _ H).
  - intros k' Hk'. rewrite lookup_insert_ne; [apply (pa_fresh _ _ _ H); lia|]. intros ->. destruct Hk as [[b Hb]|?]; [|lia].
    pose proof (part_lookup _ _ _ _ _ _ _ H Hc Hb) as Ht. rewrite (pa_fresh _ _ _ H) in Ht by lia. done.
Qed.

(** A part goes. *)
Lemma parts_delete P n t c p : parts P n t -> P !! c = Some p -> parts (delete c P) n (t ∖ p).
Proof.
  intros H Hc. split.
  - intros k a. rewrite lookup_difference_Some, (pa_lookup _ _ _ H). split.
    + intros [(d & q & Hd & Hk) Hp]. exists d, q. split; [|done]. apply lookup_delete_Some. split; [|done].
      intros ->. congruence.
    + intros (d & q & [Hdc Hd]%lookup_delete_Some & Hk). split; [by exists d, q|].
      apply eq_None_not_Some. intros Hpk. apply Hdc. symmetry. eapply (pa_disjoint _ _ _ H); [exact Hd|exact Hc|by eexists|exact Hpk].
  - intros c1 c2 p1 p2 k [_ H1]%lookup_delete_Some [_ H2]%lookup_delete_Some. by apply (pa_disjoint _ _ _ H).
  - intros k Hk. apply lookup_difference_None. left. by apply (pa_fresh _ _ _ H).
Qed.

Lemma parts_nothing n : parts ∅ n ∅.
Proof.
  split.
  - intros k a. rewrite lookup_empty. split; [done|]. by intros (c & p & Hc & _).
  - by intros c1 c2 p1 p2 k H1.
  - done.
Qed.

Lemma parts_none n t : parts ∅ n t -> t = ∅.
Proof. intros H. apply map_empty. intros k. apply eq_None_not_Some. by intros [a (c & p & Hc & _)%(pa_lookup _ _ _ H)]. Qed.

Lemma parts_single c p n t : parts {[c := p]} n t -> t = p.
Proof.
  intros H. apply map_eq. intros k. apply option_eq. intros a. rewrite (pa_lookup _ _ _ H). split.
  - by intros (d & q & [<- <-]%lookup_singleton_Some & Hk).
  - intros Hk. exists c, p. by rewrite lookup_singleton_eq.
Qed.
End parts.

(** Whose an entry of a table is. *)
Lemma parts_owner {A B} (f : B -> gmap id A) (os : gmap id B) n t k a :
  parts (f <$> os) n t -> t !! k = Some a -> exists c p, os !! c = Some p /\ f p !! k = Some a.
Proof.
  intros Hp (c & q & Hq & Hk)%(pa_lookup _ _ _ Hp). rewrite lookup_fmap in Hq.
  destruct (os !! c) as [p|] eqn:Hc; [|done]. injection Hq as <-. by exists c, p.
Qed.

Lemma difference_one {A} (t : gmap id A) k a : t ∖ {[k := a]} = delete k t.
Proof.
  apply map_eq. intros j. destruct (decide (j = k)) as [->|Hne].
  - rewrite lookup_delete_eq. apply lookup_difference_None. right. rewrite lookup_singleton_eq. by eexists.
  - rewrite lookup_delete_ne, lookup_difference, lookup_singleton_ne by done. done.
Qed.

(** The part of a world that is a connection's. *)
Record part := Part {
  pt_connections : gmap id ct_connection;
  pt_groups : gmap id ct_connection_group;
  pt_managers : gmap id ct_socket_manager;
  pt_handles : gmap id uv_handle;
  pt_requests : gmap id request }.

(** A world that consists of the connections [os]. *)
Record split (os : gmap id part) (w : world) : Prop := {
  sp_connections : parts (pt_connections <$> os) (w_next w) (w_connections w);
  sp_groups : parts (pt_groups <$> os) (w_next w) (w_groups w);
  sp_managers : parts (pt_managers <$> os) (w_next w) (w_managers w);
  sp_handles : parts (pt_handles <$> os) (w_next w) (w_handles w);
  sp_requests : parts (pt_requests <$> os) (w_next w) (w_requests w) }.

Record part_changes (p p' : part) (w w' : world) : Prop := {
  pc_connections : changes (w_next w) (w_next w') (pt_connections p) (pt_connections p') (w_connections w) (w_connections w');
  pc_groups : changes (w_next w) (w_next w') (pt_groups p) (pt_groups p') (w_groups w) (w_groups w');
  pc_managers : changes (w_next w) (w_next w') (pt_managers p) (pt_managers p') (w_managers w) (w_managers w');
  pc_handles : changes (w_next w) (w_next w') (pt_handles p) (pt_handles p') (w_handles w) (w_handles w');
  pc_requests : changes (w_next w) (w_next w') (pt_requests p) (pt_requests p') (w_requests w) (w_requests w') }.

Definition no_part : part := Part ∅ ∅ ∅ ∅ ∅.

Lemma split_empty os w c : split os w -> os !! c = None -> split (<[c := no_part]> os) w.
Proof.
  intros [] Hc. split; rewrite fmap_insert; apply parts_empty; first [done|by rewrite lookup_fmap, Hc].
Qed.

Lemma split_change os w w' c p p' :
  split os w -> (w_next w <= w_next w')%positive -> os !! c = Some p -> part_changes p p' w w' -> split (<[c := p']> os) w'.
Proof.
  intros [] Hn Hc []. split; rewrite fmap_insert; (eapply parts_change; [done|exact Hn|by rewrite lookup_fmap, Hc|done]).
Qed.

Lemma split_delete os w w' c p :
  split os w -> w_next w' = w_next w -> os !! c = Some p ->
  w_connections w' = w_connections w ∖ pt_connections p -> w_groups w' = w_groups w ∖ pt_groups p ->
  w_managers w' = w_managers w ∖ pt_managers p -> w_handles w' = w_handles w ∖ pt_handles p ->
  w_requests w' = w_requests w ∖ pt_requests p -> split (delete c os) w'.
Proof.
  intros [] Hn Hc E1 E2 E3 E4 E5. split; rewrite ?E1, ?E2, ?E3, ?E4, ?E5, Hn, fmap_delete;
    (apply parts_delete; [done|by rewrite lookup_fmap, Hc]).
Qed.

(** ** Connections over TCP and UDP *)

(** What does not change while a connection is raced. *)
Record raced (m g : id) (conn : ct_connection) : Prop := {
  tn_state : cn_internal_connection_state conn = None;
  tn_security : sec_ok (cn_security_parameters conn);
  tn_group : cn_connection_group conn = Some g;
  tn_manager : cn_socket_manager conn = Some m;
  tn_framer : cn_framer_impl conn = None }.

Record raced_manager (c : id) (sm : ct_socket_manager) : Prop := {
  tm_refs : sm_ref_count sm = 1;
  tm_all : sm_all_connections sm = [c];
  tm_listener : sm_listener sm = None }.

(** The socket of a connection that is ready: its handle and what its requests
    can be. *)
Inductive open_socket (c m : id) (conn : ct_connection) (sm : ct_socket_manager) : id -> uv_handle -> (request -> Prop) -> Prop :=
| open_tcp h req :
    sm_protocol sm = CT_PROTOCOL_TCP -> sm_internal_socket_manager_state sm = tcp_state c req h ->
    open_socket c m conn sm h (tcp_handle m (Some tcp_on_read_ptr) HandleOpen)
      (fun r => r = TcpConnectRequest h false false \/ exists d, r = TcpWriteRequest h d)
| open_udp h a :
    sm_protocol sm = CT_PROTOCOL_UDP -> sm_internal_socket_manager_state sm = udp_state h ->
    is_Some (remote_list conn !! cn_active_remote_endpoint conn) ->
    open_socket c m conn sm h (udp_handle m HandleOpen a) (fun r => exists d, r = UdpSendRequest d).

(** How far a connection is, by what it owes: its states in ctaps.h and in
    libuv, its handle and its requests. *)
Inductive raced_phase (v : view) (c m : id) (conn : ct_connection) (sm : ct_socket_manager) :
    gmap id uv_handle -> gmap id request -> Prop :=
| raced_new locals l :
    sm_protocol sm = CT_PROTOCOL_TCP \/ sm_protocol sm = CT_PROTOCOL_UDP ->
    v_stage v !! c = None -> (c ∈ v_new v) -> (c ∉ v_open v) -> cn_state conn = CT_CONN_STATE_ESTABLISHING ->
    cn_can_send conn = false -> sm_internal_socket_manager_state sm = None ->
    cn_all_local_endpoints conn = Some locals -> locals !! cn_active_local_endpoint conn = Some l ->
    is_inet (le_resolved_address l) = true -> is_Some (remote_list conn !! cn_active_remote_endpoint conn) ->
    raced_phase v c m conn sm ∅ ∅
| tcp_connecting h req :
    sm_protocol sm = CT_PROTOCOL_TCP -> v_stage v !! c = Some Establishing -> (c ∉ v_open v) -> cn_state conn = CT_CONN_STATE_ESTABLISHING ->
    cn_can_send conn = false -> sm_internal_socket_manager_state sm = tcp_state c req h ->
    raced_phase v c m conn sm {[h := tcp_handle m None HandleOpen]} {[req := TcpConnectRequest h false true]}
| tcp_shutting h req pending :
    sm_protocol sm = CT_PROTOCOL_TCP -> v_stage v !! c = Some Shutting -> (c ∉ v_open v) -> cn_state conn = CT_CONN_STATE_ESTABLISHING ->
    cn_can_send conn = false -> sm_internal_socket_manager_state sm = tcp_state c req h ->
    raced_phase v c m conn sm {[h := tcp_handle m None (HandleClosing (Some on_libuv_close_ptr))]}
      {[req := TcpConnectRequest h false pending]}
| raced_open h x own requests :
    open_socket c m conn sm h x own ->
    v_stage v !! c = None -> (c ∉ v_new v) -> (c ∈ v_open v) -> cn_state conn = CT_CONN_STATE_ESTABLISHED ->
    (forall i r, requests !! i = Some r -> own r) -> raced_phase v c m conn sm {[h := x]} requests
| tcp_done h req :
    sm_protocol sm = CT_PROTOCOL_TCP -> v_stage v !! c = None -> (c ∉ v_new v) -> (c ∉ v_open v) -> cn_state conn = CT_CONN_STATE_CLOSED -> cn_can_send conn = false ->
    sm_internal_socket_manager_state sm = tcp_state c req h ->
    raced_phase v c m conn sm {[h := tcp_handle m None HandleClosed]} {[req := TcpConnectRequest h false false]}.

Inductive conn_part (v : view) (c : id) : part -> Prop :=
| ConnPart m g conn sm gu u tp handles requests :
    raced m g conn -> raced_manager c sm -> wf_selection (selection_properties tp) ->
    v_cbs v !! c = Some (cn_callbacks conn) -> v_impl v !! c = Some (sm_protocol_impl sm) ->
    raced_phase v c m conn sm handles requests ->
    conn_part v c (Part {[c := conn]} {[g := client_group gu u c tp]} {[m := sm]} handles requests).

Definition conn_known (v : view) (c : id) (o : option part) : Prop :=
  match o with
  | Some p => conn_part v c p
  | None => v_stage v !! c = None /\ v_cbs v !! c = None /\ (c ∉ v_open v)
  end.

(** Memory suffices and the calls of libuv succeed. *)
Definition env_ok (w : world) : Prop := oracle_ok (w_heap w) /\ uv_ok w /\ w_calls w = [].

Definition conn_holds (v : view) (w : world) : Prop :=
  env_ok w /\ exists os, split os w /\ forall c, conn_known v c (os !! c).

Lemma raced_phase_agree v v' c m conn sm hs rs :
  v_stage v' !! c = v_stage v !! c -> (c ∈ v_new v' <-> c ∈ v_new v) -> (c ∈ v_open v' <-> c ∈ v_open v) ->
  raced_phase v c m conn sm hs rs -> raced_phase v' c m conn sm hs rs.
Proof.
  intros Es En Eo. destruct 1; [eapply raced_new|eapply tcp_connecting|eapply tcp_shutting|eapply raced_open|eapply tcp_done]; rewrite ?Es, ?En, ?Eo; done.
Qed.

Lemma conn_known_agree v v' c o : agree c v v' -> conn_known v c o -> conn_known v' c o.
Proof.
  intros Ha. pose proof Ha as (Es & Ec & Ei & En & Eo). destruct o as [p|]; cbn.
  - destruct 1. econstructor; rewrite ?Ec, ?Ei; first [done|by eapply raced_phase_agree].
  - by rewrite Es, Ec, Eo.
Qed.

(** The record of the operations is not a part of the world. *)
Lemma conn_holds_logged o v w : conn_holds v w -> conn_holds (logged o v) w.
Proof.
  intros [He (os & Hs & Hk)]. split; [exact He|]. exists os. split; [exact Hs|]. intros c. by apply (conn_known_agree v).
Qed.

(** One connection changes. *)
Lemma conn_change os v v' c p p' w w' :
  env_ok w' -> split os w -> (forall c', c' <> c -> conn_known v c' (os !! c')) -> os !! c = Some p ->
  (w_next w <= w_next w')%positive -> part_changes p p' w w' -> conn_part v' c p' -> (forall c', c' <> c -> agree c' v v') ->
  conn_holds v' w'.
Proof.
  intros He Hs Hk Hc Hn Hp Hp' Ha. split; [exact He|]. exists (<[c := p']> os). split; [by eapply split_change|].
  intros c'. destruct (decide (c' = c)) as [->|Hne]; [by rewrite lookup_insert_eq|]. rewrite lookup_insert_ne by done.
  eapply conn_known_agree; [by apply Ha|by apply Hk].
Qed.

(** *** Rules for the objects of one connection *)

Lemma changes_own {A} n n' k (a b : A) t : changes n n' {[k := a]} {[k := b]} t (<[k := b]> t).
Proof.
  apply (changes_one _ _ _ _ _ _ k b); [left; by rewrite lookup_singleton_eq; eexists|by rewrite insert_singleton_eq|done].
Qed.

Lemma changes_new {A} n n' k (b : A) t : (n <= k < n')%positive -> changes n n' ∅ {[k := b]} t (<[k := b]> t).
Proof. intros Hk. apply (changes_one _ _ _ _ _ _ k b); [by right|done|done]. Qed.

Lemma changes_same {A} n n' (p t : gmap id A) : changes n n' p p t t.
Proof. by apply changes_none. Qed.

Ltac own_changes :=
  split; cbn [pt_connections pt_groups pt_managers pt_handles pt_requests]; world_simpl;
    first [apply changes_same|apply changes_own|apply changes_new; lia].

Lemma own_objects os w c conn g gr m sm hs rs :
  split os w -> os !! c = Some (Part {[c := conn]} {[g := gr]} {[m := sm]} hs rs) ->
  w_connections w !! c = Some conn /\ w_groups w !! g = Some gr /\ w_managers w !! m = Some sm /\
  (forall h x, hs !! h = Some x -> w_handles w !! h = Some x) /\ (forall i r, rs !! i = Some r -> w_requests w !! i = Some r).
Proof.
  intros [H1 H2 H3 H4 H5] Hc. split_and!.
  - eapply (part_lookup _ _ _ c); [exact H1|by rewrite lookup_fmap, Hc|apply lookup_singleton_eq].
  - eapply (part_lookup _ _ _ c); [exact H2|by rewrite lookup_fmap, Hc|apply lookup_singleton_eq].
  - eapply (part_lookup _ _ _ c); [exact H3|by rewrite lookup_fmap, Hc|apply lookup_singleton_eq].
  - intros h x Hh. eapply (part_lookup _ _ _ c); [exact H4|by rewrite lookup_fmap, Hc|exact Hh].
  - intros i r Hr. eapply (part_lookup _ _ _ c); [exact H5|by rewrite lookup_fmap, Hc|exact Hr].
Qed.

Lemma raced_update m g conn conn' :
  raced m g conn -> cn_internal_connection_state conn' = cn_internal_connection_state conn ->
  sec_ok (cn_security_parameters conn') -> cn_connection_group conn' = cn_connection_group conn ->
  cn_socket_manager conn' = cn_socket_manager conn -> cn_framer_impl conn' = cn_framer_impl conn -> raced m g conn'.
Proof. intros [] E1 Hs E2 E3 E4. split; congruence. Qed.

(** The connection itself changes. *)
Lemma conn_set os v v' c m g conn conn' sm gu u tp hs rs w w' :
  env_ok w' -> split os w -> (forall c, conn_known v c (os !! c)) ->
  os !! c = Some (Part {[c := conn]} {[g := client_group gu u c tp]} {[m := sm]} hs rs) ->
  w_connections w' = <[c := conn']> (w_connections w) -> w_next w' = w_next w -> w_groups w' = w_groups w ->
  w_managers w' = w_managers w -> w_handles w' = w_handles w -> w_requests w' = w_requests w ->
  raced m g conn' -> raced_manager c sm -> wf_selection (selection_properties tp) ->
  v_cbs v' !! c = Some (cn_callbacks conn') -> v_impl v' !! c = Some (sm_protocol_impl sm) ->
  raced_phase v' c m conn' sm hs rs -> (forall c', c' <> c -> agree c' v v') -> conn_holds v' w'.
Proof.
  intros He Hs Hk Hc E1 En E2 E3 E4 E5 Hconn Hm Htp Hcb Hi Hph Ha.
  eapply (conn_change os v v' c _ (Part {[c := conn']} {[g := client_group gu u c tp]} {[m := sm]} hs rs));
    [exact He|exact Hs|by intros; apply Hk|exact Hc|by rewrite En| |by econstructor|exact Ha].
  split; rewrite ?E1, ?E2, ?E3, ?E4, ?E5; first [apply changes_same|apply changes_own].
Qed.

(** What is known of a connection that racing knows. *)
Record owned (v : view) (w : world) (os : gmap id part) (c m g : id) (conn : ct_connection) (sm : ct_socket_manager)
    gu u tp hs rs : Prop := {
  ow_env : env_ok w;
  ow_split : split os w;
  ow_known c' : conn_known v c' (os !! c');
  ow_part : os !! c = Some (Part {[c := conn]} {[g := client_group gu u c tp]} {[m := sm]} hs rs);
  ow_conn : raced m g conn;
  ow_manager : raced_manager c sm;
  ow_props : wf_selection (selection_properties tp);
  ow_cbs : v_cbs v !! c = Some (cn_callbacks conn);
  ow_impl : v_impl v !! c = Some (sm_protocol_impl sm);
  ow_phase : raced_phase v c m conn sm hs rs;
  ow_connection : w_connections w !! c = Some conn;
  ow_group : w_groups w !! g = Some (client_group gu u c tp);
  ow_the_manager : w_managers w !! m = Some sm;
  ow_handles h x : hs !! h = Some x -> w_handles w !! h = Some x;
  ow_requests i r : rs !! i = Some r -> w_requests w !! i = Some r }.

Arguments ow_env {v w os c m g conn sm gu u tp hs rs} _.
Arguments ow_split {v w os c m g conn sm gu u tp hs rs} _.
Arguments ow_part {v w os c m g conn sm gu u tp hs rs} _.
Arguments ow_conn {v w os c m g conn sm gu u tp hs rs} _.
Arguments ow_manager {v w os c m g conn sm gu u tp hs rs} _.
Arguments ow_props {v w os c m g conn sm gu u tp hs rs} _.
Arguments ow_cbs {v w os c m g conn sm gu u tp hs rs} _.
Arguments ow_impl {v w os c m g conn sm gu u tp hs rs} _.
Arguments ow_phase {v w os c m g conn sm gu u tp hs rs} _.
Arguments ow_connection {v w os c m g conn sm gu u tp hs rs} _.
Arguments ow_group {v w os c m g conn sm gu u tp hs rs} _.
Arguments ow_the_manager {v w os c m g conn sm gu u tp hs rs} _.
Arguments ow_known {v w os c m g conn sm gu u tp hs rs} _ _.
Arguments ow_handles {v w os c m g conn sm gu u tp hs rs} _ {h x} _.
Arguments ow_requests {v w os c m g conn sm gu u tp hs rs} _ {i r} _.

Lemma owned_part os v w c p : env_ok w -> split os w -> (forall c, conn_known v c (os !! c)) -> os !! c = Some p ->
  exists m g conn sm gu u tp hs rs,
    p = Part {[c := conn]} {[g := client_group gu u c tp]} {[m := sm]} hs rs /\ owned v w os c m g conn sm gu u tp hs rs.
Proof.
  intros He Hs Hk Hp. pose proof (Hk c) as Hpart. rewrite Hp in Hpart. destruct Hpart as [m g conn sm gu u tp hs rs].
  destruct (own_objects _ _ _ _ _ _ _ _ _ _ Hs Hp) as (? & ? & ? & ? & ?).
  exists m, g, conn, sm, gu, u, tp, hs, rs. split; [done|]. by split.
Qed.

Lemma conn_owned v w c : conn_holds v w -> is_Some (v_cbs v !! c) ->
  exists os m g conn sm gu u tp hs rs, owned v w os c m g conn sm gu u tp hs rs.
Proof.
  intros [He (os & Hs & Hk)] Hc. specialize (Hk c) as Hkc. destruct (os !! c) as [p|] eqn:Hp.
  - destruct (owned_part os v w c p He Hs Hk Hp) as (m & g & conn & sm & gu & u & tp & hs & rs & _ & Hw).
    by exists os, m, g, conn, sm, gu, u, tp, hs, rs.
  - destruct Hkc as (_ & Hn & _). rewrite Hn in Hc. by destruct Hc.
Qed.

Lemma open_socket_fields c m conn conn' sm h x own :
  cn_all_remote_endpoints conn' = cn_all_remote_endpoints conn -> cn_active_remote_endpoint conn' = cn_active_remote_endpoint conn ->
  open_socket c m conn sm h x own -> open_socket c m conn' sm h x own.
Proof.
  intros Er Ear. assert (Erl : remote_list conn' = remote_list conn) by (unfold remote_list; by rewrite Er).
  destruct 1; econstructor; rewrite ?Erl, ?Ear; done.
Qed.

Lemma raced_phase_fields v c m conn conn' sm hs rs :
  cn_state conn' = cn_state conn -> (cn_can_send conn = false -> cn_can_send conn' = false) ->
  cn_all_local_endpoints conn' = cn_all_local_endpoints conn -> cn_active_local_endpoint conn' = cn_active_local_endpoint conn ->
  cn_all_remote_endpoints conn' = cn_all_remote_endpoints conn -> cn_active_remote_endpoint conn' = cn_active_remote_endpoint conn ->
  raced_phase v c m conn sm hs rs -> raced_phase v c m conn' sm hs rs.
Proof.
  intros Es Ec El Eal Er Ear Hph. assert (Erl : remote_list conn' = remote_list conn) by (unfold remote_list; by rewrite Er).
  destruct Hph; [eapply raced_new|eapply tcp_connecting|eapply tcp_shutting|eapply raced_open|eapply tcp_done];
    rewrite ?Es, ?El, ?Eal, ?Erl, ?Ear; eauto using open_socket_fields.
Qed.

(** ** The operations that racing uses *)

(** What the loop does to connections that are being raced: a connect request
    completes, or a closed handle's callback runs.  When a connect request
    fails the loop closes the handle before it reports anything else: see
    [connect_fails_before_success_faults] for what happens otherwise. *)
Inductive conn_event : Type :=
| Connected (req : id) (status : Z)
| HandleDone (h : id).

Section operations.
Context `{!Picoquic, !Framers, !HashOrder}.
(** The addresses that the sockets of the connections are bound to. *)
Context (names : id -> sockaddr).

Definition finish_close (h : id) : M world unit :=
  w ← get; when (possible (CloseFinished h) w) (run_event (CloseFinished h)).

Definition run_conn_event (e : conn_event) : M world unit :=
  w ← get;
  match e with
  | HandleDone h => finish_close h
  | Connected req status =>
      when (possible (TcpConnected req status) w)
        (run_event (TcpConnected req status) ;;
         match w_requests w !! req with
         | Some (TcpConnectRequest h _ _) => when ((status <? 0) && is_open_in h w) (finish_close h)
         | _ => mret tt
         end)
  end.

(** The program's operations, with the events above and a kernel that names
    every socket. *)
Definition conn_race_ops : RaceOps world := {|
  rop_heap A := @rop_heap world ctaps_race_ops A;
  rop_create_client := @rop_create_client world ctaps_race_ops;
  rop_clear_alpn := @rop_clear_alpn world ctaps_race_ops;
  rop_add_alpn := @rop_add_alpn world ctaps_race_ops;
  rop_init c := modify (set_w_names [names c]) ;; @rop_init world ctaps_race_ops c;
  rop_init_with_send c msg ctx := modify (set_w_names [names c]) ;; @rop_init_with_send world ctaps_race_ops c msg ctx;
  rop_close_group := @rop_close_group world ctaps_race_ops;
  rop_free := @rop_free world ctaps_race_ops;
  rop_send_message_full := @rop_send_message_full world ctaps_race_ops;
  rop_message_send_error := @rop_message_send_error world ctaps_race_ops;
  rop_message_sent := @rop_message_sent world ctaps_race_ops;
  rop_sent_early_data := @rop_sent_early_data world ctaps_race_ops;
  rop_callbacks := @rop_callbacks world ctaps_race_ops;
  rop_set_callbacks := @rop_set_callbacks world ctaps_race_ops;
  rop_take_calls := @rop_take_calls world ctaps_race_ops;
  rop_event := conn_event;
  rop_run_event := run_conn_event |}.
#[local] Existing Instance conn_race_ops.

Hypothesis (Hnames : forall c, wf_sockaddr (names c) /\ is_inet (names c) = true).

(** What can be raced, and sent. *)
Definition conn_allows (p : ct_protocol_impl) (input : race_input) : Prop :=
  (pi_enum p = CT_PROTOCOL_TCP \/ pi_enum p = CT_PROTOCOL_UDP) /\ props_ok (ri_transport_properties input) /\ sec_ok (ri_security_parameters input) /\
  ri_framer_impl input = None.
Definition conn_sends (msg : option ct_message) (ctx : option ct_message_context) : Prop :=
  exists m data, msg = Some m /\ content_bytes m = Some data.

Lemma wp_calls_of {A} (m : M world A) (Q : A * list call -> world -> Prop) w :
  wp m (fun a w1 => Q (a, w_calls w1) (set_w_calls [] w1)) w -> wp (calls_of m) Q w.
Proof.
  intros Hm. unfold calls_of. wp_go. eapply wp_mono; [exact Hm|]. intros a w1 HQ. cbn [rop_take_calls conn_race_ops ctaps_race_ops].
  wp_go. exact HQ.
Qed.

Lemma conn_law_heap {A} (m : M heap A) P v w :
  conn_holds v w -> orderly m P -> wp (on_heap m) (fun a w' => P a /\ conn_holds v w') w.
Proof.
  intros [(Ho & Huv & Hl) (os & [] & Hk)] Hm. apply wp_on_heap. eapply wp_mono; [by apply Hm|]. intros a h [HP Hh].
  split; [done|]. split; [done|]. exists os. split; [|done]. by split.
Qed.

Lemma conn_law_create p locals i l remotes j r input cbs v w :
  conn_holds v w -> conn_allows p input -> locals !! i = Some l -> is_inet (le_resolved_address l) = true ->
  remotes !! j = Some r -> is_inet (re_resolved_address r) = true ->
  wp (rop_create_client p locals i remotes j (ri_transport_properties input) (ri_security_parameters input) cbs (ri_framer_impl input))
    (fun o w' => exists c, o = Some c /\ v_stage v !! c = None /\ v_cbs v !! c = None /\ (c ∉ v_open v) /\
       conn_holds (created c p cbs v) w') w.
Proof.
  intros [(Ho & Huv & Hcalls) (os & Hs & Hk)] (Hp & Hprops & Hsec & Hfr) Hl Hli Hr Hri. rewrite Hfr.
  cbn [rop_create_client conn_race_ops ctaps_race_ops].
  apply (wp_create_client _ _ _ _ _ r); [exact Ho|exact Hr|exact Hri|exact Hprops|exact Hsec|].
  intros h u gu tp sec' en k Ho' Htp Hsec'%sec_copied_ok _. set (c := w_next w) in *. set (m := Pos.succ c). set (g := Pos.succ m).
  assert (Hnew : os !! c = None).
  { destruct (os !! c) as [pc|] eqn:Hc; [|done]. specialize (Hk c). rewrite Hc in Hk. destruct Hk.
    pose proof (own_objects _ _ _ _ _ _ _ _ _ _ Hs Hc) as (Hw & _). rewrite (pa_fresh _ _ _ (sp_connections _ _ Hs)) in Hw; [done|]. lia. }
  specialize (Hk c) as Hkc. rewrite Hnew in Hkc. destruct Hkc as (Hst & Hcb & Hop). exists c. split_and!; [done..|].
  eapply (conn_change (<[c := no_part]> os) v (created c p cbs v) c no_part
    (Part {[c := client_connection u g m sec' locals i remotes j None cbs]} {[g := client_group gu u c tp]}
       {[m := client_manager p c (re_resolved_address r)]} ∅ ∅)).
  - split_and!; [done..|by rewrite <- Hcalls].
  - by apply split_empty.
  - intros c' Hne. rewrite lookup_insert_ne by done. apply Hk.
  - apply lookup_insert_eq.
  - cbn. lia.
  - own_changes.
  - econstructor; try done; try (by apply lookup_insert_eq). eapply raced_new; try done. cbn. set_solver.
  - intros. by apply agree_created.
Qed.

(** Only the connection's own fields change, and none that its phase depends
    on. *)
Lemma same_phase v v' w w' os c m g conn conn' sm gu u tp hs rs :
  owned v w os c m g conn sm gu u tp hs rs -> env_ok w' ->
  w_connections w' = <[c := conn']> (w_connections w) -> w_next w' = w_next w -> w_groups w' = w_groups w ->
  w_managers w' = w_managers w -> w_handles w' = w_handles w -> w_requests w' = w_requests w ->
  raced m g conn' -> raced_phase v c m conn' sm hs rs -> v' = with_cbs c (cn_callbacks conn') v -> conn_holds v' w'.
Proof.
  intros [] He E1 En E2 E3 E4 E5 Hconn Hph ->. eapply (conn_set os v _ c m g conn conn' sm gu u tp hs rs w); try done.
  - cbn. apply lookup_insert_eq.
  - by apply (raced_phase_agree v).
  - intros c' Hne. unfold agree. cbn. by rewrite lookup_insert_ne by done.
Qed.

Lemma with_cbs_same c cbs v : v_cbs v !! c = Some cbs -> with_cbs c cbs v = v.
Proof. intros Hc. unfold with_cbs. rewrite insert_id by done. by destruct v. Qed.

Lemma wp_update_security c f v w :
  (forall sec, sec_ok sec -> exists n, allocs (f sec) (fun r => sec_ok r.2) n) ->
  conn_holds v w -> is_Some (v_cbs v !! c) -> wp (update_security c f) (fun _ => conn_holds v) w.
Proof.
  intros Hf Hh Hc. destruct (conn_owned v w c Hh Hc) as (os & m & g & conn & sm & gu & u & tp & hs & rs & Hw).
  pose proof (ow_env Hw) as (Ho & Huv & Hcalls).
  pose proof (ow_conn Hw) as Hconn. pose proof (ow_connection Hw) as Hwc.
  unfold update_security. wp_go. eapply wp_connection_at; [exact Hwc|]. wp_go.
  destruct (Hf (cn_security_parameters conn)) as [n Hn]; [apply Hconn|].
  eapply wp_heap_allocs; [exact Ho|exact Hn|]. intros [rc sec] h Hsec Hoh _. cbn in Hsec. wp_go.
  eapply wp_update_connection; [exact Hwc|]. world_simpl.
  eapply (same_phase v v w _ os c m g conn (set_cn_security_parameters sec conn)); [exact Hw|by split_and!|done..| | |].
  - by eapply raced_update.
  - eapply raced_phase_fields; [..|exact (ow_phase Hw)]; done.
  - rewrite with_cbs_same; [done|]. exact (ow_cbs Hw).
Qed.

Lemma conn_law_clear_alpn c v w : conn_holds v w -> is_Some (v_cbs v !! c) -> wp (rop_clear_alpn c) (fun _ => conn_holds v) w.
Proof.
  cbn [rop_clear_alpn conn_race_ops ctaps_race_ops]. apply wp_update_security. intros [sec|] Hsec.
  - exists (fun r => match r.2 with Some l => sec_blocks l - sec_blocks sec | None => 0 end).
    eapply allocs_mono; [apply clear_alpn_ok, Hsec|]. by intros r (l & -> & Hl).
  - exists (fun _ => 0). by apply allocs_ret.
Qed.

Lemma conn_law_add_alpn c alpn v w : conn_holds v w -> is_Some (v_cbs v !! c) -> wp (rop_add_alpn c alpn) (fun _ => conn_holds v) w.
Proof.
  cbn [rop_add_alpn conn_race_ops ctaps_race_ops]. apply wp_update_security. intros [sec|] Hsec.
  - exists (fun r => match r.2 with Some l => sec_blocks l - sec_blocks sec | None => 0 end).
    eapply allocs_mono; [apply (run_sec_op_ok sec Hsec (AddAlpn alpn))|]. by intros r (l & -> & Hl).
  - exists (fun _ => 0). by apply allocs_ret.
Qed.

Lemma conn_law_callbacks c cbs v w :
  conn_holds v w -> v_cbs v !! c = Some cbs -> wp (rop_callbacks c) (fun r w' => r = cbs /\ conn_holds v w') w.
Proof.
  intros Hh Hc. destruct (conn_owned v w c Hh) as (os & m & g & conn & sm & gu & u & tp & hs & rs & Hw); [by eexists|].
  cbn [rop_callbacks conn_race_ops ctaps_race_ops]. wp_go. eapply wp_connection_at; [exact (ow_connection Hw)|].
  wp_go.
  split; [|done].
  pose proof (ow_cbs Hw). congruence.
Qed.

Lemma conn_law_set_callbacks c cbs v w :
  conn_holds v w -> is_Some (v_cbs v !! c) -> wp (rop_set_callbacks c cbs) (fun _ => conn_holds (with_cbs c cbs v)) w.
Proof.
  intros Hh Hc. destruct (conn_owned v w c Hh Hc) as (os & m & g & conn & sm & gu & u & tp & hs & rs & Hw).
  cbn [rop_set_callbacks conn_race_ops ctaps_race_ops]. eapply wp_update_connection; [exact (ow_connection Hw)|].
  eapply (same_phase v _ w _ os c m g conn (set_cn_callbacks cbs conn));
    [exact Hw|exact (ow_env Hw)|done|done|done|done|done|done| | |done].
  - eapply raced_update; [exact (ow_conn Hw)|done|apply (ow_conn Hw)|done..].
  - eapply raced_phase_fields; [..|exact (ow_phase Hw)]; done.
Qed.

(** A new connection over TCP starts to connect. *)
Lemma wp_raced_tcp_init os v w c m g conn sm gu u tp locals l r :
  owned v w os c m g conn sm gu u tp ∅ ∅ -> sm_protocol sm = CT_PROTOCOL_TCP -> (c ∉ v_open v) ->
  cn_state conn = CT_CONN_STATE_ESTABLISHING -> cn_can_send conn = false -> cn_all_local_endpoints conn = Some locals ->
  locals !! cn_active_local_endpoint conn = Some l -> remote_list conn !! cn_active_remote_endpoint conn = Some r ->
  wp (tcp_init c) (fun rc w' => rc = 0 /\ w_calls w' = [] /\ conn_holds (owing c Establishing v) (set_w_calls [] w'))
    (set_w_names [names c] w).
Proof.
  intros Hw Hp Hop Hest Hcan Hl Hact Hr. pose proof (ow_env Hw) as (Ho & Huv & Hcalls). pose proof (ow_manager Hw) as Hm.
  eapply (wp_tcp_init c m g conn sm (client_group gu u c tp) locals r);
    [exact Ho|exact Huv|apply Hnames|exact (ow_connection Hw)|apply (ow_conn Hw)|exact (ow_the_manager Hw)|apply (ow_conn Hw)
    |exact (ow_group Hw)|exact Hl|by eexists|exact Hr|].
  intros heap uv nms locals' i' Hoh _ Huv' _. world_simpl. split; [done|]. split; [done|].
  eapply (conn_change os v (owing c Establishing v) c _ (Part {[c := with_locals locals' i' conn]} {[g := client_group gu u c tp]}
    {[m := set_sm_internal_socket_manager_state (tcp_state c (Pos.succ (w_next w)) (w_next w)) sm]}
    {[w_next w := tcp_handle m None HandleOpen]} {[Pos.succ (w_next w) := TcpConnectRequest (w_next w) false true]}) w);
    [by split_and!|exact (ow_split Hw)|intros; exact (ow_known Hw _)|exact (ow_part Hw)|cbn; lia|own_changes| |intros; by apply agree_owing].
  econstructor; [| |exact (ow_props Hw)|exact (ow_cbs Hw)|exact (ow_impl Hw)|].
  - eapply raced_update; [exact (ow_conn Hw)|done|apply (ow_conn Hw)|done..].
  - by destruct Hm.
  - eapply tcp_connecting; try done. cbn. by apply lookup_insert_eq.
Qed.

(** A new connection over UDP is ready at once. *)
Lemma wp_raced_udp_init os v w c m g conn sm gu u tp locals l r :
  owned v w os c m g conn sm gu u tp ∅ ∅ -> sm_protocol sm = CT_PROTOCOL_UDP -> cn_all_local_endpoints conn = Some locals ->
  locals !! cn_active_local_endpoint conn = Some l -> is_inet (le_resolved_address l) = true ->
  remote_list conn !! cn_active_remote_endpoint conn = Some r ->
  wp (udp_init c) (fun rc w' => rc = 0 /\ w_calls w' = notify (cb_ready (cn_callbacks conn)) Ready c /\
    conn_holds (opened c v) (set_w_calls [] w')) (set_w_names [names c] w).
Proof.
  intros Hw Hp Hl Hact Hi Hr. pose proof (ow_env Hw) as (Ho & Huv & Hcalls). pose proof (ow_manager Hw) as Hm.
  eapply (wp_udp_init c m conn sm locals l);
    [exact Ho|exact Huv|apply Hnames|exact (ow_connection Hw)|apply (ow_conn Hw)|exact (ow_the_manager Hw)|exact Hl|exact Hact|exact Hi|].
  intros heap uv nms locals' i' Hoh _ Huv' _. world_simpl. rewrite Hcalls. split; [done|]. split; [done|].
  eapply (conn_change os v (opened c v) c _ (Part {[c := established (with_locals locals' i' conn)]} {[g := client_group gu u c tp]}
    {[m := set_sm_internal_socket_manager_state (udp_state (w_next w)) sm]} {[w_next w := udp_handle m HandleOpen (udp_bind_address (Some l))]} ∅) w);
    [by split_and!|exact (ow_split Hw)|intros; exact (ow_known Hw _)|exact (ow_part Hw)|cbn; lia|own_changes| |intros; by apply agree_opened].
  econstructor; [| |exact (ow_props Hw)|exact (ow_cbs Hw)|exact (ow_impl Hw)|].
  - eapply raced_update; [exact (ow_conn Hw)|done|apply (ow_conn Hw)|done..].
  - by destruct Hm.
  - eapply raced_open; [apply open_udp; [exact Hp|done|by eexists]| | | |done|done]; cbn; [apply lookup_delete_eq|set_solver|set_solver].
Qed.

Lemma conn_law_init p c cbs v w :
  conn_holds v w -> v_stage v !! c = None -> c ∈ v_new v -> v_cbs v !! c = Some cbs -> v_impl v !! c = Some p ->
  wp (calls_of (rop_init c)) (fun r w' =>
    r = (0, []) /\ conn_holds (owing c Establishing v) w' \/
    r = (0, notify (cb_ready cbs) Ready c) /\ conn_holds (opened c v) w') w.
Proof.
  intros Hh Hst Hnew Hc Hp. destruct (conn_owned v w c Hh) as (os & m & g & conn & sm & gu & u & tp & hs & rs & Hw); [by eexists|].
  assert (cn_callbacks conn = cbs) as <- by (pose proof (ow_cbs Hw); congruence). assert (Hph := ow_phase Hw).
  inversion Hph as [locals l Hpr _ _ Hop Hest Hcan Hint Hl Hact Hi [r Hr] E1 E2|?|?|?|?]; [subst hs rs|congruence|congruence|done|done].
  apply wp_calls_of. cbn [rop_init conn_race_ops ctaps_race_ops]. wp_go.
  eapply wp_protocol_of; [exact (ow_connection Hw)|apply (ow_conn Hw)|exact (ow_the_manager Hw)|].
  destruct Hpr as [Hpr|Hpr]; rewrite Hpr; cbn [impl_init ctaps_protocols].
  - eapply wp_mono; [by eapply wp_raced_tcp_init|]. intros rc w1 (-> & -> & Hw1). by left.
  - eapply wp_mono; [by eapply wp_raced_udp_init|]. intros rc w1 (-> & -> & Hw1). by right.
Qed.

(** libuv is asked to close the handle of a connection that is being
    established. *)
Lemma wp_tcp_close_group os c m g conn sm gu u tp hs rs v w h x req (Q : unit -> world -> Prop) :
  owned v w os c m g conn sm gu u tp hs rs -> sm_protocol sm = CT_PROTOCOL_TCP -> cn_state conn = CT_CONN_STATE_ESTABLISHING ->
  sm_internal_socket_manager_state sm = tcp_state c req h -> w_handles w !! h = Some x -> uh_phase x = HandleOpen ->
  Q tt (set_w_handles (<[h := set_phase (HandleClosing (Some on_libuv_close_ptr)) x]> (w_handles w)) w) ->
  wp (ct_connection_close_group (Some c)) Q w.
Proof.
  intros Hw Hpr Hst Hint Hh Hph HQ. pose proof (ow_connection Hw) as Hc. pose proof (ow_the_manager Hw) as Hm.
  pose proof (tn_manager _ _ _ (ow_conn Hw)) as Hcm.
  unfold ct_connection_close_group. wp_go. eapply wp_connection_at; [exact Hc|]. rewrite (tn_group _ _ _ (ow_conn Hw)). wp_go.
  eapply wp_manager_of; [exact Hc|exact Hcm|]. wp_go. unfold ct_socket_manager_close_group. wp_go. eapply wp_manager_at; [exact Hm|].
  rewrite Hpr. cbn [impl_close_connection_group ctaps_protocols].
  unfold tcp_close_connection_group, group_members. wp_go. eapply wp_group_at; [exact (ow_group Hw)|]. cbn [client_group gr_connections]. wp_go.
  rewrite (proj1 (Permutation_singleton_r _ _) (hash_order_perm [(u, c)])). cbn [fmap list_fmap snd for_each]. wp_go.
  eapply wp_is_closed_or_closing; [exact Hc|]. rewrite Hst, bool_decide_false by (by intros []). cbn [negb when]. wp_go.
  unfold tcp_close. wp_go. eapply wp_manager_of; [exact Hc|exact Hcm|]. wp_go.
  eapply (wp_state_of c m h req); [exact Hint|exact Hm|]. unfold tcp_handle_of. wp_go. eapply wp_uv_close; [exact Hh|exact Hph|]. by wp_go.
Qed.

Lemma conn_law_close_group c cbs v w :
  conn_holds v w -> v_stage v !! c = Some Establishing -> v_cbs v !! c = Some cbs ->
  wp (calls_of (rop_close_group c)) (fun r w' => r.2 = [] /\ conn_holds (owing c Shutting v) w') w.
Proof.
  intros Hh Hst Hc. destruct (conn_owned v w c Hh) as (os & m & g & conn & sm & gu & u & tp & hs & rs & Hw); [by eexists|].
  pose proof (ow_env Hw) as (Ho & Huv & Hcalls). assert (Hph := ow_phase Hw).
  inversion Hph as [?|h req Hpr _ Hop Hest Hcan Hint E1 E2|?|?|?]; [congruence|subst hs rs|congruence..].
  apply wp_calls_of. cbn [rop_close_group conn_race_ops ctaps_race_ops].
  eapply (wp_tcp_close_group _ _ _ _ _ _ _ _ _ _ _ _ _ h); [exact Hw|exact Hpr|exact Hest|exact Hint|apply (ow_handles Hw), lookup_singleton_eq|done|].
  cbn [snd]. rewrite <- Hcalls at 1. split; [done|].
  eapply (conn_change os v (owing c Shutting v) c _ (Part {[c := conn]} {[g := client_group gu u c tp]} {[m := sm]}
    {[h := tcp_handle m None (HandleClosing (Some on_libuv_close_ptr))]} {[req := TcpConnectRequest h false true]}) w);
    [by split_and!|exact (ow_split Hw)|intros; exact (ow_known Hw _)|exact (ow_part Hw)|cbn; lia|own_changes| |intros; by apply agree_owing].
  econstructor; [exact (ow_conn Hw)|exact (ow_manager Hw)|exact (ow_props Hw)|exact (ow_cbs Hw)|exact (ow_impl Hw)|].
  eapply tcp_shutting; try done. cbn. by apply lookup_insert_eq.
Qed.

(** *** Freeing *)

(** A connection goes. *)
Lemma conn_forget os c m g conn sm gu u tp hs rs v w live o :
  owned v w os c m g conn sm gu u tp hs rs -> v_stage v !! c = None -> (c ∉ v_open v) -> oracle_ok (Heap o live) ->
  conn_holds (forgotten c v) (World (Heap o live) (w_next w) (delete c (w_connections w)) (delete g (w_groups w))
    (delete m (w_managers w)) (w_listeners w) (w_handles w ∖ hs) (w_requests w ∖ rs) (w_uv w) (w_names w) (w_entropy w)
    (w_uuid_counter w) (w_time w) [] (w_quic w)).
Proof.
  intros Hw Hst Hop Ho. split; [split_and!; [exact Ho|apply (ow_env Hw)|done]|]. exists (delete c os). split.
  - eapply split_delete; [exact (ow_split Hw)|done|exact (ow_part Hw)|..]; cbn; by rewrite ?difference_one.
  - intros c'. destruct (decide (c' = c)) as [->|Hne].
    + rewrite lookup_delete_eq. cbn. by rewrite lookup_delete_eq.
    + rewrite lookup_delete_ne by done. apply (conn_known_agree v); [|exact (ow_known Hw c')].
      unfold agree. cbn. by rewrite lookup_delete_ne by done.
Qed.

Lemma conn_law_free c v w :
  conn_holds v w -> v_stage v !! c = None -> (c ∉ v_open v) -> is_Some (v_cbs v !! c) -> (c ∉ v_new v) ->
  wp (calls_of (rop_free c)) (fun r w' => r.2 = [] /\ conn_holds (forgotten c v) w') w.
Proof.
  intros Hh Hst Hop Hc Hnew. destruct (conn_owned v w c Hh Hc) as (os & m & g & conn & sm & gu & u & tp & hs & rs & Hw).
  pose proof (ow_env Hw) as (Ho & Huv & Hcalls). assert (Hph := ow_phase Hw). pose proof (ow_conn Hw) as Hconn. pose proof (ow_manager Hw) as Hm.
  inversion Hph as [?|?|?|?|h req Hpr _ _ _ _ _ Hint E1 E2]; [done|congruence|congruence|done|subst hs rs].
  apply wp_calls_of. cbn [rop_free conn_race_ops ctaps_race_ops].
  eapply (wp_connection_free c m g conn sm gu [(u, c)] tp 4 (delete m) (delete h (w_handles w)) (delete req (w_requests w)));
    [exact (ow_connection Hw)|apply Hconn|apply Hconn|apply Hconn|apply Hconn|exact (ow_group Hw)|exact (ow_props Hw)
    |exact (ow_the_manager Hw)|by rewrite Hpr| |intros; apply delete_insert_eq|].
  - eapply (tcp_frees_manager c m h req); [exact Hint|apply Hm|exact Hpr|apply (ow_handles Hw), lookup_singleton_eq|done
      |apply (ow_requests Hw), lookup_singleton_eq].
  - intros live _. split; [exact Hcalls|]. pose proof (conn_forget _ _ _ _ _ _ _ _ _ _ _ _ _ live _ Hw Hst Hop Ho) as Hgo.
    by rewrite !difference_one in Hgo.
Qed.

(** *** Sending *)

Lemma application_quiet cbs fn ev c :
  application cbs -> fn ∈ [cb_sent cbs; cb_send_error cbs] ->
  match ev with Ready | EstablishmentError => false | _ => true end = true -> forallb quiet (called fn ev c) = true.
Proof.
  unfold application. rewrite list.Forall_forall. intros Happ Hfn Hev. destruct fn as [fn|]; [|done]. cbn.
  rewrite (Happ (Some fn)), Hev by set_solver. done.
Qed.

(** Telling the application about a message changes nothing. *)
Lemma wp_told c ctx fn ev cbs v w :
  conn_holds v w -> v_cbs v !! c = Some cbs -> application cbs -> fn cbs ∈ [cb_sent cbs; cb_send_error cbs] ->
  match ev with Ready | EstablishmentError => false | _ => true end = true ->
  wp (calls_of (conn ← connection_at c; call_connection (fn (cn_callbacks conn)) ev (Some c) ;; on_heap (ct_message_context_free ctx)))
    (fun r w' => forallb quiet r.2 = true /\ conn_holds v w') w.
Proof.
  intros Hh Hc Happ Hfn Hev. destruct (conn_owned v w c Hh) as (os & m & g & conn & sm & gu & u & tp & hs & rs & Hw); [by eexists|].
  assert (cn_callbacks conn = cbs) as Hcb by (pose proof (ow_cbs Hw); congruence). destruct Hh as [(Ho & Huv & Hcalls) (os' & [] & Hk)].
  apply wp_calls_of. wp_go. eapply wp_connection_at; [exact (ow_connection Hw)|]. wp_go. apply wp_call_connection. wp_go.
  eapply (wp_heap_frees _ (match ctx with Some _ => 1 | None => 0 end)); [destruct ctx; [apply frees_context|apply frees_ret]|].
  world_simpl. cbn [snd]. rewrite Hcb, Hcalls. split; [by eapply application_quiet|].
  split; [by split_and!|]. exists os'. split; [by split|done].
Qed.

Lemma conn_law_sent c ctx cbs v w :
  conn_holds v w -> v_cbs v !! c = Some cbs -> application cbs ->
  wp (calls_of (rop_message_sent c ctx)) (fun r w' => forallb quiet r.2 = true /\ conn_holds v w') w.
Proof. intros Hh Hc Happ. eapply (wp_told c ctx cb_sent Sent); [done..|set_solver|done]. Qed.

Lemma conn_law_send_error c ctx rc cbs v w :
  conn_holds v w -> v_cbs v !! c = Some cbs -> application cbs ->
  wp (calls_of (rop_message_send_error c ctx rc)) (fun r w' => forallb quiet r.2 = true /\ conn_holds v w') w.
Proof. intros Hh Hc Happ. eapply (wp_told c ctx cb_send_error (SendError rc)); [done..|set_solver|done]. Qed.

Lemma conn_law_early c v w : conn_holds v w -> is_Some (v_cbs v !! c) -> wp (rop_sent_early_data c) (fun _ => conn_holds v) w.
Proof.
  intros Hh Hc. destruct (conn_owned v w c Hh Hc) as (os & m & g & conn & sm & gu & u & tp & hs & rs & Hw).
  cbn [rop_sent_early_data conn_race_ops ctaps_race_ops]. unfold ct_connection_sent_early_data, with_connection. wp_go.
  eapply wp_connection_at; [exact (ow_connection Hw)|]. by wp_go.
Qed.

(** libuv is given the message, or refuses it. *)
Lemma wp_tcp_send c m conn sm h req x msg ctx (Q : Z -> world -> Prop) w :
  oracle_ok (w_heap w) -> uv_ok w -> w_connections w !! c = Some conn -> cn_socket_manager conn = Some m ->
  w_managers w !! m = Some sm -> sm_internal_socket_manager_state sm = tcp_state c req h -> w_handles w !! h = Some x ->
  (forall rc heap uv, 0 <= rc -> oracle_ok heap -> Forall (fun rc => 0 <= rc) uv -> Q rc (set_w_uv uv (set_w_heap heap w))) ->
  (forall heap uv, oracle_ok heap -> Forall (fun rc => 0 <= rc) uv ->
     Q 0 (set_w_requests (<[w_next w := TcpWriteRequest h (Some (SendData c (Some msg) ctx))]> (w_requests w))
       (set_w_next (Pos.succ (w_next w)) (set_w_uv uv (set_w_heap heap w))))) ->
  wp (tcp_send c (Some msg) ctx) Q w.
Proof.
  intros Ho Huv Hc Hcm Hm Hint Hh Hrefused HQ. unfold tcp_send. wp_go.
  eapply wp_heap_allocs; [exact Ho|apply allocs_malloc|]. intros ? h1 <- Ho1 _. cbn [negb]. wp_go. unfold ct_tcp_send_data_new. wp_go.
  eapply wp_heap_allocs; [exact Ho1|apply allocs_malloc|]. intros ? h2 <- Ho2 _. wp_go. cbn [is_Some_b negb]. wp_go.
  eapply wp_manager_of; [exact Hc|exact Hcm|]. wp_go. eapply (wp_state_of c m h req); [exact Hint|exact Hm|]. unfold tcp_handle_of. wp_go.
  eapply wp_handle_at; [exact Hh|]. wp_go. apply wp_uv_rc; [exact Huv|]. intros rc uv Hrc Huv'.
  destruct (rc =? 0) eqn:Hz; cbn [negb]; wp_go.
  - unfold new_request, fresh_id. wp_go. by apply HQ.
  - eapply wp_heap_frees; [apply frees_block|]. wp_go. by apply Hrefused.
Qed.

(** The protocol refuses a message, or makes a request for it. *)
Lemma wp_raced_send c m conn sm h x own msg ctx (Q : Z -> world -> Prop) w :
  open_socket c m conn sm h x own -> oracle_ok (w_heap w) -> uv_ok w -> w_connections w !! c = Some conn ->
  cn_socket_manager conn = Some m -> w_managers w !! m = Some sm -> w_handles w !! h = Some x ->
  (forall rc heap uv, 0 <= rc -> oracle_ok heap -> Forall (fun rc => 0 <= rc) uv -> Q rc (set_w_uv uv (set_w_heap heap w))) ->
  (forall rc heap uv r, 0 <= rc -> oracle_ok heap -> Forall (fun rc => 0 <= rc) uv -> own r ->
     Q rc (set_w_requests (<[w_next w := r]> (w_requests w)) (set_w_next (Pos.succ (w_next w)) (set_w_uv uv (set_w_heap heap w))))) ->
  wp (ct_connection_send_to_protocol c (Some msg) ctx) Q w.
Proof.
  intros Hs Ho Huv Hc Hcm Hm Hh Hrefused HQ. unfold ct_connection_send_to_protocol. wp_go.
  eapply wp_protocol_of; [exact Hc|exact Hcm|exact Hm|].
  destruct Hs as [h req Hp Hint|h a Hp Hint [r Hr]]; rewrite Hp; cbn [impl_send ctaps_protocols].
  - eapply (wp_tcp_send c m conn sm h req); [exact Ho|exact Huv|exact Hc|exact Hcm|exact Hm|exact Hint|exact Hh|exact Hrefused|].
    intros heap uv Hoh Huv'. apply HQ; [lia|done|done|right; by eexists].
  - assert (Hrc : 0 <= next_rc w /\ Forall (fun rc => 0 <= rc) (tail (w_uv w))).
    { unfold next_rc, uv_ok in *. destruct (w_uv w); [by cbn|]. by apply Forall_cons_1 in Huv. }
    destruct Hrc as [Hrc Huv']. eapply (wp_udp_send c m h); [exact Ho|exact Hc|exact Hcm|exact Hm|exact Hint|exact Hh|exact Hr| |].
    + intros heap Hneg. lia.
    + intros heap _ Hoh _. apply HQ; [done|done|done|by eexists].
Qed.

Lemma conn_law_send c msg ctx v w :
  conn_holds v w -> conn_sends msg ctx -> is_Some (v_cbs v !! c) ->
  wp (calls_of (rop_send_message_full c msg ctx)) (fun r w' => forallb quiet r.2 = true /\ conn_holds v w') w.
Proof.
  intros Hh (msg' & data & -> & Hdata) Hc. destruct (conn_owned v w c Hh Hc) as (os & m & g & conn & sm & gu & u & tp & hs & rs & Hw).
  pose proof (ow_env Hw) as (Ho & Huv & Hcalls). pose proof (ow_conn Hw) as Hconn.
  apply wp_calls_of. cbn [rop_send_message_full conn_race_ops ctaps_race_ops]. destruct (cn_can_send conn) eqn:Hcan.
  2: { unfold ct_send_message_full. wp_go. eapply wp_can_send; [exact (ow_connection Hw)|]. rewrite Hcan. cbn [negb]. wp_go.
       cbn [snd]. rewrite Hcalls. split; [done|]. rewrite <- Hcalls. by destruct w. }
  assert (Hph := ow_phase Hw). inversion Hph as [?|?|?|h x own ? Hsocket Hst Hnew Hop Hest Hreqs E1|?]; [congruence..| |congruence].
  assert (Hconn' : raced m g (sending ctx conn)).
  { unfold sending. destruct (is_final ctx); [|done]. by eapply raced_update; [exact Hconn|done|apply Hconn|..]. }
  assert (Hsocket' : open_socket c m (sending ctx conn) sm h x own).
  { eapply open_socket_fields; [..|exact Hsocket]; unfold sending; by destruct (is_final ctx). }
  eapply wp_send_message; [exact Ho|exact (ow_connection Hw)|exact Hcan|apply Hconn|exact Hdata|].
  intros copy ctx' h1 _ _ _ Ho1 _.
  assert (Hend : forall rs', (forall i r, rs' !! i = Some r -> own r) ->
    conn_part v c (Part {[c := sending ctx conn]} {[g := client_group gu u c tp]} {[m := sm]} hs rs')).
  { intros rs' Hrs'. econstructor; [exact Hconn'|exact (ow_manager Hw)|exact (ow_props Hw)| |exact (ow_impl Hw)|].
    - rewrite (ow_cbs Hw). unfold sending. by destruct (is_final ctx).
    - rewrite <- E1. eapply raced_open; try done. unfold sending. by destruct (is_final ctx). }
  eapply (wp_raced_send c m (sending ctx conn) sm h x own);
    [exact Hsocket'|exact Ho1|exact Huv|apply lookup_insert_eq|apply Hconn'|exact (ow_the_manager Hw)
    |apply (ow_handles Hw); rewrite <- E1; apply lookup_singleton_eq| |].
  - intros rc heap uv Hrc Hoh Huv'. rewrite (proj2 (Z.ltb_ge _ _) Hrc). world_simpl. cbn [snd]. rewrite Hcalls. split; [done|].
    eapply (conn_change os v v c _ (Part {[c := sending ctx conn]} {[g := client_group gu u c tp]} {[m := sm]} hs rs) w);
      [by split_and!|exact (ow_split Hw)|intros; exact (ow_known Hw _)|exact (ow_part Hw)|cbn; lia|own_changes|by apply Hend|done].
  - intros rc heap uv r Hrc Hoh Huv' Hr. rewrite (proj2 (Z.ltb_ge _ _) Hrc). world_simpl. cbn [snd]. rewrite Hcalls. split; [done|].
    eapply (conn_change os v v c _ (Part {[c := sending ctx conn]} {[g := client_group gu u c tp]} {[m := sm]} hs (<[w_next w := r]> rs)) w);
      [by split_and!|exact (ow_split Hw)|intros; exact (ow_known Hw _)|exact (ow_part Hw)|cbn; lia| | |done].
    + split; cbn [pt_connections pt_groups pt_managers pt_handles pt_requests]; world_simpl;
        try first [apply changes_same|apply changes_own]. eapply (changes_one _ _ _ _ _ _ (w_next w)); [right; lia|done|done].
    + apply Hend. intros i r' [[_ <-]|[_ Hr']]%lookup_insert_Some; [done|by eapply Hreqs].
Qed.

(** *** Events *)

(** The requests of a connection are on its handle. *)
Lemma phase_request v c m conn sm hs rs i r :
  raced_phase v c m conn sm hs rs -> rs !! i = Some r ->
  exists h x, hs !! h = Some x /\ forall h', request_on h' r = true -> h' = h.
Proof.
  assert (Hon : forall h r, (exists b, r = TcpConnectRequest h false b) \/ (exists d, r = TcpWriteRequest h d) ->
    forall h', request_on h' r = true -> h' = h).
  { intros h ? [[b ->]|[d ->]] h'; cbn; rewrite ?andb_true_iff, bool_decide_eq_true; naive_solver. }
  assert (Hone : forall h x r, ((exists b, r = TcpConnectRequest h false b) \/ (exists d, r = TcpWriteRequest h d)) ->
    exists h0 x0, ({[h := x]} : gmap id uv_handle) !! h0 = Some x0 /\ forall h', request_on h' r = true -> h' = h0).
  { intros h x r' Hr'. exists h, x. rewrite lookup_singleton_eq. split; [done|]. by apply Hon. }
  intros [locals|h req|h req pending|h x own requests Hs _ _ _ _ Hreqs|h req]; [by rewrite lookup_empty|..];
    try (intros [_ <-]%lookup_singleton_Some; apply Hone; left; by eexists).
  intros Hr%Hreqs. destruct Hs as [h req _ _|h a _ _ _]; [apply Hone; naive_solver|].
  destruct Hr as [d ->]. exists h. rewrite lookup_singleton_eq. by eexists.
Qed.

(** A handle on which its own connection has no request has none. *)
Lemma handle_idle os v w c p h :
  split os w -> (forall c', c' <> c -> conn_known v c' (os !! c')) -> os !! c = Some p -> is_Some (pt_handles p !! h) ->
  (forall i r, pt_requests p !! i = Some r -> request_on h r = false) -> no_requests_on h w = true.
Proof.
  intros Hs Hk Hc Hh Hp. unfold no_requests_on. apply forallb_forall. intros [i r] Hin%list_elem_of_In%elem_of_map_to_list. cbn.
  apply negb_true_iff, not_true_iff_false. intros Hon.
  apply (parts_owner _ _ _ _ _ _ (sp_requests _ _ Hs)) in Hin as (c' & p' & Hc' & Hr).
  destruct (decide (c' = c)) as [->|Hne].
  - replace p' with p in * by congruence. by rewrite (Hp i r) in Hon.
  - specialize (Hk c' Hne). rewrite Hc' in Hk. destruct Hk as [m g conn sm gu u tp hs rs _ _ _ _ _ Hph].
    destruct (phase_request _ _ _ _ _ _ _ _ _ Hph Hr) as (h' & x & Hx & Hh'). apply Hh' in Hon as <-. apply Hne.
    eapply (pa_disjoint _ _ _ (sp_handles _ _ Hs)); [by rewrite lookup_fmap, Hc'|by rewrite lookup_fmap, Hc|by eexists|done].
Qed.

(** The outcome of an event, as the contract has it. *)
Definition event_outcome (v : view) (l : list call) (w : world) : Prop :=
  forallb quiet l = true /\ conn_holds v w \/
  exists c cbs, v_cbs v !! c = Some cbs /\
    (v_stage v !! c = Some Establishing /\
       (l = notify (cb_ready cbs) Ready c /\ conn_holds (opened c v) w \/
        l = notify (cb_establishment_error cbs) EstablishmentError c /\ conn_holds (settled c v) w) \/
     v_stage v !! c = Some Shutting /\ l = notify (cb_closed cbs) Closed c /\ conn_holds (settled c v) w).

Lemma nothing_happens v w : conn_holds v w -> event_outcome v (w_calls w) (set_w_calls [] w).
Proof. intros Hh. left. destruct Hh as [(Ho & Huv & Hcalls) Hos]. rewrite Hcalls. split; [done|]. split; [by split_and!|]. by rewrite <- Hcalls; destruct w. Qed.

(** The handle of a cancelled connection is closed. *)
Lemma wp_cancelled_closed os v w c m g conn sm gu u tp h req :
  owned v w os c m g conn sm gu u tp {[h := tcp_handle m None (HandleClosing (Some on_libuv_close_ptr))]}
    {[req := TcpConnectRequest h false false]} ->
  sm_protocol sm = CT_PROTOCOL_TCP -> v_stage v !! c = Some Shutting -> (c ∉ v_open v) -> cn_state conn = CT_CONN_STATE_ESTABLISHING ->
  cn_can_send conn = false -> sm_internal_socket_manager_state sm = tcp_state c req h ->
  wp (run_event (CloseFinished h)) (fun _ w' =>
    w_calls w' = notify (cb_closed (cn_callbacks conn)) Closed c /\ conn_holds (settled c v) (set_w_calls [] w')) w.
Proof.
  intros Hw Hpr Hst Hop Hest Hcan Hint. pose proof (ow_conn Hw) as Hconn. pose proof (ow_manager Hw) as Hm.
  pose proof (ow_env Hw) as (Ho & Huv & Hcalls).
  eapply (wp_tcp_handle_closed c m h req conn sm (tn_manager _ _ _ Hconn) Hint _ false);
    [exact (ow_connection Hw)|by rewrite Hest|exact (ow_the_manager Hw)|apply Hm|apply Hm|exact Hpr
    |apply (ow_handles Hw), lookup_singleton_eq|done|done|].
  cbn zeta. world_simpl. rewrite Hcalls. split; [done|].
  eapply (conn_change os v (settled c v) c _ (Part {[c := set_cn_state CT_CONN_STATE_CLOSED conn]} {[g := client_group gu u c tp]}
    {[m := set_sm_close_reason CT_CLOSE_TYPE_GRACEFUL sm]} {[h := tcp_handle m None HandleClosed]} {[req := TcpConnectRequest h false false]}) w);
    [by split_and!|exact (ow_split Hw)|intros; exact (ow_known Hw _)|exact (ow_part Hw)|cbn; lia|own_changes| |intros; by apply agree_settled].
  econstructor; [|by destruct Hm|exact (ow_props Hw)|exact (ow_cbs Hw)|exact (ow_impl Hw)|].
  - eapply raced_update; [exact Hconn|done|apply Hconn|done..].
  - eapply tcp_done; try done; cbn; [apply lookup_delete_eq|set_solver].
Qed.

(** A handle has been closed after its connection was cancelled. *)
Lemma wp_finish_close h v w :
  conn_holds v w -> wp (finish_close h) (fun _ w' => event_outcome v (w_calls w') (set_w_calls [] w')) w.
Proof.
  intros Hh. unfold finish_close. wp_go. destruct (possible (CloseFinished h) w) eqn:Hpos; cbn [when]; wp_go; [|by apply nothing_happens].
  destruct Hh as [He (os & Hs & Hk)]. cbn [possible] in Hpos. unfold phase_of in Hpos.
  destruct (w_handles w !! h) as [x|] eqn:Hx; [|done]. cbn in Hpos. destruct (uh_phase x) eqn:Hphx; try done.
  destruct (parts_owner _ _ _ _ _ _ (sp_handles _ _ Hs) Hx) as (c & p & Hp & Hpx).
  destruct (owned_part os v w c p He Hs Hk Hp) as (m & g & conn & sm & gu & u & tp & hs & rs & -> & Hw). cbn in Hpx.
  assert (Hph := ow_phase Hw).
  destruct Hph as [|h' req|h' req pending Hpr Hst Hop Hest Hcan Hint|h' x' own rs Hsocket|h' req]; [by rewrite lookup_empty in Hpx|..];
    apply lookup_singleton_Some in Hpx as [<- <-]; try done; [|by destruct Hsocket].
  assert (pending = false) as ->.
  { pose proof (ow_requests Hw (lookup_singleton_eq _ _)) as Hreq. destruct pending; [|done]. unfold no_requests_on in Hpos.
    rewrite forallb_forall in Hpos. specialize (Hpos (req, TcpConnectRequest h' false true)). cbn in Hpos.
    rewrite bool_decide_true in Hpos by done. discriminate Hpos. by apply list_elem_of_In, elem_of_map_to_list. }
  eapply wp_mono; [by eapply wp_cancelled_closed|]. intros [] w' [-> Hw']. right. exists c, (cn_callbacks conn).
  split; [exact (ow_cbs Hw)|]. by right.
Qed.

(** A connect request succeeds. *)
Lemma wp_connect_succeeds os v w c m g conn sm gu u tp h req status :
  owned v w os c m g conn sm gu u tp {[h := tcp_handle m None HandleOpen]} {[req := TcpConnectRequest h false true]} ->
  sm_protocol sm = CT_PROTOCOL_TCP -> v_stage v !! c = Some Establishing -> sm_internal_socket_manager_state sm = tcp_state c req h -> 0 <= status ->
  wp (tcp_connected req status) (fun _ w' =>
    w_calls w' = notify (cb_ready (cn_callbacks conn)) Ready c /\ conn_holds (opened c v) (set_w_calls [] w')) w.
Proof.
  intros Hw Hpr Hst Hint Hstatus. pose proof (ow_conn Hw) as Hconn. pose proof (ow_env Hw) as (Ho & Huv & Hcalls).
  eapply (wp_tcp_connected_ok c m h req conn sm Hint);
    [exact Huv|exact (ow_connection Hw)|exact (ow_the_manager Hw)|apply (ow_handles Hw), lookup_singleton_eq|done
    |apply (ow_requests Hw), lookup_singleton_eq|exact Hstatus|].
  intros uv Huv'. world_simpl. rewrite Hcalls. split; [done|].
  eapply (conn_change os v (opened c v) c _ (Part {[c := established conn]} {[g := client_group gu u c tp]} {[m := sm]}
    {[h := tcp_handle m (Some tcp_on_read_ptr) HandleOpen]} {[req := TcpConnectRequest h false false]}) w);
    [by split_and!|exact (ow_split Hw)|intros; exact (ow_known Hw _)|exact (ow_part Hw)|cbn; lia|own_changes| |intros; by apply agree_opened].
  econstructor; [|exact (ow_manager Hw)|exact (ow_props Hw)|exact (ow_cbs Hw)|exact (ow_impl Hw)|].
  - eapply raced_update; [exact Hconn|done|apply Hconn|done..].
  - eapply raced_open; [by apply (open_tcp _ _ _ _ h req)| | | |done|]; cbn; [apply lookup_delete_eq|set_solver|set_solver|].
    intros i r [<- <-]%lookup_singleton_Some. by left.
Qed.

(** A connect request fails, and the loop closes the handle. *)
Lemma wp_connect_fails os v w c m g conn sm gu u tp h req status :
  owned v w os c m g conn sm gu u tp {[h := tcp_handle m None HandleOpen]} {[req := TcpConnectRequest h false true]} ->
  sm_protocol sm = CT_PROTOCOL_TCP -> v_stage v !! c = Some Establishing -> (c ∉ v_open v) -> cn_state conn = CT_CONN_STATE_ESTABLISHING -> cn_can_send conn = false ->
  sm_internal_socket_manager_state sm = tcp_state c req h -> status < 0 ->
  wp (tcp_connected req status ;; finish_close h) (fun _ w' => event_outcome v (w_calls w') (set_w_calls [] w')) w.
Proof.
  intros Hw Hpr Hst Hop Hest Hcan Hint Hstatus. pose proof (ow_conn Hw) as Hconn. pose proof (ow_manager Hw) as Hm.
  pose proof (ow_env Hw) as (Ho & Huv & Hcalls). wp_go.
  eapply (wp_tcp_connected_error c m h req sm Hint);
    [exact (ow_the_manager Hw)|apply (ow_handles Hw), lookup_singleton_eq|done|done|apply (ow_requests Hw), lookup_singleton_eq|exact Hstatus|].
  set (w1 := set_w_handles _ _). unfold finish_close. wp_go.
  set (p1 := Part {[c := conn]} {[g := client_group gu u c tp]} {[m := sm]}
    {[h := tcp_handle m None (HandleClosing (Some on_libuv_close_after_error_ptr))]} {[req := TcpConnectRequest h false false]}).
  assert (Hs1 : split (<[c := p1]> os) w1).
  { eapply split_change; [exact (ow_split Hw)|done|exact (ow_part Hw)|]. own_changes. }
  assert (Hpos : possible (CloseFinished h) w1 = true).
  { cbn [possible]. unfold phase_of, w1. world_simpl. rewrite lookup_insert_eq. cbn [fmap option_fmap option_map uh_phase set_phase].
    eapply (handle_idle (<[c := p1]> os) v w1 c p1); [exact Hs1| |apply lookup_insert_eq|cbn; rewrite lookup_singleton_eq; by eexists|].
    - intros c' Hne. rewrite lookup_insert_ne by done. exact (ow_known Hw c').
    - intros i r Hr. cbn in Hr. by apply lookup_singleton_Some in Hr as [<- <-]. }
  rewrite Hpos. cbn [when run_event].
  eapply (wp_tcp_handle_closed c m h req conn sm (tn_manager _ _ _ Hconn) Hint _ true);
    [exact (ow_connection Hw)|by rewrite Hest|exact (ow_the_manager Hw)|apply Hm|apply Hm|exact Hpr|apply lookup_insert_eq|done|done|].
  cbn zeta. unfold w1. world_simpl. rewrite insert_insert_eq, Hcalls. right. exists c, (cn_callbacks conn). split; [exact (ow_cbs Hw)|]. left.
  split; [done|]. right. split; [done|].
  eapply (conn_change os v (settled c v) c _ (Part {[c := set_cn_state CT_CONN_STATE_CLOSED conn]} {[g := client_group gu u c tp]}
    {[m := set_sm_close_reason CT_CLOSE_TYPE_ESTABLISHMENT_ERROR sm]} {[h := tcp_handle m None HandleClosed]}
    {[req := TcpConnectRequest h false false]}) w);
    [by split_and!|exact (ow_split Hw)|intros; exact (ow_known Hw _)|exact (ow_part Hw)|cbn; lia|own_changes| |intros; by apply agree_settled].
  econstructor; [|by destruct Hm|exact (ow_props Hw)|exact (ow_cbs Hw)|exact (ow_impl Hw)|].
  - eapply raced_update; [exact Hconn|done|apply Hconn|done..].
  - eapply tcp_done; try done; cbn; [apply lookup_delete_eq|set_solver].
Qed.

(** The connect request of a connection that was cancelled completes. *)
Lemma wp_connect_cancelled os v w c m g conn sm gu u tp h req status :
  owned v w os c m g conn sm gu u tp {[h := tcp_handle m None (HandleClosing (Some on_libuv_close_ptr))]}
    {[req := TcpConnectRequest h false true]} ->
  sm_protocol sm = CT_PROTOCOL_TCP -> v_stage v !! c = Some Shutting -> (c ∉ v_open v) ->
  cn_state conn = CT_CONN_STATE_ESTABLISHING -> cn_can_send conn = false ->
  sm_internal_socket_manager_state sm = tcp_state c req h -> status < 0 ->
  wp (tcp_connected req status) (fun _ w' =>
    w_calls w' = [] /\ conn_holds v (set_w_calls [] w') /\
    w_requests w' = <[req := TcpConnectRequest h false false]> (w_requests w)) w.
Proof.
  intros Hw Hpr Hst Hop Hest Hcan Hint Hstatus. pose proof (ow_env Hw) as (Ho & Huv & Hcalls).
  assert (Hh := ow_handles Hw (lookup_singleton_eq _ _)). assert (Hreq := ow_requests Hw (lookup_singleton_eq _ _)).
  unfold tcp_connected, request_at. wp_go. unfold set_request. wp_go. unfold on_connect. wp_go.
  eapply wp_data_of; [exact Hh|done|]. wp_go. eapply (wp_state_of c m h req); [exact Hint|exact (ow_the_manager Hw)|].
  unfold tcp_connection_of, tcp_handle_of. wp_go. rewrite (proj2 (Z.ltb_lt _ _) Hstatus). unfold uv_is_closing. wp_go.
  eapply wp_handle_at; [exact Hh|]. wp_go. change (negb (negb _)) with false. cbn [when]. wp_go.
  world_simpl. rewrite Hcalls. split; [done|]. split; [|done].
  eapply (conn_change os v v c _ (Part {[c := conn]} {[g := client_group gu u c tp]} {[m := sm]}
    {[h := tcp_handle m None (HandleClosing (Some on_libuv_close_ptr))]} {[req := TcpConnectRequest h false false]}) w);
    [by split_and!|exact (ow_split Hw)|intros; exact (ow_known Hw _)|exact (ow_part Hw)|cbn; lia|own_changes| |done].
  econstructor; [exact (ow_conn Hw)|exact (ow_manager Hw)|exact (ow_props Hw)|exact (ow_cbs Hw)|exact (ow_impl Hw)|].
  by eapply tcp_shutting.
Qed.

Lemma conn_law_event (e : conn_event) v w :
  conn_holds v w -> wp (run_conn_event e) (fun _ w' => event_outcome v (w_calls w') (set_w_calls [] w')) w.
Proof.
  intros Hh. unfold run_conn_event. wp_go. destruct e as [req status|h]; [|by apply wp_finish_close].
  destruct (possible (TcpConnected req status) w) eqn:Hpos; cbn [when]; wp_go; [|by apply nothing_happens].
  pose proof Hh as [He (os & Hs & Hk)]. cbn [possible] in Hpos.
  destruct (w_requests w !! req) as [[|h' clone []|]|] eqn:Hreq; try done.
  destruct (parts_owner _ _ _ _ _ _ (sp_requests _ _ Hs) Hreq) as (c & p & Hp & Hpr).
  destruct (owned_part os v w c p He Hs Hk Hp) as (m & g & conn & sm & gu & u & tp & hs & rs & -> & Hw). cbn in Hpr. cbn [run_event].
  assert (Hph := ow_phase Hw). destruct Hph as [|h req' Htcp Hst Hop Hest Hcan Hint|h req' pending Htcp Hst Hop Hest Hcan Hint|h x own rs Hsocket _ _ _ _ Hrs|h req'];
    [by rewrite lookup_empty in Hpr| | | |by apply lookup_singleton_Some in Hpr as [_ ?]].
  3: { apply Hrs in Hpr. destruct Hsocket; naive_solver. }
  - apply lookup_singleton_Some in Hpr as [-> [= <- <-]].
    assert (is_open_in h w = true) as ->.
    { unfold is_open_in, phase_of. rewrite (ow_handles Hw (lookup_singleton_eq _ _)). by apply bool_decide_eq_true. }
    destruct (Z.ltb_spec status 0) as [Hneg|Hpos']; cbn [andb when].
    + pose proof (wp_connect_fails _ _ _ _ _ _ _ _ _ _ _ _ _ status Hw Htcp Hst Hop Hest Hcan Hint Hneg) as Hgo.
      by apply wp_bind_inv in Hgo.
    + eapply wp_mono; [by eapply wp_connect_succeeds|]. intros [] w1 [Hcalls Hw1]. wp_go. rewrite Hcalls. right.
      exists c, (cn_callbacks conn). split; [exact (ow_cbs Hw)|]. left. by auto.
  - apply lookup_singleton_Some in Hpr as [-> [= <- <- ->]].
    assert (is_open_in h w = false) as Hclosed.
    { unfold is_open_in, phase_of. rewrite (ow_handles Hw (lookup_singleton_eq _ _)). by apply bool_decide_eq_false. }
    rewrite Hclosed in Hpos |- *. apply bool_decide_eq_true in Hpos. rewrite andb_false_r. cbn [when].
    eapply wp_mono; [eapply wp_connect_cancelled; try done; by rewrite Hpos|]. intros [] w1 (Hcalls & Hw1 & _). wp_go.
    rewrite Hcalls. by left.
Qed.

(** *** What is owed can happen *)

(** The connect requests that have not completed. *)
Definition connect_pending (r : request) : bool := match r with TcpConnectRequest _ _ true => true | _ => false end.
Definition connects_pending (w : world) : nat := size (filter (fun p => connect_pending p.2 = true) (w_requests w)).

Lemma connects_completed w w' req h :
  w_requests w !! req = Some (TcpConnectRequest h false true) ->
  w_requests w' = <[req := TcpConnectRequest h false false]> (w_requests w) -> (connects_pending w' < connects_pending w)%nat.
Proof.
  intros Hreq Hw'. unfold connects_pending. rewrite Hw', map_filter_insert_False, map_filter_delete, map_size_delete by done.
  assert (Hin : filter (fun p : id * request => connect_pending p.2 = true) (w_requests w) !! req = Some (TcpConnectRequest h false true)).
  { by apply map_lookup_filter_Some. }
  rewrite Hin. assert (size (filter (fun p : id * request => connect_pending p.2 = true) (w_requests w)) <> 0%nat); [|lia].
  eapply map_size_ne_0_lookup_2. by eexists.
Qed.

(** A connection that is being established connects; one that was cancelled is
    told that its connect request was, and then its handle is closed. *)
Lemma conn_law_owed c cbs st v w :
  conn_holds v w -> v_stage v !! c = Some st -> v_cbs v !! c = Some cbs ->
  exists e, wp (calls_of (rop_run_event e)) (fun r w' =>
    r.2 = [] /\ conn_holds v w' /\ (connects_pending w' < connects_pending w)%nat \/
    exists v', outcome_of c cbs v r.2 v' /\ conn_holds v' w') w.
Proof.
  intros Hh Hst Hc. destruct (conn_owned v w c Hh) as (os & m & g & conn & sm & gu & u & tp & hs & rs & Hw); [by eexists|].
  assert (cn_callbacks conn = cbs) as Hcb by (pose proof (ow_cbs Hw); congruence). assert (Hph := ow_phase Hw).
  cbn [rop_run_event rop_event conn_race_ops]. unfold outcome_of. rewrite Hst.
  inversion Hph as [?|h req Hpr Hs Hop Hest Hcan Hint E1 E2|h req pending Hpr Hs Hop Hest Hcan Hint E1 E2|?|?];
    [congruence| | |congruence..]; subst hs rs; assert (Hh' := ow_handles Hw (lookup_singleton_eq _ _));
    assert (Hreq := ow_requests Hw (lookup_singleton_eq _ _)); rewrite Hs in Hst; injection Hst as <-.
  - exists (Connected req 0). apply wp_calls_of. unfold run_conn_event. wp_go.
    assert (is_open_in h w = true) as Ho by (unfold is_open_in, phase_of; rewrite Hh'; by apply bool_decide_eq_true).
    assert (possible (TcpConnected req 0) w = true) as -> by (cbn [possible]; by rewrite Hreq, Ho). cbn [when]. wp_go.
    rewrite Hreq. cbn [Z.ltb Z.compare andb when].
    eapply wp_mono; [by eapply wp_connect_succeeds|]. intros [] w1 [Hcalls Hw1]. wp_go. right. exists (opened c v).
    cbn [snd]. rewrite Hcalls, Hcb. split; [|done]. left. by auto.
  - assert (is_open_in h w = false) as Ho by (unfold is_open_in, phase_of; rewrite Hh'; by apply bool_decide_eq_false).
    destruct pending.
    + exists (Connected req UV_ECANCELED). apply wp_calls_of. unfold run_conn_event. wp_go.
      assert (possible (TcpConnected req UV_ECANCELED) w = true) as -> by (cbn [possible]; by rewrite Hreq, Ho, bool_decide_true).
      cbn [when]. wp_go. rewrite Hreq, Ho, andb_false_r. cbn [when].
      eapply wp_mono; [by eapply wp_connect_cancelled|]. intros [] w1 (Hcalls & Hw1 & Hr1). wp_go. left. cbn [snd]. rewrite Hcalls.
      split_and!; [done|done|]. by eapply connects_completed.
    + exists (HandleDone h). apply wp_calls_of. unfold run_conn_event. wp_go. unfold finish_close. wp_go.
      assert (possible (CloseFinished h) w = true) as ->.
      { cbn [possible]. unfold phase_of. rewrite Hh'. cbn [fmap option_fmap option_map uh_phase tcp_handle].
        eapply handle_idle; [exact (ow_split Hw)|intros; exact (ow_known Hw _)|exact (ow_part Hw)|cbn; rewrite lookup_singleton_eq; by eexists|].
        intros i r Hr. cbn in Hr. by apply lookup_singleton_Some in Hr as [<- <-]. }
      cbn [when]. eapply wp_mono; [by eapply wp_cancelled_closed|]. intros [] w1 [Hcalls Hw1]. right. exists (settled c v).
      cbn [snd]. rewrite Hcalls, Hcb. split; [|done]. by right.
Qed.

(** ** The contract *)

Definition conn_contract : RaceContract world.
Proof.
  refine {| rc_holds := conn_holds; rc_fallible := fun _ => false; rc_allows := conn_allows; rc_sends := conn_sends;
            rc_sends_early := fun _ _ => False; rc_left := fun _ => connects_pending |}.
  - intros A m P v w. apply conn_law_heap.
  - apply conn_law_create.
  - apply conn_law_clear_alpn.
  - apply conn_law_add_alpn.
  - intros p c cbs v w Hh Hst Hnew _ Hc Hp. eapply wp_mono; [by eapply conn_law_init|].
    intros r w' [[Hr Hw']|[Hr Hw']]; apply (conn_holds_logged (Initialised c)) in Hw'; [by left|by right; left].
  - done.
  - apply conn_law_callbacks.
  - apply conn_law_set_callbacks.
  - intros c cbs v w Hh Hst Hc. eapply wp_mono; [by eapply conn_law_close_group|]. intros r w' Hr. by left.
  - intros c v w Hh Hst Hop Hc Hnew. apply conn_law_free; [done..|]. intros Hin. by destruct (Hnew Hin) as (p & _ & ?).
  - intros c msg ctx cbs v w Hh Hs Hc _. eapply wp_mono; [apply conn_law_send; [done|done|by eexists]|].
    intros r w' [Hq Hw']. split; [done|by apply conn_holds_logged].
  - intros c ctx rc cbs v w Hh Hc Happ. eapply wp_mono; [by eapply conn_law_send_error|].
    intros r w' [Hq Hw']. split; [done|by apply conn_holds_logged].
  - apply conn_law_sent.
  - apply conn_law_early.
  - intros e v w Hh. apply wp_calls_of. by apply conn_law_event.
  - apply conn_law_owed.
Defined.
#[local] Existing Instance conn_contract.

(** ** Races *)

(** A world without connections, and one with a single connection, which is
    ready and has the callbacks [cbs]. *)
Definition no_objects (w : world) : Prop :=
  w_connections w = ∅ /\ w_groups w = ∅ /\ w_managers w = ∅ /\ w_handles w = ∅ /\ w_requests w = ∅.

Record sole_connection (c : id) (cbs : ct_connection_callbacks) (w : world) : Prop := {
  sc_connection : exists conn, w_connections w = {[c := conn]} /\ cn_state conn = CT_CONN_STATE_ESTABLISHED /\ cn_callbacks conn = cbs;
  sc_group : exists g gr, w_groups w = {[g := gr]};
  sc_socket : exists m sm h x, w_managers w = {[m := sm]} /\ w_handles w = {[h := x]} /\
    uh_phase x = HandleOpen /\ uh_data x = Some m /\
    uh_read x = Some (if bool_decide (sm_protocol sm = CT_PROTOCOL_TCP) then tcp_on_read_ptr else on_read_ptr);
  sc_requests i h clone : w_requests w !! i <> Some (TcpConnectRequest h clone true) }.

Lemma conn_holds_nothing w : env_ok w -> no_objects w -> conn_holds Simple.nothing w.
Proof.
  intros He (E1 & E2 & E3 & E4 & E5). split; [exact He|]. exists ∅. split.
  - split; rewrite fmap_empty, ?E1, ?E2, ?E3, ?E4, ?E5; apply parts_nothing.
  - intros c. rewrite lookup_empty. by split_and!.
Qed.

Lemma nothing_left v w : conn_holds v w -> v_cbs v = ∅ -> no_objects w.
Proof.
  intros [_ (os & [] & Hk)] Hv. assert (os = ∅) as ->.
  { apply map_empty. intros c. specialize (Hk c). destruct (os !! c) as [p|]; [|done]. destruct Hk as [m g conn sm gu u tp hs rs _ _ _ Hc].
    by rewrite Hv in Hc. }
  rewrite fmap_empty in *. unfold no_objects. split_and!; by eapply parts_none.
Qed.

Lemma one_left v w c cbs : conn_holds v w -> v_cbs v = {[c := cbs]} -> c ∈ v_open v -> sole_connection c cbs w.
Proof.
  intros [_ (os & Hs & Hk)] Hv Hop. pose proof (Hk c) as Hc. destruct (os !! c) as [p|] eqn:Hp; [|by destruct Hc as (_ & _ & [])].
  assert (os = {[c := p]}) as ->.
  { apply map_eq. intros c'. destruct (decide (c' = c)) as [->|Hne]; [by rewrite lookup_singleton_eq|].
    rewrite lookup_singleton_ne by done. specialize (Hk c'). destruct (os !! c') as [q|]; [|done].
    destruct Hk as [m g conn sm gu u tp hs rs _ _ _ Hcb]. by rewrite Hv, lookup_singleton_ne in Hcb. }
  destruct Hs as [S1 S2 S3 S4 S5].
  rewrite map_fmap_singleton in S1; rewrite map_fmap_singleton in S2; rewrite map_fmap_singleton in S3;
    rewrite map_fmap_singleton in S4; rewrite map_fmap_singleton in S5.
  apply parts_single in S1, S2, S3, S4, S5. destruct Hc as [m g conn sm gu u tp hs rs _ _ _ Hcb _ Hph]. cbn in *.
  rewrite Hv, lookup_singleton_eq in Hcb. injection Hcb as ->.
  destruct Hph as [|?|?|h x own rs Hsocket _ _ _ Hst Hreqs|]; [done..| |done]. split; [by eexists|by eexists _, _| |].
  - exists m, sm, h, x. destruct Hsocket as [h req Hpr|h a Hpr]; rewrite Hpr; by split_and!.
  - intros i h' clone. rewrite S5. intros Hr%Hreqs. destruct Hsocket; naive_solver.
Qed.

(** A candidate for TCP or UDP whose endpoints are resolved. *)
Definition raced_candidate (n : ct_candidate_node) : Prop :=
  candidate_ok n /\ forall p, cn_protocol_candidate n = Some p ->
    pi_enum (pc_protocol_impl p) = CT_PROTOCOL_TCP \/ pi_enum (pc_protocol_impl p) = CT_PROTOCOL_UDP.

(** C4: a race between TCP and UDP connections of the library is safe and
    leaves nothing behind.  The race of candidate_racing.c is run on the
    program's own connections: [ct_connection_create_client], [tcp_init],
    [udp_init], [ct_connection_close_group], [ct_connection_free] and the
    callbacks of tcp.c.  When allocations and libuv calls succeed and the handle of a failed
    connect is closed before another connect completes, no order of timer
    events, completed connects (with any status) and closed handles has
    undefined behaviour; and once the race is over, either the application has
    been told once that establishment failed and no connection, group, socket
    manager, handle or request is left, or it has been told once that a
    connection is ready, which is established, reads from an open socket, has
    the application's callbacks, and is the only one left. *)
Theorem race_ends_clean gi gs cands ucbs input msg ctx w :
  cands <> [] -> Forall raced_candidate cands -> application ucbs ->
  props_ok (ri_transport_properties input) -> sec_ok (ri_security_parameters input) -> ri_framer_impl input = None ->
  (is_Some msg -> conn_sends msg ctx) -> env_ok w -> no_objects w ->
  wp (start_race gi gs cands ucbs input msg ctx false)
    (fun _ s0 => forall s, rtc (race_step gi gs) s0 s ->
       (forall e, timer_possible e s = true -> wp (run_race_event gi gs e) (fun _ _ => True) s) /\
       (rs_context s = None ->
          notes s = failure_notes ucbs /\ no_objects (rs_world s) \/
          exists c, notes s = notify (cb_ready ucbs) Ready c /\ sole_connection c ucbs (rs_world s)))
    (before_race w).
Proof.
  intros Hne Hcands Happ Hprops Hsec Hfr Hmsg He Hno. rewrite list.Forall_forall in Hcands.
  assert (Hok : Forall candidate_ok cands) by (apply list.Forall_forall; intros n Hn; by apply Hcands).
  assert (Hallowed : forall n p, n ∈ cands -> cn_protocol_candidate n = Some p -> rc_allows (pc_protocol_impl p) input).
  { intros n p Hn Hp. split_and!; [|done..]. by eapply Hcands. }
  eapply wp_mono; [apply (wp_race_runs gi gs cands ucbs Simple.nothing input msg ctx false Happ);
    [by intros _|done|exact Hok|exact Hallowed|done|exact Hne|by apply conn_holds_nothing|done]|].
  - intros [] s0 Hs0 s Hrun. pose proof (Hs0 s Hrun) as Hs. split.
    + intros e Hpos. eapply wp_mono; [eapply wp_race_event; [exact Happ|by intros _| |exact Hok|exact Hallowed| |exact Hs|exact Hpos]; done|]. done.
    + intros Hx. destruct Hs as [v x t ns _ Hat|c _ [(v & Hv & _ & Hcb & Hop & _) _ _ Hn]|[(v & Hv & _ & Hcb & _) _ _ Hn]].
      * by rewrite (ar_context _ _ _ _ _ _ _ _ _ Hat) in Hx.
      * right. exists c. split; [exact Hn|]. eapply one_left; [exact Hv|exact Hcb|by apply Hop].
      * left. split; [exact Hn|]. by eapply nothing_left.
Qed.

(** ** A failed connect and a success in the same iteration of the loop *)

(** A connection whose connect request has failed is still
    [CT_CONN_STATE_ESTABLISHING] until the close callback of its handle has
    run.  If another attempt of the race succeeds in between, it closes the
    group of this one, and [tcp_close] calls [uv_close] on the closing handle:
    libuv asserts. *)
Theorem connect_fails_before_success_faults os v w c m g conn sm gu u tp h req status :
  owned v w os c m g conn sm gu u tp {[h := tcp_handle m None HandleOpen]} {[req := TcpConnectRequest h false true]} ->
  sm_protocol sm = CT_PROTOCOL_TCP -> cn_state conn = CT_CONN_STATE_ESTABLISHING -> sm_internal_socket_manager_state sm = tcp_state c req h -> status < 0 ->
  wp (tcp_connected req status) (fun _ w1 => aborts (ct_connection_close_group (Some c)) w1) w.
Proof.
  intros Hw Hpr Hest Hint Hstatus. pose proof (ow_conn Hw) as Hconn.
  eapply (wp_tcp_connected_error c m h req sm Hint);
    [exact (ow_the_manager Hw)|apply (ow_handles Hw), lookup_singleton_eq|done|done|apply (ow_requests Hw), lookup_singleton_eq|exact Hstatus|].
  set (w1 := set_w_handles _ _). assert (Hc : w_connections w1 !! c = Some conn) by exact (ow_connection Hw).
  assert (Hm : w_managers w1 !! m = Some sm) by exact (ow_the_manager Hw). pose proof (tn_manager _ _ _ Hconn) as Hcm.
  unfold ct_connection_close_group. apply aborts_bind. eapply wp_connection_at; [exact Hc|]. rewrite (tn_group _ _ _ Hconn).
  apply aborts_bind. eapply wp_manager_of; [exact Hc|exact Hcm|]. unfold ct_socket_manager_close_group. apply aborts_bind.
  eapply wp_manager_at; [exact Hm|]. rewrite Hpr. cbn [impl_close_connection_group ctaps_protocols].
  unfold tcp_close_connection_group, group_members. apply aborts_bind. wp_go. eapply wp_group_at; [exact (ow_group Hw)|].
  cbn [client_group gr_connections]. wp_go.
  rewrite (proj1 (Permutation_singleton_r _ _) (hash_order_perm [(u, c)])). cbn [fmap list_fmap snd for_each]. apply aborts_first, aborts_bind.
  eapply wp_is_closed_or_closing; [exact Hc|]. rewrite Hest, bool_decide_false by (by intros []). cbn [negb when]. apply aborts_first.
  unfold tcp_close. apply aborts_bind. eapply wp_manager_of; [exact Hc|exact Hcm|]. apply aborts_bind.
  eapply (wp_state_of c m h req); [exact Hint|exact Hm|]. unfold tcp_handle_of. apply aborts_bind. wp_go. apply aborts_first.
  unfold uv_close. apply aborts_bind. eapply wp_handle_at; [apply lookup_insert_eq|]. apply aborts_first. by eexists.
Qed.
End operations.

(** ** Concrete races *)

Module Races.
Import Lifecycle.Idle RacingSimple.Simple.

Definition two : list ct_candidate_node := [candidate tcp_protocol_interface 1; candidate tcp_protocol_interface 2].
Definition mixed : list ct_candidate_node := two ++ [candidate udp_protocol_interface 3].
Definition some_name (c : id) : sockaddr := set_port 40000 loopback_v4.

Lemma some_name_ok c : wf_sockaddr (some_name c) /\ is_inet (some_name c) = true.
Proof. split; [apply wf_set_port, loopback_v4_wf|by vm_compute]. Defined.

Definition ops : RaceOps world := conn_race_ops some_name.
#[local] Existing Instance ops.

(** The race of [cands] from [empty_world], with these events in turn: the
    calls of the application, the connections and the handles it leaves. *)
Definition left_by (cands : list ct_candidate_node) (es : list (race_event (W := world))) :=
  match (start_race (W := world) hash (fun _ => 1) cands application_callbacks defaults None None false ;;
         for_each es (fun e => s ← get; when (timer_possible e s) (run_race_event hash (fun _ => 1) e)))
          (before_race empty_world) with
  | Ok (_, s) => Some (rs_calls s, rs_context s, map_to_list (cn_state <$> w_connections (rs_world s)),
                       map_to_list (uh_phase <$> w_handles (rs_world s)))
  | UB _ => None
  end.

Definition connected (req : id) (status : Z) : race_event (W := world) := RaceLoop (Connected req status).
Definition handle_done (h : id) : race_event (W := world) := RaceLoop (HandleDone h).
Open Scope positive_scope.

(** The second candidate connects: the first is cancelled, its connect request
    completes, its handle is closed, and its connection is freed. *)
Example second_wins :
  left_by two [TimerFired; connected 10 0; connected 5 UV_ECANCELED; handle_done 4; TimerCloseFinished] =
  Some ([CallConnection (user_fn 2) Ready (Some 6)], None, [(6, CT_CONN_STATE_ESTABLISHED)], [(9, HandleOpen)]).
Proof. vm_compute. reflexivity. Qed.

(** Neither connects. *)
Example both_refused :
  left_by two [TimerFired; connected 5 (-111); connected 10 (-111); TimerCloseFinished] =
  Some ([CallConnection (user_fn 1) EstablishmentError None], None, [], []).
Proof. vm_compute. reflexivity. Qed.

(** The first is refused, and UDP is ready before the second connects. *)
Example udp_wins :
  left_by mixed [TimerFired; connected 5 (-111); TimerFired; connected 10 UV_ECANCELED; handle_done 9; TimerCloseFinished] =
  Some ([CallConnection (user_fn 2) Ready (Some 11)], None, [(11, CT_CONN_STATE_ESTABLISHED)], [(14, HandleOpen)]).
Proof. vm_compute. reflexivity. Qed.

Lemma race_ends_clean_witness :
  wp (start_race (W := world) hash (fun _ => 1%Z) mixed application_callbacks defaults None None false)
    (fun _ s0 => forall s, rtc (race_step hash (fun _ => 1%Z)) s0 s ->
       (forall e, timer_possible e s = true -> wp (run_race_event hash (fun _ => 1%Z) e) (fun _ _ => True) s) /\
       (rs_context s = None ->
          notes s = failure_notes application_callbacks /\ no_objects (rs_world s) \/
          exists c, notes s = notify (cb_ready application_callbacks) Ready c /\
            sole_connection c application_callbacks (rs_world s)))
    (before_race empty_world).
Proof.
  apply (race_ends_clean some_name some_name_ok hash (fun _ => 1%Z) mixed application_callbacks defaults None None empty_world).
  - done.
  - repeat (constructor; [split; [repeat constructor; by eexists|intros p [= <-]; by (left + right)]|]). constructor.
  - apply application_callbacks_ok.
  - split; [apply wf_default_selection|apply sets_ok_default].
  - done.
  - done.
  - by intros [].
  - split_and!; [by constructor|by constructor|done].
  - done.
Defined.

End Races.

(** ** Where the hypotheses of [race_ends_clean] are needed *)

Module Unprotected.
Import Lifecycle.Idle RacingSimple.Simple.
Open Scope positive_scope.

Definition event : Type := @race_event world ctaps_race_ops.
Definition loop (e : loop_event) : event := @RaceLoop world ctaps_race_ops e.
Definition fired : event := @Racing.TimerFired world ctaps_race_ops.
Definition closed : event := @Racing.TimerCloseFinished world ctaps_race_ops.
Definition named_world (uv : list Z) : world :=
  set_w_uv uv (set_w_names [set_port 40000 loopback_v4; set_port 40001 loopback_v4] empty_world).
Definition real_race (cands : list ct_candidate_node) (es : list event) (w : world) :=
  (@start_race world ctaps_race_ops hash (fun _ => 1%Z) cands application_callbacks defaults None None false ;;
   for_each es (@run_race_event world ctaps_race_ops hash (fun _ => 1%Z))) (before_race w).

(** The loop reports that the first connect failed and that the second
    succeeded before it closes the first handle. *)
Example failed_then_connected :
  real_race Races.two [fired; loop (TcpConnected 5 (-111)); loop (TcpConnected 10 0)] (named_world []) =
    UB "uv_close on a closing handle".
Proof. vm_compute. reflexivity. Qed.

(** The socket of a UDP candidate cannot be bound: its handle is freed without
    being closed. *)
Example bind_fails :
  real_race [candidate udp_protocol_interface 1; candidate tcp_protocol_interface 2] [] (named_world [0; -98]%Z) =
    UB "handle freed while the loop uses it".
Proof. vm_compute. reflexivity. Qed.

(** A UDP candidate gets no socket; TCP connects, and the connection of the
    UDP candidate, which has no socket state, is freed with the context. *)
Example failed_udp_freed :
  real_race [candidate udp_protocol_interface 1; candidate tcp_protocol_interface 2]
    [fired; loop (TcpConnected 8 0); closed] (named_world [-24]%Z) = UB "NULL socket state".
Proof. vm_compute. reflexivity. Qed.
End Unprotected.
