(* ===== verification/Preconnection.v ===== *)
(** Listeners and preconnections.

    Models src/src/connection/listener.c (its state functions are in
    SocketManagers) and src/src/connection/preconnection.c: what the
    application configures before it initiates a connection or listens. *)

From S2P Require Export Racing.
Open Scope Z_scope.

(** ** Listeners (listener.c) *)

Section listeners.
Context `{!SocketImpl, !CloseImpl, !ProtocolOps, !Framers, !HashOrder}.

Definition ct_listener_close (listener : id) : M world unit :=
  li ← listener_at listener;
  m ← deref (li_socket_manager li) "NULL socket manager";
  ct_socket_manager_listener_close m.

Definition ct_listener_free (listener : option id) : M world unit :=
  match listener with
  | None => mret tt
  | Some l =>
      li ← listener_at l;
      match li_socket_manager li with
      | None => mret tt
      | Some m =>
          update_manager m (set_sm_listener None) ;;
          ct_socket_manager_unref (Some m) ;;
          update_listener l (set_li_socket_manager None)
      end ;;
      on_heap (ct_local_endpoint_free (li_local_endpoint li)) ;;
      on_heap (ct_transport_properties_free (li_transport_properties li)) ;;
      on_heap (ct_security_parameters_free (li_security_parameters li)) ;;
      modify (fun w => set_w_listeners (delete l (w_listeners w)) w) ;;
      on_heap free_block
  end.

Definition ct_listener_new (transport_properties : option ct_transport_properties)
    (local_endpoint : option ct_local_endpoint) (listener_callbacks : option ct_listener_callbacks)
    (connection_callbacks : option ct_connection_callbacks) (security_parameters : option ct_security_parameters)
    (protocol_impl : option ct_protocol_impl) : M world (option id) :=
  match local_endpoint, protocol_impl with
  | Some _, Some impl =>
      ok ← on_heap malloc;
      if negb ok then mret None else
      l ← fresh_id;
      let store li := modify (fun w => set_w_listeners (<[l := li]> (w_listeners w)) w) in
      store (Listener None None 0 no_listener_callbacks no_connection_callbacks CT_LISTENER_STATE_ESTABLISHING None None) ;;
      props ← on_heap (ct_transport_properties_deep_copy transport_properties);
      if is_Some_b transport_properties && negb (is_Some_b props) then
        modify (fun w => set_w_listeners (delete l (w_listeners w)) w) ;; on_heap free_block ;; mret None
      else
      local ← on_heap (ct_local_endpoint_deep_copy local_endpoint);
      store (Listener props local 0 no_listener_callbacks no_connection_callbacks CT_LISTENER_STATE_ESTABLISHING None None) ;;
      if negb (is_Some_b local) then ct_listener_free (Some l) ;; mret None else
      sec ← on_heap (ct_security_parameters_deep_copy security_parameters);
      store (Listener props local 1 (default no_listener_callbacks listener_callbacks)
               (default no_connection_callbacks connection_callbacks) CT_LISTENER_STATE_ESTABLISHING sec None) ;;
      if is_Some_b security_parameters && negb (is_Some_b sec) then ct_listener_free (Some l) ;; mret None else
      socket_manager ← ct_socket_manager_new impl (Some l);
      if negb (is_Some_b socket_manager) then ct_listener_free (Some l) ;; mret None else
      m ← ct_socket_manager_ref socket_manager;
      update_listener l (set_li_socket_manager m) ;;
      mret (Some l)
  | _, _ => mret None
  end.
End listeners.

(** ** Preconnections (preconnection.c) *)

(** [ct_preconnection_t]; a NULL array is [None]. *)
Record ct_preconnection := PreconnectionOf {
  pr_transport_properties : ct_transport_properties;
  pr_security_parameters : option ct_security_parameters;
  pr_local_endpoints : option (list ct_local_endpoint);
  pr_remote_endpoints : option (list ct_remote_endpoint);
  pr_framer_impl : option ct_framer_impl }.

Definition ct_preconnection_free (preconnection : option ct_preconnection) : M heap unit :=
  match preconnection with
  | None => mret tt
  | Some p =>
      when (is_Some_b (pr_remote_endpoints p))
        (for_each (default [] (pr_remote_endpoints p)) free_remote ;; free_block) ;;
      when (is_Some_b (pr_local_endpoints p)) (ct_local_endpoints_free false (default [] (pr_local_endpoints p))) ;;
      ct_framer_impl_free (pr_framer_impl p) ;;
      ct_selection_properties_cleanup (selection_properties (pr_transport_properties p)) ;;
      ct_security_parameters_free (pr_security_parameters p) ;;
      free_block
  end.

(** A copy loop into a [calloc]ed array: the endpoints copied before a
    failure, and whether all were. *)
Fixpoint copy_prefix {E} (copy : E -> M heap (Z * E)) (l done : list E) : M heap (bool * list E) :=
  match l with
  | [] => mret (true, done)
  | e :: l =>
      '(rc, c) ← copy e;
      if negb (rc =? 0) then mret (false, done) else copy_prefix copy l (done ++ [c])
  end.

(** The arguments that are pointers to arrays may be NULL; a count that does
    not match its array is not modelled.  When a local endpoint cannot be
    copied the structure is freed twice. *)
Definition ct_preconnection_new (local_endpoints : option (list ct_local_endpoint)) (num_local_endpoints : nat)
    (remote_endpoints : option (list ct_remote_endpoint)) (transport_properties : option ct_transport_properties)
    (security_parameters : option ct_security_parameters) : M heap (option ct_preconnection) :=
  ok ← malloc;
  if negb ok then mret None else
  props ← match transport_properties with
          | Some t =>
              sel ← ct_selection_properties_deep_copy (selection_properties t);
              mret (TransportProperties sel (connection_properties t))
          | None => mret (TransportProperties DEFAULT_SELECTION_PROPERTIES DEFAULT_CONNECTION_PROPERTIES)
          end;
  sec ← ct_security_parameters_deep_copy security_parameters;
  if (0 <? num_local_endpoints)%nat && negb (is_Some_b local_endpoints) then free_block ;; mret None else
  locals_ok ← (if (0 <? num_local_endpoints)%nat then malloc else mret true);
  if negb locals_ok then free_block ;; mret None else
  '(ok, locals) ← (if (0 <? num_local_endpoints)%nat
                   then copy_prefix ct_local_endpoint_copy_content (default [] local_endpoints) []
                   else mret (true, []));
  let locals := if (0 <? num_local_endpoints)%nat then Some locals else None in
  if negb ok then
    ct_preconnection_free (Some (PreconnectionOf props sec locals None None)) ;;
    ub "preconnection used after free"
  else
  match remote_endpoints with
  | None | Some [] => mret (Some (PreconnectionOf props sec locals None None))
  | Some l =>
      ok ← malloc;
      if negb ok then ct_preconnection_free (Some (PreconnectionOf props sec locals None None)) ;; mret None else
      '(ok, remotes) ← copy_prefix ct_remote_endpoint_copy_content l [];
      let p := PreconnectionOf props sec locals (Some remotes) None in
      if negb ok then ct_preconnection_free (Some p) ;; mret None else mret (Some p)
  end.

(** [copy_remote_endpoints]: the preconnection's array becomes a copy of
    [l]; [errno] of a failed allocation is [ENOMEM]. *)
Definition copy_remote_endpoints (p : ct_preconnection) (l : list ct_remote_endpoint) :
    M heap (Z * ct_preconnection) :=
  let with_remotes r := PreconnectionOf (pr_transport_properties p) (pr_security_parameters p)
                          (pr_local_endpoints p) r (pr_framer_impl p) in
  ok ← malloc;
  if negb ok then mret (ENOMEM, with_remotes None) else
  '(ok, remotes) ← copy_prefix ct_remote_endpoint_copy_content l [];
  if negb ok then for_each remotes free_remote ;; free_block ;; mret (- ENOMEM, with_remotes None)
  else mret (0, with_remotes (Some remotes)).

Definition ct_preconnection_set_framer (preconnection : option ct_preconnection) (framer_impl : option ct_framer_impl) :
    M heap (Z * option ct_preconnection) :=
  match preconnection with
  | None => mret (- EINVAL, None)
  | Some p =>
      let with_framer f := Some (PreconnectionOf (pr_transport_properties p) (pr_security_parameters p)
                                   (pr_local_endpoints p) (pr_remote_endpoints p) f) in
      ct_framer_impl_free (pr_framer_impl p) ;;
      match framer_impl with
      | None => mret (0, with_framer None)
      | Some _ =>
          f ← ct_framer_impl_deep_copy framer_impl;
          mret (if is_Some_b f then 0 else - ENOMEM, with_framer f)
      end
  end.

(** The getters: the array and, through [out_count], its length. *)
Definition ct_preconnection_get_local_endpoints (preconnection : option ct_preconnection) (out_count : bool) :
    option (list ct_local_endpoint) * option nat :=
  if negb out_count then (None, None) else
  match preconnection with
  | None => (None, Some 0%nat)
  | Some p => (pr_local_endpoints p, Some (length (default [] (pr_local_endpoints p))))
  end.
Definition ct_preconnection_get_remote_endpoints (preconnection : option ct_preconnection) (out_count : bool) :
    option (list ct_remote_endpoint) * option nat :=
  match preconnection with
  | None => (None, None)
  | Some p => (pr_remote_endpoints p,
               if out_count then Some (length (default [] (pr_remote_endpoints p))) else None)
  end.
Definition ct_preconnection_get_transport_properties (preconnection : option ct_preconnection) :=
  pr_transport_properties <$> preconnection.
Definition ct_preconnection_get_security_parameters (preconnection : option ct_preconnection) :=
  preconnection ≫= pr_security_parameters.

(** What gathering reads of a preconnection. *)
Definition gather_input_of (p : ct_preconnection) : gather_input :=
  GatherInput (pr_transport_properties p) (pr_security_parameters p) (default [] (pr_local_endpoints p))
    (default [] (pr_remote_endpoints p)).

Section initiate.
Context (tr : traverse_order -> traverse_flags -> list gnode -> nat -> list nat)
  (sort : (ct_candidate_node -> ct_candidate_node -> Z) -> list ct_candidate_node -> list ct_candidate_node)
  (uv : Z * list (string * sockaddr)) (gai : string -> Z * list (Z * sockaddr)) (uv_getaddrinfo : string -> Z).

(** *** Initiating connections *)

Section race.
Context {W : Type} `{!RaceOps W}.
Context (g_int_hash : bytes -> Z) (g_str_hash : string -> Z).

Definition ct_preconnection_initiate (preconnection : option ct_preconnection)
    (connection_callbacks : option ct_connection_callbacks) : M (race W) (Z * option gather) :=
  match preconnection, connection_callbacks with
  | Some p, Some cbs =>
      if bool_decide (length (default [] (pr_remote_endpoints p)) = 0%nat) then mret (- EINVAL, None)
      else preconnection_race g_int_hash g_str_hash tr sort uv gai uv_getaddrinfo (gather_input_of p)
             (pr_framer_impl p) cbs
  | _, _ => mret (- EINVAL, None)
  end.

Definition ct_preconnection_initiate_with_send (preconnection : option ct_preconnection)
    (connection_callbacks : option ct_connection_callbacks) (message : option ct_message)
    (message_context : option ct_message_context) : M (race W) (Z * option gather) :=
  match preconnection, connection_callbacks with
  | Some p, Some cbs =>
      if bool_decide (length (default [] (pr_remote_endpoints p)) = 0%nat) then mret (- EINVAL, None) else
      msg_copy ← on_race_heap (ct_message_deep_copy message);
      if is_Some_b message && negb (is_Some_b msg_copy) then mret (- ENOMEM, None) else
      message_context_copy ← on_race_heap (ct_message_context_deep_copy message_context);
      if is_Some_b message_context && negb (is_Some_b message_context_copy) then
        on_race_heap (ct_message_free msg_copy) ;; mret (- ENOMEM, None)
      else if is_Some_b message_context && negb (ct_message_context_get MSG_SAFELY_REPLAYABLE message_context =? 0) then
        preconnection_race_with_early_data g_int_hash g_str_hash tr sort uv gai uv_getaddrinfo (gather_input_of p)
          (pr_framer_impl p) cbs msg_copy message_context_copy
      else
        preconnection_race_with_send_after_ready g_int_hash g_str_hash tr sort uv gai uv_getaddrinfo
          (gather_input_of p) (pr_framer_impl p) cbs msg_copy message_context_copy
  | _, _ => mret (- EINVAL, None)
  end.
End race.

(** *** Listening *)

Section listen.
Context `{!SocketImpl, !CloseImpl, !ProtocolOps, !Framers, !HashOrder}.

(** The call of an application's listener callback with a NULL listener. *)
Definition fail_listen (cbs : ct_listener_callbacks) (reason : Z) : M world unit :=
  call_listener (lcb_establishment_error cbs) (ListenerError reason) None.

(** The context is a block, freed on every path; an empty array of
    candidates is not. *)
Definition ct_listener_candidate_node_array_ready_cb (preconnection : ct_preconnection)
    (listener_callbacks : ct_listener_callbacks) (connection_callbacks : ct_connection_callbacks)
    (candidate_nodes : option (list ct_candidate_node)) : M world unit :=
  match candidate_nodes with
  | None | Some [] => on_heap free_block ;; fail_listen listener_callbacks (- ENOENT)
  | Some ((first_node :: _) as nodes) =>
      p ← deref (cn_protocol_candidate first_node) "NULL protocol candidate";
      listener ← ct_listener_new (Some (pr_transport_properties preconnection)) (cn_local_endpoint first_node)
                   (Some listener_callbacks) (Some connection_callbacks) (pr_security_parameters preconnection)
                   (Some (pc_protocol_impl p));
      match listener with
      | None =>
          on_heap (free_candidate_array nodes) ;;
          on_heap free_block ;;
          fail_listen listener_callbacks (-1)
      | Some l =>
          deref (cn_local_endpoint first_node) "NULL local endpoint" ;;
          on_heap (free_candidate_array nodes) ;;
          on_heap free_block ;;
          ct_socket_manager_listen (Some l)
      end
  end.

(** When gathering fails after calling the callback, which has freed the
    context, it is freed a second time. *)
Definition ct_preconnection_listen (preconnection : option ct_preconnection)
    (listener_callbacks : option ct_listener_callbacks) (connection_callbacks : option ct_connection_callbacks) :
    M world Z :=
  match preconnection, listener_callbacks with
  | Some p, Some lcbs =>
      if bool_decide (length (default [] (pr_local_endpoints p)) = 0%nat) then mret (- EINVAL) else
      ok ← on_heap malloc;
      if negb ok then mret (- ENOMEM) else
      '(rc, calls) ← on_heap (fun h =>
        match ct_get_ordered_local_candidate_nodes tr sort uv gai uv_getaddrinfo (gather_input_of p) h with
        | Ok (rc, g) => Ok ((rc, g_calls g), g_heap g)
        | UB why => UB why
        end);
      for_each calls (ct_listener_candidate_node_array_ready_cb p lcbs
                        (default no_connection_callbacks connection_callbacks)) ;;
      if rc <? 0 then
        assert_ (bool_decide (calls = [])) "listener context freed twice" ;;
        on_heap free_block ;;
        mret rc
      else mret 0
  | _, _ => mret (- EINVAL)
  end.
End listen.
End initiate.
