(* ===== verification/ListenerLifecycle.v ===== *)
(** The life of a listener.

    The operations of connection/listener.c on a listener and its socket
    manager, [udp_listen] and [tcp_listen], [ct_listener_close] with the loop's
    close callback, and [ct_listener_free].  [ListenerContract] is what a
    protocol promises to a listener: that its socket opens, and that closing
    and freeing the listener releases everything and is reported once; UDP and
    TCP keep it (QUIC: QuicListener). *)

From Stdlib Require Import Sorted.
From S2P Require Export Preconnection TcpLifecycle QuicLifecycle Gathering.
Open Scope Z_scope.

Section listening.
Context `{!Picoquic, !Framers, !HashOrder}.

(** ** Rules for listeners *)

Lemma wp_listener_at l li (Q : ct_listener -> world -> Prop) w :
  w_listeners w !! l = Some li -> Q li w -> wp (listener_at l) Q w.
Proof. intros Hl HQ. unfold listener_at. by wp_go. Qed.

Lemma wp_update_listener l f li (Q : unit -> world -> Prop) w :
  w_listeners w !! l = Some li -> Q tt (set_w_listeners (<[l := f li]> (w_listeners w)) w) -> wp (update_listener l f) Q w.
Proof. intros Hl HQ. unfold update_listener. wp_go. eapply wp_listener_at; [exact Hl|]. by wp_go. Qed.

(** How the application hears of a listener. *)
Definition heard (fn : option callback_fn) (ev : listener_event) (l : option id) : list call :=
  match fn with Some fn => [CallListener fn ev l] | None => [] end.

Lemma wp_call_listener fn ev l (Q : unit -> world -> Prop) w :
  Q tt (set_w_calls (w_calls w ++ heard fn ev l) w) -> wp (call_listener fn ev l) Q w.
Proof.
  intros HQ. destruct fn as [fn|]; cbn [call_listener heard] in *; unfold record_call; wp_go; [done|].
  rewrite app_nil_r in HQ. by destruct w.
Qed.

(** ** A listener and its socket manager *)

Definition listener_of tp e lcbs ccbs st sec (m : id) : ct_listener :=
  Listener (Some tp) (Some e) 1 lcbs ccbs st sec (Some m).
Definition demux_of (impl : ct_protocol_impl) : option (list (bytes * id)) :=
  if bool_decide (pi_enum impl = CT_PROTOCOL_UDP) then Some [] else None.
Definition listener_manager (impl : ct_protocol_impl) (s : option socket_state) (l : id) : ct_socket_manager :=
  SocketManager s 1 [] (demux_of impl) impl (Some l) CT_CLOSE_TYPE_GRACEFUL.

(** A copy of transport properties. *)
Definition props_copied (t c : ct_transport_properties) : Prop :=
  wf_selection (selection_properties c) /\ same_selection (selection_properties c) (selection_properties t) /\
  connection_properties c = connection_properties t.

(** The blocks of a listener and its socket manager. *)
Definition listener_blocks (tp : ct_transport_properties) (e : ct_local_endpoint) (sec : option ct_security_parameters) : Z :=
  2 + tp_blocks tp + local_opt_blocks (Some e) + opt_sec_blocks sec.

Lemma wp_listener_new impl props e lcbs ccbs sec (Q : option id -> world -> Prop) w :
  oracle_ok (w_heap w) -> props_ok props -> sec_ok sec ->
  let l := w_next w in
  let m := Pos.succ l in
  (forall h tp sec', oracle_ok h -> props_copied props tp -> sec_copied sec sec' ->
     h_live h = h_live (w_heap w) + listener_blocks tp e sec' ->
     Q (Some l) (set_w_heap h (set_w_next (Pos.succ m)
       (set_w_listeners (<[l := listener_of tp e lcbs ccbs CT_LISTENER_STATE_ESTABLISHING sec' m]> (w_listeners w))
         (set_w_managers (<[m := listener_manager impl None l]> (w_managers w)) w))))) ->
  wp (ct_listener_new (Some props) (Some e) (Some lcbs) (Some ccbs) sec (Some impl)) Q w.
Proof.
  intros Ho [Hwf Hsets] Hsec l m HQ. unfold ct_listener_new. wp_go.
  eapply wp_heap_allocs; [exact Ho|apply allocs_malloc|]. intros ? h1 <- Ho1 Hl1. cbn [negb]. unfold fresh_id. wp_go.
  eapply wp_heap_allocs; [exact Ho1|by apply allocs_transport_deep_copy|]. intros ? h2 (tp & -> & Htp) Ho2 Hl2. cbn [is_Some_b negb andb]. wp_go.
  eapply wp_heap_allocs; [exact Ho2|apply allocs_local_copy|]. intros ? h3 <- Ho3 Hl3. cbn [is_Some_b negb]. wp_go.
  eapply wp_heap_allocs; [exact Ho3|by apply allocs_security_opt|]. intros sec' h4 Hsec' Ho4 Hl4.
  replace (is_Some_b sec && negb (is_Some_b sec')) with false by (by destruct sec, sec'). wp_go.
  unfold ct_socket_manager_new. wp_go.
  eapply wp_heap_allocs; [exact Ho4|apply allocs_malloc|]. intros ? h5 <- Ho5 Hl5. cbn [negb]. unfold fresh_id. wp_go.
  cbn [is_Some_b negb ct_socket_manager_ref default]. wp_go.
  eapply wp_update_manager; [apply lookup_insert_eq|]. wp_go.
  eapply wp_update_listener; [apply lookup_insert_eq|]. world_simpl. rewrite !insert_insert_eq. wp_go.
  apply (HQ h5 tp sec'); [done..|]. unfold listener_blocks. cbn in *. lia.
Qed.

(** A listener is freed, with its reference to the socket manager. *)
Lemma wp_listener_free tp e lcbs ccbs st sec l m sm (Q : unit -> world -> Prop) w :
  w_listeners w !! l = Some (listener_of tp e lcbs ccbs st sec m) -> w_managers w !! m = Some sm ->
  wf_selection (selection_properties tp) -> sec_ok sec ->
  wp (ct_socket_manager_unref (Some m)) (fun _ w1 =>
    w_listeners w1 !! l = Some (listener_of tp e lcbs ccbs st sec m) /\
    forall live, live = h_live (w_heap w1) - (tp_blocks tp + local_opt_blocks (Some e) + opt_sec_blocks sec + 1) ->
      Q tt (set_w_heap (Heap (h_oracle (w_heap w1)) live) (set_w_listeners (delete l (w_listeners w1)) w1)))
    (set_w_managers (<[m := set_sm_listener None sm]> (w_managers w)) w) ->
  wp (ct_listener_free (Some l)) Q w.
Proof.
  intros Hl Hm Htp Hsec Hu. unfold ct_listener_free. wp_go. eapply wp_listener_at; [exact Hl|]. cbn [li_socket_manager listener_of]. wp_go.
  eapply wp_update_manager; [exact Hm|]. wp_go. eapply wp_mono; [exact Hu|]. intros ? w1 [Hl1 HQ]. wp_go.
  eapply wp_update_listener; [exact Hl1|]. cbn [li_local_endpoint li_transport_properties li_security_parameters listener_of]. wp_go.
  eapply wp_heap_frees; [apply frees_local_opt|]. wp_go. eapply wp_heap_frees; [by apply frees_transport_properties|]. wp_go.
  eapply wp_heap_frees; [by apply frees_security_opt|]. wp_go. eapply wp_heap_frees; [apply frees_block|]. world_simpl.
  rewrite !delete_insert_eq. cbn [h_oracle h_live]. apply HQ. unfold local_opt_blocks. lia.
Qed.

(** ** What a protocol promises to a listener *)

(** The world after the listener and its socket manager are gone. *)
Record released (l m : id) (blocks : Z) (w w' : world) : Prop := {
  rl_connections : w_connections w' = w_connections w;
  rl_groups : w_groups w' = w_groups w;
  rl_managers : w_managers w' = delete m (w_managers w);
  rl_listeners : w_listeners w' = delete l (w_listeners w);
  rl_handles : w_handles w' = w_handles w;
  rl_requests : w_requests w' = w_requests w;
  rl_quic : same_quic w w';
  rl_heap : h_live (w_heap w') = h_live (w_heap w) - blocks }.

(** The application closes the listener, the loop runs the close callbacks of
    its handles, and the application frees it. *)
Definition end_listener (l : id) (handles : list id) : M world unit :=
  ct_listener_close l ;; for_each handles handle_closed ;; ct_listener_free (Some l).

(** The address that a protocol binds for a local endpoint. *)
Definition bind_address (p : ct_protocol_enum) (e : ct_local_endpoint) : sockaddr :=
  match p with
  | CT_PROTOCOL_UDP => udp_bind_address (Some e)
  | CT_PROTOCOL_QUIC => poll_bind_address e
  | _ => le_resolved_address e
  end.

(** The protocol listens for the listener: its socket manager runs the
    protocol on an open socket that is bound to the endpoint's address and
    hands over to the manager what arrives, datagrams (UDP), connections (TCP)
    or the packets of a picoquic context whose timer is set (QUIC). *)
Inductive listens_for (impl : ct_protocol_impl) (l m : id) (e : ct_local_endpoint) (w : world) : Prop :=
| listens_for_udp h :
    pi_enum impl = CT_PROTOCOL_UDP -> w_managers w !! m = Some (listener_manager impl (Some (UdpSocketState (Some h))) l) ->
    w_handles w !! h = Some (Handle (Some m) (Some socket_listen_callback_ptr) false HandleOpen (Some (bind_address (pi_enum impl) e))) ->
    listens_for impl l m e w
| listens_for_tcp h :
    pi_enum impl = CT_PROTOCOL_TCP ->
    w_managers w !! m = Some (listener_manager impl (Some (TcpSocketState None (Some l) None None None h)) l) ->
    w_handles w !! h = Some (Handle (Some m) None true HandleOpen (Some (bind_address (pi_enum impl) e))) ->
    listens_for impl l m e w
| listens_for_quic s st x t h :
    pi_enum impl = CT_PROTOCOL_QUIC -> w_managers w !! m = Some (listener_manager impl (Some (QuicSocketState s)) l) ->
    q_sockets (w_quic w) !! s = Some st -> qk_socket_manager st = m ->
    qk_picoquic_ctx st = Some x -> x ∈ q_contexts (w_quic w) ->
    qk_timer_handle st = Some t -> w_handles w !! t = Some (quic_timer s (Some on_socket_timer_ptr)) ->
    qk_poll_handle st = Some h -> w_handles w !! h = Some (poll_of m (bind_address (pi_enum impl) e)) ->
    listens_for impl l m e w.

Lemma listens_for_ext impl l m e w w' :
  w_managers w' = w_managers w -> w_handles w' = w_handles w -> w_quic w' = w_quic w -> listens_for impl l m e w -> listens_for impl l m e w'.
Proof.
  intros E1 E2 E3 [h Hp Hm Hh|h Hp Hm Hh|s st x t h Hp Hm Hs Hsm Hx Hin Ht Hth Hh Hph].
  - apply (listens_for_udp _ _ _ _ _ h); by rewrite ?E1, ?E2.
  - apply (listens_for_tcp _ _ _ _ _ h); by rewrite ?E1, ?E2.
  - apply (listens_for_quic _ _ _ _ _ s st x t h); by rewrite ?E1, ?E2, ?E3.
Qed.

(** With security parameters that suit the protocol, listening succeeds, and
    the listener can be ended; the application is told once. *)
Class ListenerContract (impl : ct_protocol_impl) (suited : option ct_security_parameters -> Prop) : Prop := {
  lc_copied s c : suited s -> sec_copied s c -> suited c;
  lc_listen l m tp e lcbs ccbs sec w :
    suited sec -> oracle_ok (w_heap w) -> uv_succeeds w -> fresh_world w -> fresh_quic w ->
    is_inet (le_resolved_address e) = true -> wf_selection (selection_properties tp) -> sec_ok sec ->
    w_listeners w !! l = Some (listener_of tp e lcbs ccbs CT_LISTENER_STATE_ESTABLISHING sec m) ->
    w_managers w !! m = Some (listener_manager impl None l) ->
    wp (impl_listen (pi_enum impl) m) (fun rc w1 =>
      rc = 0 /\ w_listeners w1 = w_listeners w /\ w_calls w1 = w_calls w /\ listens_for impl l m e w1 /\
      exists handles, forall cs,
        wp (end_listener l handles) (fun _ w2 =>
          released l m (listener_blocks tp e sec) w w2 /\
          w_calls w2 = cs ++ heard (lcb_listener_closed lcbs) ListenerClosed (Some l)) (set_w_calls cs w1)) w }.

Lemma wp_listen impl suited `{!ListenerContract impl suited} l m tp e lcbs ccbs sec (Q : unit -> world -> Prop) w :
  suited sec -> oracle_ok (w_heap w) -> uv_succeeds w -> fresh_world w -> fresh_quic w ->
  is_inet (le_resolved_address e) = true -> wf_selection (selection_properties tp) -> sec_ok sec ->
  w_listeners w !! l = Some (listener_of tp e lcbs ccbs CT_LISTENER_STATE_ESTABLISHING sec m) ->
  w_managers w !! m = Some (listener_manager impl None l) ->
  (forall w1 handles,
     w_listeners w1 = w_listeners w -> w_calls w1 = w_calls w ++ heard (lcb_listener_ready lcbs) ListenerReady (Some l) ->
     listens_for impl l m e w1 ->
     wp (end_listener l handles) (fun _ w2 =>
       released l m (listener_blocks tp e sec) w w2 /\
       w_calls w2 = w_calls w1 ++ heard (lcb_listener_closed lcbs) ListenerClosed (Some l)) w1 -> Q tt w1) ->
  wp (ct_socket_manager_listen (Some l)) Q w.
Proof.
  intros Hs Ho Huv Hfr Hfq Hi Htp Hsec Hl Hm HQ. unfold ct_socket_manager_listen. wp_go.
  eapply wp_listener_at; [exact Hl|]. cbn [li_socket_manager listener_of]. wp_go.
  eapply wp_manager_at; [exact Hm|]. change (sm_protocol (listener_manager impl None l)) with (pi_enum impl). wp_go.
  eapply wp_mono; [by eapply lc_listen|]. intros rc w1 (-> & El & Ec & Hserves & handles & Hend). wp_go.
  eapply wp_listener_at; [by rewrite El|]. change (negb (0 =? 0)) with false. wp_go. apply wp_call_listener.
  eapply HQ; [exact El|by cbn; rewrite Ec|eapply listens_for_ext; [..|exact Hserves]; done|]. apply Hend.
Qed.

(** ** Listening *)

(** The socket of a listener over TCP or over UDP. *)
Definition listening_state (impl : ct_protocol_impl) (l h : id) : option socket_state :=
  Some (if bool_decide (pi_enum impl = CT_PROTOCOL_UDP) then UdpSocketState (Some h)
        else TcpSocketState None (Some l) None None None h).
Definition listening_handle (impl : ct_protocol_impl) (m : id) (e : ct_local_endpoint) : uv_handle :=
  if bool_decide (pi_enum impl = CT_PROTOCOL_UDP) then Handle (Some m) (Some socket_listen_callback_ptr) false HandleOpen (Some (bind_address (pi_enum impl) e))
  else Handle (Some m) None true HandleOpen (Some (bind_address (pi_enum impl) e)).
Definition listening_manager (impl : ct_protocol_impl) (l h : id) : ct_socket_manager :=
  listener_manager impl (listening_state impl l h) l.

Definition listenable (impl : ct_protocol_impl) : Prop := pi_enum impl = CT_PROTOCOL_UDP \/ pi_enum impl = CT_PROTOCOL_TCP.

Section listener.
Context {impl : ct_protocol_impl} {l m : id} {tp : ct_transport_properties} {e : ct_local_endpoint}
  {lcbs : ct_listener_callbacks} {ccbs : ct_connection_callbacks} {st : ct_listener_state}
  {sec : option ct_security_parameters}.
#[local] Abbreviation li := (listener_of tp e lcbs ccbs st sec m).

(** What [udp_listen] and [tcp_listen] do. *)
Definition socket_opened (Q : Z -> world -> Prop) (w : world) : Prop :=
  forall heap uv, oracle_ok heap -> h_live heap = h_live (w_heap w) + 2 -> Forall (fun rc => 0 <= rc) uv ->
    let h := w_next w in
    Q 0 (set_w_heap heap (set_w_next (Pos.succ h) (set_w_uv uv
      (set_w_handles (<[h := listening_handle impl m e]> (w_handles w))
        (set_w_managers (<[m := listening_manager impl l h]> (w_managers w)) w))))).

Lemma wp_udp_listen (Q : Z -> world -> Prop) w :
  pi_enum impl = CT_PROTOCOL_UDP -> oracle_ok (w_heap w) -> uv_ok w -> is_inet (le_resolved_address e) = true ->
  w_listeners w !! l = Some li -> w_managers w !! m = Some (listener_manager impl None l) ->
  socket_opened Q w -> wp (udp_listen m) Q w.
Proof.
  intros Hp Ho Huv Hi Hl Hm HQ. unfold socket_opened, listening_manager, listening_state, listening_handle in HQ.
  rewrite bool_decide_true, Hp in HQ by done. unfold udp_listen, ct_listener_get_local_endpoint. wp_go.
  eapply wp_manager_at; [exact Hm|]. cbn [sm_listener listener_manager]. wp_go. eapply wp_listener_at; [exact Hl|]. wp_go.
  cbn [li_local_endpoint listener_of]. eapply wp_create_udp; [exact Ho|exact Huv|exact Hi|]. intros h1 uv Ho1 Hl1 Huv1 h. wp_go.
  eapply wp_update_handle; [apply lookup_insert_eq|]. world_simpl. rewrite insert_insert_eq. unfold ct_udp_socket_state_new. wp_go.
  eapply wp_heap_allocs; [exact Ho1|apply allocs_malloc|]. intros ? h2 <- Ho2 Hl2. wp_go.
  eapply wp_update_manager; [exact Hm|]. wp_go. apply (HQ h2 uv Ho2); [cbn in *; lia|exact Huv1].
Qed.

Lemma wp_tcp_listen (Q : Z -> world -> Prop) w :
  pi_enum impl = CT_PROTOCOL_TCP -> oracle_ok (w_heap w) -> uv_ok w ->
  w_listeners w !! l = Some li -> w_managers w !! m = Some (listener_manager impl None l) ->
  socket_opened Q w -> wp (tcp_listen m) Q w.
Proof.
  intros Hp Ho Huv Hl Hm HQ. unfold socket_opened, listening_manager, listening_state, listening_handle in HQ.
  rewrite bool_decide_false, Hp in HQ by (by rewrite Hp). unfold tcp_listen, ct_listener_get_local_endpoint. wp_go.
  eapply wp_heap_allocs; [exact Ho|apply allocs_malloc|]. intros ? h1 <- Ho1 Hl1. cbn [negb]. wp_go.
  eapply wp_manager_at; [exact Hm|]. cbn [sm_listener listener_manager]. wp_go.
  apply wp_uv_rc; [exact Huv|]. intros rc1 uv1 Hrc1 Huv1. rewrite (proj2 (Z.ltb_ge _ _) Hrc1). unfold new_handle, fresh_id. wp_go.
  eapply wp_listener_at; [exact Hl|]. wp_go. cbn [li_local_endpoint listener_of ct_local_endpoint_get_resolved_address fmap option_fmap option_map]. wp_go.
  apply wp_uv_rc; [exact Huv1|]. intros rc2 uv2 Hrc2 Huv2. rewrite (proj2 (Z.ltb_ge _ _) Hrc2). wp_go. world_simpl.
  eapply wp_update_handle; [apply lookup_insert_eq|]. world_simpl. rewrite insert_insert_eq. wp_go.
  apply wp_uv_rc; [exact Huv2|]. intros rc3 uv3 Hrc3 Huv3. rewrite (proj2 (Z.ltb_ge _ _) Hrc3). wp_go. world_simpl.
  eapply wp_update_handle; [apply lookup_insert_eq|]. unfold ct_tcp_socket_state_new. wp_go.
  eapply wp_heap_allocs; [exact Ho1|apply allocs_malloc|]. intros ? h2 <- Ho2 Hl2. wp_go. world_simpl.
  eapply wp_update_manager; [exact Hm|]. wp_go. eapply wp_update_handle; [apply lookup_insert_eq|]. world_simpl.
  rewrite !insert_insert_eq. wp_go. apply (HQ h2 uv3 Ho2); [cbn in *; lia|exact Huv3].
Qed.

(** ** Closing *)

Lemma wp_listener_alone s (Q : Z -> world -> Prop) w :
  st <> CT_LISTENER_STATE_CLOSED -> w_listeners w !! l = Some li -> w_managers w !! m = Some (listener_manager impl s l) ->
  Q 1 w -> wp (ct_socket_manager_get_num_open_dependents m) Q w.
Proof.
  intros Hst Hl Hm HQ. unfold ct_socket_manager_get_num_open_dependents. wp_go. eapply wp_manager_at; [exact Hm|].
  cbn [sm_listener sm_all_connections listener_manager count_open]. wp_go.
  eapply wp_listener_at; [exact Hl|]. cbn [li_state listener_of]. rewrite bool_decide_false by done. by wp_go.
Qed.

Lemma wp_listening_socket_closed s (Q : unit -> world -> Prop) w :
  w_listeners w !! l = Some li -> w_managers w !! m = Some (listener_manager impl s l) ->
  Q tt (set_w_calls (w_calls w ++ heard (lcb_listener_closed lcbs) ListenerClosed (Some l))
    (set_w_listeners (<[l := set_li_state CT_LISTENER_STATE_CLOSED li]> (w_listeners w)) w)) ->
  wp (ct_socket_manager_closed_socket_cb m) Q w.
Proof.
  intros Hl Hm HQ. unfold ct_socket_manager_closed_socket_cb, ct_socket_manager_get_last_open_connection. wp_go.
  eapply wp_manager_at; [exact Hm|]. cbn [sm_all_connections listener_manager first_open]. wp_go.
  eapply wp_manager_at; [exact Hm|]. cbn [sm_listener listener_manager ct_listener_mark_as_closed ct_socket_manager_notify_of_listener_close]. wp_go.
  eapply wp_update_listener; [exact Hl|]. wp_go. eapply wp_manager_at; [exact Hm|]. wp_go.
  eapply wp_listener_at; [apply lookup_insert_eq|]. wp_go. apply wp_call_listener. exact HQ.
Qed.

Context {h : id}.

(** A listener whose socket is open, with no connection. *)
Record listening (w : world) : Prop := {
  ls_listener : w_listeners w !! l = Some li;
  ls_state : st <> CT_LISTENER_STATE_CLOSED;
  ls_manager : w_managers w !! m = Some (listening_manager impl l h);
  ls_handle : w_handles w !! h = Some (listening_handle impl m e) }.

(** The socket is closed, and the application knows. *)
Definition listener_closed (Q : unit -> world -> Prop) (w : world) : Prop :=
  forall x, uh_phase x = HandleClosed ->
    Q tt (set_w_calls (w_calls w ++ heard (lcb_listener_closed lcbs) ListenerClosed (Some l))
      (set_w_listeners (<[l := set_li_state CT_LISTENER_STATE_CLOSED li]> (w_listeners w))
        (set_w_handles (<[h := x]> (w_handles w)) (set_w_managers (<[m := listening_manager impl l h]> (w_managers w)) w)))).

Lemma wp_udp_listener_closes (Q : unit -> world -> Prop) w :
  pi_enum impl = CT_PROTOCOL_UDP -> listening w -> listener_closed Q w -> wp (ct_listener_close l ;; handle_closed h) Q w.
Proof.
  intros Hp [Hl Hst Hm Hh] HQ. unfold ct_listener_close. wp_go. eapply wp_listener_at; [exact Hl|]. cbn [li_socket_manager listener_of]. wp_go.
  unfold ct_socket_manager_listener_close. wp_go. eapply wp_manager_at; [exact Hm|].
  change (sm_protocol (listening_manager impl l h)) with (pi_enum impl). rewrite Hp. cbn [impl_close_listener ctaps_protocols].
  unfold udp_close_listener, udp_handle_of. wp_go. eapply wp_manager_at; [exact Hm|].
  cbn [sm_internal_socket_manager_state listening_manager listener_manager]. unfold listening_state. rewrite bool_decide_true by done. wp_go.
  unfold ct_socket_manager_listener_closed_cb. wp_go. eapply wp_manager_at; [exact Hm|]. wp_go.
  eapply wp_listener_alone; [exact Hst|exact Hl|exact Hm|]. change (1 =? 1) with true. cbn iota. unfold set_close_reason. wp_go.
  eapply wp_update_manager; [exact Hm|]. cbn [ct_socket_manager_close]. wp_go. eapply wp_manager_at; [apply lookup_insert_eq|].
  change (sm_protocol _) with (pi_enum impl). rewrite Hp. cbn [impl_close_socket ctaps_sockets]. unfold udp_close_socket, udp_handle_of. wp_go.
  eapply wp_manager_at; [apply lookup_insert_eq|]. cbn [sm_internal_socket_manager_state listening_manager listener_manager set_sm_close_reason].
  unfold listening_state. rewrite bool_decide_true by done. wp_go. eapply wp_update_handle; [exact Hh|]. wp_go.
  unfold listening_handle in *. rewrite bool_decide_true in * by done.
  eapply wp_uv_close; [apply lookup_insert_eq|done|]. wp_go. unfold handle_closed. wp_go.
  eapply wp_handle_at; [apply lookup_insert_eq|]. cbn [uh_phase set_phase]. wp_go.
  eapply wp_update_handle; [apply lookup_insert_eq|]. world_simpl. rewrite !insert_insert_eq. cbn [run_close_cb]. unfold socket_closed_success. wp_go.
  eapply wp_handle_at; [apply lookup_insert_eq|]. wp_go.
  eapply wp_listening_socket_closed; [exact Hl|apply lookup_insert_eq|]. by apply HQ.
Qed.

Lemma wp_tcp_listener_closes (Q : unit -> world -> Prop) w :
  pi_enum impl = CT_PROTOCOL_TCP -> listening w -> listener_closed Q w -> wp (ct_listener_close l ;; handle_closed h) Q w.
Proof.
  intros Hp [Hl Hst Hm Hh] HQ. unfold ct_listener_close. wp_go. eapply wp_listener_at; [exact Hl|]. cbn [li_socket_manager listener_of]. wp_go.
  unfold ct_socket_manager_listener_close. wp_go. eapply wp_manager_at; [exact Hm|].
  change (sm_protocol (listening_manager impl l h)) with (pi_enum impl). rewrite Hp. cbn [impl_close_listener ctaps_protocols].
  unfold tcp_close_listener, tcp_handle_of. wp_go. eapply wp_manager_at; [exact Hm|].
  cbn [sm_internal_socket_manager_state listening_manager listener_manager]. unfold listening_state. rewrite bool_decide_false by (by rewrite Hp). wp_go.
  unfold listening_handle in *. rewrite bool_decide_false in * by (by rewrite Hp).
  eapply wp_uv_close; [exact Hh|done|]. wp_go. unfold handle_closed. wp_go.
  eapply wp_handle_at; [apply lookup_insert_eq|]. cbn [uh_phase set_phase]. wp_go.
  eapply wp_update_handle; [apply lookup_insert_eq|]. world_simpl. rewrite !insert_insert_eq. cbn [run_close_cb]. unfold on_stop_listen, data_of. wp_go.
  eapply wp_handle_at; [apply lookup_insert_eq|]. wp_go.
  unfold ct_socket_manager_listener_closed_cb. wp_go. eapply wp_manager_at; [exact Hm|]. wp_go.
  eapply wp_listener_alone; [exact Hst|exact Hl|exact Hm|]. change (1 =? 1) with true. cbn iota. unfold set_close_reason. wp_go.
  eapply wp_update_manager; [exact Hm|]. cbn [ct_socket_manager_close]. wp_go. eapply wp_manager_at; [apply lookup_insert_eq|].
  change (sm_protocol _) with (pi_enum impl). rewrite Hp. cbn [impl_close_socket ctaps_sockets]. unfold tcp_close_socket.
  eapply wp_listening_socket_closed; [exact Hl|apply lookup_insert_eq|]. by apply HQ.
Qed.

(** ** Releasing *)

(** The socket manager, without its listener, when the socket is closed. *)
Lemma listener_frees_manager x w :
  listenable impl -> w_handles w !! h = Some x -> uh_phase x = HandleClosed ->
  frees_manager m (set_sm_listener None (listening_manager impl l h)) 3 (delete m) (delete h (w_handles w)) (w_requests w) w.
Proof.
  intros [Hp|Hp] Hh Hph.
  { eapply udp_frees_manager; [done| |exact Hp|exact Hh|exact Hph].
    cbn [sm_internal_socket_manager_state set_sm_listener listening_manager listener_manager]. unfold listening_state.
    by rewrite bool_decide_true. }
  intros Q w' Hm Hhs Hrs HQ. rewrite <- Hhs in Hh, HQ. unfold ct_socket_manager_unref. wp_go. eapply wp_update_manager; [exact Hm|]. wp_go.
  eapply wp_manager_at; [apply lookup_insert_eq|]. cbn [sm_ref_count set_sm_ref_count set_sm_listener listening_manager listener_manager].
  change (1 - 1 =? 0) with true. cbn [when]. unfold ct_socket_manager_free. wp_go.
  eapply wp_manager_at; [apply lookup_insert_eq|]. change (sm_protocol _) with (pi_enum impl). rewrite Hp. wp_go.
  cbn [call_impl impl_free_socket_state ctaps_sockets]. unfold tcp_free_socket_state. wp_go.
  eapply wp_manager_at; [apply lookup_insert_eq|]. cbn [sm_internal_socket_manager_state set_sm_ref_count set_sm_listener listening_manager listener_manager].
  unfold listening_state. rewrite bool_decide_false by (by rewrite Hp). unfold ct_tcp_socket_state_free, free_connect_req, free_handle. wp_go.
  eapply (wp_heap_frees _ 0); [apply frees_ret|]. wp_go. eapply wp_handle_at; [exact Hh|]. wp_go. { by rewrite Hph. }
  eapply wp_heap_frees; [apply frees_block|]. wp_go. eapply wp_heap_frees; [apply frees_block|]. wp_go.
  eapply wp_update_manager; [apply lookup_insert_eq|]. world_simpl. wp_go. eapply wp_heap_frees; [apply frees_block|]. world_simpl.
  rewrite insert_insert_eq, delete_insert_eq. cbn [h_oracle h_live] in *. rewrite <- Hrs in HQ.
  replace (h_live (w_heap w') - 0 - 1 - 1 - 1) with (h_live (w_heap w') - 3) by lia. by destruct w'.
Qed.

Lemma wp_end_listener (Q : unit -> world -> Prop) w :
  listenable impl -> listening w -> wf_selection (selection_properties tp) -> sec_ok sec ->
  (forall live, live = h_live (w_heap w) - listener_blocks tp e sec - 2 ->
     Q tt (set_w_calls (w_calls w ++ heard (lcb_listener_closed lcbs) ListenerClosed (Some l))
       (set_w_heap (Heap (h_oracle (w_heap w)) live) (set_w_handles (delete h (w_handles w))
         (set_w_managers (delete m (w_managers w)) (set_w_listeners (delete l (w_listeners w)) w)))))) ->
  wp (end_listener l [h]) Q w.
Proof.
  intros Hp Hls Htp Hsec HQ.
  assert (Hclosed : listener_closed (fun _ => wp (ct_listener_free (Some l)) Q) w).
  { intros x Hx. eapply wp_listener_free; [apply lookup_insert_eq|apply lookup_insert_eq|exact Htp|exact Hsec|]. world_simpl. rewrite insert_insert_eq.
    eapply (listener_frees_manager x (set_w_handles (<[h := x]> (w_handles w)) w) Hp); [apply lookup_insert_eq|exact Hx|apply lookup_insert_eq|done|done|].
    world_simpl. split; [apply lookup_insert_eq|]. rewrite !delete_insert_eq. cbn [h_oracle h_live].
    intros live ->. apply HQ. change (li_security_parameters _) with sec. unfold listener_blocks. lia. }
  assert (Hboth : wp (ct_listener_close l ;; handle_closed h) (fun _ => wp (ct_listener_free (Some l)) Q) w).
  { destruct Hp; [by apply wp_udp_listener_closes|by apply wp_tcp_listener_closes]. }
  unfold end_listener. cbn [for_each]. wp_go. apply wp_bind_inv in Hboth. eapply wp_mono; [exact Hboth|]. intros ? w' Hw'. wp_go.
  eapply wp_mono; [exact Hw'|]. intros ? w2 Hw2. by wp_go.
Qed.
End listener.

Lemma socket_contract impl l m tp e lcbs ccbs sec w :
  listenable impl -> oracle_ok (w_heap w) -> fresh_world w -> wf_selection (selection_properties tp) -> sec_ok sec ->
  w_listeners w !! l = Some (listener_of tp e lcbs ccbs CT_LISTENER_STATE_ESTABLISHING sec m) ->
  w_managers w !! m = Some (listener_manager impl None l) ->
  socket_opened (impl := impl) (l := l) (m := m) (e := e) (fun rc w1 =>
    rc = 0 /\ w_listeners w1 = w_listeners w /\ w_calls w1 = w_calls w /\ listens_for impl l m e w1 /\
    exists handles, forall cs, wp (end_listener l handles) (fun _ w2 =>
      released l m (listener_blocks tp e sec) w w2 /\
      w_calls w2 = cs ++ heard (lcb_listener_closed lcbs) ListenerClosed (Some l)) (set_w_calls cs w1)) w.
Proof.
  intros Hp Ho Hfr Htp Hsec Hl Hm heap uv Ho1 Hl1 Huv h. split_and!; [done..| |].
  { destruct Hp as [Hp|Hp]; [eapply (listens_for_udp _ _ _ _ _ h)|eapply (listens_for_tcp _ _ _ _ _ h)]; try exact Hp;
      (eapply eq_trans; [apply lookup_insert_eq|]); unfold listening_manager, listening_state, listening_handle;
      by rewrite Hp. }
  exists [h]. intros cs.
  eapply (wp_end_listener (impl := impl) (m := m) (tp := tp) (e := e) (lcbs := lcbs) (ccbs := ccbs));
    [exact Hp|split; [exact Hl|done|apply lookup_insert_eq|apply lookup_insert_eq]|exact Htp|exact Hsec|].
  intros live ->. split; [|done]. split; world_simpl; try done; [by rewrite delete_insert_eq| |cbn; lia].
  apply delete_insert_id. apply Hfr. unfold h. lia.
Qed.

Lemma udp_listener_contract impl : pi_enum impl = CT_PROTOCOL_UDP -> ListenerContract impl (fun _ => True).
Proof.
  intros Hp. split; [done|]. intros l m tp e lcbs ccbs sec w _ Ho Huv Hfr _ Hi Htp Hsec Hl Hm. rewrite Hp.
  cbn [impl_listen ctaps_protocols]. eapply wp_udp_listen; [exact Hp|exact Ho| |exact Hi|exact Hl|exact Hm|].
  { unfold uv_ok. rewrite Huv. constructor. }
  eapply socket_contract; [by left|exact Ho|exact Hfr|exact Htp|exact Hsec|exact Hl|exact Hm].
Qed.
Lemma tcp_listener_contract impl : pi_enum impl = CT_PROTOCOL_TCP -> ListenerContract impl (fun _ => True).
Proof.
  intros Hp. split; [done|]. intros l m tp e lcbs ccbs sec w _ Ho Huv Hfr _ Hi Htp Hsec Hl Hm. rewrite Hp.
  cbn [impl_listen ctaps_protocols]. eapply wp_tcp_listen; [exact Hp|exact Ho| |exact Hl|exact Hm|].
  { unfold uv_ok. rewrite Huv. constructor. }
  eapply socket_contract; [by right|exact Ho|exact Hfr|exact Htp|exact Hsec|exact Hl|exact Hm].
Qed.

#[export] Instance udp_serves : ListenerContract udp_protocol_interface (fun _ => True) := udp_listener_contract udp_protocol_interface eq_refl.
#[export] Instance tcp_serves : ListenerContract tcp_protocol_interface (fun _ => True) := tcp_listener_contract tcp_protocol_interface eq_refl.
End listening.
