(* ===== verification/QuicListener.v ===== *)
(** Listeners over QUIC.

    [quic_listen] with a server certificate opens a picoquic context, its
    timer and a poll handle; [ct_listener_close] closes the timer, whose close
    callback saves the session tickets and closes the poll handle; and
    [ct_listener_free] releases them: QUIC keeps the [ListenerContract]. *)

From S2P Require Export ListenerLifecycle.
Open Scope Z_scope.

(** Security parameters with which a server can listen. *)
Definition server_credentials (sec : option ct_security_parameters) : Prop :=
  exists alpn cert key l, sec = Some l /\ credentials SERVER_CERTIFICATE alpn cert key l.

Lemma server_credentials_copied s c : server_credentials s -> sec_copied s c -> server_credentials c.
Proof.
  intros (alpn & cert & key & l & -> & Hl) Hc. destruct c as [c|]; [|done]. destruct Hc as [_ Hsame].
  exists alpn, cert, key, c. split; [done|]. by eapply credentials_copied.
Qed.

Section quic.
Context `{!Picoquic, !Framers, !HashOrder}.
Context {impl : ct_protocol_impl} (Hp : pi_enum impl = CT_PROTOCOL_QUIC).
Context {l m : id} {tp : ct_transport_properties} {e : ct_local_endpoint} {lcbs : ct_listener_callbacks}
  {ccbs : ct_connection_callbacks} {par : ct_security_parameters}.
#[local] Abbreviation li st := (listener_of tp e lcbs ccbs st (Some par) m).
Context (Htp : wf_selection (selection_properties tp)) (Hpar : wf_sec par).
Context {cert key : string} {ticket : cptr string} (Hticket : ticket <> Bad).

(** The world [w0], to which a listener over QUIC was added: its listeners,
    its two handles, and the calls of the application so far. *)
Context (w0 : world) (heap : heap).
#[local] Abbreviation s := (w_next w0).
#[local] Abbreviation x := (Pos.succ s).
#[local] Abbreviation t := (Pos.succ x).
#[local] Abbreviation p := (Pos.succ t).
Definition listening_socket : ct_quic_socket_state := set_qk_poll_handle (Some p) (quic_socket_state m t x ticket cert key None).
Definition held (listeners : gmap id ct_listener) (th ph : uv_handle) (cs : list call) : world :=
  World heap (Pos.succ p) (w_connections w0) (w_groups w0) (<[m := listener_manager impl (Some (QuicSocketState s)) l]> (w_managers w0))
    listeners (<[p := ph]> (<[t := th]> (w_handles w0))) (w_requests w0) [] (w_names w0) (w_entropy w0) (w_uuid_counter w0) (w_time w0)
    cs (with_quic_socket s x listening_socket (w_quic w0)).

Lemma held_timer ls th ph cs : w_handles (held ls th ph cs) !! t = Some th.
Proof. cbn. rewrite lookup_insert_ne by lia. apply lookup_insert_eq. Qed.
Lemma held_poll ls th ph cs : w_handles (held ls th ph cs) !! p = Some ph.
Proof. cbn. apply lookup_insert_eq. Qed.
Lemma held_set_timer ls th th' ph cs : set_w_handles (<[t := th']> (w_handles (held ls th ph cs))) (held ls th ph cs) = held ls th' ph cs.
Proof. unfold held. world_simpl. rewrite insert_insert_ne by lia. by rewrite insert_insert_eq. Qed.
Lemma held_set_poll ls th ph ph' cs : set_w_handles (<[p := ph']> (w_handles (held ls th ph cs))) (held ls th ph cs) = held ls th ph' cs.
Proof. unfold held. world_simpl. by rewrite insert_insert_eq. Qed.
Lemma held_socket ls th ph cs : q_sockets (w_quic (held ls th ph cs)) !! s = Some listening_socket.
Proof. cbn. apply lookup_insert_eq. Qed.
Lemma held_manager ls th ph cs : w_managers (held ls th ph cs) !! m = Some (listener_manager impl (Some (QuicSocketState s)) l).
Proof. cbn. apply lookup_insert_eq. Qed.

(** ** Closing *)

#[local] Abbreviation listening_poll := (poll_of m (poll_bind_address e)).
Definition running_timer : uv_handle := quic_timer s (Some on_socket_timer_ptr).
Definition stopping_timer : uv_handle := set_phase (HandleClosing (Some socket_timer_close_cb_ptr)) (set_read None running_timer).
Definition stopped_timer : uv_handle := set_phase HandleClosed stopping_timer.
Definition stopping_poll : uv_handle := set_phase (HandleClosing (Some quic_closed_poll_handle_cb_ptr)) (set_read None listening_poll).
Definition stopped_poll : uv_handle := set_phase HandleClosed stopping_poll.

Lemma held_listens ls cs : listens_for impl l m e (held ls running_timer listening_poll cs).
Proof.
  assert (Ha : poll_of m (bind_address (pi_enum impl) e) = listening_poll) by by rewrite Hp.
  eapply (listens_for_quic _ _ _ _ _ s listening_socket x t p); [exact Hp|apply held_manager|apply held_socket|try done..].
  - cbn. set_solver.
  - apply held_timer.
  - rewrite Ha. apply held_poll.
Qed.

Context (Hl : w_listeners w0 !! l = Some (li CT_LISTENER_STATE_ESTABLISHING)).

Lemma wp_quic_listener_close cs (Q : unit -> world -> Prop) :
  Q tt (held (w_listeners w0) stopping_timer listening_poll cs) ->
  wp (ct_listener_close l) Q (held (w_listeners w0) running_timer listening_poll cs).
Proof.
  intros HQ. unfold ct_listener_close. wp_go. eapply wp_listener_at; [exact Hl|]. cbn [li_socket_manager listener_of]. wp_go.
  unfold ct_socket_manager_listener_close. wp_go. eapply wp_manager_at; [apply held_manager|].
  change (sm_protocol _) with (pi_enum impl). rewrite Hp. cbn [impl_close_listener ctaps_protocols]. unfold quic_close_listener. wp_go.
  eapply wp_manager_at; [apply held_manager|]. wp_go. unfold ct_socket_manager_listener_closed_cb. wp_go.
  eapply wp_manager_at; [apply held_manager|]. wp_go. eapply wp_listener_alone; [|exact Hl|apply held_manager|]; [done|].
  change (1 =? 1) with true. cbn iota. unfold set_close_reason. wp_go. eapply wp_update_manager; [apply held_manager|]. cbn [ct_socket_manager_close]. wp_go.
  eapply wp_manager_at; [apply lookup_insert_eq|]. change (sm_protocol _) with (pi_enum impl). rewrite Hp. cbn [impl_close_socket ctaps_sockets].
  unfold quic_close_socket. wp_go. eapply wp_quic_state_of; [apply lookup_insert_eq|done|]. cbn [ct_close_quic_context]. wp_go.
  eapply wp_socket_state_at; [apply held_socket|]. cbn [qk_timer_handle listening_socket set_qk_poll_handle quic_socket_state]. unfold uv_timer_stop. wp_go.
  eapply wp_update_handle; [apply held_timer|]. eapply wp_uv_close; [world_simpl; apply lookup_insert_eq|done|].
  world_simpl. unfold held. world_simpl. rewrite insert_insert_eq, (insert_insert_ne _ t) by lia. rewrite !insert_insert_eq. exact HQ.
Qed.

Lemma wp_quic_timer_stopped ls cs (Q : unit -> world -> Prop) :
  Q tt (held ls stopped_timer stopping_poll cs) -> wp (handle_closed t) Q (held ls stopping_timer listening_poll cs).
Proof.
  intros HQ. unfold handle_closed. wp_go. eapply wp_handle_at; [apply held_timer|]. cbn [uh_phase stopping_timer set_phase]. wp_go.
  eapply wp_update_handle; [apply held_timer|]. rewrite held_set_timer. cbn [run_close_cb]. unfold socket_timer_close_cb. wp_go.
  eapply wp_handle_at; [apply held_timer|]. cbn [uh_data set_phase stopping_timer set_read running_timer quic_timer]. wp_go.
  eapply wp_socket_state_at; [apply held_socket|]. wp_go. cbn [qk_ticket_store_path qk_picoquic_ctx qk_poll_handle listening_socket set_qk_poll_handle quic_socket_state].
  eapply (wp_mono _ (fun _ w => w = held ls stopped_timer listening_poll cs)).
  - destruct ticket as [|path|]; cbn [is_null negb when]; [by wp_go| |done]. wp_go.
    apply wp_context_at; [cbn; set_solver|]. cbn [load]. wp_go. apply wp_uv_succeeds; [done|]. by wp_go.
  - intros _ w ->. wp_go. eapply wp_update_handle; [apply held_poll|]. rewrite held_set_poll. wp_go.
    eapply wp_uv_close; [apply held_poll|done|]. rewrite held_set_poll. exact HQ.
Qed.

Lemma wp_quic_poll_stopped cs (Q : unit -> world -> Prop) :
  Q tt (held (<[l := li CT_LISTENER_STATE_CLOSED]> (w_listeners w0)) stopped_timer stopped_poll
         (cs ++ heard (lcb_listener_closed lcbs) ListenerClosed (Some l))) ->
  wp (handle_closed p) Q (held (w_listeners w0) stopped_timer stopping_poll cs).
Proof.
  intros HQ. unfold handle_closed. wp_go. eapply wp_handle_at; [apply held_poll|]. cbn [uh_phase stopping_poll set_phase]. wp_go.
  eapply wp_update_handle; [apply held_poll|]. rewrite held_set_poll. cbn [run_close_cb]. unfold quic_closed_poll_handle_cb, data_of. wp_go.
  eapply wp_handle_at; [apply held_poll|]. cbn [uh_data set_phase stopping_poll set_read poll_of]. wp_go.
  eapply wp_listening_socket_closed; [exact Hl|apply held_manager|]. exact HQ.
Qed.

(** ** Releasing *)

Definition quic_listener_blocks : Z := 5 + ptr_blocks ticket.

(** The heap of a world whose blocks were freed one by one. *)
Ltac heap_simpl := world_simpl; cbn [h_live h_oracle].

Lemma wp_quic_listener_unref ls th ph cs (Q : unit -> world -> Prop) w :
  uh_phase th = HandleClosed -> uh_phase ph = HandleClosed -> fresh_quic w0 -> fresh_world w0 ->
  w = set_w_managers (<[m := set_sm_listener None (listener_manager impl (Some (QuicSocketState s)) l)]> (w_managers w0)) (held ls th ph cs) ->
  (forall w1, w_connections w1 = w_connections w0 -> w_groups w1 = w_groups w0 -> w_managers w1 = delete m (w_managers w0) ->
     w_listeners w1 = ls -> w_handles w1 = w_handles w0 -> w_requests w1 = w_requests w0 -> same_quic w0 w1 -> w_calls w1 = cs ->
     h_live (w_heap w1) = h_live heap - quic_listener_blocks - 1 -> Q tt w1) ->
  wp (ct_socket_manager_unref (Some m)) Q w.
Proof.
  intros Hth Hph Hfq Hfr -> HQ. destruct (Hfq s ltac:(lia)) as (F1 & _), (Hfq x ltac:(lia)) as (_ & _ & _ & F4).
  assert (Ft : w_handles w0 !! t = None) by (apply Hfr; lia). assert (Fp : w_handles w0 !! p = None) by (apply Hfr; lia).
  unfold ct_socket_manager_unref. wp_go. eapply wp_update_manager; [apply lookup_insert_eq|]. wp_go.
  eapply wp_manager_at; [apply lookup_insert_eq|]. cbn [sm_ref_count set_sm_ref_count set_sm_listener listener_manager].
  change (1 - 1 =? 0) with true. cbn [when]. unfold ct_socket_manager_free. wp_go.
  eapply wp_manager_at; [apply lookup_insert_eq|]. change (sm_protocol _) with (pi_enum impl). rewrite Hp. wp_go.
  cbn [call_impl impl_free_socket_state ctaps_sockets]. unfold quic_free_socket_state. wp_go.
  eapply wp_quic_state_of; [apply lookup_insert_eq|done|]. wp_go. eapply wp_socket_state_at; [apply held_socket|].
  cbn [qk_picoquic_ctx qk_poll_handle qk_timer_handle qk_cert_file_name qk_key_file_name qk_ticket_store_path listening_socket set_qk_poll_handle quic_socket_state].
  unfold picoquic_free, modify_quic. wp_go. apply wp_context_at; [cbn; set_solver|]. wp_go. apply wp_log_picoquic. unfold QuicFacts.told. heap_simpl.
  cbn [free_handle_ptr]. unfold free_handle. wp_go. eapply wp_handle_at; [apply held_poll|]. wp_go; [by rewrite Hph|].
  eapply wp_heap_frees; [apply frees_block|]. heap_simpl. wp_go.
  eapply wp_handle_at; [world_simpl; rewrite lookup_delete_ne by lia; apply held_timer|]. wp_go; [by rewrite Hth|].
  eapply wp_heap_frees; [apply frees_block|]. heap_simpl. wp_go. eapply wp_heap_frees; [by apply frees_ptr|]. heap_simpl. wp_go.
  eapply wp_heap_frees; [by apply frees_ptr|]. heap_simpl. wp_go. eapply wp_heap_frees; [by apply frees_ptr|]. heap_simpl. wp_go.
  unfold free_socket_state, modify_quic. wp_go. eapply wp_socket_state_at; [apply held_socket|]. wp_go.
  eapply wp_heap_frees; [apply frees_block|]. heap_simpl. wp_go. eapply wp_heap_frees; [apply frees_block|]. heap_simpl.
  unfold QuicFacts.told, held, with_quic_socket. world_simpl. quic_simpl. rewrite !delete_insert_eq. cbn [h_live h_oracle]. apply HQ; world_simpl; try done.
  - rewrite (delete_id _ p) by (by rewrite lookup_insert_ne by lia). by rewrite delete_insert_id.
  - unfold same_quic. world_simpl. quic_simpl. split_and!; [by rewrite delete_id|done..|set_solver].
  - cbn [h_live]. unfold quic_listener_blocks, ptr_blocks. cbn [is_null]. lia.
Qed.

Lemma wp_end_quic_listener cs (Q : unit -> world -> Prop) :
  fresh_quic w0 -> fresh_world w0 ->
  (forall w2, released l m (listener_blocks tp e (Some par) + quic_listener_blocks) (set_w_heap heap w0) w2 ->
     w_calls w2 = cs ++ heard (lcb_listener_closed lcbs) ListenerClosed (Some l) -> Q tt w2) ->
  wp (end_listener l [t; p]) Q (held (w_listeners w0) running_timer listening_poll cs).
Proof.
  intros Hfq Hfr HQ. unfold end_listener. cbn [for_each]. wp_go. apply wp_quic_listener_close. wp_go. apply wp_quic_timer_stopped. wp_go.
  apply wp_quic_poll_stopped. wp_go. eapply wp_listener_free; [apply lookup_insert_eq|apply held_manager|exact Htp|exact Hpar|].
  unfold held at 1. world_simpl. rewrite insert_insert_eq.
  eapply wp_quic_listener_unref; [| |exact Hfq|exact Hfr|reflexivity|]; [done..|].
  intros w1 E1 E2 E3 E4 E5 E6 E7 E8 E9. split; [rewrite E4; apply lookup_insert_eq|]. intros live ->. apply HQ.
  - split; world_simpl; [exact E1|exact E2|exact E3|by rewrite E4, delete_insert_eq|exact E5|exact E6|exact E7|].
    cbn [h_live]. rewrite E9. unfold listener_blocks. lia.
  - world_simpl. exact E8.
Qed.
End quic.

Section contract.
Context `{!Picoquic, !Framers, !HashOrder}.

Lemma wp_quic_listen impl l m tp e lcbs ccbs par alpn cert key (Q : Z -> world -> Prop) w :
  credentials SERVER_CERTIFICATE alpn cert key par -> wf_sec par -> oracle_ok (w_heap w) -> uv_succeeds w ->
  w_listeners w !! l = Some (listener_of tp e lcbs ccbs CT_LISTENER_STATE_ESTABLISHING (Some par) m) ->
  w_managers w !! m = Some (listener_manager impl None l) ->
  (forall h ticket, oracle_ok h -> ticket <> Bad -> h_live h = h_live (w_heap w) + quic_listener_blocks (ticket := ticket) ->
     Q 0 (held (impl := impl) (l := l) (m := m) (cert := cert) (key := key) (ticket := ticket) w h (w_listeners w) (running_timer w)
            (poll_of m (poll_bind_address e)) (w_calls w))) ->
  wp (quic_listen m) Q w.
Proof.
  intros Hc Hwf Ho Hu Hl Hm HQ. unfold quic_listen. wp_go. eapply wp_manager_at; [exact Hm|]. cbn [sm_listener listener_manager]. wp_go.
  eapply wp_listener_at; [exact Hl|]. cbn [li_security_parameters li_socket_manager li_local_endpoint listener_of is_Some_b negb]. wp_go.
  eapply wp_certificate_count; [exact Hc|]. intros n Hn. rewrite bool_decide_eq_false_2 by done. wp_go.
  eapply wp_certificate_file; [exact Hc|]. wp_go. eapply wp_certificate_key_file; [exact Hc|]. cbn [is_null orb]. wp_go.
  eapply wp_quic_socket_new; [exact Hc|exact Hwf|exact Ho|exact Hu|exact Hm|]. intros h1 ticket Ho1 Hticket Hl1. wp_go.
  eapply wp_socket_state_at; [cbn; apply lookup_insert_eq|]. wp_go. apply wp_context_at; [cbn; set_solver|]. wp_go.
  eapply wp_create_poll; [exact Ho1|exact Hu|]. intros h2 Ho2 Hl2. world_simpl. wp_go.
  eapply wp_update_handle; [apply lookup_insert_eq|]. world_simpl. rewrite insert_insert_eq. wp_go.
  eapply wp_update_socket_state; [cbn; apply lookup_insert_eq|]. world_simpl. wp_go.
  eapply wp_update_manager; [apply lookup_insert_eq|]. world_simpl. rewrite insert_insert_eq. wp_go.
  eapply wp_reset_quic_timer; [cbn; apply lookup_insert_eq|done|cbn; set_solver|done|world_simpl; rewrite lookup_insert_ne by lia; apply lookup_insert_eq|].
  wp_go. unfold armed. world_simpl. rewrite lookup_insert_ne by lia. rewrite lookup_insert_eq.
  change (is_open (quic_timer (w_next w) None)) with true. cbn iota. rewrite insert_insert_ne by lia. rewrite insert_insert_eq.
  unfold with_quic_socket. quic_simpl. rewrite insert_insert_eq.
  specialize (HQ h2 ticket Ho2 Hticket). unfold held in HQ. rewrite <- Hu in HQ. apply HQ.
  unfold quic_listener_blocks. cbn in *. lia.
Qed.

#[export] Instance quic_serves : ListenerContract quic_protocol_interface server_credentials.
Proof.
  split; [exact server_credentials_copied|]. intros l m tp e lcbs ccbs sec w (alpn & cert & key & par & -> & Hc) Ho Hu Hfr Hfq Hi Htp Hpar Hl Hm.
  change (impl_listen (pi_enum quic_protocol_interface) m) with (quic_listen m).
  eapply wp_quic_listen; [exact Hc|exact Hpar|exact Ho|exact Hu|exact Hl|exact Hm|].
  intros h ticket Ho1 Hticket Hl1. split_and!; [done..| |].
  { by eapply held_listens. }
  eexists [_; _]. intros cs.
  change (set_w_calls cs _) with (held (impl := quic_protocol_interface) (l := l) (m := m) (cert := cert) (key := key) (ticket := ticket) w h
    (w_listeners w) (running_timer w) (poll_of m (poll_bind_address e)) cs).
  eapply wp_end_quic_listener; [done|exact Htp|exact Hpar|exact Hticket|exact Hl|exact Hfq|exact Hfr|].
  intros w2 [? ? ? ? ? ? ? Hlive] Hcs. split; [|exact Hcs]. split; [done..|].
  change (w_heap (set_w_heap h w)) with h in Hlive. lia.
Qed.
End contract.
