(* ===== verification/Listeners.v ===== *)
(** Listening, from the call of the application to the release of the listener.

    [ct_preconnection_listen] (connection/preconnection.c) gathers the local
    candidates (Gathering), and its callback makes a listener of the best one
    and lets its protocol listen; what follows holds of every protocol that
    keeps the [ListenerContract], and the three of the library do. *)

From Stdlib Require Import Sorted.
From S2P Require Export QuicListener.
Open Scope Z_scope.

Section listeners.
Context `{!Picoquic, !Framers, !HashOrder}.

(** The parameters with which a protocol can listen. *)
Definition suited (impl : ct_protocol_impl) (sec : option ct_security_parameters) : Prop :=
  pi_enum impl = CT_PROTOCOL_QUIC -> server_credentials sec.

Lemma supported_contract impl : impl ∈ ct_supported_protocols -> ListenerContract impl (suited impl).
Proof.
  unfold ct_supported_protocols. rewrite !elem_of_cons. intros [-> |[-> |[-> |[]%not_elem_of_nil]]]; split.
  - done.
  - intros l m tp e lcbs ccbs sec w _. by apply (lc_listen (ListenerContract := udp_serves)).
  - done.
  - intros l m tp e lcbs ccbs sec w _. by apply (lc_listen (ListenerContract := tcp_serves)).
  - intros s c Hs Hc _. eapply server_credentials_copied; [by apply Hs|exact Hc].
  - intros l m tp e lcbs ccbs sec w Hs. apply (lc_listen (ListenerContract := quic_serves)). by apply Hs.
Qed.

Context (tr : traverse_order -> traverse_flags -> list gnode -> nat -> list nat) (Htr : traversal_ok tr).
Context (sort : (ct_candidate_node -> ct_candidate_node -> Z) -> list ct_candidate_node -> list ct_candidate_node)
  (Hsort : sort_ok sort).
Context (gai : string -> Z * list (Z * sockaddr)) (uv : Z * list (string * sockaddr)) (uv_getaddrinfo : string -> Z).
Context (p : ct_preconnection) (lcbs : ct_listener_callbacks) (ccbs : ct_connection_callbacks).

(** The local candidates that the preconnection's properties allow. *)
Definition local_usable : list ct_candidate_node :=
  filter (fun d => keep (gather_input_of p) d = true) (local_candidates (gather_input_of p) gai uv).

(** A preconnection that a listener can be made from: its parts are well
    formed, its local endpoints, of which there is one, are unresolved or IP
    addresses, and there is an interface for them. *)
Record can_listen : Prop := {
  cl_properties : props_ok (pr_transport_properties p);
  cl_security : sec_ok (pr_security_parameters p);
  cl_locals : default [] (pr_local_endpoints p) <> [];
  cl_inet : Forall local_inet (default [] (pr_local_endpoints p));
  cl_interfaces : interfaces_ok uv;
  cl_paths : paths (gather_input_of p) gai uv <> [] }.
Context (Hp : can_listen).

(** Gathering in the world of the library. *)
Lemma wp_gather_locals (Q : Z * list (option (list ct_candidate_node)) -> world -> Prop) w :
  oracle_ok (w_heap w) ->
  (forall h res, oracle_ok h -> h_live h = h_live (w_heap w) + zsum (content_blocks <$> res) -> res ≡ₚ local_usable ->
     StronglySorted (fun a b => compare_candidates (gather_input_of p) a b <= 0) res -> Q (0, [Some res]) (set_w_heap h w)) ->
  wp (on_heap (fun h =>
        match ct_get_ordered_local_candidate_nodes tr sort uv gai uv_getaddrinfo (gather_input_of p) h with
        | Ok (rc, g) => Ok ((rc, g_calls g), g_heap g)
        | UB why => UB why
        end)) Q w.
Proof.
  intros Ho HQ. destruct Hp as [[Hwf Hsets] Hsec _ _ _ Hpaths]. apply wp_on_heap.
  assert (Hsec' : forall sec, gi_security_parameters (gather_input_of p) = Some sec -> wf_sec sec).
  { intros sec Hs. cbn in Hs. rewrite Hs in Hsec. exact Hsec. }
  destruct (local_gathering_run tr Htr sort Hsort (gather_input_of p) Hwf Hsets gai uv uv_getaddrinfo Hsec' (w_heap w) Ho Hpaths)
    as (g & Hg & (res & Hcalls & Hperm & Hsorted & _ & _ & _ & Hlive) & Hog).
  unfold wp. rewrite Hg, Hcalls. by apply HQ.
Qed.

Lemma frees_candidates l : frees (free_candidate_array l) (zsum (content_blocks <$> l)).
Proof.
  apply frees_for_each. intros d _. unfold free_candidate_content, content_blocks.
  eapply frees_eq; [apply frees_bind; [apply frees_local_opt|apply frees_bind; [apply frees_when; intros _; apply frees_remote_opt|apply frees_protocol]]|].
  unfold local_opt_blocks, remote_opt_blocks. destruct (cn_remote_endpoint d); cbn [is_Some_b]; lia.
Qed.

Lemma best_first n res :
  n :: res ≡ₚ local_usable -> StronglySorted (fun a b => compare_candidates (gather_input_of p) a b <= 0) (n :: res) ->
  n ∈ local_usable /\ forall a, a ∈ local_usable -> compare_candidates (gather_input_of p) n a <= 0.
Proof.
  intros Hperm Hs. split; [rewrite <- Hperm; apply list_elem_of_here|]. intros a Ha. rewrite <- Hperm in Ha.
  apply Sorted.StronglySorted_inv in Hs as [_ Hall]. rewrite Forall_elem in Hall. apply elem_of_cons in Ha as [->|Ha]; [|by apply Hall].
  unfold compare_candidates. destruct (cn_protocol_candidate n) as [q|]; [|done].
  destruct (compare_preorder (selection_properties (gi_transport_properties (gather_input_of p)))
    (pc_protocol_impl q) (pc_protocol_impl q) (pc_protocol_impl q)) as [H' _]. lia.
Qed.
(** Two worlds with the same objects and as many blocks. *)
Definition restored (w w' : world) : Prop := same_tables w w' /\ same_quic w w' /\ h_live (w_heap w') = h_live (w_heap w).

(** The best of the candidates is listened on: the listener has its endpoint, the
    preconnection's properties and parameters and the application's callbacks;
    the candidate's protocol serves it, on an open socket that is bound to the
    endpoint's address; and whoever ends it finds the world as it was. *)
Definition listens (w w1 : world) : Prop :=
  exists n e q l m tp sec handles,
    n ∈ local_usable /\ (forall a, a ∈ local_usable -> compare_candidates (gather_input_of p) n a <= 0) /\
    cn_local_endpoint n = Some e /\ cn_protocol_candidate n = Some q /\ props_copied (pr_transport_properties p) tp /\ sec_copied (pr_security_parameters p) sec /\
    w_listeners w1 = <[l := listener_of tp e lcbs ccbs CT_LISTENER_STATE_ESTABLISHING sec m]> (w_listeners w) /\
    listens_for (pc_protocol_impl q) l m e w1 /\
    w_calls w1 = w_calls w ++ heard (lcb_listener_ready lcbs) ListenerReady (Some l) /\
    wp (end_listener l handles) (fun _ w2 =>
      restored w w2 /\ w_calls w2 = w_calls w1 ++ heard (lcb_listener_closed lcbs) ListenerClosed (Some l)) w1.

(** No object has an identity that is still to be given. *)
Definition fresh_ids (w : world) : Prop :=
  fresh_world w /\ fresh_quic w /\ forall k, (w_next w <= k)%positive -> w_listeners w !! k = None.
Lemma fresh_later w w' :
  fresh_ids w -> w_connections w' = w_connections w -> w_groups w' = w_groups w -> w_handles w' = w_handles w ->
  w_requests w' = w_requests w -> w_quic w' = w_quic w -> (w_next w <= w_next w')%positive ->
  (forall k, (w_next w' <= k)%positive -> w_managers w' !! k = w_managers w !! k) -> fresh_world w' /\ fresh_quic w'.
Proof.
  intros (Hw & Hq & _) E1 E2 E3 E4 E5 Hle Hm. split.
  - intros k Hk. rewrite E1, E2, E3, E4, Hm by done. apply Hw. lia.
  - intros k Hk. rewrite E5. apply Hq. lia.
Qed.

Context (Hcredentials : protocol_implementation_supports_selection_properties quic_protocol_interface
  (selection_properties (pr_transport_properties p)) = true -> server_credentials (pr_security_parameters p)).

Lemma usable_contract n :
  n ∈ local_usable -> exists e q, n = CandidateNode NODE_TYPE_PROTOCOL (Some e) None (Some q) /\
    is_inet (le_resolved_address e) = true /\ ListenerContract (pc_protocol_impl q) (suited (pc_protocol_impl q)) /\
    suited (pc_protocol_impl q) (pr_security_parameters p).
Proof.
  intros (e & q & -> & He & Hsup & Hsel)%local_candidate_inv. exists e, q. split_and!; [done| |by apply supported_contract|].
  - eapply paths_inet; [apply Hp| |exact He]. apply Hp.
  - intros Hq. apply Hcredentials. unfold ct_supported_protocols in Hsup. rewrite !elem_of_cons in Hsup.
    destruct Hsup as [Hs|[Hs|[Hs|[]%not_elem_of_nil]]]; rewrite Hs in *; done.
Qed.

Lemma wp_locals_ready n rest h (Q : unit -> world -> Prop) w :
  n :: rest ≡ₚ local_usable -> StronglySorted (fun a b => compare_candidates (gather_input_of p) a b <= 0) (n :: rest) ->
  oracle_ok h -> uv_succeeds w -> fresh_ids w ->
  h_live h = h_live (w_heap w) + 1 + zsum (content_blocks <$> n :: rest) ->
  (forall w1, listens w w1 -> Q tt w1) ->
  wp (ct_listener_candidate_node_array_ready_cb p lcbs ccbs (Some (n :: rest))) Q (set_w_heap h w).
Proof.
  intros Hperm Hsorted Ho Huv Hfresh Hlive HQ. destruct (best_first _ _ Hperm Hsorted) as [Hn Hbest].
  destruct (usable_contract n Hn) as (e & q & -> & Hi & Hq & Hs). cbn [ct_listener_candidate_node_array_ready_cb cn_protocol_candidate cn_local_endpoint]. wp_go.
  eapply wp_listener_new; [exact Ho|apply Hp|apply Hp|]. intros h1 tp sec Ho1 Htp Hsec Hl1. wp_go. world_simpl.
  set (l := w_next w) in *. set (m := Pos.succ l) in *.
  eapply wp_heap_frees; [apply frees_candidates|]. world_simpl. wp_go. eapply wp_heap_frees; [apply frees_block|]. world_simpl. cbn [h_oracle h_live]. wp_go.
  match goal with |- wp _ _ ?w' => destruct (fresh_later w w' Hfresh) as [Hf1 Hf2]; try done end.
  { unfold m, l. cbn. lia. }
  { intros k Hk. cbn in *. apply lookup_insert_ne. unfold m. lia. }
  eapply wp_listen; [exact Hq|by eapply lc_copied|exact Ho1|exact Huv|exact Hf1|exact Hf2|exact Hi|apply Htp|by eapply sec_copied_ok|
    apply lookup_insert_eq|apply lookup_insert_eq|].
  intros w1 handles El Ec Hsv Hend. apply HQ. world_simpl. exists (CandidateNode NODE_TYPE_PROTOCOL (Some e) None (Some q)), e, q, l, m, tp, sec, handles.
  split; [exact Hn|]. split; [exact Hbest|]. split_and!; [done|done|exact Htp|exact Hsec|exact El|exact Hsv|exact Ec|].
  eapply wp_mono; [exact Hend|]. intros _ w2 [[R1 R2 R3 R4 R5 R6 R7 R8] Hc]. split; [|exact Hc]. world_simpl.
  destruct Hfresh as (Hfr & _ & Hli). assert (Hm : w_managers w !! m = None) by (apply Hfr; lia).
  split; [split_and!; [exact R1|exact R2|rewrite R3; by apply delete_insert_id|rewrite R4; apply delete_insert_id, Hli; lia|exact R5|exact R6]|].
  split; [exact R7|]. rewrite R8. cbn in *. lia.
Qed.

(** C8: listening, from the call to the end of the listener. With a
    preconnection that a listener can be made from (with a server certificate
    and an ALPN if its properties allow QUIC), when allocations and the calls of
    libuv and picoquic succeed and identities to be given are unused,
    [ct_preconnection_listen] returns 0. If the properties allow no local
    candidate, the application was told once of the failure, [-ENOENT], and
    there is no new object. Otherwise a new listener has the best-ranked
    candidate's endpoint, and its socket manager runs that candidate's protocol,
    any of the three, on an open socket, bound to the endpoint's address (over
    UDP to 0.0.0.0 if the port is 0), that hands over to the manager the
    datagrams, connections or packets of a picoquic context that arrive. The
    application was told once that the listener is ready; closing it, the close
    callbacks of its handles and freeing it tell once that it is closed, restore
    every table (those of quic.c too) and free every block. *)
Theorem listener_lifecycle w :
  oracle_ok (w_heap w) -> uv_succeeds w -> fresh_ids w ->
  wp (ct_preconnection_listen tr sort uv gai uv_getaddrinfo (Some p) (Some lcbs) (Some ccbs)) (fun rc w1 =>
    rc = 0 /\
    if is_nil local_usable
    then restored w w1 /\ w_calls w1 = w_calls w ++ heard (lcb_establishment_error lcbs) (ListenerError (- ENOENT)) None
    else listens w w1) w.
Proof.
  intros Ho Huv Hfresh. unfold ct_preconnection_listen. rewrite bool_decide_false.
  2: { intros Hl%length_zero_iff_nil. by destruct Hp. }
  wp_go. eapply wp_heap_allocs; [exact Ho|apply allocs_malloc|]. intros ? h1 <- Ho1 Hl1. cbn [negb]. wp_go.
  eapply wp_gather_locals; [exact Ho1|]. intros h2 res Ho2 Hl2 Hperm Hsorted. cbn [for_each default]. world_simpl. wp_go.
  destruct res as [|n rest].
  - apply Permutation_nil_l in Hperm as Hnil. rewrite <- Hnil. cbn [is_nil ct_listener_candidate_node_array_ready_cb]. wp_go.
    eapply wp_heap_frees; [apply frees_block|]. wp_go. unfold fail_listen. apply wp_call_listener. world_simpl. wp_go.
    change (0 <? 0) with false. wp_go. split; [done|]. split; [|done]. split_and!; [done..|]. cbn in *. lia.
  - eapply (wp_locals_ready n rest h2 _ w); [exact Hperm|exact Hsorted|exact Ho2|exact Huv|exact Hfresh|cbn [w_heap set_w_heap] in Hl2; lia|].
    intros w1 Hw1. wp_go. change (0 <? 0) with false. wp_go. split; [done|].
    destruct local_usable; [by apply Permutation_nil_r in Hperm|exact Hw1].
Qed.
End listeners.

(** ** Concrete listeners *)

Module Server.
Import Lifecycle.Idle.

Definition server_parameters : ct_security_parameters :=
  sec_upd (sec_upd DEFAULT_SECURITY_PARAMETERS ALPN true (array_of_strings (StringArray (Ptr [Ptr "h3"; Ptr "hq"]) 2)))
    SERVER_CERTIFICATE true (certificate_bundles (Bundles (Ptr [Bundle (Ptr "cert.pem") (Ptr "key.pem")]) 1)).

(** Reliable transport on any interface: QUIC and TCP are candidates, QUIC the
    better one. *)
Definition preconnection : ct_preconnection :=
  PreconnectionOf some_properties (Some server_parameters) (Some [LocalEndpoint 443 None None sockaddr_zero]) None None.
Definition callbacks : ct_listener_callbacks :=
  ListenerCallbacks (Some (user_fn 1)) (Some (user_fn 2)) (Some (user_fn 3)) (Some (user_fn 4)) None.

(** The listener is ready; it is ended after the close callbacks of its timer
    and its poll handle. *)
Example listen_and_end :
  match (rc ← ct_preconnection_listen level_traverse (@insertion_sort _) one_interface no_services (fun _ => 0)
                (Some preconnection) (Some callbacks) (Some some_callbacks);
         w ← get;
         end_listener 1%positive [5%positive; 6%positive] ;;
         mret (rc, (fun sm => pi_enum (sm_protocol_impl sm)) <$> w_managers w !! 2%positive)) empty_world with
  | Ok (r, w) => Some (r, w_calls w, h_live (w_heap w), map_to_list (w_handles w))
  | UB _ => None
  end = Some (0, Some CT_PROTOCOL_QUIC,
    [CallListener (user_fn 1) ListenerReady (Some 1%positive); CallListener (user_fn 4) ListenerClosed (Some 1%positive)], 0, []).
Proof. vm_compute. reflexivity. Qed.

(** A UDP socket for the IPv6 loopback address without a port is bound to
    0.0.0.0, an address of another family. *)
Definition v6_loopback : ct_local_endpoint :=
  LocalEndpoint 0 None None (set_sin6_addr (replicate 15 0 ++ [1]) (set_family AF_INET6 sockaddr_zero)).
Example udp_socket_without_port :
  match create_udp_listening_on_local (Some v6_loopback) socket_listen_callback_ptr empty_world with
  | Ok (Some h, w) => bound ← (w_handles w !! h) ≫= uh_bound; Some (ss_family bound, sin_addr bound)
  | _ => None
  end = Some (AF_INET, [0; 0; 0; 0]).
Proof. by vm_compute. Qed.

Lemma server_can_listen : can_listen no_services one_interface preconnection.
Proof.
  split; [split; [apply wf_default_selection|apply sets_ok_default]| |done| | |vm_compute; congruence].
  - intros []; cbn; split_and!; try done; repeat constructor.
  - constructor; [by left|constructor].
  - constructor; [apply loopback_v4_wf|constructor].
Defined.

Lemma server_suited : server_credentials (pr_security_parameters preconnection).
Proof. exists "h3"%string, "cert.pem"%string, "key.pem"%string, server_parameters. split; [done|]. split; cbn; [by eexists _, _..|done]. Defined.

Lemma listener_lifecycle_witness :
  wp (ct_preconnection_listen level_traverse (@insertion_sort _) one_interface no_services (fun _ => 0) (Some preconnection)
        (Some callbacks) (Some some_callbacks)) (fun rc w1 =>
    rc = 0 /\
    if is_nil (local_usable no_services one_interface preconnection)
    then restored empty_world w1 /\
      w_calls w1 = (w_calls empty_world ++ heard (lcb_establishment_error callbacks) (ListenerError (- ENOENT)) None)%list
    else listens no_services one_interface preconnection callbacks some_callbacks empty_world w1) empty_world.
Proof.
  apply (listener_lifecycle level_traverse level_traverse_ok (@insertion_sort _) insertion_sort_ok no_services one_interface (fun _ => 0)
    preconnection callbacks some_callbacks server_can_listen (fun _ => server_suited)); [by constructor|done|].
  split; [done|]. split; [|done]. intros k _. split_and!; done.
Defined.
End Server.
