(* ===== verification/Initiating.v ===== *)
(** Initiating a connection: gathering and racing together.

    [ct_preconnection_initiate] and [ct_preconnection_initiate_with_send]
    (connection/preconnection.c) from the call to the last event: candidates
    are gathered while lookups are outstanding, the completion of the last
    lookup starts the race of the candidates that were found, and the events of
    the loop run it to its end.  The first section composes the facts about
    gathering (Gathering) with the contract of the raced connections
    (RacingFacts); the second instantiates it with the library's own
    connections over TCP and UDP (RacingConnections). *)

From S2P Require Export RacingConnections RacingSends Preconnection.
From Stdlib Require Import Sorted.
Open Scope Z_scope.

(** ** Steps *)

Section steps.
Context {W : Type} `{!RaceOps W}.
Context (gi : bytes -> Z) (gs : string -> Z).
Context (tr : traverse_order -> traverse_flags -> list gnode -> nat -> list nat)
  (sort : (ct_candidate_node -> ct_candidate_node -> Z) -> list ct_candidate_node -> list ct_candidate_node)
  (precon : gather_input) (dns : string -> list (Z * sockaddr)).

(** A lookup that libuv holds completes with what the name resolves to, or the
    loop delivers another event that is possible. *)
Inductive initiate_step : gather * race W -> gather * race W -> Prop :=
| lookup_step g s request g' s' :
    request ∈ g_dns_requests g ->
    race_lookup_done gi gs tr sort precon request.1 0 (dns request.2) g s = Ok (g', s') ->
    initiate_step (g, s) (g', s')
| event_step g s s' : race_step gi gs s s' -> initiate_step (g, s) (g, s').
End steps.

(** ** Against the contract of the connections *)

Section initiate.
Context {W : Type} `{!RaceOps W, C : !RaceContract W}.
Context (gi : bytes -> Z) (gs : string -> Z).
Context (tr : traverse_order -> traverse_flags -> list gnode -> nat -> list nat) (Htr : traversal_ok tr).
Context (sort : (ct_candidate_node -> ct_candidate_node -> Z) -> list ct_candidate_node -> list ct_candidate_node)
  (Hsort : sort_ok sort).
Context (precon : gather_input).
Context (Hwf : wf_selection (selection_properties (gi_transport_properties precon))).
Context (Hsets : sets_ok (selection_properties (gi_transport_properties precon))).
Context (gai : string -> Z * list (Z * sockaddr)) (uv : Z * list (string * sockaddr)) (uv_getaddrinfo : string -> Z)
  (dns : string -> list (Z * sockaddr)).
Context (Hsec : forall sec, gi_security_parameters precon = Some sec -> wf_sec sec).
Context (Hpaths : paths precon gai uv <> []) (Hremotes : gi_remote_endpoints precon <> []).
Context (Hresolvable : Forall (resolvable gai uv_getaddrinfo) (gi_remote_endpoints precon)).
Context (Hcount : Z.of_nat (length (local_candidates precon gai uv) * length (gi_remote_endpoints precon)) < 2 ^ 64).

(** What the application initiates with. *)
Context (ucbs : ct_connection_callbacks) (framer : option ct_framer_impl) (v0 : RacingFacts.view).
Context (msg : option ct_message) (ctx : option ct_message_context) (early : bool).
Context (Happ : application ucbs).
Context (Hsends : early = false -> is_Some msg -> rc_sends msg ctx) (Hearly : early = true -> rc_sends_early msg ctx).

Definition initiate_input : race_input :=
  RaceInput (gi_transport_properties precon) (gi_security_parameters precon) framer.

(** The candidates that the selection properties leave. *)
Definition usable_candidates : list ct_candidate_node :=
  filter (fun d => keep precon d = true) (remote_candidates precon gai uv dns).

(** A candidate that the contract covers. *)
Definition covered (n : ct_candidate_node) : Prop :=
  candidate_ok n /\ forall p, cn_protocol_candidate n = Some p ->
    rc_allows (pc_protocol_impl p) initiate_input /\ rc_fallible (pc_protocol_impl p) = false.
Context (Hcovered : Forall covered usable_candidates).

#[local] Abbreviation step := (initiate_step gi gs tr sort precon dns).
#[local] Abbreviation at_start := (at_race initiate_input msg ctx early v0 (fresh_context ucbs initiate_input msg ctx early)).
#[local] Abbreviation raced cands := (race_ok cands ucbs v0 initiate_input msg ctx early).
#[local] Abbreviation over := (finished v0 msg ctx early).

(** The candidates as they are given to the race. *)
Definition ranked (cands : list ct_candidate_node) : Prop :=
  cands ≡ₚ usable_candidates /\ StronglySorted (fun a b => compare_candidates precon a b <= 0) cands.

(** Between two events: lookups are outstanding and nothing else has begun; or
    there was no candidate and the context is about to be freed, or has been;
    or the candidates are raced. *)
Inductive initiating (g : gather) (s : race W) : Prop :=
| initiating_lookups base :
    gathering_state precon gai uv uv_getaddrinfo dns base g -> g_dns_requests g <> [] ->
    at_start TimerIdle [] s -> initiating g s
| initiating_refused :
    g_dns_requests g = [] -> usable_candidates = [] ->
    at_start TimerClosing (failure_notes ucbs) s \/ over None (failure_notes ucbs) (v_cbs v0) s ->
    initiating g s
| initiating_race cands :
    g_dns_requests g = [] -> ranked cands -> cands <> [] -> raced cands s -> initiating g s.

(** *** Facts about the candidates *)

Lemma covered_candidates cands : cands ≡ₚ usable_candidates -> Forall covered cands.
Proof. intros Hp. by rewrite Hp. Qed.


Lemma chosen_empty cands : cands ≡ₚ usable_candidates -> cands = [] -> usable_candidates = [].
Proof. intros Hp ->. by apply Permutation_nil_l in Hp. Qed.

(** What the facts about a race ask of its candidates. *)
Lemma race_candidates cands :
  cands ≡ₚ usable_candidates ->
  Forall candidate_ok cands /\
  (forall n p, n ∈ cands -> cn_protocol_candidate n = Some p -> rc_allows (pc_protocol_impl p) initiate_input) /\
  (forall (i : nat) n p, cands !! i = Some n -> cn_protocol_candidate n = Some p ->
     rc_fallible (pc_protocol_impl p) = true -> (S i < length cands)%nat).
Proof.
  intros Hp%covered_candidates. rewrite Forall_elem in Hp. split_and!.
  - apply Forall_elem. intros n Hn. by apply Hp.
  - intros n p Hn Hc. by apply (Hp n Hn).
  - intros i n p Hn%list_elem_of_lookup_2 Hc Hf. destruct (proj2 (Hp n Hn) p Hc). congruence.
Qed.

(** *** Gathering in the race's state *)

Lemma orderly_gathering (m : heap -> outcome (Z * gather)) (P : Z * gather -> Prop) :
  (forall h, oracle_ok h -> exists r, m h = Ok r /\ P r /\ oracle_ok (g_heap r.2)) ->
  orderly (fun h => match m h with Ok (rc, g) => Ok ((rc, g), g_heap g) | UB why => UB why end) P.
Proof. intros Hm h Hh. destruct (Hm h Hh) as ([rc g] & Hr & HP & Ho). unfold wp. by rewrite Hr. Qed.

Definition in_progress (g : gather) : Prop := exists base, gathering_state precon gai uv uv_getaddrinfo dns base g.

Lemma in_progress_heap g : in_progress g -> oracle_ok (g_heap g).
Proof. by intros [base []]. Qed.

Lemma gathering_called h :
  oracle_ok h -> exists r, ct_get_ordered_candidate_nodes tr sort uv gai uv_getaddrinfo precon h = Ok r /\
    (r.1 = 0 /\ in_progress r.2) /\ oracle_ok (g_heap r.2).
Proof.
  intros Hh. destruct (gathering_run tr Htr sort Hsort precon Hwf Hsets gai uv uv_getaddrinfo dns Hsec h) as
    (g & Hr & l2 & leaves & finished & out & Hw); [done..|].
  assert (in_progress g) by (eexists; by eapply progressed).
  exists (0, g). split_and!; [done..|]. by apply in_progress_heap.
Qed.

Lemma lookup_called g request h :
  in_progress g -> request ∈ g_dns_requests g -> oracle_ok h ->
  exists r, match on_uv_getaddrinfo_cb tr sort precon request.1 0 (dns request.2) (set_g_calls [] (set_g_heap h g)) with
            | Ok (_, g') => Ok (0, g')
            | UB why => UB why
            end = Ok r /\ (in_progress r.2 /\ (length (g_dns_requests r.2) < length (g_dns_requests g))%nat) /\ oracle_ok (g_heap r.2).
Proof.
  intros [base Hg] Hin Hh.
  pose proof (lookup_completes tr Htr sort Hsort precon Hwf Hsets gai uv uv_getaddrinfo dns base g h request Hg Hin Hh) as Hw.
  apply wp_ok in Hw as (? & g' & Hw & Hg' & Hlt). unfold deliver in Hw. rewrite Hw. exists (0, g'). split_and!; [done..|].
  by apply in_progress_heap.
Qed.

(** *** The callback *)

Lemma wp_no_candidates s :
  at_start TimerIdle [] s ->
  wp (start_candidate_racing_on_nodes_ready gi gs (Some [])) (fun _ s' => at_start TimerClosing (failure_notes ucbs) s') s.
Proof.
  intros H. unfold start_candidate_racing_on_nodes_ready. wp_steps. eapply wp_context; [exact H|]. wp_steps.
  eapply wp_race_frees; [exact H|apply frees_ret|]. intros s1 H1. wp_steps.
  eapply wp_user_call; [exact H1|]. intros s2 H2. unfold racing_context_free. wp_steps. eapply wp_context; [exact H2|]. wp_steps.
  eapply wp_close_timer; [exact H2|by left|]. intros s3 H3. 
  change (at_start TimerClosing (filter (fun c => quiet c = false) (failure_notes ucbs)) s3) in H3. by rewrite failure_notes_loud in H3.
Qed.

Lemma wp_candidates_ready cands s :
  ranked cands -> v_stage v0 = ∅ -> at_start TimerIdle [] s ->
  wp (start_candidate_racing_on_nodes_ready gi gs (Some cands))
    (fun _ s' => forall g, g_dns_requests g = [] -> initiating g s') s.
Proof.
  intros [Hp Hsorted] Hst H. destruct (decide (cands = [])) as [Hnil|Hne].
  - subst. eapply wp_mono; [by apply wp_no_candidates|]. intros ? s' Hs' g Hg.
    apply initiating_refused; [done|by eapply chosen_empty|by left].
  - destruct (race_candidates cands Hp) as (Hok & Hallowed & Hlast).
    eapply wp_mono; [by eapply (wp_nodes_ready gi gs cands ucbs v0 initiate_input msg ctx early)|].
    intros _ s' [Hs' _] g Hg. by eapply initiating_race.
Qed.

(** A step of gathering in the race's state. *)
Lemma wp_gathering_step (m : heap -> outcome (Z * gather)) (P : Z * gather -> Prop) s :
  (forall h, oracle_ok h -> exists r, m h = Ok r /\ P r /\ oracle_ok (g_heap r.2)) -> (forall r, P r -> in_progress r.2) ->
  v_stage v0 = ∅ -> at_start TimerIdle [] s ->
  wp (gathering_step gi gs m) (fun r s' => P r /\ initiating r.2 s') s.
Proof.
  intros Hm HP Hst H. unfold gathering_step. wp_steps.
  eapply (wp_race_orderly _ _ _ _ _ P); [exact H|by apply orderly_gathering|]. intros [rc g] s1 Hr H1.
  pose proof (HP _ Hr) as [base Hg]. cbn [snd] in *. wp_steps.
  pose proof Hg as [l2 leaves finished out _ Hne -> _|(res & -> & Hp & Hsorted & _) Hno _].
  - wp_steps. split; [done|]. by eapply initiating_lookups.
  - cbn [for_each]. wp_steps. eapply wp_mono; [by eapply wp_candidates_ready|].
    intros ? s2 Hs2. wp_steps. split; [done|]. by apply Hs2.
Qed.

(** *** Every event is dealt with *)

Context (Hst : v_stage v0 = ∅).

(** An event of the loop while no connection of the race exists. *)
Lemma wp_other_event v e s :
  rc_holds v (rs_world s) -> v_stage v = ∅ ->
  wp (run_race_event gi gs (RaceLoop e)) (fun _ s' => rc_holds v (rs_world s') /\ same_race s s') s.
Proof.
  intros Hw Hv. eapply wp_event; [exact Hw|done|]. intros c cbs l v' s' _ Hl. unfold outcome_of in Hl.
  rewrite Hv, lookup_empty in Hl. by destruct Hl as [[? _]|[? _]].
Qed.

Lemma no_attempts_ok : attempts_ok [] v0 v0 [] None.
Proof. split; try done. intros c st Hc. by rewrite Hst, lookup_empty in Hc. Qed.

Lemma nothing_requested : requested v0 msg ctx early None v0.
Proof. exists [], []. split; [|done]. cbn. by rewrite app_nil_r. Qed.

Lemma wp_initiating_lookup g request s :
  initiating g s -> request ∈ g_dns_requests g ->
  wp (race_lookup_done gi gs tr sort precon request.1 0 (dns request.2) g)
    (fun g' s' => initiating g' s' /\ (length (g_dns_requests g') < length (g_dns_requests g))%nat) s.
Proof.
  intros [base Hg _ H|Hno _ _|cands Hno _ _ _] Hin; [|rewrite Hno in Hin; by apply not_elem_of_nil in Hin..].
  unfold race_lookup_done. wp_steps. eapply wp_mono.
  - eapply (wp_gathering_step _ (fun r => in_progress r.2 /\ (length (g_dns_requests r.2) < length (g_dns_requests g))%nat));
      [|by intros r []|exact Hst|exact H]. intros h Hh. apply lookup_called; [by exists base|done|done].
  - intros [rc g'] s' [[_ Hlt] Hs']. by wp_steps.
Qed.

Lemma wp_initiating_event g e s :
  initiating g s -> timer_possible e s = true -> wp (run_race_event gi gs e) (fun _ s' => initiating g s') s.
Proof.
  intros Hs Hpos. destruct Hs as [base Hg Hne H|Hno Hnil [H|Hfin]|cands Hno [Hp Hsorted] Hne Hr].
  - destruct e as [| |e]; cbn in Hpos; [rewrite (ar_timer _ _ _ _ _ _ _ _ _ H) in Hpos; discriminate Hpos..|].
    eapply wp_mono; [by eapply (wp_other_event v0); [apply H|]|]. intros ? s' [Hw Hsame].
    eapply initiating_lookups; [done|done|by eapply at_race_same].
  - destruct e as [| |e]; cbn in Hpos; [rewrite (ar_timer _ _ _ _ _ _ _ _ _ H) in Hpos; discriminate Hpos| |].
    + cbn [run_race_event]. eapply wp_mono; [by eapply (wp_on_timer_close [] v0 _ _ _ _ None); [exact H|apply no_attempts_ok|done|done|apply nothing_requested]|].
      intros ? s' Hs'. apply initiating_refused; [done|done|by right].
    + eapply wp_mono; [by eapply (wp_other_event v0); [apply H|]|]. intros ? s' [Hw Hsame].
      apply initiating_refused; [done|done|left; by eapply at_race_same].
  - destruct Hfin as [(v & Hw & Hv & Hcb & Hop & Hreq) Hx Ht Hn].
    destruct e as [| |e]; cbn in Hpos; [rewrite Ht in Hpos; discriminate Hpos..|].
    eapply wp_mono; [by eapply (wp_other_event v)|]. intros ? s' [Hw' (Hx' & Ht' & Hn')].
    apply initiating_refused; [done|done|right]. split; [by exists v|congruence..].
  - destruct (race_candidates cands Hp) as (Hok & Hallowed & Hlast).
    eapply wp_mono; [by eapply (wp_race_event gi gs cands ucbs v0 initiate_input msg ctx early)|].
    intros ? s' [Hr' _]. by eapply initiating_race.
Qed.

Lemma initiating_steps g s g' s' : rtc step (g, s) (g', s') -> initiating g s -> initiating g' s'.
Proof.
  intros Hrun. remember (g, s) as x eqn:Hx. remember (g', s') as y eqn:Hy. revert g s Hx.
  induction Hrun as [x|x z y Hstep _ IH]; intros g s -> Hs; [by injection Hy as -> ->|].
  inversion Hstep as [? ? request g1 s1 Hin Hrun|? ? s1 (e & Hpos & Hrun)]; subst.
  - apply (IH eq_refl g1 s1 eq_refl). pose proof (wp_initiating_lookup _ _ _ Hs Hin) as Hw. unfold wp in Hw. rewrite Hrun in Hw. apply Hw.
  - apply (IH eq_refl g s1 eq_refl). pose proof (wp_initiating_event _ _ _ Hs Hpos) as Hw. unfold wp in Hw. by rewrite Hrun in Hw.
Qed.

(** *** What the application sees *)

Lemma initiating_silent g s : initiating g s -> g_dns_requests g <> [] -> notes s = [].
Proof. intros [base _ _ H|? _ _|? ? _ _ _] Hne; [apply H|done..]. Qed.

Lemma initiating_notes g s :
  initiating g s -> notes s = [] \/ notes s = failure_notes ucbs \/ exists c, notes s = notify (cb_ready ucbs) Ready c.
Proof.
  intros [base _ _ H|_ _ [H|H]|cands _ _ _ H]; [left; apply H|right; left; apply H..|]. by eapply race_ok_notes.
Qed.

Lemma initiating_over g s :
  initiating g s -> rs_context s = None ->
  g_dns_requests g = [] /\
  (over None (failure_notes ucbs) (v_cbs v0) s \/
   usable_candidates <> [] /\
   exists c, v_cbs v0 !! c = None /\ over (Some c) (notify (cb_ready ucbs) Ready c) (<[c := ucbs]> (v_cbs v0)) s).
Proof.
  intros [base _ _ H|Hno _ [H|H]|cands Hno [Hp _] Hne H] Hx; [by rewrite (ar_context _ _ _ _ _ _ _ _ _ H) in Hx..|by split; [|left]|].
  split; [done|]. destruct (race_ok_over _ _ _ _ _ _ _ _ H Hx) as [|(c & Hc)]; [by left|]. right. split; [|by exists c].
  intros Hnil. rewrite Hnil in Hp. by apply Permutation_nil_r in Hp.
Qed.

(** There is an order of completed lookups and events after which the context
    is freed. *)
Definition can_finish (g : gather) (s : race W) : Prop := exists g' s', rtc step (g, s) (g', s') /\ rs_context s' = None.

Lemma event_steps g s s' : rtc (race_step gi gs) s s' -> rtc step (g, s) (g, s').
Proof. induction 1 as [|s s1 s2 Hstep _ IH]; [done|]. eapply rtc_l; [by apply event_step|exact IH]. Qed.

Lemma initiating_progress g s : initiating g s -> can_finish g s.
Proof.
  remember (length (g_dns_requests g)) as n eqn:Hn. revert g s Hn. induction n as [n IH] using lt_wf_ind. intros g s -> Hs.
  pose proof Hs as [base Hg Hne H|Hno Hnil [H|H]|cands Hno [Hp _] Hne H].
  - destruct (g_dns_requests g) as [|request rs] eqn:Hreqs; [done|]. rewrite <- Hreqs in IH.
    assert (Hin : request ∈ g_dns_requests g) by (rewrite Hreqs; by left).
    destruct (proj1 (wp_ok _ _ _) (wp_initiating_lookup _ _ _ Hs Hin)) as (g' & s' & Hrun & Hs' & Hlt).
    destruct (IH _ Hlt g' s' eq_refl Hs') as (g2 & s2 & Hrun2 & Hx). exists g2, s2. split; [|done].
    eapply rtc_l; [by eapply lookup_step|exact Hrun2].
  - destruct (race_step_possible gi gs TimerCloseFinished s (fun s' => rs_context s' = None)) as (s' & Hstep & Hx).
    { cbn. by rewrite (ar_timer _ _ _ _ _ _ _ _ _ H). }
    { eapply wp_mono; [by eapply (wp_on_timer_close [] v0 _ _ _ _ None); [exact H|apply no_attempts_ok|done|done|apply nothing_requested]|]. by intros [] s' []. }
    exists g, s'. split; [|done]. by apply event_steps, rtc_once.
  - exists g, s. split; [done|apply H].
  - destruct (race_candidates cands Hp) as (Hok & Hallowed & Hlast).
    destruct (race_ok_can_end gi gs cands ucbs v0 initiate_input msg ctx early Happ Hsends Hearly Hok Hallowed Hlast s H) as (s' & Hrun & Hx).
    exists g, s'. split; [by apply event_steps|done].
Qed.

(** From the call on. *)
Lemma wp_start_candidate_racing w :
  rc_holds v0 w ->
  wp (start_candidate_racing gi gs tr sort uv gai uv_getaddrinfo precon framer ucbs msg ctx early)
    (fun r s => exists g, r = (0, Some g) /\ initiating g s) (before_race w).
Proof.
  intros Hw. unfold start_candidate_racing. wp_steps.
  eapply wp_mono; [by apply (wp_context_create ucbs v0 initiate_input msg ctx early)|]. intros ? s [-> Hs]. cbn [negb]. wp_steps.
  eapply wp_mono; [by eapply (wp_gathering_step _ (fun r => r.1 = 0 /\ in_progress r.2)); [exact gathering_called|by intros ? []|..]|].
  intros [rc g] s' [[Hrc _] Hs']. wp_steps. cbn in Hrc. subst. by exists g.
Qed.

(** What [initiating] says of a state, in the terms of the application. *)
Definition outcome_as_promised (g : gather) (s : race W) : Prop :=
  (forall request, request ∈ g_dns_requests g ->
     wp (race_lookup_done gi gs tr sort precon request.1 0 (dns request.2) g) (fun _ _ => True) s) /\
  (forall e, timer_possible e s = true -> wp (run_race_event gi gs e) (fun _ _ => True) s) /\
  (g_dns_requests g <> [] -> notes s = []) /\
  (notes s = [] \/ notes s = failure_notes ucbs \/ exists c, notes s = notify (cb_ready ucbs) Ready c) /\
  can_finish g s /\
  (rs_context s = None ->
     g_dns_requests g = [] /\
     (over None (failure_notes ucbs) (v_cbs v0) s \/
      usable_candidates <> [] /\
      exists c, v_cbs v0 !! c = None /\ over (Some c) (notify (cb_ready ucbs) Ready c) (<[c := ucbs]> (v_cbs v0)) s)).

Lemma initiating_promised g s : initiating g s -> outcome_as_promised g s.
Proof.
  intros H. split_and!.
  - intros request Hin. eapply wp_mono; [by apply wp_initiating_lookup|done].
  - intros e Hpos. eapply wp_mono; [by apply wp_initiating_event|done].
  - by apply initiating_silent.
  - by eapply initiating_notes.
  - by eapply initiating_progress.
  - by apply initiating_over.
Qed.

(** What the connections have been asked for so far, and what the application
    has been told. *)
Definition requests_as_promised (s : race W) : Prop :=
  exists v, rc_holds v (rs_world s) /\
    ((notes s = [] \/ notes s = failure_notes ucbs) /\ requested v0 msg ctx early None v \/
     exists c, notes s = notify (cb_ready ucbs) Ready c /\ requested v0 msg ctx early (Some c) v).

Lemma initiating_requested g s : initiating g s -> requests_as_promised s.
Proof.
  intros [base Hg Hne H|Hno Hnil [H|[(v & Hw & _ & _ & _ & Hreq) _ _ Hn]]|cands Hno _ _ H].
  - exists v0. split; [apply H|]. left. split; [left; apply H|apply nothing_requested].
  - exists v0. split; [apply H|]. left. split; [right; apply H|apply nothing_requested].
  - exists v. split; [exact Hw|]. left. split; [by right|exact Hreq].
  - by eapply race_ok_requested.
Qed.

Lemma wp_initiated w :
  rc_holds v0 w ->
  wp (start_candidate_racing gi gs tr sort uv gai uv_getaddrinfo precon framer ucbs msg ctx early)
    (fun r s0 => exists g0, r = (0, Some g0) /\
       forall g s, rtc step (g0, s0) (g, s) -> outcome_as_promised g s /\ requests_as_promised s)
    (before_race w).
Proof.
  intros Hw. eapply wp_mono; [by apply wp_start_candidate_racing|]. intros r s0 (g0 & -> & H0). exists g0. split; [done|].
  intros g s Hrun. eapply initiating_steps in Hrun; [|exact H0]. split; [by apply initiating_promised|by eapply initiating_requested].
Qed.
End initiate.

(** ** What gathering gives to the race *)

(** The system's answers, as documented: addresses are socket addresses, and
    getaddrinfo reports the family of each. *)
Definition answers_ok (uv : Z * list (string * sockaddr)) (dns : string -> list (Z * sockaddr)) : Prop :=
  interfaces_ok uv /\ forall host f a, (f, a) ∈ dns host -> wf_sockaddr a /\ ss_family a = f.

(** A preconnection that a connection can be initiated from: its parts are
    well formed, its local endpoints are unresolved or IP addresses, its remote
    endpoints names that can be looked up or IP addresses. *)
Record initiable (gai : string -> Z * list (Z * sockaddr)) (uv : Z * list (string * sockaddr)) (uv_getaddrinfo : string -> Z)
    (precon : gather_input) : Prop := {
  in_properties : props_ok (gi_transport_properties precon);
  in_security : sec_ok (gi_security_parameters precon);
  in_locals : Forall local_inet (gi_local_endpoints precon);
  in_paths : paths precon gai uv <> [];
  in_remotes : gi_remote_endpoints precon <> [];
  in_resolvable : Forall (resolvable gai uv_getaddrinfo) (gi_remote_endpoints precon);
  in_addresses : Forall (fun r => is_Some (re_hostname r) \/
    wf_sockaddr (re_resolved_address r) /\ is_inet (re_resolved_address r) = true) (gi_remote_endpoints precon);
  in_count : Z.of_nat (length (local_candidates precon gai uv) * length (gi_remote_endpoints precon)) < 2 ^ 64 }.

Section candidates.
Context (gai : string -> Z * list (Z * sockaddr)) (uv : Z * list (string * sockaddr)) (uv_getaddrinfo : string -> Z)
  (dns : string -> list (Z * sockaddr)) (precon : gather_input).
Context (Hanswers : answers_ok uv dns) (Hin : initiable gai uv uv_getaddrinfo precon).

Lemma path_inet e : e ∈ paths precon gai uv -> is_inet (le_resolved_address e) = true.
Proof. apply paths_inet; [apply Hanswers|apply (in_locals _ _ _ _ Hin)]. Qed.

Lemma resolution_inet r0 r :
  r0 ∈ gi_remote_endpoints precon -> r ∈ resolution gai dns r0 -> is_inet (re_resolved_address r) = true.
Proof.
  intros Hr0 Hr. unfold resolution in Hr. destruct (re_hostname r0) as [h|] eqn:Hh.
  - apply list_elem_of_omap in Hr as ([f a] & Ha & Hr). destruct (proj2 Hanswers h f a Ha) as [Hwf <-].
    unfold dns_endpoint in Hr. destruct (Z.eqb_spec (ss_family a) AF_INET) as [Hf|_];
      [|destruct (Z.eqb_spec (ss_family a) AF_INET6) as [Hf|_]; [|done]]; injection Hr as <-; cbn [re_resolved_address];
      apply is_inet_spec; rewrite family_set_port, memcpy_family; auto with ctaps; try (vm_compute; lia);
      (apply wf_memcpy; [vm_compute; lia|done|apply wf_sockaddr_zero]).
  - apply list_elem_of_singleton in Hr as ->. pose proof (in_addresses _ _ _ _ Hin) as Ha. rewrite Forall_elem in Ha.
    destruct (Ha r0 Hr0) as [[? Hs]|[Hwf Hi]]; [congruence|]. cbn [set_re_resolved_address re_resolved_address].
    rewrite <- Hi. by apply is_inet_family, set_port_if_inet_family.
Qed.

(** A usable candidate: its parts, and its protocol is a supported one that the
    selection properties allow. *)
Lemma usable_inv n :
  n ∈ usable_candidates precon gai uv dns ->
  candidate_ok n /\ forall p, cn_protocol_candidate n = Some p ->
    pc_protocol_impl p ∈ ct_supported_protocols /\
    protocol_implementation_supports_selection_properties (pc_protocol_impl p)
      (selection_properties (gi_transport_properties precon)) = true.
Proof.
  unfold usable_candidates, remote_candidates, local_candidates.
  intros [Hkeep (l & Hn & (d & -> & Hd)%list_elem_of_fmap)%list_elem_of_join]%list_elem_of_filter.
  apply list_elem_of_join in Hn as (l & Hn & (r0 & -> & Hr0)%list_elem_of_fmap). apply list_elem_of_fmap in Hn as (r & -> & Hr).
  apply list_elem_of_join in Hd as (l & Hd & (e & -> & He)%list_elem_of_fmap). apply list_elem_of_fmap in Hd as (c & -> & Hc).
  split.
  - split_and!; [by eexists|exists e; split; [done|by apply path_inet]|exists r; split; [done|by eapply resolution_inet]].
  - cbn. intros p [= <-]. cbn [pc_protocol_impl]. split.
    + unfold protocol_combinations in Hc. apply list_elem_of_join in Hc as (l & Hc & (i & -> & Hi)%list_elem_of_fmap).
      by apply list_elem_of_fmap in Hc as (a & -> & _).
    + unfold keep in Hkeep. apply andb_true_iff in Hkeep as [[_ Hk]%andb_true_iff _]. exact Hk.
Qed.
End candidates.

(** ** The calls of the application *)

Section application.
Context {W : Type} `{!RaceOps W, C : !RaceContract W}.
Context (gi : bytes -> Z) (gs : string -> Z).
Context (tr : traverse_order -> traverse_flags -> list gnode -> nat -> list nat) (Htr : traversal_ok tr).
Context (sort : (ct_candidate_node -> ct_candidate_node -> Z) -> list ct_candidate_node -> list ct_candidate_node)
  (Hsort : sort_ok sort).
Context (gai : string -> Z * list (Z * sockaddr)) (uv : Z * list (string * sockaddr)) (uv_getaddrinfo : string -> Z)
  (dns : string -> list (Z * sockaddr)) (Hanswers : answers_ok uv dns).
Context (p : ct_preconnection) (ucbs : ct_connection_callbacks) (v0 : RacingFacts.view).
Context (Hp : initiable gai uv uv_getaddrinfo (gather_input_of p)) (Happ : application ucbs) (Hst : v_stage v0 = ∅).

(** The protocols that the preconnection's properties allow can be raced. *)
Context (Hprotocols : forall impl, impl ∈ ct_supported_protocols ->
  protocol_implementation_supports_selection_properties impl (selection_properties (pr_transport_properties p)) = true ->
  rc_allows impl (initiate_input (gather_input_of p) (pr_framer_impl p)) /\ rc_fallible impl = false).

Lemma usable_covered :
  Forall (covered (gather_input_of p) (pr_framer_impl p)) (usable_candidates (gather_input_of p) gai uv dns).
Proof.
  apply Forall_elem. intros n Hn. destruct (usable_inv _ _ _ _ _ Hanswers Hp n Hn) as [Hok Hpr]. split; [done|].
  intros q Hq. destruct (Hpr q Hq) as [Hs Hsup]. by apply Hprotocols.
Qed.

(** What the call returns, and every state the loop can reach from there. *)
Definition initiated (promised : gather -> race W -> Prop) (r : Z * option gather) (s0 : race W) : Prop :=
  exists g0, r = (0, Some g0) /\
    forall g s, rtc (initiate_step gi gs tr sort (gather_input_of p) dns) (g0, s0) (g, s) -> promised g s.

#[local] Abbreviation outcome := (outcome_as_promised gi gs tr sort (gather_input_of p) gai uv dns ucbs v0).

Lemma wp_race_from msg ctx early w :
  (early = false -> is_Some msg -> rc_sends msg ctx) -> (early = true -> rc_sends_early msg ctx) -> rc_holds v0 w ->
  wp (start_candidate_racing gi gs tr sort uv gai uv_getaddrinfo (gather_input_of p) (pr_framer_impl p) ucbs msg ctx early)
    (initiated (fun g s => outcome msg ctx early g s /\ requests_as_promised ucbs v0 msg ctx early s)) (before_race w).
Proof.
  intros Hsends Hearly Hw. destruct Hp as [[Hwf Hsets] Hsec _ Hpaths Hrem Hres _ Hcount].
  apply (wp_initiated gi gs tr Htr sort Hsort (gather_input_of p) Hwf Hsets gai uv uv_getaddrinfo dns); try done.
  - intros sec Hs. rewrite Hs in Hsec. exact Hsec.
  - apply usable_covered.
Qed.

Lemma has_remotes : length (default [] (pr_remote_endpoints p)) <> 0%nat.
Proof. pose proof (in_remotes _ _ _ _ Hp) as Hr. intros Hl%length_zero_iff_nil. by destruct Hr. Qed.

(** C6: initiating a connection, from call to last event, for connections that
    meet [RaceContract] (so allocations succeed). Let the preconnection be
    initiable, the contract cover every protocol that its properties allow, none
    of which may fail synchronously, GLib and the system answer as documented,
    the callbacks be the application's own, and no connection owe an event.
    Every lookup succeeds (status 0; one that fails crashes:
    [dns_failure_crashes]). Then [ct_preconnection_initiate] returns 0, and
    however the completions of the lookups and the events that the contract
    covers are ordered, nothing has undefined behaviour; the application is not
    called while a lookup is outstanding, and is told at most once how it ended;
    some order of them always frees the context; and when it is freed, the
    application was told that nothing could be connected, and the contract knows
    the connections it knew before, or that one new connection is ready, which
    has its callbacks and is the only new one. *)
Theorem initiate_safe w :
  rc_holds v0 w ->
  wp (ct_preconnection_initiate tr sort uv gai uv_getaddrinfo gi gs (Some p) (Some ucbs))
    (initiated (outcome None None false)) (before_race w).
Proof.
  intros Hw. unfold ct_preconnection_initiate. rewrite bool_decide_false by apply has_remotes.
  eapply wp_mono; [apply wp_race_from; [by intros _ []|done|done]|]. intros r s0 (g0 & -> & Hall). exists g0. split; [done|].
  intros g s Hrun. by apply Hall.
Qed.

(** Copies made before there is a race. *)
Lemma wp_before_heap {A} (m : M heap A) P (Q : A -> race W -> Prop) w :
  rc_holds v0 w -> orderly m P -> (forall a w', P a -> rc_holds v0 w' -> Q a (before_race w')) ->
  wp (on_race_heap m) Q (before_race w).
Proof.
  intros Hw Hm HQ. unfold on_race_heap, in_world. wp_steps. eapply wp_mono; [by apply law_heap|]. intros a w' [HP Hw']. by apply HQ.
Qed.

Lemma orderly_message_copy m data :
  content_bytes m = Some data ->
  orderly (ct_message_deep_copy (Some m)) (eq (Some (Message (Some data) (msg_length m)))).
Proof.
  intros Hm h Hh. apply wp_message_deep_copy; [by eexists| |by intros h' _ []].
  intros c h' Hc [_ Ho]. split; [congruence|by apply Ho].
Qed.

Lemma orderly_context_copy ctx : orderly (ct_message_context_deep_copy ctx) (eq ctx).
Proof.
  intros h Hh. destruct ctx as [[]|]; cbn [ct_message_context_deep_copy]; wp_steps; [|done].
  apply wp_malloc. intros b o Ho. destruct (Ho Hh) as [-> Ho']. cbn [negb]. by wp_steps.
Qed.

(** A message that may be given to the attempts. *)
Definition replayable (ctx : option ct_message_context) : bool :=
  is_Some_b ctx && negb (ct_message_context_get MSG_SAFELY_REPLAYABLE ctx =? 0).

(** With a message: a copy of it and of its context is raced with. *)
Lemma wp_initiate_with_send m data ctx w :
  content_bytes m = Some data ->
  (forall m', content_bytes m' = Some data -> if replayable ctx then rc_sends_early (Some m') ctx else rc_sends (Some m') ctx) ->
  rc_holds v0 w ->
  wp (ct_preconnection_initiate_with_send tr sort uv gai uv_getaddrinfo gi gs (Some p) (Some ucbs) (Some m) ctx)
    (fun r s0 => exists copy, content_bytes copy = Some data /\
       initiated (fun g s => outcome (Some copy) ctx (replayable ctx) g s /\
         requests_as_promised ucbs v0 (Some copy) ctx (replayable ctx) s) r s0) (before_race w).
Proof.
  intros Hm Hsends Hw. unfold ct_preconnection_initiate_with_send. rewrite bool_decide_false by apply has_remotes.
  wp_steps. eapply wp_before_heap; [exact Hw|by eapply orderly_message_copy|]. intros ? w1 <- Hw1. cbn [is_Some_b negb andb]. wp_steps.
  eapply wp_before_heap; [exact Hw1|apply orderly_context_copy|]. intros ? w2 <- Hw2. rewrite andb_negb_r. wp_steps.
  pose proof (content_bytes_copy _ _ Hm) as Hcopy. specialize (Hsends _ Hcopy).
  fold (replayable ctx). destruct (replayable ctx); (eapply wp_mono; [by apply wp_race_from|]); intros r s0 Hr; by eexists.
Qed.
End application.

(** ** A message to send *)

Section message.
Context {W : Type} `{!RaceOps W, C : !RaceContract W}.
Context (gi : bytes -> Z) (gs : string -> Z).
Context (tr : traverse_order -> traverse_flags -> list gnode -> nat -> list nat) (Htr : traversal_ok tr).
Context (sort : (ct_candidate_node -> ct_candidate_node -> Z) -> list ct_candidate_node -> list ct_candidate_node)
  (Hsort : sort_ok sort).
Context (gai : string -> Z * list (Z * sockaddr)) (uv : Z * list (string * sockaddr)) (uv_getaddrinfo : string -> Z)
  (dns : string -> list (Z * sockaddr)) (Hanswers : answers_ok uv dns).
Context (p : ct_preconnection) (ucbs : ct_connection_callbacks) (v0 : RacingFacts.view).
Context (Hp : initiable gai uv uv_getaddrinfo (gather_input_of p)) (Happ : application ucbs) (Hst : v_stage v0 = ∅).
Context (Hprotocols : forall impl, impl ∈ ct_supported_protocols ->
  protocol_implementation_supports_selection_properties impl (selection_properties (pr_transport_properties p)) = true ->
  rc_allows impl (initiate_input (gather_input_of p) (pr_framer_impl p)) /\ rc_fallible impl = false).

(** What the record [l] of the operations says when [ns] is what the application
    has been told: the connections of the attempts have been initialised, with
    the message exactly when it is replayable; nothing else has been asked for
    unless one of them, [c], is the application's; then a message that is not
    replayable has been sent on [c], once, and if that failed the failure was
    reported. *)
Definition record_as_promised (copy : ct_message) (ctx : option ct_message_context) (l : list operation) (ns : list call) : Prop :=
  exists cs rest,
    l = ((if replayable ctx then fun c => InitialisedWith c (Some copy) ctx else Initialised) <$> cs) ++ rest /\
    ((ns = [] \/ ns = failure_notes ucbs) /\ rest = [] \/
     exists c, c ∈ cs /\ ns = notify (cb_ready ucbs) Ready c /\
       if replayable ctx then rest = []
       else exists rc, rest = SentMessage c (Some copy) ctx rc :: if rc =? 0 then [] else [RefusedMessage c ctx rc]).

(** C7: initiating a connection with a message, over connections that meet
    [RaceContract] and record the operations that concern the message. Under the
    hypotheses of [initiate_safe] (the lookups succeed, the contract covers the
    protocols), when the message has contents that the contract can send, and,
    for a replayable one, send early, [ct_preconnection_initiate_with_send]
    returns 0, and what [initiate_safe] says of every state that completed
    lookups and events lead to holds here. Moreover in each of them the record
    is this, for a copy of the message with the same bytes: when the context
    says that the message is safely replayable, every connection was initialised
    with the copy ([init_with_send]) and nothing was sent after that; otherwise
    every connection was initialised without it, nothing was sent as long as no
    connection was ready, and once one is ready the copy was sent on it, exactly
    once, and a return code other than 0 was reported with
    [ct_socket_manager_message_send_error_cb]. *)
Theorem initiate_with_send_safe m data ctx w :
  content_bytes m = Some data ->
  (forall m', content_bytes m' = Some data -> if replayable ctx then rc_sends_early (Some m') ctx else rc_sends (Some m') ctx) ->
  rc_holds v0 w -> v_log v0 = [] ->
  wp (ct_preconnection_initiate_with_send tr sort uv gai uv_getaddrinfo gi gs (Some p) (Some ucbs) (Some m) ctx)
    (fun r s0 => exists copy, content_bytes copy = Some data /\
       initiated gi gs tr sort dns p (fun g s =>
         outcome_as_promised gi gs tr sort (gather_input_of p) gai uv dns ucbs v0 (Some copy) ctx (replayable ctx) g s /\
         record_as_promised copy ctx (rd_log (rs_world s)) (notes s)) r s0)
    (before_race (Recorded w [])).
Proof.
  intros Hm Hsends Hw Hlog. eapply wp_mono.
  - apply (wp_initiate_with_send (RaceOps0 := recorded_ops) (C := recorded_contract) gi gs tr Htr sort Hsort gai uv uv_getaddrinfo dns Hanswers p ucbs v0 Hp Happ Hst
      Hprotocols m data ctx); [done|done|]. split; [done|by rewrite Hlog].
  - intros r s0 (copy & Hcopy & g0 & -> & Hall). exists copy. split; [done|]. exists g0. split; [done|]. intros g s Hrun.
    destruct (Hall g s Hrun) as [Hout (v & [_ Hl] & Hreq)]. split; [done|]. unfold record_as_promised. rewrite Hl. unfold requested in Hreq.
    rewrite Hlog in Hreq. cbn [app] in Hreq. unfold after_ready, initialisation in Hreq.
    destruct Hreq as [[Hn (cs & l & El & ->)]|(c & Hn & cs & l & El & Hc & Hl')]; exists cs.
    + exists []. rewrite El. split; [by destruct (replayable ctx)|]. by left.
    + exists l. rewrite El. split; [by destruct (replayable ctx)|]. right. exists c. split_and!; [done..|].
      by destruct (replayable ctx).
Qed.
End message.

(** ** The library's own connections *)

Section library.
Context `{!Picoquic, !Framers, !HashOrder}.
Context (names : id -> sockaddr) (Hnames : forall c, wf_sockaddr (names c) /\ is_inet (names c) = true).
#[local] Instance library_ops : RaceOps world := conn_race_ops names.
#[local] Instance library_contract : RaceContract world := conn_contract names Hnames.

(** C1: initiating a connection over the library's own protocols. Let the
    preconnection be initiable (well-formed properties and security parameters,
    a local path, remote endpoints that are IP addresses or names), without a
    framer, with properties that rule QUIC out (the candidates are then UDP's);
    let GLib and the system answer as documented, allocations and the calls of
    libuv succeed, and no connection exist. Every lookup succeeds (status 0; one
    that fails crashes: [dns_failure_crashes]). Then [ct_preconnection_initiate]
    returns 0; no order of completed lookups and loop events (stagger timer,
    connects, closed handles) has undefined behaviour; the application is not
    called before the last lookup is complete; and some order of these always
    frees the context. When it is freed, the application was told once that the
    establishment failed, and no object is left, or that a connection is ready,
    which is established, reads from an open socket, has its callbacks, and is
    the only one left. *)
Theorem initiate_ends_clean gi gs tr sort gai uv uv_getaddrinfo dns p ucbs w :
  traversal_ok tr -> sort_ok sort -> answers_ok uv dns -> initiable gai uv uv_getaddrinfo (gather_input_of p) ->
  pr_framer_impl p = None -> application ucbs ->
  protocol_implementation_supports_selection_properties quic_protocol_interface
    (selection_properties (pr_transport_properties p)) = false ->
  env_ok w -> no_objects w ->
  wp (ct_preconnection_initiate tr sort uv gai uv_getaddrinfo gi gs (Some p) (Some ucbs)) (fun r s0 =>
    exists g0, r = (0, Some g0) /\
      forall g s, rtc (initiate_step gi gs tr sort (gather_input_of p) dns) (g0, s0) (g, s) ->
        (forall request, request ∈ g_dns_requests g ->
           wp (race_lookup_done gi gs tr sort (gather_input_of p) request.1 0 (dns request.2) g) (fun _ _ => True) s) /\
        (forall e, timer_possible e s = true -> wp (run_race_event gi gs e) (fun _ _ => True) s) /\
        (g_dns_requests g <> [] -> notes s = []) /\
        (exists g' s', rtc (initiate_step gi gs tr sort (gather_input_of p) dns) (g, s) (g', s') /\ rs_context s' = None) /\
        (rs_context s = None ->
           g_dns_requests g = [] /\
           (notes s = failure_notes ucbs /\ no_objects (rs_world s) \/
            exists c, notes s = notify (cb_ready ucbs) Ready c /\ sole_connection c ucbs (rs_world s))))
    (before_race w).
Proof.
  intros Htr Hsort Hans Hin Hfr Happ Hquic He Hno. unfold ct_preconnection_initiate.
  rewrite bool_decide_false by (by eapply has_remotes). eapply wp_mono.
  - apply (wp_race_from gi gs tr Htr sort Hsort gai uv uv_getaddrinfo dns Hans p ucbs Simple.nothing Hin Happ eq_refl);
      [|by intros _ []|done|by apply conn_holds_nothing].
    intros impl Hs Hsup. split; [|done]. split_and!; [|apply Hin|apply Hin|done].
    unfold ct_supported_protocols in Hs. rewrite !elem_of_cons in Hs. destruct Hs as [->|[->|[->|[]%not_elem_of_nil]]];
      [by right|by left|congruence].
  - intros r s0 (g0 & -> & Hall). exists g0. split; [done|]. intros g s Hrun.
    destruct (Hall g s Hrun) as [(Hlook & Hev & Hsil & _ & Hend & Hover) _]. split_and!; [done..|].
    intros Hx. destruct (Hover Hx) as (Hdone & [[(v & Hv & _ & Hcb & _) _ _ Hn]|(_ & c & _ & [(v & Hv & _ & Hcb & Hop & _) _ _ Hn])]);
      (split; [done|]).
    + left. split; [exact Hn|]. by eapply nothing_left.
    + right. exists c. split; [exact Hn|]. eapply (one_left names Hnames); [exact Hv|exact Hcb|by apply Hop].
Qed.
End library.

(** ** A concrete preconnection *)

Module Datagrams.
Import Lifecycle.Idle RacingSimple.Simple.

(** Properties that only UDP has: message boundaries, and neither reliability
    nor order nor congestion control. *)
Definition datagrams : ct_selection_properties := fun q =>
  match q with
  | RELIABILITY => pref_row "reliability" NO_PREFERENCE
  | PRESERVE_ORDER => pref_row "preserveOrder" NO_PREFERENCE
  | CONGESTION_CONTROL => pref_row "congestionControl" NO_PREFERENCE
  | PRESERVE_MSG_BOUNDARIES => pref_row "preserveMsgBoundaries" REQUIRE
  | q => DEFAULT_SELECTION_PROPERTIES q
  end.

Definition preconnection : ct_preconnection :=
  PreconnectionOf (TransportProperties datagrams DEFAULT_CONNECTION_PROPERTIES) None None (Some sample_remotes) None.

Lemma datagrams_ok : props_ok (pr_transport_properties preconnection).
Proof.
  split; [by intros []|]. intros [] s; cbn; intros [= <-]; constructor.
Defined.

Lemma only_udp impl :
  impl ∈ ct_supported_protocols -> protocol_implementation_supports_selection_properties impl datagrams = true ->
  impl = udp_protocol_interface.
Proof.
  unfold ct_supported_protocols. rewrite !elem_of_cons. by intros [->|[->|[->|[]%not_elem_of_nil]]].
Defined.

Lemma sample_answers : answers_ok one_interface sample_dns.
Proof.
  split; [constructor; [apply loopback_v4_wf|constructor]|]. intros host f a [= -> ->]%list_elem_of_singleton.
  split; [apply loopback_v4_wf|by vm_compute].
Defined.

Lemma preconnection_initiable : initiable no_services one_interface (fun _ => 0) (gather_input_of preconnection).
Proof.
  split; [apply datagrams_ok|done|done|vm_compute; congruence|done|exact sample_resolvable| |vm_compute; reflexivity].
  apply list.Forall_cons; split; [right; split; [apply loopback_v4_wf|by vm_compute]|].
  apply list.Forall_cons; split; [left; by eexists|constructor].
Defined.

(** The lookups complete in turn. *)
Fixpoint complete_lookups {W} `{!RaceOps W} (l : list (nat * string)) (g : gather) : M (race W) gather :=
  match l with
  | [] => mret g
  | q :: l =>
      g ← race_lookup_done hash (fun _ => 1) level_traverse (@insertion_sort _) (gather_input_of preconnection)
            q.1 0 (sample_dns q.2) g;
      complete_lookups l g
  end.

(** The call returns with a lookup of the name outstanding for each of the
    three protocols; when they are complete, UDP is left with the address and
    what the name resolves to, and the first is ready at once. *)
Example initiated_and_ready :
  let ops := ctaps_race_ops in
  match ('(rc, g) ← ct_preconnection_initiate (W := world) level_traverse (@insertion_sort _) one_interface no_services (fun _ => 0)
               hash (fun _ => 1) (Some preconnection) (Some application_callbacks);
         g ← deref g "no gathering";
         s ← get;
         let silent := rs_calls s in
         g' ← complete_lookups (g_dns_requests g) g;
         run_race_event (W := world) hash (fun _ => 1) TimerCloseFinished ;;
         mret (rc, length (g_dns_requests g), silent, g_dns_requests g')) (before_race empty_world) with
  | Ok (r, s) => Some (r, rs_calls s, rs_context s, map_to_list (cn_state <$> w_connections (rs_world s)))
  | UB _ => None
  end = Some (0, 3%nat, [], [], [CallConnection (user_fn 2) Ready (Some 1%positive)], None, [(1%positive, CT_CONN_STATE_ESTABLISHED)]).
Proof. vm_compute. reflexivity. Qed.

Lemma simple_protocols impl :
  impl ∈ ct_supported_protocols -> protocol_implementation_supports_selection_properties impl datagrams = true ->
  rc_allows (W := simple) impl (initiate_input (gather_input_of preconnection) None) /\ rc_fallible (W := simple) impl = false.
Proof. intros Hs Hsup. by rewrite (only_udp impl Hs Hsup). Defined.

Lemma conn_protocols impl :
  impl ∈ ct_supported_protocols -> protocol_implementation_supports_selection_properties impl datagrams = true ->
  conn_allows impl (initiate_input (gather_input_of preconnection) None) /\ false = false.
Proof.
  intros Hs Hsup. rewrite (only_udp impl Hs Hsup). split; [|done]. split_and!; [by right|apply datagrams_ok|done|done].
Defined.

Lemma empty_world_holds : conn_holds nothing empty_world.
Proof. by apply conn_holds_nothing; [split_and!; [by constructor|by constructor|done]|]. Defined.

(** Over the simple connections and over the library's own. *)
Lemma initiate_safe_witness :
  wp (ct_preconnection_initiate (W := simple) level_traverse (@insertion_sort _) one_interface no_services (fun _ => 0)
        hash (fun _ => 1) (Some preconnection) (Some application_callbacks))
     (initiated hash (fun _ => 1) level_traverse (@insertion_sort _) sample_dns preconnection
        (outcome_as_promised hash (fun _ => 1) level_traverse (@insertion_sort _) (gather_input_of preconnection) no_services
           one_interface sample_dns application_callbacks nothing None None false))
     (before_race nothing_yet) /\
  let ops := library_ops Races.some_name in
  let contract := library_contract Races.some_name Races.some_name_ok in
  wp (ct_preconnection_initiate (W := world) level_traverse (@insertion_sort _) one_interface no_services (fun _ => 0)
        hash (fun _ => 1) (Some preconnection) (Some application_callbacks))
     (initiated hash (fun _ => 1) level_traverse (@insertion_sort _) sample_dns preconnection
        (outcome_as_promised hash (fun _ => 1) level_traverse (@insertion_sort _) (gather_input_of preconnection) no_services
           one_interface sample_dns application_callbacks nothing None None false))
     (before_race empty_world).
Proof.
  split.
  - apply (initiate_safe hash (fun _ => 1) level_traverse level_traverse_ok (@insertion_sort _) insertion_sort_ok no_services
      one_interface (fun _ => 0) sample_dns sample_answers preconnection application_callbacks nothing preconnection_initiable
      application_callbacks_ok eq_refl simple_protocols nothing_yet nothing_yet_holds).
  - intros ops contract.
    apply (initiate_safe (C := contract) hash (fun _ => 1) level_traverse level_traverse_ok (@insertion_sort _) insertion_sort_ok no_services
      one_interface (fun _ => 0) sample_dns sample_answers preconnection application_callbacks nothing preconnection_initiable
      application_callbacks_ok eq_refl conn_protocols empty_world empty_world_holds).
Defined.

Definition hello : ct_message := Message (Some [104; 105]) 2.

(** A message context that says that the message may be replayed. *)
Definition replayable_context : option ct_message_context :=
  ct_message_context_set MSG_SAFELY_REPLAYABLE (Some (MessageContext DEFAULT_MESSAGE_PROPERTIES None None None)) 1.

Lemma replayable_or_not : replayable replayable_context = true /\ replayable None = false.
Proof. by vm_compute. Defined.

(** Over UDP, with the program's own operations: the first candidate is ready
    at once, and libuv is asked to send the two bytes, after the
    initialisation or, when they are replayable, in it. *)
Definition hello_over_udp (ctx : option ct_message_context) :=
  let ops := ctaps_race_ops in
  match ('(rc, g) ← ct_preconnection_initiate_with_send (W := recorded world) level_traverse (@insertion_sort _) one_interface
               no_services (fun _ => 0) hash (fun _ => 1) (Some preconnection) (Some application_callbacks) (Some hello) ctx;
         g ← deref g "no gathering";
         complete_lookups (g_dns_requests g) g) (before_race (Recorded empty_world [])) with
  | Ok (_, s) =>
      Some (rs_calls s,
        map (fun o => match o with
                      | Initialised _ => ("init", None)
                      | InitialisedWith _ m _ => ("init_with_send", m ≫= content_bytes)
                      | SentMessage _ m _ _ => ("send", m ≫= content_bytes)
                      | RefusedMessage _ _ _ => ("send error", None)
                      end) (rd_log (rs_world s)),
        map (fun r => match r.2 with UdpSendRequest (Some d) => sd_message d ≫= content_bytes | _ => None end)
          (map_to_list (w_requests (rd_world (rs_world s)))))
  | UB _ => None
  end%string.

Example hello_after_ready :
  hello_over_udp None =
  Some ([CallConnection (user_fn 2) Ready (Some 1%positive)], [("init", None); ("send", Some [104; 105])], [Some [104; 105]])%string.
Proof. vm_compute. reflexivity. Qed.

Example hello_early :
  hello_over_udp replayable_context =
  Some ([CallConnection (user_fn 2) Ready (Some 1%positive)], [("init_with_send", Some [104; 105])], [Some [104; 105]])%string.
Proof. vm_compute. reflexivity. Qed.

(** A message that is replayable and one that is not, over the simple
    connections, and the latter over the library's own. *)
Definition sends_hello `{!RaceOps W, C : !RaceContract W} (ctx : option ct_message_context) (w : W) : Prop :=
  wp (ct_preconnection_initiate_with_send (W := recorded W) level_traverse (@insertion_sort _) one_interface no_services
        (fun _ => 0) hash (fun _ => 1) (Some preconnection) (Some application_callbacks) (Some hello) ctx)
     (fun r s0 => exists copy, content_bytes copy = Some [104; 105] /\
        initiated hash (fun _ => 1) level_traverse (@insertion_sort _) sample_dns preconnection (fun g s =>
          outcome_as_promised hash (fun _ => 1) level_traverse (@insertion_sort _) (gather_input_of preconnection) no_services
            one_interface sample_dns application_callbacks nothing (Some copy) ctx (replayable ctx) g s /\
          record_as_promised application_callbacks copy ctx (rd_log (rs_world s)) (notes s)) r s0)
     (before_race (Recorded w [])).

Lemma initiate_with_send_safe_witness :
  content_bytes hello = Some [104; 105] /\
  sends_hello replayable_context nothing_yet /\ sends_hello None nothing_yet /\
  let ops := library_ops Races.some_name in
  let contract := library_contract Races.some_name Races.some_name_ok in
  sends_hello None empty_world.
Proof.
  split_and!; [reflexivity|..].
  - apply (initiate_with_send_safe hash (fun _ => 1) level_traverse level_traverse_ok (@insertion_sort _) insertion_sort_ok
      no_services one_interface (fun _ => 0) sample_dns sample_answers preconnection application_callbacks nothing
      preconnection_initiable application_callbacks_ok eq_refl simple_protocols hello [104; 105] replayable_context nothing_yet
      eq_refl); [by intros ? _|exact nothing_yet_holds|done].
  - apply (initiate_with_send_safe hash (fun _ => 1) level_traverse level_traverse_ok (@insertion_sort _) insertion_sort_ok
      no_services one_interface (fun _ => 0) sample_dns sample_answers preconnection application_callbacks nothing
      preconnection_initiable application_callbacks_ok eq_refl simple_protocols hello [104; 105] None nothing_yet eq_refl);
      [by intros ? _|exact nothing_yet_holds|done].
  - intros ops contract.
    apply (initiate_with_send_safe (C := contract) hash (fun _ => 1) level_traverse level_traverse_ok (@insertion_sort _)
      insertion_sort_ok no_services one_interface (fun _ => 0) sample_dns sample_answers preconnection application_callbacks nothing
      preconnection_initiable application_callbacks_ok eq_refl conn_protocols hello [104; 105] None empty_world eq_refl);
      [intros m' Hm'; by exists m', [104; 105]|exact empty_world_holds|done].
Defined.

Lemma initiate_ends_clean_witness :
  let ops := library_ops Races.some_name in
  wp (ct_preconnection_initiate (W := world) level_traverse (@insertion_sort _) one_interface no_services (fun _ => 0)
        hash (fun _ => 1) (Some preconnection) (Some application_callbacks)) (fun r s0 =>
    exists g0, r = (0, Some g0) /\
      forall g s, rtc (initiate_step hash (fun _ => 1) level_traverse (@insertion_sort _) (gather_input_of preconnection) sample_dns)
                    (g0, s0) (g, s) ->
        (forall request, request ∈ g_dns_requests g ->
           wp (race_lookup_done hash (fun _ => 1) level_traverse (@insertion_sort _) (gather_input_of preconnection) request.1 0
                 (sample_dns request.2) g) (fun _ _ => True) s) /\
        (forall e, timer_possible e s = true -> wp (run_race_event hash (fun _ => 1) e) (fun _ _ => True) s) /\
        (g_dns_requests g <> [] -> notes s = []) /\
        (exists g' s',
           rtc (initiate_step hash (fun _ => 1) level_traverse (@insertion_sort _) (gather_input_of preconnection) sample_dns)
             (g, s) (g', s') /\ rs_context s' = None) /\
        (rs_context s = None ->
           g_dns_requests g = [] /\
           (notes s = failure_notes application_callbacks /\ no_objects (rs_world s) \/
            exists c, notes s = notify (cb_ready application_callbacks) Ready c /\
              sole_connection c application_callbacks (rs_world s))))
    (before_race empty_world).
Proof.
  apply (initiate_ends_clean Races.some_name Races.some_name_ok hash (fun _ => 1) level_traverse (@insertion_sort _) no_services
    one_interface (fun _ => 0) sample_dns preconnection application_callbacks empty_world level_traverse_ok insertion_sort_ok
    sample_answers preconnection_initiable eq_refl application_callbacks_ok);
    [by vm_compute|split_and!; [by constructor|by constructor|done]|done].
Defined.
End Datagrams.
