(* ===== verification/Library.v ===== *)
(** The library as a whole (src/src/state/ctaps_state.c).

    Its state is the libuv loop in the global [event_loop], the logger
    (Logging) and the open log files, beside the objects on the loop, the
    [world]. *)

From S2P Require Export Lifecycle Logging.
Open Scope Z_scope.

(** The pointer [event_loop]: NULL, a block that [uv_loop_init] has not
    initialised, a loop, or a freed block. *)
Inductive loop_pointer : Type := LoopNull | LoopRaw | LoopReady | LoopFreed.

Record process : Type := Process {
  ps_world : world;
  ps_logger : logger;
  ps_event_loop : loop_pointer;
  ps_fopen : list (option positive); (* what [fopen] will return; exhausted: NULL *)
  ps_files : list positive }.        (* the open files, latest first *)

Definition set_ps_world x (p : process) := Process x (ps_logger p) (ps_event_loop p) (ps_fopen p) (ps_files p).
Definition set_ps_logger x (p : process) := Process (ps_world p) x (ps_event_loop p) (ps_fopen p) (ps_files p).
Definition set_ps_event_loop x (p : process) := Process (ps_world p) (ps_logger p) x (ps_fopen p) (ps_files p).
Definition set_ps_fopen x (p : process) := Process (ps_world p) (ps_logger p) (ps_event_loop p) x (ps_files p).
Definition set_ps_files x (p : process) := Process (ps_world p) (ps_logger p) (ps_event_loop p) (ps_fopen p) x.

Definition on_world {A} (m : M world A) : M process A := zoom ps_world set_ps_world m.
Definition on_logger {A} (m : M logger A) : M process A := zoom ps_logger set_ps_logger m.

Definition UV_EBUSY : Z := -16.

Section library.
(** [uv_strerror], the loop of libuv, and [__FILE__]. *)
Context (uv_strerror : Z -> string) (uv_run : M world Z) (ctaps_state_c : string).

(** [uv_loop_init] writes the loop; its code is the environment's. *)
Definition uv_loop_init : M process Z :=
  p ← get;
  match ps_event_loop p with
  | LoopNull => ub "NULL loop"
  | LoopFreed => ub "freed loop"
  | LoopRaw | LoopReady =>
      rc ← on_world uv_rc;
      when (0 <=? rc) (modify (set_ps_event_loop LoopReady)) ;;
      mret rc
  end.

(** [uv_loop_close] refuses a loop that has handles or requests. *)
Definition idle (w : world) : bool := bool_decide (w_handles w = ∅ /\ w_requests w = ∅).
Definition uv_loop_close : M process Z :=
  p ← get;
  match ps_event_loop p with
  | LoopNull => ub "NULL loop"
  | LoopRaw => ub "uninitialised loop"
  | LoopFreed => ub "freed loop"
  | LoopReady =>
      if idle (ps_world p) then modify (set_ps_event_loop LoopRaw) ;; mret 0 else mret UV_EBUSY
  end.

(** [free(event_loop)]; the variable keeps its value. *)
Definition free_event_loop : M process unit :=
  p ← get;
  match ps_event_loop p with
  | LoopNull => mret tt
  | LoopFreed => ub "double free"
  | LoopRaw | LoopReady => on_world (on_heap free_block) ;; modify (set_ps_event_loop LoopFreed)
  end.

Definition fopen_append (path : string) : M process (option positive) :=
  p ← get;
  match ps_fopen p with
  | Some f :: l => modify (set_ps_fopen l) ;; modify (set_ps_files (f :: ps_files p)) ;; mret (Some f)
  | None :: l => modify (set_ps_fopen l) ;; mret None
  | [] => mret None
  end.

Definition ct_initialize : M process Z :=
  on_logger (log_set_level LOG_INFO) ;;
  ok ← on_world (on_heap malloc);
  modify (set_ps_event_loop (if ok : bool then LoopRaw else LoopNull)) ;;
  rc ← uv_loop_init;
  if rc <? 0 then
    on_logger (log_log LOG_ERROR ctaps_state_c 17 ("Error initializing libuv event loop: " +:+ uv_strerror rc)) ;;
    free_event_loop ;;
    mret rc
  else mret 0.

Definition ct_close : M process Z :=
  rc ← uv_loop_close;
  if rc <? 0 then
    on_logger (log_log LOG_ERROR ctaps_state_c 28 ("Error closing libuv event loop: " +:+ uv_strerror rc)) ;;
    mret rc
  else
    free_event_loop ;;
    on_logger (log_log LOG_INFO ctaps_state_c 32 "Successfully closed CTaps") ;;
    mret 0.

Definition ct_start_event_loop : M process Z :=
  on_logger (log_log LOG_INFO ctaps_state_c 37 "Starting the libuv event event_loop...") ;;
  on_world uv_run.

Definition ct_set_log_level (level : Z) : M process unit := on_logger (log_set_level level).

Definition ct_add_log_file (file_path : string) (min_level : Z) : M process Z :=
  fp ← fopen_append file_path;
  match fp with
  | None => mret (-1)
  | Some f => on_logger (log_add_fp (File f) min_level)
  end.

(** ** Sessions *)

(** The logger is well formed: it holds a registry, and the clock shows
    times. *)
Definition logging (rg : registry) (p : process) : Prop := holds (ps_logger p) rg /\ Forall wf_tm (lg_clock (ps_logger p)).
Definition at_info (rg : registry) : registry := Registry (rg_lock rg) LOG_INFO (rg_quiet rg) (rg_sinks rg).

Definition live_of (p : process) : Z := h_live (w_heap (ps_world p)).

Lemma wp_library_log level line text rg (Q : unit -> process -> Prop) p :
  logging rg p -> is_level level ->
  (forall lg', let p' := set_ps_logger lg' p in logging rg p' ->
     lg_effects lg' = lg_effects (ps_logger p) ++
       message_effects rg (hd epoch (lg_clock (ps_logger p))) (LogEvent text ctaps_state_c line level None None) -> Q tt p') ->
  wp (on_logger (log_log level ctaps_state_c line text)) Q p.
Proof.
  intros [Hh Hclock] Hlevel HQ. apply wp_zoom. eapply wp_mono; [by apply (wp_log_log _ _ _ _ rg)|]. intros [] lg' ->.
  apply HQ; [|done]. split; [by apply holds_after|]. cbn. destruct (_ || _); [|done]. destruct (lg_clock (ps_logger p)); [done|by inversion Hclock].
Qed.

Lemma wp_uv_loop_init (Q : Z -> process -> Prop) p :
  ps_event_loop p = LoopRaw ->
  Q (next_rc (ps_world p)) (set_ps_event_loop (if 0 <=? next_rc (ps_world p) then LoopReady else LoopRaw)
    (set_ps_world (set_w_uv (tail (w_uv (ps_world p))) (ps_world p)) p)) ->
  wp uv_loop_init Q p.
Proof.
  intros Hp HQ. unfold uv_loop_init, on_world. wp_steps. rewrite Hp. wp_steps. unfold uv_rc, next_rc in *. wp_steps.
  destruct p as [[] lg lp fo fi]. cbn in *. destruct w_uv as [|rc l]; cbn in *; wp_steps.
  - by subst lp.
  - destruct (0 <=? rc); cbn in *; wp_steps; by subst lp.
Qed.

(** The heap after an allocation, and the process after [ct_initialize]. *)
Definition one_more (h : heap) : heap := Heap (tail (h_oracle h)) (h_live h + 1).
Lemma wp_malloc_ok (Q : bool -> heap -> Prop) h : oracle_ok h -> Q true (one_more h) -> wp malloc Q h.
Proof.
  unfold oracle_ok, one_more, wp, malloc. destruct h as [[|b o] live]; cbn; [done|]. by intros [-> _]%Forall_cons_1.
Qed.

Definition initialized (p : process) : process :=
  Process (set_w_uv (tail (w_uv (ps_world p))) (set_w_heap (one_more (w_heap (ps_world p))) (ps_world p)))
    (set_lg_level LOG_INFO (ps_logger p)) LoopReady (ps_fopen p) (ps_files p).

Lemma wp_ct_initialize rg (Q : Z -> process -> Prop) p :
  logging rg p -> oracle_ok (w_heap (ps_world p)) ->
  (0 <= next_rc (ps_world p) -> Q 0 (initialized p)) ->
  (forall p', next_rc (ps_world p) < 0 -> live_of p' = live_of p -> ps_event_loop p' = LoopFreed -> ps_files p' = ps_files p ->
     w_handles (ps_world p') = w_handles (ps_world p) -> logging (at_info rg) p' -> Q (next_rc (ps_world p)) p') ->
  wp ct_initialize Q p.
Proof.
  intros [Hh Hclock] Ho Hok Hfail. unfold ct_initialize, log_set_level. wp_steps. apply wp_zoom. wp_steps. apply wp_zoom, wp_on_heap.
  apply wp_malloc_ok; [exact Ho|]. wp_steps. apply wp_uv_loop_init; [done|].
  cbn [ps_world set_ps_world set_ps_event_loop set_ps_logger].
  change (next_rc (set_w_heap _ (ps_world p))) with (next_rc (ps_world p)). destruct (Z.ltb_spec (next_rc (ps_world p)) 0) as [Hrc|Hrc].
  - rewrite (proj2 (Z.leb_gt _ _)) by done. wp_steps.
    apply (wp_library_log _ _ _ (at_info rg)); [split; [by destruct Hh; split|done]|by vm_compute|]. cbn zeta. intros lg' Hlg _.
    wp_steps. unfold free_event_loop, on_world, on_heap, free_block. wp_steps. cbn [ps_event_loop set_ps_logger]. wp_steps.
    apply Hfail; [done|unfold live_of; cbn; lia|done..].
  - rewrite (proj2 (Z.leb_le _ _)) by done. wp_steps. by apply Hok.
Qed.

(** [ct_close]: the loop is closed and freed if nothing is on it, and kept
    otherwise. *)
Lemma wp_ct_close rg p :
  logging rg p -> ps_event_loop p = LoopReady ->
  wp ct_close (fun rc p' =>
    (w_handles (ps_world p') = w_handles (ps_world p) /\ w_requests (ps_world p') = w_requests (ps_world p) /\ ps_files p' = ps_files p /\ logging rg p')
    /\ if idle (ps_world p) then rc = 0 /\ ps_event_loop p' = LoopFreed /\ live_of p' = live_of p - 1
       else rc = UV_EBUSY /\ ps_event_loop p' = LoopReady /\ ps_world p' = ps_world p) p.
Proof.
  intros Hlog Hp. unfold ct_close, uv_loop_close. wp_steps. rewrite Hp. destruct (idle (ps_world p)) eqn:Hi; wp_steps.
  - change (0 <? 0) with false. cbn iota. wp_steps.
    unfold free_event_loop, on_world, on_heap, free_block. wp_steps. cbn [ps_event_loop set_ps_event_loop]. wp_steps.
    eapply (wp_library_log _ _ _ rg); [exact Hlog|by vm_compute|]. cbn zeta. intros lg' Hlg _. wp_steps. unfold live_of. cbn.
    split_and!; try done; lia.
  - change (UV_EBUSY <? 0) with true. cbn iota. wp_steps.
    eapply (wp_library_log _ _ _ rg); [exact Hlog|by vm_compute|]. cbn zeta. intros lg' Hlg _. by wp_steps.
Qed.

(** A program over the library. *)
Definition session (use : M process unit) : M process Z :=
  rc ← ct_initialize;
  if rc <? 0 then mret rc else use ;; ct_close.

(** C26: a session of the library, when allocations succeed.  If
    [uv_loop_init] fails, its code is returned, the block of the loop is
    released and the program does not run.  Otherwise the level of the log is
    [LOG_INFO], whatever it was before, the program runs on a loop, and
    [ct_close] closes and releases the loop if no handle and no request is
    left on it, so that a program that has freed what it made leaves the heap
    as it was; if something is left, it reports [UV_EBUSY] and keeps the loop.
    Log files stay open in every case. *)
Theorem library_session (use : M process unit) rg p :
  logging rg p -> oracle_ok (w_heap (ps_world p)) ->
  wp use (fun _ p2 => ps_event_loop p2 = LoopReady /\ exists rg2, logging rg2 p2) (initialized p) ->
  lg_level (ps_logger (initialized p)) = LOG_INFO /\
  wp (session use) (fun rc p' =>
    if next_rc (ps_world p) <? 0
    then rc = next_rc (ps_world p) /\ ps_event_loop p' = LoopFreed /\ live_of p' = live_of p /\ ps_files p' = ps_files p
    else exists p2, use (initialized p) = Ok (tt, p2) /\ ps_files p' = ps_files p2 /\
      if idle (ps_world p2)
      then rc = 0 /\ ps_event_loop p' = LoopFreed /\ live_of p' = live_of p + (live_of p2 - live_of (initialized p))
      else rc = UV_EBUSY /\ ps_event_loop p' = LoopReady /\ ps_world p' = ps_world p2) p.
Proof.
  intros Hlog Ho Huse. split; [done|]. unfold session. wp_steps. eapply wp_ct_initialize; [exact Hlog|exact Ho|..].
  - intros Hrc. rewrite !(proj2 (Z.ltb_ge _ _)) by done. wp_steps. apply wp_ok in Huse as ([] & p2 & E & Hp2 & rg2 & Hlog2).
    apply wp_ok. exists tt, p2. split; [exact E|]. eapply wp_mono; [by apply (wp_ct_close rg2)|]. intros rc p' [(_ & _ & Hf & _) Hout].
    exists p2. split_and!; [done|done|]. destruct (idle (ps_world p2)); [|done]. destruct Hout as (-> & Hl & Hlive).
    split_and!; [done..|]. rewrite Hlive. unfold live_of, initialized, one_more. cbn. lia.
  - intros p' Hrc Hlive Hl Hf _ _. rewrite !(proj2 (Z.ltb_lt _ _)) by done. by wp_steps.
Qed.
End library.

(** ** Outside a session *)

Section misuse.
Context (uv_strerror : Z -> string) (ctaps_state_c : string).

(** The variable [event_loop] keeps its value when the loop is freed: a second
    [ct_close], and a [ct_close] after a failed [ct_initialize], use the
    freed loop. *)
Lemma close_of_freed_loop_faults p : ps_event_loop p = LoopFreed -> aborts (ct_close uv_strerror ctaps_state_c) p.
Proof. intros Hp. exists "freed loop"%string. unfold ct_close, uv_loop_close, mbind, M_bind, get. by rewrite Hp. Qed.

(** The result of [malloc] is not checked. *)
Lemma initialize_without_memory_faults p o :
  h_oracle (w_heap (ps_world p)) = false :: o -> aborts (ct_initialize uv_strerror ctaps_state_c) p.
Proof.
  intros Ho. exists "NULL loop"%string. destruct p as [w lg lp fo fi]. destruct w as [[h live]]. cbn in Ho. by subst h.
Qed.

(** A level set before [ct_initialize] is lost. *)
Lemma level_before_initialize_lost level rg p :
  logging rg p -> oracle_ok (w_heap (ps_world p)) -> next_rc (ps_world p) = 0 ->
  wp (ct_set_log_level level ;; ct_initialize uv_strerror ctaps_state_c) (fun _ p' => lg_level (ps_logger p') = LOG_INFO) p.
Proof.
  intros [Hh Hclock] Ho Hu. unfold ct_set_log_level, log_set_level. wp_steps. apply wp_zoom. wp_steps.
  eapply (wp_ct_initialize _ _ (Registry (rg_lock rg) level (rg_quiet rg) (rg_sinks rg))); [|exact Ho|done|].
  - split; [by destruct Hh; split|done].
  - intros p' Hrc. change (next_rc (ps_world p) < 0) in Hrc. lia.
Qed.

(** With 32 destinations a log file is opened, refused and never closed. *)
Lemma refused_log_file_leaks path level rg p f l :
  logging rg p -> length (rg_sinks rg) = MAX_CALLBACKS -> ps_fopen p = Some f :: l ->
  wp (ct_add_log_file path level) (fun rc p' => rc = -1 /\ ps_files p' = f :: ps_files p /\ logging rg p') p.
Proof.
  intros [Hh Hclock] Hlen Hf. unfold ct_add_log_file, fopen_append, log_add_fp. wp_steps. rewrite Hf. wp_steps. apply wp_zoom.
  eapply wp_mono; [by apply (wp_log_add_callback _ _ _ (FileSink (File f) level))|]. intros rc lg'. unfold add_sink. rewrite Hlen.
  cbn [fst snd Nat.ltb Nat.leb MAX_CALLBACKS]. intros (-> & Hh' & _ & Hc). split_and!; [done|done|]. split; [done|]. cbn. by rewrite Hc.
Qed.
End misuse.

(** ** A concrete session *)

Module Session.
Import Lifecycle.Idle.

Definition some_process : process := Process empty_world (initial_logger [noon; noon]) LoopNull [Some 1%positive] [].
(** A log file, and a connection over UDP from creation to release. *)
Definition some_use : M process unit :=
  ct_add_log_file "ctaps.log" LOG_WARN ;;
  on_world (udp_life udp_protocol_interface [some_local] 0 [some_remote 80] 0 some_properties None some_callbacks None) ;;
  mret tt.

(** What is left of it. *)
Lemma some_use_ends :
  wp some_use (fun _ p2 => ps_event_loop p2 = LoopReady /\ ps_files p2 = [1%positive] /\ idle (ps_world p2) = true
    /\ live_of p2 = 1 - endpoint_blocks [some_local] [some_remote 80]
    /\ ps_logger p2 = Logger None None LOG_INFO false (callback_of (FileSink (File 1) LOG_WARN) :: replicate 31 empty_callback) [noon; noon] [])
    (initialized some_process).
Proof. vm_compute. by split_and!. Qed.

Lemma library_session_witness :
  wp (session (fun _ => "error"%string) "ctaps_state.c" some_use)
    (fun rc p' => rc = 0 /\ ps_event_loop p' = LoopFreed /\ live_of p' = - endpoint_blocks [some_local] [some_remote 80] /\ ps_files p' = [1%positive])
    some_process.
Proof.
  destruct (library_session (fun _ => "error"%string) "ctaps_state.c" some_use empty_registry some_process) as [_ H].
  - split; [apply initial_logger_holds|by repeat constructor].
  - by constructor.
  - eapply wp_mono; [exact some_use_ends|]. intros _ p2 (-> & _ & _ & _ & Hl). split; [done|].
    exists (Registry None LOG_INFO false [FileSink (File 1) LOG_WARN]). unfold logging. rewrite Hl. split; [split; try done|by repeat constructor].
    exists (replicate 31 empty_callback). split_and!; [done|by repeat constructor|done].
  - eapply wp_mono; [exact H|]. intros rc p'. change (next_rc (ps_world some_process) <? 0) with false. cbn iota.
    intros (p2 & E & Hf & Hrest). destruct (proj1 (wp_ok _ _ _) some_use_ends) as ([] & p3 & E3 & _ & Hf3 & Hi & Hl3 & _).
    rewrite E in E3. injection E3 as <-. rewrite Hi in Hrest. destruct Hrest as (-> & -> & ->). rewrite Hf, Hf3, Hl3.
    split_and!; done.
Defined.
End Session.
