(* ===== verification/Typing.v ===== *)
(** The types of the objects behind the library's pointers.

    The sources keep pointers to objects of many types in fields declared
    [void*] ([internal_socket_manager_state], [internal_connection_state],
    [connection_group_state], [handle->data], [req->data]) and cast them where
    they are used.  Here every object gets a kind; [world_typed] says that
    every pointer of a world points to an object of the kind its users cast
    it to; and [safe] is the judgement that an operation keeps the world typed
    and never uses an object at a wrong type.  The kinds of objects are ghost
    state: [env] only grows.  It also says whether picoquic may call back with
    the context that the library registers for new connections, a socket state:
    where [picoquic_callback] takes it for a connection group the typing cannot
    help, and the judgement admits just that.

    The rules for the operations are in TypingConnections, TypingProtocols and
    TypingQuic, the theorems in TypeSafety. *)

From S2P Require Export Loop.
Open Scope Z_scope.

(** ** Kinds *)

Inductive handle_kind : Set := KUdp | KTcp | KTimer | KPoll.
Inductive request_kind : Set := KSend | KConnect | KWrite.
Inductive kind : Set :=
| KConnection (p : ct_protocol_enum)
| KGroup (p : ct_protocol_enum)
| KManager (p : ct_protocol_enum)
| KListener (p : ct_protocol_enum)
| KHandle (k : handle_kind)
| KRequest (k : request_kind)
| KSocket | KStream | KQuicGroup | KContext.

(** The kinds of the objects, and whether picoquic may call back with the
    default context. *)
Record env := Env { kinds : gmap id kind; defaults : bool }.
#[export] Instance env_lookup : Lookup id kind env := fun i Γ => kinds Γ !! i.
#[export] Instance env_subseteq : SubsetEq env := fun Γ Γ' => kinds Γ ⊆ kinds Γ' /\ defaults Γ = defaults Γ'.
#[export] Instance env_preorder : @PreOrder env (⊆).
Proof.
  split; [by intros Γ|]. intros Γ1 Γ2 Γ3 [H1 E1] [H2 E2]. split; [by etrans|by etrans].
Qed.

(** A pointer that may be NULL. *)
Definition ptr (Γ : env) (k : kind) (o : option id) : Prop :=
  match o with Some i => Γ !! i = Some k | None => True end.
(** A pointer that only QUIC sets. *)
Definition quic_ptr (Γ : env) (p : ct_protocol_enum) (k : kind) (o : option id) : Prop :=
  match o with Some i => p = CT_PROTOCOL_QUIC /\ Γ !! i = Some k | None => True end.
Definition all_of (Γ : env) (k : kind) (l : list id) : Prop := Forall (fun i => Γ !! i = Some k) l.

Lemma all_of_cons Γ k x l : all_of Γ k (x :: l) -> Γ !! x = Some k /\ all_of Γ k l.
Proof. apply Forall_cons_iff. Qed.

(** The values of a hash table, unless it is destroyed. *)
Definition table_typed {K} (Γ : env) (k : kind) (t : option (list (K * id))) : Prop :=
  match t with Some t => all_of Γ k t.*2 | None => True end.

(** ** Types of the objects *)

Record connection_typed (Γ : env) (p : ct_protocol_enum) (c : ct_connection) : Prop := {
  ty_cn_group : ptr Γ (KGroup p) (cn_connection_group c);
  ty_cn_manager : ptr Γ (KManager p) (cn_socket_manager c);
  ty_cn_state : quic_ptr Γ p KStream (cn_internal_connection_state c) }.

Record group_typed (Γ : env) (p : ct_protocol_enum) (g : ct_connection_group) : Prop := {
  ty_gr_members : table_typed Γ (KConnection p) (gr_connections g);
  ty_gr_state : quic_ptr Γ p KQuicGroup (gr_connection_group_state g) }.

Definition state_typed (Γ : env) (p : ct_protocol_enum) (s : option socket_state) : Prop :=
  match s with
  | None => True
  | Some (UdpSocketState h) => p = CT_PROTOCOL_UDP /\ ptr Γ (KHandle KUdp) h
  | Some (TcpSocketState c l _ _ req h) =>
      p = CT_PROTOCOL_TCP /\ ptr Γ (KConnection CT_PROTOCOL_TCP) c /\ ptr Γ (KListener CT_PROTOCOL_TCP) l /\
      ptr Γ (KRequest KConnect) req /\ Γ !! h = Some (KHandle KTcp)
  | Some (QuicSocketState s) => p = CT_PROTOCOL_QUIC /\ Γ !! s = Some KSocket
  end.

Record manager_typed (Γ : env) (p : ct_protocol_enum) (m : ct_socket_manager) : Prop := {
  ty_sm_protocol : sm_protocol m = p;
  ty_sm_state : state_typed Γ p (sm_internal_socket_manager_state m);
  ty_sm_connections : all_of Γ (KConnection p) (sm_all_connections m);
  ty_sm_demux : table_typed Γ (KConnection p) (sm_demux_table m);
  ty_sm_listener : ptr Γ (KListener p) (sm_listener m) }.

Definition listener_typed (Γ : env) (p : ct_protocol_enum) (l : ct_listener) : Prop :=
  ptr Γ (KManager p) (li_socket_manager l).

(** The handles a callback is written for, and what their [data] points to. *)
Definition read_kind (cb : read_cb) : handle_kind :=
  match cb with
  | on_read_ptr | socket_listen_callback_ptr => KUdp
  | tcp_on_read_ptr => KTcp
  | poll_recv_cb_ptr => KPoll
  | on_socket_timer_ptr => KTimer
  end.
Definition close_kind (cb : close_cb) : handle_kind :=
  match cb with
  | closed_handle_cb_ptr | socket_closed_success_ptr => KUdp
  | on_abort_ptr | on_stop_listen_ptr | on_libuv_close_ptr | on_libuv_close_after_error_ptr => KTcp
  | socket_timer_close_cb_ptr => KTimer
  | quic_closed_poll_handle_cb_ptr => KPoll
  end.
Definition data_kind (k : handle_kind) : kind :=
  match k with
  | KUdp => KManager CT_PROTOCOL_UDP
  | KTcp => KManager CT_PROTOCOL_TCP
  | KPoll => KManager CT_PROTOCOL_QUIC
  | KTimer => KSocket
  end.

(** A close callback that is right for the handle. *)
Definition closes (cb : option close_cb) (k : handle_kind) : Prop := match cb with Some cb => close_kind cb = k | None => True end.

Record handle_typed (Γ : env) (k : handle_kind) (h : uv_handle) : Prop := {
  ty_uh_data : ptr Γ (data_kind k) (uh_data h);
  ty_uh_read : match uh_read h with Some cb => read_kind cb = k | None => True end;
  ty_uh_listening : uh_listening h = true -> k = KTcp;
  ty_uh_phase : match uh_phase h with HandleClosing (Some cb) => close_kind cb = k | _ => True end }.

Definition send_data_typed (Γ : env) (p : ct_protocol_enum) (d : option send_data) : Prop :=
  match d with Some sd => Γ !! sd_connection sd = Some (KConnection p) | None => True end.

Definition request_typed (Γ : env) (k : request_kind) (r : request) : Prop :=
  match r with
  | UdpSendRequest d => k = KSend /\ send_data_typed Γ CT_PROTOCOL_UDP d
  | TcpConnectRequest h _ _ => k = KConnect /\ Γ !! h = Some (KHandle KTcp)
  | TcpWriteRequest h d => k = KWrite /\ Γ !! h = Some (KHandle KTcp) /\ send_data_typed Γ CT_PROTOCOL_TCP d
  end.

Record socket_typed (Γ : env) (s : ct_quic_socket_state) : Prop := {
  ty_qk_poll : ptr Γ (KHandle KPoll) (qk_poll_handle s);
  ty_qk_ctx : ptr Γ KContext (qk_picoquic_ctx s);
  ty_qk_timer : ptr Γ (KHandle KTimer) (qk_timer_handle s);
  ty_qk_manager : Γ !! qk_socket_manager s = Some (KManager CT_PROTOCOL_QUIC) }.

(** picoquic passes the contexts it was given: a connection group or the
    default context, and the connection of the stream. *)
Definition ctx_typed (Γ : env) (ctx : option quic_ctx) : Prop :=
  match ctx with
  | Some (GroupCtx g) => Γ !! g = Some (KGroup CT_PROTOCOL_QUIC)
  | Some (SocketCtx s) => defaults Γ = true /\ Γ !! s = Some KSocket
  | None => True
  end.
Record args_typed (Γ : env) (a : callback_args) : Prop := {
  ty_ca_ctx : ctx_typed Γ (ca_callback_ctx a);
  ty_ca_stream : ptr Γ (KConnection CT_PROTOCOL_QUIC) (ca_stream_ctx a) }.

(** The contexts that picoquic was given. *)
Definition call_typed (Γ : env) (c : picoquic_call) : Prop :=
  match c with
  | PqSetCallback _ g => Γ !! g = Some (KGroup CT_PROTOCOL_QUIC)
  | PqSetAppStreamCtx _ _ c | PqAddToStream _ _ _ _ c => Γ !! c = Some (KConnection CT_PROTOCOL_QUIC)
  | _ => True
  end.

Record world_typed (Γ : env) (w : world) : Prop := {
  ty_fresh : forall i, is_Some (Γ !! i) -> (i < w_next w)%positive;
  ty_connections : map_Forall (fun c x => exists p, Γ !! c = Some (KConnection p) /\ connection_typed Γ p x) (w_connections w);
  ty_groups : map_Forall (fun g x => exists p, Γ !! g = Some (KGroup p) /\ group_typed Γ p x) (w_groups w);
  ty_managers : map_Forall (fun m x => exists p, Γ !! m = Some (KManager p) /\ manager_typed Γ p x) (w_managers w);
  ty_listeners : map_Forall (fun l x => exists p, Γ !! l = Some (KListener p) /\ listener_typed Γ p x) (w_listeners w);
  ty_handles : map_Forall (fun h x => exists k, Γ !! h = Some (KHandle k) /\ handle_typed Γ k x) (w_handles w);
  ty_requests : map_Forall (fun r x => exists k, Γ !! r = Some (KRequest k) /\ request_typed Γ k x) (w_requests w);
  ty_sockets : map_Forall (fun s x => Γ !! s = Some KSocket /\ socket_typed Γ x) (q_sockets (w_quic w));
  ty_streams : map_Forall (fun s _ => Γ !! s = Some KStream) (q_streams (w_quic w));
  ty_qgroups : map_Forall (fun g _ => Γ !! g = Some KQuicGroup) (q_groups (w_quic w));
  ty_contexts : forall x, x ∈ q_contexts (w_quic w) -> Γ !! x = Some KContext;
  ty_callbacks : Forall (Forall (args_typed Γ)) (q_callbacks (w_quic w));
  ty_log : Forall (call_typed Γ) (q_log (w_quic w)) }.

(** ** Weakening *)

Section weakening.
Context (Γ Γ' : env) (HΓ : kinds Γ ⊆ kinds Γ').

Lemma weaken i k : Γ !! i = Some k -> Γ' !! i = Some k.
Proof. intros. by apply (lookup_weaken (kinds Γ)). Qed.

Lemma ptr_weaken k o : ptr Γ k o -> ptr Γ' k o.
Proof. destruct o; cbn; [apply weaken|done]. Qed.

Lemma quic_ptr_weaken p k o : quic_ptr Γ p k o -> quic_ptr Γ' p k o.
Proof. destruct o; cbn; [|done]. intros [-> ?]. split; [done|by apply weaken]. Qed.

Lemma all_of_weaken k l : all_of Γ k l -> all_of Γ' k l.
Proof. intros H. eapply list.Forall_impl; [exact H|]. intros i. apply weaken. Qed.

Lemma table_weaken {K} k (t : option (list (K * id))) : table_typed Γ k t -> table_typed Γ' k t.
Proof. destruct t; [apply all_of_weaken|done]. Qed.

Lemma connection_weaken p c : connection_typed Γ p c -> connection_typed Γ' p c.
Proof. intros []. split; eauto using ptr_weaken, quic_ptr_weaken. Qed.

Lemma group_weaken p g : group_typed Γ p g -> group_typed Γ' p g.
Proof. intros []. split; eauto using table_weaken, quic_ptr_weaken. Qed.

Lemma state_weaken p s : state_typed Γ p s -> state_typed Γ' p s.
Proof. destruct s as [[]|]; cbn; intuition eauto using ptr_weaken, weaken. Qed.

Lemma manager_weaken p m : manager_typed Γ p m -> manager_typed Γ' p m.
Proof. intros []. split; eauto using ptr_weaken, state_weaken, all_of_weaken, table_weaken. Qed.

Lemma listener_weaken p l : listener_typed Γ p l -> listener_typed Γ' p l.
Proof. apply ptr_weaken. Qed.

Lemma handle_weaken k h : handle_typed Γ k h -> handle_typed Γ' k h.
Proof. intros []. split; eauto using ptr_weaken. Qed.

Lemma send_data_weaken p d : send_data_typed Γ p d -> send_data_typed Γ' p d.
Proof. destruct d; cbn; [apply weaken|done]. Qed.

Lemma request_weaken k r : request_typed Γ k r -> request_typed Γ' k r.
Proof. destruct r; cbn; intuition eauto using send_data_weaken, weaken. Qed.

Lemma socket_weaken s : socket_typed Γ s -> socket_typed Γ' s.
Proof. intros []. split; eauto using ptr_weaken, weaken. Qed.

Lemma call_weaken c : call_typed Γ c -> call_typed Γ' c.
Proof. destruct c; cbn; try done; apply weaken. Qed.

Lemma map_weaken {V K} (f : K -> kind) (P Q : K -> V -> Prop) (m : gmap id V) :
  (forall k v, P k v -> Q k v) ->
  map_Forall (fun i v => exists k, Γ !! i = Some (f k) /\ P k v) m -> map_Forall (fun i v => exists k, Γ' !! i = Some (f k) /\ Q k v) m.
Proof. intros HPQ H i v Hi. destruct (H i v Hi) as (k & ? & ?). exists k. split; [by apply weaken|by apply HPQ]. Qed.

Lemma world_weaken w :
  (forall i, is_Some (Γ' !! i) -> (i < w_next w)%positive) -> Forall (Forall (args_typed Γ')) (q_callbacks (w_quic w)) ->
  world_typed Γ w -> world_typed Γ' w.
Proof.
  intros Hfresh Hcallbacks []. split; try done.
  all: try (eapply map_weaken; [|eassumption]; cbn; eauto using connection_weaken, group_weaken, manager_weaken, listener_weaken,
    handle_weaken, request_weaken).
  - intros s x Hs. destruct (ty_sockets0 s x Hs). split; [by apply weaken|by apply socket_weaken].
  - intros s x Hs. by eapply weaken, ty_streams0.
  - intros s x Hs. by eapply weaken, ty_qgroups0.
  - intros x Hx. by apply weaken, ty_contexts0.
  - eapply list.Forall_impl; [exact ty_log0|]. apply call_weaken.
Qed.
End weakening.

Lemma ctx_weaken Γ Γ' (HΓ : Γ ⊆ Γ') c : ctx_typed Γ c -> ctx_typed Γ' c.
Proof.
  destruct HΓ as [Hk E]. destruct c as [[]|]; [by apply weaken| |done]. intros [Hd Hs]. split; [by rewrite <- E|by eapply weaken].
Qed.

Lemma args_weaken Γ Γ' (HΓ : Γ ⊆ Γ') a : args_typed Γ a -> args_typed Γ' a.
Proof. intros []. split; [by eapply ctx_weaken|eapply ptr_weaken; [apply HΓ|done]]. Qed.

(** ** The judgement *)

(** The reasons of undefined behaviour that are uses at a wrong type. *)
Definition confusions : list string := [
  "not a UDP socket state"; "not a TCP socket state"; "not a QUIC socket state";
  "not a connect request"; "not a UDP send request"; "not a write request"; "not a pending connect request";
  "not a reading UDP handle"; "not a reading TCP handle"; "socket state used as a connection group"]%string.
Definition confused (why : string) : bool := existsb (String.eqb why) confusions.
Arguments confused _ : simpl never.

(** The one that a callback with the default context may cause. *)
Definition default_confusion : string := "socket state used as a connection group".
Definition wrong (Γ : env) (why : string) : bool := confused why && negb (defaults Γ && String.eqb why default_confusion).
Arguments wrong _ _ : simpl never.

Lemma wrong_calm Γ why : confused why = false -> wrong Γ why = false.
Proof. unfold wrong. by intros ->. Qed.
Lemma wrong_env Γ Γ' why : Γ ⊆ Γ' -> wrong Γ' why = wrong Γ why.
Proof. intros [_ E]. unfold wrong. by rewrite E. Qed.

(** From a typed world the computation ends in a typed world and a typed
    result, or at a point that is no use at a wrong type. *)
Definition safe {A} (Γ : env) (m : M world A) (τ : env -> A -> Prop) : Prop :=
  forall w, world_typed Γ w ->
  match m w with
  | Ok (a, w') => exists Γ', Γ ⊆ Γ' /\ world_typed Γ' w' /\ τ Γ' a
  | UB why => wrong Γ why = false
  end.

(** Results without pointers. *)
Definition data {A} : env -> A -> Prop := fun _ _ => True.

(** Computations, on any state, that never report a use at a wrong type. *)
Definition calm {S A} (m : M S A) : Prop := forall s, match m s with Ok _ => True | UB why => confused why = false end.

Section calm.
Context {S : Type}.

Lemma calm_ret {A} (a : A) : calm (S := S) (mret a).
Proof. done. Qed.
Lemma calm_bind {A B} (m : M S A) (k : A -> M S B) : calm m -> (forall a, calm (k a)) -> calm (m ≫= k).
Proof. intros Hm Hk s. unfold mbind, M_bind. specialize (Hm s). destruct (m s) as [[a s']|]; [apply Hk|done]. Qed.
Lemma calm_ub {A} why : confused why = false -> calm (A := A) (S := S) (ub why).
Proof. intros H s. exact H. Qed.
Lemma calm_deref {A} (o : option A) why : confused why = false -> calm (S := S) (deref o why).
Proof. intros H s. by destruct o. Qed.
Lemma calm_assert b why : confused why = false -> calm (S := S) (assert_ b why).
Proof. intros H s. by destruct b. Qed.
Lemma calm_get : calm (S := S) get.
Proof. done. Qed.
Lemma calm_put s : calm (S := S) (put s).
Proof. done. Qed.
Lemma calm_modify f : calm (S := S) (modify f).
Proof. done. Qed.
Lemma calm_gets {A} (f : S -> A) : calm (gets f).
Proof. done. Qed.
Lemma calm_when b (m : M S unit) : calm m -> calm (when b m).
Proof. by destruct b. Qed.
Lemma calm_for_each {A} (l : list A) (f : A -> M S unit) : (forall x, calm (f x)) -> calm (for_each l f).
Proof. intros Hf. induction l as [|x l IH]; [done|]. apply calm_bind; [apply Hf|done]. Qed.
Lemma calm_zoom {T A} (proj : S -> T) upd (m : M T A) : calm m -> calm (zoom proj upd m).
Proof. intros Hm s. unfold zoom. specialize (Hm (proj s)). by destruct (m (proj s)) as [[]|]. Qed.
End calm.

Lemma calm_malloc : calm malloc.
Proof. intros h. unfold malloc. by destruct (h_oracle h). Qed.
Lemma calm_realloc b : calm (realloc b).
Proof. intros h. unfold realloc. by destruct (h_oracle h). Qed.

Create HintDb calm discriminated.
#[export] Hint Constants Opaque : calm.
#[export] Hint Resolve calm_ret calm_get calm_put calm_modify calm_gets calm_malloc calm_realloc : calm.

(** Follows the program; functions without a rule are unfolded. *)
Ltac calm_step :=
  lazymatch goal with
  | |- forall _, _ => intros ?
  | |- calm (_ ≫= _) => apply calm_bind
  | |- calm (when _ _) => apply calm_when
  | |- calm (for_each _ _) => apply calm_for_each
  | |- calm (zoom _ _ _) => apply calm_zoom
  | |- calm (ub _) => apply calm_ub; reflexivity
  | |- calm (deref _ _) => apply calm_deref; reflexivity
  | |- calm (assert_ _ _) => apply calm_assert; reflexivity
  | |- calm (match ?x with _ => _ end) => destruct x
  | |- calm (let x := _ in _) => cbv zeta
  | |- calm ?m =>
      first [ solve [auto 1 with calm nocore]
            | let h := lazymatch m with context [?f] => f end in
              let rec head t := lazymatch t with ?f _ => head f | _ => t end in
              let f := head m in progress unfold f; cbn beta ]
  end.
Ltac calm := repeat calm_step.

(** Rules. *)
Section rules.
Context (Γ : env).

Lemma safe_ret {A} (a : A) (τ : env -> A -> Prop) : τ Γ a -> safe Γ (mret a) τ.
Proof. intros Ha w Hw. by exists Γ. Qed.

Lemma safe_bind {A B} (m : M world A) (k : A -> M world B) (σ : env -> A -> Prop) (τ : env -> B -> Prop) :
  safe Γ m σ -> (forall Γ' a, Γ ⊆ Γ' -> σ Γ' a -> safe Γ' (k a) τ) -> safe Γ (m ≫= k) τ.
Proof.
  intros Hm Hk w Hw. unfold mbind, M_bind. specialize (Hm w Hw). destruct (m w) as [[a w1]|]; [|done].
  destruct Hm as (Γ1 & H1 & Hw1 & Ha). specialize (Hk Γ1 a H1 Ha w1 Hw1).
  destruct (k a w1) as [[b w2]|why]; [|by rewrite <- (wrong_env Γ Γ1)].
  destruct Hk as (Γ2 & H2 & Hw2 & Hb). exists Γ2. split_and!; [by etrans|done..].
Qed.

Lemma safe_mono {A} (m : M world A) (σ τ : env -> A -> Prop) :
  safe Γ m σ -> (forall Γ' a, Γ ⊆ Γ' -> σ Γ' a -> τ Γ' a) -> safe Γ m τ.
Proof.
  intros Hm Hστ w Hw. specialize (Hm w Hw). destruct (m w) as [[a w']|]; [|done].
  destruct Hm as (Γ' & H & Hw' & Ha). exists Γ'. eauto.
Qed.

Lemma safe_data {A} (m : M world A) (σ : env -> A -> Prop) : safe Γ m σ -> safe Γ m data.
Proof. intros Hm. by eapply safe_mono. Qed.

Lemma safe_ub {A} why (τ : env -> A -> Prop) : confused why = false -> safe Γ (ub why) τ.
Proof. intros H w _. by apply wrong_calm. Qed.

Lemma safe_deref {A} (o : option A) why : confused why = false -> safe Γ (deref o why) (fun _ a => o = Some a).
Proof. intros H w Hw. destruct o; [by exists Γ|by apply wrong_calm]. Qed.

Lemma safe_assert b why : confused why = false -> safe Γ (assert_ b why) data.
Proof. intros H w Hw. destruct b; [by exists Γ|by apply wrong_calm]. Qed.

Lemma safe_when b (m : M world unit) : safe Γ m data -> safe Γ (when b m) data.
Proof. intros Hm. destruct b; [done|by apply safe_ret]. Qed.

(** Computations that keep the typing whatever they do to the state. *)
Lemma safe_get : safe Γ get (fun Γ w => world_typed Γ w).
Proof. intros w Hw. by exists Γ. Qed.
Lemma safe_gets {A} (f : world -> A) : safe Γ (gets f) data.
Proof. intros w Hw. by exists Γ. Qed.
Lemma safe_put w : world_typed Γ w -> safe Γ (put w) data.
Proof. intros Hw ? _. by exists Γ. Qed.
Lemma safe_modify f : (forall w, world_typed Γ w -> world_typed Γ (f w)) -> safe Γ (modify f) data.
Proof. intros Hf w Hw. exists Γ. split_and!; [done|by apply Hf|done]. Qed.
Lemma safe_zoom {T A} (proj : world -> T) upd (m : M T A) :
  (forall t w, world_typed Γ w -> world_typed Γ (upd t w)) -> calm m -> safe Γ (zoom proj upd m) data.
Proof.
  intros Hupd Hm w Hw. unfold zoom. specialize (Hm (proj w)). destruct (m (proj w)) as [[a t]|]; [|by apply wrong_calm].
  exists Γ. split_and!; [done|by apply Hupd|done].
Qed.
End rules.

(** The members of a list, whatever objects are created meanwhile. *)
Lemma safe_for_each {A} (R : env -> A -> Prop) (l : list A) (f : A -> M world unit) Γ :
  (forall Γ Γ' x, Γ ⊆ Γ' -> R Γ x -> R Γ' x) -> Forall (R Γ) l ->
  (forall Γ' x, Γ ⊆ Γ' -> R Γ' x -> safe Γ' (f x) data) -> safe Γ (for_each l f) data.
Proof.
  intros HR. revert Γ. induction l as [|x l IH]; intros Γ Hl Hf; cbn [for_each]; [by apply safe_ret|].
  apply Forall_cons_iff in Hl as [Hx Hl]. eapply safe_bind; [by apply Hf|]. intros Γ1 [] H1 _. apply IH.
  - eapply list.Forall_impl; [exact Hl|]. intros y Hy. by eapply HR.
  - intros Γ2 y H2 Hy. apply Hf; [by etrans|done].
Qed.

Lemma safe_for_each_ids k (l : list id) (f : id -> M world unit) Γ :
  all_of Γ k l -> (forall Γ' x, Γ ⊆ Γ' -> Γ' !! x = Some k -> safe Γ' (f x) data) -> safe Γ (for_each l f) data.
Proof.
  intros Hl Hf. apply (safe_for_each (fun Γ i => Γ !! i = Some k)); [|exact Hl|exact Hf].
  intros Γ1 Γ2 x [H1 _] Hx. by eapply weaken.
Qed.

(** ** The operations of World *)

(** Changing one component keeps the others typed. *)
Ltac retype :=
  intros; cbn beta in *; match goal with H : world_typed _ _ |- _ => destruct H end; split; cbn; try done.

Lemma world_heap Γ h w : world_typed Γ w -> world_typed Γ (set_w_heap h w).
Proof. retype. Qed.

Lemma safe_heap {A} Γ (m : M heap A) : calm m -> safe Γ (on_heap m) data.
Proof. apply safe_zoom. intros t w. apply world_heap. Qed.

(** A new object is given the kind that its users need. *)
Lemma safe_fresh_id Γ k : safe Γ fresh_id (fun Γ i => Γ !! i = Some k).
Proof.
  intros w Hw. cbn. set (Γ' := Env (<[w_next w := k]> (kinds Γ)) (defaults Γ)). exists Γ'.
  assert (Γ ⊆ Γ') as H.
  { split; [|done]. apply insert_subseteq. apply eq_None_not_Some. intros Hi. apply (ty_fresh _ _ Hw) in Hi. lia. }
  split_and!; [done| |apply lookup_insert_eq].
  assert (world_typed Γ (set_w_next (Pos.succ (w_next w)) w)) as Hw'.
  { destruct Hw. split; try done. intros i Hi. specialize (ty_fresh0 i Hi). cbn. lia. }
  eapply world_weaken; [apply H| | |exact Hw'].
  2: { eapply list.Forall_impl; [exact (ty_callbacks _ _ Hw')|]. intros l Hl. eapply list.Forall_impl; [exact Hl|].
       intros. by eapply args_weaken. }
  intros i. destruct (decide (i = w_next w)) as [->|Hne].
  - cbn. lia.
  - intros Hi. unfold Γ', lookup, env_lookup in Hi. cbn in Hi. rewrite lookup_insert_ne in Hi by done. by apply (ty_fresh _ _ Hw').
Qed.

Lemma safe_record_call Γ c : safe Γ (record_call c) data.
Proof. apply safe_modify. retype. Qed.
Lemma safe_call_connection Γ fn ev c : safe Γ (call_connection fn ev c) data.
Proof. destruct fn; [apply safe_record_call|by apply safe_ret]. Qed.
Lemma safe_call_listener Γ fn ev l : safe Γ (call_listener fn ev l) data.
Proof. destruct fn; [apply safe_record_call|by apply safe_ret]. Qed.

Lemma safe_uv_rc Γ : safe Γ uv_rc data.
Proof.
  eapply safe_bind; [apply safe_get|]. intros Γ' w _ Hw. destruct (w_uv w); [by apply safe_ret|].
  eapply safe_bind; [apply safe_put; retype|]. intros. by apply safe_ret.
Qed.
Lemma safe_uv_getname Γ : safe Γ uv_getname data.
Proof.
  eapply safe_bind; [apply safe_uv_rc|]. intros Γ1 rc _ _. destruct (_ <? _); [by apply safe_ret|].
  eapply safe_bind; [apply safe_get|]. intros Γ2 w _ Hw. destruct (w_names w); [by apply safe_ret|].
  eapply safe_bind; [apply safe_put; retype|]. intros. by apply safe_ret.
Qed.

Section objects.
Context (Γ : env).

(** Looking up an object gives its type. *)
Lemma safe_at {V} (proj : world -> gmap id V) (P : env -> V -> Prop) i why :
  confused why = false -> (forall w v, world_typed Γ w -> proj w !! i = Some v -> P Γ v) ->
  safe Γ (w ← get; deref (proj w !! i) why) P.
Proof.
  intros Hwhy HP w Hw. unfold mbind, M_bind, get. destruct (proj w !! i) as [v|] eqn:Hi; cbn; [|by apply wrong_calm].
  exists Γ. split_and!; [done..|]. by eapply HP.
Qed.

Lemma safe_connection_at c p :
  Γ !! c = Some (KConnection p) -> safe Γ (connection_at c) (fun Γ x => connection_typed Γ p x).
Proof.
  intros Hc. apply (safe_at w_connections); [done|]. intros w x Hw Hx.
  destruct (ty_connections _ _ Hw c x Hx) as (p' & Hc' & ?). by simplify_eq.
Qed.
Lemma safe_group_at g p : Γ !! g = Some (KGroup p) -> safe Γ (group_at g) (fun Γ x => group_typed Γ p x).
Proof.
  intros Hc. apply (safe_at w_groups); [done|]. intros w x Hw Hx.
  destruct (ty_groups _ _ Hw g x Hx) as (p' & Hc' & ?). by simplify_eq.
Qed.
Lemma safe_manager_at m p : Γ !! m = Some (KManager p) -> safe Γ (manager_at m) (fun Γ x => manager_typed Γ p x).
Proof.
  intros Hc. apply (safe_at w_managers); [done|]. intros w x Hw Hx.
  destruct (ty_managers _ _ Hw m x Hx) as (p' & Hc' & ?). by simplify_eq.
Qed.
Lemma safe_listener_at l p : Γ !! l = Some (KListener p) -> safe Γ (listener_at l) (fun Γ x => listener_typed Γ p x).
Proof.
  intros Hc. apply (safe_at w_listeners); [done|]. intros w x Hw Hx.
  destruct (ty_listeners _ _ Hw l x Hx) as (p' & Hc' & ?). by simplify_eq.
Qed.
Lemma safe_handle_at h k : Γ !! h = Some (KHandle k) -> safe Γ (handle_at h) (fun Γ x => handle_typed Γ k x).
Proof.
  intros Hc. apply (safe_at w_handles); [done|]. intros w x Hw Hx.
  destruct (ty_handles _ _ Hw h x Hx) as (p' & Hc' & ?). by simplify_eq.
Qed.
Lemma safe_request_at r k : Γ !! r = Some (KRequest k) -> safe Γ (request_at r) (fun Γ x => request_typed Γ k x).
Proof.
  intros Hc. apply (safe_at w_requests); [done|]. intros w x Hw Hx.
  destruct (ty_requests _ _ Hw r x Hx) as (p' & Hc' & ?). by simplify_eq.
Qed.
Lemma safe_socket_state_at s : safe Γ (socket_state_at s) (fun Γ x => socket_typed Γ x).
Proof. apply (safe_at (fun w => q_sockets (w_quic w))); [done|]. intros w x Hw Hx. apply (ty_sockets _ _ Hw s x Hx). Qed.
Lemma safe_stream_state_at s : safe Γ (stream_state_at s) data.
Proof. by apply (safe_at (fun w => q_streams (w_quic w))). Qed.
Lemma safe_group_state_at g : safe Γ (group_state_at g) data.
Proof. by apply (safe_at (fun w => q_groups (w_quic w))). Qed.

(** Storing a typed object. *)
Lemma world_put_connection c p x w :
  Γ !! c = Some (KConnection p) -> connection_typed Γ p x -> world_typed Γ w ->
  world_typed Γ (set_w_connections (<[c := x]> (w_connections w)) w).
Proof. intros Hc Hx. retype. apply map_Forall_insert_2; [by exists p|done]. Qed.
Lemma world_put_group g p x w :
  Γ !! g = Some (KGroup p) -> group_typed Γ p x -> world_typed Γ w -> world_typed Γ (set_w_groups (<[g := x]> (w_groups w)) w).
Proof. intros Hc Hx. retype. apply map_Forall_insert_2; [by exists p|done]. Qed.
Lemma world_put_manager m p x w :
  Γ !! m = Some (KManager p) -> manager_typed Γ p x -> world_typed Γ w -> world_typed Γ (set_w_managers (<[m := x]> (w_managers w)) w).
Proof. intros Hc Hx. retype. apply map_Forall_insert_2; [by exists p|done]. Qed.
Lemma world_put_listener l p x w :
  Γ !! l = Some (KListener p) -> listener_typed Γ p x -> world_typed Γ w -> world_typed Γ (set_w_listeners (<[l := x]> (w_listeners w)) w).
Proof. intros Hc Hx. retype. apply map_Forall_insert_2; [by exists p|done]. Qed.
Lemma world_put_handle h k x w :
  Γ !! h = Some (KHandle k) -> handle_typed Γ k x -> world_typed Γ w -> world_typed Γ (set_w_handles (<[h := x]> (w_handles w)) w).
Proof. intros Hc Hx. retype. apply map_Forall_insert_2; [by exists k|done]. Qed.
Lemma world_put_request r k x w :
  Γ !! r = Some (KRequest k) -> request_typed Γ k x -> world_typed Γ w -> world_typed Γ (set_w_requests (<[r := x]> (w_requests w)) w).
Proof. intros Hc Hx. retype. apply map_Forall_insert_2; [by exists k|done]. Qed.

(** Freeing one. *)
Lemma world_drop_connection c w : world_typed Γ w -> world_typed Γ (set_w_connections (delete c (w_connections w)) w).
Proof. retype. by apply map_Forall_delete. Qed.
Lemma world_drop_group g w : world_typed Γ w -> world_typed Γ (set_w_groups (delete g (w_groups w)) w).
Proof. retype. by apply map_Forall_delete. Qed.
Lemma world_drop_manager m w : world_typed Γ w -> world_typed Γ (set_w_managers (delete m (w_managers w)) w).
Proof. retype. by apply map_Forall_delete. Qed.
Lemma world_drop_listener l w : world_typed Γ w -> world_typed Γ (set_w_listeners (delete l (w_listeners w)) w).
Proof. retype. by apply map_Forall_delete. Qed.
Lemma world_drop_handle h w : world_typed Γ w -> world_typed Γ (set_w_handles (delete h (w_handles w)) w).
Proof. retype. by apply map_Forall_delete. Qed.
Lemma world_drop_request r w : world_typed Γ w -> world_typed Γ (set_w_requests (delete r (w_requests w)) w).
Proof. retype. by apply map_Forall_delete. Qed.
End objects.

(** ** Following a program

    [ty] applies the rules: it introduces the result of each step with its
    type, carries the facts about the pointers over to the new environment,
    and opens the types of the objects that were read.  The rules for named
    operations are the hints of [typing]. *)

Create HintDb typing discriminated.
#[export] Hint Constants Opaque : typing.
Create HintDb pointers discriminated.
#[export] Hint Constants Opaque : pointers.

Ltac weaken_all H :=
  lazymatch type of H with
  | ?G ⊆ ?G' =>
      repeat match goal with
      | F : G !! _ = Some _ |- _ => apply (weaken G G' (proj1 H)) in F
      | F : ptr G _ _ |- _ => apply (ptr_weaken G G' (proj1 H)) in F
      | F : quic_ptr G _ _ _ |- _ => apply (quic_ptr_weaken G G' (proj1 H)) in F
      | F : all_of G _ _ |- _ => apply (all_of_weaken G G' (proj1 H)) in F
      | F : table_typed G _ _ |- _ => apply (table_weaken G G' (proj1 H)) in F
      | F : state_typed G _ _ |- _ => apply (state_weaken G G' (proj1 H)) in F
      | F : connection_typed G _ _ |- _ => apply (connection_weaken G G' (proj1 H)) in F
      | F : manager_typed G _ _ |- _ => apply (manager_weaken G G' (proj1 H)) in F
      | F : send_data_typed G _ _ |- _ => apply (send_data_weaken G G' (proj1 H)) in F
      | F : socket_typed G _ |- _ => apply (socket_weaken G G' (proj1 H)) in F
      | F : request_typed G _ _ |- _ => apply (request_weaken G G' (proj1 H)) in F
      | F : ctx_typed G _ |- _ => apply (ctx_weaken G G' H) in F
      | F : args_typed G _ |- _ => apply (args_weaken G G' H) in F
      end;
      clear H; try clear G
  end.

(** The types of the objects at hand. *)
Ltac ty_open :=
  repeat match goal with
  | F : data _ _ |- _ => clear F
  | F : context [(_, _).1] |- _ => progress cbn [fst] in F
  | F : context [(_, _).2] |- _ => progress cbn [snd] in F
  | F : _ /\ _ |- _ => destruct F
  | F : connection_typed _ _ _ |- _ => destruct F
  | F : group_typed _ _ _ |- _ => destruct F
  | F : manager_typed _ _ _ |- _ => destruct F
  | F : listener_typed _ _ _ |- _ => unfold listener_typed in F
  | F : handle_typed _ _ _ |- _ => destruct F
  | F : socket_typed _ _ |- _ => destruct F
  | F : args_typed _ _ |- _ => destruct F
  | F : ctx_typed _ (Some (GroupCtx _)) |- _ => cbn in F
  | F : ctx_typed _ (Some (SocketCtx _)) |- _ => destruct F
  | F : ptr _ _ (Some _) |- _ => cbn in F
  | F : ptr _ _ None |- _ => clear F
  | F : ptr _ _ (_ <$> Some _) |- _ => cbn in F
  | F : quic_ptr _ _ _ (Some _) |- _ => cbn in F
  | F : quic_ptr _ _ _ None |- _ => clear F
  | F : state_typed _ _ (Some ?x) |- _ =>
      lazymatch x with UdpSocketState _ => idtac | TcpSocketState _ _ _ _ _ _ => idtac | QuicSocketState _ => idtac end; cbn in F
  | F : state_typed _ _ None |- _ => clear F
  | F : table_typed _ _ (Some _) |- _ => cbn in F
  | F : request_typed _ _ (UdpSendRequest _) |- _ => cbn [request_typed] in F
  | F : request_typed _ _ (TcpConnectRequest _ _ _) |- _ => cbn [request_typed] in F
  | F : request_typed _ _ (TcpWriteRequest _ _) |- _ => cbn [request_typed] in F
  | F : send_data_typed _ _ (Some _) |- _ => cbn in F
  | F : table_typed _ _ None |- _ => clear F
  | F : all_of _ _ (_ :: _) |- _ => apply all_of_cons in F
  | F : Some _ = Some _ |- _ => apply (inj Some) in F; subst
  | F : sm_protocol ?m = _, G : context [sm_protocol ?m] |- _ => lazymatch type of G with sm_protocol m = _ => fail | _ => rewrite F in G end
  | F : sm_protocol ?m = _, G : context [pi_enum (sm_protocol_impl ?m)] |- _ => change (pi_enum (sm_protocol_impl m)) with (sm_protocol m) in G
  | F : context [pi_enum tcp_protocol_interface] |- _ => change (pi_enum tcp_protocol_interface) with CT_PROTOCOL_TCP in F
  | F : sm_protocol ?m = _ |- context [sm_protocol ?m] => rewrite F
  | F : @eq ct_protocol_enum ?x ?y |- _ => first [is_var x; subst x | is_var y; subst y | discriminate F | constr_eq x y; clear F]
  | F : @eq request_kind ?x ?y |- _ => first [is_var x; subst x | is_var y; subst y | discriminate F | constr_eq x y; clear F]
  | F : @eq handle_kind ?x ?y |- _ => first [discriminate F | constr_eq x y; clear F]
  end.

Ltac ty_case x :=
  tryif is_var x then destruct x
  else (let E := fresh "E" in destruct x eqn:E; repeat match goal with F : context [x] |- _ => lazymatch type of F with x = _ => fail | _ => rewrite E in F end end).

Ltac ty_intro :=
  let G := fresh "Γ" in let a := fresh "a" in let H := fresh "HΓ" in let F := fresh "Ha" in
  intros G a H F; cbn beta in F; weaken_all H;
  try lazymatch type of F with _ = Some _ => ty_open end;
  try match type of F with ?o = Some _ => is_var o; subst o end;
  try match type of F with ?o = Some _ => repeat match goal with K : context [o] |- _ => lazymatch type of K with o = _ => fail | _ => rewrite F in K end end end;
  ty_open; cbn beta iota.

(** Goals about pointers and the objects that hold them. *)
Ltac ty_side :=
  intros; cbn beta in *; cbn [fst snd] in *; ty_open;
  repeat match goal with
  | |- data _ _ => exact I
  | |- True => exact I
  | |- _ /\ _ => split
  | |- connection_typed _ _ _ => split; cbn
  | |- group_typed _ _ _ => split; cbn
  | |- manager_typed _ _ _ => split; cbn
  | |- handle_typed _ _ _ => split; cbn
  | |- socket_typed _ _ => split; cbn
  | |- listener_typed _ _ _ => unfold listener_typed; cbn
  | |- ptr _ _ (Some _) => cbn
  | |- ptr _ _ None => exact I
  | |- quic_ptr _ _ _ (Some _) => cbn
  | |- quic_ptr _ _ _ None => exact I
  | |- state_typed _ _ (Some ?x) =>
      lazymatch x with UdpSocketState _ => idtac | TcpSocketState _ _ _ _ _ _ => idtac | QuicSocketState _ => idtac end; cbn
  | |- state_typed _ _ None => exact I
  | |- table_typed _ _ (Some _) => cbn
  | |- table_typed _ _ None => exact I
  | |- context [if ?b then _ else _] => destruct b
  | |- send_data_typed _ _ (Some _) => cbn
  | |- send_data_typed _ _ None => exact I
  | |- all_of _ _ [] => constructor
  | |- all_of _ _ (_ :: _) => constructor
  end;
  first [eassumption | reflexivity | done | eauto 3 with pointers nocore].

#[export] Hint Extern 2 (_ !! _ = Some _) => eassumption : pointers.
#[export] Hint Extern 2 (ptr _ _ _) => first [eassumption | cbn [ptr]; first [eassumption | exact I]] : pointers.
#[export] Hint Extern 2 (all_of _ _ _) => eassumption : pointers.
#[export] Hint Extern 2 (table_typed _ _ _) => eassumption : pointers.

#[export] Hint Extern 2 (_ !! _ = Some _) => eassumption : typing.
#[export] Hint Extern 2 (ptr _ _ _) => first [eassumption | cbn [ptr]; first [eassumption | exact I]] : typing.
#[export] Hint Extern 2 (ctx_typed _ _) => eassumption : typing.
#[export] Hint Extern 2 (call_typed _ _) => first [exact I | eassumption] : typing.
#[export] Hint Extern 2 (quic_ptr _ _ _ _) => first [eassumption | solve [cbn [quic_ptr]; eauto]] : typing.
#[export] Hint Extern 2 (all_of _ _ _) => eassumption : typing.
#[export] Hint Extern 2 (confused _ = false) => reflexivity : typing.
#[export] Hint Extern 2 (calm _) => solve [calm] : typing.
#[export] Hint Extern 3 (connection_typed _ _ _) => solve [ty_side] : typing.
#[export] Hint Extern 3 (group_typed _ _ _) => solve [ty_side] : typing.
#[export] Hint Extern 3 (manager_typed _ _ _) => solve [ty_side] : typing.
#[export] Hint Extern 3 (listener_typed _ _ _) => solve [ty_side] : typing.
#[export] Hint Extern 3 (handle_typed _ _ _) => solve [ty_side] : typing.
#[export] Hint Extern 3 (socket_typed _ _) => solve [ty_side] : typing.
#[export] Hint Extern 3 (state_typed _ _ _) => solve [ty_side] : typing.
#[export] Hint Extern 3 (send_data_typed _ _ _) => solve [ty_side] : typing.
#[export] Hint Extern 3 (request_typed _ _ _) => solve [ty_side] : typing.

#[export] Hint Resolve safe_get safe_gets safe_heap safe_record_call safe_call_connection safe_call_listener safe_uv_rc
  safe_uv_getname safe_deref safe_assert : typing.
#[export] Hint Resolve safe_connection_at safe_group_at safe_manager_at safe_listener_at safe_handle_at safe_request_at
  safe_socket_state_at safe_stream_state_at safe_group_state_at : typing.

Ltac ty_call := solve [eauto 4 with typing nocore].

Ltac ty_step :=
  lazymatch goal with
  | |- safe _ (mret _) _ => apply safe_ret; solve [ty_side]
  | |- safe _ (ub _) _ => apply safe_ub; reflexivity
  | |- safe _ (_ ≫= _) _ => eapply safe_bind; [ty_arg|ty_intro]
  | |- safe _ (when _ _) _ => apply safe_when
  | |- safe _ (for_each _ _) _ =>
      eapply safe_for_each_ids; [solve [eauto 3 with pointers nocore]|let G := fresh "Γ" in let H := fresh "HΓ" in intros G ? H ?; weaken_all H]
  | |- safe _ (match ?x with _ => _ end) _ => ty_case x; ty_open; cbn beta iota
  | |- safe _ (let x := _ in _) _ => cbv zeta
  | |- safe _ _ _ => first [ty_call | eapply safe_mono; [ty_call|ty_intro; solve [ty_side]]]
  end
with ty_arg :=
  lazymatch goal with
  | |- safe _ (match ?x with _ => _ end) _ => eapply (safe_data _ _ data); solve [repeat ty_step]
  | |- safe _ (when _ _) _ => apply safe_when; solve [repeat ty_step]
  | |- safe _ (for_each _ _) _ => solve [repeat ty_step]
  | |- safe _ (_ ≫= _) _ => eapply (safe_data _ _ data); solve [repeat ty_step]
  | |- safe _ _ _ => ty_call
  end.
Ltac ty := repeat ty_step.

(** The rules of an operation: unfold it and follow it. *)
Section operations.
Context (Γ : env).

(** Replacing an object by one of the same type. *)
Lemma safe_update {V} (proj : world -> gmap id V) (store : V -> world -> world) i why f :
  confused why = false -> (forall w v, world_typed Γ w -> proj w !! i = Some v -> world_typed Γ (store (f v) w)) ->
  safe Γ (v ← (w ← get; deref (proj w !! i) why); modify (store (f v))) data.
Proof.
  intros Hwhy Hf w Hw. unfold mbind, M_bind, get. destruct (proj w !! i) as [v|] eqn:Hi; cbn; [|by apply wrong_calm].
  exists Γ. split_and!; [done|by apply Hf|done].
Qed.

Lemma safe_update_connection c p f :
  Γ !! c = Some (KConnection p) -> (forall x, connection_typed Γ p x -> connection_typed Γ p (f x)) ->
  safe Γ (update_connection c f) data.
Proof.
  intros Hc Hf. apply (safe_update w_connections (fun v w => set_w_connections (<[c:=v]> (w_connections w)) w)); [done|].
  intros w x Hw Hx. destruct (ty_connections _ _ Hw c x Hx) as (p' & Hc' & ?). simplify_eq. by eapply world_put_connection, Hw; auto.
Qed.
Lemma safe_update_group g p f :
  Γ !! g = Some (KGroup p) -> (forall x, group_typed Γ p x -> group_typed Γ p (f x)) -> safe Γ (update_group g f) data.
Proof.
  intros Hc Hf. apply (safe_update w_groups (fun v w => set_w_groups (<[g:=v]> (w_groups w)) w)); [done|].
  intros w x Hw Hx. destruct (ty_groups _ _ Hw g x Hx) as (p' & Hc' & ?). simplify_eq. by eapply world_put_group, Hw; auto.
Qed.
Lemma safe_update_manager m p f :
  Γ !! m = Some (KManager p) -> (forall x, manager_typed Γ p x -> manager_typed Γ p (f x)) -> safe Γ (update_manager m f) data.
Proof.
  intros Hc Hf. apply (safe_update w_managers (fun v w => set_w_managers (<[m:=v]> (w_managers w)) w)); [done|].
  intros w x Hw Hx. destruct (ty_managers _ _ Hw m x Hx) as (p' & Hc' & ?). simplify_eq. by eapply world_put_manager, Hw; auto.
Qed.
Lemma safe_update_listener l p f :
  Γ !! l = Some (KListener p) -> (forall x, listener_typed Γ p x -> listener_typed Γ p (f x)) -> safe Γ (update_listener l f) data.
Proof.
  intros Hc Hf. apply (safe_update w_listeners (fun v w => set_w_listeners (<[l:=v]> (w_listeners w)) w)); [done|].
  intros w x Hw Hx. destruct (ty_listeners _ _ Hw l x Hx) as (p' & Hc' & ?). simplify_eq. by eapply world_put_listener, Hw; auto.
Qed.
Lemma safe_update_handle h k f :
  Γ !! h = Some (KHandle k) -> (forall x, handle_typed Γ k x -> handle_typed Γ k (f x)) -> safe Γ (update_handle h f) data.
Proof.
  intros Hc Hf. apply (safe_update w_handles (fun v w => set_w_handles (<[h:=v]> (w_handles w)) w)); [done|].
  intros w x Hw Hx. destruct (ty_handles _ _ Hw h x Hx) as (p' & Hc' & ?). simplify_eq. by eapply world_put_handle, Hw; auto.
Qed.
End operations.
#[export] Hint Resolve safe_update_connection safe_update_group safe_update_manager safe_update_listener safe_update_handle : typing.

(** Storing and freeing, as the sources write it. *)
#[export] Hint Extern 2 (safe _ (modify _) _) => apply safe_modify; intros : typing.
#[export] Hint Resolve world_put_connection world_put_group world_put_manager world_put_listener world_put_handle world_put_request
  world_drop_connection world_drop_group world_drop_manager world_drop_listener world_drop_handle world_drop_request : typing.

Section handles.
Context (Γ : env).

Lemma safe_new_handle k : safe Γ new_handle (fun Γ h => Γ !! h = Some (KHandle k)).
Proof. unfold new_handle. eapply safe_bind; [apply (safe_fresh_id _ (KHandle k))|ty_intro]. ty. Qed.

Lemma safe_uv_close h k cb :
  Γ !! h = Some (KHandle k) -> closes cb k -> safe Γ (uv_close h cb) data.
Proof. intros Hh Hcb. unfold uv_close. ty. Qed.

Lemma safe_uv_tcp_close_reset h k cb : Γ !! h = Some (KHandle k) -> closes cb k -> safe Γ (uv_tcp_close_reset h cb) data.
Proof. apply safe_uv_close. Qed.

Lemma safe_uv_is_closing h k : Γ !! h = Some (KHandle k) -> safe Γ (uv_is_closing h) data.
Proof. intros. unfold uv_is_closing. ty. Qed.

Lemma safe_free_handle h k : Γ !! h = Some (KHandle k) -> safe Γ (free_handle h) data.
Proof. intros. unfold free_handle. ty. Qed.

Lemma safe_new_request k r : request_typed Γ k r -> safe Γ (new_request r) (fun Γ i => Γ !! i = Some (KRequest k)).
Proof. intros Hr. unfold new_request. eapply safe_bind; [apply (safe_fresh_id _ (KRequest k))|ty_intro]. ty. Qed.
Lemma safe_new_send_request d :
  send_data_typed Γ CT_PROTOCOL_UDP d -> safe Γ (new_request (UdpSendRequest d)) (fun Γ i => Γ !! i = Some (KRequest KSend)).
Proof. intros. by apply safe_new_request. Qed.
Lemma safe_new_connect_request h b1 b2 : Γ !! h = Some (KHandle KTcp) ->
  safe Γ (new_request (TcpConnectRequest h b1 b2)) (fun Γ i => Γ !! i = Some (KRequest KConnect)).
Proof. intros. by apply safe_new_request. Qed.
Lemma safe_new_write_request h d : Γ !! h = Some (KHandle KTcp) -> send_data_typed Γ CT_PROTOCOL_TCP d ->
  safe Γ (new_request (TcpWriteRequest h d)) (fun Γ i => Γ !! i = Some (KRequest KWrite)).
Proof. intros. by apply safe_new_request. Qed.

Lemma safe_set_request i k r : Γ !! i = Some (KRequest k) -> request_typed Γ k r -> safe Γ (set_request i r) data.
Proof. intros. unfold set_request. ty. Qed.

Lemma safe_drop_request i : safe Γ (drop_request i) data.
Proof. unfold drop_request. ty. Qed.
End handles.
#[export] Hint Extern 2 (read_kind _ = _) => reflexivity : typing.
#[export] Hint Extern 2 (closes _ _) => first [reflexivity | exact I] : typing.
#[export] Hint Extern 2 (send_data_typed _ _ _) => eassumption : typing.
#[export] Hint Resolve safe_new_send_request safe_new_connect_request safe_new_write_request : typing.
#[export] Hint Resolve safe_uv_tcp_close_reset safe_uv_close safe_uv_is_closing safe_free_handle safe_set_request safe_drop_request : typing.
