(* ===== verification/TypingConnections.v ===== *)
(** The typing of socket managers, connection groups and connections.

    The heap operations that the world's operations use; the rules for the
    operations of SocketManagers and Connections, against interfaces
    ([TypedSockets], [TypedClose], [TypedProtocols], [TypedFramers]) that say
    which kinds of objects the entries of [ct_protocol_impl_t] and the
    application's framers are called with. *)

From S2P Require Export Typing.
Open Scope Z_scope.

(** ** Heap operations *)

Lemma calm_strdup s : calm (strdup s).
Proof. calm. Qed.
#[export] Hint Resolve calm_strdup : calm.
Lemma calm_strdup_opt s : calm (strdup_opt s).
Proof. calm. Qed.
#[export] Hint Resolve calm_strdup_opt : calm.
Lemma calm_free_block : calm free_block.
Proof. calm. Qed.
#[export] Hint Resolve calm_free_block : calm.
Lemma calm_free_string s : calm (free_string s).
Proof. calm. Qed.
#[export] Hint Resolve calm_free_string : calm.
Lemma calm_free_ptr {A} (x : cptr A) : calm (free_ptr x).
Proof. calm. Qed.
#[export] Hint Resolve calm_free_ptr : calm.
Lemma calm_load {S A} (x : cptr A) : calm (S := S) (load x).
Proof. calm. Qed.
#[export] Hint Resolve calm_load : calm.
Lemma calm_index {S A} (l : list A) i : calm (S := S) (index l i).
Proof. calm. Qed.
#[export] Hint Resolve calm_index : calm.
Lemma calm_strdup_ptr x : calm (strdup_ptr x).
Proof. calm. Qed.
#[export] Hint Resolve calm_strdup_ptr : calm.

Lemma calm_copy_combinations l : calm (copy_combinations l).
Proof. induction l; cbn [copy_combinations]; calm. Qed.
#[export] Hint Resolve calm_copy_combinations : calm.
Lemma calm_properties_copy t : calm (ct_transport_properties_deep_copy t).
Proof. calm. Qed.
#[export] Hint Resolve calm_properties_copy : calm.
Lemma calm_properties_new : calm ct_transport_properties_new.
Proof. calm. Qed.
#[export] Hint Resolve calm_properties_new : calm.
Lemma calm_properties_free t : calm (ct_transport_properties_free t).
Proof. calm. Qed.
#[export] Hint Resolve calm_properties_free : calm.
Lemma calm_for_n {S A} n i (x : cptr (list A)) (f : A -> M S unit) : (forall a, calm (f a)) -> calm (for_n n i x f).
Proof. intros Hf. revert i. induction n; intros i; cbn [for_n]; calm. Qed.
#[export] Hint Extern 1 (calm (for_n _ _ _ _)) => apply calm_for_n; calm : calm.
Lemma calm_free_value v : calm (free_value v).
Proof. destruct v; cbn [free_value]; calm. Qed.
#[export] Hint Resolve calm_free_value : calm.
Lemma calm_copy_bundles l : forall done, calm (copy_bundles l done).
Proof. induction l; intros; cbn [copy_bundles]; calm. Qed.
#[export] Hint Resolve calm_copy_bundles : calm.
Lemma calm_copy_strings l : forall done, calm (copy_strings l done).
Proof. induction l; intros; cbn [copy_strings]; calm. Qed.
#[export] Hint Resolve calm_copy_strings : calm.
Lemma calm_copy_params s l : forall copy, calm (copy_params s copy l).
Proof. induction l; intros; cbn [copy_params]; calm. Qed.
#[export] Hint Resolve calm_copy_params : calm.
Lemma calm_security_copy s : calm (ct_security_parameters_deep_copy s).
Proof. calm. Qed.
#[export] Hint Resolve calm_security_copy : calm.
Lemma calm_security_free s : calm (ct_security_parameters_free s).
Proof. calm. Qed.
#[export] Hint Resolve calm_security_free : calm.
Lemma calm_message_copy m : calm (ct_message_deep_copy m).
Proof. calm. Qed.
#[export] Hint Resolve calm_message_copy : calm.
Lemma calm_message_free m : calm (ct_message_free m).
Proof. calm. Qed.
#[export] Hint Resolve calm_message_free : calm.
Lemma calm_context_copy m : calm (ct_message_context_deep_copy m).
Proof. calm. Qed.
#[export] Hint Resolve calm_context_copy : calm.
Lemma calm_context_free m : calm (ct_message_context_free m).
Proof. calm. Qed.
#[export] Hint Resolve calm_context_free : calm.
Lemma calm_framer_copy f : calm (ct_framer_impl_deep_copy f).
Proof. calm. Qed.
#[export] Hint Resolve calm_framer_copy : calm.
Lemma calm_framer_free f : calm (ct_framer_impl_free f).
Proof. calm. Qed.
#[export] Hint Resolve calm_framer_free : calm.
Lemma calm_copy_loop {A} (copy : A -> M heap (Z * A)) free l :
  (forall e, calm (copy e)) -> (forall e, calm (free e)) -> forall res, calm (copy_loop copy free l res).
Proof. intros H1 H2. induction l; intros; cbn [copy_loop]; calm. Qed.
#[export] Hint Extern 1 (calm (copy_loop _ _ _ _)) => apply calm_copy_loop; calm : calm.
Lemma calm_local_copy e : calm (ct_local_endpoint_deep_copy e).
Proof. calm. Qed.
#[export] Hint Resolve calm_local_copy : calm.
Lemma calm_locals_copy l : calm (ct_local_endpoints_deep_copy l).
Proof. calm. Qed.
#[export] Hint Resolve calm_locals_copy : calm.
Lemma calm_remotes_copy l : calm (ct_remote_endpoints_deep_copy l).
Proof. calm. Qed.
#[export] Hint Resolve calm_remotes_copy : calm.
Lemma calm_locals_free b l : calm (ct_local_endpoints_free b l).
Proof. calm. Qed.
#[export] Hint Resolve calm_locals_free : calm.
Lemma calm_remotes_free b l : calm (ct_remote_endpoints_free b l).
Proof. calm. Qed.
#[export] Hint Resolve calm_remotes_free : calm.
Lemma calm_remote_free e : calm (ct_remote_endpoint_free e).
Proof. calm. Qed.
#[export] Hint Resolve calm_remote_free : calm.
Lemma calm_remote_new : calm ct_remote_endpoint_new.
Proof. calm. Qed.
#[export] Hint Resolve calm_remote_new : calm.
Lemma calm_queued_new m c : calm (ct_queued_message_new m c).
Proof. calm. Qed.
#[export] Hint Resolve calm_queued_new : calm.
Lemma calm_queued_free m : calm (ct_queued_message_free_all m).
Proof. calm. Qed.
#[export] Hint Resolve calm_queued_free : calm.

(** ** Socket managers *)

(** The entries of [ct_protocol_impl_t] that release sockets and data. *)
Class TypedSockets `{!SocketImpl} : Prop := {
  typed_close_socket Γ p m : Γ !! m = Some (KManager p) -> safe Γ (impl_close_socket p m) data;
  typed_free_socket_state Γ p m : Γ !! m = Some (KManager p) -> safe Γ (call_impl (impl_free_socket_state p) m) data;
  typed_free_connection_state Γ p c :
    Γ !! c = Some (KConnection p) -> safe Γ (call_impl (impl_free_connection_state p) c) data;
  typed_free_group_state Γ p g : Γ !! g = Some (KGroup p) -> safe Γ (call_impl (impl_free_connection_group_state p) g) data }.

#[export] Hint Resolve typed_close_socket typed_free_socket_state typed_free_connection_state typed_free_group_state : typing.


Lemma safe_with_connection Γ {A} p c (d : A) f : ptr Γ (KConnection p) c -> safe Γ (with_connection c d f) data.
Proof. intros. unfold with_connection. ty. Qed.
#[export] Hint Resolve safe_with_connection : typing.
Lemma safe_set_connection Γ p c f :
  ptr Γ (KConnection p) c -> (forall x, connection_typed Γ p x -> connection_typed Γ p (f x)) -> safe Γ (set_connection c f) data.
Proof. intros. unfold set_connection. ty. Qed.
#[export] Hint Resolve safe_set_connection : typing.
Lemma safe_ct_connection_set_can_receive Γ p c b : ptr Γ (KConnection p) c -> safe Γ (ct_connection_set_can_receive c b) data.
Proof. intros. unfold ct_connection_set_can_receive. ty. Qed.
#[export] Hint Resolve safe_ct_connection_set_can_receive : typing.
Lemma safe_ct_connection_set_can_send Γ p c b : ptr Γ (KConnection p) c -> safe Γ (ct_connection_set_can_send c b) data.
Proof. intros. unfold ct_connection_set_can_send. ty. Qed.
#[export] Hint Resolve safe_ct_connection_set_can_send : typing.
Lemma safe_ct_connection_mark_as_established Γ p c : ptr Γ (KConnection p) c -> safe Γ (ct_connection_mark_as_established c) data.
Proof. intros. unfold ct_connection_mark_as_established. ty. Qed.
#[export] Hint Resolve safe_ct_connection_mark_as_established : typing.
Lemma safe_ct_connection_mark_as_closing Γ p c : ptr Γ (KConnection p) c -> safe Γ (ct_connection_mark_as_closing c) data.
Proof. intros. unfold ct_connection_mark_as_closing. ty. Qed.
#[export] Hint Resolve safe_ct_connection_mark_as_closing : typing.
Lemma safe_ct_connection_mark_as_closed Γ p c : ptr Γ (KConnection p) c -> safe Γ (ct_connection_mark_as_closed c) data.
Proof. intros. unfold ct_connection_mark_as_closed. ty. Qed.
#[export] Hint Resolve safe_ct_connection_mark_as_closed : typing.
Lemma safe_ct_connection_is_closing Γ p c : ptr Γ (KConnection p) c -> safe Γ (ct_connection_is_closing c) data.
Proof. intros. unfold ct_connection_is_closing. ty. Qed.
#[export] Hint Resolve safe_ct_connection_is_closing : typing.
Lemma safe_ct_connection_is_closed Γ p c : ptr Γ (KConnection p) c -> safe Γ (ct_connection_is_closed c) data.
Proof. intros. unfold ct_connection_is_closed. ty. Qed.
#[export] Hint Resolve safe_ct_connection_is_closed : typing.
Lemma safe_ct_connection_is_closed_or_closing Γ p c : ptr Γ (KConnection p) c -> safe Γ (ct_connection_is_closed_or_closing c) data.
Proof. intros. unfold ct_connection_is_closed_or_closing. ty. Qed.
#[export] Hint Resolve safe_ct_connection_is_closed_or_closing : typing.
Lemma safe_ct_connection_get_state Γ p c : ptr Γ (KConnection p) c -> safe Γ (ct_connection_get_state c) data.
Proof. intros. unfold ct_connection_get_state. ty. Qed.
#[export] Hint Resolve safe_ct_connection_get_state : typing.
Lemma safe_ct_connection_is_server Γ p c : ptr Γ (KConnection p) c -> safe Γ (ct_connection_is_server c) data.
Proof. intros. unfold ct_connection_is_server. ty. Qed.
#[export] Hint Resolve safe_ct_connection_is_server : typing.
Lemma safe_ct_connection_can_send Γ p c : ptr Γ (KConnection p) c -> safe Γ (ct_connection_can_send c) data.
Proof. intros. unfold ct_connection_can_send. ty. Qed.
#[export] Hint Resolve safe_ct_connection_can_send : typing.
Lemma safe_ct_connection_can_receive Γ p c : ptr Γ (KConnection p) c -> safe Γ (ct_connection_can_receive c) data.
Proof. intros. unfold ct_connection_can_receive. ty. Qed.
#[export] Hint Resolve safe_ct_connection_can_receive : typing.
Lemma safe_ct_listener_is_closed Γ p l : ptr Γ (KListener p) l -> safe Γ (ct_listener_is_closed l) data.
Proof. intros. unfold ct_listener_is_closed. ty. Qed.
#[export] Hint Resolve safe_ct_listener_is_closed : typing.
Lemma safe_ct_listener_mark_as_closed Γ p l : ptr Γ (KListener p) l -> safe Γ (ct_listener_mark_as_closed l) data.
Proof. intros. unfold ct_listener_mark_as_closed. ty. Qed.
#[export] Hint Resolve safe_ct_listener_mark_as_closed : typing.
Lemma safe_ct_listener_get_local_endpoint Γ p l : Γ !! l = Some (KListener p) -> safe Γ (ct_listener_get_local_endpoint l) data.
Proof. intros. unfold ct_listener_get_local_endpoint. ty. Qed.
#[export] Hint Resolve safe_ct_listener_get_local_endpoint : typing.

(** Tables. *)
Lemma all_of_app Γ k l1 l2 : all_of Γ k l1 -> all_of Γ k l2 -> all_of Γ k (l1 ++ l2).
Proof. apply Forall_app_2. Qed.
Lemma all_of_in Γ k l x : all_of Γ k l -> x ∈ l -> Γ !! x = Some k.
Proof. intros Hl. by apply (proj1 (list.Forall_forall _ _) Hl). Qed.
Lemma all_of_incl Γ k l1 l2 : (forall x, x ∈ l1 -> x ∈ l2) -> all_of Γ k l2 -> all_of Γ k l1.
Proof. intros Hl H. apply list.Forall_forall. intros x Hx. by eapply all_of_in, Hl. Qed.
Lemma all_of_perm Γ k l1 l2 : l1 ≡ₚ l2 -> all_of Γ k l2 -> all_of Γ k l1.
Proof. intros Hp. apply all_of_incl. intros x. by rewrite Hp. Qed.

Lemma table_lookup_elem {K} `{EqDecision K} (x : K) (t : list (K * id)) i : table_lookup x t = Some i -> i ∈ t.*2.
Proof.
  unfold table_lookup. destruct (list_find _ t) as [[j e]|] eqn:Hf; [|done]. intros [= <-].
  apply list_find_Some in Hf as (Hj & _). apply list_elem_of_fmap. exists e. split; [done|]. by eapply list_elem_of_lookup_2.
Qed.
Lemma ptr_table_lookup {K} `{EqDecision K} Γ k (x : K) (t : option (list (K * id))) :
  table_typed Γ k t -> ptr Γ k (t ≫= table_lookup x).
Proof.
  destruct t as [t|]; cbn; [|done]. intros Ht. destruct (table_lookup x t) as [i|] eqn:Hi; [|done]. cbn.
  eapply all_of_in; [exact Ht|]. by eapply table_lookup_elem.
Qed.
Lemma all_of_snoc {K} Γ k (t : list (K * id)) x i : all_of Γ k t.*2 -> Γ !! i = Some k -> all_of Γ k (t ++ [(x, i)]).*2.
Proof. intros. rewrite fmap_app. apply all_of_app; [done|]. by repeat constructor. Qed.
Lemma all_of_remove {K} `{EqDecision K} Γ k (x : K) (t : list (K * id)) : all_of Γ k t.*2 -> all_of Γ k (table_remove x t).*2.
Proof.
  apply all_of_incl. intros i (e & -> & He)%list_elem_of_fmap. apply list_elem_of_filter in He as [_ He]. apply list_elem_of_fmap. by exists e.
Qed.
Lemma all_of_replace {K} Γ k (P : K * id -> bool) (i : id) (t : list (K * id)) :
  all_of Γ k t.*2 -> Γ !! i = Some k -> all_of Γ k ((fun e => if P e then (e.1, i) else e) <$> t).*2.
Proof. intros Ht Hi. induction t as [|e t IH]; [done|]. apply Forall_cons_iff in Ht as [He Ht]. constructor; [by destruct (P e)|by apply IH]. Qed.
Lemma ptr_head Γ k l : all_of Γ k l -> ptr Γ k (head l).
Proof. destruct l; [done|]. intros Hl. by apply Forall_cons_iff in Hl as [? _]. Qed.
Lemma all_of_hash_order `{!HashOrder} {K} Γ k (t : list (K * id)) : all_of Γ k t.*2 -> all_of Γ k ((fun e => e.2) <$> hash_order t).
Proof. apply all_of_perm. by rewrite hash_order_perm. Qed.
#[export] Hint Resolve ptr_table_lookup all_of_snoc all_of_remove all_of_replace ptr_head all_of_hash_order : pointers.

(** The demultiplexing table, references, dependents. *)
Lemma safe_socket_manager_get_from_demux_table Γ p m a :
  Γ !! m = Some (KManager p) -> safe Γ (socket_manager_get_from_demux_table m a) (fun Γ => ptr Γ (KConnection p)).
Proof. intros. unfold socket_manager_get_from_demux_table. ty. Qed.
#[export] Hint Resolve safe_socket_manager_get_from_demux_table : typing.
Lemma safe_socket_manager_insert_demuxed_connection Γ p m r c :
  Γ !! m = Some (KManager p) -> Γ !! c = Some (KConnection p) -> safe Γ (socket_manager_insert_demuxed_connection m r c) data.
Proof. intros. unfold socket_manager_insert_demuxed_connection. ty. Qed.
#[export] Hint Resolve safe_socket_manager_insert_demuxed_connection : typing.
Lemma safe_ct_socket_manager_ref Γ p m : ptr Γ (KManager p) m -> safe Γ (ct_socket_manager_ref m) (fun Γ => ptr Γ (KManager p)).
Proof. intros. unfold ct_socket_manager_ref. ty. Qed.
#[export] Hint Resolve safe_ct_socket_manager_ref : typing.
Lemma safe_ct_socket_manager_add_connection Γ p m c :
  Γ !! m = Some (KManager p) -> Γ !! c = Some (KConnection p) -> safe Γ (ct_socket_manager_add_connection m c) data.
Proof. intros. unfold ct_socket_manager_add_connection. ty. Qed.
#[export] Hint Resolve safe_ct_socket_manager_add_connection : typing.
Lemma safe_count_open Γ p l : all_of Γ (KConnection p) l -> safe Γ (count_open l) data.
Proof. revert Γ. induction l as [|c l IH]; intros Γ Hl; cbn [count_open]; [ty|]. ty_open. ty. Qed.
#[export] Hint Resolve safe_count_open : typing.
Lemma safe_first_open Γ p l : all_of Γ (KConnection p) l -> safe Γ (first_open l) (fun Γ => ptr Γ (KConnection p)).
Proof. revert Γ. induction l as [|c l IH]; intros Γ Hl; cbn [first_open]; [ty|]. ty_open. ty. Qed.
#[export] Hint Resolve safe_first_open : typing.
Lemma safe_ct_socket_manager_get_num_open_dependents Γ p m : Γ !! m = Some (KManager p) -> safe Γ (ct_socket_manager_get_num_open_dependents m) data.
Proof. intros. unfold ct_socket_manager_get_num_open_dependents. ty. Qed.
#[export] Hint Resolve safe_ct_socket_manager_get_num_open_dependents : typing.
Lemma safe_ct_socket_manager_get_last_open_connection Γ p m :
  Γ !! m = Some (KManager p) -> safe Γ (ct_socket_manager_get_last_open_connection m) (fun Γ => ptr Γ (KConnection p)).
Proof. intros. unfold ct_socket_manager_get_last_open_connection. ty. Qed.
#[export] Hint Resolve safe_ct_socket_manager_get_last_open_connection : typing.
Lemma safe_ct_socket_manager_notify_of_listener_close Γ p m l :
  Γ !! m = Some (KManager p) -> ptr Γ (KListener p) l -> safe Γ (ct_socket_manager_notify_of_listener_close m l) data.
Proof. intros. unfold ct_socket_manager_notify_of_listener_close. ty. Qed.
#[export] Hint Resolve safe_ct_socket_manager_notify_of_listener_close : typing.
Lemma safe_ct_socket_manager_listener_ready_cb Γ p l : Γ !! l = Some (KListener p) -> safe Γ (ct_socket_manager_listener_ready_cb l) data.
Proof. intros. unfold ct_socket_manager_listener_ready_cb. ty. Qed.
#[export] Hint Resolve safe_ct_socket_manager_listener_ready_cb : typing.
Lemma safe_ct_socket_manager_notify_of_connection_close Γ p m c :
  Γ !! m = Some (KManager p) -> Γ !! c = Some (KConnection p) -> safe Γ (ct_socket_manager_notify_of_connection_close m c) data.
Proof. intros. unfold ct_socket_manager_notify_of_connection_close. ty. Qed.
#[export] Hint Resolve safe_ct_socket_manager_notify_of_connection_close : typing.
Lemma safe_ct_socket_manager_closed_socket_cb Γ p m : Γ !! m = Some (KManager p) -> safe Γ (ct_socket_manager_closed_socket_cb m) data.
Proof. intros. unfold ct_socket_manager_closed_socket_cb. ty. Qed.
#[export] Hint Resolve safe_ct_socket_manager_closed_socket_cb : typing.
Lemma safe_ct_socket_manager_connection_ready_cb Γ p c : Γ !! c = Some (KConnection p) -> safe Γ (ct_socket_manager_connection_ready_cb c) data.
Proof. intros. unfold ct_socket_manager_connection_ready_cb. ty. Qed.
#[export] Hint Resolve safe_ct_socket_manager_connection_ready_cb : typing.
Lemma safe_ct_socket_manager_message_sent_cb Γ p c x : Γ !! c = Some (KConnection p) -> safe Γ (ct_socket_manager_message_sent_cb c x) data.
Proof. intros. unfold ct_socket_manager_message_sent_cb. ty. Qed.
#[export] Hint Resolve safe_ct_socket_manager_message_sent_cb : typing.
Lemma safe_ct_socket_manager_message_send_error_cb Γ p c x r :
  Γ !! c = Some (KConnection p) -> safe Γ (ct_socket_manager_message_send_error_cb c x r) data.
Proof. intros. unfold ct_socket_manager_message_send_error_cb. ty. Qed.
#[export] Hint Resolve safe_ct_socket_manager_message_send_error_cb : typing.
Lemma safe_ct_socket_manager_connection_received_cb Γ p l c :
  Γ !! l = Some (KListener p) -> Γ !! c = Some (KConnection p) -> safe Γ (ct_socket_manager_connection_received_cb l c) data.
Proof. intros. unfold ct_socket_manager_connection_received_cb. ty. Qed.
#[export] Hint Resolve safe_ct_socket_manager_connection_received_cb : typing.

(** Closing and freeing through the protocol. *)
Section sockets.
Context `{!SocketImpl, !TypedSockets, !HashOrder}.

Lemma safe_ct_socket_manager_free Γ p m : ptr Γ (KManager p) m -> safe Γ (ct_socket_manager_free m) data.
Proof. intros. unfold ct_socket_manager_free. ty. Qed.
#[local] Hint Resolve safe_ct_socket_manager_free : typing.
Lemma safe_ct_socket_manager_unref Γ p m : ptr Γ (KManager p) m -> safe Γ (ct_socket_manager_unref m) data.
Proof. intros. unfold ct_socket_manager_unref. ty. Qed.
#[local] Hint Resolve safe_ct_socket_manager_unref : typing.
Lemma safe_ct_socket_manager_close Γ p m : ptr Γ (KManager p) m -> safe Γ (ct_socket_manager_close m) data.
Proof. intros. unfold ct_socket_manager_close. ty. Qed.
#[local] Hint Resolve safe_ct_socket_manager_close : typing.
Lemma safe_set_close_reason Γ p m r : Γ !! m = Some (KManager p) -> safe Γ (set_close_reason m r) data.
Proof. intros. unfold set_close_reason. ty. Qed.
#[local] Hint Resolve safe_set_close_reason : typing.
Lemma safe_manager_of Γ p c : Γ !! c = Some (KConnection p) -> safe Γ (manager_of c) (fun Γ m => Γ !! m = Some (KManager p)).
Proof. intros. unfold manager_of. ty. Qed.
#[local] Hint Resolve safe_manager_of : typing.
Lemma safe_ct_socket_manager_closed_connection_cb Γ p c : Γ !! c = Some (KConnection p) -> safe Γ (ct_socket_manager_closed_connection_cb c) data.
Proof. intros. unfold ct_socket_manager_closed_connection_cb. ty. Qed.
#[local] Hint Resolve safe_ct_socket_manager_closed_connection_cb : typing.
Lemma safe_ct_socket_manager_establishment_error_cb Γ p c : Γ !! c = Some (KConnection p) -> safe Γ (ct_socket_manager_establishment_error_cb c) data.
Proof. intros. unfold ct_socket_manager_establishment_error_cb. ty. Qed.
#[local] Hint Resolve safe_ct_socket_manager_establishment_error_cb : typing.
Lemma safe_ct_socket_manager_aborted_connection_cb Γ p c : Γ !! c = Some (KConnection p) -> safe Γ (ct_socket_manager_aborted_connection_cb c) data.
Proof. intros. unfold ct_socket_manager_aborted_connection_cb. ty. Qed.
#[local] Hint Resolve safe_ct_socket_manager_aborted_connection_cb : typing.
Lemma safe_ct_socket_manager_listener_closed_cb Γ p m : Γ !! m = Some (KManager p) -> safe Γ (ct_socket_manager_listener_closed_cb m) data.
Proof. intros. unfold ct_socket_manager_listener_closed_cb. ty. Qed.
#[local] Hint Resolve safe_ct_socket_manager_listener_closed_cb : typing.
Lemma safe_ct_socket_manager_new Γ impl l :
  ptr Γ (KListener (pi_enum impl)) l -> safe Γ (ct_socket_manager_new impl l) (fun Γ => ptr Γ (KManager (pi_enum impl))).
Proof. intros. unfold ct_socket_manager_new. eapply safe_bind; [ty_call|ty_intro]. ty_step; [ty|]. eapply safe_bind; [apply (safe_fresh_id _ (KManager (pi_enum impl)))|ty_intro]. cbv zeta. ty. Qed.
#[local] Hint Resolve safe_ct_socket_manager_new : typing.
Lemma safe_ct_socket_manager_free_connection_state Γ p c : Γ !! c = Some (KConnection p) -> safe Γ (ct_socket_manager_free_connection_state c) data.
Proof. intros. unfold ct_socket_manager_free_connection_state. ty. Qed.
#[local] Hint Resolve safe_ct_socket_manager_free_connection_state : typing.
Lemma safe_ct_connection_group_add_connection Γ p g c :
  Γ !! g = Some (KGroup p) -> Γ !! c = Some (KConnection p) -> safe Γ (ct_connection_group_add_connection g c) data.
Proof. intros. unfold ct_connection_group_add_connection. ty. Qed.
#[local] Hint Resolve safe_ct_connection_group_add_connection : typing.
Lemma safe_group_members Γ p g : Γ !! g = Some (KGroup p) -> safe Γ (group_members g) (fun Γ => all_of Γ (KConnection p)).
Proof. intros. unfold group_members. ty. Qed.
#[local] Hint Resolve safe_group_members : typing.
Lemma safe_ct_connection_group_get_first Γ p g : ptr Γ (KGroup p) g -> safe Γ (ct_connection_group_get_first g) (fun Γ => ptr Γ (KConnection p)).
Proof. intros. unfold ct_connection_group_get_first. ty. Qed.
#[local] Hint Resolve safe_ct_connection_group_get_first : typing.
Lemma safe_ct_connection_group_get_num_active_connections Γ p g :
  Γ !! g = Some (KGroup p) -> safe Γ (ct_connection_group_get_num_active_connections g) data.
Proof. intros. unfold ct_connection_group_get_num_active_connections. ty. Qed.
#[local] Hint Resolve safe_ct_connection_group_get_num_active_connections : typing.
Lemma safe_ct_connection_group_free Γ p g : ptr Γ (KGroup p) g -> safe Γ (ct_connection_group_free g) data.
Proof. intros. unfold ct_connection_group_free. ty. Qed.
#[local] Hint Resolve safe_ct_connection_group_free : typing.
Lemma safe_ct_connection_group_unref Γ p c : ptr Γ (KConnection p) c -> safe Γ (ct_connection_group_unref c) data.
Proof. intros. unfold ct_connection_group_unref. ty. Qed.
#[local] Hint Resolve safe_ct_connection_group_unref : typing.
End sockets.
#[export] Hint Resolve safe_ct_socket_manager_free safe_ct_socket_manager_unref safe_ct_socket_manager_close safe_set_close_reason
   safe_manager_of safe_ct_socket_manager_closed_connection_cb safe_ct_socket_manager_establishment_error_cb
   safe_ct_socket_manager_aborted_connection_cb safe_ct_socket_manager_listener_closed_cb safe_ct_socket_manager_new
   safe_ct_socket_manager_free_connection_state safe_ct_connection_group_add_connection safe_group_members safe_ct_connection_group_get_first
   safe_ct_connection_group_get_num_active_connections safe_ct_connection_group_free safe_ct_connection_group_unref : typing.

Lemma safe_generate_uuid Γ : safe Γ generate_uuid data.
Proof.
  unfold generate_uuid. eapply safe_bind; [apply safe_get|]. intros Γ1 w _ Hw. destruct (w_entropy w) as [|r l].
  - apply safe_zoom; [retype|calm].
  - eapply safe_bind; [apply safe_put; retype|]. intros Γ2 [] _ _. apply safe_zoom; [retype|calm].
Qed.
#[export] Hint Resolve safe_generate_uuid : typing.
Lemma safe_ct_connection_group_new Γ p props : safe Γ (ct_connection_group_new props) (fun Γ => ptr Γ (KGroup p)).
Proof. unfold ct_connection_group_new. ty. eapply safe_bind; [apply (safe_fresh_id _ (KGroup p))|ty_intro]. ty. Qed.
#[export] Hint Resolve safe_ct_connection_group_new : typing.
Lemma safe_ct_connection_group_get_transport_properties Γ p g : ptr Γ (KGroup p) g -> safe Γ (ct_connection_group_get_transport_properties g) data.
Proof. intros. unfold ct_connection_group_get_transport_properties. ty. Qed.
#[export] Hint Resolve safe_ct_connection_group_get_transport_properties : typing.

(** ** Connections *)

(** The entry that closes one connection. *)
Class TypedClose `{!CloseImpl} : Prop := {
  typed_close_connection Γ p c : Γ !! c = Some (KConnection p) -> safe Γ (impl_close_connection p c) data }.

(** The other entries. *)
Class TypedProtocols `{!ProtocolOps} : Prop := {
  typed_init Γ p c : Γ !! c = Some (KConnection p) -> safe Γ (impl_init p c) data;
  typed_init_with_send Γ p c m x : Γ !! c = Some (KConnection p) -> safe Γ (impl_init_with_send p c m x) data;
  typed_send Γ p c m x : Γ !! c = Some (KConnection p) -> safe Γ (impl_send p c m x) data;
  typed_listen Γ p m : Γ !! m = Some (KManager p) -> safe Γ (impl_listen p m) data;
  typed_close_listener Γ p m : Γ !! m = Some (KManager p) -> safe Γ (impl_close_listener p m) data;
  typed_abort Γ p c : Γ !! c = Some (KConnection p) -> safe Γ (impl_abort p c) data;
  typed_clone_connection Γ p s c :
    Γ !! s = Some (KConnection p) -> Γ !! c = Some (KConnection p) -> safe Γ (impl_clone_connection p s c) data;
  typed_close_connection_group Γ p g : Γ !! g = Some (KGroup p) -> safe Γ (impl_close_connection_group p g) data;
  typed_set_connection_priority Γ p c n f :
    impl_set_connection_priority p = Some f -> Γ !! c = Some (KConnection p) -> safe Γ (f c n) data }.

(** A framer passes its result on for the connection it was called for. *)
Class TypedFramers `{!Framers} : Prop := {
  typed_encode Γ p f c m x k : Γ !! c = Some (KConnection p) ->
    (forall Γ' m x, Γ ⊆ Γ' -> Γ' !! c = Some (KConnection p) -> safe Γ' (k c m x) data) ->
    safe Γ (framer_encode f c m x k) data;
  typed_decode Γ p f c m x k : Γ !! c = Some (KConnection p) ->
    (forall Γ' m x, Γ ⊆ Γ' -> Γ' !! c = Some (KConnection p) -> safe Γ' (k c m x) data) ->
    safe Γ (framer_decode f c m x k) data }.

#[export] Hint Resolve typed_close_connection typed_init typed_init_with_send typed_send typed_listen typed_close_listener
  typed_abort typed_clone_connection typed_close_connection_group typed_set_connection_priority : typing.

#[export] Hint Extern 2 (safe _ (framer_encode _ _ _ _ _) _) => eapply typed_encode; [eassumption|intros; solve [ty]] : typing.
#[export] Hint Extern 2 (safe _ (framer_decode _ _ _ _ _) _) => eapply typed_decode; [eassumption|intros; solve [ty]] : typing.

Lemma all_of_g_slist_remove Γ k c l : all_of Γ k l -> all_of Γ k (g_slist_remove c l).
Proof.
  induction l as [|x l IH]; intros Hl; cbn; [done|]. ty_open. destruct (bool_decide _); [done|]. constructor; [done|by apply IH].
Qed.
#[export] Hint Resolve all_of_g_slist_remove : pointers.

Lemma safe_ct_connection_create_empty_with_uuid Γ p : safe Γ (ct_connection_create_empty_with_uuid) (fun Γ => ptr Γ (KConnection p)).
Proof. unfold ct_connection_create_empty_with_uuid. ty. eapply safe_bind; [apply (safe_fresh_id _ (KConnection p))|ty_intro]. ty. Qed.
#[export] Hint Resolve safe_ct_connection_create_empty_with_uuid : typing.
Lemma safe_copy_security Γ p c s : Γ !! c = Some (KConnection p) -> safe Γ (copy_security c s) data.
Proof. intros. unfold copy_security. ty. Qed.
#[export] Hint Resolve safe_copy_security : typing.
Lemma safe_copy_framer Γ p c f : Γ !! c = Some (KConnection p) -> safe Γ (copy_framer c f) data.
Proof. intros. unfold copy_framer. ty. Qed.
#[export] Hint Resolve safe_copy_framer : typing.
Lemma safe_set_callbacks Γ p c s : Γ !! c = Some (KConnection p) -> safe Γ (set_callbacks c s) data.
Proof. intros. unfold set_callbacks. ty. Qed.
#[export] Hint Resolve safe_set_callbacks : typing.

Section connections.
Context `{!SocketImpl, !TypedSockets}.

Lemma safe_ct_connection_free_content Γ p c : ptr Γ (KConnection p) c -> safe Γ (ct_connection_free_content c) data.
Proof. intros. unfold ct_connection_free_content. ty. Qed.
#[local] Hint Resolve safe_ct_connection_free_content : typing.
Lemma safe_ct_connection_free Γ p c : ptr Γ (KConnection p) c -> safe Γ (ct_connection_free c) data.
Proof. intros. unfold ct_connection_free. ty. Qed.
#[local] Hint Resolve safe_ct_connection_free : typing.
Lemma safe_ct_connection_create_server_connection Γ p m r l t s cbs f :
  Γ !! m = Some (KManager p) -> safe Γ (ct_connection_create_server_connection m r l t s cbs f) (fun Γ => ptr Γ (KConnection p)).
Proof. intros. unfold ct_connection_create_server_connection. ty. Qed.
#[local] Hint Resolve safe_ct_connection_create_server_connection : typing.
Lemma safe_ct_connection_create_client Γ impl l i r j t s cbs f :
  safe Γ (ct_connection_create_client impl l i r j t s cbs f) (fun Γ => ptr Γ (KConnection (pi_enum impl))).
Proof. unfold ct_connection_create_client. ty. Qed.
#[local] Hint Resolve safe_ct_connection_create_client : typing.
Lemma safe_ct_connection_create_clone Γ p s m f i :
  Γ !! s = Some (KConnection p) -> ptr Γ (KManager p) m -> quic_ptr Γ p KStream i -> safe Γ (ct_connection_create_clone s m f i) (fun Γ => ptr Γ (KConnection p)).
Proof. intros. unfold ct_connection_create_clone. ty. Qed.
#[local] Hint Resolve safe_ct_connection_create_clone : typing.
End connections.
#[export] Hint Resolve safe_ct_connection_free_content safe_ct_connection_free safe_ct_connection_create_server_connection
   safe_ct_connection_create_client safe_ct_connection_create_clone : typing.

(** Endpoints. *)
Lemma safe_ct_connection_set_active_remote_endpoint_index Γ p c i :
  Γ !! c = Some (KConnection p) -> safe Γ (ct_connection_set_active_remote_endpoint_index c i) data.
Proof. intros. unfold ct_connection_set_active_remote_endpoint_index. ty. Qed.
#[export] Hint Resolve safe_ct_connection_set_active_remote_endpoint_index : typing.
Lemma safe_ct_connection_set_active_local_endpoint_index Γ p c i :
  Γ !! c = Some (KConnection p) -> safe Γ (ct_connection_set_active_local_endpoint_index c i) data.
Proof. intros. unfold ct_connection_set_active_local_endpoint_index. ty. Qed.
#[export] Hint Resolve safe_ct_connection_set_active_local_endpoint_index : typing.
Lemma safe_ct_connection_set_active_remote_endpoint Γ p c e :
  Γ !! c = Some (KConnection p) -> safe Γ (ct_connection_set_active_remote_endpoint c e) data.
Proof. intros. unfold ct_connection_set_active_remote_endpoint. ty. Qed.
#[export] Hint Resolve safe_ct_connection_set_active_remote_endpoint : typing.
Lemma safe_ct_connection_set_active_local_endpoint Γ p c e :
  Γ !! c = Some (KConnection p) -> safe Γ (ct_connection_set_active_local_endpoint c e) data.
Proof. intros. unfold ct_connection_set_active_local_endpoint. ty. Qed.
#[export] Hint Resolve safe_ct_connection_set_active_local_endpoint : typing.
Lemma safe_ct_connection_set_all_local_port Γ p c n : Γ !! c = Some (KConnection p) -> safe Γ (ct_connection_set_all_local_port c n) data.
Proof. intros. unfold ct_connection_set_all_local_port. ty. Qed.
#[export] Hint Resolve safe_ct_connection_set_all_local_port : typing.
Section getters.
Context `{!HashOrder}.

Lemma safe_set_active_endpoints {E} Γ p (setter : id -> E -> M world (Z * option bool)) e l r ch :
  (forall Γ c, Γ !! c = Some (KConnection p) -> safe Γ (setter c e) data) -> all_of Γ (KConnection p) l ->
  safe Γ (set_active_endpoints setter e l r ch) data.
Proof.
  intros Hs. revert Γ r ch. induction l as [|c l IH]; intros Γ r ch Hl; cbn [set_active_endpoints]; [ty|]. ty_open.
  eapply safe_bind; [by apply Hs|ty_intro]. ty.
Qed.
Lemma safe_ct_connection_group_set_active_remote_endpoint Γ p g e :
  Γ !! g = Some (KGroup p) -> safe Γ (ct_connection_group_set_active_remote_endpoint g e) data.
Proof. intros. unfold ct_connection_group_set_active_remote_endpoint, ct_connection_group_set_active_endpoint. eapply safe_bind; [ty_call|ty_intro]. eapply (safe_set_active_endpoints _ p); [eauto with typing|done]. Qed.
#[local] Hint Resolve safe_ct_connection_group_set_active_remote_endpoint : typing.
Lemma safe_ct_connection_group_set_active_local_endpoint Γ p g e :
  Γ !! g = Some (KGroup p) -> safe Γ (ct_connection_group_set_active_local_endpoint g e) data.
Proof. intros. unfold ct_connection_group_set_active_local_endpoint, ct_connection_group_set_active_endpoint. eapply safe_bind; [ty_call|ty_intro]. eapply (safe_set_active_endpoints _ p); [eauto with typing|done]. Qed.
#[local] Hint Resolve safe_ct_connection_group_set_active_local_endpoint : typing.
Lemma safe_ct_connection_get_active_remote_endpoint Γ p c :
  ptr Γ (KConnection p) c -> safe Γ (ct_connection_get_active_remote_endpoint c) (fun Γ r => ptr Γ (KConnection p) (fst <$> r)).
Proof. intros. unfold ct_connection_get_active_remote_endpoint. ty. Qed.
#[local] Hint Resolve safe_ct_connection_get_active_remote_endpoint : typing.
Lemma safe_ct_connection_get_active_local_endpoint Γ p c :
  ptr Γ (KConnection p) c -> safe Γ (ct_connection_get_active_local_endpoint c) (fun Γ r => ptr Γ (KConnection p) (fst <$> r)).
Proof. intros. unfold ct_connection_get_active_local_endpoint. ty. Qed.
#[local] Hint Resolve safe_ct_connection_get_active_local_endpoint : typing.
Lemma safe_remote_endpoint_at Γ p x : Γ !! x.1 = Some (KConnection p) -> safe Γ (remote_endpoint_at x) data.
Proof. intros. unfold remote_endpoint_at. ty. Qed.
#[local] Hint Resolve safe_remote_endpoint_at : typing.
Lemma safe_local_endpoint_at Γ p x : Γ !! x.1 = Some (KConnection p) -> safe Γ (local_endpoint_at x) data.
Proof. intros. unfold local_endpoint_at. ty. Qed.
#[local] Hint Resolve safe_local_endpoint_at : typing.
Lemma safe_active_remote_endpoint Γ p c : Γ !! c = Some (KConnection p) -> safe Γ (active_remote_endpoint c) data.
Proof. intros. unfold active_remote_endpoint. ty. Qed.
#[local] Hint Resolve safe_active_remote_endpoint : typing.
Lemma safe_active_local_endpoint Γ p c : Γ !! c = Some (KConnection p) -> safe Γ (active_local_endpoint c) data.
Proof. intros. unfold active_local_endpoint. ty. Qed.
#[local] Hint Resolve safe_active_local_endpoint : typing.
Lemma safe_ct_connection_set_sent_early_data Γ p c b : ptr Γ (KConnection p) c -> safe Γ (ct_connection_set_sent_early_data c b) data.
Proof. intros. unfold ct_connection_set_sent_early_data. ty. Qed.
#[local] Hint Resolve safe_ct_connection_set_sent_early_data : typing.
Lemma safe_ct_connection_set_socket_state Γ p c s : ptr Γ (KConnection p) c -> state_typed Γ p s -> safe Γ (ct_connection_set_socket_state c s) data.
Proof. intros. unfold ct_connection_set_socket_state. ty. Qed.
#[local] Hint Resolve safe_ct_connection_set_socket_state : typing.
Lemma safe_ct_connection_get_socket_state Γ p c : ptr Γ (KConnection p) c -> safe Γ (ct_connection_get_socket_state c) (fun Γ => state_typed Γ p).
Proof. intros. unfold ct_connection_get_socket_state. ty. Qed.
#[local] Hint Resolve safe_ct_connection_get_socket_state : typing.
Lemma safe_ct_connection_get_transport_properties Γ p c : ptr Γ (KConnection p) c -> safe Γ (ct_connection_get_transport_properties c) data.
Proof. intros. unfold ct_connection_get_transport_properties. ty. Qed.
#[local] Hint Resolve safe_ct_connection_get_transport_properties : typing.
Lemma safe_ct_connection_group_notify_of_path_change Γ p g : Γ !! g = Some (KGroup p) -> safe Γ (ct_connection_group_notify_of_path_change g) data.
Proof. intros. unfold ct_connection_group_notify_of_path_change. ty. Qed.
#[local] Hint Resolve safe_ct_connection_group_notify_of_path_change : typing.
End getters.
#[export] Hint Resolve safe_ct_connection_group_set_active_remote_endpoint safe_ct_connection_group_set_active_local_endpoint
   safe_ct_connection_get_active_remote_endpoint safe_ct_connection_get_active_local_endpoint safe_remote_endpoint_at safe_local_endpoint_at
   safe_active_remote_endpoint safe_active_local_endpoint safe_ct_connection_set_sent_early_data safe_ct_connection_set_socket_state
   safe_ct_connection_get_socket_state safe_ct_connection_get_transport_properties safe_ct_connection_group_notify_of_path_change : typing.

(** Receiving. *)
Section receiving.
Context `{!Framers, !TypedFramers}.

Lemma safe_context_from_connection Γ p c : Γ !! c = Some (KConnection p) -> safe Γ (context_from_connection c) data.
Proof. intros. unfold context_from_connection. ty. Qed.
#[local] Hint Resolve safe_context_from_connection : typing.
Lemma safe_ct_receive_message Γ p c cbs : ptr Γ (KConnection p) c -> safe Γ (ct_receive_message c cbs) data.
Proof. intros. unfold ct_receive_message. ty. Qed.
#[local] Hint Resolve safe_ct_receive_message : typing.
Lemma safe_ct_connection_deliver_to_app Γ p c m x : Γ !! c = Some (KConnection p) -> safe Γ (ct_connection_deliver_to_app c m x) data.
Proof. intros. unfold ct_connection_deliver_to_app. ty. Qed.
#[local] Hint Resolve safe_ct_connection_deliver_to_app : typing.
Lemma safe_ct_connection_on_protocol_receive Γ p c l : Γ !! c = Some (KConnection p) -> safe Γ (ct_connection_on_protocol_receive c l) data.
Proof. intros. unfold ct_connection_on_protocol_receive. ty. Qed.
#[local] Hint Resolve safe_ct_connection_on_protocol_receive : typing.
End receiving.
#[export] Hint Resolve safe_context_from_connection safe_ct_receive_message safe_ct_connection_deliver_to_app
   safe_ct_connection_on_protocol_receive : typing.

(** Through the protocol. *)
Section protocols.
Context `{!SocketImpl, !CloseImpl, !ProtocolOps, !Framers, !HashOrder, !TypedSockets, !TypedClose, !TypedProtocols, !TypedFramers}.

Lemma safe_protocol_of Γ p c : Γ !! c = Some (KConnection p) -> safe Γ (protocol_of c) (fun _ q => q = p).
Proof. intros. unfold protocol_of. ty. Qed.
#[local] Hint Resolve safe_protocol_of : typing.
Lemma safe_ct_socket_manager_close_connection Γ p c : Γ !! c = Some (KConnection p) -> safe Γ (ct_socket_manager_close_connection c) data.
Proof. intros. unfold ct_socket_manager_close_connection. ty. Qed.
#[local] Hint Resolve safe_ct_socket_manager_close_connection : typing.
Lemma safe_ct_connection_close Γ p c : Γ !! c = Some (KConnection p) -> safe Γ (ct_connection_close c) data.
Proof. intros. unfold ct_connection_close. ty. Qed.
#[local] Hint Resolve safe_ct_connection_close : typing.
Lemma safe_ct_connection_send_to_protocol Γ p c m x : Γ !! c = Some (KConnection p) -> safe Γ (ct_connection_send_to_protocol c m x) data.
Proof. intros. unfold ct_connection_send_to_protocol. ty. Qed.
#[local] Hint Resolve safe_ct_connection_send_to_protocol : typing.
Lemma safe_ct_send_message_full Γ p c m x : Γ !! c = Some (KConnection p) -> safe Γ (ct_send_message_full c m x) data.
Proof. intros. unfold ct_send_message_full. ty. Qed.
#[local] Hint Resolve safe_ct_send_message_full : typing.
Lemma safe_ct_connection_abort Γ p c : Γ !! c = Some (KConnection p) -> safe Γ (ct_connection_abort c) data.
Proof. intros. unfold ct_connection_abort. ty. Qed.
#[local] Hint Resolve safe_ct_connection_abort : typing.
Lemma safe_ct_connection_clone_full Γ p c f : Γ !! c = Some (KConnection p) -> safe Γ (ct_connection_clone_full c f) data.
Proof. intros. unfold ct_connection_clone_full. ty. Qed.
#[local] Hint Resolve safe_ct_connection_clone_full : typing.
Lemma safe_ct_connection_group_abort_all Γ p g : Γ !! g = Some (KGroup p) -> safe Γ (ct_connection_group_abort_all g) data.
Proof. intros. unfold ct_connection_group_abort_all. ty. Qed.
#[local] Hint Resolve safe_ct_connection_group_abort_all : typing.
Lemma safe_ct_socket_manager_close_group Γ p m g :
  Γ !! m = Some (KManager p) -> Γ !! g = Some (KGroup p) -> safe Γ (ct_socket_manager_close_group m g) data.
Proof. intros. unfold ct_socket_manager_close_group. ty. Qed.
#[local] Hint Resolve safe_ct_socket_manager_close_group : typing.
Lemma safe_ct_connection_close_group Γ p c : ptr Γ (KConnection p) c -> safe Γ (ct_connection_close_group c) data.
Proof. intros. unfold ct_connection_close_group. ty. Qed.
#[local] Hint Resolve safe_ct_connection_close_group : typing.
Lemma safe_ct_connection_abort_group Γ p c : ptr Γ (KConnection p) c -> safe Γ (ct_connection_abort_group c) data.
Proof. intros. unfold ct_connection_abort_group. ty. Qed.
#[local] Hint Resolve safe_ct_connection_abort_group : typing.
Lemma safe_ct_socket_manager_listener_close Γ p m : Γ !! m = Some (KManager p) -> safe Γ (ct_socket_manager_listener_close m) data.
Proof. intros. unfold ct_socket_manager_listener_close. ty. Qed.
#[local] Hint Resolve safe_ct_socket_manager_listener_close : typing.
Lemma safe_ct_socket_manager_listen Γ p l : ptr Γ (KListener p) l -> safe Γ (ct_socket_manager_listen l) data.
Proof. intros. unfold ct_socket_manager_listen. ty. Qed.
#[local] Hint Resolve safe_ct_socket_manager_listen : typing.
Lemma safe_ct_socket_manager_notify_protocol_of_priority_change Γ p c n :
  Γ !! c = Some (KConnection p) -> safe Γ (ct_socket_manager_notify_protocol_of_priority_change c n) data.
Proof. intros. unfold ct_socket_manager_notify_protocol_of_priority_change. ty. Qed.
#[local] Hint Resolve safe_ct_socket_manager_notify_protocol_of_priority_change : typing.
Lemma safe_ct_connection_set_priority Γ p c n : ptr Γ (KConnection p) c -> safe Γ (ct_connection_set_priority c n) data.
Proof. intros. unfold ct_connection_set_priority. ty. Qed.
#[local] Hint Resolve safe_ct_connection_set_priority : typing.
End protocols.
#[export] Hint Resolve safe_protocol_of safe_ct_socket_manager_close_connection safe_ct_connection_close safe_ct_connection_send_to_protocol
   safe_ct_send_message_full safe_ct_connection_abort safe_ct_connection_clone_full safe_ct_connection_group_abort_all
   safe_ct_socket_manager_close_group safe_ct_connection_close_group safe_ct_connection_abort_group safe_ct_socket_manager_listener_close
   safe_ct_socket_manager_listen safe_ct_socket_manager_notify_protocol_of_priority_change safe_ct_connection_set_priority : typing.
