(* ===== verification/TypingProtocols.v ===== *)
(** The typing of UDP and TCP.

    The rules for the operations and the callbacks of Udp and Tcp: each is
    used on connections, managers and handles of its own protocol only. *)

From S2P Require Export TypingConnections.
Open Scope Z_scope.

(** ** UDP *)


Lemma safe_create_udp_listening_on_local Γ e cb : read_kind cb = KUdp -> safe Γ (create_udp_listening_on_local e cb) (fun Γ => ptr Γ (KHandle KUdp)).
Proof. intros. unfold create_udp_listening_on_local. cbv zeta. ty. eapply safe_bind; [apply (safe_new_handle _ KUdp)|ty_intro]. ty. Qed.
#[export] Hint Resolve safe_create_udp_listening_on_local : typing.
Lemma safe_create_udp_listening_on_ephemeral Γ cb :
  read_kind cb = KUdp -> safe Γ (create_udp_listening_on_ephemeral cb) (fun Γ => ptr Γ (KHandle KUdp)).
Proof. intros. unfold create_udp_listening_on_ephemeral. ty. Qed.
#[export] Hint Resolve safe_create_udp_listening_on_ephemeral : typing.
Lemma safe_get_sockaddr_from_handle Γ k h : Γ !! h = Some (KHandle k) -> safe Γ (get_sockaddr_from_handle h) data.
Proof. intros. unfold get_sockaddr_from_handle. ty. Qed.
#[export] Hint Resolve safe_get_sockaddr_from_handle : typing.
Lemma safe_resolve_local_endpoint_from_handle Γ k p h c :
  Γ !! h = Some (KHandle k) -> Γ !! c = Some (KConnection p) -> safe Γ (resolve_local_endpoint_from_handle h c) data.
Proof. intros. unfold resolve_local_endpoint_from_handle. ty. Qed.
#[export] Hint Resolve safe_resolve_local_endpoint_from_handle : typing.
Lemma safe_ct_udp_socket_state_new Γ h : ptr Γ (KHandle KUdp) h -> safe Γ (ct_udp_socket_state_new h) (fun Γ => state_typed Γ CT_PROTOCOL_UDP).
Proof. intros. unfold ct_udp_socket_state_new. ty. Qed.
#[export] Hint Resolve safe_ct_udp_socket_state_new : typing.
Lemma safe_udp_handle_of Γ s : state_typed Γ CT_PROTOCOL_UDP s -> safe Γ (udp_handle_of s) (fun Γ => ptr Γ (KHandle KUdp)).
Proof. intros. unfold udp_handle_of. ty. Qed.
#[export] Hint Resolve safe_udp_handle_of : typing.
Lemma safe_udp_free_state Γ c : Γ !! c = Some (KConnection CT_PROTOCOL_UDP) -> safe Γ (udp_free_state c) data.
Proof. intros. unfold udp_free_state. ty. Qed.
#[export] Hint Resolve safe_udp_free_state : typing.
Lemma safe_udp_free_connection_group_state Γ g : safe Γ (udp_free_connection_group_state g) data.
Proof. unfold udp_free_connection_group_state. ty. Qed.
#[export] Hint Resolve safe_udp_free_connection_group_state : typing.
Lemma safe_udp_free_socket_state Γ m : Γ !! m = Some (KManager CT_PROTOCOL_UDP) -> safe Γ (udp_free_socket_state m) data.
Proof. intros. unfold udp_free_socket_state. ty. Qed.
#[export] Hint Resolve safe_udp_free_socket_state : typing.
Lemma safe_udp_close_socket Γ m : Γ !! m = Some (KManager CT_PROTOCOL_UDP) -> safe Γ (udp_close_socket m) data.
Proof. intros. unfold udp_close_socket. ty. Qed.
#[export] Hint Resolve safe_udp_close_socket : typing.
Lemma safe_udp_send_data_new Γ c m x :
  Γ !! c = Some (KConnection CT_PROTOCOL_UDP) -> safe Γ (udp_send_data_new c m x) (fun Γ => send_data_typed Γ CT_PROTOCOL_UDP).
Proof. intros. unfold udp_send_data_new. ty. Qed.
#[export] Hint Resolve safe_udp_send_data_new : typing.
Lemma safe_udp_send Γ c m x : Γ !! c = Some (KConnection CT_PROTOCOL_UDP) -> safe Γ (udp_send c m x) data.
Proof. intros. unfold udp_send. ty. Qed.
#[export] Hint Resolve safe_udp_send : typing.
Lemma safe_on_send Γ r n : Γ !! r = Some (KRequest KSend) -> safe Γ (on_send r n) data.
Proof. intros. unfold on_send. ty. Qed.
#[export] Hint Resolve safe_on_send : typing.

Section udp.
Context `{!SocketImpl, !Framers, !HashOrder, !TypedSockets, !TypedFramers}.

Lemma safe_udp_init_with_send Γ c m x : Γ !! c = Some (KConnection CT_PROTOCOL_UDP) -> safe Γ (udp_init_with_send c m x) data.
Proof. intros. unfold udp_init_with_send. ty. Qed.
#[local] Hint Resolve safe_udp_init_with_send : typing.
Lemma safe_udp_init Γ c : Γ !! c = Some (KConnection CT_PROTOCOL_UDP) -> safe Γ (udp_init c) data.
Proof. intros. unfold udp_init. ty. Qed.
#[local] Hint Resolve safe_udp_init : typing.
Lemma safe_udp_close Γ c : Γ !! c = Some (KConnection CT_PROTOCOL_UDP) -> safe Γ (udp_close c) data.
Proof. intros. unfold udp_close. ty. Qed.
#[local] Hint Resolve safe_udp_close : typing.
Lemma safe_udp_abort Γ c : Γ !! c = Some (KConnection CT_PROTOCOL_UDP) -> safe Γ (udp_abort c) data.
Proof. intros. unfold udp_abort. ty. Qed.
#[local] Hint Resolve safe_udp_abort : typing.
Lemma safe_udp_clone_connection Γ s c :
  Γ !! s = Some (KConnection CT_PROTOCOL_UDP) -> Γ !! c = Some (KConnection CT_PROTOCOL_UDP) -> safe Γ (udp_clone_connection s c) data.
Proof. intros. unfold udp_clone_connection. ty. Qed.
#[local] Hint Resolve safe_udp_clone_connection : typing.
Lemma safe_udp_close_connection_group Γ g : Γ !! g = Some (KGroup CT_PROTOCOL_UDP) -> safe Γ (udp_close_connection_group g) data.
Proof. intros. unfold udp_close_connection_group. ty. Qed.
#[local] Hint Resolve safe_udp_close_connection_group : typing.
Lemma safe_udp_listen Γ m : Γ !! m = Some (KManager CT_PROTOCOL_UDP) -> safe Γ (udp_listen m) data.
Proof. intros. unfold udp_listen. ty. Qed.
#[local] Hint Resolve safe_udp_listen : typing.
Lemma safe_udp_close_listener Γ m : Γ !! m = Some (KManager CT_PROTOCOL_UDP) -> safe Γ (udp_close_listener m) data.
Proof. intros. unfold udp_close_listener. ty. Qed.
#[local] Hint Resolve safe_udp_close_listener : typing.
Lemma safe_udp_multiplex_received_message Γ m l a : Γ !! m = Some (KManager CT_PROTOCOL_UDP) -> safe Γ (udp_multiplex_received_message m l a) data.
Proof. intros. unfold udp_multiplex_received_message. ty. Qed.
#[local] Hint Resolve safe_udp_multiplex_received_message : typing.
Lemma safe_on_read Γ h r b : Γ !! h = Some (KHandle KUdp) -> safe Γ (on_read h r b) data.
Proof. intros. unfold on_read. ty. Qed.
#[local] Hint Resolve safe_on_read : typing.
Lemma safe_socket_listen_callback Γ h r b : Γ !! h = Some (KHandle KUdp) -> safe Γ (socket_listen_callback h r b) data.
Proof. intros. unfold socket_listen_callback. ty. Qed.
#[local] Hint Resolve safe_socket_listen_callback : typing.
Lemma safe_closed_handle_cb Γ h : Γ !! h = Some (KHandle KUdp) -> safe Γ (closed_handle_cb h) data.
Proof. intros. unfold closed_handle_cb. ty. Qed.
#[local] Hint Resolve safe_closed_handle_cb : typing.
Lemma safe_socket_closed_success Γ h : Γ !! h = Some (KHandle KUdp) -> safe Γ (socket_closed_success h) data.
Proof. intros. unfold socket_closed_success. ty. Qed.
#[local] Hint Resolve safe_socket_closed_success : typing.
End udp.
#[export] Hint Resolve safe_udp_init_with_send safe_udp_init safe_udp_close safe_udp_abort safe_udp_clone_connection
   safe_udp_close_connection_group safe_udp_listen safe_udp_close_listener safe_udp_multiplex_received_message safe_on_read
   safe_socket_listen_callback safe_closed_handle_cb safe_socket_closed_success : typing.

(** ** TCP *)

Lemma safe_ct_tcp_send_data_new Γ c m x :
  Γ !! c = Some (KConnection CT_PROTOCOL_TCP) -> safe Γ (ct_tcp_send_data_new c m x) (fun Γ => send_data_typed Γ CT_PROTOCOL_TCP).
Proof. intros. unfold ct_tcp_send_data_new. ty. Qed.
#[export] Hint Resolve safe_ct_tcp_send_data_new : typing.
Lemma safe_ct_tcp_socket_state_new Γ c l m x r h :
  ptr Γ (KConnection CT_PROTOCOL_TCP) c -> ptr Γ (KListener CT_PROTOCOL_TCP) l -> ptr Γ (KRequest KConnect) r -> Γ !! h = Some (KHandle KTcp) -> safe Γ (ct_tcp_socket_state_new c l m x r h) (fun Γ => state_typed Γ CT_PROTOCOL_TCP).
Proof. intros. unfold ct_tcp_socket_state_new. ty. Qed.
#[export] Hint Resolve safe_ct_tcp_socket_state_new : typing.
Lemma safe_malloc_connect_req Γ h b : Γ !! h = Some (KHandle KTcp) -> safe Γ (malloc_connect_req h b) (fun Γ => ptr Γ (KRequest KConnect)).
Proof. intros. unfold malloc_connect_req. ty. Qed.
#[export] Hint Resolve safe_malloc_connect_req : typing.
Lemma safe_free_connect_req Γ r : ptr Γ (KRequest KConnect) r -> safe Γ (free_connect_req r) data.
Proof. intros. unfold free_connect_req. ty. Qed.
#[export] Hint Resolve safe_free_connect_req : typing.
Lemma safe_ct_tcp_socket_state_free Γ s : state_typed Γ CT_PROTOCOL_TCP (Some s) -> safe Γ (ct_tcp_socket_state_free s) data.
Proof. intros. unfold ct_tcp_socket_state_free. ty. Qed.
#[export] Hint Resolve safe_ct_tcp_socket_state_free : typing.
Lemma safe_tcp_state_of Γ m : Γ !! m = Some (KManager CT_PROTOCOL_TCP) -> safe Γ (tcp_state_of m) (fun Γ s => state_typed Γ CT_PROTOCOL_TCP (Some s)).
Proof. intros. unfold tcp_state_of. ty. Qed.
#[export] Hint Resolve safe_tcp_state_of : typing.
Lemma safe_tcp_handle_of Γ s : state_typed Γ CT_PROTOCOL_TCP (Some s) -> safe Γ (tcp_handle_of s) (fun Γ h => Γ !! h = Some (KHandle KTcp)).
Proof. intros. unfold tcp_handle_of. ty. Qed.
#[export] Hint Resolve safe_tcp_handle_of : typing.
Lemma safe_tcp_connection_of Γ s :
  state_typed Γ CT_PROTOCOL_TCP (Some s) -> safe Γ (tcp_connection_of s) (fun Γ c => Γ !! c = Some (KConnection CT_PROTOCOL_TCP)).
Proof. intros. unfold tcp_connection_of. ty. Qed.
#[export] Hint Resolve safe_tcp_connection_of : typing.
Lemma safe_data_of Γ k h : Γ !! h = Some (KHandle k) -> safe Γ (data_of h) (fun Γ d => Γ !! d = Some (data_kind k)).
Proof. intros. unfold data_of. ty. Qed.
#[export] Hint Resolve safe_data_of : typing.
Lemma safe_connection_of Γ h : Γ !! h = Some (KHandle KTcp) -> safe Γ (connection_of h) (fun Γ c => Γ !! c = Some (KConnection CT_PROTOCOL_TCP)).
Proof. intros. unfold connection_of. ty. Qed.
#[export] Hint Resolve safe_connection_of : typing.
Lemma safe_tcp_free_state Γ c : safe Γ (tcp_free_state c) data.
Proof. unfold tcp_free_state. ty. Qed.
#[export] Hint Resolve safe_tcp_free_state : typing.
Lemma safe_tcp_free_connection_group_state Γ g : safe Γ (tcp_free_connection_group_state g) data.
Proof. unfold tcp_free_connection_group_state. ty. Qed.
#[export] Hint Resolve safe_tcp_free_connection_group_state : typing.
Lemma safe_tcp_close_socket Γ m : Γ !! m = Some (KManager CT_PROTOCOL_TCP) -> safe Γ (tcp_close_socket m) data.
Proof. intros. unfold tcp_close_socket. ty. Qed.
#[export] Hint Resolve safe_tcp_close_socket : typing.
Lemma safe_tcp_free_socket_state Γ m : Γ !! m = Some (KManager CT_PROTOCOL_TCP) -> safe Γ (tcp_free_socket_state m) data.
Proof. intros. unfold tcp_free_socket_state. ty. Qed.
#[export] Hint Resolve safe_tcp_free_socket_state : typing.
Lemma safe_tcp_close Γ c : Γ !! c = Some (KConnection CT_PROTOCOL_TCP) -> safe Γ (tcp_close c) data.
Proof. intros. unfold tcp_close. ty. Qed.
#[export] Hint Resolve safe_tcp_close : typing.
Lemma safe_tcp_abort Γ c : Γ !! c = Some (KConnection CT_PROTOCOL_TCP) -> safe Γ (tcp_abort c) data.
Proof. intros. unfold tcp_abort. ty. Qed.
#[export] Hint Resolve safe_tcp_abort : typing.
Lemma safe_tcp_close_listener Γ m : Γ !! m = Some (KManager CT_PROTOCOL_TCP) -> safe Γ (tcp_close_listener m) data.
Proof. intros. unfold tcp_close_listener. ty. Qed.
#[export] Hint Resolve safe_tcp_close_listener : typing.
Lemma safe_tcp_send Γ c m x : Γ !! c = Some (KConnection CT_PROTOCOL_TCP) -> safe Γ (tcp_send c m x) data.
Proof. intros. unfold tcp_send. ty. Qed.
#[export] Hint Resolve safe_tcp_send : typing.
Lemma safe_on_write Γ r n : Γ !! r = Some (KRequest KWrite) -> safe Γ (on_write r n) data.
Proof. intros. unfold on_write. ty. Qed.
#[export] Hint Resolve safe_on_write : typing.

Section tcp.
Context `{!SocketImpl, !CloseImpl, !Framers, !HashOrder, !TypedSockets, !TypedClose, !TypedFramers}.

Lemma safe_tcp_close_connection_group Γ g : Γ !! g = Some (KGroup CT_PROTOCOL_TCP) -> safe Γ (tcp_close_connection_group g) data.
Proof. intros. unfold tcp_close_connection_group. ty. Qed.
#[local] Hint Resolve safe_tcp_close_connection_group : typing.
Lemma safe_set_keepalive Γ p c : Γ !! c = Some (KConnection p) -> safe Γ (set_keepalive c) data.
Proof. intros. unfold set_keepalive. ty. Qed.
#[local] Hint Resolve safe_set_keepalive : typing.
Lemma safe_uv_tcp_connect Γ r h b : ptr Γ (KRequest KConnect) r -> Γ !! h = Some (KHandle KTcp) -> safe Γ (uv_tcp_connect r h b) data.
Proof. intros. unfold uv_tcp_connect. ty. Qed.
#[local] Hint Resolve safe_uv_tcp_connect : typing.
Lemma safe_fail_establishment Γ p c n : Γ !! c = Some (KConnection p) -> safe Γ (fail_establishment c n) data.
Proof. intros. unfold fail_establishment. ty. Qed.
#[local] Hint Resolve safe_fail_establishment : typing.
Lemma safe_tcp_start_connect Γ c r h :
  Γ !! c = Some (KConnection CT_PROTOCOL_TCP) -> ptr Γ (KRequest KConnect) r -> Γ !! h = Some (KHandle KTcp) -> safe Γ (tcp_start_connect c r h) data.
Proof. intros. unfold tcp_start_connect. ty. Qed.
#[local] Hint Resolve safe_tcp_start_connect : typing.
Lemma safe_tcp_init_with_send Γ c m x : Γ !! c = Some (KConnection CT_PROTOCOL_TCP) -> safe Γ (tcp_init_with_send c m x) data.
Proof. intros. unfold tcp_init_with_send. ty. eapply safe_bind; [apply (safe_new_handle _ KTcp)|ty_intro]. ty. Qed.
#[local] Hint Resolve safe_tcp_init_with_send : typing.
Lemma safe_tcp_init Γ c : Γ !! c = Some (KConnection CT_PROTOCOL_TCP) -> safe Γ (tcp_init c) data.
Proof. intros. unfold tcp_init. ty. eapply safe_bind; [apply (safe_new_handle _ KTcp)|ty_intro]. ty. Qed.
#[local] Hint Resolve safe_tcp_init : typing.
Lemma safe_on_connect Γ h n : Γ !! h = Some (KHandle KTcp) -> safe Γ (on_connect h n) data.
Proof. intros. unfold on_connect. ty. Qed.
#[local] Hint Resolve safe_on_connect : typing.
Lemma safe_on_clone_connect Γ h n : Γ !! h = Some (KHandle KTcp) -> safe Γ (on_clone_connect h n) data.
Proof. intros. unfold on_clone_connect. ty. Qed.
#[local] Hint Resolve safe_on_clone_connect : typing.
Lemma safe_tcp_clone_connection Γ s c :
  Γ !! s = Some (KConnection CT_PROTOCOL_TCP) -> Γ !! c = Some (KConnection CT_PROTOCOL_TCP) -> safe Γ (tcp_clone_connection s c) data.
Proof. intros. unfold tcp_clone_connection. ty. eapply safe_bind; [apply (safe_new_handle _ KTcp)|ty_intro]. ty. Qed.
#[local] Hint Resolve safe_tcp_clone_connection : typing.
Lemma safe_tcp_on_read Γ h r b : Γ !! h = Some (KHandle KTcp) -> safe Γ (tcp_on_read h r b) data.
Proof. intros. unfold tcp_on_read. ty. Qed.
#[local] Hint Resolve safe_tcp_on_read : typing.
Lemma safe_tcp_listen Γ m : Γ !! m = Some (KManager CT_PROTOCOL_TCP) -> safe Γ (tcp_listen m) data.
Proof. intros. unfold tcp_listen. ty. eapply safe_bind; [apply (safe_new_handle _ KTcp)|ty_intro]. ty. Qed.
#[local] Hint Resolve safe_tcp_listen : typing.
Lemma safe_new_stream_connection_cb Γ h n : Γ !! h = Some (KHandle KTcp) -> safe Γ (new_stream_connection_cb h n) data.
Proof. intros. unfold new_stream_connection_cb. ty. eapply safe_bind; [apply (safe_new_handle _ KTcp)|ty_intro]. ty. Qed.
#[local] Hint Resolve safe_new_stream_connection_cb : typing.
Lemma safe_on_abort Γ h : Γ !! h = Some (KHandle KTcp) -> safe Γ (on_abort h) data.
Proof. intros. unfold on_abort. ty. Qed.
#[local] Hint Resolve safe_on_abort : typing.
Lemma safe_on_stop_listen Γ h : Γ !! h = Some (KHandle KTcp) -> safe Γ (on_stop_listen h) data.
Proof. intros. unfold on_stop_listen. ty. Qed.
#[local] Hint Resolve safe_on_stop_listen : typing.
Lemma safe_on_libuv_close Γ h : Γ !! h = Some (KHandle KTcp) -> safe Γ (on_libuv_close h) data.
Proof. intros. unfold on_libuv_close. ty. Qed.
#[local] Hint Resolve safe_on_libuv_close : typing.
Lemma safe_on_libuv_close_after_error Γ h : Γ !! h = Some (KHandle KTcp) -> safe Γ (on_libuv_close_after_error h) data.
Proof. intros. unfold on_libuv_close_after_error. ty. Qed.
#[local] Hint Resolve safe_on_libuv_close_after_error : typing.
End tcp.
#[export] Hint Resolve safe_tcp_close_connection_group safe_set_keepalive safe_uv_tcp_connect safe_fail_establishment safe_tcp_start_connect
   safe_tcp_init_with_send safe_tcp_init safe_on_connect safe_on_clone_connect safe_tcp_clone_connection safe_tcp_on_read safe_tcp_listen
   safe_new_stream_connection_cb safe_on_abort safe_on_stop_listen safe_on_libuv_close safe_on_libuv_close_after_error : typing.
