(* ===== verification/TypingQuic.v ===== *)
(** The typing of QUIC.

    The rules for the operations, events and callbacks of QuicSockets and
    Quic. *)

From S2P Require Export TypingProtocols.
Open Scope Z_scope.

(** ** Access *)

Section access.
Context (Γ : env).

Lemma safe_modify_quic f :
  (forall w, world_typed Γ w -> world_typed Γ (set_w_quic (f (w_quic w)) w)) -> safe Γ (modify_quic f) data.
Proof. apply safe_modify. Qed.
Lemma safe_log_picoquic c : call_typed Γ c -> safe Γ (log_picoquic c) data.
Proof. intros Hc. apply safe_modify_quic. retype. apply Forall_app_2; [done|by repeat constructor]. Qed.

Lemma safe_put_socket_state s st : Γ !! s = Some KSocket -> socket_typed Γ st -> safe Γ (put_socket_state s st) data.
Proof. intros Hs Hst. apply safe_modify_quic. retype. by apply map_Forall_insert_2. Qed.
Lemma safe_update_socket_state s f :
  Γ !! s = Some KSocket -> (forall x, socket_typed Γ x -> socket_typed Γ (f x)) -> safe Γ (update_socket_state s f) data.
Proof.
  intros Hs Hf. apply (safe_update Γ (fun w => q_sockets (w_quic w)) (fun v w => set_w_quic (set_q_sockets (<[s:=v]> (q_sockets (w_quic w))) (w_quic w)) w)).
  - done.
  - intros w x Hw Hx. destruct (ty_sockets _ _ Hw s x Hx) as [_ Hst]. specialize (Hf x Hst). revert Hw. retype. by apply map_Forall_insert_2.
Qed.
Lemma safe_put_stream_state s st : Γ !! s = Some KStream -> safe Γ (put_stream_state s st) data.
Proof. intros Hs. apply safe_modify_quic. retype. by apply map_Forall_insert_2. Qed.
Lemma safe_put_group_state s st : Γ !! s = Some KQuicGroup -> safe Γ (put_group_state s st) data.
Proof. intros Hs. apply safe_modify_quic. retype. by apply map_Forall_insert_2. Qed.
Lemma safe_drop_socket s : safe Γ (modify_quic (fun q => set_q_sockets (delete s (q_sockets q)) q)) data.
Proof. apply safe_modify_quic. retype. by apply map_Forall_delete. Qed.
Lemma safe_drop_stream s : safe Γ (modify_quic (fun q => set_q_streams (delete s (q_streams q)) q)) data.
Proof. apply safe_modify_quic. retype. by apply map_Forall_delete. Qed.
Lemma safe_drop_qgroup s : safe Γ (modify_quic (fun q => set_q_groups (delete s (q_groups q)) q)) data.
Proof. apply safe_modify_quic. retype. by apply map_Forall_delete. Qed.
Lemma safe_add_context x : Γ !! x = Some KContext -> safe Γ (modify_quic (fun q => set_q_contexts ({[x]} ∪ q_contexts q) q)) data.
Proof. intros Hx. apply safe_modify_quic. retype. intros y [->%elem_of_singleton|Hy]%elem_of_union; [done|by apply ty_contexts]. Qed.
Lemma safe_drop_context x : safe Γ (modify_quic (fun q => set_q_contexts (q_contexts q ∖ {[x]}) q)) data.
Proof. apply safe_modify_quic. retype. intros y [Hy _]%elem_of_difference. by apply ty_contexts. Qed.
End access.
Lemma safe_load {A} Γ (x : cptr A) : safe Γ (load x) data.
Proof. destruct x; [by apply safe_ub|by apply safe_ret|by apply safe_ub]. Qed.
Lemma safe_index {A} Γ (l : list A) i : safe Γ (index l i) data.
Proof. by eapply safe_data, safe_deref. Qed.
#[export] Hint Resolve safe_load safe_index safe_log_picoquic safe_put_socket_state safe_update_socket_state safe_put_stream_state safe_put_group_state
  safe_drop_socket safe_drop_stream safe_drop_qgroup safe_add_context safe_drop_context : typing.

(** ** Sockets *)

Lemma safe_update_group_state Γ g f : Γ !! g = Some KQuicGroup -> safe Γ (update_group_state g f) data.
Proof. intros. unfold update_group_state. ty. Qed.
#[export] Hint Resolve safe_update_group_state : typing.
Lemma safe_context_at Γ c : safe Γ (context_at c) data.
Proof. unfold context_at. ty. Qed.
#[export] Hint Resolve safe_context_at : typing.
Lemma safe_cnx_at `{!Picoquic} Γ c : safe Γ (cnx_at c) data.
Proof. unfold cnx_at. ty. Qed.
#[export] Hint Resolve safe_cnx_at : typing.
Lemma safe_create_udp_poll_on_local Γ e : safe Γ (create_udp_poll_on_local e) (fun Γ => ptr Γ (KHandle KPoll)).
Proof. unfold create_udp_poll_on_local. ty. eapply safe_bind; [apply (safe_new_handle _ KPoll)|ty_intro]. ty. Qed.
#[export] Hint Resolve safe_create_udp_poll_on_local : typing.
Lemma safe_resolve_local_endpoint_from_poll Γ h p c :
  ptr Γ (KHandle KPoll) h -> Γ !! c = Some (KConnection p) -> safe Γ (resolve_local_endpoint_from_poll h c) data.
Proof. intros. unfold resolve_local_endpoint_from_poll. ty. Qed.
#[export] Hint Resolve safe_resolve_local_endpoint_from_poll : typing.
Lemma safe_ct_create_quic_group_state Γ : safe Γ (ct_create_quic_group_state) (fun Γ => quic_ptr Γ CT_PROTOCOL_QUIC KQuicGroup).
Proof. unfold ct_create_quic_group_state. ty. eapply safe_bind; [apply (safe_fresh_id _ KQuicGroup)|ty_intro]. ty. Qed.
#[export] Hint Resolve safe_ct_create_quic_group_state : typing.
Lemma safe_free_group_state Γ g : safe Γ (free_group_state g) data.
Proof. unfold free_group_state. ty. Qed.
#[export] Hint Resolve safe_free_group_state : typing.
Lemma safe_ct_quic_stream_state_new Γ : safe Γ (ct_quic_stream_state_new) (fun Γ => quic_ptr Γ CT_PROTOCOL_QUIC KStream).
Proof. unfold ct_quic_stream_state_new. ty. eapply safe_bind; [apply (safe_fresh_id _ KStream)|ty_intro]. ty. Qed.
#[export] Hint Resolve safe_ct_quic_stream_state_new : typing.
Lemma safe_free_stream_state Γ s : safe Γ (free_stream_state s) data.
Proof. unfold free_stream_state. ty. Qed.
#[export] Hint Resolve safe_free_stream_state : typing.
Lemma safe_quic_free_state Γ c : Γ !! c = Some (KConnection CT_PROTOCOL_QUIC) -> safe Γ (quic_free_state c) data.
Proof. intros. unfold quic_free_state. ty. Qed.
#[export] Hint Resolve safe_quic_free_state : typing.
Lemma safe_ct_free_quic_connection_group_state Γ g : Γ !! g = Some (KGroup CT_PROTOCOL_QUIC) -> safe Γ (ct_free_quic_connection_group_state g) data.
Proof. intros. unfold ct_free_quic_connection_group_state. ty. Qed.
#[export] Hint Resolve safe_ct_free_quic_connection_group_state : typing.
Lemma safe_free_socket_state Γ s : safe Γ (free_socket_state s) data.
Proof. unfold free_socket_state. ty. Qed.
#[export] Hint Resolve safe_free_socket_state : typing.
Lemma safe_free_strings Γ s : safe Γ (free_strings s) data.
Proof. unfold free_strings. ty. Qed.
#[export] Hint Resolve safe_free_strings : typing.
Lemma safe_picoquic_create Γ a b c : safe Γ (picoquic_create a b c) (fun Γ => ptr Γ KContext).
Proof. unfold picoquic_create. ty. eapply safe_bind; [apply (safe_fresh_id _ KContext)|ty_intro]. ty. Qed.
#[export] Hint Resolve safe_picoquic_create : typing.
Lemma safe_picoquic_free Γ x : safe Γ (picoquic_free x) data.
Proof. unfold picoquic_free. ty. Qed.
#[export] Hint Resolve safe_picoquic_free : typing.
Lemma safe_create_picoquic_ctx Γ s a : Γ !! s = Some KSocket -> safe Γ (create_picoquic_ctx s a) (fun Γ => ptr Γ KSocket).
Proof. intros. unfold create_picoquic_ctx. ty. eapply safe_bind; [apply (safe_new_handle _ KTimer)|ty_intro]. ty. Qed.
#[export] Hint Resolve safe_create_picoquic_ctx : typing.
Lemma safe_ct_quic_socket_state_new Γ a b m s x :
  Γ !! m = Some (KManager CT_PROTOCOL_QUIC) -> safe Γ (ct_quic_socket_state_new a b m s x) (fun Γ => ptr Γ KSocket).
Proof. intros. unfold ct_quic_socket_state_new. ty. eapply safe_bind; [apply (safe_fresh_id _ KSocket)|ty_intro]. ty. Qed.
#[export] Hint Resolve safe_ct_quic_socket_state_new : typing.
Lemma safe_uv_timer_stop Γ t : Γ !! t = Some (KHandle KTimer) -> safe Γ (uv_timer_stop t) data.
Proof. intros. unfold uv_timer_stop. ty. Qed.
#[export] Hint Resolve safe_uv_timer_stop : typing.
Lemma safe_uv_timer_start Γ t : Γ !! t = Some (KHandle KTimer) -> safe Γ (uv_timer_start t) data.
Proof. intros. unfold uv_timer_start. ty. Qed.
#[export] Hint Resolve safe_uv_timer_start : typing.
Lemma safe_reset_quic_timer Γ s : ptr Γ KSocket s -> safe Γ (reset_quic_timer s) data.
Proof. intros. unfold reset_quic_timer. ty. Qed.
#[export] Hint Resolve safe_reset_quic_timer : typing.
Lemma safe_ct_close_quic_context Γ s : ptr Γ KSocket s -> safe Γ (ct_close_quic_context s) data.
Proof. intros. unfold ct_close_quic_context. ty. Qed.
#[export] Hint Resolve safe_ct_close_quic_context : typing.
Lemma safe_quic_state_of Γ m : Γ !! m = Some (KManager CT_PROTOCOL_QUIC) -> safe Γ (quic_state_of m) (fun Γ => ptr Γ KSocket).
Proof. intros. unfold quic_state_of. ty. Qed.
#[export] Hint Resolve safe_quic_state_of : typing.
Lemma safe_quic_close_socket Γ m : Γ !! m = Some (KManager CT_PROTOCOL_QUIC) -> safe Γ (quic_close_socket m) data.
Proof. intros. unfold quic_close_socket. ty. Qed.
#[export] Hint Resolve safe_quic_close_socket : typing.
Lemma safe_quic_closed_poll_handle_cb Γ h : Γ !! h = Some (KHandle KPoll) -> safe Γ (quic_closed_poll_handle_cb h) data.
Proof. intros. unfold quic_closed_poll_handle_cb. ty. Qed.
#[export] Hint Resolve safe_quic_closed_poll_handle_cb : typing.
Lemma safe_socket_timer_close_cb Γ h : Γ !! h = Some (KHandle KTimer) -> safe Γ (socket_timer_close_cb h) data.
Proof. intros. unfold socket_timer_close_cb. ty. Qed.
#[export] Hint Resolve safe_socket_timer_close_cb : typing.
Lemma safe_free_handle_ptr Γ k h : ptr Γ (KHandle k) h -> safe Γ (free_handle_ptr h) data.
Proof. intros. unfold free_handle_ptr. ty. Qed.
#[export] Hint Resolve safe_free_handle_ptr : typing.
Lemma safe_quic_free_socket_state Γ m : Γ !! m = Some (KManager CT_PROTOCOL_QUIC) -> safe Γ (quic_free_socket_state m) data.
Proof. intros. unfold quic_free_socket_state. ty. Qed.
#[export] Hint Resolve safe_quic_free_socket_state : typing.
Lemma safe_ct_quic_send_packet_with_pktinfo Γ h x : ptr Γ (KHandle KPoll) h -> safe Γ (ct_quic_send_packet_with_pktinfo h x) data.
Proof. intros. unfold ct_quic_send_packet_with_pktinfo. ty. Qed.
#[export] Hint Resolve safe_ct_quic_send_packet_with_pktinfo : typing.

(** ** Streams and events *)

Section streams.
Context `{!Picoquic}.

Lemma safe_ct_connection_get_quic_group_state Γ c :
  ptr Γ (KConnection CT_PROTOCOL_QUIC) c -> safe Γ (ct_connection_get_quic_group_state c) (fun Γ => quic_ptr Γ CT_PROTOCOL_QUIC KQuicGroup).
Proof. intros. unfold ct_connection_get_quic_group_state. ty. Qed.
#[local] Hint Resolve safe_ct_connection_get_quic_group_state : typing.
Lemma safe_ct_connection_get_stream_state Γ c :
  ptr Γ (KConnection CT_PROTOCOL_QUIC) c -> safe Γ (ct_connection_get_stream_state c) (fun Γ => quic_ptr Γ CT_PROTOCOL_QUIC KStream).
Proof. intros. unfold ct_connection_get_stream_state, with_connection. ty. Qed.
#[local] Hint Resolve safe_ct_connection_get_stream_state : typing.
Lemma safe_ct_connection_get_quic_socket_state Γ c :
  ptr Γ (KConnection CT_PROTOCOL_QUIC) c -> safe Γ (ct_connection_get_quic_socket_state c) (fun Γ => ptr Γ KSocket).
Proof. intros. unfold ct_connection_get_quic_socket_state. ty. Qed.
#[local] Hint Resolve safe_ct_connection_get_quic_socket_state : typing.
Lemma safe_picoquic_connection_of Γ g : safe Γ (picoquic_connection_of g) data.
Proof. unfold picoquic_connection_of. ty. Qed.
#[local] Hint Resolve safe_picoquic_connection_of : typing.
Lemma safe_ct_connection_get_picoquic_connection Γ c :
  ptr Γ (KConnection CT_PROTOCOL_QUIC) c -> safe Γ (ct_connection_get_picoquic_connection c) data.
Proof. intros. unfold ct_connection_get_picoquic_connection. ty. Qed.
#[local] Hint Resolve safe_ct_connection_get_picoquic_connection : typing.
Lemma safe_ct_quic_connection_group_get_picoquic_cnx Γ p g : Γ !! g = Some (KGroup p) -> safe Γ (ct_quic_connection_group_get_picoquic_cnx g) data.
Proof. intros. unfold ct_quic_connection_group_get_picoquic_cnx. ty. Qed.
#[local] Hint Resolve safe_ct_quic_connection_group_get_picoquic_cnx : typing.
Lemma safe_ct_connection_get_picoquic_instance Γ c : ptr Γ (KConnection CT_PROTOCOL_QUIC) c -> safe Γ (ct_connection_get_picoquic_instance c) data.
Proof. intros. unfold ct_connection_get_picoquic_instance. ty. Qed.
#[local] Hint Resolve safe_ct_connection_get_picoquic_instance : typing.
Lemma safe_ct_connection_stream_is_initialized Γ c : ptr Γ (KConnection CT_PROTOCOL_QUIC) c -> safe Γ (ct_connection_stream_is_initialized c) data.
Proof. intros. unfold ct_connection_stream_is_initialized. ty. Qed.
#[local] Hint Resolve safe_ct_connection_stream_is_initialized : typing.
Lemma safe_ct_connection_get_stream_id Γ c : ptr Γ (KConnection CT_PROTOCOL_QUIC) c -> safe Γ (ct_connection_get_stream_id c) data.
Proof. intros. unfold ct_connection_get_stream_id. ty. Qed.
#[local] Hint Resolve safe_ct_connection_get_stream_id : typing.
Lemma safe_ct_quic_set_connection_stream Γ c n : Γ !! c = Some (KConnection CT_PROTOCOL_QUIC) -> safe Γ (ct_quic_set_connection_stream c n) data.
Proof. intros. unfold ct_quic_set_connection_stream. ty. Qed.
#[local] Hint Resolve safe_ct_quic_set_connection_stream : typing.
Lemma safe_picoquic_set_app_stream_ctx Γ x n c : Γ !! c = Some (KConnection CT_PROTOCOL_QUIC) -> safe Γ (picoquic_set_app_stream_ctx x n c) data.
Proof. intros. unfold picoquic_set_app_stream_ctx. ty. Qed.
#[local] Hint Resolve safe_picoquic_set_app_stream_ctx : typing.
Lemma safe_ct_connection_assign_next_free_stream Γ c b :
  Γ !! c = Some (KConnection CT_PROTOCOL_QUIC) -> safe Γ (ct_connection_assign_next_free_stream c b) data.
Proof. intros. unfold ct_connection_assign_next_free_stream. ty. Qed.
#[local] Hint Resolve safe_ct_connection_assign_next_free_stream : typing.
Lemma safe_picoquic_add_to_stream_with_ctx Γ x n l b c :
  Γ !! c = Some (KConnection CT_PROTOCOL_QUIC) -> safe Γ (picoquic_add_to_stream_with_ctx x n l b c) data.
Proof. intros. unfold picoquic_add_to_stream_with_ctx. ty. Qed.
#[local] Hint Resolve safe_picoquic_add_to_stream_with_ctx : typing.
End streams.
#[export] Hint Resolve safe_ct_connection_get_quic_group_state safe_ct_connection_get_stream_state safe_ct_connection_get_quic_socket_state
   safe_picoquic_connection_of safe_ct_connection_get_picoquic_connection safe_ct_quic_connection_group_get_picoquic_cnx
   safe_ct_connection_get_picoquic_instance safe_ct_connection_stream_is_initialized safe_ct_connection_get_stream_id
   safe_ct_quic_set_connection_stream safe_picoquic_set_app_stream_ctx safe_ct_connection_assign_next_free_stream
   safe_picoquic_add_to_stream_with_ctx : typing.

Section events.
Context `{!Picoquic, !SocketImpl, !Framers, !HashOrder, !TypedSockets, !TypedFramers}.

Lemma safe_connections_to_notify Γ l m :
  all_of Γ (KConnection CT_PROTOCOL_QUIC) l -> ptr Γ (KManager CT_PROTOCOL_QUIC) m ->
  safe Γ (connections_to_notify l m)
    (fun Γ r => ptr Γ (KManager CT_PROTOCOL_QUIC) r.1 /\ all_of Γ (KConnection CT_PROTOCOL_QUIC) r.2).
Proof. revert Γ m. induction l as [|c l IH]; intros Γ m Hl Hm; cbn [connections_to_notify]; ty_open; ty. Qed.
#[local] Hint Resolve safe_connections_to_notify : typing.

Lemma safe_handle_closed_picoquic_connection Γ g : Γ !! g = Some (KGroup CT_PROTOCOL_QUIC) -> safe Γ (handle_closed_picoquic_connection g) data.
Proof. intros. unfold handle_closed_picoquic_connection. ty. Qed.
#[local] Hint Resolve safe_handle_closed_picoquic_connection : typing.
Lemma safe_handle_aborted_picoquic_connection_group Γ g :
  Γ !! g = Some (KGroup CT_PROTOCOL_QUIC) -> safe Γ (handle_aborted_picoquic_connection_group g) data.
Proof. intros. unfold handle_aborted_picoquic_connection_group. ty. Qed.
#[local] Hint Resolve safe_handle_aborted_picoquic_connection_group : typing.
Lemma safe_handle_stream_data Γ c l : Γ !! c = Some (KConnection CT_PROTOCOL_QUIC) -> safe Γ (handle_stream_data c l) data.
Proof. intros. unfold handle_stream_data. ty. Qed.
#[local] Hint Resolve safe_handle_stream_data : typing.
Lemma safe_count_active Γ p l : all_of Γ (KConnection p) l -> safe Γ (count_active l) data.
Proof. revert Γ. induction l as [|c l IH]; intros Γ Hl; cbn [count_active]; [ty|]. ty_open. ty. Qed.
#[local] Hint Resolve safe_count_active : typing.
Lemma safe_group_of Γ p c : Γ !! c = Some (KConnection p) -> safe Γ (group_of c) (fun Γ g => Γ !! g = Some (KGroup p)).
Proof. intros. unfold group_of. ty. Qed.
#[local] Hint Resolve safe_group_of : typing.
Lemma safe_picoquic_close Γ x : safe Γ (picoquic_close x) data.
Proof. unfold picoquic_close. ty. Qed.
#[local] Hint Resolve safe_picoquic_close : typing.
Lemma safe_handle_stream_fin Γ c : ptr Γ (KConnection CT_PROTOCOL_QUIC) c -> safe Γ (handle_stream_fin c) data.
Proof. intros. unfold handle_stream_fin. ty. Qed.
#[local] Hint Resolve safe_handle_stream_fin : typing.
Lemma safe_the_group Γ x : ctx_typed Γ (Some x) -> safe Γ (the_group x) (fun Γ g => Γ !! g = Some (KGroup CT_PROTOCOL_QUIC)).
Proof.
  intros Hx. destruct x as [g|s]; cbn in Hx; [unfold the_group; ty|]. intros w _. cbn. destruct Hx as [Hd _].
  unfold wrong. by rewrite Hd.
Qed.
#[local] Hint Resolve safe_the_group : typing.
Lemma safe_resolve_or_create_stream_connection Γ x g c n :
  ctx_typed Γ (Some g) -> ptr Γ (KConnection CT_PROTOCOL_QUIC) c -> safe Γ (resolve_or_create_stream_connection x g c n) (fun Γ r => ptr Γ (KConnection CT_PROTOCOL_QUIC) r.1.2).
Proof. intros. unfold resolve_or_create_stream_connection. destruct c as [c|]; [ty|]. do 4 (eapply safe_bind; [ty_call|ty_intro]). eapply (safe_bind _ _ _ (fun Γ => ptr Γ (KConnection CT_PROTOCOL_QUIC))); [solve [ty]|ty_intro]. ty. Qed.
#[local] Hint Resolve safe_resolve_or_create_stream_connection : typing.
Lemma safe_probe_locals Γ c x l j : Γ !! c = Some (KConnection CT_PROTOCOL_QUIC) -> safe Γ (probe_locals c x l j) data.
Proof. revert Γ j. induction l as [|e l IH]; intros Γ j Hc; cbn [probe_locals]; ty. Qed.
#[local] Hint Resolve safe_probe_locals : typing.
Lemma safe_probe_all_paths Γ g : Γ !! g = Some (KGroup CT_PROTOCOL_QUIC) -> safe Γ (probe_all_paths g) data.
Proof. intros. unfold probe_all_paths. ty. Qed.
#[local] Hint Resolve safe_probe_all_paths : typing.
Lemma safe_free_initial_message Γ s : Γ !! s = Some KSocket -> safe Γ (free_initial_message s) data.
Proof. intros. unfold free_initial_message. ty. Qed.
#[local] Hint Resolve safe_free_initial_message : typing.
Lemma safe_picoquic_ready Γ x g : Γ !! g = Some (KGroup CT_PROTOCOL_QUIC) -> safe Γ (picoquic_ready x g) data.
Proof. intros. unfold picoquic_ready. ty. Qed.
#[local] Hint Resolve safe_picoquic_ready : typing.
Lemma safe_connection_ready_if Γ b c : Γ !! c = Some (KConnection CT_PROTOCOL_QUIC) -> safe Γ (connection_ready_if b c) data.
Proof. intros. unfold connection_ready_if. ty. Qed.
#[local] Hint Resolve safe_connection_ready_if : typing.
Lemma safe_stream_data Γ x g c n l : ctx_typed Γ (Some g) -> ptr Γ (KConnection CT_PROTOCOL_QUIC) c -> safe Γ (stream_data x g c n l) data.
Proof. intros. unfold stream_data. ty. Qed.
#[local] Hint Resolve safe_stream_data : typing.
Lemma safe_stream_fin Γ x g c n l : ctx_typed Γ (Some g) -> ptr Γ (KConnection CT_PROTOCOL_QUIC) c -> safe Γ (stream_fin x g c n l) data.
Proof. intros. unfold stream_fin. ty. Qed.
#[local] Hint Resolve safe_stream_fin : typing.
Lemma safe_path_available Γ x g : Γ !! g = Some (KGroup CT_PROTOCOL_QUIC) -> safe Γ (path_available x g) data.
Proof. intros. unfold path_available. ty. Qed.
#[local] Hint Resolve safe_path_available : typing.
Lemma safe_picoquic_callback Γ a : args_typed Γ a -> safe Γ (picoquic_callback a) data.
Proof. intros. unfold picoquic_callback. ty. Qed.
#[local] Hint Resolve safe_picoquic_callback : typing.

(** picoquic calls back with the contexts it was given. *)
Lemma safe_run_callbacks Γ : safe Γ (run_callbacks) data.
Proof. unfold run_callbacks. eapply safe_bind; [apply safe_get|]. intros Γ1 w _ Hw. cbn beta in Hw. assert (Hc := ty_callbacks _ _ Hw). destruct (q_callbacks (w_quic w)) as [|l rest]; [ty|]. apply Forall_cons_iff in Hc as [Hl Hrest]. eapply safe_bind; [apply safe_modify_quic; retype|]. intros Γ2 [] HΓ _. apply (safe_for_each args_typed); [intros; by eapply args_weaken| |intros; ty]. eapply list.Forall_impl; [exact Hl|]. intros. by eapply args_weaken. Qed.
#[local] Hint Resolve safe_run_callbacks : typing.

(** ** The timer and the poll handle *)

Lemma safe_picoquic_prepare_next_packet Γ x n : safe Γ (picoquic_prepare_next_packet x n) data.
Proof. unfold picoquic_prepare_next_packet. ty. Qed.
#[local] Hint Resolve safe_picoquic_prepare_next_packet : typing.
Lemma safe_send_packet Γ s n : Γ !! s = Some KSocket -> safe Γ (send_packet s n) data.
Proof. intros. unfold send_packet. ty. Qed.
#[local] Hint Resolve safe_send_packet : typing.
Lemma safe_send_packets Γ s x l : Γ !! s = Some KSocket -> safe Γ (send_packets s x l) data.
Proof. revert Γ. induction l as [|n l IH]; intros Γ Hs; cbn [send_packets]; ty. Qed.
#[local] Hint Resolve safe_send_packets : typing.
Lemma safe_take_packets Γ : safe Γ (take_packets) data.
Proof. unfold take_packets. eapply safe_bind; [apply safe_get|]. intros Γ1 w _ Hw. destruct (q_packets (w_quic w)); [ty|]. eapply safe_bind; [apply safe_modify_quic; retype|ty_intro]. ty. Qed.
#[local] Hint Resolve safe_take_packets : typing.
Lemma safe_on_socket_timer Γ t : Γ !! t = Some (KHandle KTimer) -> safe Γ (on_socket_timer t) data.
Proof. intros. unfold on_socket_timer. ty. Qed.
#[local] Hint Resolve safe_on_socket_timer : typing.
Lemma safe_timer_fired Γ t : Γ !! t = Some (KHandle KTimer) -> safe Γ (timer_fired t) data.
Proof. intros. unfold timer_fired. ty. Qed.
#[local] Hint Resolve safe_timer_fired : typing.
Lemma safe_is_new_cnx Γ x : safe Γ (is_new_cnx x) data.
Proof. unfold is_new_cnx. ty. Qed.
#[local] Hint Resolve safe_is_new_cnx : typing.
Lemma safe_accept_connection Γ l e x : Γ !! l = Some (KListener CT_PROTOCOL_QUIC) -> safe Γ (accept_connection l e x) data.
Proof. intros. unfold accept_connection. ty. Qed.
#[local] Hint Resolve safe_accept_connection : typing.
Lemma safe_accept_if_new Γ m s a x : Γ !! m = Some (KManager CT_PROTOCOL_QUIC) -> Γ !! s = Some KSocket -> safe Γ (accept_if_new m s a x) data.
Proof. intros. unfold accept_if_new. ty. Qed.
#[local] Hint Resolve safe_accept_if_new : typing.
Lemma safe_on_quic_poll_read Γ m l a b x : Γ !! m = Some (KManager CT_PROTOCOL_QUIC) -> safe Γ (on_quic_poll_read m l a b x) data.
Proof. intros. unfold on_quic_poll_read. ty. Qed.
#[local] Hint Resolve safe_on_quic_poll_read : typing.
Lemma safe_poll_recv_cb Γ h n b r x : Γ !! h = Some (KHandle KPoll) -> safe Γ (poll_recv_cb h n b r x) data.
Proof. intros. unfold poll_recv_cb. ty. Qed.
#[local] Hint Resolve safe_poll_recv_cb : typing.

(** ** The operations of the protocol interface *)

Lemma safe_abort_opening Γ c n : Γ !! c = Some (KConnection CT_PROTOCOL_QUIC) -> safe Γ (abort_opening c n) data.
Proof. intros. unfold abort_opening. ty. Qed.
#[local] Hint Resolve safe_abort_opening : typing.
Lemma safe_picoquic_create_cnx Γ x a b : safe Γ (picoquic_create_cnx x a b) data.
Proof. unfold picoquic_create_cnx. ty. eapply safe_bind; [apply (safe_fresh_id _ KContext)|ty_intro]. ty. Qed.
#[local] Hint Resolve safe_picoquic_create_cnx : typing.
Lemma safe_picoquic_set_callback Γ x g : Γ !! g = Some (KGroup CT_PROTOCOL_QUIC) -> safe Γ (picoquic_set_callback x g) data.
Proof. intros. unfold picoquic_set_callback. ty. Qed.
#[local] Hint Resolve safe_picoquic_set_callback : typing.
Lemma safe_picoquic_start_client_cnx Γ x : safe Γ (picoquic_start_client_cnx x) data.
Proof. unfold picoquic_start_client_cnx. ty. Qed.
#[local] Hint Resolve safe_picoquic_start_client_cnx : typing.
Lemma safe_connect_group Γ c s g a :
  Γ !! c = Some (KConnection CT_PROTOCOL_QUIC) -> Γ !! s = Some KSocket -> Γ !! g = Some KQuicGroup -> safe Γ (connect_group c s g a) data.
Proof. intros. unfold connect_group. ty. Qed.
#[local] Hint Resolve safe_connect_group : typing.
Lemma safe_open_on_socket Γ c s b k :
  Γ !! c = Some (KConnection CT_PROTOCOL_QUIC) -> Γ !! s = Some KSocket -> (forall Γ s g, Γ !! c = Some (KConnection CT_PROTOCOL_QUIC) -> Γ !! s = Some KSocket -> Γ !! g = Some KQuicGroup -> safe Γ (k s g) data) -> safe Γ (open_on_socket c s b k) data.
Proof. intros. unfold open_on_socket. ty. Qed.
#[local] Hint Resolve safe_open_on_socket : typing.
Lemma safe_quic_open Γ c b m k :
  Γ !! c = Some (KConnection CT_PROTOCOL_QUIC) -> (forall Γ s g, Γ !! c = Some (KConnection CT_PROTOCOL_QUIC) -> Γ !! s = Some KSocket -> Γ !! g = Some KQuicGroup -> safe Γ (k s g) data) -> safe Γ (quic_open c b m k) data.
Proof. intros. unfold quic_open. ty. Qed.
#[local] Hint Resolve safe_quic_open : typing.
Lemma safe_start_client Γ c s g :
  Γ !! c = Some (KConnection CT_PROTOCOL_QUIC) -> Γ !! s = Some KSocket -> Γ !! g = Some KQuicGroup -> safe Γ (start_client c s g) data.
Proof. intros. unfold start_client. ty. Qed.
#[local] Hint Resolve safe_start_client : typing.
Lemma safe_send_early_data Γ c m x s g :
  Γ !! c = Some (KConnection CT_PROTOCOL_QUIC) -> Γ !! s = Some KSocket -> Γ !! g = Some KQuicGroup -> safe Γ (send_early_data c m x s g) data.
Proof. intros. unfold send_early_data. ty. Qed.
#[local] Hint Resolve safe_send_early_data : typing.
Lemma safe_quic_init Γ c : Γ !! c = Some (KConnection CT_PROTOCOL_QUIC) -> safe Γ (quic_init c) data.
Proof. intros. unfold quic_init. apply safe_quic_open; [done|]. intros. ty. Qed.
#[local] Hint Resolve safe_quic_init : typing.
Lemma safe_quic_init_with_send Γ c m x : Γ !! c = Some (KConnection CT_PROTOCOL_QUIC) -> safe Γ (quic_init_with_send c m x) data.
Proof. intros. unfold quic_init_with_send. apply safe_quic_open; [done|]. intros. ty. Qed.
#[local] Hint Resolve safe_quic_init_with_send : typing.
Lemma safe_run_socket_timer Γ c : Γ !! c = Some (KConnection CT_PROTOCOL_QUIC) -> safe Γ (run_socket_timer c) data.
Proof. intros. unfold run_socket_timer. ty. Qed.
#[local] Hint Resolve safe_run_socket_timer : typing.
Lemma safe_send_fin Γ c g : Γ !! c = Some (KConnection CT_PROTOCOL_QUIC) -> safe Γ (send_fin c g) data.
Proof. intros. unfold send_fin. ty. Qed.
#[local] Hint Resolve safe_send_fin : typing.
Lemma safe_quic_close_connection Γ c : Γ !! c = Some (KConnection CT_PROTOCOL_QUIC) -> safe Γ (quic_close_connection c) data.
Proof. intros. unfold quic_close_connection. ty. Qed.
#[local] Hint Resolve safe_quic_close_connection : typing.
Lemma safe_picoquic_reset_stream Γ x n : safe Γ (picoquic_reset_stream x n) data.
Proof. unfold picoquic_reset_stream. ty. Qed.
#[local] Hint Resolve safe_picoquic_reset_stream : typing.
Lemma safe_picoquic_close_immediate Γ x : safe Γ (picoquic_close_immediate x) data.
Proof. unfold picoquic_close_immediate. ty. Qed.
#[local] Hint Resolve safe_picoquic_close_immediate : typing.
Lemma safe_reset_timer_of Γ c : Γ !! c = Some (KConnection CT_PROTOCOL_QUIC) -> safe Γ (reset_timer_of c) data.
Proof. intros. unfold reset_timer_of. ty. Qed.
#[local] Hint Resolve safe_reset_timer_of : typing.
Lemma safe_quic_abort Γ c : Γ !! c = Some (KConnection CT_PROTOCOL_QUIC) -> safe Γ (quic_abort c) data.
Proof. intros. unfold quic_abort. ty. Qed.
#[local] Hint Resolve safe_quic_abort : typing.
Lemma safe_quic_clone_connection Γ s c :
  Γ !! s = Some (KConnection CT_PROTOCOL_QUIC) -> Γ !! c = Some (KConnection CT_PROTOCOL_QUIC) -> safe Γ (quic_clone_connection s c) data.
Proof. intros. unfold quic_clone_connection. ty. Qed.
#[local] Hint Resolve safe_quic_clone_connection : typing.
Lemma safe_quic_send Γ c m x : Γ !! c = Some (KConnection CT_PROTOCOL_QUIC) -> safe Γ (quic_send c m x) data.
Proof. intros. unfold quic_send. ty. Qed.
#[local] Hint Resolve safe_quic_send : typing.
Lemma safe_quic_listen Γ m : Γ !! m = Some (KManager CT_PROTOCOL_QUIC) -> safe Γ (quic_listen m) data.
Proof. intros. unfold quic_listen. ty. Qed.
#[local] Hint Resolve safe_quic_listen : typing.
Lemma safe_quic_close_listener Γ m : Γ !! m = Some (KManager CT_PROTOCOL_QUIC) -> safe Γ (quic_close_listener m) data.
Proof. intros. unfold quic_close_listener. ty. Qed.
#[local] Hint Resolve safe_quic_close_listener : typing.
Lemma safe_quic_close_connection_group Γ g : Γ !! g = Some (KGroup CT_PROTOCOL_QUIC) -> safe Γ (quic_close_connection_group g) data.
Proof. intros. unfold quic_close_connection_group. ty. Qed.
#[local] Hint Resolve safe_quic_close_connection_group : typing.
Lemma safe_ct_quic_set_connection_priority Γ c n : Γ !! c = Some (KConnection CT_PROTOCOL_QUIC) -> safe Γ (ct_quic_set_connection_priority c n) data.
Proof. intros. unfold ct_quic_set_connection_priority. ty. Qed.
#[local] Hint Resolve safe_ct_quic_set_connection_priority : typing.
End events.
#[export] Hint Resolve safe_picoquic_callback safe_timer_fired safe_poll_recv_cb safe_quic_init safe_quic_init_with_send
  safe_quic_close_connection safe_quic_abort safe_quic_clone_connection safe_quic_send safe_quic_listen safe_quic_close_listener
  safe_quic_close_connection_group safe_ct_quic_set_connection_priority : typing.
