(* ===== verification/TypeSafety.v ===== *)
(** Type safety.

    The library's entry points and the events of the loop as the steps of a
    transition system, and the theorems that no reachable world makes the
    library use an object at a type it does not have (Typing). *)

From S2P Require Export Preconnection TypingQuic Lifecycle.
Open Scope Z_scope.

(** ** The protocols *)

#[export] Hint Extern 1 TypedSockets => exact _ : typing.
#[export] Hint Extern 1 TypedClose => exact _ : typing.
#[export] Hint Extern 1 TypedProtocols => exact _ : typing.

#[export] Instance typed_ctaps_sockets : TypedSockets.
Proof. split; intros Γ []; intros; cbn; ty. Qed.

#[export] Instance typed_ctaps_close `{!Picoquic, !Framers, !TypedFramers, !HashOrder} : TypedClose.
Proof. split. intros Γ []; intros; cbn [impl_close_connection ctaps_close]; ty. Qed.

#[export] Instance typed_ctaps_protocols `{!Picoquic, !Framers, !TypedFramers, !HashOrder} : TypedProtocols.
Proof. split; intros Γ []; intros; simplify_eq/=; ty. Qed.

(** ** The loop *)

Section loop.
Context `{!Picoquic, !Framers, !TypedFramers, !HashOrder}.

Lemma safe_run_close_cb Γ cb h : Γ !! h = Some (KHandle (close_kind cb)) -> safe Γ (run_close_cb cb h) data.
Proof. destruct cb; cbn [close_kind]; intros; cbn [run_close_cb]; ty. Qed.

(** A closed handle keeps what it points to. *)
Lemma handle_typed_closed Γ k x : handle_typed Γ k x -> handle_typed Γ k (set_phase HandleClosed x).
Proof. intros []. by split. Qed.

Lemma safe_handle_closed Γ k h : Γ !! h = Some (KHandle k) -> safe Γ (handle_closed h) data.
Proof.
  intros Hh. unfold handle_closed. eapply safe_bind; [ty_call|ty_intro]. destruct (uh_phase a) as [|cb|]; [ty| |ty].
  eapply safe_bind; [eapply safe_update_handle; eauto using handle_typed_closed|ty_intro]. destruct cb as [cb|]; [|ty].
  cbn in *. subst k. by apply safe_run_close_cb.
Qed.

(** What an operation that is safe in [Γ] does to a typed world. *)
Definition ends_typed {A} (r : outcome (A * world)) (Γ : env) : Prop :=
  match r with
  | Ok (_, w') => exists Γ', Γ ⊆ Γ' /\ world_typed Γ' w'
  | UB why => wrong Γ why = false
  end.

Lemma safe_ends {A} Γ (m : M world A) w : safe Γ m data -> world_typed Γ w -> ends_typed (m w) Γ.
Proof. intros Hm Hw. specialize (Hm w Hw). unfold ends_typed. destruct (m w) as [[a w']|]; [|done]. destruct Hm as (Γ' & ? & ? & _). eauto. Qed.

Lemma handle_kind_of Γ w h x : world_typed Γ w -> w_handles w !! h = Some x ->
  exists k, Γ !! h = Some (KHandle k) /\ handle_typed Γ k x.
Proof. intros Hw. apply (ty_handles _ _ Hw). Qed.
Lemma request_kind_of Γ w r x : world_typed Γ w -> w_requests w !! r = Some x ->
  exists k, Γ !! r = Some (KRequest k) /\ request_typed Γ k x.
Proof. intros Hw. apply (ty_requests _ _ Hw). Qed.

Lemma reads_with_kind Γ w h cb :
  world_typed Γ w -> reads_with cb h w = true -> Γ !! h = Some (KHandle (read_kind cb)).
Proof.
  unfold reads_with. intros Hw Hr%bool_decide_eq_true. destruct (w_handles w !! h) as [x|] eqn:Hx; [|done].
  destruct (handle_kind_of _ _ _ _ Hw Hx) as (k & Hk & Ht). apply ty_uh_read in Ht. cbn in Hr. injection Hr as Hr. rewrite Hr in Ht. by subst.
Qed.

Lemma at_handle {B} h x (k : uv_handle -> M world B) w : w_handles w !! h = Some x -> (handle_at h ≫= k) w = k x w.
Proof. intros Hx. unfold handle_at, mbind, M_bind, get. by rewrite Hx. Qed.
Lemma at_request {B} r x (k : request -> M world B) w : w_requests w !! r = Some x -> (request_at r ≫= k) w = k x w.
Proof. intros Hx. unfold request_at, mbind, M_bind, get. by rewrite Hx. Qed.

(** Every event that may happen is handled by functions for the types of its
    objects. *)
Lemma run_event_ends_typed Γ e w : world_typed Γ w -> possible e w = true -> ends_typed (run_event e w) Γ.
Proof.
  intros Hw He. destruct e as [r n|r n|r n|h r|h r|h n|h n b r c|h|h]; cbn [run_event possible] in *.
  - destruct (w_requests w !! r) as [[d| |]|] eqn:Hr; try done. destruct (request_kind_of _ _ _ _ Hw Hr) as (k & Hk & -> & _).
    eapply safe_ends, Hw. ty.
  - destruct (w_requests w !! r) as [[d|h c [] |]|] eqn:Hr; try done. destruct (request_kind_of _ _ _ _ Hw Hr) as (k & Hk & -> & Hh).
    unfold tcp_connected. rewrite (at_request _ _ _ _ Hr). eapply safe_ends, Hw.
    eapply safe_bind; [eapply safe_set_request; [exact Hk|by split]|ty_intro]. ty.
  - destruct (w_requests w !! r) as [[d| |h d]|] eqn:Hr; try done. destruct (request_kind_of _ _ _ _ Hw Hr) as (k & Hk & -> & _).
    eapply safe_ends, Hw. ty.
  - apply andb_prop in He as [_ He]. destruct (w_handles w !! h) as [x|] eqn:Hx; [|done].
    destruct (handle_kind_of _ _ _ _ Hw Hx) as (k & Hk & Ht). apply ty_uh_read in Ht. unfold udp_readable, alloc_buffer. rewrite (at_handle _ _ _ _ Hx).
    destruct (uh_read x) as [[]|]; try done; cbn in Ht; subst k; eapply safe_ends, Hw; ty.
  - apply andb_prop in He as [_ He]. destruct (w_handles w !! h) as [x|] eqn:Hx; [|done].
    destruct (handle_kind_of _ _ _ _ Hw Hx) as (k & Hk & Ht). apply ty_uh_read in Ht. unfold tcp_readable, alloc_cb. rewrite (at_handle _ _ _ _ Hx).
    destruct (uh_read x) as [[]|]; try done; cbn in Ht; subst k; eapply safe_ends, Hw; ty.
  - apply andb_prop in He as [_ He]. destruct (w_handles w !! h) as [x|] eqn:Hx; [|done].
    destruct (handle_kind_of _ _ _ _ Hw Hx) as (k & Hk & Ht). rewrite (ty_uh_listening _ _ _ Ht He) in Hk. eapply safe_ends, Hw. ty.
  - apply andb_prop in He as [_ He]. apply (reads_with_kind Γ) in He; [|done]. cbn [read_kind] in He. eapply safe_ends, Hw. ty.
  - apply andb_prop in He as [_ He]. apply (reads_with_kind Γ) in He; [|done]. cbn [read_kind] in He. eapply safe_ends, Hw. ty.
  - unfold phase_of in He. destruct (w_handles w !! h) as [x|] eqn:Hx; [|done].
    destruct (handle_kind_of _ _ _ _ Hw Hx) as (k & Hk & _). by eapply safe_ends, Hw; apply (safe_handle_closed Γ k).
Qed.
End loop.

(** ** Listeners, and what candidate racing calls *)

Lemma calm_protocol_candidate_free p : calm (ct_protocol_candidate_free p).
Proof. calm. Qed.
#[export] Hint Resolve calm_protocol_candidate_free : calm.
Lemma calm_local_free e : calm (ct_local_endpoint_free e).
Proof. calm. Qed.
#[export] Hint Resolve calm_local_free : calm.
Lemma calm_free_candidate_array l : calm (free_candidate_array l).
Proof. calm. Qed.
#[export] Hint Resolve calm_free_candidate_array : calm.
Lemma calm_clear_alpn s : calm (ct_security_parameters_clear_alpn s).
Proof. calm. Qed.
Lemma calm_add_alpn s a : calm (ct_security_parameters_add_alpn s a).
Proof. calm. Qed.
#[export] Hint Resolve calm_clear_alpn calm_add_alpn : calm.

Lemma safe_update_security Γ p c f : Γ !! c = Some (KConnection p) -> (forall s, calm (f s)) -> safe Γ (update_security c f) data.
Proof. intros. unfold update_security. ty. Qed.

Section listeners.
Context `{!Picoquic, !Framers, !TypedFramers, !HashOrder}.

Lemma safe_ct_listener_close Γ p l : Γ !! l = Some (KListener p) -> safe Γ (ct_listener_close l) data.
Proof. intros. unfold ct_listener_close. ty. Qed.
Lemma safe_ct_listener_free Γ p l : ptr Γ (KListener p) l -> safe Γ (ct_listener_free l) data.
Proof. intros. unfold ct_listener_free. ty. Qed.
#[local] Hint Resolve safe_ct_listener_close safe_ct_listener_free : typing.
Lemma safe_ct_listener_new Γ t e lcbs cbs s impl :
  safe Γ (ct_listener_new t e lcbs cbs s (Some impl)) (fun Γ => ptr Γ (KListener (pi_enum impl))).
Proof.
  unfold ct_listener_new. destruct e; [|ty]. eapply safe_bind; [ty_call|ty_intro]. ty_step; [ty|].
  eapply safe_bind; [apply (safe_fresh_id _ (KListener (pi_enum impl)))|ty_intro]. cbv zeta. ty.
Qed.
#[local] Hint Resolve safe_ct_listener_new : typing.
Lemma safe_fail_listen Γ cbs r : safe Γ (fail_listen cbs r) data.
Proof. unfold fail_listen. ty. Qed.
#[local] Hint Resolve safe_fail_listen : typing.
Lemma safe_candidates_ready Γ p lcbs cbs nodes : safe Γ (ct_listener_candidate_node_array_ready_cb p lcbs cbs nodes) data.
Proof. unfold ct_listener_candidate_node_array_ready_cb. ty. Qed.
End listeners.
#[export] Hint Resolve safe_update_security safe_ct_listener_close safe_ct_listener_free safe_candidates_ready : typing.

(** ** The program as a transition system *)

(** What the application and candidate racing call: for connections, the
    entry points of connection.c and what candidate_racing.c does to an
    attempt; for listeners, [ct_preconnection_listen] once the candidates are
    gathered, and the entry points of listener.c. *)
Inductive operation : Type :=
| CreateClient (protocol : ct_protocol_impl) (locals : list ct_local_endpoint) (i : nat) (remotes : list ct_remote_endpoint)
    (j : nat) (properties : ct_transport_properties) (security : option ct_security_parameters)
    (callbacks : ct_connection_callbacks) (framer : option ct_framer_impl)
| ClearAlpn (connection : id)
| AddAlpn (connection : id) (alpn : string)
| Initiate (connection : id)
| InitiateWithSend (connection : id) (message : option ct_message) (context : option ct_message_context)
| SetCallbacks (connection : id) (callbacks : ct_connection_callbacks)
| ReportSent (connection : id) (context : option ct_message_context)
| ReportSendError (connection : id) (context : option ct_message_context) (reason : Z)
| SendMessage (connection : id) (message : option ct_message) (context : option ct_message_context)
| ReceiveMessage (connection : id) (callbacks : ct_receive_callbacks)
| CloneConnection (connection : id) (framer : option ct_framer_impl)
| SetPriority (connection : id) (priority : Z)
| CloseConnection (connection : id)
| AbortConnection (connection : id)
| CloseGroup (connection : id)
| AbortGroup (connection : id)
| FreeConnection (connection : id)
| Listen (preconnection : ct_preconnection) (listener_callbacks : ct_listener_callbacks)
    (connection_callbacks : ct_connection_callbacks) (candidates : option (list ct_candidate_node))
| CloseListener (listener : id)
| FreeListener (listener : id).

(** The object an operation is for exists. *)
Definition live (op : operation) (w : world) : bool :=
  match op with
  | CreateClient _ _ _ _ _ _ _ _ _ | Listen _ _ _ _ => true
  | ClearAlpn c | AddAlpn c _ | Initiate c | InitiateWithSend c _ _ | SetCallbacks c _ | ReportSent c _
  | ReportSendError c _ _ | SendMessage c _ _ | ReceiveMessage c _ | CloneConnection c _ | SetPriority c _
  | CloseConnection c | AbortConnection c | CloseGroup c | AbortGroup c | FreeConnection c =>
      is_Some_b (w_connections w !! c)
  | CloseListener l | FreeListener l => is_Some_b (w_listeners w !! l)
  end.

(** What the outside decides: which allocations succeed, what the calls of
    the system return, what picoquic sends and which calls of
    [picoquic_callback] it makes. *)
Record outside := Outside {
  o_allocations : list bool;
  o_uv : list Z;
  o_names : list sockaddr;
  o_entropy : list (list Z);
  o_packets : list (list packet);
  o_callbacks : list (list callback_args) }.

Definition provide (o : outside) (w : world) : world :=
  set_w_heap (Heap (o_allocations o) (h_live (w_heap w)))
    (set_w_uv (o_uv o) (set_w_names (o_names o) (set_w_entropy (o_entropy o)
      (set_w_quic (set_q_packets (o_packets o) (set_q_callbacks (o_callbacks o) (w_quic w))) w)))).

(** picoquic passes the context that [picoquic_set_callback] gave it for the
    connection, or the default context with which the library created a context
    of picoquic: the state of an open QUIC socket.  For a stream it passes the
    one it was given for that stream. *)
Definition gives_group (cnx g : id) (c : picoquic_call) : bool :=
  match c with PqSetCallback x g' => bool_decide (x = cnx) && bool_decide (g' = g) | _ => false end.
Definition gives_stream (cnx : id) (stream_id : Z) (conn : id) (c : picoquic_call) : bool :=
  match c with
  | PqSetAppStreamCtx x n c | PqAddToStream x n _ _ c =>
      bool_decide (x = cnx) && bool_decide (n = stream_id) && bool_decide (c = conn)
  | _ => false
  end.
Definition given (w : world) (a : callback_args) : bool :=
  let log := q_log (w_quic w) in
  match ca_callback_ctx a with
  | Some (GroupCtx g) => existsb (gives_group (ca_cnx a) g) log
  | Some (SocketCtx s) => is_Some_b (q_sockets (w_quic w) !! s)
  | None => true
  end &&
  match ca_stream_ctx a with
  | Some c => existsb (gives_stream (ca_cnx a) (ca_stream_id a) c) log
  | None => true
  end.
Definition outside_ok (o : outside) (w : world) : bool := forallb (forallb (given w)) (o_callbacks o).

Section system.
Context `{!Picoquic, !Framers, !HashOrder}.

Definition run_op (op : operation) : M world unit :=
  match op with
  | CreateClient p l i r j t s cbs f => rop_create_client p l i r j t s cbs f ;; mret tt
  | ClearAlpn c => rop_clear_alpn c
  | AddAlpn c alpn => rop_add_alpn c alpn
  | Initiate c => rop_init c ;; mret tt
  | InitiateWithSend c m x => rop_init_with_send c m x ;; mret tt
  | SetCallbacks c cbs => rop_set_callbacks c cbs
  | ReportSent c x => rop_message_sent c x
  | ReportSendError c x r => rop_message_send_error c x r
  | SendMessage c m x => ct_send_message_full c m x ;; mret tt
  | ReceiveMessage c cbs => ct_receive_message (Some c) (Some cbs) ;; mret tt
  | CloneConnection c f => ct_connection_clone_full c f ;; mret tt
  | SetPriority c n => ct_connection_set_priority (Some c) n ;; mret tt
  | CloseConnection c => ct_connection_close c ;; mret tt
  | AbortConnection c => ct_connection_abort c
  | CloseGroup c => ct_connection_close_group (Some c)
  | AbortGroup c => ct_connection_abort_group (Some c)
  | FreeConnection c => ct_connection_free (Some c)
  | Listen p lcbs cbs nodes => ct_listener_candidate_node_array_ready_cb p lcbs cbs nodes
  | CloseListener l => ct_listener_close l
  | FreeListener l => ct_listener_free (Some l)
  end.

(** The application's calls, the turns of the loop, and the outside taking
    its decisions, in any order. *)
Inductive step : relation world :=
| step_operation op w w' : live op w = true -> run_op op w = Ok (tt, w') -> step w w'
| step_event e w w' : possible e w = true -> run_event e w = Ok (tt, w') -> step w w'
| step_outside o w : outside_ok o w = true -> step w (provide o w).

(** Before the first call there is no object. *)
Definition initial_world (w : world) : Prop :=
  w_connections w = ∅ /\ w_groups w = ∅ /\ w_managers w = ∅ /\ w_listeners w = ∅ /\ w_handles w = ∅ /\ w_requests w = ∅
  /\ w_quic w = quic_empty.
Definition reachable (w : world) : Prop := exists w0, initial_world w0 /\ rtc step w0 w.

(** *** Steps keep the world typed *)

Context `{!TypedFramers}.

Lemma live_connection Γ w c : world_typed Γ w -> is_Some_b (w_connections w !! c) = true -> exists p, Γ !! c = Some (KConnection p).
Proof. intros Hw Hc. destruct (w_connections w !! c) as [x|] eqn:Hx; [|done]. destruct (ty_connections _ _ Hw c x Hx) as (p & ? & _). eauto. Qed.
Lemma live_listener Γ w l : world_typed Γ w -> is_Some_b (w_listeners w !! l) = true -> exists p, Γ !! l = Some (KListener p).
Proof. intros Hw Hc. destruct (w_listeners w !! l) as [x|] eqn:Hx; [|done]. destruct (ty_listeners _ _ Hw l x Hx) as (p & ? & _). eauto. Qed.

Lemma set_callbacks_typed Γ p cbs x : connection_typed Γ p x -> connection_typed Γ p (set_cn_callbacks cbs x).
Proof. intros []. by split. Qed.

Lemma safe_run_op Γ op w : world_typed Γ w -> live op w = true -> safe Γ (run_op op) data.
Proof.
  intros Hw Hl. destruct op; cbn [live] in Hl;
    try (apply (live_connection _ _ _ Hw) in Hl as [p Hl]); try (apply (live_listener _ _ _ Hw) in Hl as [p Hl]);
    cbn [run_op ctaps_race_ops rop_create_client rop_clear_alpn rop_add_alpn rop_init rop_init_with_send rop_set_callbacks
      rop_message_sent rop_message_send_error]; ty.
Qed.

(** The contexts that picoquic was given have the types of their users. *)
Lemma given_typed Γ w a : defaults Γ = true -> world_typed Γ w -> given w a = true -> args_typed Γ a.
Proof.
  intros Hd Hw [Hctx Hstream]%andb_prop. assert (Hlog := ty_log _ _ Hw). split.
  - destruct (ca_callback_ctx a) as [[g|s]|]; [| |done].
    2: { destruct (q_sockets (w_quic w) !! s) as [st|] eqn:Hs; [|done]. split; [done|]. by apply (ty_sockets _ _ Hw s st). }
    apply existsb_exists in Hctx as (c & Hc & Hg). apply list_elem_of_In in Hc.
    rewrite list.Forall_forall in Hlog. specialize (Hlog c Hc). destruct c; try done. cbn in Hg.
    apply andb_prop in Hg as [_ ->%bool_decide_eq_true]. exact Hlog.
  - destruct (ca_stream_ctx a) as [c|]; [|done]. apply existsb_exists in Hstream as (x & Hx & Hg). apply list_elem_of_In in Hx.
    rewrite list.Forall_forall in Hlog. specialize (Hlog x Hx). destruct x; try done; cbn in Hg;
      apply andb_prop in Hg as [_ ->%bool_decide_eq_true]; exact Hlog.
Qed.

Lemma provide_typed Γ o w : defaults Γ = true -> world_typed Γ w -> outside_ok o w = true -> world_typed Γ (provide o w).
Proof.
  intros Hd Hw Ho. assert (Hargs : Forall (Forall (args_typed Γ)) (o_callbacks o)); [|by revert Hw; retype].
  unfold outside_ok in Ho.
  induction (o_callbacks o) as [|l ls IH]; [done|]. cbn in Ho. apply andb_prop in Ho as [Hl Ho]. constructor; [|by apply IH].
  clear -Hd Hl Hw. induction l as [|a l IH]; [done|]. cbn in Hl. apply andb_prop in Hl as [Ha Hl]. constructor; [|by apply IH].
  by eapply given_typed.
Qed.

Lemma step_typed Γ w w' : defaults Γ = true -> world_typed Γ w -> step w w' -> exists Γ', Γ ⊆ Γ' /\ world_typed Γ' w'.
Proof.
  intros Hd Hw Hs. destruct Hs as [op w w' Hl Hr|e w w' He Hr|o w Ho].
  - assert (He := safe_ends _ _ _ (safe_run_op _ op w Hw Hl) Hw). by rewrite Hr in He.
  - assert (He' := run_event_ends_typed _ e w Hw He). by rewrite Hr in He'.
  - exists Γ. split; [done|by apply provide_typed].
Qed.

Lemma initial_typed w : initial_world w -> world_typed (Env ∅ true) w.
Proof.
  intros (Ec & Eg & Em & El & Eh & Er & Eq). split; rewrite ?Ec, ?Eg, ?Em, ?El, ?Eh, ?Er, ?Eq; cbn; try apply map_Forall_empty; try done.
  intros i [k Hk]. unfold lookup, env_lookup in Hk. cbn in Hk. by rewrite lookup_empty in Hk.
Qed.

Lemma reachable_typed w : reachable w -> exists Γ, defaults Γ = true /\ world_typed Γ w.
Proof.
  intros (w0 & Hw0 & Hsteps). assert (exists Γ, defaults Γ = true /\ world_typed Γ w0) as Ht.
  { exists (Env ∅ true). split; [done|by apply initial_typed]. }
  clear Hw0. induction Hsteps as [w|w w1 w' Hs _ IH]; [done|]. apply IH. destruct Ht as (Γ & Hd & Hw).
  destruct (step_typed _ _ _ Hd Hw Hs) as (Γ' & [_ E] & Hw1). exists Γ'. split; [by rewrite <- E|exact Hw1].
Qed.


(** ** The theorems *)

(** A run that uses an object at a type it does not have. *)
Definition goes_wrong {A} (r : outcome A) : bool := match r with UB why => confused why | _ => false end.



(** The protocol whose functions serve an object. *)
Definition served_by (m : option id) (p : ct_protocol_enum) (w : world) : Prop :=
  forall i sm, m = Some i -> w_managers w !! i = Some sm -> sm_protocol sm = p.
Definition state_protocol (s : socket_state) : ct_protocol_enum :=
  match s with
  | UdpSocketState _ => CT_PROTOCOL_UDP | TcpSocketState _ _ _ _ _ _ => CT_PROTOCOL_TCP | QuicSocketState _ => CT_PROTOCOL_QUIC
  end.
Definition serves (w : world) (p : ct_protocol_enum) (c : id) : Prop :=
  forall conn, w_connections w !! c = Some conn -> served_by (cn_socket_manager conn) p w.

(** What the protocols rely on when they cast. *)
Record protocols_agree (w : world) : Prop := {
  agree_state m sm s : w_managers w !! m = Some sm -> sm_internal_socket_manager_state sm = Some s ->
    state_protocol s = sm_protocol sm;
  agree_connections m sm c : w_managers w !! m = Some sm -> c ∈ sm_all_connections sm -> serves w (sm_protocol sm) c;
  agree_demux m sm t c : w_managers w !! m = Some sm -> sm_demux_table sm = Some t -> c ∈ t.*2 -> serves w (sm_protocol sm) c;
  agree_listener m sm l li : w_managers w !! m = Some sm -> sm_listener sm = Some l -> w_listeners w !! l = Some li ->
    served_by (li_socket_manager li) (sm_protocol sm) w;
  agree_group g gr t c c' conn : w_groups w !! g = Some gr -> gr_connections gr = Some t -> c ∈ t.*2 -> c' ∈ t.*2 ->
    w_connections w !! c = Some conn -> forall m sm, cn_socket_manager conn = Some m -> w_managers w !! m = Some sm ->
    serves w (sm_protocol sm) c';
  agree_stream c conn : w_connections w !! c = Some conn -> cn_internal_connection_state conn <> None ->
    served_by (cn_socket_manager conn) CT_PROTOCOL_QUIC w;
  agree_group_state g gr t c : w_groups w !! g = Some gr -> gr_connection_group_state gr <> None ->
    gr_connections gr = Some t -> c ∈ t.*2 -> serves w CT_PROTOCOL_QUIC c }.

Lemma manager_serves Γ w m p : world_typed Γ w -> ptr Γ (KManager p) m -> served_by m p w.
Proof.
  intros Hw Hm i sm -> Hsm. destruct (ty_managers _ _ Hw i sm Hsm) as (p' & Hi & Ht). cbn in Hm. simplify_eq. apply (ty_sm_protocol _ _ _ Ht).
Qed.
Lemma connection_serves Γ w p c : world_typed Γ w -> Γ !! c = Some (KConnection p) -> serves w p c.
Proof.
  intros Hw Hc conn Hconn. destruct (ty_connections _ _ Hw c conn Hconn) as (p' & Hc' & Ht). simplify_eq.
  eapply manager_serves; [exact Hw|apply (ty_cn_manager _ _ _ Ht)].
Qed.
Lemma listener_served Γ w p l li :
  world_typed Γ w -> Γ !! l = Some (KListener p) -> w_listeners w !! l = Some li -> served_by (li_socket_manager li) p w.
Proof.
  intros Hw Hl Hli. destruct (ty_listeners _ _ Hw l li Hli) as (p' & Hl' & Ht). simplify_eq. eapply manager_serves; [exact Hw|exact Ht].
Qed.

(** C12: in every reachable world the objects that are used together belong
    to one protocol.  The state of a socket manager is the state of its
    protocol; the connections of a manager and of its table of remote
    addresses, its listener, and the members of a connection group have socket
    managers of the same protocol; and only connections and groups of QUIC
    have a stream state or a group state. *)
Theorem reachable_protocols_agree w : reachable w -> protocols_agree w.
Proof.
  intros (Γ & _ & Hw)%reachable_typed. split.
  - intros m sm s Hm Hs. destruct (ty_managers _ _ Hw m sm Hm) as (p & _ & Ht). assert (Hst := ty_sm_state _ _ _ Ht).
    rewrite Hs in Hst. rewrite (ty_sm_protocol _ _ _ Ht). destruct s; cbn in Hst; symmetry; apply Hst.
  - intros m sm c Hm Hc. destruct (ty_managers _ _ Hw m sm Hm) as (p & _ & Ht). rewrite (ty_sm_protocol _ _ _ Ht).
    eapply connection_serves, all_of_in; [exact Hw|apply (ty_sm_connections _ _ _ Ht)|exact Hc].
  - intros m sm t c Hm Htab Hc. destruct (ty_managers _ _ Hw m sm Hm) as (p & _ & Ht). rewrite (ty_sm_protocol _ _ _ Ht).
    assert (Hd := ty_sm_demux _ _ _ Ht). rewrite Htab in Hd. by eapply connection_serves, all_of_in.
  - intros m sm l li Hm Hl Hli. destruct (ty_managers _ _ Hw m sm Hm) as (p & _ & Ht). rewrite (ty_sm_protocol _ _ _ Ht).
    assert (Hd := ty_sm_listener _ _ _ Ht). rewrite Hl in Hd. by eapply listener_served.
  - intros g gr t c c' conn Hg Hgt Hc Hc' Hconn m sm Hcm Hm.
    destruct (ty_groups _ _ Hw g gr Hg) as (p & _ & Ht). assert (Hd := ty_gr_members _ _ _ Ht). rewrite Hgt in Hd.
    assert (sm_protocol sm = p) as ->.
    { eapply (connection_serves Γ w p c Hw); [by eapply all_of_in|exact Hconn|exact Hcm|exact Hm]. }
    by eapply connection_serves, all_of_in.
  - intros c conn Hconn Hi. destruct (ty_connections _ _ Hw c conn Hconn) as (p & _ & Ht).
    assert (Hs := ty_cn_state _ _ _ Ht). destruct (cn_internal_connection_state conn); [|done]. destruct Hs as [-> _].
    eapply manager_serves, (ty_cn_manager _ _ _ Ht). exact Hw.
  - intros g gr t c Hg Hi Hgt Hc. destruct (ty_groups _ _ Hw g gr Hg) as (p & _ & Ht).
    assert (Hs := ty_gr_state _ _ _ Ht). destruct (gr_connection_group_state gr); [|done]. destruct Hs as [-> _].
    assert (Hd := ty_gr_members _ _ _ Ht). rewrite Hgt in Hd. by eapply connection_serves, all_of_in.
Qed.
(** ** Events before there is a connection *)

(** A QUIC socket that is read: the handle, its manager and its state. *)
Record reading (h m s ctx : id) (w : world) : Prop := {
  rd_handle : exists x, w_handles w !! h = Some x /\ uh_data x = Some m;
  rd_manager : exists sm, w_managers w !! m = Some sm /\ sm_internal_socket_manager_state sm = Some (QuicSocketState s);
  rd_socket : exists st, q_sockets (w_quic w) !! s = Some st /\ qk_picoquic_ctx st = Some ctx;
  rd_context : ctx ∈ q_contexts (w_quic w) }.

Lemma getname_steps w : exists v uv names, uv_getname w = Ok (v, set_w_names names (set_w_uv uv w)).
Proof.
  unfold uv_getname, uv_rc, mbind, M_bind, get, put, mret, M_ret. destruct w as [? ? ? ? ? ? ? ? uv names ? ? ? ? ?]. cbn.
  destruct uv as [|rc uv]; cbn; [|destruct (rc <? 0)]; destruct names as [|a l]; cbn; unfold set_w_names, set_w_uv; cbn;
    do 3 eexists; reflexivity.
Qed.

Lemma bind_steps {S A B} (m : M S A) (k : A -> M S B) w a w' : m w = Ok (a, w') -> (m ≫= k) w = k a w'.
Proof. intros Hm. unfold mbind, M_bind. by rewrite Hm. Qed.

(** C39: an event of picoquic for a connection that the library has not
    accepted yet uses the socket state as a connection group.  The context
    that [ct_quic_socket_state_new] registers for new connections is the
    [ct_quic_socket_state_t], [picoquic_set_callback] replaces it by the
    connection group only after [picoquic_incoming_packet_ex] has returned, and
    [picoquic_callback] casts it to a group without asking which of the two it
    was given: when picoquic reports data of a stream, or its end, while it
    processes the first datagram (as it does for 0-RTT data), the cast is
    wrong, whatever the datagram and the addresses are. *)
Theorem first_datagram_confusion h m s ctx data from cms cnx a l rest w :
  reading h m s ctx w -> data <> [] ->
  q_callbacks (w_quic w) = (a :: l) :: rest -> ca_callback_ctx a = Some (SocketCtx s) -> ca_stream_ctx a = None ->
  ca_event a ∈ [picoquic_callback_stream_data; picoquic_callback_stream_fin] ->
  run_event (PollReadable h 0 true (PollData data from cms) cnx) w = UB "socket state used as a connection group".
Proof.
  intros [(x & Hx & Hxd) (sm & Hsm & Hst) (st & Hs & Hctx) Hlive] Hdata Hcb Hac Has Hev.
  cbn [run_event]. unfold poll_recv_cb. cbn [Z.ltb Z.compare orb negb]. rewrite (at_handle _ _ _ _ Hx).
  destruct (getname_steps w) as ([rc bound] & uv & names & Hg). rewrite (bind_steps _ _ _ _ _ Hg). rewrite Hxd.
  unfold on_quic_poll_read. rewrite (bool_decide_eq_false_2 (length data = 0%nat)) by (by destruct data).
  unfold quic_state_of, manager_at, socket_state_at, context_at, mbind, M_bind, get. cbn -[destination].
  rewrite Hsm. cbn -[destination]. rewrite Hst. cbn -[destination]. rewrite Hs. cbn -[destination]. rewrite Hctx. cbn -[destination].
  rewrite bool_decide_eq_true_2 by exact Hlive. cbn -[destination].
  unfold run_callbacks, mbind, M_bind, get. cbn -[destination]. rewrite Hcb. cbn -[destination picoquic_callback].
  unfold picoquic_callback. rewrite Hac, Has.
  rewrite !elem_of_cons in Hev. destruct Hev as [-> | [-> | Hev]]; [reflexivity..|]. by apply elem_of_nil in Hev.
Qed.
End system.

(** ** A concrete run *)

Module Typed.
Import Idle.

(** Framers that pass their message on at once. *)
#[export] Instance plain_framers_typed : TypedFramers.
Proof. split; intros Γ p f c m x k Hc Hk; cbn; apply Hk; done. Qed.

(** A client over QUIC: security parameters with an ALPN and a certificate. *)
Definition security : option ct_security_parameters :=
  match (sec ← ct_security_parameters_new;
         '(_, sec) ← ct_security_parameters_add_alpn sec (Some "h3"%string);
         '(_, sec) ← ct_security_parameters_add_client_certificate sec (Some "cert.pem"%string) (Some "key.pem"%string);
         mret sec) (Heap [] 0) with
  | Ok (sec, _) => sec
  | UB _ => None
  end.
Definition create : operation :=
  CreateClient quic_protocol_interface [some_local] 0 [some_remote 443] 0 some_properties security some_callbacks None.

(** It is opened; a datagram completes the handshake, and picoquic reports
    that the connection is ready. *)
Definition ready_event : callback_args := CallbackArgs 10%positive 0 [] picoquic_callback_ready (Some (GroupCtx 3%positive)) None.
Definition replies : outside := Outside [] [] [] [] [] [[ready_event]].
Definition datagram : loop_event := PollReadable 7%positive 0 true (PollData [1; 2; 3] (set_port 443 loopback_v4) []) None.

Definition after (r : outcome (unit * world)) (w : world) : world := match r with Ok (_, w) => w | UB _ => w end.
Definition created : world := after (run_op create empty_world) empty_world.
Definition opening : world := after (run_op (Initiate 1%positive) created) created.
Definition waiting : world := provide replies opening.
Definition established : world := after (run_event datagram waiting) waiting.

Lemma established_reachable : reachable established.
Proof.
  exists empty_world. split; [done|].
  eapply rtc_l; [apply (step_operation create empty_world created); by vm_compute|].
  eapply rtc_l; [apply (step_operation (Initiate 1%positive) created opening); by vm_compute|].
  eapply rtc_l; [apply (step_outside replies opening); by vm_compute|].
  eapply rtc_l; [apply (step_event datagram waiting established); by vm_compute|]. apply rtc_refl.
Qed.
Lemma established_is_ready : w_calls established = [CallConnection (user_fn 4) Ready (Some 1%positive)].
Proof. by vm_compute. Qed.

Lemma reachable_protocols_agree_witness : reachable established /\ protocols_agree established.
Proof. split; [apply established_reachable|apply (reachable_protocols_agree established established_reachable)]. Defined.

(** A listener over QUIC; the first datagram of a new connection carries data. *)
Definition server_security : option ct_security_parameters :=
  match (sec ← ct_security_parameters_new;
         '(_, sec) ← ct_security_parameters_add_alpn sec (Some "h3"%string);
         '(_, sec) ← ct_security_parameters_add_server_certificate sec (Some "cert.pem"%string) (Some "key.pem"%string);
         mret sec) (Heap [] 0) with
  | Ok (sec, _) => sec
  | UB _ => None
  end.
Definition listener_callbacks : ct_listener_callbacks :=
  ListenerCallbacks (Some (user_fn 1)) (Some (user_fn 2)) (Some (user_fn 3)) (Some (user_fn 4)) None.
Definition listen : operation :=
  Listen (PreconnectionOf some_properties server_security (Some [some_local]) None None) listener_callbacks some_callbacks
    (Some [CandidateNode NODE_TYPE_PROTOCOL (Some some_local) None (Some (ProtocolCandidate quic_protocol_interface None))]).
Definition listening : world := after (run_op listen empty_world) empty_world.
Definition early_data : callback_args :=
  CallbackArgs 12%positive 0 [104; 105] picoquic_callback_stream_data (Some (SocketCtx 3%positive)) None.
Definition early_world : world := provide (Outside [] [] [] [] [] [[early_data]]) listening.
Definition first_datagram : loop_event := PollReadable 6%positive 0 true (PollData [1; 2; 3] (set_port 443 loopback_v4) []) (Some 12%positive).



Lemma first_datagram_confusion_witness :
  possible first_datagram early_world = true /\
  picoquic_get_default_callback_context early_world 3%positive = ca_callback_ctx early_data /\
  goes_wrong (run_event first_datagram early_world) = true.
Proof.
  split; [by vm_compute|split; [reflexivity|]].
  assert (run_event first_datagram early_world = UB "socket state used as a connection group") as ->; [|reflexivity].
  eapply (first_datagram_confusion 6%positive 2%positive 3%positive 4%positive); [|done|reflexivity|done|done|by constructor].
  split; try (eexists; split; [vm_compute; reflexivity|reflexivity]). apply (bool_decide_unpack _). by vm_compute.
Defined.
End Typed.
